(* ===== verification/_CoqProject ===== *)
-Q . S2P
Prelude.v
PacketTypes.v
CaptureParse.v
CaptureFormat.v
IpAddress.v
PacketDecode.v
PacketFrames.v
TcpReassembly.v
Dns.v
Sha256.v
CaptureStages.v
CaptureValidate.v
CaptureProofs.v
Text.v
Json.v
DateTime.v
Effects.v
Programs.v
Base64.v
Ps256.v
TrustPolicy.v
PolicyProofs.v
Python.v
Timestamp.v
Identity.v
Archive.v
ArchiveProofs.v
ArchiveSafety.v
ArchiveProgress.v
Observation.v
ObservationProofs.v
Catalogue.v
CollectorRequest.v
Composition.v
PolicyFile.v
Copies.v
Documents.v
CollectorProofs.v
PolicyMaterial.v
MaterialProofs.v
ArtifactReader.v
ReaderProofs.v
ReceiptProofs.v
ContextProofs.v
Sample.v
RequestBounds.v
Revalidation.v
RecordProofs.v
RecordDocuments.v
ProofMaterial.v
AggregateProofs.v
EvidenceGate.v
GateProofs.v
GateRecords.v
Journal.v
JournalHistory.v
Session.v
JournalStore.v
SessionProofs.v
Recovery.v
RecoveryProofs.v
SessionKeeps.v
RecoverySpec.v
Transaction.v
Finalize.v
TransactionProofs.v
FinalizeProofs.v
ReportSet.v
SessionRuns.v
FinalizeSpec.v
Finalization.v
