(* ===== verification/Prelude.v ===== *)
(** * Physical release evidence of cfw-rs: a verification development

    The programs verified here collect and check the physical evidence of a
    release: packet captures and reports made on real machines, kept in a private
    archive, recorded in a crash-safe journal, signed by a service that must be
    asked at most once, composed into a run record and an aggregate of two runs,
    and read again by the gate that grants the release its evidence level.  They
    are the Python modules below [src/scripts/harness] and
    [src/scripts/physical_capture].

    ** The parts and where they are

    Packet evidence ([src/scripts/harness/packet_capture.py]).  Bytes of a
    capture file become a [ParsedCapture], its records become
    [TransportPacket]s, and the validators look for the tokens of a test case in
    them.
    - [PacketTypes]: constants, dataclasses, exceptions, byte readers.
    - [CaptureParse], [CaptureFormat]: the pcap and pcapng parsers, and the file
      format they accept.
    - [IpAddress]: the part of Python's [ipaddress] the decoder uses.
    - [PacketDecode], [PacketFrames]: link, network and transport decoding, and
      the frames it reads back.
    - [TcpReassembly]: token search and reassembly of TCP flows.
    - [Dns]: names, messages, and the exchanges of a staged DNS case.
    - [Sha256]: SHA-256 and its hexadecimal digest.
    - [CaptureStages], [CaptureValidate]: stages, windows, transport families and
      the two validators with their helpers.
    - [CaptureProofs]: what acceptance by a validator means.

    Documents and signatures ([src/scripts/harness/raw_artifacts.py]).
    - [Text]: Python strings as code points, UTF-8, decimals.
    - [Json]: [canonical_json] and [load_json_bytes].
    - [DateTime], [Timestamp]: the UTC times of the journal and of the requests.
    - [Python]: the equality and the text methods of Python the modules use.
    - [Base64], [Ps256]: base64url and the verification of RSA-PSS signatures.
    - [TrustPolicy], [PolicyProofs], [PolicyFile]: the trust policy of the
      collector, its reader, and the policy file of the repository.
    - [PolicyMaterial], [MaterialProofs]: the policy built from key metadata, a
      DER key and an attestation
      ([src/scripts/harness/physical_collector_policy_material.py]).
    - [Copies], [Documents]: what an archived document is read back as, and which
      documents can be encoded, within which size.
    - [ArtifactReader], [ReaderProofs]: the reader of artifact files below one
      directory, over an interface of system calls.

    The archive ([src/scripts/physical_capture/archive.py]).
    - [Effects]: the state, exception and crash monad of all that follows, and
      the program logics on it ([within], [reads], [raises], [returns]).
    - [Programs]: code of which only the operations it may perform are known.
    - [Archive]: [SecureArchive], every operation that changes the disk.
    - [ArchiveProofs], [ArchiveSafety], [ArchiveProgress]: what each operation
      leaves behind, finished, failed or killed, and that a repeated write ends.

    The session ([observation.py] and [session.py] of the same directory).
    - [Observation], [ObservationProofs]: descriptors and the observation
      manifest, and what it binds.
    - [Journal]: states, events, transitions, the bytes of an event record and
      their validation.
    - [JournalHistory]: the abstract journal, a list of entries the state machine
      accepts, and its refinement by replay.
    - [Session]: the session object, appending, completion, views.
    - [Recovery]: opening again, resolution intents, quarantine.
    - [JournalStore]: the invariant of the journal directory.
    - [SessionProofs], [RecoveryProofs], [SessionKeeps]: every operation keeps
      that invariant and every published file.
    - [RecoverySpec]: how recovery resolves a pending record.

    The transactions ([transaction.py]).
    - [Transaction], [TransactionProofs]: the nonce and the receipt transaction
      around a session, the Cloud Run client being a parameter; at most one
      request of a role is sent.
    - [SessionRuns]: sequences of session operations and transactions, each
      ending as it may.

    Requests and composition ([src/scripts/harness/physical_collector_request.py],
    [physical_machine_identity.py]; [composition.py], [policy.py], [proof.py]).
    - [Identity]: the machine and its boot environment, observed by commands.
    - [Catalogue]: the raw artifacts the four harnesses must have.
    - [CollectorRequest]: run contexts, nonce and receipt requests.
    - [Composition]: receipt bindings, the run record, the aggregate.
    - [ProofMaterial]: the proof binding that every report carries.
    - [CollectorProofs], [ReceiptProofs], [ContextProofs], [RequestBounds],
      [Revalidation], [RecordProofs], [RecordDocuments], [AggregateProofs]: when
      each of them is accepted, and that the next step accepts what the last one
      made.  [Sample] is a receipt with every required artifact.

    Finalization ([finalize.py]).
    - [Finalize]: the phases from the frozen observations to the run record.
    - [ReportSet], [FinalizeProofs], [FinalizeSpec], [Finalization]: what each
      phase leaves in archive and journal, and what the whole guarantees.

    The release gate ([src/scripts/harness/physical_evidence_aggregator.py]).
    - [EvidenceGate]: the aggregate, its runs, reports and receipts, read again
      below one directory, and the summary that is bound to the archive.
    - [GateProofs]: what a grant means.
    - [GateRecords]: what composition signed is what the gate verifies.

    ** Effects and failures

    Functions that only compute are Rocq functions; those that only raise return
    a [result], whose error type lists the exceptions the code can raise,
    those it should not raise ([IndexError], [struct.error]) included.
    Functions that touch the archive are in [Effects.M]: a state goes in, an
    outcome ([Ret], [Raise] or [Crash]) and a state come out.  Every system call
    that changes the disk asks the environment [Archive.e_fault] whether it
    succeeds, fails, or is the last one of the process, before or after its
    effect; a write may stop after any number of bytes.  A crash runs no handler.
    The theorems on sessions hold for every environment, so for every sequence of
    failures and kills; the operations of one run may each have an environment of
    their own.  [e_uuid] is the source of pending names and [e_now] the clock,
    about which nothing is assumed unless a statement says so.

    The artifact reader works in a directory that other processes may change
    between any two system calls: its calls are the class [ArtifactReader.Posix],
    of which only a bound on [read] is assumed, and [ArtifactReader.Quiet] is the
    instance in which nobody changes anything.  The materialisers of reports and
    the validators of the four harnesses are [Programs.program]s: arbitrary code
    that reaches the archive or the reader only through the operations it is
    handed, and that may answer and raise anything.

    ** What the theorems show

    - At most once: [at_most_one_request], [request_written_ahead],
      [resumed_request_binding].
    - The journal: [journal_always_replays], [replay_refines_history],
      [hash_chain_binds_history]; recovery: [pending_attempt_discarded].
    - The archive: [archive_is_append_only], [interrupted_write_completes]; the
      manifest: [load_manifest_exact], [manifest_binds_evidence].
    - Finalization: [finalize_returns_record], [receipt_has_grounds],
      [finalized_for_good], [interrupted_run_closes], [validated_reports_backed].
    - The gate: [grant_sound] and [grant_accounts], for whatever happens to the
      evidence while it is read; [composed_run_at_gate] and
      [composed_aggregate_opens], that it accepts what the pipeline composes.
    - The artifact reader: [reader_accounts], [reader_sees_the_tree].
    - Requests and records: [context_accepted_again],
      [receipt_request_always_fits], [request_revalidates],
      [proof_material_exact], [run_record_exact], [receipt_digest_binds],
      [aggregate_exact], [run_records_aggregate], [machine_digest_binds].
    - Signatures: [verify_ps256_exact], [parse_trust_policy_exact],
      [parse_rsa_spki_exact], [built_policy_exact].
    - Packet evidence: [validate_staged_sound], [validate_staged_dns_accounts],
      and the exact accounts of parsers, reassembly and token search.
    - Documents: [canonical_json_roundtrip].
    Statements that need a hash to be collision-free say so by exhibiting the two
    byte strings that would collide.

    ** Bounds and fuel

    Loops over a byte offset ([CaptureParse], [Dns], [TcpReassembly]) are
    fixpoints on fuel, one more than the length of the data; each pass advances
    the offset, and the [_safe] lemmas of those files show that the fuel never
    runs out.  The JSON reader has fuel for its nesting, which
    [load_json_bytes] bounds.  The chunk loop of the artifact reader may make
    2 ^ 27 reads; an artifact has fewer than 10 ^ 8 bytes and every read but the
    last returns one at least, so [reader_sees_the_tree] needs no fuel argument.
    Everything else is structural.

    ** Not modelled

    - Of the archive: modes, owners, links and the [stat] comparisons that guard
      against other processes; the directories above the archive root.  The
      reader's descriptors are not closed, and closing or duplicating one does not
      fail.
    - [timestamp_fraction] of packet_capture.py.  Of [datetime.fromisoformat] the
      grammar that [UTC_TIMESTAMP_RE] admits; the gate calls it without that
      pattern, and there it is a parameter.
    - The schema validation inside the harnesses ([lifecycle_matrix.py],
      [packet_evidence.py], [performance_gates.py], [adversarial_clients.py]) and
      the materialisers, which are arbitrary programs here.
    - Of the gate: [load_physical_evidence] (a descriptor for a path), the static
      [self_check] and the command line.
    - The network client of [cloud_run.py] (a parameter of [Transaction]), the
      collector drivers and the laboratory peers: subprocesses, devices, sockets
      and TLS.
    - Notarization, signing, release acceptance and toolchain scripts, which drive
      other tools and are independent of the capture pipeline; the applications,
      which are in other languages. *)

From Stdlib Require Export ZArith QArith Qreduction Qround Lia Lqa.
From Stdlib Require Export Strings.Byte Strings.String Strings.Ascii.
From stdpp Require Export base list option strings gmap sorting.

#[global] Open Scope Z_scope.
#[global] Open Scope list_scope.

(** ** Results: Python exceptions as values *)

(** [result E A] is a computation that returns an [A] or raises an [E]. *)
Inductive result (E A : Type) : Type :=
  | Ok (a : A)
  | Err (e : E).
Arguments Ok {E A} a.
Arguments Err {E A} e.

#[export] Instance result_ret {E} : MRet (result E) := fun A a => Ok a.
#[export] Instance result_bind {E} : MBind (result E) := fun A B f m =>
  match m with Ok a => f a | Err e => Err e end.
#[export] Instance result_fmap {E} : FMap (result E) := fun A B f m =>
  match m with Ok a => Ok (f a) | Err e => Err e end.

Declare Scope py_scope.
Delimit Scope py_scope with py.
#[global] Open Scope py_scope.

(** [raise_if c with e ;; k] is Python's [if c: raise e] followed by [k]. *)
Notation "'raise_if' c 'with' e ';;' k" := (if c then Err e else k)
  (at level 100, c at level 99, e at level 99, k at level 200,
   right associativity, format "'[v' 'raise_if'  c  'with'  e  ';;' '/' k ']'") : py_scope.

Fixpoint map_res {E A B} (f : A -> result E B) (l : list A) : result E (list B) :=
  match l with
  | [] => Ok []
  | x :: l => y ← f x; ys ← map_res f l; Ok (y :: ys)
  end.

Fixpoint fold_res {E A B} (f : B -> A -> result E B) (acc : B) (l : list A) : result E B :=
  match l with
  | [] => Ok acc
  | x :: l => acc' ← f acc x; fold_res f acc' l
  end.

(** ** Bytes *)

Abbreviation bytes := (list byte).

#[export] Instance byte_eq_decision : EqDecision byte := Byte.byte_eq_dec.

Definition bz (b : byte) : Z := Z.of_N (Byte.to_N b).
Definition zb (z : Z) : byte :=
  match Byte.of_N (Z.to_N (z mod 256)) with Some b => b | None => x00 end.

Definition byte_char (b : byte) : ascii := Ascii.ascii_of_byte b.
Definition char_byte (c : ascii) : byte := Ascii.byte_of_ascii c.

(** [b"..."] literals: the bytes of an ASCII string. *)
Definition bstr (s : string) : bytes := String.list_byte_of_string s.

(** The characters of a byte string, as [data.decode("ascii")] reads them
    (the ASCII check is [is_ascii]). *)
Definition str_of_bytes (l : bytes) : string := String.string_of_list_byte l.

Definition is_ascii (l : bytes) : bool := forallb (fun b => bz b <? 128) l.

(** [bytes.fromhex], used for literals such as [b"\xd4\xc3\xb2\xa1"]. *)
Definition hex_digit (c : ascii) : option Z :=
  let n := Z.of_N (N_of_ascii c) in
  if (48 <=? n) && (n <=? 57) then Some (n - 48)
  else if (97 <=? n) && (n <=? 102) then Some (n - 87)
  else if (65 <=? n) && (n <=? 70) then Some (n - 55)
  else None.

Fixpoint hexb (s : string) : bytes :=
  match s with
  | String a (String b s') =>
      match hex_digit a, hex_digit b with
      | Some h, Some l => zb (h * 16 + l) :: hexb s'
      | _, _ => hexb s'
      end
  | _ => []
  end.

(** Python's [len]. *)
Definition len {A} (l : list A) : Z := Z.of_nat (length l).

(** [data[a:b]] and [data[a:]] for non-negative bounds. *)
Definition slice {A} (l : list A) (a b : Z) : list A :=
  take (Z.to_nat (b - a)) (drop (Z.to_nat a) l).
Definition slice_from {A} (l : list A) (a : Z) : list A := drop (Z.to_nat a) l.

(** [any(data)]: some byte is not zero. *)
Definition any_nonzero (l : bytes) : bool := existsb (fun b => negb (bz b =? 0)) l.

Definition beq (a b : bytes) : bool := bool_decide (a = b).
Definition seq_ (a b : string) : bool := String.eqb a b.

(** Integers from bytes: [int.from_bytes] and [struct] standard sizes. *)
Inductive endian := LittleEndian | BigEndian.

Definition int_be (l : bytes) : Z := foldl (fun acc b => acc * 256 + bz b) 0 l.
Definition int_of (en : endian) (l : bytes) : Z :=
  match en with BigEndian => int_be l | LittleEndian => int_be (rev l) end.

(** [n.to_bytes(w, "big")] on a value that fits. *)
Fixpoint be_bytes (w : nat) (z : Z) : bytes :=
  match w with
  | O => []
  | S w' => be_bytes w' (z / 256) ++ [zb z]
  end.
Definition bytes_of (en : endian) (w : nat) (z : Z) : bytes :=
  match en with BigEndian => be_bytes w z | LittleEndian => rev (be_bytes w z) end.

(** Two's complement reading of a [w]-bit value. *)
Definition signed (w z : Z) : Z := if z <? 2 ^ (w - 1) then z else z - 2 ^ w.

(** ** Automation for results *)

Create HintDb pyres.

Lemma bind_ok {E A B} (f : A -> result E B) (m : result E A) (b : B) :
  m ≫= f = Ok b -> exists a, m = Ok a /\ f a = Ok b.
Proof. destruct m as [a|e]; [intros H; now exists a | discriminate]. Qed.

Lemma bind_err {E A B} (f : A -> result E B) (m : result E A) (e : E) :
  m ≫= f = Err e -> m = Err e \/ exists a, m = Ok a /\ f a = Err e.
Proof. destruct m as [a|e']; [intros H; right; now exists a | intros H; left; now injection H as ->]. Qed.

(** [res_inv H] takes a hypothesis [H : m = Ok v] apart: every guard that did
    not raise and every bound computation that returned becomes a hypothesis. *)
Ltac inv_bind H :=
  let a := fresh "v" in let E := fresh "E" in
  apply bind_ok in H; destruct H as (a & E & H).

Ltac res_step H :=
  cbn beta iota in H;
  match type of H with
  | Ok _ = Ok _ => injection H as H
  | Err _ = Ok _ => discriminate H
  | mbind _ _ = Ok _ => inv_bind H
  | (if ?b then Err _ else _) = Ok _ =>
      let G := fresh "G" in destruct b eqn:G; [discriminate H|]
  | (if ?b then _ else Err _) = Ok _ =>
      let G := fresh "G" in destruct b eqn:G; [|discriminate H]
  | (let (_, _) := ?p in _) = Ok _ =>
      let x := fresh "x" in let y := fresh "y" in destruct p as [x y]
  end.

Ltac res_inv H := repeat (res_step H).

Lemma map_res_ok {E A B} (f : A -> result E B) l l' :
  map_res f l = Ok l' <-> Forall2 (fun a b => f a = Ok b) l l'.
Proof.
  revert l'; induction l as [|a l IH]; intros l'; simpl.
  - split; [intros [= <-]; constructor | intros H; now inversion H].
  - split.
    + intros H. res_inv H. subst. constructor; [done|]. by apply IH.
    + intros H; inversion H as [|? b ? l1 Hb Hl]; subst. rewrite Hb. simpl.
      apply IH in Hl. by rewrite Hl.
Qed.

Lemma map_res_length {E A B} (f : A -> result E B) l l' :
  map_res f l = Ok l' -> length l' = length l.
Proof. rewrite map_res_ok. intros H. symmetry. by eapply Forall2_length. Qed.

Lemma map_res_app {E A B} (f : A -> result E B) l1 l2 :
  map_res f (l1 ++ l2) = (y1 ← map_res f l1; y2 ← map_res f l2; Ok (y1 ++ y2)).
Proof.
  induction l1 as [|a l1 IH]; simpl.
  - by destruct (map_res f l2).
  - destruct (f a) as [b|e]; simpl; [|done]. rewrite IH.
    destruct (map_res f l1) as [y1|e]; simpl; [|done].
    by destruct (map_res f l2).
Qed.

(** ** Bytes and integers *)

Lemma bz_range b : 0 <= bz b < 256.
Proof.
  unfold bz. pose proof (Byte.to_N_bounded b). lia.
Qed.

Lemma zb_bz b : zb (bz b) = b.
Proof.
  unfold zb. rewrite Z.mod_small by apply bz_range.
  unfold bz. rewrite N2Z.id, Byte.of_to_N. reflexivity.
Qed.

Lemma bz_zb z : bz (zb z) = z mod 256.
Proof.
  unfold zb, bz. pose proof (Z.mod_pos_bound z 256 eq_refl) as Hz.
  destruct (Byte.of_N _) eqn:Hb.
  - apply Byte.to_of_N_iff in Hb. rewrite Hb, Z2N.id; lia.
  - apply Byte.of_N_None_iff in Hb. lia.
Qed.

Lemma bz_inj b1 b2 : bz b1 = bz b2 -> b1 = b2.
Proof. intros H. by rewrite <-(zb_bz b1), H, zb_bz. Qed.

Lemma len_nonneg {A} (l : list A) : 0 <= len l.
Proof. unfold len. lia. Qed.
Lemma len_app {A} (l1 l2 : list A) : len (l1 ++ l2) = len l1 + len l2.
Proof. unfold len. rewrite length_app. lia. Qed.
Lemma len_cons {A} (x : A) (l : list A) : len (x :: l) = 1 + len l.
Proof. unfold len. simpl. lia. Qed.
Lemma len_nil {A} : len (@nil A) = 0.
Proof. done. Qed.
Lemma len_0_nil {A} (l : list A) : len l = 0 <-> l = [].
Proof. unfold len. destruct l; simpl; split; intros; try done; lia. Qed.

Lemma int_be_app l1 l2 : int_be (l1 ++ l2) = int_be l1 * 256 ^ len l2 + int_be l2.
Proof.
  unfold int_be. rewrite foldl_app. set (a := foldl _ 0 l1). clearbody a. revert a.
  induction l2 as [|b l2 IH] using rev_ind; intros a.
  - change (len []) with 0. simpl. lia.
  - rewrite !foldl_app, len_app. simpl. rewrite (IH a).
    change (len [b]) with 1. rewrite Z.pow_add_r by (pose proof (len_nonneg l2); lia). lia.
Qed.

Lemma int_be_bound l : 0 <= int_be l < 256 ^ len l.
Proof.
  induction l as [|b l IH] using rev_ind.
  - unfold int_be, len. simpl. lia.
  - rewrite int_be_app, len_app. change (len [b]) with 1.
    rewrite Z.pow_add_r by (pose proof (len_nonneg l); lia).
    unfold int_be at 2 4. simpl. pose proof (bz_range b). nia.
Qed.

Lemma be_bytes_length w z : length (be_bytes w z) = w.
Proof. revert z; induction w as [|w IH]; intros z; simpl; [done|]. rewrite length_app, IH. simpl. lia. Qed.

Lemma bytes_of_length en w z : length (bytes_of en w z) = w.
Proof. destruct en; simpl; rewrite ?length_rev; apply be_bytes_length. Qed.

Lemma bytes_of_len en w z : len (bytes_of en w z) = Z.of_nat w.
Proof. unfold len. by rewrite bytes_of_length. Qed.

Lemma int_be_be_bytes w z : 0 <= z < 256 ^ Z.of_nat w -> int_be (be_bytes w z) = z.
Proof.
  revert z; induction w as [|w IH]; intros z Hz.
  - simpl in Hz. unfold int_be; simpl. lia.
  - cbn [be_bytes]. rewrite int_be_app. change (len [zb z]) with 1.
    rewrite Nat2Z.inj_succ, Z.pow_succ_r in Hz by lia.
    rewrite IH by (split; [apply Z.div_pos; lia | apply Z.div_lt_upper_bound; lia]).
    unfold int_be. simpl. rewrite bz_zb. pose proof (Z.div_mod z 256). lia.
Qed.

Lemma be_bytes_int_be l : be_bytes (length l) (int_be l) = l.
Proof.
  induction l as [|b l IH] using rev_ind; [done|].
  rewrite length_app, Nat.add_comm. simpl.
  rewrite int_be_app. change (len [b]) with 1. unfold int_be at 2 4. simpl.
  pose proof (bz_range b) as Hb.
  change (256 ^ 1) with 256.
  rewrite Z.div_add_l, Z.div_small, Z.add_0_r by lia. rewrite IH. f_equal. f_equal.
  apply bz_inj. rewrite bz_zb. rewrite Z.add_comm, Z.mod_add, Z.mod_small by lia. done.
Qed.

Lemma int_of_bytes_of en w z :
  0 <= z < 256 ^ Z.of_nat w -> int_of en (bytes_of en w z) = z.
Proof.
  intros Hz. destruct en; simpl; rewrite ?rev_involutive; by apply int_be_be_bytes.
Qed.

Lemma bytes_of_int_of en l : bytes_of en (length l) (int_of en l) = l.
Proof.
  destruct en; simpl; [|apply be_bytes_int_be].
  rewrite <-(length_rev l), be_bytes_int_be. apply rev_involutive.
Qed.

Lemma int_of_bound en l : 0 <= int_of en l < 256 ^ len l.
Proof.
  destruct en; simpl; [|apply int_be_bound].
  pose proof (int_be_bound (rev l)) as H. unfold len in *. by rewrite length_rev in H.
Qed.

(** ** Slices *)

Lemma slice_length {A} (l : list A) a b :
  0 <= a -> a <= b -> b <= len l -> len (slice l a b) = b - a.
Proof.
  intros. unfold slice, len in *. rewrite length_take, length_drop. lia.
Qed.

Lemma slice_from_length {A} (l : list A) a :
  0 <= a -> a <= len l -> len (slice_from l a) = len l - a.
Proof. intros. unfold slice_from, len in *. rewrite length_drop. lia. Qed.

Lemma slice_all {A} (l : list A) : slice l 0 (len l) = l.
Proof. unfold slice, len. rewrite Z.sub_0_r, Nat2Z.id. simpl. apply firstn_all. Qed.

Lemma slice_app_l {A} (l1 l2 : list A) a b :
  0 <= a -> b <= len l1 -> slice (l1 ++ l2) a b = slice l1 a b.
Proof.
  intros. unfold slice, len in *.
  destruct (decide (b <= a)).
  - replace (Z.to_nat (b - a)) with 0%nat by lia. done.
  - rewrite drop_app_le, take_app_le by (rewrite ?length_drop; lia). done.
Qed.

Lemma slice_app_r {A} (l1 l2 : list A) a b :
  len l1 <= a -> slice (l1 ++ l2) a b = slice l2 (a - len l1) (b - len l1).
Proof.
  intros. unfold slice, len in *. rewrite drop_app_ge by lia. f_equal; [lia|]. f_equal. lia.
Qed.

Lemma slice_from_app_r {A} (l1 l2 : list A) a :
  len l1 <= a -> slice_from (l1 ++ l2) a = slice_from l2 (a - len l1).
Proof. intros. unfold slice_from, len in *. rewrite drop_app_ge by lia. f_equal. lia. Qed.

Lemma slice_from_0 {A} (l : list A) : slice_from l 0 = l.
Proof. done. Qed.

Lemma slice_from_end {A} (l : list A) : slice_from l (len l) = [].
Proof. unfold slice_from, len. rewrite Nat2Z.id. apply drop_all. Qed.

(** Cutting a suffix at an offset splits it into the piece and the rest. *)
Lemma slice_from_split {A} (l : list A) a b :
  0 <= a -> a <= b -> slice_from l a = slice l a b ++ slice_from l b.
Proof.
  intros. unfold slice, slice_from.
  replace (Z.to_nat b) with (Z.to_nat a + Z.to_nat (b - a))%nat by lia.
  rewrite <-drop_drop. symmetry. apply take_drop.
Qed.

Lemma slice_split {A} (l : list A) a b c :
  0 <= a -> a <= b -> b <= c -> slice l a c = slice l a b ++ slice l b c.
Proof.
  intros. unfold slice.
  replace (Z.to_nat b) with (Z.to_nat a + Z.to_nat (b - a))%nat by lia.
  rewrite <-drop_drop.
  rewrite <-(take_drop (Z.to_nat (b - a)) (take (Z.to_nat (c - a)) _)).
  rewrite take_take, skipn_firstn_comm. f_equal; f_equal; lia.
Qed.
