(* ===== verification/PacketTypes.v ===== *)
(** * Packet evidence: data model and byte readers

    Constants, exceptions and dataclasses of
    [scripts/harness/packet_capture.py], and the Python primitives its byte
    parsers use: [struct.unpack_from], indexing and slicing.  Every primitive
    that can raise in Python raises here too, as a value of [exn], so that a
    parser that read outside its input would be visible in its result. *)

From S2P Require Import Prelude.

(** ** Constants *)

Definition MAX_CAPTURE_PACKETS : Z := 100000.
Definition MAX_CAPTURE_BLOCKS : Z := 200000.
Definition MAX_SNAPLEN : Z := 262144.
Definition MAX_PACKET_BYTES : Z := 262144.
Definition MAX_REASSEMBLED_FLOW_BYTES : Z := 1 * 1024 * 1024.
Definition MAX_IPV6_EXTENSION_HEADERS : Z := 8.
Definition MAX_VLAN_TAGS : Z := 2.

Definition DLT_NULL : Z := 0.
Definition DLT_EN10MB : Z := 1.
Definition DLT_RAW : Z := 101.
Definition DLT_LOOP : Z := 108.
Definition DLT_LINUX_SLL : Z := 113.
Definition DLT_LINUX_SLL2 : Z := 276.
Definition ALLOWED_LINK_TYPES : list Z :=
  [DLT_NULL; DLT_EN10MB; DLT_RAW; DLT_LOOP; DLT_LINUX_SLL; DLT_LINUX_SLL2].

Definition ETHERTYPE_IPV4 : Z := 0x0800.
Definition ETHERTYPE_IPV6 : Z := 0x86DD.
Definition VLAN_ETHERTYPES : list Z := [0x8100; 0x88A8; 0x9100].
Definition DARWIN_AF_INET : Z := 2.
Definition DARWIN_AF_INET6 : Z := 30.
Definition QUIC_VERSION_1 : Z := 0x00000001.
Definition QUIC_VERSION_2 : Z := 0x6B3343CF.
Definition SUPPORTED_QUIC_VERSIONS : list Z := [QUIC_VERSION_1; QUIC_VERSION_2].
Definition DNS_TTL : Z := 0.
Definition DNS_A_ADDRESS : string := "192.0.2.1".
Definition DNS_AAAA_ADDRESS : string := "2001:db8::1".
Definition DNS_RESPONSE_DIGEST_DOMAIN : bytes := bstr "cfw-packet-dns-responses-v1" ++ [x00].
Definition DNS_FLAG_RECURSION_DESIRED : Z := 0x0100.
Definition DNS_QUERY_FLAGS : Z := 0x0000.
Definition DNS_AUTHORITATIVE_RESPONSE_FLAGS : Z := 0x8400.

(** Membership in a small set of integers: [x in {...}]. *)
Definition zmem (x : Z) (l : list Z) : bool := existsb (Z.eqb x) l.

(** ** Exceptions

    [PacketCaptureError] is the module's own exception; [TypeError] is raised
    on a caller's bug.  The others are the exceptions the Python primitives
    raise by themselves: an index or a [struct] read outside its buffer, a
    failed [bytes.decode("ascii")], a missing dictionary key, [min] of an empty
    sequence, the unpacking of a sequence of another length.  [OutOfFuel]
    stands for a loop that did not end. *)
Inductive exn :=
  | PacketCaptureError (msg : string)
  | TypeError (msg : string)
  | IndexError
  | StructError
  | UnicodeDecodeError
  | KeyError
  | ValueError (msg : string)
  | OutOfFuel.

Abbreviation res := (result exn).

(** ** Dataclasses *)

(** [Fraction]: exact rationals, kept in lowest terms. *)
Abbreviation Fraction := Q.
Definition fraction (num : Z) (den : Z) : Fraction := Qred (num # Z.to_pos den).
Definition fadd (a b : Fraction) : Fraction := Qred (a + b).
Definition fmul (a b : Fraction) : Fraction := Qred (a * b).
Definition fsub (a b : Fraction) : Fraction := Qred (a - b).
Definition fle (a b : Fraction) : bool := Qle_bool a b.
Definition flt (a b : Fraction) : bool := negb (Qle_bool b a).

Inductive RetransmissionPolicy := EXACT | IDENTICAL_RETRANSMISSIONS.

Record CaptureInterface := {
  if_interface_id : Z;
  if_link_type : Z;
  if_snaplen : Z;
  if_timestamp_resolution : Fraction;
  if_name : option string
}.

Record PacketRecord := {
  pr_timestamp : Fraction;
  pr_payload : bytes;
  pr_link_type : Z;
  pr_interface_id : Z
}.

Record ParsedCapture := {
  cap_records : list PacketRecord;
  cap_interfaces : list CaptureInterface
}.

Record StageRecordSpan := {
  first_at : Fraction;
  last_at : Fraction
}.

Record StagedCaptureEndpoint := {
  ep_stage : string;
  ep_local_address : string;
  ep_local_port : Z;
  ep_remote_address : string;
  ep_remote_port : Z
}.

Record DnsResolverLeg := {
  leg_client_address : string;
  leg_resolver_address : string
}.

Record NetworkPacket := {
  np_timestamp : Fraction;
  np_family : string;
  np_source : string;
  np_destination : string;
  np_protocol : Z;
  np_payload : bytes;
  np_link_type : Z;
  np_interface_id : Z
}.

Record TransportPacket := {
  tp_timestamp : Fraction;
  tp_family : string;
  tp_source : string;
  tp_destination : string;
  tp_source_port : Z;
  tp_destination_port : Z;
  tp_protocol : string;
  tp_payload : bytes;
  tp_sequence : option Z;
  tp_link_type : Z;
  tp_interface_id : Z
}.

Record DnsMessage := {
  dm_identifier : Z;
  dm_is_response : bool;
  dm_question_name : string;
  dm_question_type : Z;
  dm_answer_address : option string;
  dm_recursion_desired : bool
}.

Record DnsExchange := {
  dx_query : TransportPacket;
  dx_answer : TransportPacket;
  dx_records : list TransportPacket
}.

(** [_DnsExchange.window]. *)
Definition dx_window (x : DnsExchange) : Fraction * Fraction :=
  (tp_timestamp (dx_query x), tp_timestamp (dx_answer x)).

Record CaptureProof := {
  observation_ms : Z;
  started_at : Fraction;
  ended_at : Fraction;
  start_event_started_at : Fraction;
  start_event_ended_at : Fraction;
  target_started_at : option Fraction;
  target_ended_at : option Fraction;
  end_event_started_at : Fraction;
  end_event_ended_at : Fraction;
  total_record_count : Z;
  packet_count : Z;
  token_occurrences : Z;
  proof_link_type : Z;
  proof_interface_name : option string;
  quic_version : option Z;
  dns_response_count : option Z;
  dns_answer_type : option string;
  dns_answer_address : option string;
  dns_ttl : option Z;
  dns_responses_sha256 : option string;
  stage_record_spans : option (StageRecordSpan * StageRecordSpan * StageRecordSpan)
}.

#[export] Instance StagedCaptureEndpoint_eq : EqDecision StagedCaptureEndpoint.
Proof. solve_decision. Defined.
#[export] Instance DnsResolverLeg_eq : EqDecision DnsResolverLeg.
Proof. solve_decision. Defined.
#[export] Instance RetransmissionPolicy_eq : EqDecision RetransmissionPolicy.
Proof. solve_decision. Defined.

(** ** Python primitives *)

(** [seq[i]]: negative indices count from the end. *)
Definition py_index {A} (l : list A) (i : Z) : res A :=
  let i := if i <? 0 then i + len l else i in
  if i <? 0 then Err IndexError
  else match l !! Z.to_nat i with Some x => Ok x | None => Err IndexError end.

(** [data[i]] of a byte string. *)
Definition u8 (d : bytes) (i : Z) : res Z := b ← py_index d i; Ok (bz b).

(** One field of [struct.unpack_from]: [w] bytes at offset [off]. *)
Definition unpack (en : endian) (w : nat) (d : bytes) (off : Z) : res Z :=
  if (off <? 0) || (len d <? off + Z.of_nat w) then Err StructError
  else Ok (int_of en (slice d off (off + Z.of_nat w))).

(** [d.decode("ascii")]. *)
Definition decode_ascii (d : bytes) : res string :=
  if is_ascii d then Ok (str_of_bytes d) else Err UnicodeDecodeError.

(** ** Safety: the only exception is the module's own *)

(** [safe r]: [r] returns or raises [PacketCaptureError]. *)
Definition safe {A} (r : res A) : Prop :=
  match r with Ok _ => True | Err (PacketCaptureError _) => True | Err _ => False end.

Lemma safe_ok {A} (a : A) : safe (Ok a).
Proof. done. Qed.
Lemma safe_raise {A} msg : safe (A := A) (Err (PacketCaptureError msg)).
Proof. done. Qed.
Lemma safe_bind {A B} (m : res A) (f : A -> res B) :
  safe m -> (forall a, m = Ok a -> safe (f a)) -> safe (m ≫= f).
Proof. destruct m as [a|e]; simpl; [intros _ H; by apply H | done]. Qed.
Lemma safe_if {A} (b : bool) (r1 r2 : res A) :
  (b = true -> safe r1) -> (b = false -> safe r2) -> safe (if b then r1 else r2).
Proof. destruct b; auto. Qed.
#[export] Hint Resolve safe_ok safe_raise : pyres.

Lemma py_index_ok {A} (l : list A) i :
  0 <= i < len l -> exists x, py_index l i = Ok x /\ l !! Z.to_nat i = Some x.
Proof.
  intros Hi. unfold py_index, len in *.
  replace (i <? 0) with false by lia. replace (i <? 0) with false by lia.
  destruct (lookup_lt_is_Some_2 l (Z.to_nat i)) as [x Hx]; [lia|].
  exists x. by rewrite Hx.
Qed.

Lemma u8_ok d i : 0 <= i < len d -> exists b, u8 d i = Ok (bz b) /\ d !! Z.to_nat i = Some b.
Proof.
  intros Hi. destruct (py_index_ok d i Hi) as (b & Hb & Hl).
  exists b. unfold u8. by rewrite Hb.
Qed.

Lemma u8_range d i z : u8 d i = Ok z -> 0 <= z < 256.
Proof. unfold u8. intros H. res_inv H. subst. apply bz_range. Qed.

Lemma unpack_ok en w d off :
  0 <= off -> off + Z.of_nat w <= len d ->
  unpack en w d off = Ok (int_of en (slice d off (off + Z.of_nat w))).
Proof. intros H1 H2. unfold unpack. by replace ((off <? 0) || (len d <? off + Z.of_nat w)) with false by lia. Qed.

Lemma unpack_inv en w d off z :
  unpack en w d off = Ok z ->
  0 <= off /\ off + Z.of_nat w <= len d /\ z = int_of en (slice d off (off + Z.of_nat w)).
Proof. unfold unpack. intros H. res_inv H. split_and!; [lia|lia|done]. Qed.

Lemma unpack_range en w d off z :
  unpack en w d off = Ok z -> 0 <= z < 256 ^ Z.of_nat w.
Proof.
  intros (H1 & H2 & ->)%unpack_inv.
  pose proof (int_of_bound en (slice d off (off + Z.of_nat w))) as H.
  rewrite slice_length in H by lia. by replace (off + Z.of_nat w - off) with (Z.of_nat w) in H by lia.
Qed.

Lemma safe_u8 d i : 0 <= i < len d -> safe (u8 d i).
Proof. intros H. destruct (u8_ok d i H) as (b & -> & _). done. Qed.
Lemma safe_unpack en w d off :
  0 <= off -> off + Z.of_nat w <= len d -> safe (unpack en w d off).
Proof. intros. by rewrite unpack_ok. Qed.
#[export] Hint Resolve safe_u8 safe_unpack : pyres.

(** [unpack] at an offset where the buffer is known to hold an encoded field. *)
Lemma unpack_at en w l1 z l2 :
  0 <= z < 256 ^ Z.of_nat w ->
  unpack en w (l1 ++ bytes_of en w z ++ l2) (len l1) = Ok z.
Proof.
  intros Hz. unfold unpack.
  assert (Hlen : len (bytes_of en w z) = Z.of_nat w) by (unfold len; by rewrite bytes_of_length).
  replace ((_ <? 0) || _) with false
    by (rewrite !len_app, Hlen; pose proof (len_nonneg l1); pose proof (len_nonneg l2); lia).
  rewrite slice_app_r by lia. rewrite slice_app_l by (rewrite ?Hlen; lia).
  replace (len l1 + Z.of_nat w - len l1) with (len (bytes_of en w z)) by lia.
  rewrite Z.sub_diag, slice_all. f_equal. by apply int_of_bytes_of.
Qed.

Lemma unpack_app en w d off z l1 l2 :
  d = l1 ++ bytes_of en w z ++ l2 -> off = len l1 -> 0 <= z < 256 ^ Z.of_nat w ->
  unpack en w d off = Ok z.
Proof. intros -> -> Hz. by apply unpack_at. Qed.

Lemma slice_field {A} (d l1 f l2 : list A) a b :
  d = l1 ++ f ++ l2 -> a = len l1 -> b = a + len f -> slice d a b = f.
Proof.
  intros -> -> ->. rewrite slice_app_r by lia. rewrite slice_app_l by lia.
  replace (len l1 - len l1) with 0 by lia. replace (len l1 + len f - len l1) with (len f) by lia.
  apply slice_all.
Qed.

Lemma slice_from_field {A} (d l1 f : list A) a :
  d = l1 ++ f -> a = len l1 -> slice_from d a = f.
Proof. intros -> ->. rewrite slice_from_app_r by lia. by rewrite Z.sub_diag. Qed.

Lemma u8_field d l1 b l2 a : d = l1 ++ b :: l2 -> a = len l1 -> u8 d a = Ok (bz b).
Proof.
  intros -> ->. unfold u8, py_index. pose proof (len_nonneg l1).
  replace (len l1 <? 0) with false by lia. replace (len l1 <? 0) with false by lia.
  unfold len. rewrite Nat2Z.id, lookup_app_r, Nat.sub_diag by done. done.
Qed.

(** What a successful field read says of the buffer. *)
Lemma unpack_split en w d off z :
  unpack en w d off = Ok z ->
  slice_from d off = bytes_of en w z ++ slice_from d (off + Z.of_nat w).
Proof.
  intros (H1 & H2 & ->)%unpack_inv.
  rewrite (slice_from_split d off (off + Z.of_nat w)) by lia. f_equal.
  set (l := slice _ _ _).
  replace w with (length l) at 1.
  - symmetry. apply bytes_of_int_of.
  - pose proof (slice_length d off (off + Z.of_nat w)) as Hl. fold l in Hl. unfold len in *. lia.
Qed.

(** [safe_auto] walks through guards and bound computations. *)
Ltac safe_step :=
  match goal with
  | |- safe (Ok _) => exact I
  | |- safe (Err (PacketCaptureError _)) => exact I
  | |- safe (mbind _ _) => apply safe_bind; [|intros ? ?]
  | |- safe (if _ then _ else _) => apply safe_if; intros ?
  | |- safe (let (_, _) := ?p in _) => destruct p
  | |- safe (unpack _ _ _ _) => apply safe_unpack; try lia
  | |- safe (u8 _ _) => apply safe_u8; try lia
  end.
Ltac safe_auto := repeat (cbn zeta beta iota; safe_step).

(** Adds the value range of every field that was read. *)
Ltac read_facts :=
  repeat match goal with
  | H : unpack _ ?w _ _ = Ok ?z |- _ =>
      lazymatch goal with
      | _ : 0 <= z /\ z < _ |- _ => fail
      | _ => let R := fresh "R" in
             pose proof (unpack_range _ _ _ _ _ H) as R; cbn in R
      end
  | H : u8 _ _ = Ok ?z |- _ =>
      lazymatch goal with
      | _ : 0 <= z /\ z < _ |- _ => fail
      | _ => let R := fresh "R" in pose proof (u8_range _ _ _ H) as R
      end
  end.
