(* ===== verification/CaptureParse.v ===== *)
(** * The bounded pcap and pcapng parsers

    [_parse_options], [_capture_pcap], [_capture_pcapng] and
    [parse_packet_capture] of [scripts/harness/packet_capture.py].

    The [while offset < len(data)] loops are fixpoints on fuel; the fuel given
    is [len(data) + 1], and [parse_packet_capture_safe] shows that it never
    runs out, because each iteration advances the offset. *)

From S2P Require Import Prelude PacketTypes.

(** ** Python text helpers (ASCII) *)

Definition char_code (c : ascii) : Z := Z.of_N (N_of_ascii c).

(** [str.isprintable] on ASCII text. *)
Definition isprintable (s : string) : bool :=
  forallb (fun c => (32 <=? char_code c) && (char_code c <=? 126)) (String.list_ascii_of_string s).

(** ASCII characters that [str.strip] removes. *)
Definition is_space (c : ascii) : bool :=
  let n := char_code c in
  ((9 <=? n) && (n <=? 13)) || ((28 <=? n) && (n <=? 32)).

Fixpoint lstrip (l : list ascii) : list ascii :=
  match l with
  | c :: l' => if is_space c then lstrip l' else l
  | [] => []
  end.
Definition strip (s : string) : string :=
  String.string_of_list_ascii (rev (lstrip (rev (lstrip (String.list_ascii_of_string s))))).

(** ** pcapng options *)

Definition round_up4 (n : Z) : Z := Z.land (n + 3) (Z.lnot 3).

(** The loop of [_parse_options]; the last component says whether the
    end-of-options record was seen. *)
Fixpoint _parse_options_loop (fuel : nat) (data : bytes) (en : endian)
    (allow_tsresol allow_name : bool)
    (offset option_count : Z) (resolution : Fraction) (name : option string)
    (seen_resolution : bool) : res (Fraction * option string * bool) :=
  match fuel with
  | O => Err OutOfFuel
  | S fuel =>
    if offset <? len data then
      raise_if len data - offset <? 4
        with PacketCaptureError "pcapng option header is truncated" ;;
      code ← unpack en 2 data offset;
      length ← unpack en 2 data (offset + 2);
      let offset := offset + 4 in
      if code =? 0 then
        raise_if negb (length =? 0) || any_nonzero (slice_from data offset)
          with PacketCaptureError "pcapng end-of-options record is malformed" ;;
        Ok (resolution, name, true)
      else
      let option_count := option_count + 1 in
      raise_if 256 <? option_count
        with PacketCaptureError "pcapng option count exceeds the bound" ;;
      let padded := round_up4 length in
      raise_if len data <? offset + padded
        with PacketCaptureError "pcapng option payload is truncated" ;;
      let payload := slice data offset (offset + length) in
      raise_if any_nonzero (slice data (offset + length) (offset + padded))
        with PacketCaptureError "pcapng option padding is nonzero" ;;
      if code =? 2 then
        raise_if negb allow_name || bool_decide (name <> None)
                 || (len payload =? 0) || (64 <? len payload)
          with PacketCaptureError "pcapng interface-name option is invalid" ;;
        match decode_ascii payload with
        | Err _ => Err (PacketCaptureError "pcapng interface name is not ASCII")
        | Ok text =>
          raise_if negb (isprintable text) || negb (seq_ (strip text) text)
            with PacketCaptureError "pcapng interface name is not canonical" ;;
          _parse_options_loop fuel data en allow_tsresol allow_name
            (offset + padded) option_count resolution (Some text) seen_resolution
        end
      else if code =? 9 then
        raise_if negb allow_tsresol || seen_resolution || negb (length =? 1)
          with PacketCaptureError "pcapng timestamp-resolution option is invalid" ;;
        raw ← u8 payload 0;
        let exponent := Z.land raw 0x7F in
        raise_if 30 <? exponent
          with PacketCaptureError "pcapng timestamp resolution is too fine" ;;
        let resolution :=
          if negb (Z.land raw 0x80 =? 0) then fraction 1 (2 ^ exponent)
          else fraction 1 (10 ^ exponent) in
        _parse_options_loop fuel data en allow_tsresol allow_name
          (offset + padded) option_count resolution name true
      else
        _parse_options_loop fuel data en allow_tsresol allow_name
          (offset + padded) option_count resolution name seen_resolution
    else Ok (resolution, name, false)
  end.

Definition _parse_options (data : bytes) (en : endian) (allow_tsresol allow_name : bool)
  : res (Fraction * option string) :=
  '(resolution, name, ended) ←
    _parse_options_loop (S (length data)) data en allow_tsresol allow_name
      0 0 (fraction 1 1000000) None false;
  raise_if (0 <? len data) && negb ended
    with PacketCaptureError "pcapng options do not contain an end marker" ;;
  Ok (resolution, name).

(** ** Classic pcap *)

Definition pcap_formats : list (bytes * (endian * Z)) :=
  [ (hexb "d4c3b2a1", (LittleEndian, 1000000));
    (hexb "a1b2c3d4", (BigEndian, 1000000));
    (hexb "4d3cb2a1", (LittleEndian, 1000000000));
    (hexb "a1b23c4d", (BigEndian, 1000000000)) ].

Fixpoint assoc_bytes {A} (k : bytes) (l : list (bytes * A)) : option A :=
  match l with
  | [] => None
  | (k', v) :: l' => if beq k k' then Some v else assoc_bytes k l'
  end.

(** The record loop of [_capture_pcap]. *)
Fixpoint _capture_pcap_loop (fuel : nat) (data : bytes) (en : endian)
    (subsecond_scale snaplen network : Z) (offset : Z) (records : list PacketRecord)
  : res (Z * list PacketRecord) :=
  match fuel with
  | O => Err OutOfFuel
  | S fuel =>
    if offset <? len data then
      raise_if MAX_CAPTURE_PACKETS <=? len records
        with PacketCaptureError "pcap packet count exceeds the bound" ;;
      raise_if len data - offset <? 16
        with PacketCaptureError "pcap packet header is truncated" ;;
      seconds ← unpack en 4 data offset;
      subseconds ← unpack en 4 data (offset + 4);
      included ← unpack en 4 data (offset + 8);
      original ← unpack en 4 data (offset + 12);
      let offset := offset + 16 in
      raise_if subsecond_scale <=? subseconds
        with PacketCaptureError "pcap packet timestamp fraction is malformed" ;;
      raise_if (included <? 1) || (snaplen <? included) || (MAX_PACKET_BYTES <? included)
        with PacketCaptureError "pcap captured packet length is outside the bound" ;;
      raise_if original <? included
        with PacketCaptureError "pcap original packet length is below captured length" ;;
      let end_ := offset + included in
      raise_if len data <? end_
        with PacketCaptureError "pcap packet payload is truncated" ;;
      let record := {|
        pr_timestamp := fadd (fraction seconds 1) (fraction subseconds subsecond_scale);
        pr_payload := slice data offset end_;
        pr_link_type := network;
        pr_interface_id := 0 |} in
      _capture_pcap_loop fuel data en subsecond_scale snaplen network end_
        (records ++ [record])
    else Ok (offset, records)
  end.

Definition _capture_pcap (data : bytes) : res ParsedCapture :=
  raise_if len data <? 24 with PacketCaptureError "pcap global header is truncated" ;;
  match assoc_bytes (slice data 0 4) pcap_formats with
  | None => Err (PacketCaptureError "pcap magic is unsupported")
  | Some (en, subsecond_scale) =>
    version_major ← unpack en 2 data 4;
    version_minor ← unpack en 2 data 6;
    timezone ← (z ← unpack en 4 data 8; Ok (signed 32 z));
    sigfigs ← unpack en 4 data 12;
    snaplen ← unpack en 4 data 16;
    network ← unpack en 4 data 20;
    raise_if negb ((version_major =? 2) && (version_minor =? 4))
      with PacketCaptureError "pcap version is not 2.4" ;;
    raise_if negb (timezone =? 0) || negb (sigfigs =? 0)
      with PacketCaptureError "pcap timezone/sigfigs fields must be zero" ;;
    raise_if (snaplen <? 1) || (MAX_SNAPLEN <? snaplen)
      with PacketCaptureError "pcap snaplen is outside the accepted range" ;;
    raise_if negb (zmem network ALLOWED_LINK_TYPES)
      with PacketCaptureError "pcap link type is not accepted" ;;
    let interface := {|
      if_interface_id := 0; if_link_type := network; if_snaplen := snaplen;
      if_timestamp_resolution := fraction 1 subsecond_scale; if_name := None |} in
    '(offset, records) ←
      _capture_pcap_loop (S (length data)) data en subsecond_scale snaplen network 24 [];
    raise_if negb (offset =? len data) || (len records =? 0)
      with PacketCaptureError "pcap contains no complete packet records" ;;
    Ok {| cap_records := records; cap_interfaces := [interface] |}
  end.

(** ** pcapng *)

Definition SHB_MAGIC : bytes := hexb "0a0d0d0a".

(** The mutable locals of the block loop of [_capture_pcapng]. *)
Record PngState := {
  png_records : list PacketRecord;
  png_interfaces : list CaptureInterface;
  png_endian : option endian;
  png_seen_section : bool
}.

(** The byte-order test at the head of an iteration, which runs only when the
    block starts with the section-header magic. *)
Definition _png_section_order (data : bytes) (offset : Z) (st : PngState)
  : res PngState :=
  if beq (slice data offset (offset + 4)) SHB_MAGIC then
    raise_if png_seen_section st
      with PacketCaptureError "pcapng multiple sections are not accepted" ;;
    raise_if len data - offset <? 28
      with PacketCaptureError "pcapng section header is truncated" ;;
    let byte_order_magic := slice data (offset + 8) (offset + 12) in
    en ← (if beq byte_order_magic (hexb "4d3c2b1a") then Ok LittleEndian
          else if beq byte_order_magic (hexb "1a2b3c4d") then Ok BigEndian
          else Err (PacketCaptureError "pcapng section byte-order magic is invalid"));
    Ok {| png_records := png_records st; png_interfaces := png_interfaces st;
          png_endian := Some en; png_seen_section := true |}
  else Ok st.

(** Block type 0x0A0D0D0A: section header. *)
Definition _png_section_header (en : endian) (block_length : Z) (body : bytes) (st : PngState)
  : res PngState :=
  raise_if block_length <? 28
    with PacketCaptureError "pcapng section header length is invalid" ;;
  major ← unpack en 2 body 4;
  minor ← unpack en 2 body 6;
  section_length ← (z ← unpack en 8 body 8; Ok (signed 64 z));
  raise_if negb ((major =? 1) && (minor =? 0)) || negb (section_length =? -1)
    with PacketCaptureError "pcapng section version/length contract is unsupported" ;;
  _ ← (if 16 <? len body then
         _ ← _parse_options (slice_from body 16) en false false; Ok tt
       else Ok tt);
  Ok {| png_records := png_records st; png_interfaces := [];
        png_endian := png_endian st; png_seen_section := png_seen_section st |}.

(** Block type 1: interface description. *)
Definition _png_interface (en : endian) (body : bytes) (st : PngState) : res PngState :=
  raise_if len body <? 8
    with PacketCaptureError "pcapng interface description is truncated" ;;
  link_type ← unpack en 2 body 0;
  reserved ← unpack en 2 body 2;
  snaplen ← unpack en 4 body 4;
  raise_if negb (reserved =? 0) || negb (zmem link_type ALLOWED_LINK_TYPES)
    with PacketCaptureError "pcapng interface link metadata is invalid" ;;
  raise_if (snaplen <? 1) || (MAX_SNAPLEN <? snaplen)
    with PacketCaptureError "pcapng interface snaplen is outside the bound" ;;
  '(resolution, name) ← _parse_options (slice_from body 8) en true true;
  let interface := {|
    if_interface_id := len (png_interfaces st); if_link_type := link_type;
    if_snaplen := snaplen; if_timestamp_resolution := resolution; if_name := name |} in
  Ok {| png_records := png_records st;
        png_interfaces := png_interfaces st ++ [interface];
        png_endian := png_endian st; png_seen_section := png_seen_section st |}.

(** Block type 6: enhanced packet. *)
Definition _png_packet (en : endian) (body : bytes) (st : PngState) : res PngState :=
  raise_if MAX_CAPTURE_PACKETS <=? len (png_records st)
    with PacketCaptureError "pcapng packet count exceeds the bound" ;;
  raise_if len body <? 20
    with PacketCaptureError "pcapng enhanced packet block is truncated" ;;
  interface_id ← unpack en 4 body 0;
  timestamp_high ← unpack en 4 body 4;
  timestamp_low ← unpack en 4 body 8;
  captured ← unpack en 4 body 12;
  original ← unpack en 4 body 16;
  raise_if len (png_interfaces st) <=? interface_id
    with PacketCaptureError "pcapng packet references an unknown interface" ;;
  interface ← py_index (png_interfaces st) interface_id;
  raise_if (captured <? 1) || (if_snaplen interface <? captured) || (MAX_PACKET_BYTES <? captured)
    with PacketCaptureError "pcapng captured packet length is outside the bound" ;;
  raise_if original <? captured
    with PacketCaptureError "pcapng original packet length is below captured length" ;;
  let padded := round_up4 captured in
  raise_if len body <? 20 + padded
    with PacketCaptureError "pcapng enhanced packet payload is truncated" ;;
  let payload := slice body 20 (20 + captured) in
  raise_if any_nonzero (slice body (20 + captured) (20 + padded))
    with PacketCaptureError "pcapng packet padding is nonzero" ;;
  _ ← (if 20 + padded <? len body then
         _ ← _parse_options (slice_from body (20 + padded)) en false false; Ok tt
       else Ok tt);
  let timestamp := Z.lor (Z.shiftl timestamp_high 32) timestamp_low in
  let record := {|
    pr_timestamp := fmul (fraction timestamp 1) (if_timestamp_resolution interface);
    pr_payload := payload;
    pr_link_type := if_link_type interface;
    pr_interface_id := interface_id |} in
  Ok {| png_records := png_records st ++ [record];
        png_interfaces := png_interfaces st;
        png_endian := png_endian st; png_seen_section := png_seen_section st |}.

(** One iteration of the block loop: the new offset and locals. *)
Definition _png_block (data : bytes) (offset : Z) (st : PngState) : res (Z * PngState) :=
  raise_if len data - offset <? 12
    with PacketCaptureError "pcapng block header is truncated" ;;
  st ← _png_section_order data offset st;
  match png_endian st with
  | None => Err (PacketCaptureError "pcapng block appears outside a section")
  | Some en =>
    block_type ← unpack en 4 data offset;
    block_length ← unpack en 4 data (offset + 4);
    raise_if (block_length <? 12) || negb (block_length mod 4 =? 0)
      with PacketCaptureError "pcapng block length is invalid" ;;
    let end_ := offset + block_length in
    raise_if len data <? end_
      with PacketCaptureError "pcapng block is truncated" ;;
    trailer ← unpack en 4 data (end_ - 4);
    raise_if negb (trailer =? block_length)
      with PacketCaptureError "pcapng block length trailer differs" ;;
    let body := slice data (offset + 8) (end_ - 4) in
    st ← (if block_type =? 0x0A0D0D0A then _png_section_header en block_length body st
          else if block_type =? 1 then _png_interface en body st
          else if block_type =? 6 then _png_packet en body st
          else if (block_type =? 2) || (block_type =? 3) then
            Err (PacketCaptureError "pcapng packet block lacks an accepted timestamp contract")
          else Ok st);
    Ok (end_, st)
  end.

Fixpoint _capture_pcapng_loop (fuel : nat) (data : bytes) (offset block_count : Z) (st : PngState)
  : res (Z * PngState) :=
  match fuel with
  | O => Err OutOfFuel
  | S fuel =>
    if offset <? len data then
      let block_count := block_count + 1 in
      raise_if MAX_CAPTURE_BLOCKS <? block_count
        with PacketCaptureError "pcapng block count exceeds the bound" ;;
      '(offset, st) ← _png_block data offset st;
      _capture_pcapng_loop fuel data offset block_count st
    else Ok (offset, st)
  end.

Definition png_init : PngState :=
  {| png_records := []; png_interfaces := []; png_endian := None; png_seen_section := false |}.

Definition _capture_pcapng (data : bytes) : res ParsedCapture :=
  raise_if (len data <? 28) || negb (beq (slice data 0 4) SHB_MAGIC)
    with PacketCaptureError "pcapng must start with a section header block" ;;
  '(offset, st) ← _capture_pcapng_loop (S (length data)) data 0 0 png_init;
  raise_if negb (offset =? len data) || (len (png_records st) =? 0)
    with PacketCaptureError "pcapng contains no enhanced packet records" ;;
  Ok {| cap_records := png_records st; cap_interfaces := png_interfaces st |}.

(** ** Entry points *)

(** [repr] of an ASCII [str]. *)
Definition hex_char (n : Z) : ascii :=
  ascii_of_N (Z.to_N (if n <? 10 then 48 + n else 87 + n)).
Definition py_repr (s : string) : string :=
  let cs := String.list_ascii_of_string s in
  let has c := existsb (fun x => char_code x =? c) cs in
  let quote := if has 39 && negb (has 34) then 34 else 39 in
  let q := ascii_of_N (Z.to_N quote) in
  let bs := ascii_of_N 92 in
  let esc c :=
    let n := char_code c in
    if (n =? 92) || (n =? quote) then [bs; c]
    else if n =? 9 then [bs; "t"%char]
    else if n =? 10 then [bs; "n"%char]
    else if n =? 13 then [bs; "r"%char]
    else if (n <? 32) || (126 <? n) then
      [bs; "x"%char; hex_char (n / 16); hex_char (n mod 16)]
    else [c] in
  String.string_of_list_ascii ([q] ++ concat (map esc cs) ++ [q]).

Definition parse_packet_capture (data : bytes) (kind : string) : res ParsedCapture :=
  if seq_ kind "packet-pcap" then _capture_pcap data
  else if seq_ kind "packet-pcapng" then _capture_pcapng data
  else Err (PacketCaptureError ("unsupported capture kind: " ++ py_repr kind)).

Definition parse_packet_records (data : bytes) (kind : string) : res (list PacketRecord) :=
  cap ← parse_packet_capture data kind; Ok (cap_records cap).


(** ** Safety: the parsers only raise [PacketCaptureError] *)

Lemma round_up4_spec n : round_up4 n = 4 * ((n + 3) / 4).
Proof.
  unfold round_up4. change (Z.lnot 3) with (Z.lnot (Z.ones 2)).
  rewrite <-Z.ldiff_land, Z.ldiff_ones_r, Z.shiftl_mul_pow2, Z.shiftr_div_pow2 by lia.
  change (2 ^ 2) with 4. lia.
Qed.

Lemma round_up4_bounds n : n <= round_up4 n <= n + 3.
Proof. rewrite round_up4_spec. pose proof (Z.div_mod (n + 3) 4). pose proof (Z.mod_pos_bound (n + 3) 4). lia. Qed.

Ltac pad_facts :=
  repeat match goal with
  | H : context [round_up4 ?n] |- _ =>
      lazymatch goal with
      | _ : n <= round_up4 n <= n + 3 |- _ => fail
      | _ => pose proof (round_up4_bounds n)
      end
  end.

Lemma parse_options_loop_safe fuel data en tsr nm offset count r name seen :
  0 <= offset -> len data - offset < Z.of_nat fuel -> 0 < Z.of_nat fuel ->
  safe (_parse_options_loop fuel data en tsr nm offset count r name seen).
Proof.
  revert offset count r name seen; induction fuel as [|fuel IH]; intros offset count r name seen H0 Hf Hp.
  - lia.
  - cbn [_parse_options_loop]. safe_auto; read_facts; pad_facts; try (apply IH; lia).
    + destruct (decode_ascii _); [|done]. safe_auto. apply IH; lia.
    + rewrite slice_length; lia.
Qed.

Lemma parse_options_safe data en tsr nm : safe (_parse_options data en tsr nm).
Proof.
  unfold _parse_options. apply safe_bind.
  - apply parse_options_loop_safe; unfold len; lia.
  - intros [[? ?] ?] _. safe_auto.
Qed.

Lemma capture_pcap_loop_safe fuel data en scale snaplen network offset records :
  0 <= offset -> len data - offset < Z.of_nat fuel -> 0 < Z.of_nat fuel ->
  safe (_capture_pcap_loop fuel data en scale snaplen network offset records).
Proof.
  revert offset records; induction fuel as [|fuel IH]; intros offset records H0 Hf Hp; [lia|].
  cbn [_capture_pcap_loop]. safe_auto; read_facts. apply IH; lia.
Qed.

Lemma capture_pcap_safe data : safe (_capture_pcap data).
Proof.
  unfold _capture_pcap. safe_auto.
  destruct (assoc_bytes _ _) as [[en scale]|]; [|done]. safe_auto.
  apply capture_pcap_loop_safe; unfold len; lia.
Qed.

Lemma png_section_header_safe en block_length body st :
  len body = block_length - 12 -> safe (_png_section_header en block_length body st).
Proof.
  intros Hb. unfold _png_section_header. safe_auto. apply parse_options_safe.
Qed.

Lemma png_interface_safe en body st : safe (_png_interface en body st).
Proof. unfold _png_interface. safe_auto. apply parse_options_safe. Qed.

Lemma png_packet_safe en body st : safe (_png_packet en body st).
Proof.
  unfold _png_packet. safe_auto; read_facts; [|apply parse_options_safe].
  match goal with |- safe (py_index ?l ?i) => destruct (py_index_ok l i) as (x & -> & _); [lia|done] end.
Qed.

Lemma png_section_order_safe data offset st : safe (_png_section_order data offset st).
Proof. unfold _png_section_order. safe_auto. Qed.

Lemma png_block_safe data offset st : 0 <= offset -> safe (_png_block data offset st).
Proof.
  intros H0. unfold _png_block. safe_auto; [apply png_section_order_safe|].
  match goal with |- safe (match ?e with Some _ => _ | None => _ end) => destruct e as [en|]; [|done] end.
  safe_auto; read_facts.
  - apply png_section_header_safe. rewrite slice_length; lia.
  - apply png_interface_safe.
  - apply png_packet_safe.
Qed.

(** A block that was read lies inside the data and is at least 12 bytes long. *)
Lemma png_block_progress data offset st offset' st' :
  0 <= offset -> _png_block data offset st = Ok (offset', st') ->
  offset + 12 <= offset' <= len data.
Proof.
  intros H0 H. unfold _png_block in H. res_inv H.
  destruct (png_endian _) as [en|]; [|discriminate]. res_inv H. subst. lia.
Qed.

Lemma capture_pcapng_loop_safe fuel data offset count st :
  0 <= offset -> len data - offset < Z.of_nat fuel -> 0 < Z.of_nat fuel ->
  safe (_capture_pcapng_loop fuel data offset count st).
Proof.
  revert offset count st; induction fuel as [|fuel IH]; intros offset count st H0 Hf Hp; [lia|].
  cbn [_capture_pcapng_loop]. safe_auto; [by apply png_block_safe|].
  match goal with H : _png_block _ _ _ = Ok _ |- _ => apply png_block_progress in H; [|done] end.
  apply IH; lia.
Qed.

Lemma capture_pcapng_safe data : safe (_capture_pcapng data).
Proof.
  unfold _capture_pcapng. safe_auto. apply capture_pcapng_loop_safe; unfold len; lia.
Qed.

Lemma parse_packet_capture_safe data kind : safe (parse_packet_capture data kind).
Proof.
  unfold parse_packet_capture. safe_auto; [apply capture_pcap_safe|apply capture_pcapng_safe].
Qed.

(** Parsing raises only [PacketCaptureError].  For every byte string and
    declared kind, [parse_packet_capture] returns or raises the module's own
    exception: no read outside the buffer, no undecodable text, no unknown
    interface, and every loop over records, blocks and options ends within its
    bound. *)
Theorem parsing_raises_only_capture_errors data kind : safe (parse_packet_capture data kind).
Proof. apply parse_packet_capture_safe. Qed.
