(* ===== verification/CaptureFormat.v ===== *)
(** * The pcap file format the parser accepts

    A reference encoder of classic pcap files and the theorem that
    [_capture_pcap] accepts exactly the encodings of well-formed files and
    returns exactly what they mean; and the well-formedness of every capture
    that either parser returns. *)

From S2P Require Import Prelude PacketTypes CaptureParse.

(** ** Reference encoder *)

Record PcapItem := {
  it_seconds : Z;
  it_subseconds : Z;
  it_original : Z;
  it_payload : bytes
}.

Record PcapFile := {
  pf_endian : endian;
  pf_nanosecond : bool;
  pf_snaplen : Z;
  pf_network : Z;
  pf_items : list PcapItem
}.

Definition pf_scale (f : PcapFile) : Z := if pf_nanosecond f then 1000000000 else 1000000.

Definition pcap_magic (en : endian) (nano : bool) : bytes :=
  match en, nano with
  | LittleEndian, false => hexb "d4c3b2a1"
  | BigEndian, false => hexb "a1b2c3d4"
  | LittleEndian, true => hexb "4d3cb2a1"
  | BigEndian, true => hexb "a1b23c4d"
  end.

Definition pcap_item_bytes (en : endian) (it : PcapItem) : bytes :=
  bytes_of en 4 (it_seconds it) ++ bytes_of en 4 (it_subseconds it) ++
  bytes_of en 4 (len (it_payload it)) ++ bytes_of en 4 (it_original it) ++ it_payload it.

Definition pcap_header (en : endian) (nano : bool) (snaplen network : Z) : bytes :=
  pcap_magic en nano ++ bytes_of en 2 2 ++ bytes_of en 2 4 ++ bytes_of en 4 0 ++
  bytes_of en 4 0 ++ bytes_of en 4 snaplen ++ bytes_of en 4 network.

Definition pcap_encode (f : PcapFile) : bytes :=
  pcap_header (pf_endian f) (pf_nanosecond f) (pf_snaplen f) (pf_network f) ++
  concat (map (pcap_item_bytes (pf_endian f)) (pf_items f)).

Definition pcap_item_ok (scale snaplen : Z) (it : PcapItem) : Prop :=
  0 <= it_seconds it < 2 ^ 32 /\ 0 <= it_subseconds it < scale /\ it_subseconds it < 2 ^ 32 /\
  1 <= len (it_payload it) <= snaplen /\ len (it_payload it) <= MAX_PACKET_BYTES /\
  len (it_payload it) <= it_original it < 2 ^ 32.

Definition pcap_file_ok (f : PcapFile) : Prop :=
  1 <= pf_snaplen f <= MAX_SNAPLEN /\ zmem (pf_network f) ALLOWED_LINK_TYPES = true /\
  1 <= len (pf_items f) <= MAX_CAPTURE_PACKETS /\
  Forall (pcap_item_ok (pf_scale f) (pf_snaplen f)) (pf_items f).

(** What a file means: its records, and its one interface. *)
Definition item_record (scale network : Z) (it : PcapItem) : PacketRecord := {|
  pr_timestamp := fadd (fraction (it_seconds it) 1) (fraction (it_subseconds it) scale);
  pr_payload := it_payload it;
  pr_link_type := network;
  pr_interface_id := 0 |}.

Definition pcap_meaning (f : PcapFile) : ParsedCapture := {|
  cap_records := map (item_record (pf_scale f) (pf_network f)) (pf_items f);
  cap_interfaces := [{|
    if_interface_id := 0; if_link_type := pf_network f; if_snaplen := pf_snaplen f;
    if_timestamp_resolution := fraction 1 (pf_scale f); if_name := None |}] |}.

(** ** Encoded files parse to their meaning *)

Lemma pcap_item_bytes_len en it : len (pcap_item_bytes en it) = 16 + len (it_payload it).
Proof. unfold pcap_item_bytes. rewrite !len_app, !bytes_of_len. lia. Qed.

(** [field_at l]: the field read starts right after the prefix [l]. *)
Ltac field_at l :=
  eapply (unpack_app _ _ _ _ _ l);
  [ rewrite <-!app_assoc; reflexivity
  | rewrite ?len_app, ?bytes_of_len; simpl; lia
  | simpl; lia ].

(** Reading the header and the payload of an encoded item. *)
Lemma pcap_item_read en scale snaplen pre it rest :
  pcap_item_ok scale snaplen it ->
  let d := pre ++ pcap_item_bytes en it ++ rest in
  unpack en 4 d (len pre) = Ok (it_seconds it) /\
  unpack en 4 d (len pre + 4) = Ok (it_subseconds it) /\
  unpack en 4 d (len pre + 8) = Ok (len (it_payload it)) /\
  unpack en 4 d (len pre + 12) = Ok (it_original it) /\
  slice d (len pre + 16) (len pre + 16 + len (it_payload it)) = it_payload it.
Proof.
  intros (Hsec & Hsub & Hsub32 & Hpay & Hpay2 & Horig) d.
  pose proof (len_nonneg pre). unfold MAX_PACKET_BYTES in *.
  subst d; unfold pcap_item_bytes; split_and!;
    [ field_at pre
    | field_at (pre ++ bytes_of en 4 (it_seconds it))
    | field_at (pre ++ bytes_of en 4 (it_seconds it) ++ bytes_of en 4 (it_subseconds it))
    | field_at (pre ++ bytes_of en 4 (it_seconds it) ++ bytes_of en 4 (it_subseconds it)
                ++ bytes_of en 4 (len (it_payload it))) | ].
  rewrite slice_app_r by lia. rewrite <-!app_assoc.
  do 4 (rewrite slice_app_r by (rewrite bytes_of_len; lia); rewrite bytes_of_len).
  rewrite slice_app_l by lia.
  match goal with |- slice _ ?a ?b = _ =>
    replace a with 0 by lia; replace b with (len (it_payload it)) by lia end.
  apply slice_all.
Qed.

Lemma pcap_loop_complete fuel pre en scale snaplen network items records :
  Forall (pcap_item_ok scale snaplen) items ->
  len records + len items <= MAX_CAPTURE_PACKETS ->
  (length items < fuel)%nat ->
  _capture_pcap_loop fuel (pre ++ concat (map (pcap_item_bytes en) items)) en scale snaplen network
    (len pre) records
  = Ok (len pre + len (concat (map (pcap_item_bytes en) items)),
        records ++ map (item_record scale network) items).
Proof.
  revert fuel pre records.
  induction items as [|it items IH]; intros fuel pre records Hok Hc Hf;
    (destruct fuel; [simpl in Hf; lia|]); cbn [_capture_pcap_loop map concat].
  - by rewrite !app_nil_r, Z.ltb_irrefl, len_nil, Z.add_0_r.
  - inversion Hok as [|? ? Hit Hits]; subst.
    set (rest := concat (map (pcap_item_bytes en) items)).
    destruct (pcap_item_read en scale snaplen pre it rest Hit) as (R1 & R2 & R3 & R4 & R5).
    destruct Hit as (Hsec & Hsub & Hsub32 & Hpay & Hpay2 & Horig).
    set (d := pre ++ pcap_item_bytes en it ++ rest) in *.
    assert (Hd : len d = len pre + 16 + len (it_payload it) + len rest).
    { unfold d. rewrite !len_app, pcap_item_bytes_len. lia. }
    pose proof (len_nonneg pre). pose proof (len_nonneg rest). pose proof (len_nonneg items).
    rewrite len_cons in Hc.
    replace (len pre <? len d) with true by lia.
    replace (MAX_CAPTURE_PACKETS <=? len records) with false by lia.
    replace (len d - len pre <? 16) with false by lia.
    rewrite R1, R2, R3, R4. cbn [mbind result_bind]. rewrite R5.
    replace (scale <=? it_subseconds it) with false by lia.
    replace (_ || _ || _) with false by lia.
    replace (it_original it <? len (it_payload it)) with false by lia.
    replace (len d <? len pre + 16 + len (it_payload it)) with false by lia.
    replace (len pre + 16 + len (it_payload it)) with (len (pre ++ pcap_item_bytes en it))
      by (rewrite len_app, pcap_item_bytes_len; lia).
    unfold d. rewrite app_assoc.
    rewrite IH; [|done|rewrite len_app, len_cons, len_nil; lia|simpl in Hf; lia].
    rewrite <-app_assoc. f_equal. f_equal. rewrite !len_app. fold rest. lia.
Qed.

Lemma pcap_magic_len en nano : len (pcap_magic en nano) = 4.
Proof. by destruct en, nano. Qed.

Lemma pcap_header_len en nano snaplen network : len (pcap_header en nano snaplen network) = 24.
Proof. unfold pcap_header. rewrite !len_app, !bytes_of_len, pcap_magic_len. done. Qed.

Lemma assoc_pcap_magic en nano :
  assoc_bytes (pcap_magic en nano) pcap_formats
  = Some (en, if nano then 1000000000 else 1000000).
Proof. by destruct en, nano. Qed.

(** The magics determine the byte order and the timestamp scale. *)
Lemma assoc_pcap_magic_inv m en scale :
  assoc_bytes m pcap_formats = Some (en, scale) ->
  exists nano, m = pcap_magic en nano /\ scale = (if nano : bool then 1000000000 else 1000000).
Proof.
  unfold pcap_formats. cbn [assoc_bytes]. unfold beq.
  repeat (case_bool_decide; [intros [= <- <-]; subst; first [by exists false | by exists true]|]).
  done.
Qed.

Lemma pcap_header_read en nano snaplen network rest :
  0 <= snaplen < 2 ^ 32 -> 0 <= network < 2 ^ 32 ->
  let d := pcap_header en nano snaplen network ++ rest in
  slice d 0 4 = pcap_magic en nano /\
  unpack en 2 d 4 = Ok 2 /\ unpack en 2 d 6 = Ok 4 /\ unpack en 4 d 8 = Ok 0 /\
  unpack en 4 d 12 = Ok 0 /\ unpack en 4 d 16 = Ok snaplen /\ unpack en 4 d 20 = Ok network.
Proof.
  intros Hs Hn. cbn zeta. unfold pcap_header. pose proof (pcap_magic_len en nano) as Hm.
  set (m := pcap_magic en nano) in *. split.
  - rewrite <-!app_assoc, slice_app_l by lia. rewrite <-Hm. apply slice_all.
  - split_and!;
      [ field_at m | field_at (m ++ bytes_of en 2 2) | field_at (m ++ bytes_of en 2 2 ++ bytes_of en 2 4)
      | field_at (m ++ bytes_of en 2 2 ++ bytes_of en 2 4 ++ bytes_of en 4 0)
      | field_at (m ++ bytes_of en 2 2 ++ bytes_of en 2 4 ++ bytes_of en 4 0 ++ bytes_of en 4 0)
      | field_at (m ++ bytes_of en 2 2 ++ bytes_of en 2 4 ++ bytes_of en 4 0 ++ bytes_of en 4 0
                  ++ bytes_of en 4 snaplen) ].
Qed.

Lemma allowed_link_range n : zmem n ALLOWED_LINK_TYPES = true -> 0 <= n < 2 ^ 32.
Proof.
  unfold zmem, ALLOWED_LINK_TYPES. cbn [existsb].
  unfold DLT_NULL, DLT_EN10MB, DLT_RAW, DLT_LOOP, DLT_LINUX_SLL, DLT_LINUX_SLL2. lia.
Qed.

Lemma pcap_items_len en scale snaplen items :
  Forall (pcap_item_ok scale snaplen) items ->
  len items <= len (concat (map (pcap_item_bytes en) items)).
Proof.
  induction 1 as [|it items Hit _ IH]; [done|].
  cbn [map concat]. rewrite len_app, len_cons, pcap_item_bytes_len.
  pose proof (len_nonneg (it_payload it)). lia.
Qed.

Lemma capture_pcap_complete f :
  pcap_file_ok f -> _capture_pcap (pcap_encode f) = Ok (pcap_meaning f).
Proof.
  intros (Hs & Hn & Hc & Hitems). unfold _capture_pcap, pcap_encode.
  set (hdr := pcap_header _ _ _ _). set (items := concat _).
  assert (Hh : len hdr = 24) by apply pcap_header_len.
  unfold MAX_SNAPLEN in *. pose proof (allowed_link_range _ Hn).
  destruct (pcap_header_read (pf_endian f) (pf_nanosecond f) (pf_snaplen f) (pf_network f) items)
    as (Rm & R1 & R2 & R3 & R4 & R5 & R6); [lia|lia|]. fold hdr in Rm, R1, R2, R3, R4, R5, R6.
  replace (len (hdr ++ items) <? 24) with false by (rewrite len_app; pose proof (len_nonneg items); lia).
  rewrite Rm, assoc_pcap_magic, R1, R2, R3, R4, R5, R6. cbn [mbind result_bind].
  unfold MAX_SNAPLEN.
  change (negb ((2 =? 2) && (4 =? 4))) with false.
  change (negb (signed 32 0 =? 0) || negb (0 =? 0)) with false. cbn iota.
  replace ((pf_snaplen f <? 1) || (262144 <? pf_snaplen f)) with false by lia.
  rewrite Hn. cbn [negb]. fold (pf_scale f).
  pose proof (pcap_items_len (pf_endian f) _ _ _ Hitems) as Hle. fold items in Hle.
  rewrite <-Hh. unfold items at 1 2 3.
  rewrite pcap_loop_complete; [|done|rewrite len_nil; lia|].
  - cbn [mbind result_bind app]. fold items. rewrite len_app, Z.eqb_refl. cbn [negb orb].
    replace (len (map _ _) =? 0) with false by (unfold len in *; rewrite length_map; lia).
    done.
  - fold items. unfold len in *. rewrite length_app. lia.
Qed.

(** ** Everything the parser accepts is an encoded file *)

Lemma pcap_loop_sound fuel data en scale snaplen network offset records offset' records' :
  0 <= offset <= len data ->
  len records <= MAX_CAPTURE_PACKETS ->
  _capture_pcap_loop fuel data en scale snaplen network offset records = Ok (offset', records') ->
  exists items,
    Forall (pcap_item_ok scale snaplen) items /\
    slice_from data offset = concat (map (pcap_item_bytes en) items) /\
    records' = records ++ map (item_record scale network) items /\
    len records' <= MAX_CAPTURE_PACKETS.
Proof.
  revert offset records; induction fuel as [|fuel IH]; intros offset records Ho Hr H; [done|].
  cbn [_capture_pcap_loop] in H. destruct (offset <? len data) eqn:Hlt.
  - res_inv H.
    pose proof (unpack_split _ _ _ _ _ E) as S0. pose proof (unpack_split _ _ _ _ _ E0) as S1.
    pose proof (unpack_split _ _ _ _ _ E1) as S2. pose proof (unpack_split _ _ _ _ _ E2) as S3.
    read_facts.
    apply IH in H; [|lia|rewrite len_app, len_cons, len_nil; lia].
    destruct H as (items & Hok & Hrest & -> & Hlen).
    assert (Hpl : len (slice data (offset + 16) (offset + 16 + v1)) = v1) by (rewrite slice_length; lia).
    exists ({| it_seconds := v; it_subseconds := v0; it_original := v2;
               it_payload := slice data (offset + 16) (offset + 16 + v1) |} :: items).
    split_and!.
    + constructor; [|done]. unfold pcap_item_ok. cbn. rewrite Hpl. lia.
    + cbn [map concat]. unfold pcap_item_bytes at 1. cbn [it_seconds it_subseconds it_original it_payload]. rewrite Hpl, <-!app_assoc.
      rewrite S0. replace (offset + Z.of_nat 4) with (offset + 4) by lia. rewrite S1.
      replace (offset + 4 + Z.of_nat 4) with (offset + 8) by lia. rewrite S2.
      replace (offset + 8 + Z.of_nat 4) with (offset + 12) by lia. rewrite S3.
      replace (offset + 12 + Z.of_nat 4) with (offset + 16) by lia.
      rewrite <-Hrest. by rewrite <-slice_from_split by lia.
    + rewrite <-app_assoc. done.
    + done.
  - injection H as <- <-. exists []. split_and!; try done.
    + assert (offset = len data) as -> by lia. by rewrite slice_from_end.
    + by rewrite app_nil_r.
Qed.

(** A buffer of a valid header's fields is that header followed by the rest. *)
Lemma pcap_header_split data en nano snaplen network :
  24 <= len data ->
  slice data 0 4 = pcap_magic en nano ->
  unpack en 2 data 4 = Ok 2 -> unpack en 2 data 6 = Ok 4 -> unpack en 4 data 8 = Ok 0 ->
  unpack en 4 data 12 = Ok 0 -> unpack en 4 data 16 = Ok snaplen ->
  unpack en 4 data 20 = Ok network ->
  data = pcap_header en nano snaplen network ++ slice_from data 24.
Proof.
  intros Hl Hm E1 E2 E3 E4 E5 E6.
  apply unpack_split in E1, E2, E3, E4, E5, E6.
  change (4 + Z.of_nat 2) with 6 in E1. change (6 + Z.of_nat 2) with 8 in E2.
  change (8 + Z.of_nat 4) with 12 in E3. change (12 + Z.of_nat 4) with 16 in E4.
  change (16 + Z.of_nat 4) with 20 in E5. change (20 + Z.of_nat 4) with 24 in E6.
  rewrite <-(slice_from_0 data) at 1. rewrite (slice_from_split data 0 4) by lia.
  unfold pcap_header. by rewrite Hm, E1, E2, E3, E4, E5, E6, <-!app_assoc.
Qed.

Lemma signed_eq_0 w z : 0 < w -> 0 <= z < 2 ^ w -> signed w z = 0 -> z = 0.
Proof. unfold signed. destruct (z <? 2 ^ (w - 1)); lia. Qed.

Lemma capture_pcap_sound data cap :
  _capture_pcap data = Ok cap ->
  exists f, pcap_file_ok f /\ data = pcap_encode f /\ cap = pcap_meaning f.
Proof.
  intros H. unfold _capture_pcap in H. res_inv H.
  destruct (assoc_bytes _ _) as [[en scale]|] eqn:Hm; [|discriminate].
  apply assoc_pcap_magic_inv in Hm. destruct Hm as (nano & Hm & ->).
  res_inv H. subst cap. res_inv E1. subst v1. read_facts.
  assert (v = 2) as -> by lia. assert (v0 = 4) as -> by lia. assert (v2 = 0) as -> by lia.
  assert (v5 = 0) as -> by (apply (signed_eq_0 32); [lia | simpl in *; lia | lia]).
  apply pcap_loop_sound in E5; [|lia|rewrite len_nil; unfold MAX_CAPTURE_PACKETS; lia].
  destruct E5 as (items & Hok & Hrest & -> & Hlen). cbn [app] in *.
  exists {| pf_endian := en; pf_nanosecond := nano; pf_snaplen := v3; pf_network := v4; pf_items := items |}.
  unfold len in Hlen, G4. rewrite length_map in Hlen, G4.
  split_and!; [unfold pcap_file_ok, pf_scale, len; cbn | unfold pcap_encode; cbn | done].
  - split_and!; try lia; try done. by apply negb_false_iff.
  - rewrite <-Hrest. apply pcap_header_split; try done; lia.
Qed.

(** ** Well-formed captures *)

(** A record of a capture belongs to one of its interfaces, carries that
    interface's link type and fits its snap length. *)
Definition record_wf (ifs : list CaptureInterface) (r : PacketRecord) : Prop :=
  0 <= pr_interface_id r /\
  exists i, ifs !! Z.to_nat (pr_interface_id r) = Some i /\
    pr_link_type r = if_link_type i /\ 1 <= len (pr_payload r) <= if_snaplen i /\
    len (pr_payload r) <= MAX_PACKET_BYTES.

Definition interface_wf (k : nat) (i : CaptureInterface) : Prop :=
  if_interface_id i = Z.of_nat k /\ zmem (if_link_type i) ALLOWED_LINK_TYPES = true /\
  1 <= if_snaplen i <= MAX_SNAPLEN.

Definition capture_wf (c : ParsedCapture) : Prop :=
  1 <= len (cap_records c) <= MAX_CAPTURE_PACKETS /\
  (forall k i, cap_interfaces c !! k = Some i -> interface_wf k i) /\
  Forall (record_wf (cap_interfaces c)) (cap_records c).

Lemma pcap_meaning_wf f : pcap_file_ok f -> capture_wf (pcap_meaning f).
Proof.
  intros (Hs & Hn & Hc & Hitems). unfold capture_wf, pcap_meaning. cbn. split_and!.
  - unfold len in *. rewrite length_map. lia.
  - unfold len in *. rewrite length_map. lia.
  - intros [|k] i; [|done]. intros [= <-]. done.
  - apply Forall_map. eapply Forall_impl; [exact Hitems|].
    intros it (H1 & H2 & H3 & H4 & H5 & H6). split; [done|]. eexists. split_and!; try done; cbn; lia.
Qed.

(** The invariant of the pcapng block loop. *)
Definition png_wf (st : PngState) : Prop :=
  len (png_records st) <= MAX_CAPTURE_PACKETS /\
  (forall k i, png_interfaces st !! k = Some i -> interface_wf k i) /\
  Forall (record_wf (png_interfaces st)) (png_records st) /\
  (png_seen_section st = false -> png_records st = []).

Lemma record_wf_mono ifs i r : record_wf ifs r -> record_wf (ifs ++ [i]) r.
Proof.
  intros (H0 & x & Hx & Hr). split; [done|]. exists x. split; [|done].
  by apply lookup_app_l_Some.
Qed.

Lemma png_interface_wf en body st st' :
  png_wf st -> _png_interface en body st = Ok st' -> png_wf st'.
Proof.
  intros (H1 & H2 & H3 & H4) H. unfold _png_interface in H. res_inv H. subst st'.
  split_and!; cbn; [done| | |done].
  - intros k i Hk. apply lookup_app_Some in Hk as [Hk|[Hk1 Hk2]]; [by apply H2|].
    apply list_lookup_singleton_Some in Hk2 as [Hk2 <-].
    unfold interface_wf. cbn. split_and!; [unfold len; lia| |lia|lia].
    apply orb_false_iff in G0 as [_ G0]. by apply negb_false_iff.
  - eapply Forall_impl; [exact H3|]. intros. by apply record_wf_mono.
Qed.

Lemma py_index_inv {A} (l : list A) i x :
  0 <= i -> py_index l i = Ok x -> l !! Z.to_nat i = Some x.
Proof.
  unfold py_index. intros Hi. replace (i <? 0) with false by lia.
  replace (i <? 0) with false by lia. destruct (l !! Z.to_nat i); [|done]. by intros [= ->].
Qed.

Lemma png_packet_wf en body st st' :
  png_wf st -> png_seen_section st = true -> _png_packet en body st = Ok st' -> png_wf st'.
Proof.
  intros (H1 & H2 & H3 & H4) Hs H. unfold _png_packet in H. res_inv H. subst st'. read_facts. pad_facts.
  apply py_index_inv in E4; [|lia].
  split_and!; cbn; [rewrite len_app, len_cons, len_nil; lia|done| |congruence].
  apply Forall_app; split; [done|]. apply Forall_singleton. split; [cbn; lia|].
  exists v4. cbn. split_and!; try done; rewrite slice_length; lia.
Qed.

(** The section-header block type reads the same in both byte orders. *)
Lemma shb_type_magic en data offset :
  unpack en 4 data offset = Ok 0x0A0D0D0A -> slice data offset (offset + 4) = SHB_MAGIC.
Proof.
  intros (H1 & H2 & H)%unpack_inv. change (Z.of_nat 4) with 4 in *.
  set (l := slice data offset (offset + 4)) in *.
  assert (Hl : length l = 4%nat).
  { pose proof (slice_length data offset (offset + 4)) as Hl. fold l in Hl. unfold len in *. lia. }
  rewrite <-(bytes_of_int_of en l), Hl, <-H. by destruct en.
Qed.

(** [_png_section_order] leaves records and interfaces alone, and a block that
    starts with the magic is the first section header: no record precedes it. *)
Lemma png_section_order_inv data offset st st' :
  png_wf st -> _png_section_order data offset st = Ok st' ->
  png_wf st' /\
  (slice data offset (offset + 4) = SHB_MAGIC -> png_records st' = []) /\
  (png_endian st' <> None -> png_endian st <> None \/ png_seen_section st' = true) /\
  (png_seen_section st = true -> png_seen_section st' = true) /\
  (png_seen_section st' = false -> png_endian st' = png_endian st).
Proof.
  intros Hwf H. unfold _png_section_order in H. destruct (beq _ _) eqn:Hb.
  - res_inv H. subst st'. destruct Hwf as (H1 & H2 & H3 & H4).
    split_and!; cbn; try done; auto.
  - injection H as <-. split_and!; auto.
    intros Hm. unfold beq in Hb. apply bool_decide_eq_false in Hb. contradiction.
Qed.

(** An endianness is known only once a section header was seen. *)
Definition png_ordered (st : PngState) : Prop :=
  png_endian st <> None -> png_seen_section st = true.

Lemma png_section_header_wf en block_length body st st' :
  png_wf st -> png_records st = [] ->
  _png_section_header en block_length body st = Ok st' -> png_wf st'.
Proof.
  intros (H1 & H2 & H3 & H4) Hr H. unfold _png_section_header in H. res_inv H. subst st'.
  split_and!; cbn; try done. by rewrite Hr.
Qed.

(** The blocks change neither the byte order nor the section flag. *)
Lemma png_body_frame en block_type block_length body st st' :
  (if block_type =? 0x0A0D0D0A then _png_section_header en block_length body st
   else if block_type =? 1 then _png_interface en body st
   else if block_type =? 6 then _png_packet en body st
   else if (block_type =? 2) || (block_type =? 3) then
     Err (PacketCaptureError "pcapng packet block lacks an accepted timestamp contract")
   else Ok st) = Ok st' ->
  png_endian st' = png_endian st /\ png_seen_section st' = png_seen_section st.
Proof.
  intros H. unfold _png_section_header, _png_interface, _png_packet in H.
  repeat (case_match; try discriminate); res_inv H; subst; done.
Qed.

Lemma png_block_wf data offset st offset' st' :
  png_wf st -> png_ordered st -> _png_block data offset st = Ok (offset', st') ->
  png_wf st' /\ png_ordered st'.
Proof.
  intros Hwf Hord H. unfold _png_block in H. res_inv H.
  destruct (png_section_order_inv _ _ _ _ Hwf E) as (Hwf1 & Hmagic & Hen & Hseen & _).
  destruct (png_endian v) as [en|] eqn:Hv; [|discriminate]. res_inv H. subst.
  assert (Hs : png_seen_section v = true).
  { destruct Hen as [He|He]; [done| |done]. by apply Hseen, Hord. }
  pose proof (png_body_frame _ _ _ _ _ _ E3) as [F1 F2].
  split; [|intros _; by rewrite F2].
  destruct (v0 =? 0x0A0D0D0A) eqn:Ht.
  - apply Z.eqb_eq in Ht. subst v0. eapply png_section_header_wf; [done| |done].
    apply Hmagic. by eapply shb_type_magic.
  - destruct (v0 =? 1); [by eapply png_interface_wf|].
    destruct (v0 =? 6); [by eapply png_packet_wf|].
    res_inv E3. by subst.
Qed.

Lemma capture_pcapng_loop_wf fuel data offset count st offset' st' :
  png_wf st -> png_ordered st ->
  _capture_pcapng_loop fuel data offset count st = Ok (offset', st') -> png_wf st'.
Proof.
  revert offset count st; induction fuel as [|fuel IH]; intros offset count st Hwf Hord H; [done|].
  cbn [_capture_pcapng_loop] in H. destruct (offset <? len data).
  - res_inv H. apply png_block_wf in E; [|done|done]. destruct E. by eapply IH.
  - injection H as <- <-. done.
Qed.

Lemma png_init_wf : png_wf png_init.
Proof. split_and!; cbn; try done. Qed.

Lemma capture_pcapng_wf data cap : _capture_pcapng data = Ok cap -> capture_wf cap.
Proof.
  intros H. unfold _capture_pcapng in H. res_inv H. subst cap.
  apply capture_pcapng_loop_wf in E; [|apply png_init_wf|intros Hn; by contradict Hn].
  destruct E as (H1 & H2 & H3 & H4). split_and!; cbn; try done.
  pose proof (len_nonneg (png_records y)). lia.
Qed.

Lemma parse_packet_capture_wf_any data kind cap :
  parse_packet_capture data kind = Ok cap -> capture_wf cap.
Proof.
  unfold parse_packet_capture. destruct (seq_ kind "packet-pcap").
  - intros (f & Hf & _ & ->)%capture_pcap_sound. by apply pcap_meaning_wf.
  - destruct (seq_ kind "packet-pcapng"); [apply capture_pcapng_wf|done].
Qed.

(** C36: [_capture_pcap] is exact.  It accepts a byte string exactly when the
    string is the encoding, in one of the four magic/endianness variants, of a
    well-formed classic pcap file (version 2.4, zero time-zone fields, accepted
    link type and snap length, 1 to [MAX_CAPTURE_PACKETS] complete records
    within the snap length), and then returns exactly the file's records with
    their exact rational timestamps and its one interface. *)
Theorem capture_pcap_exact data capture :
  _capture_pcap data = Ok capture <->
  exists f, pcap_file_ok f /\ data = pcap_encode f /\ capture = pcap_meaning f.
Proof.
  split; [apply capture_pcap_sound|]. intros (f & Hf & -> & ->). by apply capture_pcap_complete.
Qed.

(** C37: Every capture either parser accepts is well formed: it has 1 to
    [MAX_CAPTURE_PACKETS] records; its interfaces are numbered in order, with an
    accepted link type and snap length; and every record names an interface of
    the capture, carries that interface's link type and is non-empty and within
    the interface's snap length. *)
Theorem parse_packet_capture_well_formed data kind capture :
  parse_packet_capture data kind = Ok capture -> capture_wf capture.
Proof. apply parse_packet_capture_wf_any. Qed.

(** A two-record file with nanosecond timestamps. *)
Definition sample_pcap : PcapFile := {|
  pf_endian := BigEndian; pf_nanosecond := true; pf_snaplen := 65535; pf_network := DLT_RAW;
  pf_items := [{| it_seconds := 1; it_subseconds := 500; it_original := 3; it_payload := [x45; x00; x01] |};
               {| it_seconds := 2; it_subseconds := 0; it_original := 9; it_payload := [x60] |}] |}.

Lemma parse_packet_capture_well_formed_witness : capture_wf (pcap_meaning sample_pcap).
Proof.
  apply (parse_packet_capture_well_formed (pcap_encode sample_pcap) "packet-pcap").
  vm_compute. reflexivity.
Defined.
