(* ===== verification/IpAddress.v ===== *)
(** * Addresses as text: the part of Python's [ipaddress] the sources use

    [ipaddress.ip_address(data)] on packed bytes and on text, its [version] and
    its [str], as in Python 3.14 (the interpreter the workflows pin).  An
    address is kept as its octets or hextets.

    The main result is [ip_address_text_str]: the text of an address parses
    back to that address, so comparing addresses as text, which is what
    [packet_capture.py] does, is comparing them as addresses. *)

From S2P Require Import Prelude.

Inductive ip_addr :=
  | IPv4Address (octets : list Z)
  | IPv6Address (hextets : list Z) (scope_id : option string).

Definition ip_version (a : ip_addr) : Z :=
  match a with IPv4Address _ => 4 | IPv6Address _ _ => 6 end.

(** ** Numerals *)

Definition digit_char (n : Z) : ascii :=
  ascii_of_N (Z.to_N (if n <? 10 then 48 + n else 87 + n)).

(** Digits of [n] in base [b], most significant first, at least one. *)
Fixpoint digits (fuel : nat) (b n : Z) : list ascii :=
  match fuel with
  | O => []
  | S fuel => if n <? b then [digit_char n] else digits fuel b (n / b) ++ [digit_char (n mod b)]
  end.
(** ['%d' % n] and ['%x' % n] of the 8-bit and 16-bit numbers used here. *)
Definition dec_str (n : Z) : string := String.string_of_list_ascii (digits 8 10 n).
Definition hex_str (n : Z) : string := String.string_of_list_ascii (digits 8 16 n).

Definition dec_value (c : ascii) : option Z :=
  let n := Z.of_N (N_of_ascii c) in
  if (48 <=? n) && (n <=? 57) then Some (n - 48) else None.

(** [int(text, base)] when every character is a digit of the base. *)
Fixpoint int_digits (value : ascii -> option Z) (b acc : Z) (s : string) : option Z :=
  match s with
  | EmptyString => Some acc
  | String c s' => v ← value c; int_digits value b (acc * b + v) s'
  end.

(** ** Text helpers *)

Fixpoint contains (c : ascii) (s : string) : bool :=
  match s with
  | EmptyString => false
  | String c' s' => Ascii.eqb c c' || contains c s'
  end.

(** [s.split(c)]. *)
Fixpoint split_on (c : ascii) (s : string) : list string :=
  match s with
  | EmptyString => [EmptyString]
  | String c' s' =>
      if Ascii.eqb c c' then EmptyString :: split_on c s'
      else match split_on c s' with
           | w :: ws => String c' w :: ws
           | [] => [String c' EmptyString]
           end
  end.

(** [c.join(l)]. *)
Fixpoint join_with (c : ascii) (l : list string) : string :=
  match l with
  | [] => EmptyString
  | [s] => s
  | s :: l' => s +:+ String c (join_with c l')
  end.

(** ** Printing *)

(** The scan of [_compress_hextets]: the first longest run of zero hextets. *)
Record zero_run := { best_start : Z; best_len : Z; cur_start : Z; cur_len : Z }.

Fixpoint compress_scan (index : Z) (hextets : list string) (st : zero_run) : zero_run :=
  match hextets with
  | [] => st
  | h :: rest =>
      let st' :=
        if seq_ h "0" then
          let l := cur_len st + 1 in
          let s := if cur_start st =? -1 then index else cur_start st in
          if best_len st <? l
          then {| best_start := s; best_len := l; cur_start := s; cur_len := l |}
          else {| best_start := best_start st; best_len := best_len st; cur_start := s; cur_len := l |}
        else {| best_start := best_start st; best_len := best_len st; cur_start := -1; cur_len := 0 |} in
      compress_scan (index + 1) rest st'
  end.

Definition compress_hextets (hextets : list string) : list string :=
  let st := compress_scan 0 hextets
              {| best_start := -1; best_len := 0; cur_start := -1; cur_len := 0 |} in
  if 1 <? best_len st then
    let e := best_start st + best_len st in
    (if best_start st =? 0 then [""%string] else []) ++
    slice hextets 0 (best_start st) ++ [""%string] ++ slice_from hextets e ++
    (if e =? len hextets then [""%string] else [])
  else hextets.

Definition str_v4 (octets : list Z) : string := join_with "." (map dec_str octets).

(** The low two hextets of an IPv4-mapped address, as octets. *)
Definition ipv4_mapped (hextets : list Z) : option (list Z) :=
  match hextets with
  | [0; 0; 0; 0; 0; 0xffff; a; b] => Some [a / 256; a mod 256; b / 256; b mod 256]
  | _ => None
  end.

Definition str_v6 (hextets : list Z) : string :=
  match ipv4_mapped hextets with
  | Some octets => join_with ":" (compress_hextets (map hex_str [0; 0; 0; 0; 0; 0; 0; 0xffff]))
                   +:+ ":" +:+ str_v4 octets
  | None => join_with ":" (compress_hextets (map hex_str hextets))
  end.

(** [str(address)]. *)
Definition ip_str (a : ip_addr) : string :=
  match a with
  | IPv4Address octets => str_v4 octets
  | IPv6Address hextets None => str_v6 hextets
  | IPv6Address hextets (Some s) => str_v6 hextets +:+ "%" +:+ s
  end.

(** ** Parsing *)

Definition parse_octet (s : string) : option Z :=
  if seq_ s "" then None else
  if (3 <? Z.of_nat (String.length s)) then None else
  if negb (seq_ s "0") && match s with String c _ => Ascii.eqb c "0" | _ => false end then None else
  v ← int_digits dec_value 10 0 s;
  if 255 <? v then None else Some v.

Definition parse_v4 (s : string) : option (list Z) :=
  if contains "/" s then None else
  let octets := split_on "." s in
  if len octets =? 4 then mapM parse_octet octets else None.

Definition parse_hextet (s : string) : option Z :=
  if seq_ s "" then None else
  if 4 <? Z.of_nat (String.length s) then None else int_digits hex_digit 16 0 s.

(** The positions strictly between the end parts that are empty. *)
Definition skip_indices (parts : list string) : list Z :=
  filter (fun i => parts !! Z.to_nat i = Some ""%string)
    (map Z.of_nat (seq 1 (length parts - 2))).

(** The parts of the text around the [::], if there is one. *)
Definition parse_v6_parts (parts : list string) : option (list Z) :=
  if 9 <? len parts then None else
  match skip_indices parts with
  | [] =>
      if negb (len parts =? 8) then None else mapM parse_hextet parts
  | [skip] =>
      let first_empty := bool_decide (parts !! 0%nat = Some ""%string) in
      let last_empty := bool_decide (last parts = Some ""%string) in
      let parts_hi := if first_empty then skip - 1 else skip in
      let parts_lo := if last_empty then len parts - skip - 1 - 1 else len parts - skip - 1 in
      if first_empty && negb (parts_hi =? 0) then None else
      if last_empty && negb (parts_lo =? 0) then None else
      let parts_skipped := 8 - (parts_hi + parts_lo) in
      if parts_skipped <? 1 then None else
      hi ← mapM parse_hextet (slice parts 0 parts_hi);
      lo ← mapM parse_hextet (slice_from parts (len parts - parts_lo));
      Some (hi ++ replicate (Z.to_nat parts_skipped) 0 ++ lo)
  | _ => None
  end.

(** An IPv4 suffix is replaced by its two hextets. *)
Definition expand_v4_suffix (parts : list string) : option (list string) :=
  match last parts with
  | Some p =>
      if contains "." p then
        match parse_v4 p with
        | Some [a; b; c; d] =>
            Some (take (length parts - 1) parts ++ [hex_str (a * 256 + b); hex_str (c * 256 + d)])
        | _ => None
        end
      else Some parts
  | None => Some parts
  end.

Definition parse_v6 (s : string) : option (list Z * option string) :=
  if contains "/" s then None else
  match split_on "%" s with
  | [addr] =>
      let parts := split_on ":" addr in
      if len parts <? 3 then None else
      parts ← expand_v4_suffix parts; hs ← parse_v6_parts parts; Some (hs, None)
  | [addr; scope] =>
      if seq_ scope "" then None else
      let parts := split_on ":" addr in
      if len parts <? 3 then None else
      parts ← expand_v4_suffix parts; hs ← parse_v6_parts parts; Some (hs, Some scope)
  | _ => None
  end.

(** [ipaddress.ip_address(text)]; [None] is its [ValueError]. *)
Definition ip_address_text (s : string) : option ip_addr :=
  match parse_v4 s with
  | Some octets => Some (IPv4Address octets)
  | None => '(hs, scope) ← parse_v6 s; Some (IPv6Address hs scope)
  end.

Fixpoint hextets_of (l : bytes) : list Z :=
  match l with
  | a :: b :: l' => (bz a * 256 + bz b) :: hextets_of l'
  | _ => []
  end.

(** [ipaddress.ip_address(packed)]: 4 or 16 bytes. *)
Definition ip_address_bytes (l : bytes) : option ip_addr :=
  if len l =? 4 then Some (IPv4Address (map bz l))
  else if len l =? 16 then Some (IPv6Address (hextets_of l) None)
  else None.

Example str_v4_ex : ip_str (IPv4Address [192; 0; 2; 1]) = "192.0.2.1"%string.
Proof. reflexivity. Qed.
Example str_v6_ex1 : ip_str (IPv6Address [0x2001; 0xdb8; 0; 0; 0; 0; 0; 1] None) = "2001:db8::1"%string.
Proof. reflexivity. Qed.
Example str_v6_ex2 : ip_str (IPv6Address [0; 0; 0; 0; 0; 0; 0; 0] None) = "::"%string.
Proof. reflexivity. Qed.
Example str_v6_ex3 : ip_str (IPv6Address [1; 0; 0; 2; 0; 0; 0; 0] None) = "1:0:0:2::"%string.
Proof. reflexivity. Qed.
Example str_v6_ex4 : ip_str (IPv6Address [0; 0; 0; 0; 0; 0xffff; 0x102; 0x304] None) = "::ffff:1.2.3.4"%string.
Proof. reflexivity. Qed.
Example parse_v6_ex : ip_address_text "2001:DB8::1" = Some (IPv6Address [0x2001; 0xdb8; 0; 0; 0; 0; 0; 1] None).
Proof. reflexivity. Qed.
Example parse_v6_bad : ip_address_text "1::2::3" = None.
Proof. reflexivity. Qed.
Example parse_v4_bad : ip_address_text "1.2.3.04" = None.
Proof. reflexivity. Qed.

(** ** The text of an address parses back to it *)

Definition octet_ok (n : Z) : Prop := 0 <= n < 256.
Definition hextet_ok (n : Z) : Prop := 0 <= n < 65536.
Definition ip_ok (a : ip_addr) : Prop :=
  match a with
  | IPv4Address octets => length octets = 4%nat /\ Forall octet_ok octets
  | IPv6Address hextets scope => length hextets = 8%nat /\ Forall hextet_ok hextets /\ scope = None
  end.

(** A finite check of [P] on [z .. z + n - 1]. *)
Fixpoint check_from (n : nat) (z : Z) (P : Z -> bool) : bool :=
  match n with O => true | S n => P z && check_from n (z + 1) P end.

Lemma check_from_spec n z P :
  check_from n z P = true -> forall k, z <= k < z + Z.of_nat n -> P k = true.
Proof.
  revert z; induction n as [|n IH]; intros z H k Hk; [lia|].
  simpl in H. apply andb_true_iff in H as [H1 H2].
  destruct (decide (k = z)) as [->|]; [done|]. apply (IH (z + 1)); [done|lia].
Qed.

Definition plain_word (s : string) : bool :=
  negb (seq_ s "") && negb (contains ":" s) && negb (contains "." s) &&
  negb (contains "/" s) && negb (contains "%" s).

Lemma octet_word n : octet_ok n -> parse_octet (dec_str n) = Some n /\ plain_word (dec_str n) = true.
Proof.
  intros Hn.
  assert (H : (bool_decide (parse_octet (dec_str n) = Some n) && plain_word (dec_str n)) = true).
  { revert n Hn. apply (check_from_spec 256 0
      (fun n => bool_decide (parse_octet (dec_str n) = Some n) && plain_word (dec_str n))).
    vm_compute. reflexivity. }
  apply andb_true_iff in H as [H1 H2]. apply bool_decide_eq_true in H1. done.
Qed.

(** Base-16 numerals. *)
Lemma digit_char_hex d :
  0 <= d < 16 ->
  hex_digit (digit_char d) = Some d /\
  plain_word (String (digit_char d) EmptyString) = true.
Proof.
  intros Hd.
  assert (H : (bool_decide (hex_digit (digit_char d) = Some d)
               && plain_word (String (digit_char d) EmptyString)) = true).
  { revert d Hd. apply (check_from_spec 16 0
      (fun d => bool_decide (hex_digit (digit_char d) = Some d)
                && plain_word (String (digit_char d) EmptyString))).
    vm_compute. reflexivity. }
  apply andb_true_iff in H as [H1 H2]. by apply bool_decide_eq_true in H1.
Qed.

Lemma string_of_list_app l1 l2 :
  String.string_of_list_ascii (l1 ++ l2)
  = String.string_of_list_ascii l1 +:+ String.string_of_list_ascii l2.
Proof. induction l1 as [|c l1 IH]; simpl; [done|]. by rewrite IH. Qed.

Lemma int_digits_app value b acc s1 s2 :
  int_digits value b acc (s1 +:+ s2) = (acc' ← int_digits value b acc s1; int_digits value b acc' s2).
Proof.
  revert acc; induction s1 as [|c s1 IH]; intros acc; simpl; [done|].
  destruct (value c); simpl; [apply IH|done].
Qed.

Lemma contains_app c s1 s2 : contains c (s1 +:+ s2) = contains c s1 || contains c s2.
Proof. induction s1 as [|c' s1 IH]; simpl; [done|]. by rewrite IH, orb_assoc. Qed.

Lemma plain_word_facts s :
  plain_word s = true ->
  s <> ""%string /\ contains ":" s = false /\ contains "." s = false /\
  contains "/" s = false /\ contains "%" s = false.
Proof.
  unfold plain_word, seq_. rewrite !andb_true_iff, !negb_true_iff.
  intros [[[[H1 H2] H3] H4] H5]. split_and!; try done. by apply String.eqb_neq.
Qed.

Lemma plain_word_app s1 s2 : plain_word s1 = true -> plain_word s2 = true -> plain_word (s1 +:+ s2) = true.
Proof.
  intros (H1 & H2 & H3 & H4 & H5)%plain_word_facts (K1 & K2 & K3 & K4 & K5)%plain_word_facts.
  unfold plain_word. rewrite !contains_app, H2, H3, H4, H5, K2, K3, K4, K5.
  destruct s1; [done|]. done.
Qed.

Lemma hex_digits_spec fuel n :
  0 <= n < 16 ^ Z.of_nat fuel ->
  let s := String.string_of_list_ascii (digits fuel 16 n) in
  (fuel <> 0%nat -> plain_word s = true) /\
  (forall k, n < 16 ^ Z.of_nat (S k) -> (length (digits fuel 16 n) <= S k)%nat) /\
  int_digits hex_digit 16 0 s = Some n.
Proof.
  revert n; induction fuel as [|fuel IH]; intros n Hn.
  - cbn in *. split_and!; [done|intros; lia|]. f_equal. lia.
  - cbn [digits]. destruct (n <? 16) eqn:Hlt.
    + destruct (digit_char_hex n) as [H1 H2]; [lia|].
      split_and!; [done|intros; simpl; lia|]. simpl. by rewrite H1.
    + rewrite Nat2Z.inj_succ, Z.pow_succ_r in Hn by lia.
      pose proof (Z.mod_pos_bound n 16 eq_refl) as Hm. pose proof (Z.div_mod n 16) as Hdm.
      destruct (digit_char_hex (n mod 16)) as [H1 H2]; [lia|].
      destruct (IH (n / 16)) as (I1 & I2 & I3).
      { split; [apply Z.div_pos; lia|apply Z.div_lt_upper_bound; lia]. }
      rewrite string_of_list_app. split_and!.
      * intros _. apply plain_word_app; [apply I1|done]. destruct fuel; [|done]. cbn in Hn. lia.
      * intros [|k] Hk; [cbn in Hk; lia|]. rewrite length_app. simpl.
        rewrite Nat2Z.inj_succ, Z.pow_succ_r in Hk by lia.
        specialize (I2 k). rewrite Nat.add_1_r. apply le_n_S, I2.
        apply Z.div_lt_upper_bound; lia.
      * rewrite int_digits_app, I3. simpl. rewrite H1. simpl. f_equal. lia.
Qed.

Lemma string_of_list_length l : String.length (String.string_of_list_ascii l) = length l.
Proof. induction l; simpl; congruence. Qed.

Lemma hextet_word n :
  hextet_ok n -> parse_hextet (hex_str n) = Some n /\ plain_word (hex_str n) = true /\
                 (hex_str n = "0"%string -> n = 0).
Proof.
  intros Hn. unfold hextet_ok in Hn. unfold hex_str.
  destruct (hex_digits_spec 8 n) as (H1 & H2 & H3); [cbn; lia|].
  set (s := String.string_of_list_ascii (digits 8 16 n)) in *.
  assert (Hlen : (String.length s <= 4)%nat).
  { unfold s. rewrite string_of_list_length. apply (H2 3%nat). cbn. lia. }
  split_and!; [|by apply H1|].
  - unfold parse_hextet. destruct (plain_word_facts s (H1 ltac:(done))) as (Hne & _).
    unfold seq_. replace (String.eqb s "") with false by (symmetry; by apply String.eqb_neq).
    replace (4 <? Z.of_nat (String.length s)) with false by lia. done.
  - intros He. rewrite He in H3. cbn in H3. by injection H3.
Qed.

Lemma contains_join c d l :
  c <> d -> Forall (fun s => contains c s = false) l -> contains c (join_with d l) = false.
Proof.
  intros Hcd. induction 1 as [|s l Hs Hl IH]; [done|].
  destruct l as [|s' l]; [done|].
  change (join_with d (s :: s' :: l)) with (s +:+ String d (join_with d (s' :: l))).
  rewrite contains_app, Hs. cbn [orb contains]. rewrite IH.
  destruct (Ascii.eqb_spec c d); done.
Qed.

Lemma split_on_plain c s : contains c s = false -> split_on c s = [s].
Proof.
  induction s as [|c' s IH]; simpl; [done|]. intros H. apply orb_false_iff in H as [H1 H2].
  by rewrite H1, IH.
Qed.

Lemma split_on_app c s1 s2 :
  contains c s1 = false -> split_on c (s1 +:+ String c s2) = s1 :: split_on c s2.
Proof.
  induction s1 as [|c' s1 IH]; simpl.
  - by rewrite Ascii.eqb_refl.
  - intros H. apply orb_false_iff in H as [H1 H2]. rewrite H1, IH by done. done.
Qed.

Lemma split_on_join c l :
  l <> [] -> Forall (fun s => contains c s = false) l -> split_on c (join_with c l) = l.
Proof.
  intros Hne Hl. induction Hl as [|s l Hs Hl IH]; [done|].
  destruct l as [|s' l]; [by apply split_on_plain|].
  change (join_with c (s :: s' :: l)) with (s +:+ String c (join_with c (s' :: l))).
  rewrite split_on_app by done. by rewrite IH.
Qed.

Lemma mapM_words {A} (f : string -> option A) (p : A -> string) (P : A -> Prop) l :
  (forall a, P a -> f (p a) = Some a) -> Forall P l -> mapM f (map p l) = Some l.
Proof.
  intros H. induction 1 as [|a l Ha Hl IH]; [done|]. simpl. rewrite H by done. simpl.
  rewrite IH. done.
Qed.

Lemma parse_v4_str octets :
  length octets = 4%nat -> Forall octet_ok octets -> parse_v4 (str_v4 octets) = Some octets.
Proof.
  intros Hlen Hok. unfold parse_v4, str_v4.
  assert (Hw : forall c, c = ":"%char \/ c = "."%char \/ c = "/"%char \/ c = "%"%char ->
            Forall (fun s => contains c s = false) (map dec_str octets)).
  { intros c Hc. apply Forall_map. eapply Forall_impl; [exact Hok|]. intros n Hn.
    destruct (octet_word n Hn) as [_ Hp]. apply plain_word_facts in Hp as (? & ? & ? & ? & ?).
    by destruct Hc as [->|[->|[->| ->]]]. }
  rewrite (contains_join "/" ".") by (done || apply Hw; auto).
  rewrite split_on_join by (try (apply Hw; auto); destruct octets; done).
  unfold len. rewrite length_map, Hlen. simpl.
  apply (mapM_words _ _ octet_ok); [|done]. intros a Ha. by apply octet_word.
Qed.

(** *** Zero compression *)

Definition zeros (hs : list string) (s e : Z) : Prop :=
  forall k, s <= k < e -> hs !! Z.to_nat k = Some "0"%string.

(** The runs that the scan records: the best one, and the one still open. *)
Definition run_ok (hs : list string) (index : Z) (st : zero_run) : Prop :=
  zeros hs (best_start st) (best_start st + best_len st) /\
  (0 < best_len st -> 0 <= best_start st /\ best_start st + best_len st <= index) /\
  ((cur_start st = -1 /\ cur_len st = 0) \/
   (0 <= cur_start st /\ cur_start st + cur_len st = index /\ zeros hs (cur_start st) index)).

Lemma zeros_snoc hs s e :
  zeros hs s e -> hs !! Z.to_nat e = Some "0"%string -> zeros hs s (e + 1).
Proof. intros H He k Hk. destruct (decide (k = e)) as [->|]; [done|]. apply H. lia. Qed.

Lemma compress_scan_ok hs rest index st :
  0 <= index -> run_ok hs index st -> drop (Z.to_nat index) hs = rest ->
  run_ok hs (index + len rest) (compress_scan index rest st).
Proof.
  revert index st. induction rest as [|h rest IH]; intros index st Hi Hst Hd.
  - by rewrite len_nil, Z.add_0_r.
  - cbn [compress_scan]. rewrite len_cons, Z.add_assoc.
    assert (Hh : hs !! Z.to_nat index = Some h).
    { pose proof (lookup_drop hs (Z.to_nat index) 0) as L. rewrite Hd in L.
      replace (Z.to_nat index + 0)%nat with (Z.to_nat index) in L by lia. done. }
    apply IH; [lia| |replace (Z.to_nat (index + 1)) with (Z.to_nat index + 1)%nat by lia;
                     by rewrite <-drop_drop, Hd].
    destruct Hst as (H1 & H2 & H3). unfold seq_. destruct (String.eqb_spec h "0") as [->|Hne].
    + destruct H3 as [[-> ->]|(H3 & H4 & H5)].
      * assert (Hz : zeros hs index (index + 1)).
        { intros k Hk. assert (k = index) as -> by lia. done. }
        rewrite Z.eqb_refl. change (0 + 1) with 1.
        destruct (best_len st <? 1) eqn:Hb; unfold run_ok; cbn;
          split_and!; try done; try lia; right; split_and!; try lia; done.
      * pose proof (zeros_snoc _ _ _ H5 Hh). replace (cur_start st =? -1) with false by lia.
        destruct (best_len st <? cur_len st + 1) eqn:Hb; unfold run_ok; cbn; split_and!; try lia; try done.
        -- by replace (cur_start st + (cur_len st + 1)) with (index + 1) by lia.
        -- right. split_and!; try lia; done.
        -- right. split_and!; try lia; done.
    + unfold run_ok; cbn; split_and!; try done; try lia; by left.
Qed.

(** The hextets around the compressed run. *)
Lemma compress_hextets_shape hs :
  compress_hextets hs = hs \/
  exists a b n, (1 < n)%nat /\ hs = a ++ replicate n "0"%string ++ b /\
    compress_hextets hs =
      (match a with [] => [""%string] | _ => a end) ++ [""%string] ++
      (match b with [] => [""%string] | _ => b end).
Proof.
  unfold compress_hextets.
  set (st := compress_scan _ _ _).
  assert (Hst : run_ok hs (0 + len hs) st).
  { apply compress_scan_ok; [lia| |done]. unfold run_ok, zeros; cbn.
    split_and!; [intros; lia|lia|by left]. }
  destruct (1 <? best_len st) eqn:Hb; [right|by left].
  destruct Hst as (Hz & Hr & _). destruct Hr as [Hs He]; [lia|].
  set (s := best_start st) in *. set (n := best_len st) in *.
  exists (slice hs 0 s), (slice_from hs (s + n)), (Z.to_nat n).
  assert (Hmid : slice hs s (s + n) = replicate (Z.to_nat n) "0"%string).
  { apply list_eq. intros i. destruct (decide (i < Z.to_nat n)%nat) as [Hi|Hi].
    - rewrite lookup_replicate_2 by done. unfold slice.
      rewrite lookup_take_lt by lia. rewrite lookup_drop.
      specialize (Hz (s + Z.of_nat i)). rewrite Z2Nat.inj_add, Nat2Z.id in Hz by lia. apply Hz. lia.
    - rewrite !lookup_ge_None_2; [done|rewrite length_replicate; lia|].
      pose proof (slice_length hs s (s + n)). unfold len in *. lia. }
  split_and!; [lia| |].
  - rewrite <-Hmid, app_assoc, <-slice_split, <-slice_from_split by lia. done.
  - assert (Hl1 : len (slice hs 0 s) = s) by (rewrite slice_length; lia).
    assert (Hl2 : len (slice_from hs (s + n)) = len hs - (s + n)) by (apply slice_from_length; lia).
    destruct (slice hs 0 s) eqn:Ea, (slice_from hs (s + n)) eqn:Eb;
      rewrite ?len_nil, ?len_cons in *;
      pose proof (@len_nonneg string) as Hnn.
    + replace (s =? 0) with true by lia. replace (s + n =? len hs) with true by lia. done.
    + pose proof (Hnn l). replace (s =? 0) with true by lia. replace (s + n =? len hs) with false by lia.
      by rewrite app_nil_r.
    + pose proof (Hnn l). replace (s =? 0) with false by lia. by replace (s + n =? len hs) with true by lia.
    + pose proof (Hnn l). pose proof (Hnn l0). replace (s =? 0) with false by lia.
      replace (s + n =? len hs) with false by lia. by rewrite app_nil_r.
Qed.

(** The parts that surround a compressed run: never empty themselves. *)
Definition edge (w : list string) : list string := match w with [] => [""%string] | _ => w end.

Definition plain_words (w : list string) : Prop := Forall (fun s => plain_word s = true) w.

Lemma plain_words_hex l : Forall hextet_ok l -> plain_words (map hex_str l).
Proof. intros H. apply Forall_map. eapply Forall_impl; [exact H|]. intros n Hn. by apply hextet_word. Qed.

Lemma plain_words_lookup w i : plain_words w -> w !! i <> Some ""%string.
Proof. intros Hw Hi. by pose proof (Forall_lookup_1 _ _ _ _ Hw Hi). Qed.

Lemma edge_length w : (1 <= length (edge w))%nat.
Proof. destruct w; simpl; lia. Qed.

Lemma edge_len w : len (edge w) = if bool_decide (w = []) then 1 else len w.
Proof. destruct w; cbn [edge]; [done|]. by rewrite bool_decide_eq_false_2. Qed.

Lemma edge_guard (w : list string) : bool_decide (w = []) && negb (len w =? 0) = false.
Proof. by destruct w. Qed.

Lemma filter_none {A} (P : A -> Prop) `{forall x, Decision (P x)} l :
  (forall x, x ∈ l -> ~ P x) -> filter P l = [].
Proof.
  induction l as [|x l IH]; intros Hl; [done|].
  rewrite filter_cons_False by (apply Hl; left). apply IH. intros y Hy. apply Hl. by right.
Qed.

Lemma filter_seq_none (parts : list string) s n :
  (forall i, (s <= i < s + n)%nat -> parts !! i <> Some ""%string) ->
  filter (fun i => parts !! Z.to_nat i = Some ""%string) (map Z.of_nat (seq s n)) = [].
Proof.
  intros H. apply filter_none. intros x Hx.
  apply list_elem_of_In, in_map_iff in Hx as (k & <- & Hk%in_seq). rewrite Nat2Z.id. apply H. lia.
Qed.

Lemma skip_indices_plain w : plain_words w -> skip_indices w = [].
Proof. intros Hw. apply filter_seq_none. intros i _. by apply plain_words_lookup. Qed.

Lemma skip_indices_gap a b :
  plain_words a -> plain_words b ->
  skip_indices (edge a ++ [""%string] ++ edge b) = [len (edge a)].
Proof.
  intros Ha Hb. unfold skip_indices.
  set (na := length (edge a)). set (nb := length (edge b)).
  assert (Hna : (1 <= na)%nat) by apply edge_length. assert (Hnb : (1 <= nb)%nat) by apply edge_length.
  set (parts := edge a ++ [""%string] ++ edge b).
  assert (Hl : length parts = (na + 1 + nb)%nat) by (unfold parts; rewrite !length_app; simpl; lia).
  rewrite Hl. replace (na + 1 + nb - 2)%nat with ((na - 1) + (1 + (nb - 1)))%nat by lia.
  rewrite !seq_app, !map_app, !filter_app.
  rewrite (filter_seq_none parts 1 (na - 1)), (filter_seq_none parts _ (nb - 1)), app_nil_r.
  - replace (1 + (na - 1))%nat with na by lia. simpl. rewrite filter_cons_True; [done|].
    rewrite Nat2Z.id. unfold parts. rewrite lookup_app_r by done. by rewrite Nat.sub_diag.
  - intros i Hi. unfold parts. rewrite lookup_app_r by lia.
    rewrite lookup_app_r by (simpl; lia). simpl. unfold edge.
    destruct b as [|w b]; [simpl in nb; subst nb; lia|]. by apply plain_words_lookup.
  - intros i Hi. unfold parts. rewrite lookup_app_l by lia.
    destruct a as [|w a]; [simpl in na; subst na; lia|]. by apply plain_words_lookup.
Qed.

Lemma edge_first a l : plain_words a ->
  bool_decide ((edge a ++ l) !! 0%nat = Some ""%string) = bool_decide (a = []).
Proof.
  intros Ha. destruct a as [|w a]; [done|]. rewrite !bool_decide_eq_false_2; try done.
  apply (plain_words_lookup (w :: a) 0). done.
Qed.

Lemma edge_last b l : plain_words b ->
  bool_decide (last (l ++ edge b) = Some ""%string) = bool_decide (b = []).
Proof.
  intros Hb. destruct b as [|w b].
  - simpl. by rewrite last_snoc, !bool_decide_eq_true_2.
  - cbn [edge]. rewrite last_app_cons. rewrite !bool_decide_eq_false_2; try done.
    rewrite last_lookup. by apply plain_words_lookup.
Qed.

Lemma mapM_hextets l : Forall hextet_ok l -> mapM parse_hextet (map hex_str l) = Some l.
Proof. apply mapM_words. intros n Hn. by apply hextet_word. Qed.

Lemma parse_v6_parts_plain hs :
  length hs = 8%nat -> Forall hextet_ok hs -> parse_v6_parts (map hex_str hs) = Some hs.
Proof.
  intros Hlen Hok. unfold parse_v6_parts, len. rewrite length_map, Hlen. simpl.
  rewrite skip_indices_plain by by apply plain_words_hex. by apply mapM_hextets.
Qed.

(** The two copied ranges of the parts are the words around the gap. *)
Lemma gap_slices wa wb :
  slice (edge wa ++ [""%string] ++ edge wb) 0 (len wa) = wa /\
  slice_from (edge wa ++ [""%string] ++ edge wb) (len (edge wa) + (1 + len (edge wb)) - len wb) = wb.
Proof.
  split.
  - destruct wa; [done|]. cbn [edge]. rewrite slice_app_l by lia. apply slice_all.
  - rewrite app_assoc.
    assert (Hl : len (edge wa ++ [""%string]) = len (edge wa) + 1) by (rewrite len_app; done).
    pose proof (edge_len wb). pose proof (len_nonneg wb).
    rewrite slice_from_app_r by (rewrite Hl; case_bool_decide; [subst; rewrite len_nil in *|]; lia).
    rewrite Hl. destruct wb; cbn [edge].
    + rewrite len_nil. change (len [""%string]) with 1.
      replace (_ - _) with (len [""%string]) by (change (len [""%string]) with 1; lia).
      apply slice_from_end.
    + replace (_ - _) with 0 by lia. done.
Qed.

Lemma parse_v6_parts_gap a b n :
  (1 <= n)%nat -> (length a + n + length b = 8)%nat -> Forall hextet_ok a -> Forall hextet_ok b ->
  parse_v6_parts (edge (map hex_str a) ++ [""%string] ++ edge (map hex_str b))
  = Some (a ++ replicate n 0 ++ b).
Proof.
  intros Hn Hlen Ha Hb. unfold parse_v6_parts.
  pose proof (plain_words_hex _ Ha) as Pa. pose proof (plain_words_hex _ Hb) as Pb.
  set (wa := map hex_str a) in *. set (wb := map hex_str b) in *.
  destruct (gap_slices wa wb) as [Sa Sb].
  assert (Hsum : len wa + Z.of_nat n + len wb = 8) by (unfold wa, wb, len; rewrite !length_map; lia).
  rewrite skip_indices_gap, edge_first by done.
  rewrite (app_assoc (edge wa)), edge_last by done. rewrite <-app_assoc.
  rewrite !len_app. change (len [""%string]) with 1.
  pose proof (len_nonneg wa). pose proof (len_nonneg wb).
  assert (Hhi : (if bool_decide (wa = []) then len (edge wa) - 1 else len (edge wa)) = len wa).
  { rewrite edge_len. destruct (decide (wa = [])) as [Hw|Hw];
      [rewrite !(bool_decide_eq_true_2 _ Hw); apply len_0_nil in Hw
      |rewrite !(bool_decide_eq_false_2 _ Hw)]; lia. }
  assert (Hlo : (if bool_decide (wb = []) then len (edge wa) + (1 + len (edge wb)) - len (edge wa) - 1 - 1
                 else len (edge wa) + (1 + len (edge wb)) - len (edge wa) - 1) = len wb).
  { rewrite (edge_len wb). destruct (decide (wb = [])) as [Hw|Hw];
      [rewrite !(bool_decide_eq_true_2 _ Hw); apply len_0_nil in Hw
      |rewrite !(bool_decide_eq_false_2 _ Hw)]; lia. }
  replace (9 <? _) with false by (rewrite !edge_len; repeat case_bool_decide; lia).
  rewrite Hhi, Hlo.
  rewrite !edge_guard.
  replace (8 - (len wa + len wb) <? 1) with false by lia.
  rewrite Sa, Sb. rewrite (mapM_hextets a Ha : mapM parse_hextet wa = _).
  rewrite (mapM_hextets b Hb : mapM parse_hextet wb = _). simpl.
  replace (Z.to_nat (8 - (len wa + len wb))) with n by lia. done.
Qed.

(** The parts of the printed address, and what they parse to. *)
Lemma compress_parts hs :
  length hs = 8%nat -> Forall hextet_ok hs ->
  parse_v6_parts (compress_hextets (map hex_str hs)) = Some hs.
Proof.
  intros Hlen Hok.
  destruct (compress_hextets_shape (map hex_str hs)) as [->|(a & b & n & Hn & Hsplit & Hshape)].
  - by apply parse_v6_parts_plain.
  - rewrite Hshape. fold (edge a). fold (edge b).
    apply map_eq_app in Hsplit as (za & rest & -> & <- & Hsplit).
    apply map_eq_app in Hsplit as (zz & zb & -> & Hz & <-).
    apply Forall_app in Hok as [Ha Hok]. apply Forall_app in Hok as [Hzz Hb].
    assert (Hzn : length zz = n) by (rewrite <-(length_map hex_str), Hz; apply length_replicate).
    assert (zz = replicate n 0) as ->.
    { symmetry. apply replicate_as_Forall. split; [done|].
      apply Forall_forall. intros x Hx. rewrite Forall_forall in Hzz. symmetry.
      apply hextet_word; [by apply Hzz|].
      assert (Hin : hex_str x ∈ map hex_str zz)
        by (apply list_elem_of_In, in_map, list_elem_of_In; done).
      rewrite Hz in Hin. by apply elem_of_replicate_inv in Hin. }
    rewrite !length_app, length_replicate in Hlen. apply parse_v6_parts_gap; try done; lia.
Qed.

(** Words without separators, possibly empty. *)
Definition sep_free (s : string) : Prop :=
  contains ":" s = false /\ contains "." s = false /\ contains "/" s = false /\ contains "%" s = false.

Lemma sep_free_edge w : plain_words w -> Forall sep_free (edge w).
Proof.
  intros Hw. destruct w as [|s w]; cbn [edge]; [by repeat constructor|].
  eapply Forall_impl; [exact Hw|]. intros x (?&?&?&?&?)%plain_word_facts. by split_and!.
Qed.

Lemma compress_sep_free hs :
  Forall hextet_ok hs -> Forall sep_free (compress_hextets (map hex_str hs)).
Proof.
  intros Hok. pose proof (plain_words_hex _ Hok) as Hw.
  destruct (compress_hextets_shape (map hex_str hs)) as [->|(a & b & n & Hn & Hsplit & ->)].
  - destruct (map hex_str hs) eqn:E; [done|]. by apply (sep_free_edge (_ :: _)).
  - rewrite Hsplit in Hw. apply Forall_app in Hw as [Ha Hw]. apply Forall_app in Hw as [_ Hb].
    apply Forall_app; split; [by apply sep_free_edge|]. constructor; [done|]. by apply sep_free_edge.
Qed.

Lemma compress_long hs :
  length hs = 8%nat -> 3 <= len (compress_hextets (map hex_str hs)).
Proof.
  intros Hlen. destruct (compress_hextets_shape (map hex_str hs)) as [->|(a & b & n & Hn & Hsplit & ->)].
  - unfold len. rewrite length_map. lia.
  - rewrite !len_app. fold (edge a). fold (edge b). change (len [""%string]) with 1.
    pose proof (edge_length a). pose proof (edge_length b). unfold len. lia.
Qed.

Lemma sep_free_sub c l :
  c = ":"%char \/ c = "."%char \/ c = "/"%char \/ c = "%"%char ->
  Forall sep_free l -> Forall (fun s => contains c s = false) l.
Proof.
  intros Hc Hl. eapply Forall_impl; [exact Hl|]. intros s (?&?&?&?). by destruct Hc as [->|[->|[->| ->]]].
Qed.

(** Text made of separator-free words joined by colons is not an IPv4 address
    and splits back into its words. *)
Lemma parse_v6_join l hs :
  3 <= len l -> Forall sep_free l -> parse_v6_parts l = Some hs ->
  ip_address_text (join_with ":" l) = Some (IPv6Address hs None).
Proof.
  intros Hlen Hl Hp.
  assert (Hc : forall c, c = "."%char \/ c = "/"%char \/ c = "%"%char ->
             contains c (join_with ":" l) = false).
  { intros c Hc. apply contains_join; [by destruct Hc as [->|[->| ->]]|].
    apply sep_free_sub; [tauto|done]. }
  unfold ip_address_text, parse_v4, parse_v6. rewrite !Hc by tauto.
  rewrite split_on_plain by (apply Hc; tauto). cbn [len length Z.of_nat].
  rewrite split_on_plain by (apply Hc; tauto).
  rewrite split_on_join; [| by intros ->|apply sep_free_sub; [tauto|done]].
  replace (len l <? 3) with false by lia. simpl.
  unfold expand_v4_suffix. destruct (last l) as [p|] eqn:Hlast; [|simpl; by rewrite Hp].
  apply last_Some in Hlast as (l' & ->). apply Forall_app in Hl as [_ Hl].
  inversion Hl as [|? ? (?&Hdot&?&?) ?]; subst. rewrite Hdot. simpl. by rewrite Hp.
Qed.

(** *** IPv4-mapped addresses *)

Lemma ipv4_mapped_inv hs octets :
  ipv4_mapped hs = Some octets ->
  exists a b, hs = [0; 0; 0; 0; 0; 0xffff; a; b] /\ octets = [a / 256; a mod 256; b / 256; b mod 256].
Proof.
  intros H. unfold ipv4_mapped in H. repeat (case_match; try discriminate).
  injection H as <-. by eexists _, _.
Qed.

Lemma hextet_octets h : hextet_ok h -> octet_ok (h / 256) /\ octet_ok (h mod 256).
Proof.
  unfold hextet_ok, octet_ok. intros Hh. pose proof (Z.mod_pos_bound h 256 eq_refl).
  split; [|lia]. split; [apply Z.div_pos; lia|apply Z.div_lt_upper_bound; lia].
Qed.

Lemma str_v4_facts octets :
  Forall octet_ok octets -> length octets = 4%nat ->
  contains ":" (str_v4 octets) = false /\ contains "/" (str_v4 octets) = false /\
  contains "%" (str_v4 octets) = false /\ contains "." (str_v4 octets) = true.
Proof.
  intros Hok Hlen. unfold str_v4.
  assert (Hw : Forall sep_free (map dec_str octets)).
  { apply Forall_map. eapply Forall_impl; [exact Hok|]. intros n Hn.
    destruct (octet_word n Hn) as [_ (?&?&?&?&?)%plain_word_facts]. by split_and!. }
  split_and!; try (apply contains_join; [done|apply sep_free_sub; [tauto|done]]).
  destruct octets as [|a [|b octets]]; try done.
  change (map dec_str (a :: b :: octets)) with (dec_str a :: map dec_str (b :: octets)).
  change (join_with "." (dec_str a :: map dec_str (b :: octets)))
    with (dec_str a +:+ String "." (join_with "." (map dec_str (b :: octets)))).
  rewrite contains_app. simpl. apply orb_true_r.
Qed.

Lemma split_on_prefix c s1 s2 :
  contains c s1 = false ->
  exists w ws, split_on c s2 = w :: ws /\ split_on c (s1 +:+ s2) = (s1 +:+ w) :: ws.
Proof.
  induction s1 as [|c' s1 IH]; simpl.
  - intros _. destruct (split_on c s2) as [|w ws] eqn:E; [|by exists w, ws].
    destruct s2 as [|c2 s2]; [done|]. simpl in E.
    destruct (Ascii.eqb c c2); [done|]. by destruct (split_on c s2).
  - intros H. apply orb_false_iff in H as [H1 H2]. destruct (IH H2) as (w & ws & -> & ->).
    exists w, ws. by rewrite H1.
Qed.

(** The mapped form is not taken for an IPv4 address. *)
Lemma mapped_not_v4 t : parse_v4 ("::ffff:" +:+ t) = None.
Proof.
  unfold parse_v4. destruct (contains _ _); [done|].
  destruct (split_on_prefix "." "::ffff:" t eq_refl) as (w & ws & _ & ->).
  assert (Hl : (3 <? Z.of_nat (String.length ("::ffff:" +:+ w))) = true).
  { change (String.length ("::ffff:" +:+ w)) with (7 + String.length w)%nat.
    apply Z.ltb_lt. lia. }
  assert (Ho : parse_octet ("::ffff:" +:+ w) = None).
  { unfold parse_octet. by rewrite Hl. }
  destruct (_ =? 4); [|done]. unfold mapM. by rewrite Ho.
Qed.

Lemma parse_mapped a b :
  hextet_ok a -> hextet_ok b ->
  ip_address_text (str_v6 [0; 0; 0; 0; 0; 0xffff; a; b])
  = Some (IPv6Address [0; 0; 0; 0; 0; 0xffff; a; b] None).
Proof.
  intros Ha Hb. set (o := [a / 256; a mod 256; b / 256; b mod 256]).
  destruct (hextet_octets a Ha) as [A1 A2]. destruct (hextet_octets b Hb) as [B1 B2].
  assert (Ho : Forall octet_ok o) by (unfold o; repeat constructor; apply A1 || apply A2 || apply B1 || apply B2).
  destruct (str_v4_facts o Ho eq_refl) as (F1 & F2 & F3 & F4).
  change (str_v6 _) with ("::ffff:" +:+ str_v4 o).
  unfold ip_address_text. rewrite mapped_not_v4.
  pose proof (parse_v4_str o eq_refl Ho) as Hp. set (t := str_v4 o) in *. clearbody t.
  unfold parse_v6. rewrite contains_app, F2. cbn [contains orb Ascii.eqb Bool.eqb].
  rewrite (split_on_plain "%") by (by rewrite contains_app, F3).
  assert (Hs : split_on ":" ("::ffff:" +:+ t) = ["";"";"ffff";t]%string).
  { change ("::ffff:" +:+ t) with ("" +:+ String ":" ("" +:+ String ":" ("ffff" +:+ String ":" t))).
    by rewrite !split_on_app, split_on_plain by done. }
  rewrite Hs. cbn [len length Z.of_nat]. change (_ <? 3) with false. cbn iota.
  unfold expand_v4_suffix. cbn [last]. rewrite F4, Hp. cbn [o take length Nat.sub app mbind option_bind].
  replace (a / 256 * 256 + a mod 256) with a by (pose proof (Z.div_mod a 256); lia).
  replace (b / 256 * 256 + b mod 256) with b by (pose proof (Z.div_mod b 256); lia).
  change ["";"";"ffff"; hex_str a; hex_str b]%string
    with (edge (map hex_str []) ++ [""%string] ++ edge (map hex_str [0xffff; a; b])).
  rewrite (parse_v6_parts_gap [] [0xffff; a; b] 5); try done; [lia|].
  repeat constructor; unfold hextet_ok in *; lia.
Qed.

(** The text of an address parses back to that address. *)
Lemma ip_address_text_str a : ip_ok a -> ip_address_text (ip_str a) = Some a.
Proof.
  destruct a as [octets|hs scope]; cbn [ip_ok ip_str].
  - intros [Hlen Hok]. unfold ip_address_text. by rewrite parse_v4_str.
  - intros (Hlen & Hok & ->). unfold str_v6. destruct (ipv4_mapped hs) as [o|] eqn:Hm.
    + apply ipv4_mapped_inv in Hm as (a & b & -> & ->).
      do 6 (apply Forall_cons in Hok as [_ Hok]).
      apply Forall_cons in Hok as [Ha Hok]. apply Forall_cons in Hok as [Hb _].
      by apply parse_mapped.
    + apply parse_v6_join; [by apply compress_long|by apply compress_sep_free|by apply compress_parts].
Qed.

Lemma ip_str_inj a b : ip_ok a -> ip_ok b -> ip_str a = ip_str b -> a = b.
Proof.
  intros Ha Hb Heq. apply (inj Some). by rewrite <-(ip_address_text_str a), <-(ip_address_text_str b), Heq.
Qed.

Lemma hextets_of_length l n : length l = (2 * n)%nat -> length (hextets_of l) = n.
Proof.
  revert n; induction l as [l IH] using (induction_ltof1 _ length); intros n Hl.
  destruct l as [|a [|b l]]; simpl in *; [lia|lia|].
  destruct n; [lia|]. f_equal. apply IH; [unfold ltof; simpl; lia|lia].
Qed.

Lemma hextets_of_ok l : Forall hextet_ok (hextets_of l).
Proof.
  induction l as [l IH] using (induction_ltof1 _ length).
  destruct l as [|a [|b l]]; simpl; constructor.
  - pose proof (bz_range a). pose proof (bz_range b). unfold hextet_ok. lia.
  - apply IH. unfold ltof; simpl; lia.
Qed.

Lemma hextets_of_inj l1 l2 :
  length l1 = length l2 -> Nat.Even (length l1) -> hextets_of l1 = hextets_of l2 -> l1 = l2.
Proof.
  revert l2; induction l1 as [l1 IH] using (induction_ltof1 _ length); intros l2 Hlen [k Hev] Heq.
  destruct l1 as [|a [|b l1]], l2 as [|c [|d l2]]; simpl in *; try done; try lia.
  injection Heq as H1 H2. pose proof (bz_range a). pose proof (bz_range b).
  pose proof (bz_range c). pose proof (bz_range d).
  assert (a = c) as -> by (apply bz_inj; lia). assert (b = d) as -> by (apply bz_inj; lia).
  do 2 f_equal. apply IH; [unfold ltof; simpl; lia|lia| |done]. exists (k - 1)%nat. lia.
Qed.

(** Packed bytes give a valid address, and distinct packed bytes distinct text. *)
Lemma ip_address_bytes_ok l a : ip_address_bytes l = Some a -> ip_ok a.
Proof.
  unfold ip_address_bytes. destruct (Z.eqb_spec (len l) 4) as [H4|_].
  - intros [= <-]. split; [rewrite length_map; unfold len in H4; lia|].
    apply Forall_map, Forall_true. intros b. apply bz_range.
  - destruct (Z.eqb_spec (len l) 16) as [H16|_]; [|done]. intros [= <-].
    split_and!; [apply hextets_of_length; unfold len in H16; lia|apply hextets_of_ok|done].
Qed.

Lemma ip_address_bytes_inj l1 l2 a :
  ip_address_bytes l1 = Some a -> ip_address_bytes l2 = Some a -> l1 = l2.
Proof.
  unfold ip_address_bytes, len. intros H1 H2.
  repeat (case_match; try discriminate); simplify_eq.
  - assert (Hmap : map bz l1 = map bz l2) by congruence.
    apply (f_equal (map zb)) in Hmap. rewrite !map_map in Hmap.
    rewrite !(map_ext (fun x => zb (bz x)) (fun x => x)), !map_id in Hmap by apply zb_bz. done.
  - apply hextets_of_inj; [lia|exists 8%nat; lia|congruence].
Qed.
