(* ===== verification/PacketDecode.v ===== *)
(** * Link, network and transport decoding

    [_network_payload], [_decode_network], [_decode_transport] and
    [_matches_flow] of [scripts/harness/packet_capture.py]. *)

From S2P Require Import Prelude PacketTypes IpAddress.

(** [int.from_bytes(data, "big")] / ["little"] of a slice. *)
Definition from_bytes_big (l : bytes) : Z := int_of BigEndian l.
Definition from_bytes_little (l : bytes) : Z := int_of LittleEndian l.

(** The VLAN loop of [_network_payload]: the inner ether type and its offset.
    [MAX_VLAN_TAGS] bounds the iterations, so the fuel is that bound plus two. *)
Fixpoint _vlan_loop (fuel : nat) (frame : bytes) (ether_type tags offset : Z) : res (Z * Z) :=
  match fuel with
  | O => Err OutOfFuel
  | S fuel =>
    if zmem ether_type VLAN_ETHERTYPES then
      let tags := tags + 1 in
      raise_if (MAX_VLAN_TAGS <? tags) || (len frame <? offset + 4)
        with PacketCaptureError "Ethernet VLAN stack is invalid or excessive" ;;
      let ether_type := from_bytes_big (slice frame (offset + 2) (offset + 4)) in
      _vlan_loop fuel frame ether_type tags (offset + 4)
    else Ok (ether_type, offset)
  end.

(** The ether type and the payload of a frame, by link type. *)
Definition _link_payload (record : PacketRecord) : res (Z * bytes) :=
  let frame := pr_payload record in
  if pr_link_type record =? DLT_EN10MB then
    raise_if len frame <? 14 with PacketCaptureError "Ethernet frame is truncated" ;;
    '(ether_type, offset) ←
      _vlan_loop (Z.to_nat MAX_VLAN_TAGS + 2) frame (from_bytes_big (slice frame 12 14)) 0 14;
    Ok (ether_type, slice_from frame offset)
  else if pr_link_type record =? DLT_RAW then
    raise_if len frame =? 0 with PacketCaptureError "raw IP frame is empty" ;;
    first ← u8 frame 0;
    let version := Z.shiftr first 4 in
    let ether_type :=
      if version =? 4 then ETHERTYPE_IPV4 else if version =? 6 then ETHERTYPE_IPV6 else 0 in
    Ok (ether_type, frame)
  else if zmem (pr_link_type record) [DLT_NULL; DLT_LOOP] then
    raise_if len frame <? 4 with PacketCaptureError "loopback frame is truncated" ;;
    let family :=
      if pr_link_type record =? DLT_NULL then from_bytes_little (slice frame 0 4)
      else from_bytes_big (slice frame 0 4) in
    let ether_type :=
      if family =? DARWIN_AF_INET then ETHERTYPE_IPV4
      else if family =? DARWIN_AF_INET6 then ETHERTYPE_IPV6 else 0 in
    Ok (ether_type, slice_from frame 4)
  else if pr_link_type record =? DLT_LINUX_SLL then
    raise_if len frame <? 16 with PacketCaptureError "Linux cooked-v1 frame is truncated" ;;
    Ok (from_bytes_big (slice frame 14 16), slice_from frame 16)
  else if pr_link_type record =? DLT_LINUX_SLL2 then
    raise_if len frame <? 20 with PacketCaptureError "Linux cooked-v2 frame is truncated" ;;
    Ok (from_bytes_big (slice frame 0 2), slice_from frame 20)
  else Err (PacketCaptureError "packet uses an unsupported link type").

Definition _network_payload (record : PacketRecord) : res (string * bytes) :=
  '(ether_type, payload) ← _link_payload record;
  if ether_type =? ETHERTYPE_IPV4 then Ok ("ipv4"%string, payload)
  else if ether_type =? ETHERTYPE_IPV6 then Ok ("ipv6"%string, payload)
  else Err (PacketCaptureError "captured frame does not contain IPv4 or IPv6").

(** [str(ipaddress.ip_address(packed))]. *)
Definition str_ip_address (packed : bytes) : res string :=
  match ip_address_bytes packed with
  | Some a => Ok (ip_str a)
  | None => Err (ValueError "does not appear to be an IPv4 or IPv6 address")
  end.

(** The extension-header loop of [_decode_network]: the upper protocol and its
    offset.  [MAX_IPV6_EXTENSION_HEADERS] bounds the iterations. *)
Fixpoint _ipv6_extension_loop (fuel : nat) (packet : bytes)
    (total_length protocol offset extensions : Z) : res (Z * Z) :=
  match fuel with
  | O => Err OutOfFuel
  | S fuel =>
    if zmem protocol [0; 43; 51; 60] then
      let extensions := extensions + 1 in
      raise_if (MAX_IPV6_EXTENSION_HEADERS <? extensions) || (total_length <? offset + 2)
        with PacketCaptureError "IPv6 extension-header chain is invalid or excessive" ;;
      next_protocol ← u8 packet offset;
      hdr_len ← u8 packet (offset + 1);
      let extension_length :=
        if protocol =? 51 then (hdr_len + 2) * 4 else (hdr_len + 1) * 8 in
      raise_if (extension_length <? 8) || (total_length <? offset + extension_length)
        with PacketCaptureError "IPv6 extension-header length is invalid" ;;
      _ipv6_extension_loop fuel packet total_length next_protocol
        (offset + extension_length) extensions
    else Ok (protocol, offset)
  end.

(** The addresses, upper protocol and payload of an IPv4 packet. *)
Definition _decode_ipv4 (packet : bytes) : res (string * string * Z * bytes) :=
  raise_if len packet <? 20
    with PacketCaptureError "IPv4 header is truncated or malformed" ;;
  first ← u8 packet 0;
  raise_if negb (Z.shiftr first 4 =? 4)
    with PacketCaptureError "IPv4 header is truncated or malformed" ;;
  let header_length := Z.land first 0x0F * 4 in
  let total_length := from_bytes_big (slice packet 2 4) in
  let fragment := from_bytes_big (slice packet 6 8) in
  raise_if (header_length <? 20) || (total_length <? header_length) || (len packet <? total_length)
    with PacketCaptureError "IPv4 length contract is invalid" ;;
  raise_if negb (Z.land fragment 0xBFFF =? 0)
    with PacketCaptureError "fragmented IPv4 evidence is not accepted" ;;
  source ← str_ip_address (slice packet 12 16);
  destination ← str_ip_address (slice packet 16 20);
  protocol ← u8 packet 9;
  Ok (source, destination, protocol, slice packet header_length total_length).

(** The addresses, upper protocol and payload of an IPv6 packet. *)
Definition _decode_ipv6 (packet : bytes) : res (string * string * Z * bytes) :=
  raise_if len packet <? 40
    with PacketCaptureError "IPv6 header is truncated or malformed" ;;
  first ← u8 packet 0;
  raise_if negb (Z.shiftr first 4 =? 6)
    with PacketCaptureError "IPv6 header is truncated or malformed" ;;
  let payload_length := from_bytes_big (slice packet 4 6) in
  let total_length := 40 + payload_length in
  raise_if (payload_length =? 0) || (len packet <? total_length)
    with PacketCaptureError "IPv6 payload length is invalid" ;;
  source ← str_ip_address (slice packet 8 24);
  destination ← str_ip_address (slice packet 24 40);
  next_header ← u8 packet 6;
  '(protocol, offset) ←
    _ipv6_extension_loop (Z.to_nat MAX_IPV6_EXTENSION_HEADERS + 2) packet total_length
      next_header 40 0;
  raise_if protocol =? 44
    with PacketCaptureError "fragmented IPv6 evidence is not accepted" ;;
  raise_if zmem protocol [50; 59]
    with PacketCaptureError "encrypted/no-next-header IPv6 evidence cannot prove transport" ;;
  Ok (source, destination, protocol, slice packet offset total_length).

Definition _decode_network (record : PacketRecord) : res NetworkPacket :=
  '(family, packet) ← _network_payload record;
  '(source, destination, protocol, payload) ←
    (if seq_ family "ipv4" then _decode_ipv4 packet else _decode_ipv6 packet);
  Ok {| np_timestamp := pr_timestamp record; np_family := family;
        np_source := source; np_destination := destination;
        np_protocol := protocol; np_payload := payload;
        np_link_type := pr_link_type record; np_interface_id := pr_interface_id record |}.

Definition _decode_transport (packet : NetworkPacket) : res TransportPacket :=
  let payload := np_payload packet in
  if np_protocol packet =? 6 then
    raise_if len payload <? 20 with PacketCaptureError "TCP header is truncated" ;;
    source_port ← unpack BigEndian 2 payload 0;
    destination_port ← unpack BigEndian 2 payload 2;
    sequence ← unpack BigEndian 4 payload 4;
    offset_byte ← u8 payload 12;
    let header_length := Z.shiftr offset_byte 4 * 4 in
    raise_if (header_length <? 20) || (len payload <? header_length)
      with PacketCaptureError "TCP data offset is invalid" ;;
    Ok {| tp_timestamp := np_timestamp packet; tp_family := np_family packet;
          tp_source := np_source packet; tp_destination := np_destination packet;
          tp_source_port := source_port; tp_destination_port := destination_port;
          tp_protocol := "tcp"; tp_payload := slice_from payload header_length;
          tp_sequence := Some sequence;
          tp_link_type := np_link_type packet; tp_interface_id := np_interface_id packet |}
  else if np_protocol packet =? 17 then
    raise_if len payload <? 8 with PacketCaptureError "UDP header is truncated" ;;
    source_port ← unpack BigEndian 2 payload 0;
    destination_port ← unpack BigEndian 2 payload 2;
    length ← unpack BigEndian 2 payload 4;
    raise_if (length <? 8) || (len payload <? length)
      with PacketCaptureError "UDP length is invalid" ;;
    Ok {| tp_timestamp := np_timestamp packet; tp_family := np_family packet;
          tp_source := np_source packet; tp_destination := np_destination packet;
          tp_source_port := source_port; tp_destination_port := destination_port;
          tp_protocol := "udp"; tp_payload := slice payload 8 length;
          tp_sequence := None;
          tp_link_type := np_link_type packet; tp_interface_id := np_interface_id packet |}
  else Err (PacketCaptureError "capture contains a non-TCP/UDP network packet").

Definition _matches_flow (packet : TransportPacket)
    (local_address : string) (local_port : Z) (remote_address : string) (remote_port : Z) : bool :=
  (seq_ (tp_source packet) local_address && (tp_source_port packet =? local_port)
   && seq_ (tp_destination packet) remote_address && (tp_destination_port packet =? remote_port))
  || (seq_ (tp_source packet) remote_address && (tp_source_port packet =? remote_port)
      && seq_ (tp_destination packet) local_address && (tp_destination_port packet =? local_port)).

(** Every record decoded, in capture order: the list comprehensions
    [[_decode_network(r) for r in records]] and [[_decode_transport(p) ...]]. *)
Definition decode_records (records : list PacketRecord) : res (list TransportPacket) :=
  network ← map_res _decode_network records;
  map_res _decode_transport network.

(** ** Safety *)

Lemma vlan_loop_safe fuel frame et tags offset :
  tags <= MAX_VLAN_TAGS -> MAX_VLAN_TAGS - tags < Z.of_nat fuel ->
  safe (_vlan_loop fuel frame et tags offset).
Proof.
  revert et tags offset; induction fuel as [|fuel IH]; intros et tags offset Ht Hf; [lia|].
  cbn [_vlan_loop]. safe_auto. apply IH; lia.
Qed.

Lemma network_payload_safe record : safe (_network_payload record).
Proof.
  unfold _network_payload. apply safe_bind; [|intros [? ?] _; safe_auto].
  unfold _link_payload. safe_auto.
  - apply vlan_loop_safe; unfold MAX_VLAN_TAGS; lia.
  - pose proof (len_nonneg (pr_payload record)). lia.
Qed.

Lemma str_ip_address_4 l : len l = 4 -> str_ip_address l = Ok (ip_str (IPv4Address (map bz l))).
Proof. intros H. unfold str_ip_address, ip_address_bytes. by rewrite H. Qed.
Lemma str_ip_address_16 l : len l = 16 -> str_ip_address l = Ok (ip_str (IPv6Address (hextets_of l) None)).
Proof. intros H. unfold str_ip_address, ip_address_bytes. by rewrite H. Qed.

Lemma str_ip_address_safe l : len l = 4 \/ len l = 16 -> safe (str_ip_address l).
Proof. intros [H|H]; [by rewrite str_ip_address_4|by rewrite str_ip_address_16]. Qed.

Lemma decode_ipv4_safe packet : safe (_decode_ipv4 packet).
Proof.
  unfold _decode_ipv4. safe_auto; apply str_ip_address_safe; left; rewrite slice_length; lia.
Qed.

Lemma ipv6_extension_loop_safe fuel packet total protocol offset extensions :
  total <= len packet -> 0 <= offset -> extensions <= MAX_IPV6_EXTENSION_HEADERS ->
  MAX_IPV6_EXTENSION_HEADERS - extensions < Z.of_nat fuel ->
  safe (_ipv6_extension_loop fuel packet total protocol offset extensions).
Proof.
  intros Ht. revert protocol offset extensions.
  induction fuel as [|fuel IH]; intros protocol offset extensions Ho He Hf; [lia|].
  cbn [_ipv6_extension_loop]. safe_auto; read_facts. apply IH; try lia;
    destruct (protocol =? 51); lia.
Qed.

Lemma decode_ipv6_safe packet : safe (_decode_ipv6 packet).
Proof.
  unfold _decode_ipv6.
  safe_auto; try (apply str_ip_address_safe; right; rewrite slice_length; lia).
  apply ipv6_extension_loop_safe; unfold MAX_IPV6_EXTENSION_HEADERS; try lia.
Qed.

Lemma decode_network_safe record : safe (_decode_network record).
Proof.
  unfold _decode_network. safe_auto;
    [apply network_payload_safe|apply decode_ipv4_safe|apply decode_ipv6_safe].
Qed.

Lemma decode_transport_safe packet : safe (_decode_transport packet).
Proof. unfold _decode_transport. safe_auto. Qed.

Lemma map_res_safe {A B} (f : A -> res B) l : (forall a, safe (f a)) -> safe (map_res f l).
Proof. intros Hf. induction l as [|a l IH]; cbn [map_res]; safe_auto; [apply Hf|done]. Qed.

Lemma decode_records_safe records : safe (decode_records records).
Proof.
  unfold decode_records. apply safe_bind; [|intros ? _]; apply map_res_safe;
    [apply decode_network_safe|apply decode_transport_safe].
Qed.

(** ** What a decoded packet says *)

Lemma network_payload_family record family packet :
  _network_payload record = Ok (family, packet) -> family = "ipv4"%string \/ family = "ipv6"%string.
Proof.
  unfold _network_payload. intros H. res_inv H.
  destruct (x =? ETHERTYPE_IPV4); [injection H as <- <-; by left|].
  destruct (x =? ETHERTYPE_IPV6); [injection H as <- <-; by right|done].
Qed.

Lemma str_ip_address_inv l t :
  str_ip_address l = Ok t -> exists a, ip_address_bytes l = Some a /\ t = ip_str a /\ ip_ok a.
Proof.
  unfold str_ip_address. destruct (ip_address_bytes l) as [a|] eqn:Ha; [|done]. intros [= <-].
  exists a. split_and!; try done. by eapply ip_address_bytes_ok.
Qed.

Lemma decode_ipv4_inv packet source destination protocol payload :
  _decode_ipv4 packet = Ok (source, destination, protocol, payload) ->
  20 <= len packet /\
  str_ip_address (slice packet 12 16) = Ok source /\
  str_ip_address (slice packet 16 20) = Ok destination /\
  u8 packet 9 = Ok protocol /\
  exists header_length,
    20 <= header_length <= from_bytes_big (slice packet 2 4) /\
    from_bytes_big (slice packet 2 4) <= len packet /\
    payload = slice packet header_length (from_bytes_big (slice packet 2 4)).
Proof.
  unfold _decode_ipv4. intros H. res_inv H. simplify_eq.
  split_and!; try done; try lia. eexists. split_and!; [| | |reflexivity]; lia.
Qed.

Lemma ipv6_extension_loop_inv fuel packet total protocol offset extensions protocol' offset' :
  offset <= total ->
  _ipv6_extension_loop fuel packet total protocol offset extensions = Ok (protocol', offset') ->
  offset <= offset' <= total /\ ~ protocol' ∈ [0; 43; 51; 60].
Proof.
  revert protocol offset extensions; induction fuel as [|fuel IH]; intros protocol offset extensions Ho H; [done|].
  cbn [_ipv6_extension_loop] in H. destruct (zmem protocol _) eqn:Hz.
  - res_inv H. apply IH in H; [|destruct (protocol =? 51); lia].
    destruct (protocol =? 51); (split; [lia|tauto]).
  - injection H as <- <-. split; [lia|].
    rewrite !elem_of_cons, elem_of_nil. unfold zmem in Hz. simpl in Hz. lia.
Qed.

Lemma decode_ipv6_inv packet source destination protocol payload :
  _decode_ipv6 packet = Ok (source, destination, protocol, payload) ->
  40 <= len packet /\
  str_ip_address (slice packet 8 24) = Ok source /\
  str_ip_address (slice packet 24 40) = Ok destination /\
  exists offset,
    40 <= offset <= 40 + from_bytes_big (slice packet 4 6) /\
    40 + from_bytes_big (slice packet 4 6) <= len packet /\
    payload = slice packet offset (40 + from_bytes_big (slice packet 4 6)).
Proof.
  unfold _decode_ipv6. intros H. res_inv H. simplify_eq.
  pose proof (int_of_bound BigEndian (slice packet 4 6)). unfold from_bytes_big in *.
  apply ipv6_extension_loop_inv in E3; [|lia].
  split_and!; try done; try lia. eexists. split_and!; [| | |reflexivity]; lia.
Qed.

(** ** Well-formed packets *)

(** The canonical text of an address of the given family. *)
Definition canonical_address (family text : string) : Prop :=
  exists a, ip_ok a /\ text = ip_str a /\ ip_version a = (if seq_ family "ipv4" then 4 else 6).

(** A packet decoded from the record [r]. *)
Definition decoded_from (r : PacketRecord) (p : TransportPacket) : Prop :=
  tp_timestamp p = pr_timestamp r /\ tp_link_type p = pr_link_type r /\ tp_interface_id p = pr_interface_id r /\
  (tp_family p = "ipv4" \/ tp_family p = "ipv6")%string /\
  canonical_address (tp_family p) (tp_source p) /\ canonical_address (tp_family p) (tp_destination p) /\
  0 <= tp_source_port p < 65536 /\ 0 <= tp_destination_port p < 65536 /\
  ((tp_protocol p = "tcp"%string /\ exists s, tp_sequence p = Some s /\ 0 <= s < 2 ^ 32) \/
   (tp_protocol p = "udp"%string /\ tp_sequence p = None)).

Lemma canonical_of_bytes family l t :
  len l = (if seq_ family "ipv4" then 4 else 16) -> str_ip_address l = Ok t -> canonical_address family t.
Proof.
  intros Hl H. destruct (str_ip_address_inv l t H) as (a & Ha & -> & Hok). exists a. split_and!; try done.
  unfold ip_address_bytes in Ha. rewrite Hl in Ha. destruct (seq_ family "ipv4"); by injection Ha as <-.
Qed.

Lemma decode_network_inv record packet :
  _decode_network record = Ok packet ->
  np_timestamp packet = pr_timestamp record /\ np_link_type packet = pr_link_type record /\
  np_interface_id packet = pr_interface_id record /\
  (np_family packet = "ipv4" \/ np_family packet = "ipv6")%string /\
  canonical_address (np_family packet) (np_source packet) /\ canonical_address (np_family packet) (np_destination packet).
Proof.
  unfold _decode_network. intros H. inv_bind H. destruct v as [family payload]. apply network_payload_family in E.
  inv_bind H. destruct v as [[[source destination] protocol] upper]. res_inv H. subst packet. cbn.
  destruct E as [->| ->]; cbn [seq_ String.eqb Ascii.eqb Bool.eqb] in E0;
    [apply decode_ipv4_inv in E0 as (Hl & Hs & Hd & _)|apply decode_ipv6_inv in E0 as (Hl & Hs & Hd & _)];
    (split_and!; [done|done|done|tauto|eapply canonical_of_bytes; [|exact Hs]|eapply canonical_of_bytes; [|exact Hd]];
     rewrite slice_length by lia; done).
Qed.

Lemma decode_transport_inv packet transport :
  _decode_transport packet = Ok transport ->
  tp_timestamp transport = np_timestamp packet /\ tp_link_type transport = np_link_type packet /\
  tp_interface_id transport = np_interface_id packet /\ tp_family transport = np_family packet /\
  tp_source transport = np_source packet /\ tp_destination transport = np_destination packet /\
  0 <= tp_source_port transport < 65536 /\ 0 <= tp_destination_port transport < 65536 /\
  ((tp_protocol transport = "tcp"%string /\ exists s, tp_sequence transport = Some s /\ 0 <= s < 2 ^ 32) \/
   (tp_protocol transport = "udp"%string /\ tp_sequence transport = None)).
Proof.
  unfold _decode_transport. intros H. destruct (np_protocol packet =? 6).
  - res_inv H. subst transport. read_facts. cbn [tp_timestamp tp_link_type tp_interface_id tp_family tp_source tp_destination
      tp_source_port tp_destination_port tp_protocol tp_sequence].
    split_and!; try done; try lia. left. split; [done|]. eexists. split; [done|]. lia.
  - destruct (np_protocol packet =? 17); [|done]. res_inv H. subst transport. read_facts.
    cbn [tp_timestamp tp_link_type tp_interface_id tp_family tp_source tp_destination
      tp_source_port tp_destination_port tp_protocol tp_sequence].
    split_and!; try done; try lia. by right.
Qed.

Lemma decode_record_inv record network transport :
  _decode_network record = Ok network -> _decode_transport network = Ok transport -> decoded_from record transport.
Proof.
  intros (H1 & H2 & H3 & H4 & H5 & H6)%decode_network_inv (T1 & T2 & T3 & T4 & T5 & T6 & T7 & T8 & T9)%decode_transport_inv.
  unfold decoded_from. rewrite T1, T2, T3, T4, T5, T6. split_and!; try done; lia.
Qed.

Lemma decode_records_inv records transports :
  decode_records records = Ok transports -> Forall2 decoded_from records transports.
Proof.
  unfold decode_records. intros H. inv_bind H. apply map_res_ok in E, H.
  revert transports H. induction E as [|r n records network Hr Hrs IH]; intros transports H; inversion H; subst.
  - constructor.
  - constructor; [by eapply decode_record_inv|by apply IH].
Qed.

(** Every decoded packet is well formed.  A packet that
    [_decode_network] and [_decode_transport] return keeps the record's
    timestamp, link type and interface; its addresses are the canonical text of
    addresses of its family; its ports are 16-bit; and it is TCP with a 32-bit
    sequence number or UDP with none. *)
Theorem decode_records_well_formed records transports :
  decode_records records = Ok transports -> Forall2 decoded_from records transports.
Proof. apply decode_records_inv. Qed.

(** A raw IPv4 UDP packet from 192.0.2.1:53 to 192.0.2.9:4096 with payload "ok". *)
Definition sample_udp_record : PacketRecord := {|
  pr_timestamp := fraction 3 2; pr_link_type := DLT_RAW; pr_interface_id := 0;
  pr_payload := hexb "4500001e0000000040110000c0000201c000020900351000000a00006f6b" |}.

Lemma decode_records_well_formed_witness :
  exists p, Forall2 decoded_from [sample_udp_record] [p] /\ tp_payload p = bstr "ok".
Proof.
  eexists. split; [apply (decode_records_well_formed [sample_udp_record]); vm_compute; reflexivity|].
  vm_compute. reflexivity.
Defined.
