(* ===== verification/PacketFrames.v ===== *)
(** * Reference frames

    An encoder of TCP and UDP packets over IPv4 and IPv6 in every accepted link
    type, and the theorem that the decoder reads back what was encoded. *)

From S2P Require Import Prelude PacketTypes IpAddress PacketDecode.

Definition be (w : nat) (z : Z) : bytes := bytes_of BigEndian w z.

(** ** Encoders *)

Inductive transport_proto := TCP (sequence : Z) | UDP.

Definition proto_number (p : transport_proto) : Z := match p with TCP _ => 6 | UDP => 17 end.
Definition proto_name (p : transport_proto) : string :=
  match p with TCP _ => "tcp" | UDP => "udp" end%string.

Definition segment (p : transport_proto) (sport dport : Z) (payload : bytes) : bytes :=
  match p with
  | TCP sequence => be 2 sport ++ be 2 dport ++ be 4 sequence ++ be 4 0 ++ [x50] ++ [x18] ++
                    be 2 0 ++ be 2 0 ++ be 2 0 ++ payload
  | UDP => be 2 sport ++ be 2 dport ++ be 2 (8 + len payload) ++ be 2 0 ++ payload
  end.

Definition ipv4_packet (src dst : bytes) (protocol : Z) (payload : bytes) : bytes :=
  [x45] ++ [x00] ++ be 2 (20 + len payload) ++ be 2 0 ++ be 2 0 ++ [x40] ++ [zb protocol] ++
  be 2 0 ++ src ++ dst ++ payload.

Definition ipv6_packet (src dst : bytes) (protocol : Z) (payload : bytes) : bytes :=
  [x60] ++ [x00; x00; x00] ++ be 2 (len payload) ++ [zb protocol] ++ [x40] ++
  src ++ dst ++ payload.

Definition ip_packet (v6 : bool) (src dst : bytes) (protocol : Z) (payload : bytes) : bytes :=
  if v6 then ipv6_packet src dst protocol payload else ipv4_packet src dst protocol payload.

Definition link_frame (link_type : Z) (v6 : bool) (packet : bytes) : bytes :=
  let ether_type := if v6 then ETHERTYPE_IPV6 else ETHERTYPE_IPV4 in
  let family := if v6 then DARWIN_AF_INET6 else DARWIN_AF_INET in
  if link_type =? DLT_EN10MB then be 12 0 ++ be 2 ether_type ++ packet
  else if link_type =? DLT_NULL then bytes_of LittleEndian 4 family ++ packet
  else if link_type =? DLT_LOOP then be 4 family ++ packet
  else if link_type =? DLT_LINUX_SLL then be 14 0 ++ be 2 ether_type ++ packet
  else if link_type =? DLT_LINUX_SLL2 then be 2 ether_type ++ be 18 0 ++ packet
  else packet.

Record Flow := {
  fl_v6 : bool;
  fl_source : bytes;
  fl_destination : bytes;
  fl_source_port : Z;
  fl_destination_port : Z;
  fl_proto : transport_proto
}.

Definition flow_packet (fl : Flow) (payload : bytes) : bytes :=
  ip_packet (fl_v6 fl) (fl_source fl) (fl_destination fl) (proto_number (fl_proto fl))
    (segment (fl_proto fl) (fl_source_port fl) (fl_destination_port fl) payload).

Definition addr_size (v6 : bool) : Z := if v6 then 16 else 4.

Definition flow_ok (fl : Flow) (payload : bytes) : Prop :=
  len (fl_source fl) = addr_size (fl_v6 fl) /\ len (fl_destination fl) = addr_size (fl_v6 fl) /\
  0 <= fl_source_port fl < 65536 /\ 0 <= fl_destination_port fl < 65536 /\
  (match fl_proto fl with TCP s => 0 <= s < 2 ^ 32 | UDP => True end) /\
  len payload <= 65535 - 40.

(** The packet the decoder must return. *)
Definition address_text (packed : bytes) : string :=
  match ip_address_bytes packed with Some a => ip_str a | None => ""%string end.

Definition flow_transport (record : PacketRecord) (fl : Flow) (payload : bytes) : TransportPacket := {|
  tp_timestamp := pr_timestamp record;
  tp_family := if fl_v6 fl then "ipv6" else "ipv4";
  tp_source := address_text (fl_source fl);
  tp_destination := address_text (fl_destination fl);
  tp_source_port := fl_source_port fl;
  tp_destination_port := fl_destination_port fl;
  tp_protocol := proto_name (fl_proto fl);
  tp_payload := payload;
  tp_sequence := match fl_proto fl with TCP s => Some s | UDP => None end;
  tp_link_type := pr_link_type record;
  tp_interface_id := pr_interface_id record |}.

(** ** Reading an encoded frame *)

Lemma be_len w z : len (be w z) = Z.of_nat w.
Proof. apply bytes_of_len. Qed.

Lemma be_value w z : 0 <= z < 256 ^ Z.of_nat w -> from_bytes_big (be w z) = z.
Proof. apply int_of_bytes_of. Qed.

Ltac flen := rewrite ?len_app, ?be_len, ?bytes_of_len, ?len_cons, ?len_nil; simpl Z.of_nat; lia.

(** The field of the buffer that follows the prefix [l]. *)
Ltac slice_at l :=
  eapply (slice_field _ l); [rewrite <-?app_assoc; reflexivity | flen | flen].
Ltac byte_at l :=
  eapply (u8_field _ l); [rewrite <-?app_assoc; reflexivity | flen].
Ltac word_at l :=
  eapply (unpack_app _ _ _ _ _ l); [rewrite <-?app_assoc; reflexivity | flen | simpl; lia].
Ltac rest_at l :=
  eapply (slice_from_field _ l); [rewrite <-?app_assoc; reflexivity | flen].

(** Discharges a [len data < n] guard. *)
Ltac long_enough :=
  match goal with
  | |- context [Z.ltb ?a ?b] => replace (Z.ltb a b) with false by (symmetry; apply Z.ltb_ge; flen)
  end.

(** Decides the comparisons of two literals or named constants. *)
Ltac literal a := first [is_const a | match a with Zpos _ => idtac | Z0 => idtac end].
Ltac ceval :=
  repeat match goal with
  | |- context [Z.eqb ?a ?b] =>
      literal a; literal b;
      let v := eval vm_compute in (Z.eqb a b) in
      match v with true => change (Z.eqb a b) with true | false => change (Z.eqb a b) with false end
  | |- context [zmem ?a ?b] =>
      literal a;
      let v := eval vm_compute in (zmem a b) in
      match v with true => change (zmem a b) with true | false => change (zmem a b) with false end
  end; cbn iota beta.

Definition ether_of (v6 : bool) : Z := if v6 then ETHERTYPE_IPV6 else ETHERTYPE_IPV4.

Lemma vlan_loop_untagged fuel frame et tags offset :
  zmem et VLAN_ETHERTYPES = false -> _vlan_loop (S fuel) frame et tags offset = Ok (et, offset).
Proof. intros H. cbn [_vlan_loop]. by rewrite H. Qed.

Lemma link_payload_frame record (v6 : bool) packet first rest :
  zmem (pr_link_type record) ALLOWED_LINK_TYPES = true ->
  pr_payload record = link_frame (pr_link_type record) v6 packet ->
  packet = first :: rest -> Z.shiftr (bz first) 4 = (if v6 then 6 else 4) ->
  _link_payload record = Ok (ether_of v6, packet).
Proof.
  intros Hallow Hp Hfirst Hver. unfold _link_payload. rewrite Hp. clear Hp.
  unfold zmem, ALLOWED_LINK_TYPES in Hallow. cbn [existsb] in Hallow.
  pose proof (len_nonneg packet).
  set (e := ether_of v6). assert (He : 0 <= e < 65536) by (unfold e; by destruct v6).
  repeat (apply orb_true_iff in Hallow as [Hl|Hallow]; [apply Z.eqb_eq in Hl; rewrite Hl|]);
    [..|done]; unfold link_frame; ceval; fold (ether_of v6); fold e.
  - (* DLT_NULL *)
    long_enough.
    rewrite (slice_field _ [] (bytes_of LittleEndian 4 (if v6 then DARWIN_AF_INET6 else DARWIN_AF_INET)) packet)
      by (done || flen).
    rewrite (slice_from_field _ (bytes_of LittleEndian 4 (if v6 then DARWIN_AF_INET6 else DARWIN_AF_INET)) packet)
      by (done || flen).
    subst e. by destruct v6.
  - (* DLT_EN10MB *)
    long_enough.
    rewrite (slice_field _ (be 12 0) (be 2 e) packet) by (done || flen).
    rewrite be_value by (simpl; lia).
    assert (Hv : zmem e VLAN_ETHERTYPES = false) by (subst e; by destruct v6).
    change (Z.to_nat MAX_VLAN_TAGS + 2)%nat with 4%nat.
    rewrite vlan_loop_untagged by done. cbn [mbind result_bind]. rewrite (slice_from_field _ (be 12 0 ++ be 2 e) packet); [done| |flen].
    by rewrite <-app_assoc.
  - (* DLT_RAW *)
    replace (len packet =? 0) with false by (rewrite Hfirst, len_cons; pose proof (len_nonneg rest); lia).
    rewrite (u8_field packet [] first rest) by done. cbn [mbind result_bind]. rewrite Hver.
    subst e. by destruct v6.
  - (* DLT_LOOP *)
    long_enough.
    rewrite (slice_field _ [] (be 4 (if v6 then DARWIN_AF_INET6 else DARWIN_AF_INET)) packet)
      by (done || flen).
    rewrite (slice_from_field _ (be 4 (if v6 then DARWIN_AF_INET6 else DARWIN_AF_INET)) packet)
      by (done || flen).
    subst e. by destruct v6.
  - (* DLT_LINUX_SLL *)
    long_enough.
    rewrite (slice_field _ (be 14 0) (be 2 e) packet) by (done || flen).
    rewrite be_value by (simpl; lia).
    rewrite (slice_from_field _ (be 14 0 ++ be 2 e) packet); [done| |flen]. by rewrite <-app_assoc.
  - (* DLT_LINUX_SLL2 *)
    long_enough.
    rewrite (slice_field _ [] (be 2 e) (be 18 0 ++ packet)) by (done || flen).
    rewrite be_value by (simpl; lia).
    rewrite (slice_from_field _ (be 2 e ++ be 18 0) packet); [done| |flen]. by rewrite <-app_assoc.
Qed.

Lemma network_payload_frame record (v6 : bool) packet first rest :
  zmem (pr_link_type record) ALLOWED_LINK_TYPES = true ->
  pr_payload record = link_frame (pr_link_type record) v6 packet ->
  packet = first :: rest -> Z.shiftr (bz first) 4 = (if v6 then 6 else 4) ->
  _network_payload record = Ok (if v6 then "ipv6" else "ipv4", packet)%string.
Proof.
  intros H1 H2 H3 H4. unfold _network_payload.
  rewrite (link_payload_frame record v6 packet first rest) by done.
  by destruct v6.
Qed.

Lemma address_text_ok l : len l = 4 \/ len l = 16 -> str_ip_address l = Ok (address_text l).
Proof. unfold str_ip_address, address_text, ip_address_bytes. by intros [-> | ->]. Qed.

Lemma len_4 (l : bytes) : len l = 4 -> exists a b c d, l = [a; b; c; d].
Proof.
  intros H. destruct l as [|a [|b [|c [|d [|e l]]]]]; try discriminate H; [by exists a, b, c, d|].
  rewrite !len_cons in H. pose proof (len_nonneg l). lia.
Qed.

Lemma decode_ipv4_packet src dst protocol payload :
  len src = 4 -> len dst = 4 -> 0 <= protocol < 256 -> len payload <= 65515 ->
  _decode_ipv4 (ipv4_packet src dst protocol payload)
  = Ok (address_text src, address_text dst, protocol, payload).
Proof.
  intros Hs Hd Hpr Hpl. pose proof (len_nonneg payload).
  destruct (len_4 src Hs) as (? & ? & ? & ? & ->). destruct (len_4 dst Hd) as (? & ? & ? & ? & ->).
  unfold _decode_ipv4. set (p := ipv4_packet _ _ _ _).
  assert (Lp : len p = 20 + len payload) by (unfold p, ipv4_packet; flen).
  long_enough.
  change (u8 p 0) with (Ok 69 : res Z). cbn [mbind result_bind].
  change (Z.shiftr 69 4) with 4. change (Z.land 69 15 * 4) with 20. ceval.
  change (slice p 2 4) with (be 2 (20 + len payload)).
  change (slice p 6 8) with (be 2 0). rewrite !be_value by (simpl; lia).
  replace (_ || _ || _) with false by (rewrite Lp; lia).
  change (slice p 12 16) with [x; x0; x1; x2]. change (slice p 16 20) with [x3; x4; x5; x6].
  rewrite !address_text_ok by (left; done).
  change (u8 p 9) with (Ok (bz (zb protocol)) : res Z). cbn [mbind result_bind negb Z.eqb Z.land].
  rewrite bz_zb, Z.mod_small by lia.
  do 2 f_equal. rewrite (slice_field p (take 20 p) payload []); [done|by rewrite app_nil_r|done|done].
Qed.

Lemma len_16 (l : bytes) : len l = 16 ->
  exists a b c d e f g h a' b' c' d' e' f' g' h',
    l = [a; b; c; d; e; f; g; h; a'; b'; c'; d'; e'; f'; g'; h'].
Proof.
  intros H. do 16 (destruct l as [|? l]; [discriminate H|]).
  destruct l; [by repeat eexists|]. rewrite !len_cons in H. pose proof (len_nonneg l). lia.
Qed.

Lemma ipv6_extension_loop_none fuel packet total protocol offset ext :
  zmem protocol [0; 43; 51; 60] = false ->
  _ipv6_extension_loop (S fuel) packet total protocol offset ext = Ok (protocol, offset).
Proof. intros H. cbn [_ipv6_extension_loop]. by rewrite H. Qed.

Lemma decode_ipv6_packet src dst protocol payload :
  len src = 16 -> len dst = 16 -> 0 <= protocol < 256 ->
  zmem protocol [0; 43; 51; 60; 44; 50; 59] = false -> 0 < len payload < 65536 ->
  _decode_ipv6 (ipv6_packet src dst protocol payload)
  = Ok (address_text src, address_text dst, protocol, payload).
Proof.
  intros Hs Hd Hpr Hup Hpl. unfold _decode_ipv6. set (p := ipv6_packet _ _ _ _).
  assert (Lp : len p = 40 + len payload) by (unfold p, ipv6_packet; rewrite !len_app, Hs, Hd; flen).
  assert (Hloop : zmem protocol [0; 43; 51; 60] = false)
    by (unfold zmem in *; cbn [existsb] in *; repeat (apply orb_false_iff in Hup as [? Hup]);
        repeat (apply orb_false_iff; split); done).
  assert (Hnot : (protocol =? 44) = false /\ zmem protocol [50; 59] = false)
    by (unfold zmem in *; cbn [existsb] in *; repeat (apply orb_false_iff in Hup as [? Hup]);
        repeat (apply conj || (apply orb_false_iff; split)); done).
  assert (Hsd : slice p 8 24 = src /\ slice p 24 40 = dst
                /\ p = take 8 p ++ src ++ dst ++ payload).
  { destruct (len_16 src Hs) as (? & ? & ? & ? & ? & ? & ? & ? & ? & ? & ? & ? & ? & ? & ? & ? & ->).
    destruct (len_16 dst Hd) as (? & ? & ? & ? & ? & ? & ? & ? & ? & ? & ? & ? & ? & ? & ? & ? & ->).
    done. }
  destruct Hsd as (-> & -> & Hp). long_enough.
  change (u8 p 0) with (Ok 96 : res Z). cbn [mbind result_bind].
  change (Z.shiftr 96 4) with 6. ceval.
  change (slice p 4 6) with (be 2 (len payload)). rewrite be_value by (simpl; lia).
  replace (_ || _) with false by (rewrite Lp; lia).
  rewrite !address_text_ok by (right; done).
  change (u8 p 6) with (Ok (bz (zb protocol)) : res Z). cbn [mbind result_bind negb].
  rewrite bz_zb, Z.mod_small by lia.
  change (Z.to_nat MAX_IPV6_EXTENSION_HEADERS + 2)%nat with 10%nat.
  rewrite ipv6_extension_loop_none by done. cbn [mbind result_bind].
  destruct Hnot as [-> ->]. do 2 f_equal.
  apply (slice_field p (take 8 p ++ src ++ dst) payload []).
  - by rewrite <-!app_assoc, app_nil_r.
  - rewrite !len_app, Hs, Hd. done.
  - done.
Qed.

(** ** Transport headers *)

Lemma decode_transport_segment packet proto sport dport payload :
  np_protocol packet = proto_number proto ->
  np_payload packet = segment proto sport dport payload ->
  0 <= sport < 65536 -> 0 <= dport < 65536 -> len payload <= 65495 ->
  match proto with TCP s => 0 <= s < 2 ^ 32 | UDP => True end ->
  _decode_transport packet = Ok {|
    tp_timestamp := np_timestamp packet; tp_family := np_family packet;
    tp_source := np_source packet; tp_destination := np_destination packet;
    tp_source_port := sport; tp_destination_port := dport;
    tp_protocol := proto_name proto; tp_payload := payload;
    tp_sequence := match proto with TCP s => Some s | UDP => None end;
    tp_link_type := np_link_type packet; tp_interface_id := np_interface_id packet |}.
Proof.
  intros Hn Hp Hsp Hdp Hpl Hseq. unfold _decode_transport. rewrite Hn, Hp. clear Hn Hp.
  pose proof (len_nonneg payload).
  destruct proto as [s|]; cbn [proto_number proto_name]; ceval; unfold segment; long_enough;
    set (p := be 2 sport ++ _).
  - rewrite (unpack_app BigEndian 2 p 0 sport [] (be 2 dport ++ be 4 s ++ slice_from p 8)) by done.
    rewrite (unpack_app BigEndian 2 p 2 dport (be 2 sport) (be 4 s ++ slice_from p 8)) by done.
    rewrite (unpack_app BigEndian 4 p 4 s (be 2 sport ++ be 2 dport) (slice_from p 8)) by done.
    change (u8 p 12) with (Ok 80 : res Z). cbn [mbind result_bind].
    change (Z.shiftr 80 4 * 4) with 20.
    assert (Lp : len p = 20 + len payload) by (unfold p; flen).
    replace (_ || _) with false by (rewrite Lp; lia).
    done.
  - set (n := 8 + len payload) in p.
    rewrite (unpack_app BigEndian 2 p 0 sport [] (be 2 dport ++ be 2 n ++ slice_from p 6)) by done.
    rewrite (unpack_app BigEndian 2 p 2 dport (be 2 sport) (be 2 n ++ slice_from p 6)) by done.
    rewrite (unpack_app BigEndian 2 p 4 n (be 2 sport ++ be 2 dport) (slice_from p 6))
      by (done || (simpl; lia)).
    cbn [mbind result_bind].
    assert (Lp : len p = n) by (unfold p, n; flen).
    replace (_ || _) with false by (rewrite Lp; unfold n; lia).
    do 2 f_equal. rewrite <-Lp.
    apply (slice_field p (take 8 p) payload []); [by rewrite app_nil_r|done|].
    rewrite Lp. done.
Qed.

(** ** The whole decoder *)

Lemma segment_len proto sport dport payload :
  len (segment proto sport dport payload)
  = (match proto with TCP _ => 20 | UDP => 8 end) + len payload.
Proof. destruct proto; unfold segment; flen. Qed.

Lemma decode_network_frame record fl payload :
  flow_ok fl payload ->
  zmem (pr_link_type record) ALLOWED_LINK_TYPES = true ->
  pr_payload record = link_frame (pr_link_type record) (fl_v6 fl) (flow_packet fl payload) ->
  _decode_network record = Ok {|
    np_timestamp := pr_timestamp record; np_family := if fl_v6 fl then "ipv6" else "ipv4";
    np_source := address_text (fl_source fl); np_destination := address_text (fl_destination fl);
    np_protocol := proto_number (fl_proto fl);
    np_payload := segment (fl_proto fl) (fl_source_port fl) (fl_destination_port fl) payload;
    np_link_type := pr_link_type record; np_interface_id := pr_interface_id record |}.
Proof.
  intros (Hs & Hd & _ & _ & _ & Hpl) Hl Hp. unfold _decode_network. pose proof (len_nonneg payload).
  pose proof (segment_len (fl_proto fl) (fl_source_port fl) (fl_destination_port fl) payload) as Hseg.
  assert (Hpn : 0 <= proto_number (fl_proto fl) < 256) by (by destruct (fl_proto fl)).
  unfold flow_packet, ip_packet in *. destruct (fl_v6 fl); simpl addr_size in *.
  - rewrite (network_payload_frame record true _ x60 (tail (ipv6_packet (fl_source fl) (fl_destination fl)
      (proto_number (fl_proto fl)) (segment (fl_proto fl) (fl_source_port fl) (fl_destination_port fl) payload)))
      Hl Hp) by done.
    cbn [mbind result_bind seq_ String.eqb Ascii.eqb Bool.eqb].
    by rewrite decode_ipv6_packet by (done || (by destruct (fl_proto fl)) || (destruct (fl_proto fl); lia)).
  - rewrite (network_payload_frame record false _ x45 (tail (ipv4_packet (fl_source fl) (fl_destination fl)
      (proto_number (fl_proto fl)) (segment (fl_proto fl) (fl_source_port fl) (fl_destination_port fl) payload)))
      Hl Hp) by done.
    cbn [mbind result_bind seq_ String.eqb Ascii.eqb Bool.eqb].
    by rewrite decode_ipv4_packet by (done || (destruct (fl_proto fl); lia)).
Qed.

(** The decoder reads back every encoded frame.  For each accepted link
    type, both address families and both transports, a record whose payload is
    the reference encoding of a flow and an application payload decodes to
    exactly that flow: the canonical text of both addresses, both ports, the
    transport, the TCP sequence number and the application payload. *)
Theorem decode_encoded_frame record fl payload :
  flow_ok fl payload ->
  zmem (pr_link_type record) ALLOWED_LINK_TYPES = true ->
  pr_payload record = link_frame (pr_link_type record) (fl_v6 fl) (flow_packet fl payload) ->
  (network ← _decode_network record; _decode_transport network)
  = Ok (flow_transport record fl payload).
Proof.
  intros Hok Hl Hp. rewrite (decode_network_frame record fl payload) by done.
  cbn [mbind result_bind]. destruct Hok as (_ & _ & Hsp & Hdp & Hseq & Hpl).
  by erewrite decode_transport_segment.
Qed.

(** A TCP segment over IPv6 in a Linux cooked-v2 frame. *)
Definition sample_flow : Flow := {|
  fl_v6 := true; fl_source := hexb "20010db8000000000000000000000001";
  fl_destination := hexb "fe800000000000000000000000000002";
  fl_source_port := 443; fl_destination_port := 50000; fl_proto := TCP 4294967290 |}.
Definition sample_record : PacketRecord := {|
  pr_timestamp := fraction 1 1; pr_link_type := DLT_LINUX_SLL2; pr_interface_id := 0;
  pr_payload := link_frame DLT_LINUX_SLL2 true (flow_packet sample_flow (bstr "hello")) |}.

Lemma decode_encoded_frame_witness :
  (network ← _decode_network sample_record; _decode_transport network)
  = Ok (flow_transport sample_record sample_flow (bstr "hello")).
Proof.
  apply (decode_encoded_frame sample_record sample_flow (bstr "hello")).
  - unfold flow_ok. vm_compute. repeat split; discriminate || reflexivity.
  - reflexivity.
  - reflexivity.
Defined.

Example sample_address : tp_source (flow_transport sample_record sample_flow (bstr "hello")) = "2001:db8::1"%string.
Proof. vm_compute. reflexivity. Qed.
