(* ===== verification/TcpReassembly.v ===== *)
(** * Token search and TCP reassembly

    [_token_offsets], [_tcp_token_windows] and [_tcp_token_times] of
    [scripts/harness/packet_capture.py]: the offsets of a token in a byte
    string, the reassembly of a flow's segments into one stream, and the times
    at which the first and the last byte of every occurrence were captured. *)

From S2P Require Import Prelude PacketTypes.

(** ** [bytes.find] and [_token_offsets] *)

Fixpoint starts_with (token data : bytes) : bool :=
  match token, data with
  | [], _ => true
  | t :: token, d :: data => bool_decide (t = d) && starts_with token data
  | _ :: _, [] => false
  end.

Fixpoint find_at (token rest : bytes) (i : Z) : Z :=
  if starts_with token rest then i
  else match rest with [] => -1 | _ :: rest => find_at token rest (i + 1) end.

(** [data.find(token, start)] for a non-negative [start]. *)
Definition find (data token : bytes) (start : Z) : Z :=
  if len data <? start then -1 else find_at token (slice_from data start) start.

Fixpoint _token_offsets_loop (fuel : nat) (data token : bytes) (start : Z) (offsets : list Z) : res (list Z) :=
  match fuel with
  | O => Err OutOfFuel
  | S fuel =>
    let found := find data token start in
    if found <? 0 then Ok offsets
    else _token_offsets_loop fuel data token (found + 1) (offsets ++ [found])
  end.

(** Every iteration moves [start] forward and stops past the end of [data]. *)
Definition _token_offsets (data token : bytes) : res (list Z) :=
  _token_offsets_loop (length data + 2) data token 0 [].

(** [token in data]. *)
Definition bytes_contain (token data : bytes) : bool := 0 <=? find data token 0.

(** ** [_tcp_token_windows] *)

Definition FlowKey : Type := string * string * Z * Z.

Definition flow_key (packet : TransportPacket) : FlowKey :=
  (tp_source packet, tp_destination packet, tp_source_port packet, tp_destination_port packet).

(** [flows.setdefault(key, []).append(packet)]: the dictionary keeps its keys in
    the order of their first insertion. *)
Fixpoint setdefault_append {K A} `{EqDecision K} (flows : list (K * list A)) (key : K) (x : A) : list (K * list A) :=
  match flows with
  | [] => [(key, [x])]
  | (k, xs) :: flows =>
      if bool_decide (k = key) then (k, xs ++ [x]) :: flows
      else (k, xs) :: setdefault_append flows key x
  end.

Definition group_flows (packets : list TransportPacket) : list (FlowKey * list TransportPacket) :=
  foldl (fun flows packet => setdefault_append flows (flow_key packet) packet) [] packets.

(** [item.sequence or 0]. *)
Definition seq_or_0 (packet : TransportPacket) : Z :=
  match tp_sequence packet with Some s => s | None => 0 end.

(** The order of the sort keys [(item.sequence or 0, item.timestamp)]. *)
Definition segment_le (a b : TransportPacket) : bool :=
  (seq_or_0 a <? seq_or_0 b)
  || ((seq_or_0 a =? seq_or_0 b) && fle (tp_timestamp a) (tp_timestamp b)).

(** [sorted], which is stable. *)
Fixpoint insert_stable {A} (le : A -> A -> bool) (x : A) (l : list A) : list A :=
  match l with
  | [] => [x]
  | y :: l => if le x y then x :: y :: l else y :: insert_stable le x l
  end.
Definition sorted_by {A} (le : A -> A -> bool) (l : list A) : list A := foldr (insert_stable le) [] l.

Record Reassembly := {
  rs_stream : bytes;
  rs_timestamps : list Fraction;
  rs_cursor : Z
}.

(** One iteration of the loop over the ordered segments. *)
Definition _reassemble_step (base : Z) (st : Reassembly) (segment : TransportPacket) : res Reassembly :=
  match tp_sequence segment with
  | None => Err (PacketCaptureError "TCP sequence is absent")
  | Some sequence =>
    let payload := tp_payload segment in
    raise_if rs_cursor st <? sequence with PacketCaptureError "TCP evidence has a reassembly gap" ;;
    let overlap := Z.max 0 (rs_cursor st - sequence) in
    let existing_start := sequence - base in
    let existing_end := existing_start + Z.min overlap (len payload) in
    raise_if negb (overlap =? 0)
             && negb (beq (slice (rs_stream st) existing_start existing_end)
                          (slice payload 0 (existing_end - existing_start)))
      with PacketCaptureError "TCP evidence has conflicting overlap bytes" ;;
    let suffix := slice_from payload overlap in
    raise_if MAX_REASSEMBLED_FLOW_BYTES <? len (rs_stream st) + len suffix
      with PacketCaptureError "TCP reassembled flow exceeds the bound" ;;
    Ok {| rs_stream := rs_stream st ++ suffix;
          rs_timestamps := rs_timestamps st ++ replicate (length suffix) (tp_timestamp segment);
          rs_cursor := Z.max (rs_cursor st) (sequence + len payload) |}
  end.

Definition _reassemble (base : Z) (ordered : list TransportPacket) : res Reassembly :=
  fold_res (_reassemble_step base) {| rs_stream := []; rs_timestamps := []; rs_cursor := base |} ordered.

(** The occurrences of the token in one flow. *)
Definition _flow_token_windows (token : bytes) (segments : list TransportPacket) : res (list (Fraction * Fraction)) :=
  let nonempty := List.filter (fun segment => negb (len (tp_payload segment) =? 0)) segments in
  match sorted_by segment_le nonempty with
  | [] => Ok []
  | first :: rest =>
    match tp_sequence first with
    | None => Err (PacketCaptureError "TCP sequence is absent")
    | Some base =>
      st ← _reassemble base (first :: rest);
      offsets ← _token_offsets (rs_stream st) token;
      map_res (fun offset =>
        started_at ← py_index (rs_timestamps st) offset;
        ended_at ← py_index (rs_timestamps st) (offset + len token - 1);
        Ok (started_at, ended_at)) offsets
    end
  end.

Definition _tcp_token_windows (packets : list TransportPacket) (token : bytes) : res (list (Fraction * Fraction)) :=
  windows ← map_res (fun flow => _flow_token_windows token (snd flow)) (group_flows packets);
  Ok (concat windows).

Definition _tcp_token_times (packets : list TransportPacket) (token : bytes) : res (list Fraction) :=
  windows ← _tcp_token_windows packets token;
  Ok (map fst windows).

(** ** The offsets are exactly the occurrences *)

Definition occurs_at (data token : bytes) (i : Z) : bool :=
  (i + len token <=? len data) && beq (slice data i (i + len token)) token.

Definition zrange (a n : nat) : list Z := map Z.of_nat (seq a n).

Lemma starts_with_spec token data : starts_with token data = true <-> exists rest, data = token ++ rest.
Proof.
  revert data; induction token as [|t token IH]; intros data; simpl.
  - split; [intros _; by exists data|done].
  - destruct data as [|d data]; [split; [done|intros [? [=]]]|].
    rewrite andb_true_iff, bool_decide_eq_true, IH. split.
    + intros [-> [rest ->]]. by exists rest.
    + intros [rest [= -> ->]]. eauto.
Qed.

Lemma occurs_at_starts data token i :
  0 <= i <= len data -> occurs_at data token i = starts_with token (slice_from data i).
Proof.
  intros Hi. apply eq_true_iff_eq. unfold occurs_at, beq.
  rewrite andb_true_iff, bool_decide_eq_true, starts_with_spec, Z.leb_le. pose proof (len_nonneg token).
  split.
  - intros [H1 H2]. exists (slice_from data (i + len token)).
    rewrite <-H2 at 1. apply slice_from_split; lia.
  - intros [rest Hr].
    assert (Hl : len (slice_from data i) = len token + len rest) by (by rewrite Hr, len_app).
    rewrite slice_from_length in Hl by lia. pose proof (len_nonneg rest).
    split; [lia|]. rewrite (slice_from_split data i (i + len token)) in Hr by lia.
    apply app_inj_1 in Hr as [? _]; [done|].
    pose proof (slice_length data i (i + len token)) as Hs. unfold len in *. lia.
Qed.

(** The list of occurrences at or after [start]. *)
Definition occurrences_from (data token : bytes) (start : nat) : list Z :=
  List.filter (occurs_at data token) (zrange start (S (length data) - start)).

Lemma find_occurrences data token start :
  (start <= length data)%nat ->
  match occurrences_from data token start with
  | [] => find data token (Z.of_nat start) = -1
  | i :: rest => find data token (Z.of_nat start) = i
      /\ (start <= Z.to_nat i <= length data)%nat /\ 0 <= i
      /\ rest = occurrences_from data token (S (Z.to_nat i))
  end.
Proof.
  intros Hs. unfold find, occurrences_from.
  replace (len data <? Z.of_nat start) with false by (unfold len; lia).
  remember (length data - start)%nat as k eqn:Hk. revert start Hs Hk.
  induction k as [|k IH]; intros start Hs Hk; replace (S (length data) - start)%nat with (S (length data - start)) by lia;
    rewrite <-Hk; unfold zrange; cbn [seq map List.filter];
    rewrite occurs_at_starts by (unfold len; lia).
  - assert (Hd : slice_from data (Z.of_nat start) = []).
    { apply len_0_nil. rewrite slice_from_length; unfold len; lia. }
    rewrite Hd. destruct (starts_with token []) eqn:Hsw; cbn [find_at]; rewrite Hsw; [|done].
    split_and!; [done|lia|lia|lia|]. rewrite Nat2Z.id.
    by replace (S (length data) - S start)%nat with 0%nat by lia.
  - destruct (slice_from data (Z.of_nat start)) as [|b rest] eqn:Hd.
    { apply (f_equal len) in Hd. rewrite slice_from_length in Hd by (unfold len; lia). unfold len in Hd; simpl in Hd; lia. }
    cbn [find_at]. destruct (starts_with token (b :: rest)) eqn:Hsw.
    + split_and!; [done|lia|lia|lia|]. rewrite Nat2Z.id.
      by replace (S (length data) - S start)%nat with (S k) by lia.
    + specialize (IH (S start) ltac:(lia) ltac:(lia)).
      replace (S (length data) - S start)%nat with (S k) in IH by lia. unfold zrange in IH.
      assert (Hr : rest = slice_from data (Z.of_nat (S start))).
      { rewrite (slice_from_split data (Z.of_nat start) (Z.of_nat (S start))) in Hd by lia.
        pose proof (slice_length data (Z.of_nat start) (Z.of_nat (S start))) as Hl.
        unfold len in Hl. destruct (slice data _ _) as [|b' [|? ?]]; cbn in Hl; try lia.
        by injection Hd as _ <-. }
      rewrite <-Hr in IH. replace (Z.of_nat start + 1) with (Z.of_nat (S start)) by lia.
      cbn [seq map List.filter] in IH.
      destruct (if occurs_at _ _ _ then _ else _); [done|]. destruct IH as (? & ? & ? & ?). split_and!; try done; lia.
Qed.

Lemma token_offsets_loop_spec fuel data token start acc :
  (start <= S (length data))%nat -> (S (length data) - start < fuel)%nat ->
  _token_offsets_loop fuel data token (Z.of_nat start) acc
  = Ok (acc ++ occurrences_from data token start).
Proof.
  revert start acc; induction fuel as [|fuel IH]; intros start acc Hs Hf; [lia|].
  cbn [_token_offsets_loop]. destruct (decide (start = S (length data))) as [->|Hne].
  - unfold find, occurrences_from. rewrite Nat.sub_diag. cbn.
    replace (len data <? _) with true by (unfold len; symmetry; apply Z.ltb_lt; lia).
    cbn. by rewrite app_nil_r.
  - pose proof (find_occurrences data token start ltac:(lia)) as Hfind.
    destruct (occurrences_from data token start) as [|i rest].
    + rewrite Hfind. cbn. by rewrite app_nil_r.
    + destruct Hfind as (-> & Hi & Hi0 & ->). replace (i <? 0) with false by lia.
      replace (i + 1) with (Z.of_nat (S (Z.to_nat i))) by lia.
      rewrite IH by lia. by rewrite <-app_assoc.
Qed.

Lemma token_offsets_spec data token : _token_offsets data token = Ok (occurrences_from data token 0).
Proof. unfold _token_offsets. apply (token_offsets_loop_spec _ data token 0); lia. Qed.

Lemma occurrences_from_in data token i :
  i ∈ occurrences_from data token 0 <->
  0 <= i /\ i + len token <= len data /\ slice data i (i + len token) = token.
Proof.
  unfold occurrences_from. rewrite list_elem_of_In, filter_In, <-list_elem_of_In.
  unfold zrange. rewrite list_elem_of_In, in_map_iff.
  unfold occurs_at, beq. rewrite andb_true_iff, bool_decide_eq_true, Z.leb_le.
  pose proof (len_nonneg token). split.
  - intros [(k & <- & Hk%in_seq) [H1 H2]]. split_and!; try done; lia.
  - intros (H1 & H2 & H3). split; [|done]. exists (Z.to_nat i).
    rewrite in_seq. unfold len in *. lia.
Qed.

Lemma bytes_contain_spec token data :
  bytes_contain token data = true <-> exists l1 l2, data = l1 ++ token ++ l2.
Proof.
  unfold bytes_contain. rewrite Z.leb_le.
  pose proof (find_occurrences data token 0 ltac:(lia)) as Hf. change (Z.of_nat 0) with 0 in Hf.
  pose proof (occurrences_from_in data token) as Hin.
  destruct (occurrences_from data token 0) as [|i rest].
  - rewrite Hf. split; [lia|]. intros (l1 & l2 & ->).
    assert (H : len l1 ∈ @nil Z); [|by apply elem_of_nil in H]. apply Hin. pose proof (len_nonneg l1).
    rewrite !len_app. pose proof (len_nonneg l2). split_and!; [lia|lia|]. by eapply slice_field.
  - destruct Hf as (-> & _ & Hi0 & _). split; [intros _|done].
    specialize (Hin i). rewrite elem_of_cons in Hin. destruct Hin as [Hin _].
    destruct Hin as (H1 & H2 & H3); [by left|]. pose proof (len_nonneg token).
    exists (slice data 0 i), (slice_from data (i + len token)).
    pose proof (slice_from_split data i (i + len token) ltac:(lia) ltac:(lia)) as Hs.
    rewrite H3 in Hs. rewrite <-Hs, <-slice_from_split by lia. done.
Qed.

Lemma zrange_sorted a n : StronglySorted Z.lt (zrange a n).
Proof.
  unfold zrange. revert a; induction n as [|n IH]; intros a; cbn [seq map]; constructor; [done|].
  apply Forall_forall. intros z Hz%list_elem_of_In. apply in_map_iff in Hz as (k & <- & Hk%in_seq). lia.
Qed.

Lemma filter_sorted {A} (R : A -> A -> Prop) (f : A -> bool) l :
  StronglySorted R l -> StronglySorted R (List.filter f l).
Proof.
  induction 1 as [|x l Hl IH Hx]; cbn [List.filter]; [constructor|].
  destruct (f x); [|done]. constructor; [done|].
  rewrite List.Forall_forall in *. intros y [Hy _]%filter_In. by apply Hx.
Qed.

(** C38: [_token_offsets] returns, for every input, exactly the offsets at which
    the token occurs, overlapping occurrences included, in increasing order and
    without repetition. *)
Theorem token_offsets_exact data token :
  exists offsets, _token_offsets data token = Ok offsets
  /\ StronglySorted Z.lt offsets
  /\ forall i, i ∈ offsets <->
       0 <= i /\ i + len token <= len data /\ slice data i (i + len token) = token.
Proof.
  exists (occurrences_from data token 0). rewrite token_offsets_spec. split; [done|]. split.
  - apply filter_sorted, zrange_sorted.
  - apply occurrences_from_in.
Qed.

(** ** Stable sorting *)

Section Sorting.
Context {A : Type} (le : A -> A -> bool).
Hypothesis le_total : forall x y, le x y = false -> le y x = true.
Hypothesis le_trans : forall x y z, le x y = true -> le y z = true -> le x z = true.

Lemma insert_stable_perm x l : Permutation (x :: l) (insert_stable le x l).
Proof.
  induction l as [|y l IH]; cbn [insert_stable]; [done|]. destruct (le x y); [done|].
  rewrite perm_swap. by constructor.
Qed.

Lemma sorted_by_perm l : Permutation l (sorted_by le l).
Proof.
  induction l as [|x l IH]; [done|]. cbn. rewrite <-insert_stable_perm. by constructor.
Qed.

Lemma insert_stable_sorted x l :
  StronglySorted (fun a b => le a b = true) l -> StronglySorted (fun a b => le a b = true) (insert_stable le x l).
Proof.
  induction 1 as [|y l Hl IH Hy]; cbn [insert_stable]; [by repeat constructor|].
  destruct (le x y) eqn:Hxy.
  - constructor; [by constructor|]. constructor; [done|].
    eapply Forall_impl; [exact Hy|]. cbn. intros z Hz. by eapply le_trans.
  - constructor; [done|]. rewrite <-insert_stable_perm. constructor; [by apply le_total|done].
Qed.

Lemma sorted_by_sorted l : StronglySorted (fun a b => le a b = true) (sorted_by le l).
Proof. induction l as [|x l IH]; cbn; [constructor|by apply insert_stable_sorted]. Qed.
End Sorting.

Lemma segment_le_total a b : segment_le a b = false -> segment_le b a = true.
Proof.
  unfold segment_le, fle. rewrite !orb_true_iff, !andb_true_iff, !orb_false_iff, !andb_false_iff.
  rewrite !Z.ltb_lt, !Z.ltb_ge, !Z.eqb_eq, !Z.eqb_neq.
  intros [H1 [H2|H2]]; [left; lia|].
  destruct (decide (seq_or_0 a = seq_or_0 b)) as [He|He]; [|left; lia].
  right. split; [done|]. rewrite Qle_bool_iff. apply Qnot_lt_le. intros Hlt.
  apply Qlt_le_weak, Qle_bool_iff in Hlt. congruence.
Qed.

Lemma segment_le_trans a b c : segment_le a b = true -> segment_le b c = true -> segment_le a c = true.
Proof.
  unfold segment_le, fle. rewrite !orb_true_iff, !andb_true_iff, !Z.ltb_lt, !Z.eqb_eq, !Qle_bool_iff.
  intros [?|[? ?]] [?|[? ?]]; [left; lia|left; lia|left; lia|].
  right. split; [lia|]. by eapply Qle_trans.
Qed.

Lemma segment_le_seq a b : segment_le a b = true -> seq_or_0 a <= seq_or_0 b.
Proof. unfold segment_le. rewrite orb_true_iff, andb_true_iff, Z.ltb_lt, Z.eqb_eq. lia. Qed.

(** ** Grouping by flow *)

Definition of_flow (key : FlowKey) (packets : list TransportPacket) : list TransportPacket :=
  List.filter (fun p => bool_decide (flow_key p = key)) packets.

Definition add_key {K} `{EqDecision K} (keys : list K) (k : K) : list K :=
  if bool_decide (k ∈ keys) then keys else keys ++ [k].

(** The flow keys in the order of their first packet. *)
Definition flow_keys (packets : list TransportPacket) : list FlowKey :=
  foldl (fun keys p => add_key keys (flow_key p)) [] packets.

Lemma setdefault_append_map {K A} `{EqDecision K} (f : K -> list A) keys key x :
  NoDup keys -> (~ key ∈ keys -> f key = []) ->
  setdefault_append (map (fun k => (k, f k)) keys) key x
  = map (fun k => (k, if bool_decide (k = key) then f k ++ [x] else f k)) (add_key keys key).
Proof.
  intros Hnd Hnew. unfold add_key. induction Hnd as [|k keys Hk Hnd IH]; cbn [map setdefault_append].
  - rewrite bool_decide_false by apply not_elem_of_nil. cbn. rewrite bool_decide_true by done.
    by rewrite Hnew by apply not_elem_of_nil.
  - destruct (decide (k = key)) as [He|He]; [subst k|].
    + rewrite (bool_decide_true (key = key)) by done. rewrite bool_decide_true by (apply elem_of_cons; by left). cbn [map].
      rewrite bool_decide_true by done. f_equal. apply map_ext_in. intros k Hin.
      rewrite bool_decide_false; [done|]. intros ->. by apply Hk, list_elem_of_In.
    + rewrite (bool_decide_false (k = key)) by done. rewrite IH by (intros Hn; apply Hnew; rewrite elem_of_cons; naive_solver).
      rewrite (bool_decide_ext (key ∈ k :: keys) (key ∈ keys)) by (rewrite elem_of_cons; naive_solver).
      destruct (bool_decide (key ∈ keys)); cbn [map app]; by rewrite (bool_decide_false (k = key)) by done.
Qed.

Lemma add_key_nodup {K} `{EqDecision K} (keys : list K) k : NoDup keys -> NoDup (add_key keys k).
Proof.
  intros Hnd. unfold add_key. case_bool_decide as Hk; [done|].
  apply NoDup_app. split_and!; [done| |apply NoDup_singleton].
  intros x Hx. rewrite list_elem_of_singleton. by intros ->.
Qed.

Lemma elem_of_add_key {K} `{EqDecision K} (keys : list K) k x : x ∈ add_key keys k <-> x ∈ keys \/ x = k.
Proof.
  unfold add_key. case_bool_decide; [naive_solver|].
  by rewrite elem_of_app, list_elem_of_singleton.
Qed.

Lemma flow_keys_spec packets :
  NoDup (flow_keys packets) /\ forall k, k ∈ flow_keys packets <-> exists p, p ∈ packets /\ flow_key p = k.
Proof.
  unfold flow_keys. induction packets as [|p packets [IH1 IH2]] using rev_ind; cbn.
  - split; [constructor|]. intros k. split; [by intros ?%elem_of_nil|intros (? & ?%elem_of_nil & _); done].
  - rewrite foldl_app. cbn. split; [by apply add_key_nodup|]. intros k.
    rewrite elem_of_add_key, IH2. setoid_rewrite elem_of_app. setoid_rewrite list_elem_of_singleton.
    naive_solver.
Qed.

(** The dictionary of flows: every key once, with its packets in capture order. *)
Lemma group_flows_spec packets :
  group_flows packets = map (fun k => (k, of_flow k packets)) (flow_keys packets).
Proof.
  induction packets as [|p packets IH] using rev_ind; [done|].
  unfold group_flows, flow_keys in *. rewrite !foldl_app. cbn [foldl]. rewrite IH.
  destruct (flow_keys_spec packets) as [Hnd Hin]. unfold flow_keys in Hnd, Hin.
  rewrite setdefault_append_map; [|done|].
  - apply map_ext. intros k. unfold of_flow. rewrite List.filter_app. cbn [List.filter].
    rewrite (bool_decide_ext (flow_key p = k) (k = flow_key p)) by done.
    case_bool_decide; [done|]. by rewrite app_nil_r.
  - intros Hn. unfold of_flow. destruct (List.filter _ packets) as [|q l] eqn:Hf; [done|].
    exfalso. apply Hn, Hin. assert (Hq : In q (q :: l)) by (by left). rewrite <-Hf in Hq.
    apply filter_In in Hq as [Hq Hk]. apply bool_decide_eq_true in Hk.
    exists q. by rewrite list_elem_of_In.
Qed.

(** ** Reassembly *)

Definition in_stream (stream : bytes) (p : Z) (payload : bytes) : Prop :=
  0 <= p /\ p + len payload <= len stream /\ slice stream p (p + len payload) = payload.

Definition covers (base : Z) (i : Z) (segment : TransportPacket) : bool :=
  (seq_or_0 segment - base <=? i) && (i <? seq_or_0 segment - base + len (tp_payload segment)).

(** The time of the first segment, in sequence order, that carries byte [i]. *)
Definition first_cover (base : Z) (segments : list TransportPacket) (i : Z) : option Fraction :=
  match List.filter (covers base i) segments with [] => None | s :: _ => Some (tp_timestamp s) end.

(** [reassembles base segments stream]: the stream carries every segment's
    payload at its sequence number, no byte of it is carried by no segment, and
    it is within the bound. *)
Definition reassembles (base : Z) (segments : list TransportPacket) (stream : bytes) : Prop :=
  (forall s, s ∈ segments -> in_stream stream (seq_or_0 s - base) (tp_payload s)) /\
  (forall i, 0 <= i < len stream -> exists s, s ∈ segments /\ covers base i s = true) /\
  len stream <= MAX_REASSEMBLED_FLOW_BYTES.

(** The loop's state after [segments]. *)
Definition reassembly_inv (base : Z) (segments : list TransportPacket) (st : Reassembly) : Prop :=
  reassembles base segments (rs_stream st) /\ rs_cursor st = base + len (rs_stream st) /\
  len (rs_timestamps st) = len (rs_stream st) /\
  forall i, 0 <= i < len (rs_stream st) -> rs_timestamps st !! Z.to_nat i = first_cover base segments i.

Lemma in_stream_app stream suffix p payload :
  in_stream stream p payload -> in_stream (stream ++ suffix) p payload.
Proof.
  unfold in_stream. intros (H1 & H2 & H3). rewrite len_app. pose proof (len_nonneg suffix).
  split_and!; [done|lia|]. by rewrite slice_app_l.
Qed.

Lemma in_stream_extends stream p payload :
  0 <= p <= len stream ->
  slice stream p (p + Z.min (len stream - p) (len payload)) = slice payload 0 (Z.min (len stream - p) (len payload)) ->
  in_stream (stream ++ slice_from payload (len stream - p)) p payload.
Proof.
  intros Hp Hs. unfold in_stream. pose proof (len_nonneg payload). rewrite len_app.
  destruct (Z_le_gt_dec (len payload) (len stream - p)) as [Hc|Hc].
  - rewrite Z.min_r in Hs by lia. rewrite slice_all in Hs.
    pose proof (len_nonneg (slice_from payload (len stream - p))).
    split_and!; [lia|lia|]. by rewrite slice_app_l by lia.
  - rewrite Z.min_l in Hs by lia. rewrite slice_from_length by lia. split_and!; [lia|lia|].
    rewrite (slice_split _ p (len stream)) by lia. rewrite slice_app_l by lia.
    replace (p + (len stream - p)) with (len stream) in Hs by lia. rewrite Hs.
    rewrite slice_app_r by lia. rewrite Z.sub_diag.
    replace (p + len payload - len stream) with (len (slice_from payload (len stream - p)))
      by (rewrite slice_from_length; lia).
    rewrite slice_all. rewrite <-slice_from_split by lia. done.
Qed.

Lemma in_stream_overlap stream suffix p payload :
  0 <= p <= len stream -> in_stream (stream ++ suffix) p payload ->
  slice stream p (p + Z.min (len stream - p) (len payload)) = slice payload 0 (Z.min (len stream - p) (len payload)).
Proof.
  intros Hp (_ & Hl & Hs). set (m := Z.min _ _). pose proof (len_nonneg payload).
  rewrite <-Hs. rewrite <-(slice_app_l stream suffix) by (unfold m; lia).
  rewrite (slice_split _ p (p + m) (p + len payload)) by (unfold m; lia).
  rewrite (slice_app_l (slice _ p (p + m))) by (rewrite ?slice_length; rewrite ?len_app in *; unfold m in *; lia).
  set (y := slice _ p (p + m)). assert (Hy : len y = m) by (unfold y; rewrite slice_length; unfold m in *; lia).
  transitivity (slice y 0 (len y)); [by rewrite slice_all|by rewrite Hy].
Qed.

(** The segments of a flow in sequence order, from the base. *)
Definition ordered_from (base : Z) (segments : list TransportPacket) : Prop :=
  Forall (fun s => is_Some (tp_sequence s) /\ base <= seq_or_0 s /\ 0 < len (tp_payload s)) segments /\
  StronglySorted (fun a b => seq_or_0 a <= seq_or_0 b) segments.

Lemma reassemble_step_eq base st s :
  rs_cursor st = base + len (rs_stream st) -> is_Some (tp_sequence s) -> base <= seq_or_0 s ->
  let p := seq_or_0 s - base in
  let L := len (rs_stream st) in
  let m := Z.min (L - p) (len (tp_payload s)) in
  let suffix := slice_from (tp_payload s) (L - p) in
  _reassemble_step base st s =
    if L <? p then Err (PacketCaptureError "TCP evidence has a reassembly gap")
    else if negb (beq (slice (rs_stream st) p (p + m)) (slice (tp_payload s) 0 m))
    then Err (PacketCaptureError "TCP evidence has conflicting overlap bytes")
    else if MAX_REASSEMBLED_FLOW_BYTES <? L + len suffix
    then Err (PacketCaptureError "TCP reassembled flow exceeds the bound")
    else Ok {| rs_stream := rs_stream st ++ suffix;
               rs_timestamps := rs_timestamps st ++ replicate (length suffix) (tp_timestamp s);
               rs_cursor := base + (L + len suffix) |}.
Proof.
  intros Hc [q Hq] Hb p L m suffix. unfold _reassemble_step. rewrite Hq, Hc.
  assert (Hs : seq_or_0 s = q) by (unfold seq_or_0; by rewrite Hq).
  assert (Hp : p = q - base) by (unfold p; lia). pose proof (len_nonneg (tp_payload s)).
  replace (base + len (rs_stream st) <? q) with (L <? p) by (unfold L; lia).
  destruct (L <? p) eqn:HL; [done|]. apply Z.ltb_ge in HL.
  replace (Z.max 0 (base + len (rs_stream st) - q)) with (L - p) by (unfold L in *; lia).
  rewrite <-Hp. fold m suffix. replace (p + m - p) with m by lia.
  assert (Hm : L - p = 0 -> beq (slice (rs_stream st) p (p + m)) (slice (tp_payload s) 0 m) = true).
  { intros H0. unfold m. rewrite H0, Z.min_l, Z.add_0_r by lia. unfold beq.
    apply bool_decide_eq_true. unfold slice. by rewrite Z.sub_diag. }
  replace (negb (L - p =? 0) && _) with (negb (beq (slice (rs_stream st) p (p + m)) (slice (tp_payload s) 0 m)))
    by (destruct (Z.eqb_spec (L - p) 0); [by rewrite Hm|done]).
  destruct (negb _); [done|]. fold L. destruct (_ <? _); [done|]. do 2 f_equal.
  assert (Hsuf : len suffix = Z.max 0 (len (tp_payload s) - (L - p))).
  { unfold suffix, slice_from, len. rewrite length_drop. lia. }
  rewrite Hsuf. unfold L in *. lia.
Qed.

Lemma suffix_len (payload : bytes) k : 0 <= k -> len (slice_from payload k) = Z.max 0 (len payload - k).
Proof. intros. unfold slice_from, len. rewrite length_drop. lia. Qed.

Lemma covers_spec base i s :
  covers base i s = true <-> seq_or_0 s - base <= i < seq_or_0 s - base + len (tp_payload s).
Proof. unfold covers. rewrite andb_true_iff, Z.leb_le, Z.ltb_lt. done. Qed.

Lemma first_cover_app base l1 l2 i :
  first_cover base (l1 ++ l2) i
  = match first_cover base l1 i with Some t => Some t | None => first_cover base l2 i end.
Proof.
  unfold first_cover. rewrite List.filter_app. by destruct (List.filter _ l1).
Qed.

Lemma first_cover_some base l i s :
  s ∈ l -> covers base i s = true -> is_Some (first_cover base l i).
Proof.
  intros Hs Hc. unfold first_cover. destruct (List.filter _ _) eqn:Hf; [|eauto]. exfalso.
  assert (H : In s (List.filter (covers base i) l)) by (apply filter_In; by rewrite <-list_elem_of_In).
  by rewrite Hf in H.
Qed.

Lemma first_cover_none base l i :
  (forall s, s ∈ l -> covers base i s = false) -> first_cover base l i = None.
Proof.
  intros H. unfold first_cover. destruct (List.filter _ _) as [|s l'] eqn:Hf; [done|]. exfalso.
  assert (Hs : In s (List.filter (covers base i) l)) by (rewrite Hf; by left).
  apply filter_In in Hs as [Hs Hc]. rewrite H in Hc; [done|by apply list_elem_of_In].
Qed.

Lemma reassembles_past base segments stream i s :
  reassembles base segments stream -> len stream <= i -> s ∈ segments -> covers base i s = false.
Proof.
  intros (Hin & _) Hi Hs. apply not_true_iff_false. rewrite covers_spec.
  destruct (Hin s Hs) as (_ & ? & _). lia.
Qed.

Lemma reassembles_snoc base segments stream s :
  reassembles base segments stream ->
  let p := seq_or_0 s - base in
  let suffix := slice_from (tp_payload s) (len stream - p) in
  0 <= p <= len stream -> in_stream (stream ++ suffix) p (tp_payload s) ->
  len stream + len suffix <= MAX_REASSEMBLED_FLOW_BYTES ->
  reassembles base (segments ++ [s]) (stream ++ suffix).
Proof.
  intros (Hin & Hcov & Hmax) p suffix Hp Hs Hb. split_and!.
  - intros s' [Hs'| ->%list_elem_of_singleton]%elem_of_app; [|done].
    by apply in_stream_app, Hin.
  - intros i Hi. rewrite len_app in Hi. destruct (Z_lt_ge_dec i (len stream)) as [Hlt|Hge].
    + destruct (Hcov i) as (s' & ? & ?); [lia|]. exists s'. rewrite elem_of_app. tauto.
    + exists s. rewrite elem_of_app, list_elem_of_singleton. split; [tauto|]. apply covers_spec.
      unfold suffix in Hi. rewrite suffix_len in Hi by lia. unfold p in *. lia.
  - by rewrite len_app.
Qed.

Lemma reassemble_step_sound base segments st s st' :
  reassembly_inv base segments st -> is_Some (tp_sequence s) -> base <= seq_or_0 s ->
  _reassemble_step base st s = Ok st' -> reassembly_inv base (segments ++ [s]) st'.
Proof.
  intros (Hre & Hc & Ht & Htimes) Hs Hb H. rewrite (reassemble_step_eq base st s) in H by done.
  res_inv H. subst st'. unfold beq in G0.
  apply negb_false_iff, bool_decide_eq_true in G0. apply Z.ltb_ge in G, G1.
  apply in_stream_extends in G0; [|lia].
  assert (Hnew := reassembles_snoc base segments (rs_stream st) s Hre ltac:(lia) G0 G1).
  set (suffix := slice_from _ _) in *. split_and!; cbn [rs_stream rs_cursor rs_timestamps].
  - done.
  - by rewrite len_app.
  - rewrite !len_app, Ht. f_equal. unfold len. by rewrite length_replicate.
  - intros i Hi. rewrite first_cover_app. destruct (Z_lt_ge_dec i (len (rs_stream st))) as [Hlt|Hge].
    + rewrite lookup_app_l by (unfold len in *; lia). rewrite Htimes by lia.
      destruct Hre as (_ & Hcov & _). destruct (Hcov i) as (s' & Hs' & Hcs); [lia|].
      by destruct (first_cover_some base segments i s' Hs' Hcs) as [t ->].
    + rewrite lookup_app_r by (unfold len in *; lia).
      rewrite (first_cover_none base segments) by (intros s' Hs'; apply (reassembles_past base segments (rs_stream st)); [done|lia|done]).
      rewrite len_app in Hi. unfold first_cover. cbn [List.filter].
      rewrite (proj2 (covers_spec base i s)).
      * apply lookup_replicate_2. unfold len in *. lia.
      * unfold suffix in Hi. rewrite suffix_len in Hi by lia. lia.
Qed.

Lemma reassemble_sound_gen base segments st todo st' :
  reassembly_inv base segments st -> ordered_from base todo ->
  fold_res (_reassemble_step base) st todo = Ok st' -> reassembly_inv base (segments ++ todo) st'.
Proof.
  revert segments st; induction todo as [|s todo IH]; intros segments st Hinv [Hall Hsort] H; cbn [fold_res] in H.
  - res_inv H. subst. by rewrite app_nil_r.
  - res_inv H. apply Forall_cons in Hall as [(? & ? & ?) Hall]. apply StronglySorted_inv in Hsort as [Hsort _].
    apply reassemble_step_sound with (segments := segments) in E; [|done..].
    rewrite cons_middle, app_assoc. by eapply IH.
Qed.

Lemma reassembly_inv_nil base :
  reassembly_inv base [] {| rs_stream := []; rs_timestamps := []; rs_cursor := base |}.
Proof.
  unfold reassembly_inv, reassembles. cbn [rs_stream rs_cursor rs_timestamps].
  change (len (@nil byte)) with 0. change (len (@nil Fraction)) with 0. unfold MAX_REASSEMBLED_FLOW_BYTES.
  split_and!; try done; try lia; [by intros s ?%elem_of_nil|intros i Hi; lia..].
Qed.

Lemma reassemble_sound base segments st :
  ordered_from base segments -> _reassemble base segments = Ok st -> reassembly_inv base segments st.
Proof. intros Ho H. apply (reassemble_sound_gen base [] _ segments st (reassembly_inv_nil base) Ho H). Qed.

(** The next segment of a gap-free flow starts within the bytes already read. *)
Lemma no_gap base segments s todo done_stream stream :
  reassembles base (segments ++ s :: todo) stream -> reassembles base segments done_stream ->
  ordered_from base (s :: todo) -> seq_or_0 s - base <= len done_stream.
Proof.
  intros Hall Hdone [Hf Hsort]. destruct (Z_le_gt_dec (seq_or_0 s - base) (len done_stream)) as [|Hgap]; [done|].
  exfalso. apply Forall_cons in Hf as [(_ & _ & Hn) _]. apply StronglySorted_inv in Hsort as [_ Hle].
  destruct Hall as (Hin & Hcov & _).
  destruct (Hin s) as (_ & Hend & _); [rewrite elem_of_app, elem_of_cons; tauto|].
  pose proof (len_nonneg done_stream).
  destruct (Hcov (len done_stream)) as (s' & Hs' & Hc); [lia|].
  rewrite elem_of_app, elem_of_cons in Hs'. destruct Hs' as [Hs'|[->|Hs']].
  - rewrite (reassembles_past base segments done_stream) in Hc; [done|done|lia|done].
  - apply covers_spec in Hc. lia.
  - apply covers_spec in Hc. rewrite Forall_forall in Hle. specialize (Hle s' Hs'). lia.
Qed.

Lemma extends_prefix stream done_stream rest p payload :
  stream = done_stream ++ rest -> 0 <= p <= len done_stream -> in_stream stream p payload ->
  exists rest', stream = (done_stream ++ slice_from payload (len done_stream - p)) ++ rest'.
Proof.
  intros -> Hp (_ & Hl & Hs). rewrite len_app in Hl. pose proof (len_nonneg payload).
  destruct (Z_le_gt_dec (p + len payload) (len done_stream)) as [Hc|Hc].
  - exists rest. replace (slice_from payload _) with (@nil byte).
    + by rewrite app_nil_r.
    + symmetry. apply len_0_nil. rewrite suffix_len; lia.
  - rewrite (slice_split _ p (len done_stream)) in Hs by lia. rewrite slice_app_l in Hs by lia.
    rewrite (slice_app_r done_stream) in Hs by lia. rewrite Z.sub_diag in Hs.
    exists (slice_from rest (p + len payload - len done_stream)).
    rewrite <-app_assoc. f_equal.
    rewrite <-(slice_from_0 rest), (slice_from_split rest 0 (p + len payload - len done_stream)) at 1 by lia.
    f_equal. symmetry. apply (slice_from_field payload (slice done_stream p (len done_stream))); [done|].
    rewrite slice_length; lia.
Qed.

Lemma reassemble_complete_gen base segments st todo stream rest :
  reassembly_inv base segments st -> ordered_from base todo -> reassembles base (segments ++ todo) stream ->
  stream = rs_stream st ++ rest -> exists st', fold_res (_reassemble_step base) st todo = Ok st' /\ rs_stream st' = stream.
Proof.
  revert segments st rest; induction todo as [|s todo IH]; intros segments st rest Hinv Ho Hall Hpre; cbn [fold_res].
  - exists st. split; [done|]. rewrite app_nil_r in Hall. destruct Hinv as (Hre & _). subst stream.
    destruct rest as [|b rest]; [by rewrite app_nil_r|]. exfalso.
    destruct Hall as (_ & Hcov & _). pose proof (len_nonneg (rs_stream st)). pose proof (len_nonneg rest).
    destruct (Hcov (len (rs_stream st))) as (s & Hs & Hc); [rewrite len_app, len_cons; lia|].
    rewrite (reassembles_past base segments (rs_stream st)) in Hc; [done|done|lia|done].
  - pose proof Hinv as (Hre & Hc & _). pose proof (no_gap _ _ _ _ _ _ Hall Hre Ho) as Hgap.
    destruct Ho as [Hf Hsort]. apply Forall_cons in Hf as [(Hseq & Hb & Hn) Hf].
    pose proof (StronglySorted_inv Hsort) as [Hsort' _].
    assert (Hs : in_stream stream (seq_or_0 s - base) (tp_payload s))
      by (destruct Hall as (Hin & _); apply Hin; rewrite elem_of_app, elem_of_cons; tauto).
    destruct (extends_prefix stream (rs_stream st) rest (seq_or_0 s - base) (tp_payload s)) as (rest' & Hpre');
      [done|lia|done|].
    assert (Hstep : exists st1, _reassemble_step base st s = Ok st1 /\
      rs_stream st1 = rs_stream st ++ slice_from (tp_payload s) (len (rs_stream st) - (seq_or_0 s - base))).
    { rewrite (reassemble_step_eq base st s) by done. cbv zeta.
      replace (_ <? _) with false by lia. rewrite Hpre in Hs. apply in_stream_overlap in Hs; [|lia].
      unfold beq. rewrite bool_decide_true by done. cbn [negb].
      destruct Hall as (_ & _ & Hmax). rewrite Hpre', !len_app in Hmax. pose proof (len_nonneg rest').
      replace (_ <? _) with false by (symmetry; apply Z.ltb_ge; lia). eauto. }
    destruct Hstep as (st1 & Hstep & Hst1). rewrite Hstep. cbn.
    apply (IH (segments ++ [s]) st1 rest').
    + by eapply reassemble_step_sound.
    + by split.
    + by rewrite <-app_assoc.
    + by rewrite Hst1.
Qed.

Lemma reassemble_complete base segments stream :
  ordered_from base segments -> reassembles base segments stream ->
  exists st, _reassemble base segments = Ok st /\ rs_stream st = stream.
Proof. intros Ho Hr. by apply (reassemble_complete_gen base [] _ segments stream stream (reassembly_inv_nil base)). Qed.

(** ** Windows of a flow *)

Definition has_payload (s : TransportPacket) : bool := negb (len (tp_payload s) =? 0).

Definition ordered_segments (segments : list TransportPacket) : list TransportPacket :=
  sorted_by segment_le (List.filter has_payload segments).

Definition base_of (ordered : list TransportPacket) : Z :=
  match ordered with [] => 0 | s :: _ => seq_or_0 s end.

(** What [_flow_token_windows] computes: the occurrences of the token in the
    reassembled stream, each with the capture times of its first and last byte. *)
Definition flow_windows_spec (token : bytes) (segments : list TransportPacket) (windows : list (Fraction * Fraction)) : Prop :=
  let ordered := ordered_segments segments in
  (ordered = [] /\ windows = []) \/
  (ordered <> [] /\ exists stream, reassembles (base_of ordered) ordered stream /\
    Forall2 (fun o w =>
      first_cover (base_of ordered) ordered o = Some (fst w) /\
      first_cover (base_of ordered) ordered (o + len token - 1) = Some (snd w))
      (occurrences_from stream token 0) windows).

Lemma ordered_segments_perm segments : Permutation (List.filter has_payload segments) (ordered_segments segments).
Proof. apply sorted_by_perm. Qed.

Lemma ordered_segments_in segments s :
  s ∈ ordered_segments segments <-> s ∈ segments /\ len (tp_payload s) <> 0.
Proof.
  rewrite <-ordered_segments_perm, list_elem_of_In, filter_In, <-list_elem_of_In.
  unfold has_payload. rewrite negb_true_iff, Z.eqb_neq. done.
Qed.

Lemma ordered_segments_ordered segments :
  Forall (fun s => is_Some (tp_sequence s)) segments ->
  ordered_from (base_of (ordered_segments segments)) (ordered_segments segments).
Proof.
  intros Hseq. assert (Hsort := sorted_by_sorted segment_le segment_le_total segment_le_trans
    (List.filter has_payload segments)). fold (ordered_segments segments) in Hsort.
  split.
  - apply Forall_forall. intros s Hs. rewrite Forall_forall in Hseq.
    pose proof (proj1 (ordered_segments_in segments s) Hs) as [Hin Hne]. pose proof (len_nonneg (tp_payload s)).
    split_and!; [by apply Hseq| |lia].
    destruct (ordered_segments segments) as [|s0 l]; [by apply elem_of_nil in Hs|]. cbn.
    apply elem_of_cons in Hs as [->|Hs]; [lia|].
    apply StronglySorted_inv in Hsort as [_ Hle]. rewrite Forall_forall in Hle.
    by apply segment_le_seq, Hle.
  - clear Hseq. induction Hsort as [|s l Hl IH Hs]; constructor; [done|].
    eapply Forall_impl; [exact Hs|]. intros s' Hs'. by apply segment_le_seq.
Qed.

Lemma py_index_lookup {A} (l : list A) i x :
  0 <= i -> py_index l i = Ok x <-> l !! Z.to_nat i = Some x.
Proof.
  intros Hi. unfold py_index. replace (i <? 0) with false by lia. replace (i <? 0) with false by lia.
  destruct (l !! Z.to_nat i); split; congruence.
Qed.

Lemma windows_of_offsets base segments st (token : bytes) offsets ws :
  reassembly_inv base segments st -> 0 < len token ->
  Forall (fun o => 0 <= o /\ o + len token <= len (rs_stream st)) offsets ->
  map_res (fun offset =>
    started_at ← py_index (rs_timestamps st) offset;
    ended_at ← py_index (rs_timestamps st) (offset + len token - 1);
    Ok (started_at, ended_at)) offsets = Ok ws <->
  Forall2 (fun o w => first_cover base segments o = Some (fst w) /\
                      first_cover base segments (o + len token - 1) = Some (snd w)) offsets ws.
Proof.
  intros (_ & _ & _ & Ht) Hlen Hoff. rewrite map_res_ok.
  assert (Hiff : forall o w, 0 <= o /\ o + len token <= len (rs_stream st) ->
    (started_at ← py_index (rs_timestamps st) o;
     ended_at ← py_index (rs_timestamps st) (o + len token - 1); Ok (started_at, ended_at)) = Ok w <->
    first_cover base segments o = Some (fst w) /\ first_cover base segments (o + len token - 1) = Some (snd w)).
  { intros o [w1 w2] Ho. cbn [fst snd]. rewrite <-!Ht by lia. rewrite <-!py_index_lookup by lia.
    destruct (py_index _ o) as [t1|]; cbn; [|naive_solver].
    destruct (py_index _ _) as [t2|]; cbn; naive_solver. }
  revert ws. induction Hoff as [|o offsets Ho Hoff IH]; intros ws.
  - split; intros H; inversion H; constructor.
  - split; intros H; inversion H as [|? w ? ws' Hw Hws]; subst; constructor.
    + by apply Hiff.
    + by apply IH.
    + by apply Hiff.
    + by apply IH.
Qed.

Lemma flow_token_windows_spec token segments ws :
  Forall (fun s => is_Some (tp_sequence s)) segments -> 0 < len token ->
  _flow_token_windows token segments = Ok ws <-> flow_windows_spec token segments ws.
Proof.
  intros Hseq Hlen. pose proof (ordered_segments_ordered segments Hseq) as Ho.
  unfold _flow_token_windows, flow_windows_spec. fold has_payload. fold (ordered_segments segments).
  destruct (ordered_segments segments) as [|s l] eqn:Hord.
  { split; [intros [= <-]; by left|intros [[_ ->]|[? _]]; done]. }
  assert (Hb : tp_sequence s = Some (base_of (s :: l))).
  { destruct Ho as [Hf _]. apply Forall_cons in Hf as [([q Hq] & _) _]. cbn. unfold seq_or_0. by rewrite Hq. }
  rewrite Hb. set (base := base_of (s :: l)) in *.
  assert (Hoff : forall st, Forall (fun o => 0 <= o /\ o + len token <= len (rs_stream st)) (occurrences_from (rs_stream st) token 0))
    by (intros st; apply Forall_forall; intros o (? & ? & _)%occurrences_from_in; done).
  split.
  - intros H. res_inv H. rename v into st, v0 into offsets. right. split; [done|]. exists (rs_stream st).
    pose proof (reassemble_sound base (s :: l) st Ho E) as Hinv.
    rewrite token_offsets_spec in E0. injection E0 as <-.
    split; [by destruct Hinv|]. by apply (windows_of_offsets base (s :: l) st token).
  - intros [[? _]|(_ & stream & Hre & Hws)]; [done|].
    destruct (reassemble_complete base (s :: l) stream Ho Hre) as (st & Hst & <-).
    rewrite Hst. cbn. rewrite token_offsets_spec. cbn.
    apply (windows_of_offsets base (s :: l) st token); try done. by apply reassemble_sound.
Qed.

Lemma of_flow_seq key packets :
  Forall (fun s => is_Some (tp_sequence s)) packets ->
  Forall (fun s => is_Some (tp_sequence s)) (of_flow key packets).
Proof.
  rewrite !List.Forall_forall. intros H s [Hs _]%filter_In. by apply H.
Qed.

Lemma tcp_token_windows_spec packets token windows :
  Forall (fun s => is_Some (tp_sequence s)) packets -> 0 < len token ->
  _tcp_token_windows packets token = Ok windows <->
  exists per_flow, windows = concat per_flow /\
    Forall2 (fun key ws => flow_windows_spec token (of_flow key packets) ws) (flow_keys packets) per_flow.
Proof.
  intros Hseq Hlen. unfold _tcp_token_windows. rewrite group_flows_spec.
  assert (Hiff : forall per_flow,
    map_res (fun flow => _flow_token_windows token (snd flow))
      (map (fun k => (k, of_flow k packets)) (flow_keys packets)) = Ok per_flow <->
    Forall2 (fun key ws => flow_windows_spec token (of_flow key packets) ws) (flow_keys packets) per_flow).
  { intros per_flow. rewrite map_res_ok. rewrite (Forall2_fmap_l (fun k => (k, of_flow k packets))). cbn.
    split; intros H; (eapply Forall2_impl; [exact H|]); intros key ws;
      apply flow_token_windows_spec; [by apply of_flow_seq|done|by apply of_flow_seq|done]. }
  split.
  - intros H. res_inv H. subst. exists v. split; [done|]. by apply Hiff.
  - intros (per_flow & -> & Hf). apply Hiff in Hf. by rewrite Hf.
Qed.

(** C35: [_tcp_token_windows] is exact.  Over packets that carry a sequence
    number and for a non-empty token it returns a list exactly when the list is
    the concatenation, over the flows in the order of their first packet, of
    the occurrences of the token in a byte stream that carries every non-empty
    segment of the flow at its sequence number, has no byte that no segment
    carries and is at most [MAX_REASSEMBLED_FLOW_BYTES] long; each occurrence
    is reported with the capture times of the segments that first carry, in
    sequence order, its first and its last byte.  A flow with a gap or with
    conflicting bytes has no such stream, and the function raises. *)
Theorem tcp_token_windows_exact packets token windows :
  Forall (fun s => is_Some (tp_sequence s)) packets -> 0 < len token ->
  _tcp_token_windows packets token = Ok windows <->
  exists per_flow, windows = concat per_flow /\
    Forall2 (fun key ws => flow_windows_spec token (of_flow key packets) ws) (flow_keys packets) per_flow.
Proof. apply tcp_token_windows_spec. Qed.

(** ** Retransmissions *)

Section Extra.
Context {A : Type} (le : A -> A -> bool).
Hypothesis le_total : forall x y, le x y = false -> le y x = true.
Hypothesis le_trans : forall x y z, le x y = true -> le y z = true -> le x z = true.

Lemma insert_stable_extra y a x b :
  StronglySorted (fun a b => le a b = true) (a ++ x :: b) ->
  exists a' b', insert_stable le y (a ++ x :: b) = a' ++ x :: b' /\
    insert_stable le y (a ++ b) = a' ++ b' /\ (forall z, z ∈ a -> z ∈ a') /\ (le y x = true -> y ∈ a').
Proof.
  induction a as [|z a IH]; cbn [app insert_stable]; intros [Hs Hf]%StronglySorted_inv.
  - destruct (le y x) eqn:Hyx.
    + exists [y], b. split_and!; [done| |intros z Hz; by apply elem_of_nil in Hz|intros _; by apply list_elem_of_singleton].
      destruct Hf as [|w b Hw Hf]; cbn [insert_stable]; [done|]. by rewrite (le_trans y x w).
    + exists [], (insert_stable le y b). by split_and!.
  - destruct (le y z).
    + exists (y :: z :: a), b. split_and!; try done; intros; rewrite !elem_of_cons in *; tauto.
    + destruct IH as (a' & b' & -> & -> & Ha & Hy); [done|]. exists (z :: a'), b'. split_and!; try done.
      * intros w. rewrite !elem_of_cons. naive_solver.
      * intros Hyx. rewrite elem_of_cons. tauto.
Qed.

(** Sorting with one more element puts it after every smaller element that
    precedes it in the input. *)
Lemma sorted_by_extra (l1 : list A) (x : A) (l2 : list A) :
  exists a b, sorted_by le (l1 ++ x :: l2) = a ++ x :: b /\ sorted_by le (l1 ++ l2) = a ++ b /\
    forall y, y ∈ l1 -> le y x = true -> y ∈ a.
Proof.
  induction l1 as [|y l1 (a & b & H1 & H2 & H3)].
  - cbn. fold (sorted_by le l2). induction (sorted_by le l2) as [|z l (a & b & Hx & Hl & _)]; cbn [insert_stable].
    + exists [], []. split_and!; try done; by intros y ?%elem_of_nil.
    + destruct (le x z); [exists [], (z :: l); split_and!; try done; by intros y ?%elem_of_nil|].
      rewrite Hx. exists (z :: a), b. cbn. rewrite Hl at 1.
      split_and!; try done; by intros y ?%elem_of_nil.
  - pose proof (sorted_by_sorted le le_total le_trans (l1 ++ x :: l2)) as Hs. rewrite H1 in Hs.
    cbn [app].
    change (sorted_by le (y :: l1 ++ l2)) with (insert_stable le y (sorted_by le (l1 ++ l2))).
    change (sorted_by le (y :: l1 ++ x :: l2)) with (insert_stable le y (sorted_by le (l1 ++ x :: l2))).
    rewrite H1, H2.
    destruct (insert_stable_extra y a x b Hs) as (a' & b' & -> & -> & Ha & Hy).
    exists a', b'. split_and!; try done.
    intros z [->|Hz]%elem_of_cons Hzx; [by apply Hy|by apply Ha, H3].
Qed.
End Extra.

Lemma reassembles_repeat base a x b y stream :
  y ∈ a -> seq_or_0 x = seq_or_0 y -> tp_payload x = tp_payload y ->
  reassembles base (a ++ x :: b) stream <-> reassembles base (a ++ b) stream.
Proof.
  intros Hy Hs Hp.
  assert (Hin : forall s, s ∈ a ++ x :: b -> s = x \/ s ∈ a ++ b)
    by (intros s; rewrite !elem_of_app, elem_of_cons; tauto).
  assert (Hin' : forall s, s ∈ a ++ b -> s ∈ a ++ x :: b)
    by (intros s; rewrite !elem_of_app, elem_of_cons; tauto).
  assert (Hya : y ∈ a ++ b) by (rewrite elem_of_app; tauto).
  unfold reassembles. split; intros (H1 & H2 & H3); split_and!; try done.
  - intros s Hs'. by apply H1, Hin'.
  - intros i Hi. destruct (H2 i Hi) as (s & [->|?]%Hin & Hc); [|by exists s].
    exists y. split; [done|]. unfold covers in *. by rewrite Hs, Hp in Hc.
  - intros s [->|?]%Hin; [|by apply H1]. rewrite Hs, Hp. by apply H1.
  - intros i Hi. destruct (H2 i Hi) as (s & ? & Hc). exists s. split; [by apply Hin'|done].
Qed.

Lemma first_cover_repeat base a x b y i :
  y ∈ a -> seq_or_0 x = seq_or_0 y -> tp_payload x = tp_payload y ->
  first_cover base (a ++ x :: b) i = first_cover base (a ++ b) i.
Proof.
  intros Hy Hs Hp. rewrite cons_middle, !first_cover_app.
  destruct (first_cover base a i) as [t|] eqn:Ha; [done|].
  assert (Hc : covers base i x = false).
  { apply not_true_iff_false. intros Hc. assert (Hc' : covers base i y = true)
      by (unfold covers in *; by rewrite <-Hs, <-Hp).
    destruct (first_cover_some base a i y Hy Hc') as [t Ht]. congruence. }
  unfold first_cover at 1. cbn [List.filter]. by rewrite Hc.
Qed.

Lemma flow_windows_repeat token l1 x l2 y ws :
  y ∈ l1 -> seq_or_0 x = seq_or_0 y -> tp_payload x = tp_payload y -> fle (tp_timestamp y) (tp_timestamp x) = true ->
  flow_windows_spec token (l1 ++ x :: l2) ws <-> flow_windows_spec token (l1 ++ l2) ws.
Proof.
  intros Hy Hs Hp Ht. unfold flow_windows_spec, ordered_segments. rewrite !List.filter_app. cbn [List.filter].
  destruct (has_payload x) eqn:Hx; [|done].
  destruct (sorted_by_extra segment_le segment_le_total segment_le_trans (List.filter has_payload l1) x
    (List.filter has_payload l2)) as (a & b & -> & -> & Ha).
  assert (Hya : y ∈ a).
  { apply Ha.
    - rewrite list_elem_of_In. apply filter_In. rewrite <-list_elem_of_In. split; [done|].
      unfold has_payload in *. by rewrite <-Hp.
    - unfold segment_le. rewrite Hs, Z.eqb_refl, Ht. by rewrite orb_true_r. }
  assert (Hbase : base_of (a ++ x :: b) = base_of (a ++ b)) by (destruct a; [by apply elem_of_nil in Hya|done]).
  rewrite Hbase. setoid_rewrite (reassembles_repeat _ a x b y); [|done..].
  assert (Hne : a ++ x :: b <> [] /\ a ++ b <> []) by (destruct a; [by apply elem_of_nil in Hya|done]).
  destruct Hne as [Hne1 Hne2].
  assert (Hfc : forall i, first_cover (base_of (a ++ b)) (a ++ x :: b) i = first_cover (base_of (a ++ b)) (a ++ b) i)
    by (intros i; by apply (first_cover_repeat _ a x b y)).
  split; (intros [[? _]|(_ & stream & Hre & Hws)]; [done|]; right; split; [done|]; exists stream; split; [done|];
    (eapply Forall2_impl; [exact Hws|]); intros o w; cbn; by rewrite !Hfc).
Qed.

Lemma flow_keys_repeat l1 x l2 y :
  y ∈ l1 -> flow_key x = flow_key y -> flow_keys (l1 ++ x :: l2) = flow_keys (l1 ++ l2).
Proof.
  intros Hy Hk. unfold flow_keys. rewrite !foldl_app. cbn [foldl].
  fold (flow_keys l1). unfold add_key at 2. rewrite bool_decide_true; [done|].
  apply flow_keys_spec. by exists y.
Qed.

(** A retransmission moves no window.  Removing from a capture a packet that
    repeats, on the same flow and at the same sequence number, the payload of an
    earlier packet with an earlier or equal timestamp changes neither whether
    [_tcp_token_windows] succeeds nor the windows it returns. *)
Theorem tcp_retransmission_moves_no_window before repeated after original token windows :
  Forall (fun s => is_Some (tp_sequence s)) (before ++ repeated :: after) -> 0 < len token ->
  original ∈ before -> flow_key repeated = flow_key original ->
  tp_sequence repeated = tp_sequence original -> tp_payload repeated = tp_payload original ->
  fle (tp_timestamp original) (tp_timestamp repeated) = true ->
  _tcp_token_windows (before ++ repeated :: after) token = Ok windows <->
  _tcp_token_windows (before ++ after) token = Ok windows.
Proof.
  intros Hseq Hlen Hin Hk Hs Hp Ht.
  assert (Hseq' : Forall (fun s => is_Some (tp_sequence s)) (before ++ after))
    by (rewrite Forall_app, Forall_cons in Hseq; rewrite Forall_app; tauto).
  rewrite !tcp_token_windows_spec by done. rewrite (flow_keys_repeat before repeated after original) by done.
  apply exist_proper; intros per_flow. apply and_iff_compat_l.
  assert (Hflow : forall key ws, flow_windows_spec token (of_flow key (before ++ repeated :: after)) ws <->
                                 flow_windows_spec token (of_flow key (before ++ after)) ws).
  { intros key ws. unfold of_flow. rewrite !List.filter_app. cbn [List.filter].
    case_bool_decide as Hkey; [|done]. apply (flow_windows_repeat token _ repeated _ original); try done.
    - rewrite list_elem_of_In, filter_In, <-list_elem_of_In. split; [done|].
      apply bool_decide_eq_true. by rewrite <-Hk.
    - unfold seq_or_0. by rewrite Hs. }
  split; intros H; (eapply Forall2_impl; [exact H|]); intros key ws; apply Hflow.
Qed.

(** ** Only the module's own exception *)

Lemma reassemble_step_lens base st s st' :
  len (rs_timestamps st) = len (rs_stream st) -> _reassemble_step base st s = Ok st' ->
  len (rs_timestamps st') = len (rs_stream st').
Proof.
  intros Hl H. unfold _reassemble_step in H. destruct (tp_sequence s) as [q|]; [|done].
  res_inv H. subst st'. cbn [rs_timestamps rs_stream]. rewrite !len_app, Hl. f_equal.
  unfold len. by rewrite length_replicate.
Qed.

Lemma reassemble_lens base st segments st' :
  len (rs_timestamps st) = len (rs_stream st) -> fold_res (_reassemble_step base) st segments = Ok st' ->
  len (rs_timestamps st') = len (rs_stream st').
Proof.
  revert st; induction segments as [|s segments IH]; intros st Hl H; cbn [fold_res] in H; res_inv H; [by subst|].
  apply reassemble_step_lens in E; [|done]. by apply IH in H.
Qed.

Lemma reassemble_safe base st segments : safe (fold_res (_reassemble_step base) st segments).
Proof.
  revert st; induction segments as [|s segments IH]; intros st; cbn [fold_res]; [done|].
  apply safe_bind; [|intros; apply IH]. unfold _reassemble_step. destruct (tp_sequence s); safe_auto.
Qed.

Lemma flow_token_windows_safe token segments : 0 < len token -> safe (_flow_token_windows token segments).
Proof.
  intros Hlen. unfold _flow_token_windows. destruct (sorted_by _ _) as [|s l]; [done|].
  destruct (tp_sequence s) as [base|]; [|done]. unfold _reassemble.
  apply safe_bind; [apply reassemble_safe|]. intros st Hst. apply reassemble_lens in Hst; [|done].
  rewrite token_offsets_spec. cbn [mbind result_bind].
  assert (Hoff : Forall (fun o => 0 <= o /\ o + len token <= len (rs_stream st)) (occurrences_from (rs_stream st) token 0))
    by (apply Forall_forall; intros o (? & ? & _)%occurrences_from_in; done).
  induction Hoff as [|o offsets Ho Hoff IH]; cbn [map_res]; [exact I|].
  destruct (py_index_ok (rs_timestamps st) o) as (t1 & -> & _); [lia|]. cbn.
  destruct (py_index_ok (rs_timestamps st) (o + len token - 1)) as (t2 & -> & _); [lia|]. cbn.
  apply safe_bind; [exact IH|intros; exact I].
Qed.

Lemma map_res_safe_in {A B} (f : A -> res B) l : (forall a, a ∈ l -> safe (f a)) -> safe (map_res f l).
Proof.
  induction l as [|a l IH]; intros Hf; cbn [map_res]; [done|].
  apply safe_bind; [apply Hf, elem_of_cons; by left|]. intros b _.
  apply safe_bind; [|intros; exact I]. apply IH. intros x Hx. apply Hf, elem_of_cons. by right.
Qed.

Lemma tcp_token_windows_safe packets token : 0 < len token -> safe (_tcp_token_windows packets token).
Proof.
  intros Hlen. unfold _tcp_token_windows. apply safe_bind; [|intros; exact I].
  apply map_res_safe_in. intros flow _. by apply flow_token_windows_safe.
Qed.

(** ** A flow captured out of order, with a repeated segment *)

Definition sample_segment (sequence : Z) (ms : Z) (payload : string) : TransportPacket := {|
  tp_timestamp := fraction ms 1000; tp_family := "ipv4"; tp_source := "192.0.2.1"; tp_destination := "192.0.2.2";
  tp_source_port := 40000; tp_destination_port := 80; tp_protocol := "tcp"; tp_payload := bstr payload;
  tp_sequence := Some sequence; tp_link_type := 1; tp_interface_id := 0 |}.

Definition sample_flow_packets : list TransportPacket :=
  [sample_segment 104 20 "ken!"; sample_segment 100 10 "a to"].
Definition sample_repeat : TransportPacket := sample_segment 100 30 "a to".

Lemma tcp_token_windows_exact_witness :
  exists per_flow, [(fraction 10 1000, fraction 20 1000)] = concat per_flow /\
    Forall2 (fun key ws => flow_windows_spec (bstr "token") (of_flow key sample_flow_packets) ws)
      (flow_keys sample_flow_packets) per_flow.
Proof.
  apply (proj1 (tcp_token_windows_exact sample_flow_packets (bstr "token") [(fraction 10 1000, fraction 20 1000)]
    ltac:(repeat constructor; eexists; reflexivity) ltac:(reflexivity))).
  vm_compute. reflexivity.
Defined.

Lemma tcp_retransmission_moves_no_window_witness :
  _tcp_token_windows (sample_flow_packets ++ sample_repeat :: []) (bstr "token") = Ok [(fraction 10 1000, fraction 20 1000)].
Proof.
  apply (tcp_retransmission_moves_no_window sample_flow_packets sample_repeat []
    (sample_segment 100 10 "a to") (bstr "token")).
  - repeat constructor; eexists; reflexivity.
  - reflexivity.
  - right. left.
  - reflexivity.
  - reflexivity.
  - reflexivity.
  - reflexivity.
  - vm_compute. reflexivity.
Defined.
