(* ===== verification/Dns.v ===== *)
(** * DNS evidence

    [_dns_name], [_dns_message], [_dns_response_for_token],
    [_dns_leg_messages], [_dns_exchange] and [_dns_exchanges] of
    [scripts/harness/packet_capture.py]. *)

From S2P Require Import Prelude PacketTypes IpAddress PacketDecode PacketFrames.

(** ** Names *)

(** [str.lower] on ASCII text. *)
Definition lower_char (c : ascii) : ascii :=
  let n := Z.of_N (N_of_ascii c) in
  if (65 <=? n) && (n <=? 90) then ascii_of_N (Z.to_N (n + 32)) else c.
Fixpoint lower (s : string) : string :=
  match s with EmptyString => EmptyString | String c s => String (lower_char c) (lower s) end.

(** The loop of [_dns_name].  [next_offset] of the source is never assigned, so
    the returned offset is the one after the terminator or the pointer.  [follow]
    is the recursive call on a compression pointer. *)
Fixpoint _dns_name_loop (follow : Z -> res (string * Z)) (fuel : nat) (data : bytes) (offset : Z)
    (labels : list string) (seen : list Z) : res (string * Z) :=
  match fuel with
  | O => Err OutOfFuel
  | S fuel =>
    raise_if (len data <=? offset) || zmem offset seen
      with PacketCaptureError "DNS name is truncated or cyclic" ;;
    let seen := offset :: seen in
    length ← u8 data offset;
    if length =? 0 then Ok (join_with "." labels, offset + 1)
    else if Z.land length 0xC0 =? 0xC0 then
      raise_if len data <? offset + 2
        with PacketCaptureError "DNS compression pointer is truncated" ;;
      low ← u8 data (offset + 1);
      let pointer := Z.lor (Z.shiftl (Z.land length 0x3F) 8) low in
      '(suffix, _) ← follow pointer;
      let labels := labels ++ (if seq_ suffix "" then [] else split_on "." suffix) in
      Ok (join_with "." labels, offset + 2)
    else
      raise_if (63 <? length) || (len data <? offset + 1 + length)
        with PacketCaptureError "DNS label is malformed" ;;
      let raw := slice data (offset + 1) (offset + 1 + length) in
      raise_if negb (is_ascii raw) with PacketCaptureError "DNS label is not ASCII" ;;
      let label := str_of_bytes raw in
      raise_if seq_ label "" || (32 <=? len labels)
        with PacketCaptureError "DNS name exceeds the accepted bounds" ;;
      _dns_name_loop follow fuel data (offset + 1 + length) (labels ++ [lower label]) seen
  end.

(** A name has at most 32 labels before its terminator or pointer, so the loop
    runs at most 34 times; the depth is at most 9, so ten nested calls. *)
Definition DNS_NAME_FUEL : nat := 34.
Definition DNS_NAME_CALLS : nat := 10.

Fixpoint _dns_name_at (calls : nat) (data : bytes) (offset depth : Z) : res (string * Z) :=
  match calls with
  | O => Err OutOfFuel
  | S calls =>
    raise_if 8 <? depth with PacketCaptureError "DNS compression depth exceeds the bound" ;;
    _dns_name_loop (fun pointer => _dns_name_at calls data pointer (depth + 1)) DNS_NAME_FUEL data offset [] []
  end.

Definition _dns_name (data : bytes) (offset : Z) : res (string * Z) :=
  _dns_name_at DNS_NAME_CALLS data offset 0.

(** ** Messages *)

Definition _dns_message (data : bytes) (family : string) : res DnsMessage :=
  raise_if len data <? 12 with PacketCaptureError "DNS header is truncated" ;;
  identifier ← unpack BigEndian 2 data 0;
  flags ← unpack BigEndian 2 data 2;
  questions ← unpack BigEndian 2 data 4;
  answers ← unpack BigEndian 2 data 6;
  authority ← unpack BigEndian 2 data 8;
  additional ← unpack BigEndian 2 data 10;
  let expected_type := if seq_ family "ipv4" then 1 else 28 in
  '(question_name, offset) ← _dns_name data 12;
  raise_if len data <? offset + 4 with PacketCaptureError "DNS question is truncated" ;;
  question_type ← unpack BigEndian 2 data offset;
  question_class ← unpack BigEndian 2 data (offset + 2);
  let offset := offset + 4 in
  raise_if negb (question_type =? expected_type) || negb (question_class =? 1)
    with PacketCaptureError "DNS message does not contain the required A/AAAA question" ;;
  let recursion_desired := negb (Z.land flags DNS_FLAG_RECURSION_DESIRED =? 0) in
  let fixed_flags := Z.land flags (Z.lnot DNS_FLAG_RECURSION_DESIRED) in
  let counts_are a b c d :=
    (questions =? a) && (answers =? b) && (authority =? c) && (additional =? d) in
  if (fixed_flags =? DNS_QUERY_FLAGS) && counts_are 1 0 0 0 then
    raise_if negb (offset =? len data) with PacketCaptureError "DNS query has trailing records or bytes" ;;
    Ok {| dm_identifier := identifier; dm_is_response := false; dm_question_name := question_name;
          dm_question_type := question_type; dm_answer_address := None;
          dm_recursion_desired := recursion_desired |}
  else
    raise_if negb (fixed_flags =? DNS_AUTHORITATIVE_RESPONSE_FLAGS) || negb (counts_are 1 1 0 0)
      with PacketCaptureError "DNS response is not exact authoritative non-recursive data" ;;
    '(answer_name, offset) ← _dns_name data offset;
    raise_if len data <? offset + 10 with PacketCaptureError "DNS answer header is truncated" ;;
    record_type ← unpack BigEndian 2 data offset;
    record_class ← unpack BigEndian 2 data (offset + 2);
    ttl ← unpack BigEndian 4 data (offset + 4);
    length ← unpack BigEndian 2 data (offset + 8);
    let offset := offset + 10 in
    let expected_length := if seq_ family "ipv4" then 4 else 16 in
    raise_if negb (seq_ answer_name question_name) || negb (record_type =? expected_type)
             || negb (record_class =? 1) || negb (ttl =? DNS_TTL)
             || negb (length =? expected_length) || negb (offset + length =? len data)
      with PacketCaptureError "DNS answer owner/type/class/TTL/length differs" ;;
    match str_ip_address (slice data offset (offset + length)) with
    | Err (ValueError _) => Err (PacketCaptureError "DNS answer address is invalid")
    | Err e => Err e
    | Ok answer_address =>
      let expected_answer := if seq_ family "ipv4" then DNS_A_ADDRESS else DNS_AAAA_ADDRESS in
      raise_if negb (seq_ answer_address expected_answer)
        with PacketCaptureError "DNS answer address differs from the fixed contract" ;;
      Ok {| dm_identifier := identifier; dm_is_response := true; dm_question_name := question_name;
            dm_question_type := question_type; dm_answer_address := Some answer_address;
            dm_recursion_desired := recursion_desired |}
    end.

(** ** Transactions *)

(** [f"{token.decode('ascii').lower()}.evidence.test"]. *)
Definition evidence_name (token : bytes) : res string :=
  text ← decode_ascii token;
  Ok (lower text +:+ ".evidence.test")%string.

Abbreviation DnsPacket := (TransportPacket * DnsMessage)%type.

(** One iteration of the packet loop of [_dns_response_for_token]. *)
Definition _dns_response_step (family question_family expected_name : string)
    (acc : list DnsPacket * list DnsPacket) (packet : TransportPacket) : res (list DnsPacket * list DnsPacket) :=
  let (queries, responses) := acc in
  if negb (seq_ (tp_family packet) family) || negb (seq_ (tp_protocol packet) "udp") then Ok acc
  else
    message ← _dns_message (tp_payload packet) question_family;
    if negb (seq_ (dm_question_name message) expected_name) then Ok acc
    else if dm_is_response message then
      raise_if negb (tp_source_port packet =? 53)
        with PacketCaptureError "DNS response direction/port is invalid" ;;
      Ok (queries, responses ++ [(packet, message)])
    else
      raise_if negb (tp_destination_port packet =? 53)
        with PacketCaptureError "DNS query direction/port is invalid" ;;
      Ok (queries ++ [(packet, message)], responses).

Definition is_none {A} (o : option A) : bool := match o with None => true | Some _ => false end.

Definition _dns_response_for_token (packets : list TransportPacket) (family : string) (token : bytes)
    (question_family : string) : res (Fraction * Fraction * bytes) :=
  expected_name ← evidence_name token;
  '(queries, responses) ← fold_res (_dns_response_step family question_family expected_name) ([], []) packets;
  match queries, responses with
  | [(query_packet, query)], [(response_packet, response)] =>
    raise_if negb (dm_identifier query =? dm_identifier response)
             || negb (dm_question_type query =? dm_question_type response)
             || negb (Bool.eqb (dm_recursion_desired query) (dm_recursion_desired response))
             || is_none (dm_answer_address response)
             || fle (tp_timestamp response_packet) (tp_timestamp query_packet)
      with PacketCaptureError "DNS query/response transaction is not causal and exact" ;;
    Ok (tp_timestamp query_packet, tp_timestamp response_packet, tp_payload response_packet)
  | _, _ => Err (PacketCaptureError "DNS token must have exactly one query and one authoritative response")
  end.

Definition _identical_retransmissions (retransmissions : RetransmissionPolicy) (protocol : string)
    (dns_resolver_legs : option (list DnsResolverLeg)) : res bool :=
  match retransmissions with
  | EXACT => Ok false
  | IDENTICAL_RETRANSMISSIONS =>
    if seq_ protocol "tcp" || (seq_ protocol "dns" && negb (is_none dns_resolver_legs)) then Ok true
    else Err (TypeError "identical retransmissions are defined only for DNS over resolver legs and TCP")
  end.

(** A dictionary with string keys, in insertion order. *)
Fixpoint dict_get {A} (d : list (string * A)) (k : string) : option A :=
  match d with [] => None | (k', v) :: d => if seq_ k' k then Some v else dict_get d k end.

(** One record of [_dns_leg_messages]. *)
Definition _dns_leg_message (legs : list (string * DnsResolverLeg)) (question_family : string)
    (packet : TransportPacket) : res DnsPacket :=
  let outside := PacketCaptureError "DNS capture record is outside the resolver legs" in
  if negb (seq_ (tp_protocol packet) "udp") then Err outside
  else match dict_get legs (tp_family packet) with
  | None => Err outside
  | Some leg =>
    let query := seq_ (tp_source packet) (leg_client_address leg)
                 && seq_ (tp_destination packet) (leg_resolver_address leg)
                 && (tp_destination_port packet =? 53) in
    let answer := seq_ (tp_source packet) (leg_resolver_address leg)
                  && (tp_source_port packet =? 53)
                  && seq_ (tp_destination packet) (leg_client_address leg) in
    raise_if negb query && negb answer with outside ;;
    message ← _dns_message (tp_payload packet) question_family;
    raise_if negb (Bool.eqb (dm_is_response message) answer)
      with PacketCaptureError "DNS message direction differs from its resolver leg" ;;
    Ok (packet, message)
  end.

Definition _dns_leg_messages (transports : list TransportPacket) (legs : list (string * DnsResolverLeg))
    (question_family : string) : res (list DnsPacket) :=
  map_res (_dns_leg_message legs question_family) transports.

(** The query of [queries] that [answer] answers: same ID, mirrored leg and
    client port, strictly earlier. *)
Definition answers_query (answer : TransportPacket) (message : DnsMessage) (q : DnsPacket) : bool :=
  let (query, query_message) := q in
  (dm_identifier query_message =? dm_identifier message)
  && seq_ (tp_source query) (tp_destination answer)
  && (tp_source_port query =? tp_destination_port answer)
  && seq_ (tp_destination query) (tp_source answer)
  && flt (tp_timestamp query) (tp_timestamp answer).

(** One iteration of the pairing loop of [_dns_exchange]. *)
Definition _dns_pair_step (queries : list DnsPacket) (first_message : DnsMessage)
    (pairs : list (TransportPacket * TransportPacket)) (m : DnsPacket)
    : res (list (TransportPacket * TransportPacket)) :=
  let (answer, message) := m in
  if negb (dm_is_response message) then Ok pairs
  else
    match List.filter (answers_query answer message) queries with
    | [] => Err (PacketCaptureError "DNS answer does not answer an earlier query of its token")
    | (asked, _) :: _ =>
      raise_if negb (Bool.eqb (dm_recursion_desired message) (dm_recursion_desired first_message))
        with PacketCaptureError "DNS query/response transaction is not causal and exact" ;;
      Ok (pairs ++ [(asked, answer)])
    end.

(** [min(..., key=...)]: the first element with the least key. *)
Fixpoint min_by {A} (key : A -> Fraction) (best : A) (l : list A) : A :=
  match l with
  | [] => best
  | x :: l => min_by key (if flt (key x) (key best) then x else best) l
  end.

Definition is_query (m : DnsPacket) : bool := negb (dm_is_response (snd m)).
Definition is_answer (m : DnsPacket) : bool := dm_is_response (snd m).

(** [any(packet.payload[2:] != first.payload[2:] for packet in ...)], false on
    an empty list. *)
Definition differs_beyond_id (l : list DnsPacket) : bool :=
  match l with
  | [] => false
  | first :: _ =>
      existsb (fun m => negb (beq (slice_from (tp_payload (fst m)) 2) (slice_from (tp_payload (fst first)) 2))) l
  end.

Definition _dns_exchange (messages : list DnsPacket) (token : bytes) : res DnsExchange :=
  name ← evidence_name token;
  let named := List.filter (fun m => seq_ (dm_question_name (snd m)) name) messages in
  let queries := List.filter is_query named in
  let answers := List.filter is_answer named in
  match queries with
  | [] => Err (PacketCaptureError "DNS token has no exact query")
  | (first_query, first_message) :: _ =>
    raise_if differs_beyond_id queries
      with PacketCaptureError "DNS token queries differ beyond their ID" ;;
    raise_if differs_beyond_id answers
      with PacketCaptureError "DNS token answers differ beyond their ID" ;;
    pairs ← fold_res (_dns_pair_step queries first_message) [] named;
    match pairs with
    | [] => Err (PacketCaptureError "DNS token has no answered query")
    | first_pair :: rest =>
      let (query, answer) := min_by (fun pair => tp_timestamp (snd pair)) first_pair rest in
      Ok {| dx_query := query; dx_answer := answer; dx_records := map fst named |}
    end
  end.

Definition Tokens : Type := bytes * bytes * bytes.

Definition _dns_exchanges (transports : list TransportPacket) (legs : list (string * DnsResolverLeg))
    (question_family : string) (tokens : Tokens) : res (DnsExchange * DnsExchange * DnsExchange) :=
  let '(start_token, target_token, end_token) := tokens in
  messages ← _dns_leg_messages transports legs question_family;
  start_name ← evidence_name start_token;
  target_name ← evidence_name target_token;
  end_name ← evidence_name end_token;
  let names := [start_name; target_name; end_name] in
  raise_if existsb (fun m => negb (existsb (seq_ (dm_question_name (snd m))) names)) messages
    with PacketCaptureError "DNS capture record names no evidence token" ;;
  start ← _dns_exchange messages start_token;
  target ← _dns_exchange messages target_token;
  end_ ← _dns_exchange messages end_token;
  Ok (start, target, end_).

(** ** Safety *)

Lemma dns_name_loop_safe follow fuel data offset labels seen :
  (forall pointer, 0 <= pointer -> safe (follow pointer)) ->
  0 <= offset -> 33 - len labels <= Z.of_nat fuel -> len labels <= 32 ->
  safe (_dns_name_loop follow fuel data offset labels seen).
Proof.
  intros Hfollow. revert offset labels seen; induction fuel as [|fuel IH]; intros offset labels seen Ho Hf Hl; [lia|].
  cbn [_dns_name_loop]. safe_auto; read_facts.
  - apply Hfollow. apply Z.lor_nonneg. split; [|lia]. apply Z.shiftl_nonneg, Z.land_nonneg. lia.
  - apply IH; rewrite ?len_app, ?len_cons, ?len_nil; lia.
Qed.

Lemma dns_name_at_safe calls data offset depth :
  0 <= offset -> 10 - depth <= Z.of_nat calls -> 0 <= depth <= 9 -> safe (_dns_name_at calls data offset depth).
Proof.
  revert offset depth; induction calls as [|calls IH]; intros offset depth Ho Hc Hd; [lia|].
  cbn [_dns_name_at]. safe_auto. apply dns_name_loop_safe; try done.
  intros pointer Hp. apply IH; lia.
Qed.

Lemma dns_name_safe data offset : 0 <= offset -> safe (_dns_name data offset).
Proof. intros. unfold _dns_name, DNS_NAME_CALLS. apply dns_name_at_safe; lia. Qed.

(** A name ends inside the message. *)
Lemma dns_name_loop_bounds follow fuel data offset labels seen name next :
  _dns_name_loop follow fuel data offset labels seen = Ok (name, next) -> 0 <= offset ->
  offset < next <= len data.
Proof.
  revert offset labels seen; induction fuel as [|fuel IH]; intros offset labels seen H Ho; [done|].
  cbn [_dns_name_loop] in H. res_inv H. read_facts.
  destruct (v =? 0); [res_inv H; simplify_eq; lia|].
  destruct (Z.land v 192 =? 192).
  - res_inv H. simplify_eq. lia.
  - res_inv H. apply IH in H; lia.
Qed.

Lemma dns_name_bounds data offset name next :
  _dns_name data offset = Ok (name, next) -> 0 <= offset -> offset < next <= len data.
Proof.
  unfold _dns_name, DNS_NAME_CALLS. cbn [_dns_name_at]. intros H Ho. res_inv H.
  by eapply dns_name_loop_bounds.
Qed.

Lemma dns_message_safe data family : safe (_dns_message data family).
Proof.
  unfold _dns_message. safe_auto; read_facts;
    try (match goal with H : _dns_name data 12 = Ok _ |- _ => apply dns_name_bounds in H; [|lia] end);
    try lia; [by apply dns_name_safe|apply dns_name_safe; lia| ..];
    try (match goal with H : _dns_name data (_ + 4) = Ok _ |- _ => apply dns_name_bounds in H; [|lia] end);
    try lia.
  match goal with |- context [str_ip_address ?l] =>
    assert (Hs : safe (str_ip_address l))
      by (apply str_ip_address_safe; rewrite slice_length by lia; destruct (seq_ family "ipv4"); lia);
    destruct (str_ip_address l) as [addr|[]]; try done
  end.
  safe_auto.
Qed.

Lemma evidence_name_safe token : is_ascii token = true -> safe (evidence_name token).
Proof. intros H. unfold evidence_name, decode_ascii. by rewrite H. Qed.

Lemma fold_res_safe {A B} (f : B -> A -> res B) l : (forall b a, safe (f b a)) -> forall acc, safe (fold_res f acc l).
Proof. intros Hf. induction l as [|a l IH]; intros acc; cbn [fold_res]; [done|]. apply safe_bind; auto. Qed.

Lemma dns_response_for_token_safe packets family token question_family :
  is_ascii token = true -> safe (_dns_response_for_token packets family token question_family).
Proof.
  intros Ht. unfold _dns_response_for_token. apply safe_bind; [by apply evidence_name_safe|]. intros name _.
  apply safe_bind.
  - apply fold_res_safe. intros [queries responses] packet. unfold _dns_response_step.
    safe_auto. apply dns_message_safe.
  - intros [queries responses] _. destruct queries as [|[] []], responses as [|[] []]; try exact I. safe_auto.
Qed.

Lemma dns_leg_messages_safe transports legs question_family :
  safe (_dns_leg_messages transports legs question_family).
Proof.
  apply map_res_safe. intros packet. unfold _dns_leg_message. safe_auto.
  destruct (dict_get _ _); [|exact I]. safe_auto. apply dns_message_safe.
Qed.

Lemma dns_exchange_safe messages token : is_ascii token = true -> safe (_dns_exchange messages token).
Proof.
  intros Ht. unfold _dns_exchange. apply safe_bind; [by apply evidence_name_safe|]. intros name _.
  destruct (List.filter is_query _) as [|[q m] queries]; [exact I|]. safe_auto.
  - apply fold_res_safe. intros pairs [answer message]. unfold _dns_pair_step. safe_auto.
    destruct (List.filter (answers_query _ _) _) as [|[]]; [exact I|]. safe_auto.
  - destruct a as [|p rest]; [exact I|]. destruct (min_by _ p rest). exact I.
Qed.

Lemma dns_exchanges_safe transports legs question_family tokens :
  is_ascii tokens.1.1 = true -> is_ascii tokens.1.2 = true -> is_ascii tokens.2 = true ->
  safe (_dns_exchanges transports legs question_family tokens).
Proof.
  destruct tokens as [[t1 t2] t3]. cbn. intros. unfold _dns_exchanges. safe_auto;
    solve [apply dns_leg_messages_safe | by apply evidence_name_safe | by apply dns_exchange_safe].
Qed.

(** ** Reference encoding *)

Definition encode_label (label : bytes) : bytes := zb (len label) :: label.
Definition encode_name (labels : list bytes) : bytes := concat (map encode_label labels) ++ [x00].

Definition label_ok (label : bytes) : Prop := 1 <= len label <= 63 /\ is_ascii label = true.
Definition name_ok (labels : list bytes) : Prop := Forall label_ok labels /\ len labels <= 32.

(** The text [_dns_name] gives a name: its labels, in lower case, joined by dots. *)
Definition name_text (labels : list bytes) : string :=
  join_with "." (map (fun l => lower (str_of_bytes l)) labels).

Lemma str_of_bytes_nonempty l : 1 <= len l -> seq_ (str_of_bytes l) "" = false.
Proof. destruct l; [rewrite len_nil; lia|done]. Qed.

Lemma label_length_byte label : label_ok label ->
  bz (zb (len label)) = len label /\ (len label =? 0) = false /\ (Z.land (len label) 0xC0 =? 0xC0) = false.
Proof.
  intros [Hl _]. rewrite bz_zb, Z.mod_small by lia. split; [done|]. split; [lia|].
  apply Z.eqb_neq. intros He. apply (f_equal (fun z => Z.testbit z 7)) in He.
  rewrite Z.land_spec in He. rewrite (Z.bits_above_log2 (len label)) in He; [done|lia|].
  apply Z.log2_lt_pow2; lia.
Qed.

(** The offsets of a reading loop grow, so none of them is met twice. *)
Lemma dns_name_loop_labels follow fuel data pre labels post acc seen :
  data = pre ++ concat (map encode_label labels) ++ x00 :: post ->
  Forall label_ok labels -> len acc + len labels <= 32 -> (length labels < fuel)%nat ->
  Forall (fun o => o < len pre) seen ->
  _dns_name_loop follow fuel data (len pre) acc seen
  = Ok (join_with "." (acc ++ map (fun l => lower (str_of_bytes l)) labels),
        len pre + len (encode_name labels)).
Proof.
  intros Hd Hok. revert fuel pre acc seen Hd.
  induction Hok as [|label labels Hlab Hok IH]; intros fuel pre acc seen Hd Hn Hf Hseen;
    destruct fuel as [|fuel]; try (cbn in Hf; lia); cbn [_dns_name_loop];
    pose proof (len_nonneg pre); pose proof (len_nonneg post);
    assert (Hns : zmem (len pre) seen = false)
      by (apply not_true_iff_false; unfold zmem; rewrite existsb_exists; intros (o & Ho & He%Z.eqb_eq);
          rewrite List.Forall_forall in Hseen; specialize (Hseen o Ho); lia); rewrite Hns.
  - cbn [map concat app] in Hd. replace (len data <=? len pre) with false
      by (rewrite Hd, len_app, len_cons; lia). cbn [orb].
    rewrite (u8_field data pre x00 post (len pre)) by done. cbn [mbind result_bind].
    change (bz x00 =? 0) with true. cbn [map]. by rewrite app_nil_r.
  - cbn [map concat] in Hd. unfold encode_label at 1 in Hd. cbn [app] in Hd.
    destruct (label_length_byte label Hlab) as (Hb & Hnz & HC). destruct Hlab as [Hl Ha].
    set (rest := concat (map encode_label labels) ++ x00 :: post) in *.
    assert (Hd' : data = pre ++ zb (len label) :: label ++ rest) by (by rewrite Hd, <-app_assoc).
    pose proof (len_nonneg rest).
    assert (Hlen : len data = len pre + 1 + len label + len rest)
      by (rewrite Hd', len_app, len_cons, len_app; lia).
    replace (len data <=? len pre) with false by (symmetry; apply Z.leb_gt; lia). cbn [orb].
    rewrite (u8_field data pre (zb (len label)) (label ++ rest) (len pre)) by done. cbn [mbind result_bind].
    rewrite Hb, Hnz, HC. replace ((63 <? len label) || _) with false
      by (symmetry; apply orb_false_iff; split; apply Z.ltb_ge; lia).
    rewrite (slice_field data (pre ++ [zb (len label)]) label rest);
      [|by rewrite Hd', <-app_assoc|by rewrite len_app, len_cons, len_nil|done].
    rewrite Ha. cbn [negb]. rewrite str_of_bytes_nonempty by lia. cbn [orb].
    rewrite len_cons in Hn. pose proof (len_nonneg labels). replace (32 <=? len acc) with false by (symmetry; apply Z.leb_gt; lia).
    replace (len pre + 1 + len label) with (len (pre ++ zb (len label) :: label))
      by (rewrite len_app, len_cons; lia).
    rewrite (IH fuel (pre ++ zb (len label) :: label)).
    + f_equal. f_equal; [cbn [map]; by rewrite <-app_assoc|].
      unfold encode_name. cbn [map concat]. unfold encode_label at 2. rewrite !len_app, !len_cons. lia.
    + by rewrite Hd', <-app_assoc.
    + rewrite len_app, len_cons, len_nil. lia.
    + cbn in Hf. lia.
    + constructor; [rewrite len_app, len_cons; lia|].
      eapply Forall_impl; [exact Hseen|]. cbn. intros o Ho. rewrite len_app, len_cons. lia.
Qed.

Lemma dns_name_plain calls data pre labels post depth :
  data = pre ++ encode_name labels ++ post -> name_ok labels -> depth <= 8 ->
  _dns_name_at (S calls) data (len pre) depth = Ok (name_text labels, len pre + len (encode_name labels)).
Proof.
  intros Hd [Hok Hn] Hdepth. cbn [_dns_name_at]. replace (8 <? depth) with false by lia.
  apply (dns_name_loop_labels _ DNS_NAME_FUEL data pre labels post [] []); try done.
  - rewrite Hd. unfold encode_name. by rewrite <-!app_assoc.
  - unfold len, DNS_NAME_FUEL in *. lia.
Qed.

Lemma split_on_nonempty c s : split_on c s <> [].
Proof. destruct s as [|c' s]; cbn; [done|]. destruct (Ascii.eqb c c'); [done|]. by destruct (split_on c s). Qed.

Lemma join_split c s : join_with c (split_on c s) = s.
Proof.
  induction s as [|c' s IH]; [done|]. cbn [split_on]. destruct (Ascii.eqb_spec c c') as [<-|Hc].
  - destruct (split_on c s) as [|w ws] eqn:Hs; [by apply split_on_nonempty in Hs|].
    change (join_with c (""%string :: w :: ws)) with (String c (join_with c (w :: ws))). by rewrite IH.
  - destruct (split_on c s) as [|w [|w' ws]] eqn:Hs; [by apply split_on_nonempty in Hs| |].
    + cbn in IH |- *. by rewrite IH.
    + change (join_with c (String c' w :: w' :: ws)) with (String c' (join_with c (w :: w' :: ws))). by rewrite IH.
Qed.

(** The two bytes of a compression pointer. *)
Lemma pointer_high q : 0 <= q < 64 ->
  (Z.land (0xC0 + q) 0xC0 =? 0xC0) && (Z.land (0xC0 + q) 0x3F =? q) && negb (0xC0 + q =? 0) = true.
Proof.
  intros Hq. apply (check_from_spec 64 0 (fun q =>
    (Z.land (0xC0 + q) 0xC0 =? 0xC0) && (Z.land (0xC0 + q) 0x3F =? q) && negb (0xC0 + q =? 0)));
    [vm_compute; reflexivity|lia].
Qed.

Lemma pointer_value q r : 0 <= q -> 0 <= r < 256 -> Z.lor (Z.shiftl q 8) r = q * 256 + r.
Proof.
  intros Hq Hr. assert (Hz : Z.land (Z.shiftl q 8) r = 0).
  { apply Z.bits_inj'. intros n Hn. rewrite Z.land_spec, Z.bits_0, Z.shiftl_spec by lia.
    destruct (Z_lt_ge_dec n 8); [by rewrite Z.testbit_neg_r by lia|].
    destruct (decide (r = 0)) as [->|]; [by rewrite Z.bits_0, andb_false_r|].
    rewrite (Z.bits_above_log2 r n); [apply andb_false_r|lia|].
    assert (Z.log2 r < 8) by (apply Z.log2_lt_pow2; lia). lia. }
  rewrite <-Z.lxor_lor by done. rewrite <-Z.add_nocarry_lxor by done.
  rewrite Z.shiftl_mul_pow2 by lia. done.
Qed.

Lemma dns_name_loop_pointer follow fuel data pre q r post name next :
  data = pre ++ zb (0xC0 + q) :: zb r :: post -> 0 <= q < 64 -> 0 <= r < 256 ->
  follow (q * 256 + r) = Ok (name, next) ->
  _dns_name_loop follow (S fuel) data (len pre) [] [] = Ok (name, len pre + 2).
Proof.
  intros Hd Hq Hr Hf. cbn [_dns_name_loop zmem existsb]. pose proof (len_nonneg pre). pose proof (len_nonneg post).
  assert (Hlen : len data = len pre + 2 + len post) by (rewrite Hd, len_app, !len_cons; lia).
  replace (len data <=? len pre) with false by (symmetry; apply Z.leb_gt; lia). cbn [orb].
  rewrite (u8_field data pre (zb (0xC0 + q)) (zb r :: post) (len pre)) by done. cbn [mbind result_bind].
  rewrite bz_zb, (Z.mod_small (0xC0 + q)) by lia.
  pose proof (pointer_high q Hq) as Hp. rewrite !andb_true_iff, negb_true_iff in Hp.
  destruct Hp as [[-> Hl] ->]. apply Z.eqb_eq in Hl. rewrite Hl.
  replace (len data <? len pre + 2) with false by (symmetry; apply Z.ltb_ge; lia).
  rewrite (u8_field data (pre ++ [zb (0xC0 + q)]) (zb r) post (len pre + 1));
    [|by rewrite Hd, <-app_assoc|by rewrite len_app, len_cons, len_nil].
  cbn [mbind result_bind]. rewrite bz_zb, (Z.mod_small r), pointer_value, Hf by lia. cbn [mbind result_bind app].
  destruct (seq_ name "") eqn:Hn; [apply String.eqb_eq in Hn; by subst|by rewrite join_split].
Qed.

(** A compression pointer to a plain name reads as that name. *)
Lemma dns_name_pointer data pre labels post pre' post' :
  data = pre ++ encode_name labels ++ post -> data = pre' ++ be 2 (0xC000 + len pre) ++ post' ->
  name_ok labels -> len pre < 0x4000 ->
  _dns_name data (len pre') = Ok (name_text labels, len pre' + 2).
Proof.
  intros Hd Hd' Hok Hlt. pose proof (len_nonneg pre).
  assert (Hq : 0 <= len pre / 256 < 64)
    by (split; [by apply Z.div_pos|apply Z.div_lt_upper_bound; lia]).
  pose proof (Z.mod_pos_bound (len pre) 256 ltac:(lia)) as Hr.
  assert (Hbe : be 2 (0xC000 + len pre) = [zb (0xC0 + len pre / 256); zb (len pre mod 256)]).
  { change (be 2 (0xC000 + len pre)) with [zb ((0xC000 + len pre) / 256); zb (0xC000 + len pre)].
    f_equal; [f_equal|f_equal; apply bz_inj; rewrite !bz_zb].
    - replace (0xC000 + len pre) with (0xC0 * 256 + len pre) by lia. by rewrite Z.div_add_l by lia.
    - replace (0xC000 + len pre) with (len pre + 0xC0 * 256) by lia. by rewrite Z.mod_add, Z.mod_mod by lia. }
  rewrite Hbe in Hd'. unfold _dns_name. change DNS_NAME_CALLS with (S (S 8)).
  change (_dns_name_at (S (S 8)) data (len pre') 0)
    with (_dns_name_loop (fun pointer => _dns_name_at (S 8) data pointer 1) DNS_NAME_FUEL data (len pre') [] []).
  apply (dns_name_loop_pointer _ 33 data pre' (len pre / 256) (len pre mod 256) post' _
           (len pre + len (encode_name labels))); try done.
  rewrite Z.mul_comm, <-Z.div_mod by lia. by apply (dns_name_plain 8 data pre labels post 1).
Qed.

Definition dns_type (family : string) : Z := if seq_ family "ipv4" then 1 else 28.
Definition rd_flag (recursion_desired : bool) : Z := if recursion_desired then 0x100 else 0.

Definition dns_header (identifier flags answers : Z) : bytes :=
  be 2 identifier ++ be 2 flags ++ be 2 1 ++ be 2 answers ++ be 2 0 ++ be 2 0.
Definition dns_question (labels : list bytes) (family : string) : bytes :=
  encode_name labels ++ be 2 (dns_type family) ++ be 2 1.

Definition dns_query (identifier : Z) (rd : bool) (labels : list bytes) (family : string) : bytes :=
  dns_header identifier (rd_flag rd) 0 ++ dns_question labels family.

(** The fixed answers [192.0.2.1] and [2001:db8::1]. *)
Definition fixed_address (family : string) : bytes :=
  if seq_ family "ipv4" then hexb "c0000201" else hexb "20010db8000000000000000000000001".
Definition fixed_address_text (family : string) : string :=
  if seq_ family "ipv4" then DNS_A_ADDRESS else DNS_AAAA_ADDRESS.

(** The answer's owner name: written out, or a pointer to the question. *)
Definition dns_owner (labels : list bytes) (compressed : bool) : bytes :=
  if compressed then be 2 (0xC000 + 12) else encode_name labels.

Definition dns_answer (identifier : Z) (rd : bool) (labels : list bytes) (family : string) (compressed : bool) : bytes :=
  dns_header identifier (DNS_AUTHORITATIVE_RESPONSE_FLAGS + rd_flag rd) 1 ++ dns_question labels family ++
  dns_owner labels compressed ++ be 2 (dns_type family) ++ be 2 1 ++ be 4 DNS_TTL ++
  be 2 (len (fixed_address family)) ++ fixed_address family.

Lemma dns_header_len identifier flags answers : len (dns_header identifier flags answers) = 12.
Proof. unfold dns_header. flen. Qed.

Lemma encode_name_len labels : 1 <= len (encode_name labels).
Proof. unfold encode_name. rewrite len_app, len_cons, len_nil. pose proof (len_nonneg (concat (map encode_label labels))). lia. Qed.

(** What the decoder reads up to the end of the question. *)
Lemma dns_message_prefix data identifier flags answers labels family tail :
  data = dns_header identifier flags answers ++ dns_question labels family ++ tail ->
  0 <= identifier < 65536 -> 0 <= flags < 65536 -> 0 <= answers < 65536 -> name_ok labels ->
  let offset := 12 + len (encode_name labels) in
  (len data <? 12) = false /\
  unpack BigEndian 2 data 0 = Ok identifier /\ unpack BigEndian 2 data 2 = Ok flags /\
  unpack BigEndian 2 data 4 = Ok 1 /\ unpack BigEndian 2 data 6 = Ok answers /\
  unpack BigEndian 2 data 8 = Ok 0 /\ unpack BigEndian 2 data 10 = Ok 0 /\
  _dns_name data 12 = Ok (name_text labels, offset) /\
  (len data <? offset + 4) = false /\
  unpack BigEndian 2 data offset = Ok (dns_type family) /\ unpack BigEndian 2 data (offset + 2) = Ok 1 /\
  offset + 4 + len tail = len data.
Proof.
  intros Hd Hi Hf Ha Hok offset.
  set (name := encode_name labels) in *. set (ty := dns_type family).
  assert (Hty : 0 <= ty < 65536) by (unfold ty, dns_type; destruct (seq_ family "ipv4"); lia).
  assert (Hlen : offset + 4 + len tail = len data).
  { rewrite Hd. unfold dns_question. fold name. rewrite !len_app, dns_header_len, !be_len. unfold offset. lia. }
  assert (Hn := encode_name_len labels). fold name in Hn. pose proof (len_nonneg tail).
  assert (Hd' : data = be 2 identifier ++ be 2 flags ++ be 2 1 ++ be 2 answers ++ be 2 0 ++ be 2 0 ++
                       name ++ be 2 ty ++ be 2 1 ++ tail)
    by (rewrite Hd; unfold dns_header, dns_question; by rewrite <-!app_assoc).
  split_and!; try (apply Z.ltb_ge; unfold offset in *; lia); try done.
  - eapply (unpack_app _ _ _ _ _ []); [exact Hd'|done|simpl; lia].
  - eapply (unpack_app _ _ _ _ _ (be 2 identifier)); [exact Hd'|done|simpl; lia].
  - eapply (unpack_app _ _ _ _ _ (be 2 identifier ++ be 2 flags)); [rewrite Hd'; rewrite <-!app_assoc; done|done|simpl; lia].
  - eapply (unpack_app _ _ _ _ _ (be 2 identifier ++ be 2 flags ++ be 2 1)); [rewrite Hd'; rewrite <-!app_assoc; done|done|simpl; lia].
  - eapply (unpack_app _ _ _ _ _ (be 2 identifier ++ be 2 flags ++ be 2 1 ++ be 2 answers)); [rewrite Hd'; rewrite <-!app_assoc; done|done|simpl; lia].
  - eapply (unpack_app _ _ _ _ _ (be 2 identifier ++ be 2 flags ++ be 2 1 ++ be 2 answers ++ be 2 0)); [rewrite Hd'; rewrite <-!app_assoc; done|done|simpl; lia].
  - rewrite <-(dns_header_len identifier flags answers).
    unfold _dns_name. change DNS_NAME_CALLS with 10%nat.
    rewrite (dns_name_plain 9 data (dns_header identifier flags answers) labels (be 2 ty ++ be 2 1 ++ tail) 0);
      [by rewrite dns_header_len|by rewrite Hd; unfold dns_question; rewrite <-!app_assoc|done|lia].
  - eapply (unpack_app _ _ _ _ _ (dns_header identifier flags answers ++ name));
      [rewrite Hd; unfold dns_question; rewrite <-!app_assoc; done|rewrite len_app, dns_header_len; done|simpl; lia].
  - eapply (unpack_app _ _ _ _ _ (dns_header identifier flags answers ++ name ++ be 2 ty));
      [rewrite Hd; unfold dns_question; rewrite <-!app_assoc; done|
       rewrite !len_app, dns_header_len, be_len; unfold offset; lia|simpl; lia].
Qed.

Definition query_message (identifier : Z) (rd : bool) (labels : list bytes) (family : string) : DnsMessage := {|
  dm_identifier := identifier; dm_is_response := false; dm_question_name := name_text labels;
  dm_question_type := dns_type family; dm_answer_address := None; dm_recursion_desired := rd |}.
Definition answer_message (identifier : Z) (rd : bool) (labels : list bytes) (family : string) : DnsMessage := {|
  dm_identifier := identifier; dm_is_response := true; dm_question_name := name_text labels;
  dm_question_type := dns_type family; dm_answer_address := Some (fixed_address_text family);
  dm_recursion_desired := rd |}.

Lemma dns_query_read identifier rd labels family :
  0 <= identifier < 65536 -> name_ok labels ->
  _dns_message (dns_query identifier rd labels family) family = Ok (query_message identifier rd labels family).
Proof.
  intros Hi Hok. unfold _dns_message. set (data := dns_query _ _ _ _).
  destruct (dns_message_prefix data identifier (rd_flag rd) 0 labels family [])
    as (P0 & P1 & P2 & P3 & P4 & P5 & P6 & P7 & P8 & P9 & P10 & Hend);
    [unfold data, dns_query; by rewrite app_nil_r|done|by destruct rd|done|done|].
  rewrite P0, P1, P2, P3, P4, P5, P6, P7. cbn [mbind result_bind]. rewrite P8, P9, P10. cbn [mbind result_bind].
  fold (dns_type family). rewrite Z.eqb_refl. change (1 =? 1) with true. cbn [negb orb andb].
  replace (Z.land (rd_flag rd) (Z.lnot DNS_FLAG_RECURSION_DESIRED) =? DNS_QUERY_FLAGS) with true by (by destruct rd).
  cbn [Z.eqb andb].
  rewrite len_nil, Z.add_0_r in Hend. rewrite Hend, Z.eqb_refl. cbn [negb]. by destruct rd.
Qed.

Lemma dns_owner_read data identifier flags labels family compressed tail :
  data = dns_header identifier flags 1 ++ dns_question labels family ++ dns_owner labels compressed ++ tail ->
  name_ok labels ->
  let offset := 12 + len (encode_name labels) + 4 in
  _dns_name data offset = Ok (name_text labels, offset + len (dns_owner labels compressed)).
Proof.
  intros Hd Hok offset.
  assert (Ho : offset = len (dns_header identifier flags 1 ++ dns_question labels family))
    by (unfold dns_question; rewrite !len_app, dns_header_len, !be_len; unfold offset; lia).
  rewrite Ho. destruct compressed; cbn [dns_owner] in *.
  - rewrite (dns_name_pointer data (dns_header identifier flags 1) labels
      (be 2 (dns_type family) ++ be 2 1 ++ be 2 (0xC000 + 12) ++ tail) _ tail).
    + done.
    + rewrite Hd. unfold dns_question. by rewrite <-!app_assoc.
    + rewrite Hd, dns_header_len. by rewrite <-app_assoc.
    + done.
    + by rewrite dns_header_len.
  - unfold _dns_name. change DNS_NAME_CALLS with 10%nat.
    apply (dns_name_plain 9 data _ labels tail 0); [by rewrite Hd, <-app_assoc|done|lia].
Qed.

Lemma fixed_address_read family :
  str_ip_address (fixed_address family) = Ok (fixed_address_text family) /\
  len (fixed_address family) = (if seq_ family "ipv4" then 4 else 16).
Proof. unfold fixed_address, fixed_address_text. destruct (seq_ family "ipv4"); split; vm_compute; reflexivity. Qed.

(** The fields after the owner name of the answer. *)
Lemma dns_answer_fields data pre family :
  data = pre ++ be 2 (dns_type family) ++ be 2 1 ++ be 4 DNS_TTL ++ be 2 (len (fixed_address family)) ++
         fixed_address family ->
  let offset := len pre in
  (len data <? offset + 10) = false /\
  unpack BigEndian 2 data offset = Ok (dns_type family) /\ unpack BigEndian 2 data (offset + 2) = Ok 1 /\
  unpack BigEndian 4 data (offset + 4) = Ok DNS_TTL /\
  unpack BigEndian 2 data (offset + 8) = Ok (len (fixed_address family)) /\
  offset + 10 + len (fixed_address family) = len data /\
  slice data (offset + 10) (offset + 10 + len (fixed_address family)) = fixed_address family.
Proof.
  intros Hd offset. set (a := fixed_address family) in *. set (ty := dns_type family) in *.
  assert (Hty : 0 <= ty < 65536) by (unfold ty, dns_type; destruct (seq_ family "ipv4"); lia).
  assert (Ha : 0 <= len a < 65536)
    by (unfold a; rewrite (proj2 (fixed_address_read family)); destruct (seq_ family "ipv4"); lia).
  assert (Hl : offset + 10 + len a = len data) by (rewrite Hd, !len_app, !be_len; unfold offset; lia).
  assert (Hpos : forall p, len (pre ++ p) = offset + len p) by (intros p; apply len_app).
  split_and!; try done.
  - apply Z.ltb_ge. lia.
  - eapply (unpack_app _ _ _ _ _ pre); [exact Hd|done|simpl; lia].
  - eapply (unpack_app _ _ _ _ _ (pre ++ be 2 ty)); [rewrite Hd, <-!app_assoc; done|by rewrite Hpos|simpl; lia].
  - eapply (unpack_app _ _ _ _ _ (pre ++ be 2 ty ++ be 2 1)); [rewrite Hd, <-!app_assoc; done|by rewrite Hpos|done].
  - eapply (unpack_app _ _ _ _ _ (pre ++ be 2 ty ++ be 2 1 ++ be 4 DNS_TTL));
      [rewrite Hd, <-!app_assoc; done|by rewrite Hpos|simpl; lia].
  - apply (slice_field _ (pre ++ be 2 ty ++ be 2 1 ++ be 4 DNS_TTL ++ be 2 (len a)) a []);
      [rewrite Hd, app_nil_r, <-!app_assoc; done|by rewrite Hpos|done].
Qed.

Lemma dns_answer_read identifier rd labels family compressed :
  0 <= identifier < 65536 -> name_ok labels ->
  _dns_message (dns_answer identifier rd labels family compressed) family
  = Ok (answer_message identifier rd labels family).
Proof.
  intros Hi Hok. unfold _dns_message. set (data := dns_answer _ _ _ _ _).
  set (flags := DNS_AUTHORITATIVE_RESPONSE_FLAGS + rd_flag rd).
  destruct (dns_message_prefix data identifier flags 1 labels family
    (slice_from data (12 + len (encode_name labels) + 4)))
    as (P0 & P1 & P2 & P3 & P4 & P5 & P6 & P7 & P8 & P9 & P10 & Hend); [|done|by destruct rd|done|done|].
  { erewrite (slice_from_field data (dns_header identifier flags 1 ++ dns_question labels family));
      [reflexivity|unfold data, dns_answer; by rewrite <-app_assoc|].
    unfold dns_question. rewrite !len_app, dns_header_len, !be_len. lia. }
  rewrite P0, P1, P2, P3, P4, P5, P6, P7. cbn [mbind result_bind]. rewrite P8, P9, P10. cbn [mbind result_bind].
  fold (dns_type family). rewrite Z.eqb_refl. change (1 =? 1) with true. cbn [negb orb andb].
  replace (Z.land flags (Z.lnot DNS_FLAG_RECURSION_DESIRED)) with DNS_AUTHORITATIVE_RESPONSE_FLAGS by (by destruct rd).
  cbn [Z.eqb Pos.eqb DNS_AUTHORITATIVE_RESPONSE_FLAGS DNS_QUERY_FLAGS andb negb orb].
  erewrite (dns_owner_read data identifier flags labels family compressed) by (done || (unfold data, dns_answer; done)).
  cbn [mbind result_bind].
  destruct (dns_answer_fields data (dns_header identifier flags 1 ++ dns_question labels family ++ dns_owner labels compressed) family)
    as (H1 & H2 & H3 & H4 & H5 & H6 & H7); [unfold data, dns_answer; by rewrite <-!app_assoc|].
  replace (len (dns_header identifier flags 1 ++ dns_question labels family ++ dns_owner labels compressed))
    with (12 + len (encode_name labels) + 4 + len (dns_owner labels compressed)) in *
    by (unfold dns_question; rewrite !len_app, dns_header_len, !be_len; lia).
  set (offset := 12 + len (encode_name labels) + 4 + len (dns_owner labels compressed)) in *.
  rewrite H1, H2, H3, H4, H5. cbn [mbind result_bind]. rewrite H7, H6, !Z.eqb_refl.
  destruct (fixed_address_read family) as [-> ->]. unfold seq_ at 1. rewrite String.eqb_refl, Z.eqb_refl.
  change (DNS_TTL =? DNS_TTL) with true. change (1 =? 1) with true. cbn [negb orb].
  unfold fixed_address_text, seq_ at 1. rewrite String.eqb_refl. cbn [negb]. by destruct rd.
Qed.

(** ** What an accepted message is *)

Lemma flags_split flags :
  flags = Z.land flags (Z.lnot DNS_FLAG_RECURSION_DESIRED)
          + rd_flag (negb (Z.land flags DNS_FLAG_RECURSION_DESIRED =? 0)).
Proof.
  unfold DNS_FLAG_RECURSION_DESIRED.
  assert (Hb : Z.land flags 256 = 0 \/ Z.land flags 256 = 256).
  { change 256 with (2 ^ 8). destruct (Z.testbit flags 8) eqn:Ht; [right|left]; apply Z.bits_inj'; intros n Hn;
      rewrite Z.land_spec, Z.pow2_bits_eqb by lia; destruct (Z.eqb_spec 8 n) as [<-|];
      rewrite ?Ht, ?andb_false_r, ?Z.bits_0; done. }
  assert (Hs : flags = Z.land flags (Z.lnot 256) + Z.land flags 256).
  { rewrite Z.add_nocarry_lxor.
    - apply Z.bits_inj'. intros n Hn. rewrite Z.lxor_spec, !Z.land_spec, Z.lnot_spec by lia.
      by destruct (Z.testbit flags n), (Z.testbit 256 n).
    - apply Z.bits_inj'. intros n Hn. rewrite !Z.land_spec, Z.lnot_spec, Z.bits_0 by lia.
      by destruct (Z.testbit flags n), (Z.testbit 256 n). }
  rewrite Hs at 1. f_equal. by destruct Hb as [-> | ->].
Qed.

Lemma fixed_address_unique l family :
  len l = (if seq_ family "ipv4" then 4 else 16) -> str_ip_address l = Ok (fixed_address_text family) ->
  l = fixed_address family.
Proof.
  intros Hl H. destruct (fixed_address_read family) as [Hf Hlf].
  apply str_ip_address_inv in H as (a & Ha & Ht & Hok).
  apply str_ip_address_inv in Hf as (b & Hb & Ht' & Hok'). rewrite Ht in Ht'.
  apply ip_str_inj in Ht'; [subst b|done|done]. by eapply ip_address_bytes_inj.
Qed.

(** The part of a message after the question. *)
Definition dns_tail (family : string) (response : bool) (owner : bytes) : bytes :=
  if response then owner ++ be 2 (dns_type family) ++ be 2 1 ++ be 4 DNS_TTL ++
                   be 2 (len (fixed_address family)) ++ fixed_address family
  else [].

Lemma dns_message_header data id flags q an au ad :
  unpack BigEndian 2 data 0 = Ok id -> unpack BigEndian 2 data 2 = Ok flags ->
  unpack BigEndian 2 data 4 = Ok q -> unpack BigEndian 2 data 6 = Ok an ->
  unpack BigEndian 2 data 8 = Ok au -> unpack BigEndian 2 data 10 = Ok ad ->
  data = be 2 id ++ be 2 flags ++ be 2 q ++ be 2 an ++ be 2 au ++ be 2 ad ++ slice_from data 12.
Proof.
  intros H1 H2 H3 H4 H5 H6.
  apply unpack_split in H1, H2, H3, H4, H5, H6. 
  change (0 + Z.of_nat 2) with 2 in H1. change (2 + Z.of_nat 2) with 4 in H2. change (4 + Z.of_nat 2) with 6 in H3.
  change (6 + Z.of_nat 2) with 8 in H4. change (8 + Z.of_nat 2) with 10 in H5. change (10 + Z.of_nat 2) with 12 in H6.
  rewrite slice_from_0 in H1. etransitivity; [exact H1|]. rewrite H2, H3, H4, H5, H6. reflexivity.
Qed.

Lemma dns_answer_shape data family offset ty cl ttl n addr :
  unpack BigEndian 2 data offset = Ok ty -> unpack BigEndian 2 data (offset + 2) = Ok cl ->
  unpack BigEndian 4 data (offset + 4) = Ok ttl -> unpack BigEndian 2 data (offset + 8) = Ok n ->
  ty = dns_type family -> cl = 1 -> ttl = DNS_TTL -> n = (if seq_ family "ipv4" then 4 else 16) ->
  offset + 10 + n = len data -> str_ip_address (slice data (offset + 10) (offset + 10 + n)) = Ok addr ->
  addr = fixed_address_text family ->
  slice_from data offset
  = be 2 (dns_type family) ++ be 2 1 ++ be 4 DNS_TTL ++ be 2 (len (fixed_address family)) ++ fixed_address family.
Proof.
  intros H1 H2 H3 H4 -> -> -> Hn Hend Haddr ->.
  pose proof (unpack_inv _ _ _ _ _ H1) as (Hoff & _).
  apply unpack_split in H1, H2, H3, H4. change (Z.of_nat 2) with 2 in *. change (Z.of_nat 4) with 4 in *.
  rewrite H1, H2. replace (offset + 2 + 2) with (offset + 4) by lia. rewrite H3.
  replace (offset + 4 + 4) with (offset + 8) by lia. rewrite H4. replace (offset + 8 + 2) with (offset + 10) by lia.
  apply fixed_address_unique in Haddr; [|rewrite slice_length; subst n; destruct (seq_ family "ipv4"); lia].
  rewrite (proj2 (fixed_address_read family)), <-Hn.
  assert (Htail : slice_from data (offset + 10) = fixed_address family); [|by rewrite Htail].
  rewrite <-Haddr, Hend, (slice_from_split data (offset + 10) (len data)), slice_from_end, app_nil_r
    by (destruct (seq_ family "ipv4"); lia). done.
Qed.

Lemma dns_message_inv data family m :
  _dns_message data family = Ok m ->
  exists next owner_end,
    _dns_name data 12 = Ok (dm_question_name m, next) /\
    (if dm_is_response m then _dns_name data (next + 4) = Ok (dm_question_name m, owner_end) else owner_end = next + 4) /\
    0 <= dm_identifier m < 65536 /\ dm_question_type m = dns_type family /\
    dm_answer_address m = (if dm_is_response m then Some (fixed_address_text family) else None) /\
    data = dns_header (dm_identifier m)
             ((if dm_is_response m then DNS_AUTHORITATIVE_RESPONSE_FLAGS else DNS_QUERY_FLAGS) + rd_flag (dm_recursion_desired m))
             (if dm_is_response m then 1 else 0)
           ++ slice data 12 next ++ be 2 (dns_type family) ++ be 2 1
           ++ dns_tail family (dm_is_response m) (slice data (next + 4) owner_end).
Proof.
  unfold _dns_message. intros H. res_inv H. rename x into question_name, y into next.
  read_facts. pose proof (dns_name_bounds _ _ _ _ E5 ltac:(lia)) as Hnext.
  pose proof (dns_message_header data v v0 v1 v2 v3 v4 E E0 E1 E2 E3 E4) as Hd.
  pose proof (flags_split v0) as Hflags. fold (dns_type family) in *.
  apply orb_false_iff in G1 as [Hty Hcl]. apply negb_false_iff, Z.eqb_eq in Hty, Hcl.
  assert (Hq : slice_from data 12 = slice data 12 next ++ be 2 (dns_type family) ++ be 2 1 ++ slice_from data (next + 4)).
  { rewrite (slice_from_split data 12 next) by lia. f_equal.
    apply unpack_split in E6, E7. change (Z.of_nat 2) with 2 in *.
    rewrite E6, E7. subst. by replace (next + 2 + 2) with (next + 4) by lia. }
  rewrite Hq in Hd. clear Hq.
  destruct (_ && _) eqn:HQ in H.
  - res_inv H. subst m. cbn [dm_identifier dm_is_response dm_question_name dm_question_type dm_answer_address dm_recursion_desired].
    rewrite !andb_true_iff, !Z.eqb_eq in HQ. destruct HQ as (Hf & ((Hq1 & Hq2) & Hq3) & Hq4).
    apply negb_false_iff, Z.eqb_eq in G1. exists next, (next + 4). split_and!; try done; try lia.
    rewrite G1, slice_from_end in Hd. etransitivity; [exact Hd|].
    rewrite Hf in Hflags. rewrite Hflags at 1. rewrite Hq1, Hq2, Hq3, Hq4. unfold dns_header. by rewrite <-!app_assoc.
  - clear HQ. res_inv H. rename x into answer_name, y into owner_end. read_facts.
    pose proof (dns_name_bounds _ _ _ _ E8 ltac:(lia)) as Howner.
    apply orb_false_iff in G1 as [Hf HA]. apply negb_false_iff in Hf, HA. apply Z.eqb_eq in Hf.
    rewrite !andb_true_iff, !Z.eqb_eq in HA. destruct HA as (((Hq1 & Hq2) & Hq3) & Hq4).
    rewrite !orb_false_iff, !negb_false_iff, !Z.eqb_eq in G3.
    destruct G3 as (((((Hn & Ht) & Hc) & Httl) & Hlen) & Hend).
    apply String.eqb_eq in Hn. subst answer_name.
    destruct (str_ip_address _) as [addr|[]] eqn:Haddr in H; try discriminate H.
    res_inv H. subst m. cbn [dm_identifier dm_is_response dm_question_name dm_question_type dm_answer_address dm_recursion_desired].
    apply negb_false_iff, String.eqb_eq in G1. fold (fixed_address_text family) in G1.
    exists next, owner_end. split_and!; try done; try lia; [by rewrite G1|].
    pose proof (dns_answer_shape data family owner_end _ _ _ _ addr E9 E10 E11 E12 Ht Hc Httl Hlen Hend Haddr G1) as Htail.
    rewrite (slice_from_split data (next + 4) owner_end), Htail in Hd by lia.
    etransitivity; [exact Hd|].
    rewrite Hf in Hflags. rewrite Hflags at 1. rewrite Hq1, Hq2, Hq3, Hq4. unfold dns_header, dns_tail. by rewrite <-!app_assoc.
Qed.

(** Every accepted DNS message is exact.  Whatever bytes [_dns_message]
    accepts are, apart from how the two names are encoded, fully determined by
    the message it returns: a 12-byte header with the RD bit as the only free
    flag and the counts of a lone question or of one question and one answer, the A or
    AAAA question in class IN, and, for a response only, an answer with the
    same owner name, type and class, TTL 0 and the fixed address, with nothing
    after it. *)
Theorem dns_message_exact data family m :
  _dns_message data family = Ok m ->
  exists next owner_end,
    _dns_name data 12 = Ok (dm_question_name m, next) /\
    (if dm_is_response m then _dns_name data (next + 4) = Ok (dm_question_name m, owner_end) else owner_end = next + 4) /\
    0 <= dm_identifier m < 65536 /\ dm_question_type m = dns_type family /\
    dm_answer_address m = (if dm_is_response m then Some (fixed_address_text family) else None) /\
    data = dns_header (dm_identifier m)
             ((if dm_is_response m then DNS_AUTHORITATIVE_RESPONSE_FLAGS else DNS_QUERY_FLAGS) + rd_flag (dm_recursion_desired m))
             (if dm_is_response m then 1 else 0)
           ++ slice data 12 next ++ be 2 (dns_type family) ++ be 2 1
           ++ dns_tail family (dm_is_response m) (slice data (next + 4) owner_end).
Proof. apply dns_message_inv. Qed.

(** Encoded DNS messages are read back.  For every name of at most 32
    ASCII labels of 1 to 63 bytes, an encoded A or AAAA query decodes to its
    identifier, RD bit and lower-cased name, and so does an encoded
    authoritative answer, whether its owner name is written out or compressed
    to a pointer to the question. *)
Theorem dns_message_roundtrip identifier rd labels family compressed :
  0 <= identifier < 65536 -> name_ok labels ->
  _dns_message (dns_query identifier rd labels family) family = Ok (query_message identifier rd labels family) /\
  _dns_message (dns_answer identifier rd labels family compressed) family = Ok (answer_message identifier rd labels family).
Proof. intros Hi Hok. split; [by apply dns_query_read|by apply dns_answer_read]. Qed.

Definition sample_labels : list bytes := [bstr "A1b2"; bstr "evidence"; bstr "test"].

Lemma sample_labels_ok : name_ok sample_labels.
Proof. split; [|vm_compute; discriminate]. repeat constructor; vm_compute; discriminate. Qed.

Lemma dns_message_roundtrip_witness :
  _dns_message (dns_query 7 true sample_labels "ipv6") "ipv6" = Ok (query_message 7 true sample_labels "ipv6") /\
  _dns_message (dns_answer 7 true sample_labels "ipv6" true) "ipv6" = Ok (answer_message 7 true sample_labels "ipv6").
Proof. apply (dns_message_roundtrip 7 true sample_labels "ipv6" true); [lia|exact sample_labels_ok]. Defined.

Lemma dns_message_exact_witness :
  exists next owner_end,
    _dns_name (dns_answer 7 true sample_labels "ipv4" true) 12 = Ok ("a1b2.evidence.test"%string, next) /\
    _dns_name (dns_answer 7 true sample_labels "ipv4" true) (next + 4) = Ok ("a1b2.evidence.test"%string, owner_end).
Proof.
  destruct (dns_message_exact (dns_answer 7 true sample_labels "ipv4" true) "ipv4"
    (answer_message 7 true sample_labels "ipv4") ltac:(vm_compute; reflexivity)) as (next & owner_end & H1 & H2 & _).
  exists next, owner_end. exact (conj H1 H2).
Defined.

(** ** Exchanges *)

(** [answered queries first_message answer pair]: the pair the loop makes. *)
Definition answered (queries : list DnsPacket) (first_message : DnsMessage) (m : DnsPacket)
    (pair : TransportPacket * TransportPacket) : Prop :=
  snd pair = fst m /\
  (exists query_message, (fst pair, query_message) ∈ queries /\
     answers_query (fst m) (snd m) (fst pair, query_message) = true) /\
  dm_recursion_desired (snd m) = dm_recursion_desired first_message.

Lemma dns_pairs_spec queries first_message named acc pairs :
  fold_res (_dns_pair_step queries first_message) acc named = Ok pairs ->
  exists new, pairs = acc ++ new /\ Forall2 (answered queries first_message) (List.filter is_answer named) new.
Proof.
  revert acc; induction named as [|[packet message] named IH]; intros acc H; cbn [fold_res] in H.
  - res_inv H. subst. exists []. rewrite app_nil_r. split; [done|constructor].
  - res_inv H. unfold _dns_pair_step in E. cbn [List.filter]. unfold is_answer at 1. cbn [snd].
    destruct (dm_is_response message); cbn [negb] in E; [|res_inv E; subst; by apply IH].
    destruct (List.filter _ queries) as [|[asked query_message] l] eqn:Hf; [done|]. res_inv E. subst v.
    apply IH in H as (new & -> & Hnew). exists ((asked, packet) :: new). split; [by rewrite <-app_assoc|].
    constructor; [|done]. split_and!; [done| |].
    + exists query_message. assert (Hin : In (asked, query_message) ((asked, query_message) :: l)) by (by left).
      rewrite <-Hf in Hin. apply filter_In in Hin as [? ?]. by rewrite list_elem_of_In.
    + apply negb_false_iff, eqb_prop in G. done.
Qed.

Lemma min_by_spec {A} (key : A -> Fraction) best l :
  (min_by key best l = best \/ min_by key best l ∈ l) /\
  (key (min_by key best l) <= key best)%Q /\ forall x, x ∈ l -> (key (min_by key best l) <= key x)%Q.
Proof.
  revert best; induction l as [|x l IH]; intros best; cbn [min_by].
  - split_and!; [by left|apply Qle_refl|intros x Hx; by apply elem_of_nil in Hx].
  - set (b := if flt (key x) (key best) then x else best).
    assert (Hb : (b = best \/ b = x) /\ (key b <= key best)%Q /\ (key b <= key x)%Q).
    { unfold b, flt. destruct (Qle_bool (key best) (key x)) eqn:Hle; cbn.
      - apply Qle_bool_iff in Hle. split_and!; [by left|apply Qle_refl|done].
      - split_and!; [by right| |apply Qle_refl]. apply Qlt_le_weak, Qnot_le_lt.
        intros Hc. apply Qle_bool_iff in Hc. congruence. }
    destruct Hb as (Hin & Hb1 & Hb2). destruct (IH b) as (H1 & H2 & H3). split_and!.
    + destruct H1 as [->|H1]; [|right; by right]. destruct Hin as [->| ->]; [by left|right; by left].
    + by eapply Qle_trans.
    + intros y [->|Hy]%elem_of_cons; [by eapply Qle_trans|by apply H3].
Qed.

Lemma differs_beyond_id_false l m1 m2 :
  differs_beyond_id l = false -> m1 ∈ l -> m2 ∈ l ->
  slice_from (tp_payload (fst m1)) 2 = slice_from (tp_payload (fst m2)) 2.
Proof.
  unfold differs_beyond_id. destruct l as [|first l]; [intros _ H; by apply elem_of_nil in H|].
  intros He H1 H2. assert (Hall : forall m, m ∈ first :: l -> slice_from (tp_payload (fst m)) 2 = slice_from (tp_payload (fst first)) 2).
  { intros m Hm. destruct (decide (slice_from (tp_payload (fst m)) 2 = slice_from (tp_payload (fst first)) 2)) as [|Hne]; [done|].
    exfalso. apply not_true_iff_false in He. apply He, existsb_exists. exists m.
    rewrite <-list_elem_of_In. split; [done|]. unfold beq. by rewrite bool_decide_false. }
  by rewrite (Hall m1), (Hall m2).
Qed.

(** The records that name a token. *)
Definition named_by (name : string) (messages : list DnsPacket) : list DnsPacket :=
  List.filter (fun m => seq_ (dm_question_name (snd m)) name) messages.

Lemma named_by_in name messages m :
  m ∈ named_by name messages <-> m ∈ messages /\ dm_question_name (snd m) = name.
Proof.
  unfold named_by. rewrite !list_elem_of_In, filter_In. unfold seq_. rewrite String.eqb_eq. done.
Qed.

Lemma queries_in name messages m :
  m ∈ List.filter is_query (named_by name messages) <->
  m ∈ messages /\ dm_question_name (snd m) = name /\ dm_is_response (snd m) = false.
Proof.
  rewrite list_elem_of_In, filter_In, <-list_elem_of_In, named_by_in. unfold is_query.
  rewrite negb_true_iff. tauto.
Qed.

Lemma answers_in name messages m :
  m ∈ List.filter is_answer (named_by name messages) <->
  m ∈ messages /\ dm_question_name (snd m) = name /\ dm_is_response (snd m) = true.
Proof. rewrite list_elem_of_In, filter_In, <-list_elem_of_In, named_by_in. unfold is_answer. tauto. Qed.

(** A record that [_dns_leg_messages] accepts: one exact message of the case's
    family, from a leg's client to port 53 of its resolver or back. *)
Definition on_leg (legs : list (string * DnsResolverLeg)) (question_family : string) (m : DnsPacket) : Prop :=
  let (packet, message) := m in
  _dns_message (tp_payload packet) question_family = Ok message /\ tp_protocol packet = "udp"%string /\
  exists leg, dict_get legs (tp_family packet) = Some leg /\
    (if dm_is_response message
     then tp_source packet = leg_resolver_address leg /\ tp_source_port packet = 53 /\
          tp_destination packet = leg_client_address leg
     else tp_source packet = leg_client_address leg /\ tp_destination packet = leg_resolver_address leg /\
          tp_destination_port packet = 53).

Lemma seq_spec a b : seq_ a b = true <-> a = b.
Proof. apply String.eqb_eq. Qed.

Lemma dns_leg_message_inv legs question_family packet m :
  _dns_leg_message legs question_family packet = Ok m -> fst m = packet /\ on_leg legs question_family m.
Proof.
  unfold _dns_leg_message. intros H. cbn zeta in H.
  destruct (negb _) eqn:Hudp in H; [done|]. apply negb_false_iff, seq_spec in Hudp.
  destruct (dict_get _ _) as [leg|] eqn:Hleg; [|done]. res_inv H. subst m. split; [done|].
  cbn [fst snd on_leg]. split_and!; [done|done|]. exists leg. split; [done|].
  apply negb_false_iff, eqb_prop in G0. rewrite G0.
  apply andb_false_iff in G. rewrite !negb_false_iff in G.
  destruct (seq_ (tp_source packet) (leg_resolver_address leg) && _ && _) eqn:Ha.
  - rewrite !andb_true_iff, !seq_spec, Z.eqb_eq in Ha. tauto.
  - destruct G as [G|G]; [|done]. rewrite !andb_true_iff, !seq_spec, Z.eqb_eq in G. tauto.
Qed.

Lemma dns_leg_messages_inv transports legs question_family messages :
  _dns_leg_messages transports legs question_family = Ok messages ->
  map fst messages = transports /\ Forall (on_leg legs question_family) messages.
Proof.
  unfold _dns_leg_messages. rewrite map_res_ok. intros H.
  induction H as [|packet m transports messages Hm H IH]; [done|]. cbn [map].
  apply dns_leg_message_inv in Hm as [-> Hm]. destruct IH as [-> IH]. split; [done|by constructor].
Qed.

Lemma rd_of_payload data1 data2 family m1 m2 :
  _dns_message data1 family = Ok m1 -> _dns_message data2 family = Ok m2 ->
  slice_from data1 2 = slice_from data2 2 -> dm_recursion_desired m1 = dm_recursion_desired m2.
Proof.
  assert (Hrd : forall data m, _dns_message data family = Ok m -> dm_recursion_desired m =
    negb (Z.land (int_of BigEndian (take 2 (slice_from data 2))) DNS_FLAG_RECURSION_DESIRED =? 0)).
  { intros data m H. unfold _dns_message in H. res_inv H.
    apply unpack_inv in E0 as (_ & _ & ->). change (Z.of_nat 2) with 2 in *.
    change (slice data 2 (2 + 2)) with (take 2 (slice_from data 2)) in *.
    destruct (_ && _) eqn:HQ in H; res_inv H; [by subst|].
    destruct (str_ip_address _) as [|[]] in H; try discriminate H. res_inv H. by subst. }
  intros H1 H2 Hs. by rewrite (Hrd _ _ H1), (Hrd _ _ H2), Hs.
Qed.

(** [transaction q a]: the answer record [a] answers the query record [q]. *)
Definition transaction (q a : DnsPacket) : Prop :=
  dm_identifier (snd q) = dm_identifier (snd a) /\
  tp_source (fst q) = tp_destination (fst a) /\ tp_source_port (fst q) = tp_destination_port (fst a) /\
  tp_destination (fst q) = tp_source (fst a) /\
  dm_recursion_desired (snd q) = dm_recursion_desired (snd a) /\
  (tp_timestamp (fst q) < tp_timestamp (fst a))%Q.

Definition names_query (name : string) (messages : list DnsPacket) (m : DnsPacket) : Prop :=
  m ∈ messages /\ dm_question_name (snd m) = name /\ dm_is_response (snd m) = false.
Definition names_answer (name : string) (messages : list DnsPacket) (m : DnsPacket) : Prop :=
  m ∈ messages /\ dm_question_name (snd m) = name /\ dm_is_response (snd m) = true.

(** What [_dns_exchange] promises. *)
Definition exchange_spec (name : string) (messages : list DnsPacket) (x : DnsExchange) : Prop :=
  (exists qm am, names_query name messages (dx_query x, qm) /\ names_answer name messages (dx_answer x, am) /\
     transaction (dx_query x, qm) (dx_answer x, am)) /\
  (forall a, names_answer name messages a ->
     (tp_timestamp (dx_answer x) <= tp_timestamp (fst a))%Q /\
     slice_from (tp_payload (dx_answer x)) 2 = slice_from (tp_payload (fst a)) 2 /\
     exists q, names_query name messages q /\ transaction q a) /\
  (forall q, names_query name messages q -> slice_from (tp_payload (dx_query x)) 2 = slice_from (tp_payload (fst q)) 2) /\
  dx_records x = map fst (named_by name messages).

Lemma flt_spec a b : flt a b = true <-> (a < b)%Q.
Proof.
  unfold flt. rewrite negb_true_iff. split.
  - intros H. apply Qnot_le_lt. intros Hc. apply Qle_bool_iff in Hc. congruence.
  - intros H. apply not_true_iff_false. rewrite Qle_bool_iff. by apply Qlt_not_le.
Qed.

Lemma answers_query_spec answer message q :
  answers_query answer message q = true ->
  dm_identifier (snd q) = dm_identifier message /\ tp_source (fst q) = tp_destination answer /\
  tp_source_port (fst q) = tp_destination_port answer /\ tp_destination (fst q) = tp_source answer /\
  (tp_timestamp (fst q) < tp_timestamp answer)%Q.
Proof.
  destruct q as [query qm]. unfold answers_query. cbn [fst snd].
  rewrite !andb_true_iff, !seq_spec, !Z.eqb_eq, flt_spec. tauto.
Qed.

Lemma dns_exchange_inv legs question_family messages token name x :
  Forall (on_leg legs question_family) messages -> evidence_name token = Ok name ->
  _dns_exchange messages token = Ok x -> exchange_spec name messages x.
Proof.
  intros Hleg Hname H. unfold _dns_exchange in H. rewrite Hname in H. cbn [mbind result_bind] in H. cbn zeta in H.
  fold (named_by name messages) in H.
  destruct (List.filter is_query _) as [|[fq fm] qs] eqn:Hqs; [done|]. res_inv H.
  apply dns_pairs_spec in E as (pairs & -> & Hpairs). cbn [app] in H.
  destruct pairs as [|p rest]; [done|].
  destruct (min_by_spec (fun pair : TransportPacket * TransportPacket => tp_timestamp (snd pair)) p rest) as (Hmin & Hle1 & Hle2).
  set (best := min_by _ p rest) in *.
  assert (Hbest : best ∈ p :: rest) by (destruct Hmin as [->|?]; [by left|by right]).
  assert (Hx : x = {| dx_query := best.1; dx_answer := best.2; dx_records := map fst (named_by name messages) |})
    by (destruct best; by injection H as <-). clear H.
  assert (Hq_in : forall q, q ∈ (fq, fm) :: qs <-> names_query name messages q) by (intros q; rewrite <-Hqs; apply queries_in).
  assert (Hfirst : names_query name messages (fq, fm)) by (apply Hq_in; by left).
  assert (Hpay : forall q, names_query name messages q -> slice_from (tp_payload (fst q)) 2 = slice_from (tp_payload fq) 2).
  { intros q Hq. apply (differs_beyond_id_false ((fq, fm) :: qs) q (fq, fm)); [done|by apply Hq_in|by left]. }
  assert (Hrd : forall q, names_query name messages q -> dm_recursion_desired (snd q) = dm_recursion_desired fm).
  { intros [q qm] Hq. pose proof (Hpay _ Hq) as He. destruct Hq as [Hq _], Hfirst as [Hf _].
    rewrite Forall_forall in Hleg. pose proof (Hleg _ Hq) as [Hd _]. pose proof (Hleg _ Hf) as [Hd' _].
    by eapply rd_of_payload. }
  assert (Hpair : forall pr, pr ∈ p :: rest -> exists m qm, names_answer name messages m /\ fst m = snd pr /\
            names_query name messages (fst pr, qm) /\ transaction (fst pr, qm) m).
  { intros pr Hpr. apply (list_elem_of_lookup_1) in Hpr as [i Hi].
    destruct (Forall2_lookup_r _ _ _ _ _ Hpairs Hi) as (m & Hm & Hans & (qm & Hqm & Haq) & Hrdm).
    exists m, qm. apply list_elem_of_lookup_2 in Hm. apply answers_in in Hm.
    apply Hq_in in Hqm. apply answers_query_spec in Haq as (? & ? & ? & ? & ?).
    split_and!; [exact Hm|done|exact Hqm|]. split_and!; try done. by rewrite (Hrd _ Hqm). }
  subst x. split_and!; cbn [dx_query dx_answer dx_records].
  - destruct (Hpair best Hbest) as ([a am] & qm & Ha & <- & Hq & Ht). exists qm, am. done.
  - intros a Ha. pose proof Ha as Ha'. apply answers_in in Ha'. apply list_elem_of_lookup_1 in Ha' as [i Hi].
    destruct (Forall2_lookup_l _ _ _ _ _ Hpairs Hi) as (pr & Hpr & Hans & (qm & Hqm & Haq) & Hrdm).
    apply list_elem_of_lookup_2 in Hpr. apply Hq_in in Hqm.
    split_and!.
    + rewrite <-Hans. apply elem_of_cons in Hpr as [->|Hpr]; [done|by apply Hle2].
    + destruct (Hpair best Hbest) as (a' & _ & Ha' & <- & _).
      apply (differs_beyond_id_false (List.filter is_answer (named_by name messages))); [done|by apply answers_in..].
    + exists (pr.1, qm). split; [done|]. apply answers_query_spec in Haq as (? & ? & ? & ? & ?).
      split_and!; try done. by rewrite (Hrd _ Hqm).
  - intros q Hq. destruct (Hpair best Hbest) as (_ & qm & _ & _ & Hbq & _).
    rewrite (Hpay _ Hq). apply (Hpay _ Hbq).
  - done.
Qed.

(** ** Accounting *)

Lemma permutation_3way {A} (f g h : A -> bool) (l : list A) :
  (forall x, x ∈ l -> (f x = true /\ g x = false /\ h x = false) \/ (f x = false /\ g x = true /\ h x = false) \/
                      (f x = false /\ g x = false /\ h x = true)) ->
  Permutation l (List.filter f l ++ List.filter g l ++ List.filter h l).
Proof.
  induction l as [|x l IH]; intros Hc; [done|]. cbn [List.filter].
  assert (IH' := IH (fun y Hy => Hc y (proj2 (elem_of_cons l y x) (or_intror Hy)))). clear IH.
  destruct (Hc x) as [(-> & -> & ->)|[(-> & -> & ->)|(-> & -> & ->)]]; [by left| | |].
  - cbn [app]. by constructor.
  - rewrite <-app_comm_cons, <-Permutation_middle. by constructor.
  - rewrite app_assoc, <-Permutation_middle, <-app_assoc. by constructor.
Qed.

Lemma existsb_negb_false {A} (p : A -> bool) l x :
  existsb (fun y => negb (p y)) l = false -> x ∈ l -> p x = true.
Proof.
  intros He Hx. destruct (p x) eqn:Hp; [done|]. exfalso. apply not_true_iff_false in He.
  apply He, existsb_exists. exists x. rewrite <-list_elem_of_In. by rewrite Hp.
Qed.

Lemma dns_exchanges_inv transports legs question_family t1 t2 t3 x1 x2 x3 :
  _dns_exchanges transports legs question_family (t1, t2, t3) = Ok (x1, x2, x3) ->
  exists messages n1 n2 n3,
    _dns_leg_messages transports legs question_family = Ok messages /\
    evidence_name t1 = Ok n1 /\ evidence_name t2 = Ok n2 /\ evidence_name t3 = Ok n3 /\
    _dns_exchange messages t1 = Ok x1 /\ _dns_exchange messages t2 = Ok x2 /\ _dns_exchange messages t3 = Ok x3 /\
    (forall m, m ∈ messages -> dm_question_name (snd m) ∈ [n1; n2; n3]).
Proof.
  unfold _dns_exchanges. intros H. res_inv H. simplify_eq.
  exists v, v0, v1, v2. split_and!; try done. intros m Hm.
  pose proof (existsb_negb_false _ _ _ G Hm) as Hn. apply existsb_exists in Hn as (n & Hn & He).
  apply seq_spec in He. rewrite He. by apply list_elem_of_In.
Qed.

Lemma dns_exchanges_accounted transports legs question_family t1 t2 t3 n1 n2 n3 x1 x2 x3 :
  _dns_exchanges transports legs question_family (t1, t2, t3) = Ok (x1, x2, x3) ->
  evidence_name t1 = Ok n1 -> evidence_name t2 = Ok n2 -> evidence_name t3 = Ok n3 ->
  n1 <> n2 -> n1 <> n3 -> n2 <> n3 ->
  Permutation transports (dx_records x1 ++ dx_records x2 ++ dx_records x3) /\
  exists messages, map fst messages = transports /\ Forall (on_leg legs question_family) messages /\
    exchange_spec n1 messages x1 /\ exchange_spec n2 messages x2 /\ exchange_spec n3 messages x3.
Proof.
  intros H Hn1 Hn2 Hn3 H12 H13 H23.
  destruct (dns_exchanges_inv _ _ _ _ _ _ _ _ _ H) as (messages & m1 & m2 & m3 & Hms & E1 & E2 & E3 & X1 & X2 & X3 & Hnames).
  rewrite Hn1 in E1; rewrite Hn2 in E2; rewrite Hn3 in E3. injection E1 as <-. injection E2 as <-. injection E3 as <-.
  destruct (dns_leg_messages_inv _ _ _ _ Hms) as [Hfst Hleg].
  pose proof (dns_exchange_inv _ _ _ _ _ _ Hleg Hn1 X1) as S1.
  pose proof (dns_exchange_inv _ _ _ _ _ _ Hleg Hn2 X2) as S2.
  pose proof (dns_exchange_inv _ _ _ _ _ _ Hleg Hn3 X3) as S3.
  split; [|exists messages; exact (conj Hfst (conj Hleg (conj S1 (conj S2 S3))))]. destruct S1 as (_ & _ & _ & ->), S2 as (_ & _ & _ & ->), S3 as (_ & _ & _ & ->).
  rewrite <-Hfst, <-!map_app. apply Permutation_map. apply permutation_3way.
  intros m Hm. specialize (Hnames m Hm). rewrite !elem_of_cons, elem_of_nil in Hnames.
  unfold seq_. destruct Hnames as [->|[->|[->|[]]]]; rewrite !String.eqb_refl;
    rewrite ?(proj2 (String.eqb_neq n1 n2)), ?(proj2 (String.eqb_neq n1 n3)), ?(proj2 (String.eqb_neq n2 n3)),
      ?(proj2 (String.eqb_neq n2 n1)), ?(proj2 (String.eqb_neq n3 n1)), ?(proj2 (String.eqb_neq n3 n2)) by done; tauto.
Qed.

(** Under identical retransmissions a DNS capture is accounted for record by
    record.  When [_dns_exchanges] accepts a capture whose three tokens have
    distinct names, its records are exactly (as a multiset) the records of the
    three exchanges; every record is an exact message from a leg's client to
    its resolver's port 53 or back; and each exchange is its token's: its query
    and answer are records of the capture that match in ID, client port, leg
    and RD bit with the query strictly first, no answer of the token is earlier
    than the exchange's answer, every answer answers an earlier query of the
    token, and the token's queries, and its answers, differ at most in the DNS
    ID. *)
Theorem dns_exchanges_account transports legs question_family t1 t2 t3 n1 n2 n3 x1 x2 x3 :
  _dns_exchanges transports legs question_family (t1, t2, t3) = Ok (x1, x2, x3) ->
  evidence_name t1 = Ok n1 -> evidence_name t2 = Ok n2 -> evidence_name t3 = Ok n3 ->
  n1 <> n2 -> n1 <> n3 -> n2 <> n3 ->
  Permutation transports (dx_records x1 ++ dx_records x2 ++ dx_records x3) /\
  exists messages, map fst messages = transports /\ Forall (on_leg legs question_family) messages /\
    exchange_spec n1 messages x1 /\ exchange_spec n2 messages x2 /\ exchange_spec n3 messages x3.
Proof. apply dns_exchanges_accounted. Qed.

(** A capture of three exchanges over both legs, with a repeated query. *)
Definition udp_packet (family source destination : string) (sport dport ms : Z) (payload : bytes) : TransportPacket := {|
  tp_timestamp := fraction ms 1000; tp_family := family; tp_source := source; tp_destination := destination;
  tp_source_port := sport; tp_destination_port := dport; tp_protocol := "udp"; tp_payload := payload;
  tp_sequence := None; tp_link_type := 1; tp_interface_id := 0 |}.

Definition sample_legs : list (string * DnsResolverLeg) :=
  [("ipv4", {| leg_client_address := "198.18.0.1"; leg_resolver_address := "198.18.0.2" |});
   ("ipv6", {| leg_client_address := "fd00::1"; leg_resolver_address := "fd00::2" |})]%string.
Definition token_labels (c : string) : list bytes := [bstr c; bstr "evidence"; bstr "test"].

Definition sample_dns_transports : list TransportPacket :=
  [udp_packet "ipv4" "198.18.0.1" "198.18.0.2" 5001 53 0 (dns_query 1 true (token_labels "aa") "ipv4");
   udp_packet "ipv4" "198.18.0.1" "198.18.0.2" 5001 53 5 (dns_query 1 true (token_labels "aa") "ipv4");
   udp_packet "ipv4" "198.18.0.2" "198.18.0.1" 53 5001 10 (dns_answer 1 true (token_labels "aa") "ipv4" true);
   udp_packet "ipv6" "fd00::1" "fd00::2" 5002 53 500 (dns_query 2 true (token_labels "bb") "ipv4");
   udp_packet "ipv6" "fd00::2" "fd00::1" 53 5002 510 (dns_answer 2 true (token_labels "bb") "ipv4" false);
   udp_packet "ipv4" "198.18.0.1" "198.18.0.2" 5003 53 2000 (dns_query 3 true (token_labels "cc") "ipv4");
   udp_packet "ipv4" "198.18.0.2" "198.18.0.1" 53 5003 2010 (dns_answer 3 true (token_labels "cc") "ipv4" true)]%string.

Lemma dns_exchanges_account_witness :
  exists x1 x2 x3,
    _dns_exchanges sample_dns_transports sample_legs "ipv4" (bstr "aa", bstr "bb", bstr "cc") = Ok (x1, x2, x3) /\
    Permutation sample_dns_transports (dx_records x1 ++ dx_records x2 ++ dx_records x3).
Proof.
  eexists _, _, _. split; [vm_compute; reflexivity|].
  refine (proj1 (dns_exchanges_account sample_dns_transports sample_legs "ipv4" (bstr "aa") (bstr "bb") (bstr "cc")
    "aa.evidence.test" "bb.evidence.test" "cc.evidence.test" _ _ _ _ _ _ _ _ _ _));
    [vm_compute; reflexivity|reflexivity|reflexivity|reflexivity|discriminate|discriminate|discriminate].
Defined.
