(* ===== verification/Sha256.v ===== *)
(** * SHA-256

    [hashlib.sha256(...).hexdigest()] of the Python standard library, on 32-bit
    words kept as integers below 2^32. *)

From S2P Require Import Prelude.

Definition M32 : Z := 2 ^ 32.
Definition add32 (a b : Z) : Z := (a + b) mod M32.
Definition rotr (n x : Z) : Z := Z.lor (Z.shiftr x n) (Z.shiftl x (32 - n) mod M32).
Definition not32 (x : Z) : Z := M32 - 1 - x.

Definition Ch (x y z : Z) : Z := Z.lxor (Z.land x y) (Z.land (not32 x) z).
Definition Maj (x y z : Z) : Z := Z.lxor (Z.lxor (Z.land x y) (Z.land x z)) (Z.land y z).
Definition big_sigma0 (x : Z) : Z := Z.lxor (Z.lxor (rotr 2 x) (rotr 13 x)) (rotr 22 x).
Definition big_sigma1 (x : Z) : Z := Z.lxor (Z.lxor (rotr 6 x) (rotr 11 x)) (rotr 25 x).
Definition small_sigma0 (x : Z) : Z := Z.lxor (Z.lxor (rotr 7 x) (rotr 18 x)) (Z.shiftr x 3).
Definition small_sigma1 (x : Z) : Z := Z.lxor (Z.lxor (rotr 17 x) (rotr 19 x)) (Z.shiftr x 10).

(** The round constants: the first 32 bits of the fractional parts of the cube
    roots of the first 64 primes. *)
Definition is_prime (n : Z) : bool :=
  forallb (fun d => negb (n mod d =? 0)) (map Z.of_nat (seq 2 (Z.to_nat (n - 2)))).
Definition primes_to (n : nat) : list Z := List.filter is_prime (map Z.of_nat (seq 2 (n - 1))).

(** The largest [r] with [r^3 <= n], bit by bit. *)
Fixpoint cube_root (bits : nat) (r n : Z) : Z :=
  match bits with
  | O => r
  | S bits =>
      let r' := r + 2 ^ Z.of_nat bits in
      cube_root bits (if r' * r' * r' <=? n then r' else r) n
  end.

Definition round_constants : list Z :=
  Eval vm_compute in map (fun p => cube_root 36 0 (p * 2 ^ 96) mod M32) (primes_to 311).

Record HashState := { ha : Z; hb : Z; hc : Z; hd_ : Z; he : Z; hf : Z; hg : Z; hh : Z }.

(** The initial state: the same of the square roots of the first eight primes. *)
Definition initial_words : list Z :=
  Eval vm_compute in map (fun p => Z.sqrt (p * 2 ^ 64) mod M32) (primes_to 19).

Definition hash_init : HashState :=
  match initial_words with
  | [a; b; c; d; e; f; g; h] => {| ha := a; hb := b; hc := c; hd_ := d; he := e; hf := f; hg := g; hh := h |}
  | _ => {| ha := 0; hb := 0; hc := 0; hd_ := 0; he := 0; hf := 0; hg := 0; hh := 0 |}
  end.

Definition sha_round (s : HashState) (kw : Z) : HashState :=
  let t1 := add32 (add32 (hh s) (big_sigma1 (he s))) (add32 (Ch (he s) (hf s) (hg s)) kw) in
  let t2 := add32 (big_sigma0 (ha s)) (Maj (ha s) (hb s) (hc s)) in
  {| ha := add32 t1 t2; hb := ha s; hc := hb s; hd_ := hc s;
     he := add32 (hd_ s) t1; hf := he s; hg := hf s; hh := hg s |}.

(** The rounds of one block: [window] holds the sixteen words of the message
    schedule that start at the current round. *)
Fixpoint sha_rounds (ks : list Z) (window : list Z) (s : HashState) : HashState :=
  match ks, window with
  | k :: ks, w :: rest =>
      let next := add32 (add32 (small_sigma1 (nth 13 rest 0)) (nth 8 rest 0)) (add32 (small_sigma0 (nth 0 rest 0)) w) in
      sha_rounds ks (rest ++ [next]) (sha_round s (add32 k w))
  | _, _ => s
  end.

Definition add_state (a b : HashState) : HashState :=
  {| ha := add32 (ha a) (ha b); hb := add32 (hb a) (hb b); hc := add32 (hc a) (hc b); hd_ := add32 (hd_ a) (hd_ b);
     he := add32 (he a) (he b); hf := add32 (hf a) (hf b); hg := add32 (hg a) (hg b); hh := add32 (hh a) (hh b) |}.

(** Big-endian words of a block of 4n bytes. *)
Fixpoint words (n : nat) (l : bytes) : list Z :=
  match n with O => [] | S n => int_of BigEndian (take 4 l) :: words n (drop 4 l) end.

Definition sha_block (s : HashState) (block : bytes) : HashState :=
  add_state s (sha_rounds round_constants (words 16 block) s).

Fixpoint sha_blocks (n : nat) (l : bytes) (s : HashState) : HashState :=
  match n with O => s | S n => sha_blocks n (drop 64 l) (sha_block s (take 64 l)) end.

Definition sha_pad (l : bytes) : bytes :=
  l ++ [x80] ++ replicate (Z.to_nat ((55 - len l) mod 64)) x00 ++ bytes_of BigEndian 8 ((8 * len l) mod 2 ^ 64).

Definition sha256 (l : bytes) : bytes :=
  let padded := sha_pad l in
  let s := sha_blocks (Z.to_nat (len padded / 64)) padded hash_init in
  flat_map (fun w => bytes_of BigEndian 4 w) [ha s; hb s; hc s; hd_ s; he s; hf s; hg s; hh s].

(** [bytes.hex()]. *)
Definition hex_nibble (n : Z) : ascii :=
  ascii_of_N (Z.to_N (if n <? 10 then 48 + n else 87 + n)).
Fixpoint hex (l : bytes) : string :=
  match l with
  | [] => EmptyString
  | b :: l => String (hex_nibble (bz b / 16)) (String (hex_nibble (bz b mod 16)) (hex l))
  end.

Definition sha256_hexdigest (l : bytes) : string := hex (sha256 l).

Lemma sha256_len l : len (sha256 l) = 32.
Proof. unfold sha256. cbn [flat_map]. rewrite !len_app, !bytes_of_len, len_nil. lia. Qed.

Example sha256_abc :
  sha256_hexdigest (bstr "abc") = "ba7816bf8f01cfea414140de5dae2223b00361a396177a9cb410ff61f20015ad"%string.
Proof. vm_compute. reflexivity. Qed.

Example sha256_two_blocks :
  sha256_hexdigest (bstr "abcdbcdecdefdefgefghfghighijhijkijkljklmklmnlmnomnopnopq")
  = "248d6a61d20638b8e5c026930c3e6039a33ce45964ff2167f6ecedd419db06c1"%string.
Proof. vm_compute. reflexivity. Qed.
