(* ===== verification/CaptureStages.v ===== *)
(** * Stages, events and transport families

    [_tcp_stage_segments], [_record_spans], [_quic_connection_ids],
    [_events_for_token], [_event_windows_for_token], [_resolver_legs_by_family]
    and [_stage_transport_families] of [scripts/harness/packet_capture.py]. *)

From S2P Require Import Prelude PacketTypes CaptureParse IpAddress PacketDecode PacketFrames TcpReassembly Dns.

(** The three stages of an evidence case: start, target and end. *)
Abbreviation triple A := (A * A * A)%type.
Definition stages {A} (t : triple A) : list A := let '(a, b, c) := t in [a; b; c].

(** ** TCP data segments *)

(** [flow == stage_flow and packet.payload == token], for a TCP packet. *)
Definition owns_segment (packet : TransportPacket) (stage : StagedCaptureEndpoint * bytes) : bool :=
  let (endpoint, token) := stage in
  seq_ (tp_protocol packet) "tcp"
  && seq_ (tp_source packet) (ep_local_address endpoint) && (tp_source_port packet =? ep_local_port endpoint)
  && seq_ (tp_destination packet) (ep_remote_address endpoint) && (tp_destination_port packet =? ep_remote_port endpoint)
  && beq (tp_payload packet) token.

(** [stage.append(packet)] after the check of the stage's sequence number. *)
Definition append_segment (stage : list TransportPacket) (packet : TransportPacket) : res (list TransportPacket) :=
  match stage with
  | first :: _ =>
      raise_if negb (bool_decide (tp_sequence packet = tp_sequence first))
        with PacketCaptureError "TCP stage repeats its data at another sequence number" ;;
      Ok (stage ++ [packet])
  | [] => Ok [packet]
  end.

(** One record of the loop of [_tcp_stage_segments]; the first owner takes it. *)
Definition _tcp_segment_step (endpoints : triple StagedCaptureEndpoint) (tokens : Tokens)
    (segments : triple (list TransportPacket)) (packet : TransportPacket) : res (triple (list TransportPacket)) :=
  let '(e1, e2, e3) := endpoints in
  let '(t1, t2, t3) := tokens in
  let '(s1, s2, s3) := segments in
  if owns_segment packet (e1, t1) then s1 ← append_segment s1 packet; Ok (s1, s2, s3)
  else if owns_segment packet (e2, t2) then s2 ← append_segment s2 packet; Ok (s1, s2, s3)
  else if owns_segment packet (e3, t3) then s3 ← append_segment s3 packet; Ok (s1, s2, s3)
  else Err (PacketCaptureError "TCP capture record is not a stage's data segment or its repeat").

Definition is_nil {A} (l : list A) : bool := match l with [] => true | _ => false end.

Definition _tcp_stage_segments (transports : list TransportPacket) (endpoints : triple StagedCaptureEndpoint)
    (tokens : Tokens) : res (triple (list TransportPacket)) :=
  '(s1, s2, s3) ← fold_res (_tcp_segment_step endpoints tokens) ([], [], []) transports;
  raise_if is_nil s1 || is_nil s2 || is_nil s3 with PacketCaptureError "TCP stage has no data segment" ;;
  Ok (s1, s2, s3).

(** ** Record spans *)

Fixpoint max_by {A} (key : A -> Fraction) (best : A) (l : list A) : A :=
  match l with
  | [] => best
  | x :: l => max_by key (if flt (key best) (key x) then x else best) l
  end.

(** [min] and [max] raise on an empty sequence. *)
Definition record_span (records : list TransportPacket) : res StageRecordSpan :=
  match records with
  | [] => Err (ValueError "min() iterable argument is empty")
  | r :: rest =>
      Ok {| first_at := tp_timestamp (min_by tp_timestamp r rest);
            last_at := tp_timestamp (max_by tp_timestamp r rest) |}
  end.

Definition _record_spans (stages : triple (list TransportPacket)) : res (triple StageRecordSpan) :=
  let '(s1, s2, s3) := stages in
  start ← record_span s1;
  target ← record_span s2;
  end_ ← record_span s3;
  Ok (start, target, end_).

(** ** QUIC connection identifiers *)

Definition _quic_connection_ids (data : bytes) : res (Z * bytes * bytes) :=
  raise_if len data <? 7 with PacketCaptureError "QUIC packet lacks a long-header fixed-bit contract" ;;
  first ← u8 data 0;
  raise_if (Z.land first 0x40 =? 0) || (Z.land first 0x80 =? 0)
    with PacketCaptureError "QUIC packet lacks a long-header fixed-bit contract" ;;
  let version := from_bytes_big (slice data 1 5) in
  raise_if version =? 0 with PacketCaptureError "QUIC version-negotiation packets are not proof" ;;
  dcid_length ← u8 data 5;
  raise_if negb ((1 <=? dcid_length) && (dcid_length <=? 20)) || (len data <=? 6 + dcid_length)
    with PacketCaptureError "QUIC destination connection ID length is invalid" ;;
  let dcid := slice data 6 (6 + dcid_length) in
  let scid_length_offset := 6 + dcid_length in
  scid_length ← u8 data scid_length_offset;
  let scid_start := scid_length_offset + 1 in
  raise_if negb ((1 <=? scid_length) && (scid_length <=? 20)) || (len data <? scid_start + scid_length)
    with PacketCaptureError "QUIC source connection ID length is invalid" ;;
  Ok (version, dcid, slice data scid_start (scid_start + scid_length)).

(** ** Events *)

Definition of_family (family : string) (packets : list TransportPacket) : list TransportPacket :=
  List.filter (fun packet => seq_ (tp_family packet) family) packets.
Definition is_tcp (packet : TransportPacket) : bool := seq_ (tp_protocol packet) "tcp".
Definition is_udp (packet : TransportPacket) : bool := seq_ (tp_protocol packet) "udp".

(** One packet of the QUIC loop: its time when a connection ID holds the token. *)
Definition _quic_event (token : bytes) (times : list Fraction) (packet : TransportPacket) : res (list Fraction) :=
  if negb (is_udp packet) then Ok times
  else
    '(_, dcid, scid) ← _quic_connection_ids (tp_payload packet);
    Ok (if bytes_contain token dcid || bytes_contain token scid then times ++ [tp_timestamp packet] else times).

Definition unsupported_protocol (protocol : string) : exn :=
  PacketCaptureError ("unsupported evidence protocol: " +:+ py_repr protocol).

Definition _events_for_token (packets : list TransportPacket) (protocol family : string) (token : bytes)
    (question_family : string) : res (list Fraction) :=
  let matching := of_family family packets in
  if seq_ protocol "tcp" then _tcp_token_times (List.filter is_tcp matching) token
  else if seq_ protocol "udp" then
    Ok (map tp_timestamp
          (List.filter (fun packet => is_udp packet && bytes_contain token (tp_payload packet)) matching))
  else if seq_ protocol "dns" then
    '(_, response_at, _) ← _dns_response_for_token matching family token question_family;
    Ok [response_at]
  else if seq_ protocol "quic" then fold_res (_quic_event token) [] matching
  else Err (unsupported_protocol protocol).

(** The QUIC loop of [_event_windows_for_token]. *)
Definition _quic_window (token : bytes) (windows : list (Fraction * Fraction)) (packet : TransportPacket)
    : res (list (Fraction * Fraction)) :=
  if negb (is_udp packet) then Ok windows
  else
    '(_, dcid, scid) ← _quic_connection_ids (tp_payload packet);
    Ok (if bytes_contain token dcid || bytes_contain token scid
        then windows ++ [(tp_timestamp packet, tp_timestamp packet)] else windows).

Definition _event_windows_for_token (packets : list TransportPacket) (protocol family : string) (token : bytes)
    (question_family : string) : res (list (Fraction * Fraction)) :=
  let matching := of_family family packets in
  if seq_ protocol "tcp" then _tcp_token_windows (List.filter is_tcp matching) token
  else if seq_ protocol "udp" then
    Ok (map (fun packet => (tp_timestamp packet, tp_timestamp packet))
          (List.filter (fun packet => is_udp packet && bytes_contain token (tp_payload packet)) matching))
  else if seq_ protocol "dns" then
    '(query_at, response_at, _) ← _dns_response_for_token matching family token question_family;
    Ok [(query_at, response_at)]
  else if seq_ protocol "quic" then fold_res (_quic_window token) [] matching
  else Err (unsupported_protocol protocol).

(** ** Resolver legs *)

Definition _resolver_leg_step (indexed : list (string * DnsResolverLeg)) (leg : DnsResolverLeg)
    : res (list (string * DnsResolverLeg)) :=
  match ip_address_text (leg_client_address leg), ip_address_text (leg_resolver_address leg) with
  | Some client, Some resolver =>
    let leg_family := if ip_version client =? 4 then "ipv4"%string else "ipv6"%string in
    raise_if negb (ip_version client =? ip_version resolver)
             || negb (seq_ (ip_str client) (leg_client_address leg))
             || negb (seq_ (ip_str resolver) (leg_resolver_address leg))
             || negb (is_none (dict_get indexed leg_family))
      with PacketCaptureError "DNS resolver legs are not one canonical address pair per family" ;;
    Ok (indexed ++ [(leg_family, leg)])
  | _, _ => Err (PacketCaptureError "DNS resolver leg address is invalid")
  end.

Definition _resolver_legs_by_family (legs : list DnsResolverLeg) : res (list (string * DnsResolverLeg)) :=
  raise_if is_nil legs with PacketCaptureError "DNS resolver legs are empty" ;;
  fold_res _resolver_leg_step [] legs.

(** The legs a stage's endpoint is on. *)
Definition endpoint_on_leg (endpoint : StagedCaptureEndpoint) (leg : DnsResolverLeg) : bool :=
  seq_ (ep_local_address endpoint) (leg_client_address leg)
  && seq_ (ep_remote_address endpoint) (leg_resolver_address leg)
  && (ep_remote_port endpoint =? 53)
  && ((1 <=? ep_local_port endpoint) && (ep_local_port endpoint <=? 65535)).

Definition _stage_family (legs : list (string * DnsResolverLeg)) (endpoint : StagedCaptureEndpoint) : res string :=
  match List.filter (fun item => endpoint_on_leg endpoint (snd item)) legs with
  | [(leg_family, _)] => Ok leg_family
  | _ => Err (PacketCaptureError "staged DNS endpoint is not one admitted resolver leg")
  end.

Definition _stage_transport_families (endpoints : triple StagedCaptureEndpoint) (protocol family : string)
    (dns_resolver_legs : option (list DnsResolverLeg)) : res (triple string) :=
  match dns_resolver_legs with
  | None => Ok (family, family, family)
  | Some dns_resolver_legs =>
    raise_if negb (seq_ protocol "dns")
      with PacketCaptureError "only DNS evidence may use per-stage resolver legs" ;;
    legs ← _resolver_legs_by_family dns_resolver_legs;
    let '(e1, e2, e3) := endpoints in
    f1 ← _stage_family legs e1;
    f2 ← _stage_family legs e2;
    f3 ← _stage_family legs e3;
    Ok (f1, f2, f3)
  end.

(** ** Accounting of TCP segments *)

(** A data segment of a stage: a TCP packet from the stage's local endpoint to
    its remote one that carries the stage's token and nothing else. *)
Definition data_segment (endpoint : StagedCaptureEndpoint) (token : bytes) (p : TransportPacket) : Prop :=
  tp_protocol p = "tcp"%string /\
  (tp_source p, tp_source_port p) = (ep_local_address endpoint, ep_local_port endpoint) /\
  (tp_destination p, tp_destination_port p) = (ep_remote_address endpoint, ep_remote_port endpoint) /\
  tp_payload p = token.

#[export] Instance data_segment_dec endpoint token p : Decision (data_segment endpoint token p).
Proof. unfold data_segment. apply _. Defined.

Lemma owns_segment_spec p endpoint token :
  owns_segment p (endpoint, token) = bool_decide (data_segment endpoint token p).
Proof.
  apply eq_bool_prop_intro. rewrite bool_decide_spec, Is_true_true. unfold owns_segment, data_segment.
  unfold beq. rewrite !andb_true_iff, !Z.eqb_eq, !seq_spec, bool_decide_eq_true.
  split; [intros [[[[[? ->] ->] ->] ->] ?]; done|]. intros (? & [= ? ?] & [= ? ?] & ?). tauto.
Qed.

(** The stage a record belongs to: the first whose data segment it is. *)
Definition owner1 (es : triple StagedCaptureEndpoint) (ts : Tokens) (p : TransportPacket) : bool :=
  bool_decide (data_segment es.1.1 ts.1.1 p).
Definition owner2 (es : triple StagedCaptureEndpoint) (ts : Tokens) (p : TransportPacket) : bool :=
  negb (owner1 es ts p) && bool_decide (data_segment es.1.2 ts.1.2 p).
Definition owner3 (es : triple StagedCaptureEndpoint) (ts : Tokens) (p : TransportPacket) : bool :=
  negb (owner1 es ts p) && negb (owner2 es ts p) && bool_decide (data_segment es.2 ts.2 p).
Definition owned (es : triple StagedCaptureEndpoint) (ts : Tokens) (p : TransportPacket) : bool :=
  owner1 es ts p || owner2 es ts p || owner3 es ts p.

(** All packets of a stage carry the same sequence number. *)
Definition same_sequence (l : list TransportPacket) : Prop :=
  forall p q, p ∈ l -> q ∈ l -> tp_sequence p = tp_sequence q.

Lemma append_segment_spec s p s' :
  same_sequence s ->
  append_segment s p = Ok s' <-> s' = s ++ [p] /\ same_sequence (s ++ [p]).
Proof.
  intros Hs. unfold append_segment. destruct s as [|first s].
  - cbn [app]. split; [intros [= <-]; split; [done|]|by intros [-> _]].
    intros p1 p2. rewrite !list_elem_of_singleton. by intros -> ->.
  - case_bool_decide as Hseq; cbn [negb].
    + split; [intros [= <-]|by intros [-> _]]. split; [done|]. intros p1 p2 H1 H2.
      assert (Hall : forall x, x ∈ (first :: s) ++ [p] -> tp_sequence x = tp_sequence first).
      { intros x. rewrite elem_of_app, list_elem_of_singleton. intros [Hx| ->]; [|done]. apply Hs; [done|by left]. }
      by rewrite (Hall p1), (Hall p2).
    + split; [done|]. intros [_ Hsame]. destruct Hseq. apply Hsame; [|by left].
      rewrite elem_of_app, list_elem_of_singleton. by right.
Qed.

(** The state of the loop after the records [l]. *)
Definition segments_of (es : triple StagedCaptureEndpoint) (ts : Tokens) (l : list TransportPacket) : triple (list TransportPacket) :=
  (List.filter (owner1 es ts) l, List.filter (owner2 es ts) l, List.filter (owner3 es ts) l).

Definition segments_ok (es : triple StagedCaptureEndpoint) (ts : Tokens) (l : list TransportPacket) : Prop :=
  Forall (fun p => owned es ts p = true) l /\
  same_sequence (segments_of es ts l).1.1 /\ same_sequence (segments_of es ts l).1.2 /\ same_sequence (segments_of es ts l).2.

Lemma tcp_segment_step_spec es ts l0 p segments :
  segments_ok es ts l0 ->
  _tcp_segment_step es ts (segments_of es ts l0) p = Ok segments <->
  segments = segments_of es ts (l0 ++ [p]) /\ segments_ok es ts (l0 ++ [p]).
Proof.
  intros (Hall & H1 & H2 & H3). unfold segments_ok, segments_of in *. rewrite !List.filter_app. cbn [List.filter fst snd] in *.
  unfold owned, owner3, owner2, owner1 in *. destruct es as [[e1 e2] e3], ts as [[t1 t2] t3]. cbn [_tcp_segment_step fst snd] in *.
  rewrite !owns_segment_spec, Forall_app, Forall_singleton.
  destruct (bool_decide (data_segment e1 t1 p)), (bool_decide (data_segment e2 t2 p)), (bool_decide (data_segment e3 t3 p)); cbn [negb andb orb];
    rewrite ?app_nil_r;
    match goal with
    | |- Err _ = Ok _ <-> _ => split; [done|intros (_ & (_ & ?) & _); done]
    | |- (x ← append_segment ?l p; _) = _ <-> _ =>
        destruct (append_segment l p) as [s'|e] eqn:Ha; cbn [mbind result_bind];
        [apply append_segment_spec in Ha as [-> Ha]; [|done]; split; [intros [= <-]; tauto|by intros [-> _]]
        |split; [done|]; intros (_ & _ & Hs1 & Hs2 & Hs3);
         assert (Ha' : append_segment l p = Ok (l ++ [p])) by (apply append_segment_spec; tauto); congruence]
    end.
Qed.

Lemma segments_ok_prefix es ts l l' : segments_ok es ts (l ++ l') -> segments_ok es ts l.
Proof.
  unfold segments_ok, segments_of. cbn [fst snd]. rewrite !List.filter_app, Forall_app. intros ((? & _) & H1 & H2 & H3).
  unfold same_sequence in *. setoid_rewrite elem_of_app in H1. setoid_rewrite elem_of_app in H2. setoid_rewrite elem_of_app in H3.
  split_and!; [done|intros; apply H1; tauto|intros; apply H2; tauto|intros; apply H3; tauto].
Qed.

Lemma tcp_segments_fold es ts done_ todo segments :
  segments_ok es ts done_ ->
  fold_res (_tcp_segment_step es ts) (segments_of es ts done_) todo = Ok segments <->
  segments = segments_of es ts (done_ ++ todo) /\ segments_ok es ts (done_ ++ todo).
Proof.
  revert done_; induction todo as [|p todo IH]; intros done_ Hok; cbn [fold_res].
  - rewrite app_nil_r. split; [intros [= <-]; done|by intros [-> _]].
  - rewrite (cons_middle p done_ todo), app_assoc. split.
    + intros H. res_inv H. apply tcp_segment_step_spec in E as [-> Hok']; [|done]. by apply IH.
    + intros [-> Hok']. pose proof (segments_ok_prefix _ _ _ _ Hok') as Hstep.
      rewrite (proj2 (tcp_segment_step_spec es ts done_ p _ Hok) (conj eq_refl Hstep)). cbn.
      by apply IH.
Qed.

Lemma tcp_stage_segments_spec transports endpoints tokens segments :
  _tcp_stage_segments transports endpoints tokens = Ok segments <->
  segments = segments_of endpoints tokens transports /\ segments_ok endpoints tokens transports /\
  segments.1.1 <> [] /\ segments.1.2 <> [] /\ segments.2 <> [].
Proof.
  assert (Hnil : segments_ok endpoints tokens []).
  { split_and!; [constructor|..]; intros p q Hp; by apply elem_of_nil in Hp. }
  unfold _tcp_stage_segments.
  assert (Hfold := tcp_segments_fold endpoints tokens [] transports). cbn [app] in Hfold.
  change (segments_of endpoints tokens []) with (@nil TransportPacket, @nil TransportPacket, @nil TransportPacket) in Hfold.
  split.
  - intros H. inv_bind H. apply Hfold in E as [-> Hok]; [|done]. destruct (segments_of _ _ _) as [[s1 s2] s3] eqn:Hseg.
    res_inv H. subst segments. rewrite !orb_false_iff in G. destruct G as [[? ?] ?]. cbn [fst snd].
    split_and!; try done; [by destruct s1|by destruct s2|by destruct s3].
  - intros (-> & Hok & H1 & H2 & H3). rewrite (proj2 (Hfold _ Hnil) (conj eq_refl Hok)). cbn [mbind result_bind].
    destruct (segments_of _ _ _) as [[s1 s2] s3]. cbn [fst snd] in *.
    destruct s1, s2, s3; done.
Qed.

(** Under identical retransmissions a TCP capture is accounted for record by
    record.  [_tcp_stage_segments] accepts a capture exactly when every record
    is a data segment of some stage (that stage's flow and exactly its token as
    payload), every stage has one, and all segments of a stage carry the same
    sequence number; it then returns each stage's records in capture order,
    a record of several stages going to the first of them. *)
Theorem tcp_stage_segments_exact transports endpoints tokens segments :
  _tcp_stage_segments transports endpoints tokens = Ok segments <->
  segments = segments_of endpoints tokens transports /\ segments_ok endpoints tokens transports /\
  segments.1.1 <> [] /\ segments.1.2 <> [] /\ segments.2 <> [].
Proof. apply tcp_stage_segments_spec. Qed.

(** ** Spans *)

Lemma max_by_spec {A} (key : A -> Fraction) best l :
  (max_by key best l = best \/ max_by key best l ∈ l) /\
  (key best <= key (max_by key best l))%Q /\ forall x, x ∈ l -> (key x <= key (max_by key best l))%Q.
Proof.
  revert best; induction l as [|x l IH]; intros best; cbn [max_by].
  - split_and!; [by left|apply Qle_refl|intros x Hx; by apply elem_of_nil in Hx].
  - set (b := if flt (key best) (key x) then x else best).
    assert (Hb : (b = best \/ b = x) /\ (key best <= key b)%Q /\ (key x <= key b)%Q).
    { unfold b, flt. destruct (Qle_bool (key x) (key best)) eqn:Hle; cbn.
      - apply Qle_bool_iff in Hle. split_and!; [by left|apply Qle_refl|done].
      - split_and!; [by right| |apply Qle_refl]. apply Qlt_le_weak, Qnot_le_lt.
        intros Hc. apply Qle_bool_iff in Hc. congruence. }
    destruct Hb as (Hin & Hb1 & Hb2). destruct (IH b) as (H1 & H2 & H3). split_and!.
    + destruct H1 as [->|H1]; [|right; by right]. destruct Hin as [->| ->]; [by left|right; by left].
    + by eapply Qle_trans.
    + intros y [->|Hy]%elem_of_cons; [by eapply Qle_trans|by apply H3].
Qed.

(** [span_of span records]: the least interval that holds the records' times. *)
Definition span_of (span : StageRecordSpan) (records : list TransportPacket) : Prop :=
  (exists p, p ∈ records /\ tp_timestamp p = first_at span) /\
  (exists p, p ∈ records /\ tp_timestamp p = last_at span) /\
  forall p, p ∈ records -> (first_at span <= tp_timestamp p <= last_at span)%Q.

Lemma record_span_spec records span : record_span records = Ok span -> span_of span records.
Proof.
  unfold record_span. destruct records as [|r rest]; [done|]. intros H. res_inv H. subst span.
  destruct (min_by_spec tp_timestamp r rest) as (Hm & Hm1 & Hm2).
  destruct (max_by_spec tp_timestamp r rest) as (Hx & Hx1 & Hx2).
  split_and!; cbn [first_at last_at].
  - eexists. split; [|reflexivity]. rewrite elem_of_cons. tauto.
  - eexists. split; [|reflexivity]. rewrite elem_of_cons. tauto.
  - intros p [->|Hp]%elem_of_cons; [done|]. split; [by apply Hm2|by apply Hx2].
Qed.

Lemma record_span_safe records : records <> [] -> safe (record_span records).
Proof. by destruct records. Qed.

(** ** QUIC *)

Lemma quic_connection_ids_safe data : safe (_quic_connection_ids data).
Proof. unfold _quic_connection_ids. safe_auto; read_facts; lia. Qed.

(** The long header of a QUIC packet, as the code reads it. *)
Definition quic_long_header (first : byte) (version : Z) (dcid scid rest : bytes) : bytes :=
  [first] ++ be 4 version ++ [zb (len dcid)] ++ dcid ++ [zb (len scid)] ++ scid ++ rest.

Definition quic_header_ok (first : byte) (version : Z) (dcid scid : bytes) : Prop :=
  Z.land (bz first) 0x40 <> 0 /\ Z.land (bz first) 0x80 <> 0 /\ 0 < version < 2 ^ 32 /\
  1 <= len dcid <= 20 /\ 1 <= len scid <= 20.

Lemma quic_header_read first version dcid scid rest :
  quic_header_ok first version dcid scid ->
  _quic_connection_ids (quic_long_header first version dcid scid rest) = Ok (version, dcid, scid).
Proof.
  intros (Hf1 & Hf2 & Hv & Hd & Hs). unfold _quic_connection_ids. set (data := quic_long_header _ _ _ _ _).
  pose proof (len_nonneg rest).
  assert (Hlen : len data = 7 + len dcid + len scid + len rest) by (unfold data, quic_long_header; flen).
  replace (len data <? 7) with false by (symmetry; apply Z.ltb_ge; lia).
  change (u8 data 0) with (Ok (bz first) : res Z). cbn [mbind result_bind].
  rewrite (proj2 (Z.eqb_neq _ _) Hf1), (proj2 (Z.eqb_neq _ _) Hf2). cbn [orb].
  change (slice data 1 5) with (be 4 version). rewrite be_value by (simpl; lia).
  replace (version =? 0) with false by lia.
  change (u8 data 5) with (Ok (bz (zb (len dcid))) : res Z). cbn [mbind result_bind].
  rewrite bz_zb, (Z.mod_small (len dcid)) by lia.
  replace (_ || _) with false
    by (symmetry; rewrite orb_false_iff, negb_false_iff, andb_true_iff, !Z.leb_le, Z.leb_gt; lia).
  assert (Hpre : len (take 6 data) = 6) by done.
  rewrite (u8_field data (take 6 data ++ dcid) (zb (len scid)) (scid ++ rest));
    [|by rewrite <-!app_assoc|rewrite len_app; lia]. cbn [mbind result_bind].
  rewrite bz_zb, (Z.mod_small (len scid)) by lia.
  replace (_ || _) with false
    by (symmetry; rewrite orb_false_iff, negb_false_iff, andb_true_iff, !Z.leb_le, Z.ltb_ge; lia).
  rewrite (slice_field data (take 6 data) dcid ([zb (len scid)] ++ scid ++ rest)) by done.
  rewrite (slice_field data (take 6 data ++ dcid ++ [zb (len scid)]) scid rest);
    [done|by rewrite <-!app_assoc|rewrite !len_app, len_cons, len_nil; lia|lia].
Qed.

Lemma u8_split data i z : u8 data i = Ok z -> 0 <= i -> slice_from data i = zb z :: slice_from data (i + 1).
Proof.
  unfold u8. intros H Hi. res_inv H. subst z. apply py_index_lookup in E; [|done]. rewrite zb_bz.
  unfold slice_from. replace (Z.to_nat (i + 1)) with (S (Z.to_nat i)) by lia. by apply drop_S.
Qed.

Lemma quic_connection_ids_inv data version dcid scid :
  _quic_connection_ids data = Ok (version, dcid, scid) ->
  exists first rest, data = quic_long_header first version dcid scid rest /\ quic_header_ok first version dcid scid.
Proof.
  unfold _quic_connection_ids. intros H. res_inv H. simplify_eq. read_facts.
  rewrite !orb_false_iff, ?negb_false_iff, ?andb_true_iff, ?Z.leb_le, ?Z.leb_gt, ?Z.ltb_ge, ?Z.eqb_neq in *.
  assert (Hv : len (slice data 1 5) = 4) by (rewrite slice_length; lia).
  pose proof (int_of_bound BigEndian (slice data 1 5)) as Hb. rewrite Hv in Hb. fold (from_bytes_big (slice data 1 5)) in Hb.
  assert (Hdl : len (slice data 6 (6 + v0)) = v0) by (rewrite slice_length; lia).
  assert (Hsl : len (slice data (6 + v0 + 1) (6 + v0 + 1 + v1)) = v1) by (rewrite slice_length; lia).
  exists (zb v), (slice_from data (6 + v0 + 1 + v1)). split.
  - unfold quic_long_header. rewrite Hdl, Hsl.
    apply u8_split in E; [|lia]. apply u8_split in E0; [|lia]. apply u8_split in E1; [|lia].
    rewrite slice_from_0 in E. etransitivity; [exact E|]. change (0 + 1) with 1. cbn [app]. f_equal.
    rewrite (slice_from_split data 1 5) by lia. f_equal.
    { symmetry. unfold be, from_bytes_big. replace 4%nat with (length (slice data 1 5)) by (unfold len in Hv; lia).
      apply bytes_of_int_of. }
    rewrite E0. change (5 + 1) with 6. f_equal.
    rewrite (slice_from_split data 6 (6 + v0)) by lia. f_equal. rewrite E1. f_equal.
    apply slice_from_split; lia.
  - unfold quic_header_ok. rewrite Hdl, Hsl, bz_zb, Z.mod_small by lia. lia.
Qed.

(** [_quic_connection_ids] accepts a datagram exactly when it starts with a
    QUIC long header: the long-header and fixed bits set, a non-zero version and
    a destination and a source connection ID of 1 to 20 bytes; it then returns
    the version and the two identifiers. *)
Theorem quic_connection_ids_exact data version dcid scid :
  _quic_connection_ids data = Ok (version, dcid, scid) <->
  exists first rest, data = quic_long_header first version dcid scid rest /\ quic_header_ok first version dcid scid.
Proof.
  split; [apply quic_connection_ids_inv|]. intros (first & rest & -> & Hok). by apply quic_header_read.
Qed.

(** ** Events and windows *)

(** The end of a window that [_events_for_token] reports: the first byte of a
    TCP occurrence, the answer of a DNS transaction. *)
Definition event_time (protocol : string) (window : Fraction * Fraction) : Fraction :=
  if seq_ protocol "tcp" then fst window else snd window.

Lemma quic_events_windows token packets times windows :
  times = map snd windows ->
  fold_res (_quic_event token) times packets = (windows ← fold_res (_quic_window token) windows packets; Ok (map snd windows)).
Proof.
  revert times windows; induction packets as [|p packets IH]; intros times windows ->; cbn [fold_res]; [done|].
  assert (Hstep : _quic_event token (map snd windows) p = (ws ← _quic_window token windows p; Ok (map snd ws))).
  { unfold _quic_event, _quic_window. destruct (negb (is_udp p)); [done|].
    destruct (_quic_connection_ids (tp_payload p)) as [[[version dcid] scid]|e]; cbn [mbind result_bind]; [|done].
    destruct (_ || _); [|done]. by rewrite map_app. }
  rewrite Hstep. destruct (_quic_window token windows p) as [ws|e]; cbn [mbind result_bind]; [by apply IH|done].
Qed.

Lemma events_are_window_ends packets protocol family token question_family :
  _events_for_token packets protocol family token question_family
  = (windows ← _event_windows_for_token packets protocol family token question_family;
     Ok (map (event_time protocol) windows)).
Proof.
  unfold _events_for_token, _event_windows_for_token, event_time. cbn zeta.
  destruct (seq_ protocol "tcp") eqn:Htcp; [done|].
  destruct (seq_ protocol "udp"); [cbn [mbind result_bind]; by rewrite map_map|].
  destruct (seq_ protocol "dns").
  { destruct (_dns_response_for_token _ _ _ _) as [[[q r] p]|e]; done. }
  destruct (seq_ protocol "quic"); [|done]. by rewrite (quic_events_windows token _ [] []).
Qed.

Lemma event_windows_safe packets protocol family token question_family :
  0 < len token -> is_ascii token = true -> safe (_event_windows_for_token packets protocol family token question_family).
Proof.
  intros Hlen Hascii. unfold _event_windows_for_token. safe_auto.
  - by apply tcp_token_windows_safe.
  - by apply dns_response_for_token_safe.
  - apply fold_res_safe. intros windows p. unfold _quic_window. safe_auto. apply quic_connection_ids_safe.
  - exact I.
Qed.

(** ** Resolver legs *)

(** A canonical leg of its family. *)
Definition leg_ok (item : string * DnsResolverLeg) : Prop :=
  exists client resolver,
    ip_address_text (leg_client_address (snd item)) = Some client /\ ip_str client = leg_client_address (snd item) /\
    ip_address_text (leg_resolver_address (snd item)) = Some resolver /\ ip_str resolver = leg_resolver_address (snd item) /\
    ip_version client = ip_version resolver /\
    fst item = (if ip_version client =? 4 then "ipv4"%string else "ipv6"%string).

Lemma dict_get_none {A} (d : list (string * A)) k : dict_get d k = None <-> ~ k ∈ d.*1.
Proof.
  induction d as [|[k' v] d IH]; cbn [dict_get fmap list_fmap fst].
  - split; [intros _; apply not_elem_of_nil|done].
  - rewrite not_elem_of_cons. unfold seq_. destruct (String.eqb_spec k' k) as [->|Hne].
    + split; [done|naive_solver].
    + rewrite IH. naive_solver.
Qed.

Lemma dict_get_in {A} (d : list (string * A)) k v : dict_get d k = Some v -> (k, v) ∈ d.
Proof.
  induction d as [|[k' v'] d IH]; cbn [dict_get]; [done|]. destruct (seq_ k' k) eqn:Hk.
  - apply seq_spec in Hk. intros [= ->]. subst. by left.
  - intros H. right. by apply IH.
Qed.

Lemma dict_get_nodup {A} (d : list (string * A)) k v : NoDup d.*1 -> (k, v) ∈ d -> dict_get d k = Some v.
Proof.
  induction d as [|[k' v'] d IH]; cbn [dict_get fmap list_fmap fst]; [intros _ H; by apply elem_of_nil in H|].
  intros [Hn Hnd]%NoDup_cons [[= -> ->]|Hin]%elem_of_cons.
  - unfold seq_. by rewrite String.eqb_refl.
  - destruct (seq_ k' k) eqn:Hk; [|by apply IH]. apply seq_spec in Hk. subst. destruct Hn.
    apply list_elem_of_fmap. by exists (k, v).
Qed.

Lemma resolver_leg_step_inv indexed leg indexed' :
  _resolver_leg_step indexed leg = Ok indexed' ->
  exists family, indexed' = indexed ++ [(family, leg)] /\ ~ family ∈ indexed.*1 /\ leg_ok (family, leg).
Proof.
  unfold _resolver_leg_step. destruct (ip_address_text (leg_client_address leg)) as [client|] eqn:Hc; [|done].
  destruct (ip_address_text (leg_resolver_address leg)) as [resolver|] eqn:Hr; [|done].
  intros H. res_inv H. subst. rewrite !orb_false_iff, !negb_false_iff, Z.eqb_eq, !seq_spec in G.
  destruct G as (((Hv & Hcs) & Hrs) & Hnew).
  eexists. split; [done|]. split; [|by exists client, resolver].
  apply dict_get_none. by destruct (dict_get indexed _).
Qed.

Lemma resolver_legs_fold legs indexed indexed' :
  fold_res _resolver_leg_step indexed legs = Ok indexed' ->
  NoDup indexed.*1 -> Forall leg_ok indexed ->
  NoDup indexed'.*1 /\ Forall leg_ok indexed' /\ exists new, indexed' = indexed ++ new /\ new.*2 = legs.
Proof.
  revert indexed; induction legs as [|leg legs IH]; intros indexed H Hnd Hok; cbn [fold_res] in H; res_inv H.
  - subst. split_and!; [done|done|]. exists []. by rewrite app_nil_r.
  - apply resolver_leg_step_inv in E as (family & -> & Hnew & Hleg).
    destruct (IH _ H) as (Hnd' & Hok' & new & -> & Hnews).
    + rewrite fmap_app. apply NoDup_app. split_and!; [done| |apply NoDup_singleton].
      cbn. intros x Hx. rewrite list_elem_of_singleton. by intros ->.
    + apply Forall_app. split; [done|by constructor].
    + split_and!; [done|done|]. exists ((family, leg) :: new). cbn. rewrite Hnews. split; [|done]. by rewrite <-app_assoc.
Qed.

Lemma resolver_legs_inv legs indexed :
  _resolver_legs_by_family legs = Ok indexed ->
  NoDup indexed.*1 /\ Forall leg_ok indexed /\ indexed.*2 = legs.
Proof.
  unfold _resolver_legs_by_family. intros H. res_inv H.
  apply resolver_legs_fold in H as (? & ? & new & -> & ?); [done|constructor|constructor].
Qed.

Lemma resolver_legs_safe legs : safe (_resolver_legs_by_family legs).
Proof.
  unfold _resolver_legs_by_family. safe_auto. apply fold_res_safe. intros indexed leg. unfold _resolver_leg_step.
  destruct (ip_address_text _); [|exact I]. destruct (ip_address_text _); [|exact I]. safe_auto.
Qed.

Lemma stage_family_safe legs endpoint : safe (_stage_family legs endpoint).
Proof. unfold _stage_family. by destruct (List.filter _ _) as [|[] []]. Qed.

Lemma stage_transport_families_safe endpoints protocol family legs :
  safe (_stage_transport_families endpoints protocol family legs).
Proof.
  unfold _stage_transport_families. destruct legs as [legs|]; [|exact I]. destruct endpoints as [[e1 e2] e3].
  safe_auto; solve [apply resolver_legs_safe|apply stage_family_safe].
Qed.
