(* ===== verification/CaptureValidate.v ===== *)
(** * Capture validators

    [validate_capture_tokens], [validate_staged_capture_tokens],
    [dns_stage_endpoints], [dns_resolver_leg_stage_endpoints],
    [_dns_stage_queries], [_query_stage_endpoints] and [staged_marker_window] of
    [scripts/harness/packet_capture.py]. *)

From S2P Require Import Prelude PacketTypes CaptureParse CaptureFormat IpAddress PacketDecode PacketFrames.
From S2P Require Import TcpReassembly Dns Sha256 CaptureStages.

(** ** Checks shared by both validators *)

(** The link type and the interface name of every capture interface. *)
Definition check_interfaces (capture : ParsedCapture) (expected_link_type : Z) (expected_interface_name : string) : res unit :=
  raise_if is_nil (cap_interfaces capture)
           || existsb (fun interface => negb (if_link_type interface =? expected_link_type)) (cap_interfaces capture)
    with PacketCaptureError "capture link type differs from signed provenance" ;;
  raise_if existsb (fun interface => match if_name interface with
                                     | None => false
                                     | Some name => negb (seq_ name expected_interface_name)
                                     end) (cap_interfaces capture)
    with PacketCaptureError "pcapng interface name differs from signed provenance" ;;
  Ok tt.

Definition expected_version (family : string) : Z := if seq_ family "ipv4" then 4 else 6.

(** [started_at <= packet.timestamp <= ended_at]. *)
Definition in_window (started_at ended_at : Fraction) (packet : TransportPacket) : bool :=
  fle started_at (tp_timestamp packet) && fle (tp_timestamp packet) ended_at.

(** The packets of one flow and family. *)
Definition flow_packets (family : string) (endpoint : StagedCaptureEndpoint) (transports : list TransportPacket)
    : list TransportPacket :=
  List.filter (fun packet => seq_ (tp_family packet) family
    && _matches_flow packet (ep_local_address endpoint) (ep_local_port endpoint)
                            (ep_remote_address endpoint) (ep_remote_port endpoint)) transports.

(** [duration_ms.numerator // duration_ms.denominator]. *)
Definition window_ms (started_at ended_at : Fraction) : Z := Qfloor (fmul (fsub ended_at started_at) (fraction 1000 1)).

(** The marker windows and the observation window they bound. *)
Definition marker_window (start_windows end_windows : list (Fraction * Fraction)) (declared_observation_ms : Z)
    : res ((Fraction * Fraction) * (Fraction * Fraction) * Z) :=
  match start_windows, end_windows with
  | [start_window], [end_window] =>
    let started_at := snd start_window in
    let ended_at := snd end_window in
    raise_if fle ended_at started_at
      with PacketCaptureError "capture window end marker does not follow its start marker" ;;
    let observation_ms := window_ms started_at ended_at in
    raise_if (observation_ms <? 1000) || (30000 <? observation_ms)
      with PacketCaptureError "capture observation window is outside 1s..30s" ;;
    raise_if negb (declared_observation_ms =? observation_ms)
      with PacketCaptureError "declared observation_ms differs from capture timestamps" ;;
    Ok (start_window, end_window, observation_ms)
  | _, _ => Err (PacketCaptureError "capture window markers must each occur exactly once")
  end.

(** The presence or absence of the token; [forbidden] is the caller's message. *)
Definition check_occurrences (expect_token : bool) (occurrences : Z) (forbidden : string) : res unit :=
  raise_if expect_token && (occurrences <? 1)
    with PacketCaptureError "required unique token is absent from decoded application data" ;;
  raise_if negb expect_token && negb (occurrences =? 0) with PacketCaptureError forbidden ;;
  Ok tt.

(** [{_quic_connection_ids(p.payload)[0] for p in packets if p.protocol == "udp"}]. *)
Definition quic_versions (packets : list TransportPacket) : res (list Z) :=
  map_res (fun packet => '(version, _, _) ← _quic_connection_ids (tp_payload packet); Ok version)
    (List.filter is_udp packets).

(** [versions != {expected}]. *)
Definition versions_differ (versions : list Z) (expected : Z) : bool :=
  is_nil versions || existsb (fun version => negb (version =? expected)) versions.

Definition check_quic (protocol : string) (expected_quic_version : option Z) (packets : list TransportPacket)
    (differs : string) : res unit :=
  if seq_ protocol "quic" then
    match expected_quic_version with
    | Some expected =>
      raise_if negb (zmem expected SUPPORTED_QUIC_VERSIONS)
        with PacketCaptureError "signed QUIC version is not an accepted v1/v2 version" ;;
      versions ← quic_versions packets;
      raise_if versions_differ versions expected with PacketCaptureError differs ;;
      Ok tt
    | None => Err (PacketCaptureError "signed QUIC version is not an accepted v1/v2 version")
    end
  else
    raise_if negb (is_none expected_quic_version)
      with PacketCaptureError "non-QUIC evidence declares a QUIC version" ;;
    Ok tt.

(** [min] and [max] of the target windows. *)
Definition target_started (windows : list (Fraction * Fraction)) : option Fraction :=
  match windows with [] => None | w :: rest => Some (fst (min_by fst w rest)) end.
Definition target_ended (windows : list (Fraction * Fraction)) : option Fraction :=
  match windows with [] => None | w :: rest => Some (snd (max_by snd w rest)) end.

(** The digest over the three DNS responses, each with its length. *)
Definition dns_responses_digest (responses : list bytes) : string :=
  sha256_hexdigest (DNS_RESPONSE_DIGEST_DOMAIN ++ concat (map (fun response => be 4 (len response) ++ response) responses)).

(** The one interface of the packets in the window. *)
Definition window_interface (capture : ParsedCapture) (window : list TransportPacket) : res CaptureInterface :=
  match remove_dups (map tp_interface_id window) with
  | [interface_id] => py_index (cap_interfaces capture) interface_id
  | _ => Err (PacketCaptureError "evidence window spans multiple capture interfaces")
  end.

(** ** [validate_capture_tokens] *)

Definition validate_capture_tokens (data : bytes) (kind protocol family : string)
    (local_address : string) (local_port : Z) (remote_address : string) (remote_port : Z)
    (expected_link_type : Z) (expected_interface_name : string) (expected_quic_version : option Z)
    (token start_marker end_marker : bytes) (expect_token : bool) (declared_observation_ms : Z)
    : res CaptureProof :=
  capture ← parse_packet_capture data kind;
  _ ← check_interfaces capture expected_link_type expected_interface_name;
  match ip_address_text local_address, ip_address_text remote_address with
  | Some expected_local_ip, Some expected_remote_ip =>
    raise_if negb (ip_version expected_local_ip =? expected_version family)
             || negb (ip_version expected_remote_ip =? expected_version family)
      with PacketCaptureError "capture signed endpoint family differs from the case" ;;
    transports ← decode_records (cap_records capture);
    let endpoint := {| ep_stage := ""; ep_local_address := local_address; ep_local_port := local_port;
                       ep_remote_address := remote_address; ep_remote_port := remote_port |} in
    let selected := flow_packets family endpoint transports in
    raise_if is_nil selected
      with PacketCaptureError "capture contains no packets for the signed endpoint tuple" ;;
    _ ← check_quic protocol expected_quic_version selected
          "captured QUIC version differs from signed v1/v2 provenance";
    start_windows ← _event_windows_for_token selected protocol family start_marker family;
    end_windows ← _event_windows_for_token selected protocol family end_marker family;
    '(start_window, end_window, observation_ms) ← marker_window start_windows end_windows declared_observation_ms;
    let started_at := snd start_window in
    let ended_at := snd end_window in
    let window := List.filter (in_window started_at ended_at) selected in
    target_windows ← _event_windows_for_token window protocol family token family;
    let occurrences := len target_windows in
    _ ← check_occurrences expect_token occurrences
          "forbidden unique token is present in decoded application data";
    digest ←
      (if seq_ protocol "dns" then
         raise_if negb expect_token with PacketCaptureError "DNS evidence requires successful resolution proof" ;;
         responses ← map_res (fun evidence_token =>
           '(_, _, response) ← _dns_response_for_token selected family evidence_token family; Ok response)
           [start_marker; token; end_marker];
         Ok (Some (len responses, dns_responses_digest responses))
       else Ok None);
    raise_if seq_ protocol "quic"
             && existsb (fun packet => is_tcp packet && in_window started_at ended_at packet) (flow_packets family endpoint transports)
      with PacketCaptureError "QUIC evidence contains TCP fallback for the same endpoint/window" ;;
    interface ← window_interface capture window;
    let is_dns := seq_ protocol "dns" in
    Ok {| observation_ms := observation_ms; started_at := started_at; ended_at := ended_at;
          start_event_started_at := fst start_window; start_event_ended_at := snd start_window;
          target_started_at := target_started target_windows; target_ended_at := target_ended target_windows;
          end_event_started_at := fst end_window; end_event_ended_at := snd end_window;
          total_record_count := len (cap_records capture); packet_count := len window;
          token_occurrences := occurrences; proof_link_type := if_link_type interface;
          proof_interface_name := if_name interface; quic_version := expected_quic_version;
          dns_response_count := option_map fst digest;
          dns_answer_type := if is_dns then Some (if seq_ family "ipv4" then "A" else "AAAA")%string else None;
          dns_answer_address := if is_dns then Some (fixed_address_text family) else None;
          dns_ttl := if is_dns then Some DNS_TTL else None;
          dns_responses_sha256 := option_map snd digest;
          stage_record_spans := None |}
  | _, _ => Err (PacketCaptureError "capture signed endpoint address is invalid")
  end.

(** ** Stage endpoints *)

Definition _query_endpoint (stage : string) (query : TransportPacket) : StagedCaptureEndpoint :=
  {| ep_stage := stage; ep_local_address := tp_source query; ep_local_port := tp_source_port query;
     ep_remote_address := tp_destination query; ep_remote_port := tp_destination_port query |}.

Definition _query_stage_endpoints (queries : triple TransportPacket) : triple StagedCaptureEndpoint :=
  let '(start, target, end_) := queries in
  (_query_endpoint "start" start, _query_endpoint "target" target, _query_endpoint "end" end_).

(** [[_decode_transport(_decode_network(r)) for r in records]]. *)
Definition decode_each (records : list PacketRecord) : res (list TransportPacket) :=
  map_res (fun record => packet ← _decode_network record; _decode_transport packet) records.

(** The query to a resolver that names a token, and nothing else. *)
Definition _is_stage_query (family : string) (resolvers : list (string * string)) (expected_name : string)
    (packet : TransportPacket) : res bool :=
  let resolver_matches :=
    match dict_get resolvers (tp_family packet) with
    | Some resolver => seq_ resolver (tp_destination packet)
    | None => false
    end in
  if negb (is_udp packet) || negb resolver_matches || negb (tp_destination_port packet =? 53) then Ok false
  else
    match _dns_message (tp_payload packet) family with
    | Err (PacketCaptureError _) => Ok false
    | Err e => Err e
    | Ok message => Ok (negb (dm_is_response message) && seq_ (dm_question_name message) expected_name)
    end.

Fixpoint filter_res {A} (f : A -> res bool) (l : list A) : res (list A) :=
  match l with
  | [] => Ok []
  | x :: l => b ← f x; rest ← filter_res f l; Ok (if b : bool then x :: rest else rest)
  end.

(** One stage of [_dns_stage_queries]; the name is not lower-cased here. *)
Definition _dns_stage_query (transports : list TransportPacket) (family : string) (resolvers : list (string * string))
    (stage_token : string * bytes) : res TransportPacket :=
  let (stage, token) := stage_token in
  text ← decode_ascii token;
  matches ← filter_res (_is_stage_query family resolvers (text +:+ ".evidence.test")) transports;
  match matches with
  | [query] => Ok query
  | _ => Err (PacketCaptureError ("remote DNS pcap does not contain one exact " +:+ stage +:+ " query"))
  end.

Definition _dns_stage_queries (data : bytes) (kind family : string) (resolvers : list (string * string)) (tokens : Tokens)
    : res (triple TransportPacket) :=
  parsed ← parse_packet_capture data kind;
  transports ← decode_each (cap_records parsed);
  let '(t1, t2, t3) := tokens in
  start ← _dns_stage_query transports family resolvers ("start"%string, t1);
  target ← _dns_stage_query transports family resolvers ("target"%string, t2);
  end_ ← _dns_stage_query transports family resolvers ("end"%string, t3);
  Ok (start, target, end_).

Definition dns_stage_endpoints (data : bytes) (kind family remote_address : string) (tokens : Tokens)
    : res (triple StagedCaptureEndpoint) :=
  match ip_address_text remote_address with
  | None => Err (PacketCaptureError "remote DNS endpoint address is invalid")
  | Some address =>
    let remote := ip_str address in
    match ip_address_text remote with
    | None => Err (ValueError "does not appear to be an IPv4 or IPv6 address")
    | Some again =>
      raise_if negb (ip_version again =? expected_version family)
        with PacketCaptureError "remote DNS endpoint family differs" ;;
      queries ← _dns_stage_queries data kind family [(family, remote)] tokens;
      Ok (_query_stage_endpoints queries)
    end
  end.

(** [query.source != indexed[query.family].client_address]. *)
Definition _check_leg_client (indexed : list (string * DnsResolverLeg)) (stage : string) (query : TransportPacket) : res unit :=
  match dict_get indexed (tp_family query) with
  | None => Err KeyError
  | Some leg =>
    raise_if negb (seq_ (tp_source query) (leg_client_address leg))
      with PacketCaptureError ("DNS " +:+ stage +:+ " query did not come from its resolver leg's client") ;;
    Ok tt
  end.

Definition dns_resolver_leg_stage_endpoints (data : bytes) (kind family : string) (legs : list DnsResolverLeg)
    (tokens : Tokens) (retransmissions : RetransmissionPolicy) : res (triple StagedCaptureEndpoint) :=
  identical ← _identical_retransmissions retransmissions "dns" (Some legs);
  indexed ← _resolver_legs_by_family legs;
  if identical : bool then
    parsed ← parse_packet_capture data kind;
    transports ← decode_each (cap_records parsed);
    '(start, target, end_) ← _dns_exchanges transports indexed family tokens;
    Ok (_query_stage_endpoints (dx_query start, dx_query target, dx_query end_))
  else
    queries ← _dns_stage_queries data kind family
                (map (fun item => (fst item, leg_resolver_address (snd item))) indexed) tokens;
    let '(start, target, end_) := queries in
    _ ← _check_leg_client indexed "start" start;
    _ ← _check_leg_client indexed "target" target;
    _ ← _check_leg_client indexed "end" end_;
    Ok (_query_stage_endpoints queries).

(** ** [validate_staged_capture_tokens] *)

Definition stage_names (endpoints : triple StagedCaptureEndpoint) : list string := map ep_stage (stages endpoints).

Definition normalize_endpoint (endpoint : StagedCaptureEndpoint) (stage_family : string) : res StagedCaptureEndpoint :=
  match ip_address_text (ep_local_address endpoint), ip_address_text (ep_remote_address endpoint) with
  | Some local, Some remote =>
    raise_if negb (ip_version local =? expected_version stage_family)
             || negb (ip_version remote =? expected_version stage_family)
             || negb ((1 <=? ep_local_port endpoint) && (ep_local_port endpoint <=? 65535))
             || negb ((1 <=? ep_remote_port endpoint) && (ep_remote_port endpoint <=? 65535))
      with PacketCaptureError "staged capture endpoint family/port is invalid" ;;
    Ok {| ep_stage := ep_stage endpoint; ep_local_address := ip_str local; ep_local_port := ep_local_port endpoint;
          ep_remote_address := ip_str remote; ep_remote_port := ep_remote_port endpoint |}
  | _, _ => Err (PacketCaptureError "staged capture endpoint address is invalid")
  end.

Definition normalize_endpoints (endpoints : triple StagedCaptureEndpoint) (families : triple string)
    : res (triple StagedCaptureEndpoint) :=
  let '(e1, e2, e3) := endpoints in
  let '(f1, f2, f3) := families in
  n1 ← normalize_endpoint e1 f1;
  n2 ← normalize_endpoint e2 f2;
  n3 ← normalize_endpoint e3 f3;
  Ok (n1, n2, n3).

(** What the branch on the retransmission policy leaves: the DNS exchanges, the
    accounted records, the packets of each stage and the marker windows. *)
Record StageData := {
  sd_exchanges : option (triple DnsExchange);
  sd_records : option (triple (list TransportPacket));
  sd_packets : triple (list TransportPacket);
  sd_start_windows : list (Fraction * Fraction);
  sd_end_windows : list (Fraction * Fraction)
}.

Definition staged_exchanges (transports : list TransportPacket) (family : string) (legs : list DnsResolverLeg)
    (normalized : triple StagedCaptureEndpoint) (tokens : Tokens) : res StageData :=
  indexed ← _resolver_legs_by_family legs;
  '(start, target, end_) ← _dns_exchanges transports indexed family tokens;
  raise_if negb (bool_decide (normalized = _query_stage_endpoints (dx_query start, dx_query target, dx_query end_)))
    with PacketCaptureError "staged DNS endpoint is not its stage's first answered query" ;;
  let records := (dx_records start, dx_records target, dx_records end_) in
  Ok {| sd_exchanges := Some (start, target, end_); sd_records := Some records; sd_packets := records;
        sd_start_windows := [dx_window start]; sd_end_windows := [dx_window end_] |}.

Definition staged_flows (transports : list TransportPacket) (protocol family : string) (families : triple string)
    (normalized : triple StagedCaptureEndpoint) (identical : bool) (tokens : Tokens) : res StageData :=
  let '(n1, n2, n3) := normalized in
  let '(f1, f2, f3) := families in
  let '(start_marker, _, end_marker) := tokens in
  stage_records ← (if identical then
                     segments ← _tcp_stage_segments transports normalized tokens; Ok (Some segments)
                   else Ok None);
  let p1 := flow_packets f1 n1 transports in
  let p2 := flow_packets f2 n2 transports in
  let p3 := flow_packets f3 n3 transports in
  start_windows ← _event_windows_for_token p1 protocol f1 start_marker family;
  end_windows ← _event_windows_for_token p3 protocol f3 end_marker family;
  Ok {| sd_exchanges := None; sd_records := stage_records; sd_packets := (p1, p2, p3);
        sd_start_windows := start_windows; sd_end_windows := end_windows |}.

(** [str.upper] on ASCII text. *)
Definition upper_char (c : ascii) : ascii :=
  let n := Z.of_N (N_of_ascii c) in
  if (97 <=? n) && (n <=? 122) then ascii_of_N (Z.to_N (n - 32)) else c.
Fixpoint upper (s : string) : string :=
  match s with EmptyString => EmptyString | String c s => String (upper_char c) (upper s) end.

Definition expected_transport (protocol : string) : string := (if seq_ protocol "tcp" then "tcp" else "udp")%string.

(** The target's windows: under exchanges, its first matched pair if the
    observation window holds it. *)
Definition staged_target_windows (sd : StageData) (started_at ended_at : Fraction) (protocol family target_family : string)
    (token : bytes) : res (list (Fraction * Fraction)) :=
  match sd_exchanges sd with
  | Some (_, target, _) =>
    let '(target_query_at, target_answer_at) := dx_window target in
    Ok (if fle started_at target_query_at && fle target_answer_at ended_at then [dx_window target] else [])
  | None =>
    let '(_, target_packets, _) := sd_packets sd in
    _event_windows_for_token (List.filter (in_window started_at ended_at) target_packets)
      protocol target_family token family
  end.

(** The three DNS responses of the digest. *)
Definition staged_responses (sd : StageData) (family : string) (families : triple string) (tokens : Tokens) : res (list bytes) :=
  match sd_exchanges sd with
  | Some (start, target, end_) =>
    Ok [tp_payload (dx_answer start); tp_payload (dx_answer target); tp_payload (dx_answer end_)]
  | None =>
    let '(p1, p2, p3) := sd_packets sd in
    let '(f1, f2, f3) := families in
    let '(t1, t2, t3) := tokens in
    map_res (fun stage : list TransportPacket * string * bytes =>
      let '(packets, stage_family, evidence_token) := stage in
      '(_, _, response) ← _dns_response_for_token packets stage_family evidence_token family;
      Ok response) [(p1, f1, t1); (p2, f2, t2); (p3, f3, t3)]
  end.

(** The result of the checks that follow the choice of stages and windows. *)
Definition staged_proof (capture : ParsedCapture) (sd : StageData) (protocol family : string) (families : triple string)
    (expected_quic_version : option Z) (tokens : Tokens) (expect_token : bool) (declared_observation_ms : Z)
    : res CaptureProof :=
  let '(_, token, _) := tokens in
  let '(_, target_family, _) := families in
  '(start_window, end_window, observation_ms) ←
    marker_window (sd_start_windows sd) (sd_end_windows sd) declared_observation_ms;
  let started_at := snd start_window in
  let ended_at := snd end_window in
  target_windows ← staged_target_windows sd started_at ended_at protocol family target_family token;
  let occurrences := len target_windows in
  _ ← check_occurrences expect_token occurrences "forbidden unique token is present from the required vantage";
  let selected_window := List.filter (in_window started_at ended_at) (concat (stages (sd_packets sd))) in
  raise_if is_nil selected_window
    with PacketCaptureError "staged capture contains no marker-bounded packets" ;;
  raise_if existsb (fun packet => negb (seq_ (tp_protocol packet) (expected_transport protocol))) selected_window
    with PacketCaptureError (upper protocol +:+ " evidence contains a transport fallback") ;;
  _ ← check_quic protocol expected_quic_version selected_window
        "captured QUIC version differs from signed provenance";
  digest ←
    (if seq_ protocol "dns" then
       raise_if negb expect_token with PacketCaptureError "DNS evidence requires successful resolution proof" ;;
       responses ← staged_responses sd family families tokens;
       Ok (Some (len responses, dns_responses_digest responses))
     else Ok None);
  interface ← window_interface capture selected_window;
  spans ← (match sd_records sd with
           | None => Ok None
           | Some records => spans ← _record_spans records; Ok (Some spans)
           end);
  let is_dns := seq_ protocol "dns" in
  Ok {| observation_ms := observation_ms; started_at := started_at; ended_at := ended_at;
        start_event_started_at := fst start_window; start_event_ended_at := snd start_window;
        target_started_at := target_started target_windows; target_ended_at := target_ended target_windows;
        end_event_started_at := fst end_window; end_event_ended_at := snd end_window;
        total_record_count := len (cap_records capture); packet_count := len selected_window;
        token_occurrences := occurrences; proof_link_type := if_link_type interface;
        proof_interface_name := if_name interface; quic_version := expected_quic_version;
        dns_response_count := option_map fst digest;
        dns_answer_type := if is_dns then Some (if seq_ family "ipv4" then "A" else "AAAA")%string else None;
        dns_answer_address := if is_dns then Some (fixed_address_text family) else None;
        dns_ttl := if is_dns then Some DNS_TTL else None;
        dns_responses_sha256 := option_map snd digest;
        stage_record_spans := spans |}.

Definition validate_staged_capture_tokens (data : bytes) (kind protocol family : string)
    (endpoints : triple StagedCaptureEndpoint) (expected_link_type : Z) (expected_interface_name : string)
    (expected_quic_version : option Z) (token start_marker end_marker : bytes) (expect_token : bool)
    (declared_observation_ms : Z) (retransmissions : RetransmissionPolicy)
    (dns_resolver_legs : option (list DnsResolverLeg)) : res CaptureProof :=
  raise_if negb (bool_decide (stage_names endpoints = ["start"; "target"; "end"]%string))
    with PacketCaptureError "staged capture endpoints are not start/target/end" ;;
  identical ← _identical_retransmissions retransmissions protocol dns_resolver_legs;
  raise_if (identical : bool) && negb expect_token
    with TypeError "identical retransmissions prove only an expected token" ;;
  capture ← parse_packet_capture data kind;
  _ ← check_interfaces capture expected_link_type expected_interface_name;
  families ← _stage_transport_families endpoints protocol family dns_resolver_legs;
  normalized ← normalize_endpoints endpoints families;
  transports ← decode_records (cap_records capture);
  let tokens := (start_marker, token, end_marker) in
  sd ← (match dns_resolver_legs with
        | Some legs =>
          if identical && seq_ protocol "dns" then staged_exchanges transports family legs normalized tokens
          else staged_flows transports protocol family families normalized identical tokens
        | None => staged_flows transports protocol family families normalized identical tokens
        end);
  staged_proof capture sd protocol family families expected_quic_version tokens expect_token declared_observation_ms.

(** ** [staged_marker_window] *)

(** [len(starts) != 1 or len(ends) != 1 or ends[0] <= starts[0]]. *)
Definition ordered_markers (starts ends : list Fraction) : res (Fraction * Fraction) :=
  match starts, ends with
  | [start], [end_] =>
    raise_if fle end_ start
      with PacketCaptureError "staged capture markers are absent, repeated, or reversed" ;;
    Ok (start, end_)
  | _, _ => Err (PacketCaptureError "staged capture markers are absent, repeated, or reversed")
  end.

Definition staged_marker_window (data : bytes) (kind protocol family : string) (endpoints : triple StagedCaptureEndpoint)
    (start_marker end_marker : bytes) (retransmissions : RetransmissionPolicy)
    (dns_resolver_legs : option (list DnsResolverLeg)) : res (Fraction * Fraction) :=
  raise_if negb (bool_decide (stage_names endpoints = ["start"; "target"; "end"]%string))
    with PacketCaptureError "staged marker endpoints are not ordered" ;;
  identical ← _identical_retransmissions retransmissions protocol dns_resolver_legs;
  '(start_family, _, end_family) ← _stage_transport_families endpoints protocol family dns_resolver_legs;
  capture ← parse_packet_capture data kind;
  transports ← decode_each (cap_records capture);
  let '(e1, _, e3) := endpoints in
  let by_flows :=
    starts ← _events_for_token (flow_packets start_family e1 transports) protocol start_family start_marker family;
    ends ← _events_for_token (flow_packets end_family e3 transports) protocol end_family end_marker family;
    ordered_markers starts ends in
  match dns_resolver_legs with
  | Some legs =>
    if (identical : bool) && seq_ protocol "dns" then
      indexed ← _resolver_legs_by_family legs;
      messages ← _dns_leg_messages transports indexed family;
      start ← _dns_exchange messages start_marker;
      end_ ← _dns_exchange messages end_marker;
      raise_if negb (bool_decide ((e1, e3) = (_query_endpoint "start" (dx_query start), _query_endpoint "end" (dx_query end_))))
        with PacketCaptureError "staged DNS endpoint is not its stage's first answered query" ;;
      ordered_markers [tp_timestamp (dx_answer start)] [tp_timestamp (dx_answer end_)]
    else by_flows
  | None => by_flows
  end.
