(* ===== verification/CaptureProofs.v ===== *)
(** * What the capture validators prove

    Safety and soundness of [validate_capture_tokens] and
    [validate_staged_capture_tokens], and their agreement with
    [staged_marker_window] and [dns_resolver_leg_stage_endpoints]. *)

From S2P Require Import Prelude PacketTypes CaptureParse CaptureFormat IpAddress PacketDecode PacketFrames.
From S2P Require Import TcpReassembly Dns Sha256 CaptureStages CaptureValidate.

(** ** Only the module's own exception *)

Lemma check_interfaces_safe capture link_type name : safe (check_interfaces capture link_type name).
Proof. unfold check_interfaces. safe_auto. Qed.
Lemma check_occurrences_safe expect n msg : safe (check_occurrences expect n msg).
Proof. unfold check_occurrences. safe_auto. Qed.
Lemma marker_window_safe sws ews declared : safe (marker_window sws ews declared).
Proof. unfold marker_window. destruct sws as [|? []], ews as [|? []]; try exact I. safe_auto. Qed.
Lemma quic_versions_safe packets : safe (quic_versions packets).
Proof. apply map_res_safe. intros p. safe_auto. apply quic_connection_ids_safe. Qed.
Lemma check_quic_safe protocol version packets msg : safe (check_quic protocol version packets msg).
Proof. unfold check_quic. destruct version; safe_auto. apply quic_versions_safe. Qed.

(** The packets of a capture name interfaces of it. *)
Definition interfaces_known (capture : ParsedCapture) (packets : list TransportPacket) : Prop :=
  Forall (fun p => 0 <= tp_interface_id p < len (cap_interfaces capture)) packets.

Lemma decoded_interfaces data kind capture transports :
  parse_packet_capture data kind = Ok capture -> decode_records (cap_records capture) = Ok transports ->
  interfaces_known capture transports.
Proof.
  intros Hp Hd. apply parse_packet_capture_wf_any in Hp as (_ & _ & Hrec). apply decode_records_inv in Hd.
  unfold interfaces_known. apply Forall_forall. intros p Hp.
  apply list_elem_of_lookup_1 in Hp as [k Hk]. destruct (Forall2_lookup_r _ _ _ _ _ Hd Hk) as (r & Hr & Hdec).
  destruct Hdec as (_ & _ & -> & _). rewrite Forall_forall in Hrec.
  destruct (Hrec r) as (H0 & i & Hi & _); [by eapply list_elem_of_lookup_2|].
  apply lookup_lt_Some in Hi. unfold len. lia.
Qed.

Lemma Forall_filter_bool {A} (P : A -> Prop) (f : A -> bool) l : Forall P l -> Forall P (List.filter f l).
Proof. rewrite !List.Forall_forall. intros H x [Hx _]%filter_In. by apply H. Qed.

Lemma window_interface_safe capture window :
  interfaces_known capture window -> safe (window_interface capture window).
Proof.
  intros Hk. unfold window_interface. destruct (remove_dups _) as [|i [|]] eqn:Hr; try exact I.
  assert (Hi : i ∈ map tp_interface_id window) by (apply elem_of_remove_dups; rewrite Hr; by left).
  apply list_elem_of_In, in_map_iff in Hi as (p & <- & Hp). unfold interfaces_known in Hk.
  rewrite List.Forall_forall in Hk. destruct (py_index_ok (cap_interfaces capture) (tp_interface_id p)) as (x & -> & _); [|done].
  by apply Hk.
Qed.

(** A token the callers may pass: not empty, and ASCII. *)
Definition token_ok (token : bytes) : Prop := 0 < len token /\ is_ascii token = true.

Lemma validate_capture_tokens_safe data kind protocol family la lp ra rp link_type name version token sm em expect declared :
  token_ok token -> token_ok sm -> token_ok em ->
  safe (validate_capture_tokens data kind protocol family la lp ra rp link_type name version token sm em expect declared).
Proof.
  intros [Ht Ht'] [Hs Hs'] [He He']. unfold validate_capture_tokens.
  apply safe_bind; [apply parse_packet_capture_safe|]. intros capture Hc.
  apply safe_bind; [apply check_interfaces_safe|]. intros _ _.
  destruct (ip_address_text la); [|exact I]. destruct (ip_address_text ra); [|exact I]. apply safe_if; [done|intros _].
  apply safe_bind; [apply decode_records_safe|]. intros transports Hd. cbn zeta.
  apply safe_if; [done|intros _]. apply safe_bind; [apply check_quic_safe|intros _ _].
  apply safe_bind; [by apply event_windows_safe|intros sws _].
  apply safe_bind; [by apply event_windows_safe|intros ews _].
  apply safe_bind; [apply marker_window_safe|intros [[sw ew] ms] _].
  apply safe_bind; [by apply event_windows_safe|intros tws _].
  apply safe_bind; [apply check_occurrences_safe|intros _ _].
  apply safe_bind.
  { apply safe_if; [intros _|done]. apply safe_if; [done|intros _]. apply safe_bind; [|done].
    apply map_res_safe_in. intros t Ht''. apply safe_bind; [|by intros [[? ?] ?]].
    apply dns_response_for_token_safe. rewrite !elem_of_cons, elem_of_nil in Ht''. by destruct Ht'' as [->|[->|[->|[]]]]. }
  intros digest _. apply safe_if; [done|intros _]. apply safe_bind; [|done].
  apply window_interface_safe, Forall_filter_bool, Forall_filter_bool. by eapply decoded_interfaces.
Qed.

Lemma normalize_endpoints_safe endpoints families : safe (normalize_endpoints endpoints families).
Proof.
  destruct endpoints as [[e1 e2] e3], families as [[f1 f2] f3]. unfold normalize_endpoints.
  assert (H : forall e f, safe (normalize_endpoint e f)).
  { intros e f. unfold normalize_endpoint. destruct (ip_address_text _); [|exact I]. destruct (ip_address_text _); [|exact I].
    safe_auto. }
  safe_auto; apply H.
Qed.

(** The stage data leave no empty stage where spans are computed, and hold only
    packets of the capture. *)
Definition stage_data_ok (transports : list TransportPacket) (sd : StageData) : Prop :=
  (forall s1 s2 s3, sd_records sd = Some (s1, s2, s3) -> s1 <> [] /\ s2 <> [] /\ s3 <> []) /\
  (forall p, p ∈ concat (stages (sd_packets sd)) -> p ∈ transports).

Lemma elem_of_stages {A} (t : triple (list A)) x : x ∈ concat (stages t) <-> x ∈ t.1.1 \/ x ∈ t.1.2 \/ x ∈ t.2.
Proof. destruct t as [[a b] c]. cbn. rewrite !elem_of_app, elem_of_nil. tauto. Qed.

Lemma flow_packets_in family endpoint transports p : p ∈ flow_packets family endpoint transports -> p ∈ transports.
Proof. unfold flow_packets. rewrite !list_elem_of_In, filter_In. tauto. Qed.

Lemma exchange_records_nonempty name messages x : exchange_spec name messages x -> dx_records x <> [].
Proof.
  intros ((qm & am & (Hq & Hn & _) & _) & _ & _ & ->). cbn in Hn.
  assert (H : (dx_query x, qm) ∈ named_by name messages) by (apply named_by_in; exact (conj Hq Hn)).
  destruct (named_by name messages); [by apply elem_of_nil in H|done].
Qed.

Lemma exchange_records_in name messages x transports p :
  exchange_spec name messages x -> map fst messages = transports -> p ∈ dx_records x -> p ∈ transports.
Proof.
  intros (_ & _ & _ & ->) <-. rewrite !list_elem_of_In, !in_map_iff. intros (m & <- & Hm).
  exists m. split; [done|]. rewrite <-list_elem_of_In in *. apply named_by_in in Hm as [Hm _]. exact Hm.
Qed.

Lemma staged_exchanges_inv transports family legs normalized t1 t2 t3 sd :
  staged_exchanges transports family legs normalized (t1, t2, t3) = Ok sd ->
  exists indexed x1 x2 x3,
    _resolver_legs_by_family legs = Ok indexed /\
    _dns_exchanges transports indexed family (t1, t2, t3) = Ok (x1, x2, x3) /\
    normalized = _query_stage_endpoints (dx_query x1, dx_query x2, dx_query x3) /\
    sd = {| sd_exchanges := Some (x1, x2, x3); sd_records := Some (dx_records x1, dx_records x2, dx_records x3);
            sd_packets := (dx_records x1, dx_records x2, dx_records x3);
            sd_start_windows := [dx_window x1]; sd_end_windows := [dx_window x3] |}.
Proof.
  unfold staged_exchanges. intros H. inv_bind H. inv_bind H. destruct v0 as [[x1 x2] x3].
  res_inv H. apply negb_false_iff, bool_decide_eq_true in G. subst sd. by exists v, x1, x2, x3.
Qed.

Lemma dns_exchanges_specs transports legs family t1 t2 t3 x1 x2 x3 :
  _dns_exchanges transports legs family (t1, t2, t3) = Ok (x1, x2, x3) ->
  exists messages n1 n2 n3, _dns_leg_messages transports legs family = Ok messages /\
    map fst messages = transports /\ Forall (on_leg legs family) messages /\
    exchange_spec n1 messages x1 /\ exchange_spec n2 messages x2 /\ exchange_spec n3 messages x3.
Proof.
  intros (messages & n1 & n2 & n3 & Hms & E1 & E2 & E3 & X1 & X2 & X3 & _)%dns_exchanges_inv.
  destruct (dns_leg_messages_inv _ _ _ _ Hms) as [Hfst Hleg].
  exists messages, n1, n2, n3.
  exact (conj Hms (conj Hfst (conj Hleg (conj (dns_exchange_inv _ _ _ _ _ _ Hleg E1 X1)
    (conj (dns_exchange_inv _ _ _ _ _ _ Hleg E2 X2) (dns_exchange_inv _ _ _ _ _ _ Hleg E3 X3)))))).
Qed.

Lemma staged_exchanges_ok transports family legs normalized tokens sd :
  staged_exchanges transports family legs normalized tokens = Ok sd -> stage_data_ok transports sd.
Proof.
  destruct tokens as [[t1 t2] t3]. intros (indexed & x1 & x2 & x3 & _ & Hx & _ & ->)%staged_exchanges_inv.
  apply dns_exchanges_specs in Hx as (messages & n1 & n2 & n3 & _ & Hfst & _ & S1 & S2 & S3). split; cbn [sd_records sd_packets].
  - intros s1 s2 s3 [= <- <- <-]. split_and!;
      [exact (exchange_records_nonempty _ _ _ S1)|exact (exchange_records_nonempty _ _ _ S2)|exact (exchange_records_nonempty _ _ _ S3)].
  - intros p [Hp|[Hp|Hp]]%elem_of_stages;
      [exact (exchange_records_in _ _ _ _ _ S1 Hfst Hp)|exact (exchange_records_in _ _ _ _ _ S2 Hfst Hp)|
       exact (exchange_records_in _ _ _ _ _ S3 Hfst Hp)].
Qed.

Lemma staged_flows_inv transports protocol family f1 f2 f3 n1 n2 n3 identical t1 t2 t3 sd :
  staged_flows transports protocol family (f1, f2, f3) (n1, n2, n3) identical (t1, t2, t3) = Ok sd ->
  exists sws ews,
    _event_windows_for_token (flow_packets f1 n1 transports) protocol f1 t1 family = Ok sws /\
    _event_windows_for_token (flow_packets f3 n3 transports) protocol f3 t3 family = Ok ews /\
    (if identical then exists segments, _tcp_stage_segments transports (n1, n2, n3) (t1, t2, t3) = Ok segments /\ sd_records sd = Some segments
     else sd_records sd = None) /\
    sd_exchanges sd = None /\ sd_start_windows sd = sws /\ sd_end_windows sd = ews /\
    sd_packets sd = (flow_packets f1 n1 transports, flow_packets f2 n2 transports, flow_packets f3 n3 transports).
Proof.
  unfold staged_flows. intros H. res_inv H. subst sd. exists v0, v1. cbn. split_and!; try done.
  destruct identical; res_inv E; subst; [by eexists|done].
Qed.

Lemma staged_flows_ok transports protocol family families normalized identical tokens sd :
  staged_flows transports protocol family families normalized identical tokens = Ok sd -> stage_data_ok transports sd.
Proof.
  destruct families as [[f1 f2] f3], normalized as [[n1 n2] n3], tokens as [[t1 t2] t3].
  intros (sws & ews & _ & _ & Hr & _ & _ & _ & Hp)%staged_flows_inv. split.
  - intros s1 s2 s3 Hs. destruct identical; [|rewrite Hr in Hs; discriminate Hs]. destruct Hr as (segments & Hseg & Hr).
    rewrite Hr in Hs. injection Hs as ->. apply tcp_stage_segments_spec in Hseg as (_ & _ & ? & ? & ?). done.
  - rewrite Hp. intros p [H|[H|H]]%elem_of_stages; exact (flow_packets_in _ _ _ _ H).
Qed.

Lemma tcp_stage_segments_safe transports endpoints tokens : safe (_tcp_stage_segments transports endpoints tokens).
Proof.
  unfold _tcp_stage_segments. apply safe_bind; [|intros [[s1 s2] s3] _; safe_auto]. apply fold_res_safe.
  intros [[s1 s2] s3] p. unfold _tcp_segment_step. destruct endpoints as [[e1 e2] e3], tokens as [[t1 t2] t3].
  assert (H : forall s, safe (append_segment s p)) by (intros s; unfold append_segment; destruct s; safe_auto).
  safe_auto; apply H.
Qed.

Definition tokens_ok (tokens : Tokens) : Prop := token_ok tokens.1.1 /\ token_ok tokens.1.2 /\ token_ok tokens.2.

Lemma staged_exchanges_safe transports family legs normalized tokens :
  tokens_ok tokens -> safe (staged_exchanges transports family legs normalized tokens).
Proof.
  intros ([_ H1] & [_ H2] & [_ H3]). unfold staged_exchanges. apply safe_bind; [apply resolver_legs_safe|intros indexed _].
  apply safe_bind; [by apply dns_exchanges_safe|intros [[x1 x2] x3] _]. safe_auto.
Qed.

Lemma staged_flows_safe transports protocol family families normalized identical tokens :
  tokens_ok tokens -> safe (staged_flows transports protocol family families normalized identical tokens).
Proof.
  destruct families as [[f1 f2] f3], normalized as [[n1 n2] n3], tokens as [[t1 t2] t3].
  intros ([H1 H1'] & _ & [H3 H3']). cbn in *. unfold staged_flows. apply safe_bind.
  { destruct identical; [|exact I]. apply safe_bind; [apply tcp_stage_segments_safe|done]. }
  intros records _. apply safe_bind; [by apply event_windows_safe|intros ? _].
  apply safe_bind; [by apply event_windows_safe|done].
Qed.

Lemma staged_responses_safe sd family families tokens : tokens_ok tokens -> safe (staged_responses sd family families tokens).
Proof.
  intros ([_ H1] & [_ H2] & [_ H3]). unfold staged_responses. destruct (sd_exchanges sd) as [[[x1 x2] x3]|]; [exact I|].
  destruct (sd_packets sd) as [[p1 p2] p3], families as [[f1 f2] f3], tokens as [[t1 t2] t3]. cbn in H1, H2, H3.
  apply map_res_safe_in. intros [[packets f] t] Ht. apply safe_bind; [|by intros [[? ?] ?]].
  apply dns_response_for_token_safe. rewrite !elem_of_cons, elem_of_nil in Ht.
  by destruct Ht as [[= _ _ ->]|[[= _ _ ->]|[[= _ _ ->]|[]]]].
Qed.

Lemma staged_target_windows_safe sd s e protocol family target_family token :
  token_ok token -> safe (staged_target_windows sd s e protocol family target_family token).
Proof.
  intros [H H']. unfold staged_target_windows. destruct (sd_exchanges sd) as [[[x1 x2] x3]|]; [exact I|].
  destruct (sd_packets sd) as [[p1 p2] p3]. by apply event_windows_safe.
Qed.

Lemma staged_proof_safe capture transports sd protocol family families version tokens expect declared :
  tokens_ok tokens -> interfaces_known capture transports -> stage_data_ok transports sd ->
  safe (staged_proof capture sd protocol family families version tokens expect declared).
Proof.
  intros Htok Hif [Hrec Hin]. unfold staged_proof. destruct tokens as [[t1 t2] t3] eqn:Ht. destruct families as [[f1 f2] f3] eqn:Hf.
  apply safe_bind; [apply marker_window_safe|intros [[sw ew] ms] _].
  apply safe_bind; [apply staged_target_windows_safe; apply Htok|intros tws _]. cbn zeta.
  apply safe_bind; [apply check_occurrences_safe|intros _ _].
  apply safe_if; [done|intros _]. apply safe_if; [done|intros _]. apply safe_bind; [apply check_quic_safe|intros _ _].
  apply safe_bind.
  { apply safe_if; [intros _|done]. apply safe_if; [done|intros _]. apply safe_bind; [by apply staged_responses_safe|done]. }
  intros digest _. apply safe_bind.
  { apply window_interface_safe, Forall_filter_bool. unfold interfaces_known in *. rewrite Forall_forall in *.
    intros p Hp. by apply Hif, Hin. }
  intros interface _. apply safe_bind; [|done].
  destruct (sd_records sd) as [[[s1 s2] s3]|]; [|exact I]. destruct (Hrec s1 s2 s3 eq_refl) as (H1 & H2 & H3).
  apply safe_bind; [|done]. unfold _record_spans. safe_auto; by apply record_span_safe.
Qed.

Lemma validate_staged_safe data kind protocol family endpoints link_type name version token sm em expect declared retransmissions legs identical :
  tokens_ok (sm, token, em) ->
  _identical_retransmissions retransmissions protocol legs = Ok identical -> (identical = true -> expect = true) ->
  safe (validate_staged_capture_tokens data kind protocol family endpoints link_type name version token sm em expect declared retransmissions legs).
Proof.
  intros Htok Hid Hexp. unfold validate_staged_capture_tokens. apply safe_if; [done|intros _].
  rewrite Hid. cbn [mbind result_bind].
  replace (identical && negb expect) with false by (destruct identical, expect; try done; by discriminate Hexp).
  apply safe_bind; [apply parse_packet_capture_safe|intros capture Hc].
  apply safe_bind; [apply check_interfaces_safe|intros _ _].
  apply safe_bind; [apply stage_transport_families_safe|intros families _].
  apply safe_bind; [apply normalize_endpoints_safe|intros normalized _].
  apply safe_bind; [apply decode_records_safe|intros transports Hd].
  pose proof (decoded_interfaces _ _ _ _ Hc Hd) as Hif. cbn zeta.
  apply safe_bind.
  - destruct legs; [|by apply staged_flows_safe]. apply safe_if; intros _; [by apply staged_exchanges_safe|by apply staged_flows_safe].
  - intros sd Hsd. apply (staged_proof_safe capture transports); [done|done|].
    destruct legs; [|by eapply staged_flows_ok]. destruct (_ && _); [by eapply staged_exchanges_ok|by eapply staged_flows_ok].
Qed.

(** ** Soundness *)

Lemma check_interfaces_inv capture link_type name :
  check_interfaces capture link_type name = Ok tt ->
  Forall (fun i => if_link_type i = link_type /\ (if_name i = None \/ if_name i = Some name)) (cap_interfaces capture).
Proof.
  unfold check_interfaces. intros H. res_inv H. clear H. apply orb_false_iff in G as [_ G]. apply Forall_forall. intros i Hi. split.
  - apply Z.eqb_eq. by apply (existsb_negb_false (fun i => if_link_type i =? link_type) (cap_interfaces capture)).
  - destruct (if_name i) as [n|] eqn:Hn; [right|by left]. f_equal. apply seq_spec.
    destruct (seq_ n name) eqn:Hs; [done|]. exfalso. apply not_true_iff_false in G0. apply G0, existsb_exists.
    exists i. rewrite <-list_elem_of_In, Hn, Hs. done.
Qed.

Lemma fraction_int z : (fraction z 1 == inject_Z z)%Q.
Proof. unfold fraction. rewrite Qred_correct. done. Qed.

Lemma window_ms_bounds s e :
  (inject_Z (window_ms s e) <= (e - s) * inject_Z 1000 < inject_Z (window_ms s e + 1))%Q.
Proof.
  unfold window_ms. set (q := fmul _ _).
  assert (Hq : (q == (e - s) * inject_Z 1000)%Q).
  { unfold q, fmul, fsub. rewrite !Qred_correct, fraction_int. done. }
  split; [rewrite <-Hq; apply Qfloor_le|rewrite <-Hq; apply Qlt_floor].
Qed.

Lemma marker_window_inv sws ews declared sw ew ms :
  marker_window sws ews declared = Ok (sw, ew, ms) ->
  sws = [sw] /\ ews = [ew] /\ (snd sw < snd ew)%Q /\ ms = window_ms (snd sw) (snd ew) /\
  1000 <= ms <= 30000 /\ declared = ms.
Proof.
  unfold marker_window. destruct sws as [|w1 []], ews as [|w2 []]; try done. intros H. res_inv H. simplify_eq.
  split_and!; try done; try lia.
  apply Qnot_le_lt. intros Hc. apply Qle_bool_iff in Hc. unfold fle in G. congruence.
Qed.

(** The window a proof reports: bounded by the two marker events, of the
    declared length in whole milliseconds, between one and thirty seconds. *)
Definition window_ok (proof : CaptureProof) (declared : Z) : Prop :=
  started_at proof = start_event_ended_at proof /\ ended_at proof = end_event_ended_at proof /\
  (started_at proof < ended_at proof)%Q /\
  (inject_Z (observation_ms proof) <= (ended_at proof - started_at proof) * inject_Z 1000
   < inject_Z (observation_ms proof + 1))%Q /\
  1000 <= observation_ms proof <= 30000 /\ observation_ms proof = declared.

Definition occurrences_ok (proof : CaptureProof) (expect_token : bool) : Prop :=
  if expect_token then 1 <= token_occurrences proof else token_occurrences proof = 0.

Lemma check_occurrences_inv expect n msg :
  check_occurrences expect n msg = Ok tt -> if expect then 1 <= n else n = 0.
Proof. unfold check_occurrences. intros H. res_inv H. destruct expect; cbn in *; lia. Qed.

(** All packets of the window were captured on one interface of the capture. *)
Lemma window_interface_inv capture window interface :
  window_interface capture window = Ok interface -> interfaces_known capture window ->
  exists id, (forall p, p ∈ window -> tp_interface_id p = id) /\ window <> [] /\
    cap_interfaces capture !! Z.to_nat id = Some interface.
Proof.
  unfold window_interface. destruct (remove_dups _) as [|id [|]] eqn:Hr; try done. intros H Hk. exists id.
  assert (Hmem : forall i, i ∈ map tp_interface_id window <-> i = id).
  { intros i. rewrite <-elem_of_remove_dups, Hr, list_elem_of_singleton. done. }
  assert (Hid : id ∈ map tp_interface_id window) by (by apply Hmem).
  apply list_elem_of_In, in_map_iff in Hid as (p & Hid & Hp).
  split_and!.
  - intros q Hq. apply Hmem, list_elem_of_In, in_map. by apply list_elem_of_In.
  - by destruct window.
  - apply py_index_inv; [|done]. unfold interfaces_known in Hk. rewrite List.Forall_forall in Hk.
    specialize (Hk p Hp). lia.
Qed.

(** What an accepted capture proves about its interface. *)
Definition interface_ok (proof : CaptureProof) (window : list TransportPacket) (link_type : Z) (name : string) : Prop :=
  proof_link_type proof = link_type /\
  (proof_interface_name proof = None \/ proof_interface_name proof = Some name) /\
  exists id, forall p, p ∈ window -> tp_interface_id p = id.

Lemma interface_provenance capture window interface link_type name :
  check_interfaces capture link_type name = Ok tt -> interfaces_known capture window ->
  window_interface capture window = Ok interface ->
  if_link_type interface = link_type /\ (if_name interface = None \/ if_name interface = Some name) /\
  exists id, forall p, p ∈ window -> tp_interface_id p = id.
Proof.
  intros Hc Hk Hw. apply check_interfaces_inv in Hc. apply window_interface_inv in Hw as (id & Hall & _ & Hi); [|done].
  rewrite Forall_forall in Hc. destruct (Hc interface) as [? ?]; [by eapply list_elem_of_lookup_2|].
  split_and!; [done|done|by exists id].
Qed.

(** What [validate_capture_tokens] proves.  When it accepts, the start and
    the end marker each occur exactly once in the packets of the signed flow;
    the window between them is of the declared number of whole milliseconds,
    from 1 s to 30 s; the token occurs at least once in it, or not at all, as
    the case expects; the packets of the window were captured on one interface,
    whose link type is the signed one and whose name, if the capture gives
    one, is the signed one; and the counts are those of the capture. *)
Theorem validate_capture_tokens_sound data kind protocol family la lp ra rp link_type name version token sm em expect declared proof :
  validate_capture_tokens data kind protocol family la lp ra rp link_type name version token sm em expect declared = Ok proof ->
  exists capture transports target_windows,
    parse_packet_capture data kind = Ok capture /\ decode_records (cap_records capture) = Ok transports /\
    let selected := flow_packets family {| ep_stage := ""; ep_local_address := la; ep_local_port := lp;
                                           ep_remote_address := ra; ep_remote_port := rp |} transports in
    let window := List.filter (in_window (started_at proof) (ended_at proof)) selected in
    _event_windows_for_token selected protocol family sm family = Ok [(start_event_started_at proof, start_event_ended_at proof)] /\
    _event_windows_for_token selected protocol family em family = Ok [(end_event_started_at proof, end_event_ended_at proof)] /\
    _event_windows_for_token window protocol family token family = Ok target_windows /\
    token_occurrences proof = len target_windows /\ occurrences_ok proof expect /\ window_ok proof declared /\
    interface_ok proof window link_type name /\
    total_record_count proof = len (cap_records capture) /\ packet_count proof = len window.
Proof.
  unfold validate_capture_tokens. intros H. inv_bind H. rename v into capture. inv_bind H. destruct v.
  destruct (ip_address_text la); [|done]. destruct (ip_address_text ra); [|done]. res_step H.
  inv_bind H. rename v into transports. cbn zeta in H.
  set (endpoint := {| ep_stage := _ |}) in *. set (selected := flow_packets family endpoint transports) in *.
  pose proof (decoded_interfaces _ _ _ _ E E1) as Hif.
  res_step H. inv_bind H. inv_bind H. rename v0 into sws. inv_bind H. rename v0 into ews. inv_bind H.
  destruct v0 as [[sw ew] ms]. apply marker_window_inv in E5 as (-> & -> & Hlt & -> & Hms & Hdecl).
  inv_bind H. rename v0 into tws. inv_bind H. destruct v0. apply check_occurrences_inv in E6. inv_bind H. res_step H. inv_bind H.
  res_inv H. subst proof. destruct sw as [sw1 sw2], ew as [ew1 ew2]. cbn [fst snd] in *.
  apply interface_provenance with (link_type := link_type) (name := name) in E8; [|done|].
  2:{ apply Forall_filter_bool, Forall_filter_bool, Hif. }
  exists capture, transports, tws. cbn zeta. split_and!; try done.
  - unfold window_ok. cbn. split_and!; try done; try lia; apply window_ms_bounds.
Qed.

(** ** The staged validator *)

(** Where the stage data come from. *)
Definition stage_data_of (transports : list TransportPacket) (protocol family : string) (families : triple string)
    (normalized : triple StagedCaptureEndpoint) (identical : bool) (legs : option (list DnsResolverLeg)) (tokens : Tokens)
    (sd : StageData) : Prop :=
  (exists ls, legs = Some ls /\ identical = true /\ protocol = "dns"%string /\
     staged_exchanges transports family ls normalized tokens = Ok sd) \/
  ((legs = None \/ identical = false \/ protocol <> "dns"%string) /\
     staged_flows transports protocol family families normalized identical tokens = Ok sd).

Lemma validate_staged_inv data kind protocol family endpoints link_type name version token sm em expect declared retransmissions legs proof :
  validate_staged_capture_tokens data kind protocol family endpoints link_type name version token sm em expect declared retransmissions legs = Ok proof ->
  exists identical capture families normalized transports sd,
    stage_names endpoints = ["start"; "target"; "end"]%string /\
    _identical_retransmissions retransmissions protocol legs = Ok identical /\ (identical = true -> expect = true) /\
    parse_packet_capture data kind = Ok capture /\ check_interfaces capture link_type name = Ok tt /\
    _stage_transport_families endpoints protocol family legs = Ok families /\
    normalize_endpoints endpoints families = Ok normalized /\ decode_records (cap_records capture) = Ok transports /\
    stage_data_of transports protocol family families normalized identical legs (sm, token, em) sd /\
    staged_proof capture sd protocol family families version (sm, token, em) expect declared = Ok proof.
Proof.
  unfold validate_staged_capture_tokens. intros H. res_step H. apply negb_false_iff, bool_decide_eq_true in G.
  inv_bind H. rename v into identical. res_step H. inv_bind H. rename v into capture. inv_bind H. destruct v.
  inv_bind H. rename v into families. inv_bind H. rename v into normalized. inv_bind H. rename v into transports.
  cbn zeta in H. inv_bind H. rename v into sd.
  exists identical, capture, families, normalized, transports, sd. split_and!; try done.
  - intros ->. cbn in G0. by destruct expect.
  - unfold stage_data_of. destruct legs as [ls|]; [|right; split; [by left|done]].
    destruct (identical && seq_ protocol "dns") eqn:Hb.
    + apply andb_true_iff in Hb as [-> Hb]. apply seq_spec in Hb. left. exists ls. done.
    + right. split; [|done]. right. apply andb_false_iff in Hb as [->|Hb]; [by left|]. right. intros ->. done.
Qed.

Lemma stage_data_wf transports protocol family families normalized identical legs tokens sd :
  stage_data_of transports protocol family families normalized identical legs tokens sd -> stage_data_ok transports sd.
Proof.
  intros [(ls & _ & _ & _ & H)|[_ H]]; [by eapply staged_exchanges_ok|by eapply staged_flows_ok].
Qed.

(** What [staged_proof] reads off the stage data. *)
Definition staged_proof_spec (capture : ParsedCapture) (sd : StageData) (protocol family target_family : string)
    (token : bytes) (expect : bool) (declared : Z) (proof : CaptureProof) : Prop :=
  sd_start_windows sd = [(start_event_started_at proof, start_event_ended_at proof)] /\
  sd_end_windows sd = [(end_event_started_at proof, end_event_ended_at proof)] /\
  window_ok proof declared /\ occurrences_ok proof expect /\
  (exists target_windows,
     staged_target_windows sd (started_at proof) (ended_at proof) protocol family target_family token = Ok target_windows /\
     token_occurrences proof = len target_windows) /\
  let window := List.filter (in_window (started_at proof) (ended_at proof)) (concat (stages (sd_packets sd))) in
  window_interface capture window ≫= (fun i => Ok (if_link_type i, if_name i)) = Ok (proof_link_type proof, proof_interface_name proof) /\
  (forall p, p ∈ window -> tp_protocol p = expected_transport protocol) /\
  total_record_count proof = len (cap_records capture) /\ packet_count proof = len window /\
  match sd_records sd with
  | None => stage_record_spans proof = None
  | Some (s1, s2, s3) => exists sp1 sp2 sp3, stage_record_spans proof = Some (sp1, sp2, sp3) /\
      span_of sp1 s1 /\ span_of sp2 s2 /\ span_of sp3 s3
  end.

Lemma record_spans_inv s1 s2 s3 spans :
  _record_spans (s1, s2, s3) = Ok spans ->
  exists sp1 sp2 sp3, spans = (sp1, sp2, sp3) /\ span_of sp1 s1 /\ span_of sp2 s2 /\ span_of sp3 s3.
Proof.
  unfold _record_spans. intros H. res_inv H. subst spans. exists v, v0, v1.
  split; [done|]. split; [by apply record_span_spec|]. split; by apply record_span_spec.
Qed.

Lemma staged_proof_inv capture sd protocol family f1 f2 f3 version t1 t2 t3 expect declared proof :
  staged_proof capture sd protocol family (f1, f2, f3) version (t1, t2, t3) expect declared = Ok proof ->
  staged_proof_spec capture sd protocol family f2 t2 expect declared proof.
Proof.
  unfold staged_proof. intros H. inv_bind H. destruct v as [[sw ew] ms].
  apply marker_window_inv in E as (Hsw & Hew & Hlt & -> & Hms & Hdecl). inv_bind H. rename v into tws. cbn zeta in H.
  inv_bind H. destruct v. apply check_occurrences_inv in E0. res_step H. res_step H. inv_bind H. inv_bind H. inv_bind H. inv_bind H.
  res_inv H. subst proof. destruct sw as [sw1 sw2], ew as [ew1 ew2]. cbn [fst snd] in *.
  unfold staged_proof_spec. cbn -[stages window_interface mbind window_ms]. split_and!; try done.
  - unfold window_ok. cbn -[window_ms]. split_and!; try done; try lia; apply window_ms_bounds.
  - by exists tws.
  - by rewrite E3.
  - intros p Hp. apply seq_spec. by apply (existsb_negb_false (fun p => seq_ (tp_protocol p) (expected_transport protocol)) _ _ G0).
  - destruct (sd_records sd) as [[[s1 s2] s3]|]; res_inv E4; [|by subst].
    apply record_spans_inv in E5 as (sp1 & sp2 & sp3 & -> & H1 & H2 & H3). subst.
    exists sp1, sp2, sp3. exact (conj eq_refl (conj H1 (conj H2 H3))).
Qed.

(** The digest of a DNS proof is over the responses of its stages. *)
Lemma staged_proof_digest capture sd family families version tokens expect declared proof :
  staged_proof capture sd "dns" family families version tokens expect declared = Ok proof ->
  exists responses, staged_responses sd family families tokens = Ok responses /\
    dns_responses_sha256 proof = Some (dns_responses_digest responses) /\ dns_response_count proof = Some (len responses).
Proof.
  unfold staged_proof. destruct tokens as [[t1 t2] t3], families as [[f1 f2] f3]. intros H.
  inv_bind H. destruct v as [[sw ew] ms]. inv_bind H. cbn zeta in H. inv_bind H. res_step H. res_step H. inv_bind H.
  inv_bind H. change (seq_ "dns" "dns") with true in *. cbn iota in E3. res_inv E3. subst v2.
  inv_bind H. inv_bind H. res_inv H. subst proof. by eexists.
Qed.

Lemma window_interface_bind capture window proof :
  window_interface capture window ≫= (fun i => Ok (if_link_type i, if_name i)) = Ok (proof_link_type proof, proof_interface_name proof) ->
  exists interface, window_interface capture window = Ok interface /\
    proof_link_type proof = if_link_type interface /\ proof_interface_name proof = if_name interface.
Proof. intros H. inv_bind H. res_inv H. simplify_eq. by exists v. Qed.

(** C19: What [validate_staged_capture_tokens] proves.  When it accepts, the
    stages are start, target and end; each marker has exactly one event among
    its own stage's packets; the observation window between them is of the
    declared number of whole milliseconds, from 1 s to 30 s; the target token
    occurs in it or does not, as the case expects; every packet of the window
    on any stage's flow uses the case's transport; and those packets were
    captured on one interface of the signed link type and name. *)
Theorem validate_staged_sound data kind protocol family endpoints link_type name version token sm em expect declared retransmissions legs proof :
  validate_staged_capture_tokens data kind protocol family endpoints link_type name version token sm em expect declared retransmissions legs = Ok proof ->
  exists identical capture families normalized transports sd,
    stage_names endpoints = ["start"; "target"; "end"]%string /\
    parse_packet_capture data kind = Ok capture /\ decode_records (cap_records capture) = Ok transports /\
    stage_data_of transports protocol family families normalized identical legs (sm, token, em) sd /\
    staged_proof_spec capture sd protocol family families.1.2 token expect declared proof /\
    interface_ok proof (List.filter (in_window (started_at proof) (ended_at proof)) (concat (stages (sd_packets sd)))) link_type name.
Proof.
  intros (identical & capture & families & normalized & transports & sd & Hst & _ & _ & Hp & Hc & _ & _ & Hd & Hsd & Hpr)%validate_staged_inv.
  exists identical, capture, families, normalized, transports, sd.
  destruct families as [[f1 f2] f3]. apply staged_proof_inv in Hpr. pose proof (stage_data_wf _ _ _ _ _ _ _ _ _ Hsd) as [_ Hin].
  refine (conj Hst (conj Hp (conj Hd (conj Hsd (conj Hpr _))))).
  destruct Hpr as (_ & _ & _ & _ & _ & Hw & _). apply window_interface_bind in Hw as (interface & Hw & Hl & Hn).
  unfold interface_ok. rewrite Hl, Hn. eapply interface_provenance; [exact Hc| |exact Hw].
  apply Forall_filter_bool, Forall_forall. intros p Hp'. apply Hin in Hp'.
  pose proof (decoded_interfaces _ _ _ _ Hp Hd) as Hif. unfold interfaces_known in Hif.
  rewrite Forall_forall in Hif. by apply Hif.
Qed.

Lemma identical_policy protocol legs identical :
  _identical_retransmissions IDENTICAL_RETRANSMISSIONS protocol legs = Ok identical ->
  identical = true /\ (protocol = "tcp"%string \/ (protocol = "dns"%string /\ legs <> None)).
Proof.
  unfold _identical_retransmissions. intros H. res_inv H. subst. split; [done|].
  apply orb_true_iff in G as [G|G]; [left; by apply seq_spec|right].
  apply andb_true_iff in G as [G1 G2]. apply seq_spec in G1. split; [done|]. by destruct legs.
Qed.

(** Every record of a TCP capture is a data segment of one of the stages. *)
Definition tcp_accounted (data : bytes) (kind family : string) (endpoints : triple StagedCaptureEndpoint) (tokens : Tokens)
    (proof : CaptureProof) : Prop :=
  exists capture normalized transports sp1 sp2 sp3,
    parse_packet_capture data kind = Ok capture /\ decode_records (cap_records capture) = Ok transports /\
    normalize_endpoints endpoints (family, family, family) = Ok normalized /\
    segments_ok normalized tokens transports /\
    stage_record_spans proof = Some (sp1, sp2, sp3) /\
    span_of sp1 (segments_of normalized tokens transports).1.1 /\
    span_of sp2 (segments_of normalized tokens transports).1.2 /\
    span_of sp3 (segments_of normalized tokens transports).2 /\
    Permutation transports (concat (stages (segments_of normalized tokens transports))).

(** A staged TCP capture accepted under identical retransmissions holds
    nothing but the three stages' data segments.  Every record of the capture
    is a TCP segment on one stage's normalized flow whose payload is exactly
    that stage's token, each stage has at least one, all segments of a stage
    have the same sequence number, and the reported record spans are the first
    and last capture times of each stage's segments. *)
Theorem validate_staged_tcp_accounts data kind family endpoints link_type name version token sm em expect declared proof :
  validate_staged_capture_tokens data kind "tcp" family endpoints link_type name version token sm em expect declared
    IDENTICAL_RETRANSMISSIONS None = Ok proof ->
  tcp_accounted data kind family endpoints (sm, token, em) proof.
Proof.
  intros (identical & capture & families & normalized & transports & sd & _ & Hid & _ & Hp & _ & Hf & Hn & Hd & Hsd & Hpr)%validate_staged_inv.
  apply identical_policy in Hid as [-> _]. cbn in Hf. injection Hf as <-.
  destruct Hsd as [(? & [=] & _)|[_ Hsd]]. destruct normalized as [[n1 n2] n3].
  apply staged_flows_inv in Hsd as (sws & ews & _ & _ & (segments & Hseg & Hrec) & _ & _ & _ & _).
  apply tcp_stage_segments_spec in Hseg as (-> & Hok & _).
  apply staged_proof_inv in Hpr as (_ & _ & _ & _ & _ & Hw). cbn zeta in Hw. destruct Hw as (_ & _ & _ & _ & Hspans).
  rewrite Hrec in Hspans. unfold segments_of in Hspans. destruct Hspans as (sp1 & sp2 & sp3 & Hs & H1 & H2 & H3).
  exists capture, (n1, n2, n3), transports, sp1, sp2, sp3.
  refine (conj Hp (conj Hd (conj Hn (conj Hok (conj Hs (conj H1 (conj H2 (conj H3 _)))))))).
  cbn [stages segments_of concat]. rewrite app_nil_r. apply permutation_3way.
  intros p Hp'. destruct Hok as [Hall _]. rewrite Forall_forall in Hall. specialize (Hall p Hp').
  unfold owned, owner3, owner2 in *. destruct (owner1 _ _ p), (bool_decide _), (bool_decide _); cbn in *; tauto.
Qed.

(** Every record of a DNS capture is a message of one of the three exchanges,
    which give the endpoints, the window and the digest. *)
Definition dns_accounted (data : bytes) (kind family : string) (endpoints : triple StagedCaptureEndpoint)
    (ls : list DnsResolverLeg) (n1 n2 n3 : string) (proof : CaptureProof) : Prop :=
  exists capture indexed families transports messages x1 x2 x3,
    parse_packet_capture data kind = Ok capture /\ decode_records (cap_records capture) = Ok transports /\
    _resolver_legs_by_family ls = Ok indexed /\
    map fst messages = transports /\ Forall (on_leg indexed family) messages /\
    exchange_spec n1 messages x1 /\ exchange_spec n2 messages x2 /\ exchange_spec n3 messages x3 /\
    Permutation transports (dx_records x1 ++ dx_records x2 ++ dx_records x3) /\
    normalize_endpoints endpoints families = Ok (_query_stage_endpoints (dx_query x1, dx_query x2, dx_query x3)) /\
    start_event_started_at proof = tp_timestamp (dx_query x1) /\ started_at proof = tp_timestamp (dx_answer x1) /\
    end_event_started_at proof = tp_timestamp (dx_query x3) /\ ended_at proof = tp_timestamp (dx_answer x3) /\
    dns_responses_sha256 proof = Some (dns_responses_digest
      [tp_payload (dx_answer x1); tp_payload (dx_answer x2); tp_payload (dx_answer x3)]).


(** ** Agreement with [staged_marker_window] *)

Lemma decode_each_records records transports :
  decode_records records = Ok transports -> decode_each records = Ok transports.
Proof.
  unfold decode_records, decode_each. intros H. inv_bind H. apply map_res_ok in E, H. apply map_res_ok.
  revert transports H. induction E as [|r n records network Hr Hrs IH]; intros transports H; inversion H; subst; constructor.
  - by rewrite Hr.
  - by apply IH.
Qed.

Lemma decode_records_each records transports :
  decode_each records = Ok transports -> decode_records records = Ok transports.
Proof.
  unfold decode_records, decode_each. intros H. apply map_res_ok in H.
  assert (Hn : exists network, map_res _decode_network records = Ok network /\ map_res _decode_transport network = Ok transports).
  { induction H as [|r t records transports Hr Hrs (network & Hn & Ht)]; [by exists []|]. inv_bind Hr.
    exists (v :: network). cbn [map_res]. rewrite E, Hn, Hr, Ht. done. }
  destruct Hn as (network & -> & Hn). done.
Qed.

Definition canonical_endpoint (e : StagedCaptureEndpoint) : Prop :=
  (exists a, ip_ok a /\ ep_local_address e = ip_str a) /\ (exists b, ip_ok b /\ ep_remote_address e = ip_str b).

Lemma normalize_canonical e family n : canonical_endpoint e -> normalize_endpoint e family = Ok n -> n = e.
Proof.
  intros [(a & Ha & Hla) (b & Hb & Hrb)] H. unfold normalize_endpoint in H.
  rewrite Hla, Hrb, !ip_address_text_str in H by done. res_inv H. subst n. destruct e; cbn in *. by subst.
Qed.

Lemma normalize_endpoints_canonical e1 e2 e3 families normalized :
  canonical_endpoint e1 -> canonical_endpoint e2 -> canonical_endpoint e3 ->
  normalize_endpoints (e1, e2, e3) families = Ok normalized -> normalized = (e1, e2, e3).
Proof.
  intros H1 H2 H3 H. destruct families as [[f1 f2] f3]. unfold normalize_endpoints in H. res_inv H. subst.
  apply normalize_canonical in E, E0, E1; try done. by subst.
Qed.

Lemma staged_marker_flows data kind protocol family endpoints sm em retransmissions legs identical capture f1 f2 f3 transports sw ew :
  stage_names endpoints = ["start"; "target"; "end"]%string ->
  _identical_retransmissions retransmissions protocol legs = Ok identical ->
  _stage_transport_families endpoints protocol family legs = Ok (f1, f2, f3) ->
  parse_packet_capture data kind = Ok capture -> decode_each (cap_records capture) = Ok transports ->
  (legs = None \/ identical = false \/ protocol <> "dns"%string) ->
  _event_windows_for_token (flow_packets f1 endpoints.1.1 transports) protocol f1 sm family = Ok [sw] ->
  _event_windows_for_token (flow_packets f3 endpoints.2 transports) protocol f3 em family = Ok [ew] ->
  staged_marker_window data kind protocol family endpoints sm em retransmissions legs
  = ordered_markers [event_time protocol sw] [event_time protocol ew].
Proof.
  intros Hst Hid Hf Hp Hd Hcase Hs He. unfold staged_marker_window. rewrite bool_decide_true by done. cbn [negb].
  rewrite Hid. cbn [mbind result_bind]. rewrite Hf. cbn [mbind result_bind]. rewrite Hp. cbn [mbind result_bind].
  rewrite Hd. cbn [mbind result_bind]. destruct endpoints as [[e1 e2] e3]. cbn [fst snd] in *. cbn zeta.
  rewrite !events_are_window_ends, Hs. cbn [mbind result_bind]. rewrite He. cbn [mbind result_bind map].
  destruct legs as [ls|]; [|done]. destruct (identical && seq_ protocol "dns") eqn:Hb; [|done].
  apply andb_true_iff in Hb as [-> Hb]. apply seq_spec in Hb. by destruct Hcase as [?|[?|?]].
Qed.

Lemma staged_marker_exchanges data kind family endpoints sm em token ls indexed capture families transports x1 x2 x3 :
  stage_names endpoints = ["start"; "target"; "end"]%string ->
  _stage_transport_families endpoints "dns" family (Some ls) = Ok families ->
  parse_packet_capture data kind = Ok capture -> decode_each (cap_records capture) = Ok transports ->
  _resolver_legs_by_family ls = Ok indexed ->
  _dns_exchanges transports indexed family (sm, token, em) = Ok (x1, x2, x3) ->
  endpoints = _query_stage_endpoints (dx_query x1, dx_query x2, dx_query x3) ->
  staged_marker_window data kind "dns" family endpoints sm em IDENTICAL_RETRANSMISSIONS (Some ls)
  = ordered_markers [tp_timestamp (dx_answer x1)] [tp_timestamp (dx_answer x3)].
Proof.
  intros Hst Hf Hp Hd Hidx Hx He. unfold staged_marker_window. rewrite bool_decide_true by done. cbn [negb].
  change (_identical_retransmissions IDENTICAL_RETRANSMISSIONS "dns" (Some ls)) with (Ok true : res bool).
  cbn [mbind result_bind]. rewrite Hf. cbn [mbind result_bind]. destruct families as [[f1 f2] f3]. rewrite Hp. cbn [mbind result_bind].
  rewrite Hd. cbn [mbind result_bind]. destruct endpoints as [[e1 e2] e3]. cbn zeta.
  change (true && seq_ "dns" "dns") with true. cbn iota. rewrite Hidx. cbn [mbind result_bind].
  apply dns_exchanges_inv in Hx as (messages & n1 & n2 & n3 & Hms & _ & _ & _ & X1 & _ & X3 & _).
  rewrite Hms. cbn [mbind result_bind]. rewrite X1. cbn [mbind result_bind]. rewrite X3. cbn [mbind result_bind].
  cbn in He. injection He as -> -> ->. by rewrite bool_decide_true by done.
Qed.

(** The producer's marker window is the validator's.  When
    [validate_staged_capture_tokens] accepts a capture with canonical endpoint
    addresses, [staged_marker_window] on the same capture, stages and policy
    finds the same two markers.  For UDP, DNS and QUIC it returns exactly the
    proof's observation window; for TCP it orders the times at which the first
    byte of each marker was captured, which are the starts of the two marker
    events rather than their ends. *)
Theorem staged_marker_window_agrees data kind protocol family e1 e2 e3 link_type name version token sm em expect declared retransmissions legs proof :
  canonical_endpoint e1 -> canonical_endpoint e2 -> canonical_endpoint e3 ->
  validate_staged_capture_tokens data kind protocol family (e1, e2, e3) link_type name version token sm em expect declared retransmissions legs = Ok proof ->
  staged_marker_window data kind protocol family (e1, e2, e3) sm em retransmissions legs
  = if seq_ protocol "tcp" then ordered_markers [start_event_started_at proof] [end_event_started_at proof]
    else Ok (started_at proof, ended_at proof).
Proof.
  intros C1 C2 C3 (identical & capture & families & normalized & transports & sd & Hst & Hid & _ & Hp & _ & Hf & Hn & Hd & Hsd & Hpr)%validate_staged_inv.
  apply (normalize_endpoints_canonical e1 e2 e3) in Hn; [subst normalized|done..]. apply decode_each_records in Hd.
  destruct families as [[f1 f2] f3]. apply staged_proof_inv in Hpr as (Hs & He & (Hst' & Hen' & Hlt & _) & _).
  assert (Hord : ordered_markers [started_at proof] [ended_at proof] = Ok (started_at proof, ended_at proof)).
  { unfold ordered_markers, fle. destruct (Qle_bool _ _) eqn:Hle; [|done]. apply Qle_bool_iff in Hle. by apply Qle_not_lt in Hle. }
  destruct Hsd as [(ls & -> & -> & -> & Hsd)|[Hcase Hsd]].
  - apply staged_exchanges_inv in Hsd as (indexed & x1 & x2 & x3 & Hidx & Hx & Hnorm & ->).
    cbn [sd_start_windows sd_end_windows] in Hs, He. unfold dx_window in Hs, He. injection Hs as Hs1 Hs2. injection He as He1 He2.
    change (seq_ "dns" "tcp") with false. cbn iota. rewrite <-Hord, Hst', Hen', <-Hs2, <-He2.
    destruct retransmissions; [discriminate Hid|].
    by apply (staged_marker_exchanges data kind family _ sm em token ls indexed capture (f1, f2, f3) transports x1 x2 x3).
  - apply staged_flows_inv in Hsd as (sws & ews & Hsw & Hew & _ & _ & Hs' & He' & _).
    rewrite Hs in Hs'. rewrite He in He'. subst sws ews.
    rewrite (staged_marker_flows data kind protocol family (e1, e2, e3) sm em retransmissions legs identical capture f1 f2 f3
      transports _ _ Hst Hid Hf Hp Hd Hcase Hsw Hew).
    unfold event_time. destruct (seq_ protocol "tcp"); cbn [fst snd]; [done|]. by rewrite <-Hst', <-Hen'.
Qed.

(** ** Derived DNS endpoints *)

Lemma leg_family_unique indexed item1 item2 :
  NoDup indexed.*1 -> Forall leg_ok indexed -> item1 ∈ indexed -> item2 ∈ indexed ->
  leg_client_address (snd item1) = leg_client_address (snd item2) -> item1 = item2.
Proof.
  intros Hnd Hok H1 H2 He. rewrite Forall_forall in Hok.
  destruct (Hok _ H1) as (c1 & r1 & Hc1 & _ & _ & _ & _ & Hf1).
  destruct (Hok _ H2) as (c2 & r2 & Hc2 & _ & _ & _ & _ & Hf2).
  rewrite He, Hc2 in Hc1. injection Hc1 as ->. destruct item1 as [k1 v1], item2 as [k2 v2]. cbn in Hf1, Hf2. subst.
  f_equal. apply dict_get_nodup in H1, H2; [|done|done]. congruence.
Qed.

Lemma filter_single {A} (f : A -> bool) l x :
  NoDup l -> x ∈ l -> f x = true -> (forall y, y ∈ l -> f y = true -> y = x) -> List.filter f l = [x].
Proof.
  induction l as [|y l IH]; intros Hnd Hx Hfx Huniq; [by apply elem_of_nil in Hx|].
  apply NoDup_cons in Hnd as [Hy Hnd]. cbn [List.filter].
  destruct (f y) eqn:Hfy.
  - assert (y = x) as -> by (apply Huniq; [by left|done]). f_equal.
    destruct (List.filter f l) as [|z l'] eqn:Hf; [done|]. exfalso. apply Hy.
    assert (Hz : In z (List.filter f l)) by (rewrite Hf; by left). apply filter_In in Hz as [Hz Hfz].
    rewrite <-(Huniq z); [by apply list_elem_of_In|right; by apply list_elem_of_In|done].
  - apply elem_of_cons in Hx as [->|Hx]; [congruence|]. apply IH; [done|done|done|].
    intros z Hz. apply Huniq. by right.
Qed.

(** A query on a leg gives an endpoint that the leg admits. *)
Lemma query_stage_family legs indexed family stage packet message :
  _resolver_legs_by_family legs = Ok indexed -> on_leg indexed family (packet, message) -> dm_is_response message = false ->
  1 <= tp_source_port packet <= 65535 ->
  _stage_family indexed (_query_endpoint stage packet) = Ok (tp_family packet).
Proof.
  intros Hidx Hleg Hq Hport. apply resolver_legs_inv in Hidx as (Hnd & Hok & _).
  destruct Hleg as (_ & _ & leg & Hget & Hdir). rewrite Hq in Hdir. destruct Hdir as (Hs & Hd & Hp).
  apply dict_get_in in Hget. unfold _stage_family.
  rewrite (filter_single _ indexed (tp_family packet, leg)).
  - done.
  - by eapply NoDup_fmap_1.
  - done.
  - unfold endpoint_on_leg. cbn [snd _query_endpoint ep_local_address ep_remote_address ep_remote_port ep_local_port].
    unfold seq_. rewrite Hs, Hd, Hp, !String.eqb_refl. cbn. lia.
  - intros [k l] Hin Hy. apply (leg_family_unique indexed); try done. cbn [snd].
    unfold endpoint_on_leg in Hy. rewrite !andb_true_iff, !seq_spec in Hy. cbn in Hy.
    destruct Hy as (((Hy & _) & _) & _). congruence.
Qed.

(** ... and it is its own normal form. *)
Lemma query_normalized legs indexed family stage packet message :
  _resolver_legs_by_family legs = Ok indexed -> on_leg indexed family (packet, message) -> dm_is_response message = false ->
  1 <= tp_source_port packet <= 65535 ->
  normalize_endpoint (_query_endpoint stage packet) (tp_family packet) = Ok (_query_endpoint stage packet).
Proof.
  intros Hidx Hleg Hq Hport. apply resolver_legs_inv in Hidx as (Hnd & Hok & _).
  destruct Hleg as (_ & _ & leg & Hget & Hdir). rewrite Hq in Hdir. destruct Hdir as (Hs & Hd & Hp).
  apply dict_get_in in Hget. rewrite Forall_forall in Hok.
  destruct (Hok _ Hget) as (client & resolver & Hc & Hcs & Hr & Hrs & Hv & Hf). cbn [fst snd] in *.
  unfold normalize_endpoint, _query_endpoint. cbn [ep_stage ep_local_address ep_remote_address ep_remote_port ep_local_port].
  rewrite Hs, Hd, Hc, Hr, Hp, <-Hv.
  assert (Hver : ip_version client = expected_version (tp_family packet))
    by (rewrite Hf; unfold expected_version; by destruct client).
  rewrite Hver, Z.eqb_refl. cbn [negb orb].
  replace ((1 <=? tp_source_port packet) && _) with true by lia. cbn [negb orb Z.leb Z.compare Pos.compare Pos.compare_cont andb].
  by rewrite Hcs, Hrs.
Qed.

Lemma exchange_query_on_leg indexed family name messages x :
  Forall (on_leg indexed family) messages -> exchange_spec name messages x ->
  exists message, on_leg indexed family (dx_query x, message) /\ dm_is_response message = false.
Proof.
  intros Hleg ((qm & am & (Hin & _ & Hresp) & _) & _). rewrite Forall_forall in Hleg.
  exists qm. split; [by apply Hleg|done].
Qed.

(** The endpoint of an exchange's query, for a client port that is not 0. *)
Lemma exchange_endpoint_ok legs indexed family name messages x stage transports :
  _resolver_legs_by_family legs = Ok indexed -> map fst messages = transports ->
  Forall (on_leg indexed family) messages -> exchange_spec name messages x ->
  (1 <= tp_source_port (dx_query x) <= 65535 ->
   _stage_family indexed (_query_endpoint stage (dx_query x)) = Ok (tp_family (dx_query x)) /\
   normalize_endpoint (_query_endpoint stage (dx_query x)) (tp_family (dx_query x)) = Ok (_query_endpoint stage (dx_query x))) /\
  dx_query x ∈ transports.
Proof.
  intros Hidx Hfst Hleg Hx. split.
  - intros Hport. destruct (exchange_query_on_leg _ _ _ _ _ Hleg Hx) as (m & Hm & Hq).
    split; [by eapply query_stage_family|by eapply query_normalized].
  - destruct Hx as ((qm & am & (Hin & _) & _) & _). rewrite <-Hfst.
    apply list_elem_of_In. apply list_elem_of_In in Hin. apply (in_map fst) in Hin. exact Hin.
Qed.

Lemma decoded_ports records transports p :
  Forall2 decoded_from records transports -> p ∈ transports -> 0 <= tp_source_port p < 65536.
Proof.
  intros Hd Hp. apply list_elem_of_lookup_1 in Hp as [k Hk].
  destruct (Forall2_lookup_r _ _ _ _ _ Hd Hk) as (r & _ & Hdec). apply Hdec.
Qed.

(** The validator's run on the endpoints reduces to the interface check and the
    checks that follow the accounting. *)
Definition endpoints_accepted (data : bytes) (kind family : string) (legs : list DnsResolverLeg) (sm token em : bytes)
    (endpoints : triple StagedCaptureEndpoint) (link_type : Z) (name : string) (version : option Z) (declared : Z) : Prop :=
  exists capture families sd, parse_packet_capture data kind = Ok capture /\
    normalize_endpoints endpoints families = Ok endpoints /\
    validate_staged_capture_tokens data kind "dns" family endpoints link_type name version token sm em true declared
      IDENTICAL_RETRANSMISSIONS (Some legs)
    = (_ ← check_interfaces capture link_type name;
       staged_proof capture sd "dns" family families version (sm, token, em) true declared).

(** Derived DNS endpoints pass the validator's endpoint checks.  Whenever
    [dns_resolver_leg_stage_endpoints] derives endpoints from a capture under
    identical retransmissions and no client port is 0, the validator run on the
    same capture, legs and tokens with those endpoints finds each stage's leg,
    keeps the endpoints as they are and accounts for every record; it can then
    only fail on the interface provenance, the observation window or the
    declared QUIC version. *)
Theorem derived_endpoints_are_accepted data kind family legs sm token em endpoints link_type name version declared :
  dns_resolver_leg_stage_endpoints data kind family legs (sm, token, em) IDENTICAL_RETRANSMISSIONS = Ok endpoints ->
  (forall e, e ∈ stages endpoints -> ep_local_port e <> 0) ->
  endpoints_accepted data kind family legs sm token em endpoints link_type name version declared.
Proof.
  unfold dns_resolver_leg_stage_endpoints. intros H Hports. inv_bind H.
  change (_identical_retransmissions IDENTICAL_RETRANSMISSIONS "dns" (Some legs)) with (Ok true : res bool) in E. injection E as <-.
  inv_bind H. rename v into indexed. inv_bind H. rename v into capture. inv_bind H. rename v into transports.
  inv_bind H. destruct v as [[x1 x2] x3]. injection H as <-.
  pose proof (dns_exchanges_specs _ _ _ _ _ _ _ _ _ E2) as (messages & n1 & n2 & n3 & _ & Hfst & Hleg & S1 & S2 & S3).
  apply decode_records_each in E1. pose proof (decode_records_inv _ _ E1) as Hdec.
  destruct (exchange_endpoint_ok legs indexed family n1 messages x1 "start" transports E Hfst Hleg S1) as (K1 & P1).
  destruct (exchange_endpoint_ok legs indexed family n2 messages x2 "target" transports E Hfst Hleg S2) as (K2 & P2).
  destruct (exchange_endpoint_ok legs indexed family n3 messages x3 "end" transports E Hfst Hleg S3) as (K3 & P3).
  pose proof (decoded_ports _ _ _ Hdec P1). pose proof (decoded_ports _ _ _ Hdec P2). pose proof (decoded_ports _ _ _ Hdec P3).
  assert (Hne : tp_source_port (dx_query x1) <> 0 /\ tp_source_port (dx_query x2) <> 0 /\ tp_source_port (dx_query x3) <> 0).
  { split_and!; [apply (Hports (_query_endpoint "start" (dx_query x1)))|apply (Hports (_query_endpoint "target" (dx_query x2)))|
      apply (Hports (_query_endpoint "end" (dx_query x3)))]; cbn; rewrite !elem_of_cons; tauto. }
  destruct K1 as [F1 N1]; [lia|]. destruct K2 as [F2 N2]; [lia|]. destruct K3 as [F3 N3]; [lia|].
  set (families := (tp_family (dx_query x1), tp_family (dx_query x2), tp_family (dx_query x3))).
  assert (Hnorm : normalize_endpoints (_query_stage_endpoints (dx_query x1, dx_query x2, dx_query x3)) families
                  = Ok (_query_stage_endpoints (dx_query x1, dx_query x2, dx_query x3))).
  { unfold normalize_endpoints, families. cbn [_query_stage_endpoints]. by rewrite N1, N2, N3. }
  exists capture, families. eexists. split; [done|]. split; [done|].
  unfold validate_staged_capture_tokens. rewrite bool_decide_true by done. cbn [negb].
  change (_identical_retransmissions IDENTICAL_RETRANSMISSIONS "dns" (Some legs)) with (Ok true : res bool).
  cbn [mbind result_bind andb negb]. rewrite E0. cbn [mbind result_bind].
  destruct (check_interfaces capture link_type name) as [[]|]; cbn [mbind result_bind]; [|done].
  assert (Hfam : _stage_transport_families (_query_stage_endpoints (dx_query x1, dx_query x2, dx_query x3)) "dns" family (Some legs)
                 = Ok families).
  { unfold _stage_transport_families. change (negb (seq_ "dns" "dns")) with false. cbn iota. rewrite E.
    cbn [mbind result_bind _query_stage_endpoints]. by rewrite F1, F2, F3. }
  cbn [_query_stage_endpoints] in Hfam, Hnorm. rewrite Hfam. cbn [mbind result_bind]. rewrite Hnorm. cbn [mbind result_bind]. rewrite E1. cbn [mbind result_bind].
  change (seq_ "dns" "dns") with true. unfold staged_exchanges. rewrite E. cbn [mbind result_bind]. rewrite E2.
  cbn [mbind result_bind]. rewrite bool_decide_true by done. cbn [negb]. reflexivity.
Qed.

(** ** Whole captures *)

Definition sample_item (ms : Z) (fl : Flow) (payload : bytes) : PcapItem :=
  let frame := link_frame DLT_RAW (fl_v6 fl) (flow_packet fl payload) in
  {| it_seconds := ms / 1000; it_subseconds := 1000 * (ms mod 1000); it_original := len frame; it_payload := frame |}.

Definition sample_file (items : list PcapItem) : bytes :=
  pcap_encode {| pf_endian := LittleEndian; pf_nanosecond := false; pf_snaplen := 65535; pf_network := DLT_RAW; pf_items := items |}.

Definition v4_flow (source destination : string) (sport dport : Z) (proto : transport_proto) : Flow := {|
  fl_v6 := false; fl_source := hexb source; fl_destination := hexb destination;
  fl_source_port := sport; fl_destination_port := dport; fl_proto := proto |}.

(** A TCP case of three stages with one repeated segment. *)
Definition tcp_case : bytes := sample_file
  [sample_item 1000 (v4_flow "c6120001" "c6120002" 5001 443 (TCP 100)) (bstr "start0");
   sample_item 1020 (v4_flow "c6120001" "c6120002" 5001 443 (TCP 100)) (bstr "start0");
   sample_item 2000 (v4_flow "c6120001" "c6120002" 5002 443 (TCP 7)) (bstr "target");
   sample_item 3500 (v4_flow "c6120001" "c6120002" 5003 443 (TCP 9)) (bstr "ending")].

Definition tcp_endpoint (stage : string) (port : Z) : StagedCaptureEndpoint := {|
  ep_stage := stage; ep_local_address := "198.18.0.1"; ep_local_port := port;
  ep_remote_address := "198.18.0.2"; ep_remote_port := 443 |}.

Definition tcp_endpoints : triple StagedCaptureEndpoint :=
  (tcp_endpoint "start" 5001, tcp_endpoint "target" 5002, tcp_endpoint "end" 5003).

Definition sample_leg_list : list DnsResolverLeg :=
  [{| leg_client_address := "198.18.0.1"; leg_resolver_address := "198.18.0.2" |}].

(** A DNS case of three stages over one leg, with one repeated query. *)
Definition dns_case : bytes := sample_file
  [sample_item 1000 (v4_flow "c6120001" "c6120002" 5001 53 UDP) (dns_query 1 true (token_labels "aa") "ipv4");
   sample_item 1005 (v4_flow "c6120001" "c6120002" 5001 53 UDP) (dns_query 1 true (token_labels "aa") "ipv4");
   sample_item 1010 (v4_flow "c6120002" "c6120001" 53 5001 UDP) (dns_answer 1 true (token_labels "aa") "ipv4" true);
   sample_item 2000 (v4_flow "c6120001" "c6120002" 5002 53 UDP) (dns_query 2 true (token_labels "bb") "ipv4");
   sample_item 2010 (v4_flow "c6120002" "c6120001" 53 5002 UDP) (dns_answer 2 true (token_labels "bb") "ipv4" true);
   sample_item 3000 (v4_flow "c6120001" "c6120002" 5003 53 UDP) (dns_query 3 true (token_labels "cc") "ipv4");
   sample_item 3510 (v4_flow "c6120002" "c6120001" 53 5003 UDP) (dns_answer 3 true (token_labels "cc") "ipv4" true)].

Definition dns_endpoint (stage : string) (port : Z) : StagedCaptureEndpoint := {|
  ep_stage := stage; ep_local_address := "198.18.0.1"; ep_local_port := port;
  ep_remote_address := "198.18.0.2"; ep_remote_port := 53 |}.
Definition dns_endpoints : triple StagedCaptureEndpoint :=
  (dns_endpoint "start" 5001, dns_endpoint "target" 5002, dns_endpoint "end" 5003).

Definition proof_of (r : res CaptureProof) : CaptureProof :=
  match r with
  | Ok p => p
  | Err _ => {| observation_ms := 0; started_at := 0; ended_at := 0; start_event_started_at := 0; start_event_ended_at := 0;
      target_started_at := None; target_ended_at := None; end_event_started_at := 0; end_event_ended_at := 0;
      total_record_count := 0; packet_count := 0; token_occurrences := 0; proof_link_type := 0; proof_interface_name := None;
      quic_version := None; dns_response_count := None; dns_answer_type := None; dns_answer_address := None; dns_ttl := None;
      dns_responses_sha256 := None; stage_record_spans := None |}
  end.

Definition tcp_result : res CaptureProof :=
  validate_staged_capture_tokens tcp_case "packet-pcap" "tcp" "ipv4" tcp_endpoints DLT_RAW "utun4" None
    (bstr "target") (bstr "start0") (bstr "ending") true 2500 IDENTICAL_RETRANSMISSIONS None.
Definition dns_result : res CaptureProof :=
  validate_staged_capture_tokens dns_case "packet-pcap" "dns" "ipv4" dns_endpoints DLT_RAW "utun4" None
    (bstr "bb") (bstr "aa") (bstr "cc") true 2500 IDENTICAL_RETRANSMISSIONS (Some sample_leg_list).

Lemma tcp_result_ok : tcp_result = Ok (proof_of tcp_result).
Proof. vm_compute. reflexivity. Qed.
Lemma dns_result_ok : dns_result = Ok (proof_of dns_result).
Proof. vm_compute. reflexivity. Qed.

(** A UDP case on one flow. *)
Definition udp_case : bytes := sample_file
  [sample_item 1000 (v4_flow "c6120001" "c6120002" 5001 9000 UDP) (bstr "xx-start0-xx");
   sample_item 2000 (v4_flow "c6120002" "c6120001" 9000 5001 UDP) (bstr "reply");
   sample_item 3500 (v4_flow "c6120001" "c6120002" 5001 9000 UDP) (bstr "ending")].
Definition udp_result : res CaptureProof :=
  validate_capture_tokens udp_case "packet-pcap" "udp" "ipv4" "198.18.0.1" 5001 "198.18.0.2" 9000 DLT_RAW "utun4" None
    (bstr "target") (bstr "start0") (bstr "ending") false 2500.
Lemma udp_result_ok : udp_result = Ok (proof_of udp_result).
Proof. vm_compute. reflexivity. Qed.

Lemma validate_capture_tokens_sound_witness : exists n, packet_count (proof_of udp_result) = n /\ n = 3.
Proof.
  destruct (validate_capture_tokens_sound udp_case "packet-pcap" "udp" "ipv4" "198.18.0.1" 5001 "198.18.0.2" 9000 DLT_RAW "utun4" None
    (bstr "target") (bstr "start0") (bstr "ending") false 2500 (proof_of udp_result) udp_result_ok)
    as (capture & transports & tws & Hc & Hd & _ & _ & _ & _ & _ & _ & _ & _ & Hn).
  eexists. split; [exact Hn|]. vm_compute in Hc. injection Hc as <-. vm_compute in Hd. injection Hd as <-. vm_compute. reflexivity.
Defined.

Lemma validate_staged_sound_witness : window_ok (proof_of dns_result) 2500 /\ occurrences_ok (proof_of dns_result) true.
Proof.
  destruct (validate_staged_sound dns_case "packet-pcap" "dns" "ipv4" dns_endpoints DLT_RAW "utun4" None
    (bstr "bb") (bstr "aa") (bstr "cc") true 2500 IDENTICAL_RETRANSMISSIONS (Some sample_leg_list) (proof_of dns_result) dns_result_ok)
    as (identical & capture & families & normalized & transports & sd & _ & _ & _ & _ & (_ & _ & Hw & Ho & _) & _).
  exact (conj Hw Ho).
Defined.

Lemma validate_staged_tcp_accounts_witness :
  exists sp1 sp2 sp3, stage_record_spans (proof_of tcp_result) = Some (sp1, sp2, sp3).
Proof.
  destruct (validate_staged_tcp_accounts tcp_case "packet-pcap" "ipv4" tcp_endpoints DLT_RAW "utun4" None
    (bstr "target") (bstr "start0") (bstr "ending") true 2500 (proof_of tcp_result) tcp_result_ok)
    as (_ & _ & _ & sp1 & sp2 & sp3 & _ & _ & _ & _ & Hs & _).
  exists sp1, sp2, sp3. exact Hs.
Defined.


Lemma canonical_v4 stage port remote_port :
  canonical_endpoint {| ep_stage := stage; ep_local_address := "198.18.0.1"; ep_local_port := port;
                        ep_remote_address := "198.18.0.2"; ep_remote_port := remote_port |}.
Proof.
  split; [exists (IPv4Address [198; 18; 0; 1])|exists (IPv4Address [198; 18; 0; 2])];
    (split; [|vm_compute; reflexivity]); (split; [reflexivity|]); repeat constructor; vm_compute; try discriminate; reflexivity.
Qed.

Lemma staged_marker_window_agrees_witness :
  staged_marker_window dns_case "packet-pcap" "dns" "ipv4" dns_endpoints (bstr "aa") (bstr "cc")
    IDENTICAL_RETRANSMISSIONS (Some sample_leg_list)
  = Ok (started_at (proof_of dns_result), ended_at (proof_of dns_result)).
Proof.
  exact (staged_marker_window_agrees dns_case "packet-pcap" "dns" "ipv4" (dns_endpoint "start" 5001) (dns_endpoint "target" 5002)
    (dns_endpoint "end" 5003) DLT_RAW "utun4" None (bstr "bb") (bstr "aa") (bstr "cc") true 2500 IDENTICAL_RETRANSMISSIONS
    (Some sample_leg_list) (proof_of dns_result) (canonical_v4 _ _ _) (canonical_v4 _ _ _) (canonical_v4 _ _ _) dns_result_ok).
Defined.

Lemma derived_endpoints_are_accepted_witness :
  exists capture families sd, parse_packet_capture dns_case "packet-pcap" = Ok capture /\
    normalize_endpoints dns_endpoints families = Ok dns_endpoints /\
    dns_result = (_ ← check_interfaces capture DLT_RAW "utun4";
                  staged_proof capture sd "dns" "ipv4" families None (bstr "aa", bstr "bb", bstr "cc") true 2500).
Proof.
  apply (derived_endpoints_are_accepted dns_case "packet-pcap" "ipv4" sample_leg_list (bstr "aa") (bstr "bb") (bstr "cc")
    dns_endpoints DLT_RAW "utun4" None 2500).
  - vm_compute. reflexivity.
  - intros e He. unfold stages, dns_endpoints in He. rewrite !elem_of_cons, elem_of_nil in He. destruct He as [->|[->|[->|[]]]]; discriminate.
Defined.

(** With non-empty ASCII tokens, [validate_capture_tokens] raises only
    [PacketCaptureError], on every input. *)
Theorem validate_capture_tokens_errors data kind protocol family la lp ra rp link_type name version token sm em expect declared :
  token_ok token -> token_ok sm -> token_ok em ->
  safe (validate_capture_tokens data kind protocol family la lp ra rp link_type name version token sm em expect declared).
Proof. apply validate_capture_tokens_safe. Qed.

Lemma sample_tokens_ok : token_ok (bstr "aa") /\ token_ok (bstr "bb") /\ token_ok (bstr "cc").
Proof. unfold token_ok. vm_compute. repeat split. Qed.

Lemma validate_capture_tokens_errors_witness :
  safe (validate_capture_tokens [] "packet-pcap" "dns" "ipv4" "not an address" 0 "" 0 0 "" None (bstr "aa") (bstr "bb") (bstr "cc") true 0).
Proof. apply validate_capture_tokens_errors; apply sample_tokens_ok. Defined.

(** With non-empty ASCII tokens, [validate_staged_capture_tokens] raises a
    [TypeError] only for a caller's misuse of the retransmission policy
    (identical retransmissions outside TCP and DNS over resolver legs, or for an
    unexpected token); in every other case it returns or raises
    [PacketCaptureError]. *)
Theorem validate_staged_errors data kind protocol family endpoints link_type name version token sm em expect declared retransmissions legs :
  token_ok sm -> token_ok token -> token_ok em ->
  let result := validate_staged_capture_tokens data kind protocol family endpoints link_type name version token sm em
                  expect declared retransmissions legs in
  safe result \/
  (exists msg, result = Err (TypeError msg) /\ retransmissions = IDENTICAL_RETRANSMISSIONS /\
     (expect = false \/ (protocol <> "tcp"%string /\ (protocol <> "dns"%string \/ legs = None)))).
Proof.
  intros Hs Ht He result. destruct (_identical_retransmissions retransmissions protocol legs) as [identical|e] eqn:Hid.
  - destruct (identical && negb expect) eqn:Hb.
    + apply andb_true_iff in Hb as [-> Hb]. apply negb_true_iff in Hb. subst expect.
      unfold result, validate_staged_capture_tokens. rewrite Hid. cbn [mbind result_bind andb negb].
      destruct (negb _); [by left|]. right. eexists. split; [done|].
      destruct retransmissions; [discriminate Hid|]. by split; [|left].
    + left. apply (validate_staged_safe _ _ _ _ _ _ _ _ _ _ _ _ _ _ _ identical); [done|done|].
      intros ->. by destruct expect.
  - unfold result, validate_staged_capture_tokens. rewrite Hid. cbn [mbind result_bind].
    destruct (negb _); [by left|]. right. unfold _identical_retransmissions in Hid. destruct retransmissions; [done|].
    destruct (seq_ protocol "tcp" || _) eqn:Hp; [done|]. injection Hid as <-. eexists. split; [done|]. split; [done|]. right.
    apply orb_false_iff in Hp as [Hp1 Hp2]. split; [intros ->; done|].
    apply andb_false_iff in Hp2 as [Hp2|Hp2]; [left; intros ->; done|right; by destruct legs].
Qed.

Lemma validate_staged_errors_witness :
  safe dns_result \/ exists msg, dns_result = Err (TypeError msg).
Proof.
  destruct (validate_staged_errors dns_case "packet-pcap" "dns" "ipv4" dns_endpoints DLT_RAW "utun4" None
    (bstr "bb") (bstr "aa") (bstr "cc") true 2500 IDENTICAL_RETRANSMISSIONS (Some sample_leg_list)
    (proj1 sample_tokens_ok) (proj1 (proj2 sample_tokens_ok)) (proj2 (proj2 sample_tokens_ok))) as [H|(msg & H & _)];
    [left; exact H|right; exists msg; exact H].
Defined.
