(* ===== verification/Text.v ===== *)
(** * Python text

    [str] of Python as the list of its code points, with the operations the
    journal and the archive use: UTF-8 ([str.encode] and [bytes.decode], both
    strict), decimal formatting and reading, the code-point order, and the few
    regular expressions of the sources as boolean functions. *)

From S2P Require Import Prelude Sha256.

Abbreviation str := (list Z).

(** An ASCII literal of the source. *)
Fixpoint u (s : string) : str :=
  match s with
  | EmptyString => []
  | String c s => Z.of_N (N_of_ascii c) :: u s
  end.

Definition str_eqb (a b : str) : bool := bool_decide (a = b).

(** ** UTF-8 *)

Definition is_surrogate (c : Z) : bool := (55296 <=? c) && (c <=? 57343).

(** One character of [str.encode("utf-8")]; [None] is [UnicodeEncodeError]. *)
Definition utf8_char (c : Z) : option bytes :=
  if (c <? 0) || is_surrogate c || (1114111 <? c) then None
  else if c <? 128 then Some [zb c]
  else if c <? 2048 then Some [zb (192 + c / 64); zb (128 + c mod 64)]
  else if c <? 65536 then Some [zb (224 + c / 4096); zb (128 + c / 64 mod 64); zb (128 + c mod 64)]
  else Some [zb (240 + c / 262144); zb (128 + c / 4096 mod 64); zb (128 + c / 64 mod 64); zb (128 + c mod 64)].

Fixpoint utf8_encode (s : str) : option bytes :=
  match s with
  | [] => Some []
  | c :: s => b ← utf8_char c; r ← utf8_encode s; Some (b ++ r)
  end.

Definition is_cont (b : Z) : bool := (128 <=? b) && (b <? 192).

(** [bytes.decode("utf-8")]: overlong forms, surrogates and code points past
    U+10FFFF are [UnicodeDecodeError] ([None]). *)
Fixpoint utf8_decode (l : bytes) : option str :=
  match l with
  | [] => Some []
  | x0 :: l1 =>
    let b0 := bz x0 in
    if b0 <? 128 then r ← utf8_decode l1; Some (b0 :: r)
    else match l1 with
    | [] => None
    | x1 :: l2 =>
      let b1 := bz x1 in
      if negb (is_cont b1) then None
      else if (194 <=? b0) && (b0 <? 224) then r ← utf8_decode l2; Some ((b0 - 192) * 64 + (b1 - 128) :: r)
      else match l2 with
      | [] => None
      | x2 :: l3 =>
        let b2 := bz x2 in
        if negb (is_cont b2) then None
        else if (224 <=? b0) && (b0 <? 240) then
          let c := (b0 - 224) * 4096 + (b1 - 128) * 64 + (b2 - 128) in
          if (c <? 2048) || is_surrogate c then None else r ← utf8_decode l3; Some (c :: r)
        else match l3 with
        | [] => None
        | x3 :: l4 =>
          let b3 := bz x3 in
          if negb (is_cont b3) then None
          else
            let c := (b0 - 240) * 262144 + (b1 - 128) * 4096 + (b2 - 128) * 64 + (b3 - 128) in
            if (c <? 65536) || (1114111 <? c) || (b0 <? 240) then None else r ← utf8_decode l4; Some (c :: r)
        end
      end
    end
  end.

Lemma cont_range n : 0 <= n < 64 -> is_cont (128 + n) = true.
Proof. intros. unfold is_cont. apply andb_true_intro. split; [apply Z.leb_le | apply Z.ltb_lt]; lia. Qed.

Lemma bz_zb_small z : 0 <= z < 256 -> bz (zb z) = z.
Proof. intros. rewrite bz_zb. apply Z.mod_small. lia. Qed.

(** Decides the comparisons of a goal by [lia]. *)
Ltac cmp :=
  repeat match goal with
  | |- context [?a <? ?b] =>
      first [ rewrite (proj2 (Z.ltb_lt a b)) by lia | rewrite (proj2 (Z.ltb_ge a b)) by lia ]
  | |- context [?a <=? ?b] =>
      first [ rewrite (proj2 (Z.leb_le a b)) by lia | rewrite (proj2 (Z.leb_gt a b)) by lia ]
  | |- context [?a =? ?b] =>
      first [ rewrite (proj2 (Z.eqb_eq a b)) by lia | rewrite (proj2 (Z.eqb_neq a b)) by lia ]
  end.

Lemma utf8_decode_char c b l :
  utf8_char c = Some b -> utf8_decode (b ++ l) = (r ← utf8_decode l; Some (c :: r)).
Proof.
  unfold utf8_char. intros H.
  destruct ((c <? 0) || is_surrogate c || (1114111 <? c)) eqn:G; [discriminate|].
  apply orb_false_elim in G as [G G3]. apply orb_false_elim in G as [G1 G2].
  apply Z.ltb_ge in G1, G3.
  assert (M64 : forall n, 0 <= n mod 64 < 64) by (intros n; apply Z.mod_pos_bound; lia).
  pose proof (Z.div_mod c 64 ltac:(lia)). pose proof (Z.div_mod (c / 64) 64 ltac:(lia)).
  pose proof (Z.div_mod (c / 4096) 64 ltac:(lia)).
  assert (E1 : c / 64 / 64 = c / 4096) by (rewrite Z.div_div by lia; done).
  assert (E2 : c / 4096 / 64 = c / 262144) by (rewrite Z.div_div by lia; done).
  pose proof (M64 c). pose proof (M64 (c / 64)). pose proof (M64 (c / 4096)).
  assert (N : 0 <= c / 262144 /\ 0 <= c / 4096 /\ 0 <= c / 64) by (repeat split; apply Z.div_pos; lia).
  destruct (c <? 128) eqn:L1; [|destruct (c <? 2048) eqn:L2; [|destruct (c <? 65536) eqn:L3]];
    injection H as <-; cbn [app utf8_decode];
    rewrite ?Z.ltb_ge, ?Z.ltb_lt in *; rewrite !bz_zb_small by lia; rewrite ?cont_range by done; cbn [negb].
  - cmp. done.
  - cmp. cbn [andb]. replace _ with c by lia. done.
  - cmp. cbn [andb].
    replace ((224 + c / 4096 - 224) * 4096 + _ + _) with c by lia.
    rewrite G2. cmp. done.
  - cmp. cbn [andb].
    replace ((240 + c / 262144 - 240) * 262144 + _ + _ + _) with c by lia.
    cmp. done.
Qed.

(** What is encoded is decoded. *)
Lemma utf8_decode_encode s b : utf8_encode s = Some b -> utf8_decode b = Some s.
Proof.
  revert b; induction s as [|c s IH]; simpl; intros b H; [by injection H as <-|].
  apply bind_Some in H as (bc & Hc & H). apply bind_Some in H as (r & Hr & [= <-]).
  rewrite (utf8_decode_char c bc r Hc). by rewrite (IH r Hr).
Qed.

Lemma utf8_encode_app s1 s2 :
  utf8_encode (s1 ++ s2) = (b1 ← utf8_encode s1; b2 ← utf8_encode s2; Some (b1 ++ b2)).
Proof.
  induction s1 as [|c s1 IH]; simpl; [by destruct (utf8_encode s2)|].
  destruct (utf8_char c); simpl; [|done]. rewrite IH.
  destruct (utf8_encode s1); simpl; [|done]. destruct (utf8_encode s2); simpl; [|done].
  by rewrite app_assoc.
Qed.

(** Text without surrogates, which is what [str.encode] accepts. *)
Definition scalar (c : Z) : bool := (0 <=? c) && negb (is_surrogate c) && (c <=? 1114111).
Definition encodable (s : str) : bool := forallb scalar s.

Lemma utf8_char_scalar c : is_Some (utf8_char c) <-> scalar c = true.
Proof.
  unfold utf8_char, scalar. rewrite !Z.leb_antisym.
  destruct (c <? 0), (is_surrogate c), (1114111 <? c); simpl;
    try (split; [intros [? E]; discriminate E | intros E; discriminate E]);
    destruct (c <? 128), (c <? 2048), (c <? 65536); split; intros; by eauto using mk_is_Some.
Qed.

Lemma utf8_encode_encodable s : is_Some (utf8_encode s) <-> encodable s = true.
Proof.
  induction s as [|c s IH]; simpl; [split; eauto|].
  rewrite andb_true_iff, <-utf8_char_scalar, <-IH.
  destruct (utf8_char c), (utf8_encode s); simpl; unfold is_Some; naive_solver.
Qed.

Lemma encodable_app s1 s2 : encodable (s1 ++ s2) = encodable s1 && encodable s2.
Proof. apply forallb_app. Qed.

(** ASCII text encodes to one byte per character. *)
Lemma utf8_encode_ascii s :
  forallb (fun c => (0 <=? c) && (c <? 128)) s = true -> utf8_encode s = Some (map zb s).
Proof.
  induction s as [|c s IH]; simpl; [done|]. rewrite andb_true_iff. intros [Hc Hs].
  rewrite (IH Hs). apply andb_prop in Hc as [H1 H2]. apply Z.leb_le in H1. apply Z.ltb_lt in H2.
  unfold utf8_char, is_surrogate. cmp. done.
Qed.

(** ** Decimal numbers *)

Definition digit_char (d : Z) : Z := 48 + d.
Definition is_digit (c : Z) : bool := (48 <=? c) && (c <=? 57).
Definition digit_value (c : Z) : Z := c - 48.

(** The digits of a non-negative number, most significant first; [fuel] is the
    number of digits at most. *)
Fixpoint digits_fuel (fuel : nat) (n : Z) (acc : str) : str :=
  match fuel with
  | O => acc
  | S fuel =>
      let acc := digit_char (n mod 10) :: acc in
      if n <? 10 then acc else digits_fuel fuel (n / 10) acc
  end.
Definition nat_str (n : Z) : str := digits_fuel (S (Z.to_nat (Z.log2 n))) n [].
(** [str(n)]. *)
Definition int_str (n : Z) : str := if n <? 0 then 45 :: nat_str (- n) else nat_str n.
(** [f"{n:0wd}"] for a non-negative number. *)
Definition zfill (w : nat) (s : str) : str := replicate (w - length s) 48 ++ s.
Definition pad_int (w : nat) (n : Z) : str := zfill w (nat_str n).

(** [int(s)] of a string of digits. *)
Definition dec_value (s : str) : Z := foldl (fun acc c => acc * 10 + digit_value c) 0 s.

Lemma dec_value_from a s :
  foldl (fun acc c => acc * 10 + digit_value c) a s = a * 10 ^ len s + dec_value s.
Proof.
  unfold dec_value. revert a. induction s as [|c s IH] using rev_ind; intros a.
  - rewrite len_nil. simpl. lia.
  - rewrite !foldl_app, len_app. cbn [foldl]. rewrite (IH a).
    change (len [c]) with 1. rewrite Z.pow_add_r by (pose proof (len_nonneg s); lia). lia.
Qed.

Lemma dec_value_app s1 s2 : dec_value (s1 ++ s2) = dec_value s1 * 10 ^ len s2 + dec_value s2.
Proof. unfold dec_value at 1. rewrite foldl_app. fold (dec_value s1). apply dec_value_from. Qed.

Lemma dec_value_cons c s : dec_value (c :: s) = digit_value c * 10 ^ len s + dec_value s.
Proof. change (c :: s) with ([c] ++ s). rewrite dec_value_app. f_equal. Qed.

Lemma dec_value_bound s : forallb is_digit s = true -> 0 <= dec_value s < 10 ^ len s.
Proof.
  induction s as [|c s IH]; [done|]. cbn [forallb]. rewrite andb_true_iff. intros [Hc Hs].
  specialize (IH Hs). rewrite dec_value_cons, len_cons, Z.pow_add_r by (pose proof (len_nonneg s); lia).
  unfold is_digit in Hc. apply andb_prop in Hc as [H1 H2]. apply Z.leb_le in H1, H2.
  unfold digit_value. nia.
Qed.

Lemma digits_fuel_spec fuel n acc :
  0 <= n < 10 ^ Z.of_nat fuel -> (1 <= fuel)%nat ->
  exists s, digits_fuel fuel n acc = s ++ acc /\ s <> [] /\ forallb is_digit s = true /\
    dec_value s = n /\ (length s <= fuel)%nat /\ (s = [48] \/ hd 0 s <> 48).
Proof.
  revert n acc; induction fuel as [|fuel IH]; intros n acc Hn Hf; [lia|].
  cbn [digits_fuel].
  pose proof (Z.mod_pos_bound n 10 ltac:(lia)) as Hm. pose proof (Z.div_mod n 10 ltac:(lia)) as Hd.
  assert (D : is_digit (digit_char (n mod 10)) = true).
  { unfold is_digit, digit_char. apply andb_true_intro; split; apply Z.leb_le; lia. }
  destruct (n <? 10) eqn:L.
  - apply Z.ltb_lt in L. exists [digit_char (n mod 10)]. cbn [forallb length app hd]. rewrite D.
    repeat split; try done; try lia.
    + unfold dec_value, digit_value, digit_char. cbn [foldl]. rewrite Z.mod_small by lia. lia.
    + unfold digit_char. rewrite Z.mod_small by lia.
      destruct (Z.eq_dec n 0) as [->|]; [by left | right; lia].
  - apply Z.ltb_ge in L. rewrite Nat2Z.inj_succ, Z.pow_succ_r in Hn by lia.
    assert (0 < n / 10) by (apply Z.div_str_pos; lia).
    assert (F : (1 <= fuel)%nat) by (destruct fuel; [simpl in Hn; lia | lia]).
    destruct (IH (n / 10) (digit_char (n mod 10) :: acc)) as (s & E & Hne & Hs & Hv & Hl & Hh); [lia|done|].
    exists (s ++ [digit_char (n mod 10)]). rewrite E, <-app_assoc. split; [done|].
    split; [by destruct s|]. rewrite forallb_app. cbn [forallb]. rewrite Hs, D. split; [done|].
    rewrite dec_value_app, Hv, length_app. cbn [length]. split; [|split; [lia|]].
    + change (len [digit_char (n mod 10)]) with 1. unfold dec_value, digit_value, digit_char. cbn [foldl]. lia.
    + right. destruct Hh as [-> | Hh]; [|by destruct s].
      change (dec_value [48]) with 0 in Hv. lia.
Qed.

Lemma nat_str_spec n :
  0 <= n ->
  nat_str n <> [] /\ forallb is_digit (nat_str n) = true /\ dec_value (nat_str n) = n /\
  (nat_str n = [48] \/ hd 0 (nat_str n) <> 48).
Proof.
  intros Hn. unfold nat_str.
  destruct (digits_fuel_spec (S (Z.to_nat (Z.log2 n))) n []) as (s & E & Hs); [|lia|].
  - split; [lia|]. pose proof (Z.log2_nonneg n). rewrite Nat2Z.inj_succ, Z2Nat.id by lia.
    destruct (Z.eq_dec n 0) as [->|]; [done|].
    pose proof (Z.log2_spec n ltac:(lia)) as [_ H2].
    eapply Z.lt_le_trans; [exact H2|]. apply Z.pow_le_mono_l. lia.
  - rewrite E, app_nil_r. naive_solver.
Qed.

(** A number below [10^w] has at most [w] digits. *)
Lemma nat_str_length n w : 0 <= n < 10 ^ Z.of_nat w -> (1 <= w)%nat -> (length (nat_str n) <= w)%nat.
Proof.
  intros Hn Hw. destruct (nat_str_spec n ltac:(lia)) as (Hne & Hd & Hv & Hh).
  destruct Hh as [-> | Hh]; [simpl; lia|].
  destruct (nat_str n) as [|c s] eqn:E; [done|]. cbn [hd] in Hh.
  cbn [forallb] in Hd. apply andb_prop in Hd as [Hc Hs].
  rewrite dec_value_cons in Hv. pose proof (dec_value_bound s Hs) as Hb.
  unfold is_digit in Hc. apply andb_prop in Hc as [H1 H2]. apply Z.leb_le in H1, H2.
  unfold digit_value in Hv.
  assert (10 ^ len s <= n) by nia.
  assert (Hlt : 10 ^ len s < 10 ^ Z.of_nat w) by lia.
  apply Z.pow_lt_mono_r_iff in Hlt; [|lia|lia]. unfold len in Hlt. simpl. lia.
Qed.

Lemma dec_value_zeros k s : dec_value (replicate k 48 ++ s) = dec_value s.
Proof. induction k as [|k IH]; [done|]. cbn [replicate app]. rewrite dec_value_cons, IH. unfold digit_value. lia. Qed.

Lemma pad_int_spec w n :
  0 <= n < 10 ^ Z.of_nat w -> (1 <= w)%nat ->
  length (pad_int w n) = w /\ forallb is_digit (pad_int w n) = true /\ dec_value (pad_int w n) = n.
Proof.
  intros Hn Hw. pose proof (nat_str_length n w Hn Hw) as Hl.
  destruct (nat_str_spec n ltac:(lia)) as (_ & Hd & Hv & _).
  unfold pad_int, zfill. rewrite length_app, length_replicate, forallb_app, Hd, dec_value_zeros, Hv.
  split; [lia|]. split; [|done]. rewrite andb_true_r. apply forallb_forall. intros x Hx.
  apply list_elem_of_In, elem_of_replicate in Hx as [-> _]. done.
Qed.

(** A string of digits is determined by its length and its value. *)
Lemma dec_value_inj s1 s2 :
  forallb is_digit s1 = true -> forallb is_digit s2 = true -> length s1 = length s2 ->
  dec_value s1 = dec_value s2 -> s1 = s2.
Proof.
  revert s2; induction s1 as [|c1 s1 IH]; intros [|c2 s2] H1 H2 Hl Hv; try done.
  cbn [forallb] in H1, H2. apply andb_prop in H1 as [C1 D1]. apply andb_prop in H2 as [C2 D2].
  injection Hl as Hl. rewrite !dec_value_cons in Hv. unfold len in Hv. rewrite Hl in Hv.
  pose proof (dec_value_bound s1 D1) as B1. pose proof (dec_value_bound s2 D2) as B2.
  unfold len in B1, B2. rewrite Hl in B1.
  assert (digit_value c1 = digit_value c2) as Hc by nia.
  f_equal; [unfold digit_value in Hc; lia|]. apply IH; auto. nia.
Qed.

Lemma pad_int_inj w n m :
  0 <= n < 10 ^ Z.of_nat w -> 0 <= m < 10 ^ Z.of_nat w -> (1 <= w)%nat ->
  pad_int w n = pad_int w m -> n = m.
Proof.
  intros Hn Hm Hw E. destruct (pad_int_spec w n Hn Hw) as (_ & _ & <-).
  destruct (pad_int_spec w m Hm Hw) as (_ & _ & <-). by rewrite E.
Qed.

(** ** Order and sorting *)

(** Python compares strings by code points. *)
Fixpoint str_leb (a b : str) : bool :=
  match a, b with
  | [], _ => true
  | _ :: _, [] => false
  | x :: a, y :: b => (x <? y) || ((x =? y) && str_leb a b)
  end.
Definition str_le (a b : str) : Prop := str_leb a b = true.

#[export] Instance str_le_dec a b : Decision (str_le a b).
Proof. unfold str_le. apply _. Defined.

#[export] Instance str_le_total : Total str_le.
Proof.
  intros a; unfold str_le. induction a as [|x a IH]; intros [|y b]; simpl; auto.
  destruct (Z.lt_trichotomy x y) as [L | [-> | L]].
  - left. apply Z.ltb_lt in L. by rewrite L.
  - rewrite Z.ltb_irrefl, Z.eqb_refl. simpl. apply IH.
  - right. apply Z.ltb_lt in L. by rewrite L.
Qed.

#[export] Instance str_le_trans : Transitive str_le.
Proof.
  intros a; unfold str_le. induction a as [|x a IH]; intros [|y b] [|z c]; simpl; try done.
  rewrite !orb_true_iff, !andb_true_iff, !Z.ltb_lt, !Z.eqb_eq. intros [H1|[-> H1]] [H2|[-> H2]]; try (left; lia).
  right. split; [done|]. by apply (IH b).
Qed.

#[export] Instance str_le_antisym : AntiSymm eq str_le.
Proof.
  intros a; unfold str_le. induction a as [|x a IH]; intros [|y b]; simpl; try done.
  rewrite !orb_true_iff, !andb_true_iff, !Z.ltb_lt, !Z.eqb_eq. intros [H1|[-> H1]] [H2|[E2 H2]]; try lia.
  f_equal. by apply IH.
Qed.

(** [sorted] of strings. *)
Definition sort_strs (l : list str) : list str := merge_sort str_le l.

Lemma sort_strs_perm l : sort_strs l ≡ₚ l.
Proof. apply merge_sort_Permutation. Qed.

Lemma elem_of_sort_strs x l : x ∈ sort_strs l <-> x ∈ l.
Proof. by rewrite sort_strs_perm. Qed.

Lemma sort_strs_unique l1 l2 : l1 ≡ₚ l2 -> sort_strs l1 = sort_strs l2.
Proof.
  intros H. apply (StronglySorted_unique str_le).
  - apply StronglySorted_merge_sort; apply _.
  - apply StronglySorted_merge_sort; apply _.
  - by rewrite !sort_strs_perm.
Qed.

Lemma sort_strs_sorted l : StronglySorted str_le l -> sort_strs l = l.
Proof.
  intros H. apply (StronglySorted_unique str_le); [|done|apply sort_strs_perm].
  apply StronglySorted_merge_sort; apply _.
Qed.

(** [s.startswith(p)] on text and on bytes. *)
Definition starts_with {A} `{EqDecision A} (p s : list A) : bool := bool_decide (p `prefix_of` s).

(** ** Hexadecimal digests *)

Definition is_lower_hex (c : Z) : bool := is_digit c || ((97 <=? c) && (c <=? 102)).
(** [^[0-9a-f]{64}$]. *)
Definition is_sha256 (s : str) : bool := (length s =? 64)%nat && forallb is_lower_hex s.

(** [hashlib.sha256(data).hexdigest()]. *)
Definition hexdigest (data : bytes) : str := u (sha256_hexdigest data).

Lemma u_app s1 s2 : u (s1 ++ s2)%string = u s1 ++ u s2.
Proof. induction s1 as [|c s1 IH]; [done|]. cbn [String.append u app]. by rewrite <-IH. Qed.

Lemma hex_digits l : forallb is_lower_hex (u (hex l)) = true /\ length (u (hex l)) = (2 * length l)%nat.
Proof.
  induction l as [|b l [IH1 IH2]]; [done|]. cbn [hex u forallb length]. rewrite IH1, IH2.
  assert (N : forall n, 0 <= n < 16 -> is_lower_hex (Z.of_N (N_of_ascii (hex_nibble n))) = true).
  { intros n Hn.
    assert (A : forallb (fun i => is_lower_hex (Z.of_N (N_of_ascii (hex_nibble i)))) (seqZ 0 16) = true) by (vm_compute; reflexivity).
    rewrite forallb_forall in A. apply A, list_elem_of_In, elem_of_seqZ. lia. }
  pose proof (bz_range b). rewrite !N.
  - split; [done|lia].
  - apply Z.mod_pos_bound. lia.
  - split; [apply Z.div_pos; lia | apply Z.div_lt_upper_bound; lia].
Qed.

Lemma hexdigest_sha256 data : is_sha256 (hexdigest data) = true.
Proof.
  unfold is_sha256, hexdigest, sha256_hexdigest. destruct (hex_digits (sha256 data)) as [H1 H2].
  rewrite H1, H2. pose proof (sha256_len data) as L. unfold len in L.
  rewrite andb_true_r. apply Nat.eqb_eq. lia.
Qed.

Lemma lower_hex_encodable s : forallb is_lower_hex s = true -> encodable s = true.
Proof.
  intros H. apply forallb_forall. intros x Hx. apply forallb_forall with (x := x) in H; [|done].
  unfold is_lower_hex, is_digit in H. rewrite orb_true_iff, !andb_true_iff, !Z.leb_le in H.
  unfold scalar, is_surrogate. rewrite !andb_true_iff, negb_true_iff, andb_false_iff, !Z.leb_le, !Z.leb_gt. lia.
Qed.

(** [s.split("/")]. *)
Fixpoint split_slash_from (acc p : str) : list str :=
  match p with
  | [] => [acc]
  | c :: p => if c =? 47 then acc :: split_slash_from [] p else split_slash_from (acc ++ [c]) p
  end.
Definition split_slash (p : str) : list str := split_slash_from [] p.

(** [Path(p).name] of a canonical relative path. *)
Definition path_name (p : str) : str := List.last (split_slash p) [].

(** ["/".join(parts)]. *)
Fixpoint join_slash (l : list str) : str :=
  match l with
  | [] => []
  | [a] => a
  | a :: l => a ++ 47 :: join_slash l
  end.

Lemma split_slash_from_plain acc p :
  47 ∉ p -> split_slash_from acc p = [acc ++ p].
Proof.
  revert acc; induction p as [|c p IH]; intros acc H; cbn [split_slash_from].
  - by rewrite app_nil_r.
  - apply not_elem_of_cons in H as [H1 H2]. destruct (c =? 47) eqn:E; [apply Z.eqb_eq in E; lia|].
    rewrite IH by done. by rewrite <-app_assoc.
Qed.

Lemma split_slash_from_app acc a p :
  47 ∉ a -> split_slash_from acc (a ++ 47 :: p) = (acc ++ a) :: split_slash_from [] p.
Proof.
  revert acc; induction a as [|c a IH]; intros acc H; cbn [split_slash_from app].
  - rewrite Z.eqb_refl, app_nil_r. done.
  - apply not_elem_of_cons in H as [H1 H2]. destruct (c =? 47) eqn:E; [apply Z.eqb_eq in E; lia|].
    rewrite IH by done. by rewrite <-app_assoc.
Qed.

(** Joining parts without separators and splitting again is the identity. *)
Lemma split_join l : l <> [] -> Forall (fun a => 47 ∉ a) l -> split_slash (join_slash l) = l.
Proof.
  unfold split_slash. induction l as [|a l IH]; intros Hne H; [done|].
  apply Forall_cons in H as [Ha H]. destruct l as [|b l]; cbn [join_slash].
  - by rewrite split_slash_from_plain.
  - rewrite split_slash_from_app by done. cbn [app]. f_equal. by apply IH.
Qed.

(** Splitting and joining again is the identity. *)
Lemma split_slash_from_ne acc p : split_slash_from acc p <> [].
Proof. revert acc. induction p as [|c p IH]; intros acc; cbn; [done|]. by destruct (c =? 47). Qed.

Lemma join_slash_split_from acc p : join_slash (split_slash_from acc p) = acc ++ p.
Proof.
  revert acc; induction p as [|c p IH]; intros acc; cbn [split_slash_from].
  - by rewrite app_nil_r.
  - destruct (c =? 47) eqn:E.
    + apply Z.eqb_eq in E as ->. destruct (split_slash_from [] p) eqn:S; [by apply split_slash_from_ne in S|].
      rewrite <-S. transitivity (acc ++ 47 :: join_slash (split_slash_from [] p)); [by rewrite S|]. by rewrite IH.
    + rewrite IH. by rewrite <-app_assoc.
Qed.
Lemma join_slash_split p : join_slash (split_slash p) = p.
Proof. apply join_slash_split_from. Qed.

Lemma all_join_slash (P : Z -> bool) l : P 47 = true -> forallb (forallb P) l = true -> forallb P (join_slash l) = true.
Proof.
  intros H47. induction l as [|a l IH]; [done|]. cbn [forallb]. rewrite andb_true_iff. intros [Ha Hl].
  destruct l as [|b l]; [done|]. change (join_slash (a :: b :: l)) with (a ++ 47 :: join_slash (b :: l)).
  rewrite forallb_app, Ha. cbn [forallb]. rewrite H47. by apply IH.
Qed.
