(* ===== verification/Json.v ===== *)
(** * Strict and canonical JSON

    The JSON layer of src/scripts/harness/raw_artifacts.py: [canonical_json]
    ([json.dumps] with sorted keys, no spaces, [ensure_ascii=False]) and
    [load_json_bytes] ([json.loads] with the duplicate-key, integer and float
    hooks, followed by the depth and encodability walk), with the parts of
    Python's [json] module and of its [float] they rest on.

    A Python value read from or written to JSON is a [json]; a dict is an
    association list in insertion order.  Every failure of both functions is a
    [RawArtifactError], so a failure is [None] until the functions of the source
    turn it into that exception. *)

From S2P Require Import Prelude Sha256 Text.

(** ** Binary64 floats *)

(** A finite float: sign, mantissa below 2^53 and exponent, normalised so that
    the mantissa is at least 2^52 unless the exponent is the least one. *)
Record float64 := Float64 { f_neg : bool; f_man : Z; f_exp : Z }.

#[export] Instance float64_eq_decision : EqDecision float64.
Proof. solve_decision. Defined.

(** The quotient rounded to the nearest integer, ties to even. *)
Definition div_half_even (a b : Z) : Z :=
  let q := a / b in
  let r := a mod b in
  if (b <? 2 * r) || ((b =? 2 * r) && Z.odd q) then q + 1 else q.

(** [a * base^k / b] as a fraction of integers. *)
Definition scale (base a b k : Z) : Z * Z :=
  if 0 <=? k then (a * base ^ k, b) else (a, b * base ^ (- k)).

(** The mantissa and exponent nearest to the positive fraction [num/den];
    [None] when it rounds to infinity. *)
Definition round64 (num den : Z) : option (Z * Z) :=
  let t := Z.log2 num - Z.log2 den in
  let '(a, b) := scale 2 num den (- t) in
  let e := Z.max ((if a <? b then t - 1 else t) - 52) (-1074) in
  let '(a, b) := scale 2 num den (- e) in
  let q := div_half_even a b in
  let '(m, e) := if q =? 2 ^ 53 then (2 ^ 52, e + 1) else (q, e) in
  if 971 <? e then None else Some (m, e).

(** The float nearest to [n * 10^k], [n] being an integer of at most [d]
    digits.  Exponents that no finite or non-zero float can have are decided
    before the power is computed. *)
Definition float_of_decimal (neg : bool) (n k d : Z) : option float64 :=
  if (n =? 0) || (d + k <? -400) then Some (Float64 neg 0 (-1074))
  else if 400 <? k then None
  else
    let '(a, b) := scale 10 n 1 k in
    match round64 a b with
    | Some (m, e) => Some (Float64 neg m e)
    | None => None
    end.

(** The largest [e] with [10^e <= a/b], looked for downwards from an [e] above
    it; an estimate from the binary logarithm starts at most four above. *)
Fixpoint floor_log10 (fuel : nat) (a b e : Z) : Z :=
  match fuel with
  | O => e
  | S fuel => let '(p, q) := scale 10 1 1 e in if p * b <=? a * q then e else floor_log10 fuel a b (e - 1)
  end.

(** The shortest run of at most seventeen digits that reads back as [f]: the
    digits and the decimal exponent of the last one.  Of one length the nearer
    neighbour of the value is tried first; below a power of two only the other
    one may read back. *)
Fixpoint shortest (fuel : nat) (f : float64) (a b e10 nd : Z) : Z * Z :=
  let k := e10 - nd + 1 in
  let '(p, q) := scale 10 a b (- k) in
  let d := div_half_even p q in
  let d' := if d =? p / q then d + 1 else d - 1 in
  match fuel with
  | O => (d, k)
  | S fuel =>
      if bool_decide (float_of_decimal (f_neg f) d k nd = Some f) then (d, k)
      else if bool_decide (float_of_decimal (f_neg f) d' k nd = Some f) then (d', k)
      else shortest fuel f a b e10 (nd + 1)
  end.

(** Trailing zeros of the digits move to the exponent. *)
Fixpoint strip_zeros (fuel : nat) (d k : Z) : Z * Z :=
  match fuel with
  | O => (d, k)
  | S fuel => if (d mod 10 =? 0) && negb (d =? 0) then strip_zeros fuel (d / 10) (k + 1) else (d, k)
  end.

(** [float.__repr__]. *)
Definition float_repr (f : float64) : str :=
  let sign := if f_neg f then [45] else [] in
  if f_man f =? 0 then sign ++ u "0.0"
  else
    let '(a, b) := scale 2 (f_man f) 1 (f_exp f) in
    let e10 := floor_log10 8 a b ((Z.log2 a - Z.log2 b + 2) * 30103 / 100000 + 2) in
    let '(d, k) := shortest 16 f a b e10 1 in
    let '(d, k) := strip_zeros 20 d k in
    let ds := nat_str d in
    let nd := len ds in
    let point := nd + k in
    sign ++
    (if (-4 <? point) && (point <=? 16) then
       if point <=? 0 then u "0." ++ replicate (Z.to_nat (- point)) 48 ++ ds
       else if nd <=? point then ds ++ replicate (Z.to_nat (point - nd)) 48 ++ u ".0"
       else take (Z.to_nat point) ds ++ 46 :: drop (Z.to_nat point) ds
     else
       take 1 ds ++ (if nd =? 1 then [] else 46 :: drop 1 ds) ++
       (if point <=? 0 then u "e-" else u "e+") ++ pad_int 2 (Z.abs (point - 1))).

(** ** Values *)

#[local] Unset Elimination Schemes.
Inductive json :=
  | JNull
  | JBool (b : bool)
  | JInt (z : Z)
  | JFloat (f : float64)
  | JStr (s : str)
  | JList (l : list json)
  | JObj (l : list (str * json)).
#[local] Set Elimination Schemes.

Fixpoint json_induction (P : json -> Prop)
  (Hnull : P JNull) (Hbool : forall b, P (JBool b)) (Hint : forall z, P (JInt z))
  (Hfloat : forall f, P (JFloat f)) (Hstr : forall s, P (JStr s))
  (Hlist : forall l, Forall P l -> P (JList l))
  (Hobj : forall l, Forall (fun kv => P (snd kv)) l -> P (JObj l)) (v : json) : P v :=
  let rec := json_induction P Hnull Hbool Hint Hfloat Hstr Hlist Hobj in
  match v with
  | JNull => Hnull | JBool b => Hbool b | JInt z => Hint z | JFloat f => Hfloat f | JStr s => Hstr s
  | JList l => Hlist l ((fix go (l : list json) : Forall P l :=
      match l with [] => Forall_nil_2 P | v :: l => Forall_cons_2 P v l (rec v) (go l) end) l)
  | JObj l => Hobj l ((fix go (l : list (str * json)) : Forall (fun kv => P (snd kv)) l :=
      match l with
      | [] => Forall_nil_2 _
      | kv :: l => Forall_cons_2 _ kv l (rec (snd kv)) (go l)
      end) l)
  end.

Fixpoint json_eqb (a b : json) : bool :=
  match a, b with
  | JNull, JNull => true
  | JBool a, JBool b => Bool.eqb a b
  | JInt a, JInt b => a =? b
  | JFloat a, JFloat b => bool_decide (a = b)
  | JStr a, JStr b => str_eqb a b
  | JList a, JList b =>
      (fix go (a b : list json) := match a, b with
       | [], [] => true | x :: a, y :: b => json_eqb x y && go a b | _, _ => false end) a b
  | JObj a, JObj b =>
      (fix go (a b : list (str * json)) := match a, b with
       | [], [] => true
       | (k, x) :: a, (k', y) :: b => str_eqb k k' && json_eqb x y && go a b
       | _, _ => false end) a b
  | _, _ => false
  end.

(** [value[key]] of a dict. *)
Fixpoint obj_get (l : list (str * json)) (k : str) : option json :=
  match l with
  | [] => None
  | (k', v) :: l => if str_eqb k' k then Some v else obj_get l k
  end.

(** ** [canonical_json] *)

(** The escapes of [json.encoder] with [ensure_ascii=False]. *)
Definition hex_char (n : Z) : Z := if n <? 10 then 48 + n else 87 + n.
Definition escape_char (c : Z) : str :=
  if c =? 34 then [92; 34]
  else if c =? 92 then [92; 92]
  else if c =? 10 then [92; 110]
  else if c =? 13 then [92; 114]
  else if c =? 9 then [92; 116]
  else if c =? 12 then [92; 102]
  else if c =? 8 then [92; 98]
  else if c <? 32 then [92; 117; 48; 48; hex_char (c / 16); hex_char (c mod 16)]
  else [c].
Definition dump_str (s : str) : str := 34 :: flat_map escape_char s ++ [34].

Definition key_le {A} (a b : str * A) : Prop := str_le (fst a) (fst b).
#[export] Instance key_le_dec {A} (a b : str * A) : Decision (key_le a b).
Proof. unfold key_le. apply _. Defined.
(** [sorted(items)] of a dict, whose keys are distinct. *)
Definition sort_items {A} (l : list (str * A)) : list (str * A) := merge_sort key_le l.

Fixpoint join_with (sep : Z) (l : list str) : str :=
  match l with
  | [] => []
  | [a] => a
  | a :: l => a ++ sep :: join_with sep l
  end.

(** [json.dumps(value, sort_keys=True, separators=(",", ":"), ensure_ascii=False)]. *)
Fixpoint dumps (v : json) : str :=
  match v with
  | JNull => u "null"
  | JBool true => u "true"
  | JBool false => u "false"
  | JInt z => int_str z
  | JFloat f => float_repr f
  | JStr s => dump_str s
  | JList l => 91 :: join_with 44 (map dumps l) ++ [93]
  | JObj l =>
      123 :: join_with 44 (map (fun kt => dump_str (fst kt) ++ 58 :: snd kt)
                             (sort_items (map (fun kv => (fst kv, dumps (snd kv))) l))) ++ [125]
  end.

Definition canonical_json (value : json) : option bytes := utf8_encode (dumps value).

(** ** [load_json_bytes] *)

Definition MAX_JSON_DEPTH : Z := 32.
Definition MAX_JSON_INTEGER_DIGITS : Z := 19.
Definition MAX_JSON_FLOAT_CHARS : Z := 128.

Definition is_ws (c : Z) : bool := (c =? 32) || (c =? 9) || (c =? 10) || (c =? 13).
Fixpoint skip_ws (s : str) : str :=
  match s with
  | [] => []
  | c :: r => if is_ws c then skip_ws r else s
  end.

Definition hex_value (c : Z) : option Z :=
  if is_digit c then Some (c - 48)
  else if (97 <=? c) && (c <=? 102) then Some (c - 87)
  else if (65 <=? c) && (c <=? 70) then Some (c - 55)
  else None.
Definition hex4 (a b c d : Z) : option Z :=
  a ← hex_value a; b ← hex_value b; c ← hex_value c; d ← hex_value d;
  Some (a * 4096 + b * 256 + c * 16 + d).

Definition simple_escape (c : Z) : option Z :=
  if c =? 34 then Some 34 else if c =? 92 then Some 92 else if c =? 47 then Some 47
  else if c =? 98 then Some 8 else if c =? 102 then Some 12 else if c =? 110 then Some 10
  else if c =? 114 then Some 13 else if c =? 116 then Some 9 else None.

Definition is_high (n : Z) : bool := (55296 <=? n) && (n <=? 56319).
Definition is_low (n : Z) : bool := (56320 <=? n) && (n <=? 57343).
Definition join_surrogates (h l : Z) : Z := 65536 + (h - 55296) * 1024 + (l - 56320).

Definition push (c : Z) (m : option (str * str)) : option (str * str) :=
  match m with Some (s, r) => Some (c :: s, r) | None => None end.

(** [scanstring] in strict mode, after the opening quote: the text and what
    follows the closing quote. *)
Fixpoint scan_string (s : str) : option (str * str) :=
  match s with
  | [] => None
  | c :: r =>
    if c =? 34 then Some ([], r)
    else if c =? 92 then
      match r with
      | [] => None
      | e :: r1 =>
        if e =? 117 then
          match r1 with
          | h1 :: h2 :: h3 :: h4 :: r2 =>
            match hex4 h1 h2 h3 h4 with
            | None => None
            | Some n =>
              if is_high n then
                match r2 with
                | q0 :: q1 :: g1 :: g2 :: g3 :: g4 :: r3 =>
                  if (q0 =? 92) && (q1 =? 117) then
                    match hex4 g1 g2 g3 g4 with
                    | None => None
                    | Some m => if is_low m then push (join_surrogates n m) (scan_string r3) else push n (scan_string r2)
                    end
                  else push n (scan_string r2)
                | _ => push n (scan_string r2)
                end
              else push n (scan_string r2)
            end
          | _ => None
          end
        else match simple_escape e with Some ch => push ch (scan_string r1) | None => None end
      end
    else if c <=? 31 then None
    else push c (scan_string r)
  end.

Fixpoint span_digits (s : str) : str * str :=
  match s with
  | [] => ([], [])
  | c :: r => if is_digit c then let '(d, r) := span_digits r in (c :: d, r) else ([], s)
  end.

(** The parts of a JSON number: sign, integer digits, fraction digits, and the
    exponent with its sign. *)
Record number := Number { n_neg : bool; n_int : str; n_frac : option str; n_exp : option (bool * str) }.

(** An optional minus sign, then [0] or digits that do not start with it. *)
Definition scan_int (s : str) : option (bool * str * str) :=
  let '(neg, s) := match s with c :: r => if c =? 45 then (true, r) else (false, s) | [] => (false, s) end in
  match s with
  | [] => None
  | c :: r =>
      if c =? 48 then Some (neg, [48], r)
      else if is_digit c then let '(d, r) := span_digits s in Some (neg, d, r)
      else None
  end.

(** An optional fraction: a point and at least one digit. *)
Definition scan_frac (s : str) : option str * str :=
  match s with
  | c :: r => if c =? 46 then match span_digits r with ([], _) => (None, s) | (d, r) => (Some d, r) end else (None, s)
  | [] => (None, s)
  end.

(** An optional exponent: a letter, an optional sign and at least one digit. *)
Definition scan_exp (s : str) : option (bool * str) * str :=
  match s with
  | c :: r =>
      if (c =? 101) || (c =? 69) then
        let '(neg, r) := match r with
                         | g :: r' => if g =? 45 then (true, r') else if g =? 43 then (false, r') else (false, r)
                         | [] => (false, r) end in
        match span_digits r with ([], _) => (None, s) | (d, r) => (Some (neg, d), r) end
      else (None, s)
  | [] => (None, s)
  end.

Definition scan_number (s : str) : option (number * str) :=
  match scan_int s with
  | None => None
  | Some (neg, d, r) =>
      let '(f, r) := scan_frac r in
      let '(e, r) := scan_exp r in
      Some (Number neg d f e, r)
  end.

(** [float(value)] of a number token; [None] when it is infinite. *)
Definition py_float (n : number) : option float64 :=
  let frac := default [] (n_frac n) in
  let e := match n_exp n with Some (neg, d) => if neg : bool then - dec_value d else dec_value d | None => 0 end in
  float_of_decimal (n_neg n) (dec_value (n_int n ++ frac)) (e - len frac) (len (n_int n ++ frac)).

Definition _parse_json_integer (n : number) : option Z :=
  if MAX_JSON_INTEGER_DIGITS <? len (n_int n) then None
  else Some (if n_neg n then - dec_value (n_int n) else dec_value (n_int n)).

(** [token] is the text of the number. *)
Definition _parse_json_float (token : str) (n : number) : option float64 :=
  if MAX_JSON_FLOAT_CHARS <? len token then None else py_float n.

Definition parse_number (s : str) : option (json * str) :=
  match scan_number s with
  | None => None
  | Some (n, r) =>
      match n_frac n, n_exp n with
      | None, None => z ← _parse_json_integer n; Some (JInt z, r)
      | _, _ => f ← _parse_json_float (take (length s - length r) s) n; Some (JFloat f, r)
      end
  end.

(** The [object_pairs_hook]: the dict of the pairs, unless a key repeats. *)
Definition _reject_duplicate_keys (pairs : list (str * json)) : option (list (str * json)) :=
  foldl (fun acc kv =>
    result ← acc;
    if existsb (fun e => str_eqb (fst e) (fst kv)) result then None else Some (result ++ [kv]))
    (Some []) pairs.

Definition after (lit : string) (s : str) : option str :=
  if starts_with (u lit) s then Some (drop (length (u lit)) s) else None.

(** [scan_once] of [json.scanner]: one value and what follows it.  Nesting is
    bounded by the text: with more than twice its length as [fuel] the result no
    longer depends on [fuel] ([parse_value_fuel]).  [NaN], [Infinity] and [-Infinity] reach
    [parse_constant], which raises. *)
Fixpoint parse_value (fuel : nat) (s : str) : option (json * str) :=
  match fuel with
  | O => None
  | S fuel =>
    match s with
    | [] => None
    | c :: r =>
      if c =? 34 then '(t, r) ← scan_string r; Some (JStr t, r)
      else if c =? 123 then
        match skip_ws r with
        | [] => None
        | d :: r' =>
            if d =? 125 then Some (JObj [], r')
            else '(kvs, r) ← parse_members fuel (d :: r'); kvs ← _reject_duplicate_keys kvs; Some (JObj kvs, r)
        end
      else if c =? 91 then
        match skip_ws r with
        | [] => None
        | d :: r' =>
            if d =? 93 then Some (JList [], r')
            else '(vs, r) ← parse_elements fuel (d :: r'); Some (JList vs, r)
        end
      else
        match after "null" s with Some r => Some (JNull, r) | None =>
        match after "true" s with Some r => Some (JBool true, r) | None =>
        match after "false" s with Some r => Some (JBool false, r) | None =>
        match after "NaN" s, after "Infinity" s, after "-Infinity" s with
        | None, None, None => parse_number s
        | _, _, _ => None
        end end end end
    end
  end
with parse_members (fuel : nat) (s : str) : option (list (str * json) * str) :=
  match fuel with
  | O => None
  | S fuel =>
    match s with
    | [] => None
    | c :: r =>
      if c =? 34 then
        '(k, r) ← scan_string r;
        match skip_ws r with
        | [] => None
        | c :: r =>
          if c =? 58 then
            '(v, r) ← parse_value fuel (skip_ws r);
            match skip_ws r with
            | [] => None
            | c :: r =>
                if c =? 125 then Some ([(k, v)], r)
                else if c =? 44 then '(kvs, r) ← parse_members fuel (skip_ws r); Some ((k, v) :: kvs, r)
                else None
            end
          else None
        end
      else None
    end
  end
with parse_elements (fuel : nat) (s : str) : option (list json * str) :=
  match fuel with
  | O => None
  | S fuel =>
    '(v, r) ← parse_value fuel s;
    match skip_ws r with
    | [] => None
    | c :: r =>
        if c =? 93 then Some ([v], r)
        else if c =? 44 then '(vs, r) ← parse_elements fuel (skip_ws r); Some (v :: vs, r)
        else None
    end
  end.

(** [json.loads(text)] with the hooks.  A text that starts with a byte order
    mark is refused. *)
Definition loads (text : str) : option json :=
  if starts_with [65279] text then None
  else
    let s := skip_ws text in
    '(v, r) ← parse_value (S (2 * length s)) s;
    match skip_ws r with [] => Some v | _ => None end.

(** Whether [_json_depth] returns: the nesting is bounded and every key and
    string can be encoded. *)
Fixpoint _json_depth (value : json) (depth : Z) : bool :=
  if MAX_JSON_DEPTH <? depth then false
  else
    match value with
    | JObj l => forallb (fun kv => encodable (fst kv) && _json_depth (snd kv) (depth + 1)) l
    | JList l => forallb (fun v => _json_depth v (depth + 1)) l
    | JStr s => encodable s
    | _ => true
    end.

Definition load_json_bytes (data : bytes) : option json :=
  text ← utf8_decode data;
  value ← loads text;
  if _json_depth value 0 then Some value else None.

(** [exact_object] on a dict: its fields are exactly [fields]. *)
Definition same_fields (fields : list str) (l : list (str * json)) : bool :=
  forallb (fun f => existsb (fun kv => str_eqb (fst kv) f) l) fields &&
  forallb (fun kv => existsb (str_eqb (fst kv)) fields) l.
Definition exact_object (value : json) (fields : list str) : option (list (str * json)) :=
  match value with
  | JObj l => if same_fields fields l then Some l else None
  | _ => None
  end.

(** ** Reading back what was written *)

Lemma obind_some {A B} (f : A -> option B) (m : option A) (b : B) :
  m ≫= f = Some b -> exists a, m = Some a /\ f a = Some b.
Proof. intros H. by apply bind_Some in H. Qed.

(** Text of characters, which have no negative code points. *)
Definition chars (s : str) : bool := forallb (fun c => 0 <=? c) s.

Lemma encodable_chars s : encodable s = true -> chars s = true.
Proof.
  unfold encodable, chars. intros H. apply forallb_forall. intros x Hx.
  apply forallb_forall with (x := x) in H; [|done]. unfold scalar in H.
  rewrite !andb_true_iff in H. tauto.
Qed.

Lemma hex_char_value n : 0 <= n < 16 -> hex_value (hex_char n) = Some n.
Proof.
  intros Hn. unfold hex_value, hex_char, is_digit.
  destruct (n <? 10) eqn:L; [apply Z.ltb_lt in L | apply Z.ltb_ge in L]; cmp; simpl; f_equal; lia.
Qed.

(** A control character with no short escape is written as four digits. *)
Lemma scan_control c t :
  0 <= c < 32 -> scan_string ([92; 117; 48; 48; hex_char (c / 16); hex_char (c mod 16)] ++ t) = push c (scan_string t).
Proof.
  intros Hc. cbn [app scan_string]. rewrite (eq_refl : (92 =? 34) = false), (eq_refl : (92 =? 92) = true), (eq_refl : (117 =? 117) = true).
  assert (H1 : 0 <= c / 16 < 16) by (split; [apply Z.div_pos | apply Z.div_lt_upper_bound]; lia).
  pose proof (Z.mod_pos_bound c 16 ltac:(lia)) as H2.
  unfold hex4. rewrite (eq_refl : hex_value 48 = Some 0), !hex_char_value by done. cbn [mbind option_bind].
  pose proof (Z.div_mod c 16 ltac:(lia)).
  replace (0 * 4096 + 0 * 256 + c / 16 * 16 + c mod 16) with c by lia.
  unfold is_high. cmp. done.
Qed.

Lemma scan_escaped c t : 0 <= c -> scan_string (escape_char c ++ t) = push c (scan_string t).
Proof.
  intros Hc. unfold escape_char.
  destruct (c =? 34) eqn:E1; [apply Z.eqb_eq in E1 as ->; done|].
  destruct (c =? 92) eqn:E2; [apply Z.eqb_eq in E2 as ->; done|].
  destruct (c =? 10) eqn:E3; [apply Z.eqb_eq in E3 as ->; done|].
  destruct (c =? 13) eqn:E4; [apply Z.eqb_eq in E4 as ->; done|].
  destruct (c =? 9) eqn:E5; [apply Z.eqb_eq in E5 as ->; done|].
  destruct (c =? 12) eqn:E6; [apply Z.eqb_eq in E6 as ->; done|].
  destruct (c =? 8) eqn:E7; [apply Z.eqb_eq in E7 as ->; done|].
  destruct (c <? 32) eqn:L.
  - apply Z.ltb_lt in L. by apply scan_control.
  - apply Z.ltb_ge in L. cbn [app scan_string]. rewrite E1, E2. cmp. done.
Qed.

Lemma scan_dumped s r : chars s = true -> scan_string (flat_map escape_char s ++ 34 :: r) = Some (s, r).
Proof.
  induction s as [|c s IH]; [done|]. cbn [chars forallb flat_map]. rewrite andb_true_iff. intros [Hc Hs].
  rewrite <-app_assoc, scan_escaped by (by apply Z.leb_le). by rewrite (IH Hs).
Qed.

(** What may follow a number without being read as part of it. *)
Definition number_ends (r : str) : bool :=
  match r with
  | [] => true
  | c :: _ => negb (is_digit c || (c =? 46) || (c =? 101) || (c =? 69))
  end.

Lemma span_digits_app d r :
  forallb is_digit d = true -> number_ends r = true -> span_digits (d ++ r) = (d, r).
Proof.
  induction d as [|c d IH]; cbn [forallb app].
  - intros _ H. destruct r as [|c r]; [done|]. cbn [span_digits]. unfold number_ends in H.
    rewrite negb_true_iff, !orb_false_iff in H. by destruct H as [[[-> _] _] _].
  - rewrite andb_true_iff. intros [Hc Hd] Hr. cbn [span_digits]. by rewrite Hc, IH.
Qed.

Lemma scan_nat n r :
  0 <= n -> number_ends r = true ->
  forall neg : bool, scan_number ((if neg then [45] else []) ++ nat_str n ++ r) = Some (Number neg (nat_str n) None None, r).
Proof.
  intros Hn Hr neg. destruct (nat_str_spec n Hn) as (Hne & Hd & Hv & Hz).
  assert (Hi : scan_int ((if neg then [45] else []) ++ nat_str n ++ r) = Some (neg, nat_str n, r)).
  { destruct (nat_str n) as [|c s] eqn:E; [done|]. cbn [forallb] in Hd. apply andb_prop in Hd as [Hc Hs].
    assert (c =? 45 = false) as N45.
    { unfold is_digit in Hc. rewrite andb_true_iff, !Z.leb_le in Hc. apply Z.eqb_neq. lia. }
    assert (Hu : match (c :: s) ++ r with [] => None | c0 :: r0 =>
        if c0 =? 48 then Some (neg, [48], r0)
        else if is_digit c0 then let '(d, r1) := span_digits ((c :: s) ++ r) in Some (neg, d, r1) else None end
        = Some (neg, c :: s, r)).
    { destruct Hz as [Hz | Hz].
      - injection Hz as -> ->. done.
      - cbn [hd] in Hz. cbn [app]. rewrite (proj2 (Z.eqb_neq c 48)) by done. rewrite Hc.
        change (c :: s ++ r) with ((c :: s) ++ r). rewrite span_digits_app; [done| |done].
        cbn [forallb]. by rewrite Hc, Hs. }
    destruct neg; unfold scan_int; cbn [app].
    - rewrite Z.eqb_refl. exact Hu.
    - rewrite N45. exact Hu. }
  unfold scan_number. rewrite Hi.
  destruct r as [|c r]; [done|]. unfold number_ends in Hr. rewrite negb_true_iff, !orb_false_iff in Hr.
  destruct Hr as [[[_ H1] H2] H3]. unfold scan_frac. rewrite H1. unfold scan_exp. by rewrite H2, H3.
Qed.

Lemma parse_int_dumped z r :
  Z.abs z < 10 ^ 19 -> number_ends r = true -> parse_number (int_str z ++ r) = Some (JInt z, r).
Proof.
  intros Hz Hr. unfold int_str.
  assert (L : (length (nat_str (Z.abs z)) <= 19)%nat) by (apply nat_str_length; [change (Z.of_nat 19) with 19|]; lia).
  destruct (nat_str_spec (Z.abs z) ltac:(lia)) as (_ & _ & Hv & _).
  assert (P : forall neg : bool, (if neg then - dec_value (nat_str (Z.abs z)) else dec_value (nat_str (Z.abs z))) = z ->
    parse_number ((if neg then [45] else []) ++ nat_str (Z.abs z) ++ r) = Some (JInt z, r)).
  { intros neg E. unfold parse_number. rewrite scan_nat by (done || lia). cbn [n_frac n_exp].
    unfold _parse_json_integer. cbn [n_int n_neg].
    unfold MAX_JSON_INTEGER_DIGITS, len. cmp. cbn [mbind option_bind]. by rewrite E. }
  destruct (z <? 0) eqn:S; [apply Z.ltb_lt in S | apply Z.ltb_ge in S].
  - replace (- z) with (Z.abs z) by lia. change ((45 :: nat_str (Z.abs z)) ++ r) with ([45] ++ nat_str (Z.abs z) ++ r).
    apply (P true). lia.
  - replace (nat_str z) with (nat_str (Z.abs z)) by (f_equal; lia). apply (P false). lia.
Qed.

Lemma after_other lit c r d t : u lit = d :: t -> c <> d -> after lit (c :: r) = None.
Proof.
  intros E H. unfold after, starts_with. rewrite E. rewrite bool_decide_false; [done|].
  intros [k Hk]. by injection Hk as ->.
Qed.

(** A dict whose keys are distinct. *)
Definition unique_keys {A} (l : list (str * A)) : bool := bool_decide (NoDup (map fst l)).

(** The values whose encoding is read back: no float, integers within the
    reader's nineteen digits, text, and distinct keys. *)
Fixpoint plain (v : json) : bool :=
  match v with
  | JNull | JBool _ => true
  | JInt z => Z.abs z <? 10 ^ 19
  | JFloat _ => false
  | JStr s => chars s
  | JList l => forallb plain l
  | JObj l => unique_keys l && forallb (fun kv => chars (fst kv) && plain (snd kv)) l
  end.

(** The value with every dict in key order: equal to the value in Python. *)
Fixpoint normalize (v : json) : json :=
  match v with
  | JList l => JList (map normalize l)
  | JObj l => JObj (sort_items (map (fun kv => (fst kv, normalize (snd kv))) l))
  | v => v
  end.

Lemma sort_items_perm {A} (l : list (str * A)) : sort_items l ≡ₚ l.
Proof. apply merge_sort_Permutation. Qed.

#[export] Instance key_le_total {A} : Total (@key_le A).
Proof. intros a b. apply str_le_total. Qed.
#[export] Instance key_le_trans {A} : Transitive (@key_le A).
Proof. intros a b c. apply str_le_trans. Qed.

Lemma unique_keys_eq {A} (l : list (str * A)) a b :
  NoDup (map fst l) -> a ∈ l -> b ∈ l -> fst a = fst b -> a = b.
Proof.
  intros N Ha Hb E. apply list_elem_of_lookup in Ha as [i Hi], Hb as [j Hj].
  assert (i = j) as ->; [|congruence]. eapply NoDup_lookup; [exact N| |].
  - rewrite list_lookup_fmap, Hi. done.
  - rewrite list_lookup_fmap, Hj. cbn. by rewrite E.
Qed.

Lemma sort_items_unique {A} (l1 l2 : list (str * A)) :
  NoDup (map fst l1) -> l1 ≡ₚ l2 -> StronglySorted key_le l2 -> sort_items l1 = l2.
Proof.
  intros N P S. apply (StronglySorted_unique_strong key_le).
  - intros a b Ha Hb H1 H2. apply (unique_keys_eq l1); [done| | |].
    + by rewrite <-(sort_items_perm l1).
    + by rewrite P.
    + by apply (anti_symm str_le).
  - apply StronglySorted_merge_sort; apply _.
  - done.
  - by rewrite sort_items_perm.
Qed.

Lemma sort_items_perm_eq {A} (l1 l2 : list (str * A)) :
  NoDup (map fst l1) -> l1 ≡ₚ l2 -> sort_items l1 = sort_items l2.
Proof.
  intros N P. apply sort_items_unique; [done| |].
  - rewrite P. symmetry. apply sort_items_perm.
  - apply StronglySorted_merge_sort; apply _.
Qed.

Lemma sort_items_fmap {A B} (g : A -> B) (l : list (str * A)) :
  NoDup (map fst l) ->
  sort_items (map (fun kv => (fst kv, g (snd kv))) l) = map (fun kv => (fst kv, g (snd kv))) (sort_items l).
Proof.
  intros N. apply sort_items_unique.
  - rewrite map_map. exact N.
  - apply fmap_Permutation. symmetry. apply sort_items_perm.
  - assert (S : StronglySorted key_le (sort_items l)) by (apply StronglySorted_merge_sort; apply _).
    induction S as [|a s S IH F]; [constructor|]. cbn [map]. constructor; [done|].
    apply Forall_fmap. eapply Forall_impl; [exact F|]. done.
Qed.

Lemma reject_duplicate_keys_unique l :
  NoDup (map fst l) -> _reject_duplicate_keys l = Some l.
Proof.
  induction l as [|kv l IH] using rev_ind; [done|]. intros N.
  rewrite map_app in N. apply NoDup_app in N as (N1 & N2 & _).
  unfold _reject_duplicate_keys in *. rewrite foldl_app. cbn [foldl]. rewrite (IH N1). cbn [mbind option_bind].
  destruct (existsb _ l) eqn:X; [|done]. exfalso.
  apply existsb_exists in X as (e & He & Ek). apply bool_decide_eq_true in Ek.
  apply (N2 (fst kv)); [|set_solver]. rewrite <-Ek. apply list_elem_of_fmap. exists e. split; [done|]. by apply list_elem_of_In.
Qed.

Lemma is_digit_range c : is_digit c = true -> 48 <= c <= 57.
Proof. unfold is_digit. rewrite andb_true_iff, !Z.leb_le. done. Qed.

(** A written integer starts with a digit, or a sign and a digit. *)
Lemma int_str_head z :
  exists c s, int_str z = c :: s /\ (48 <= c <= 57 \/ c = 45 /\ exists d s', s = d :: s' /\ 48 <= d <= 57).
Proof.
  assert (N : forall n, 0 <= n -> exists c s, nat_str n = c :: s /\ 48 <= c <= 57).
  { intros n Hn. destruct (nat_str_spec n Hn) as (Hne & Hd & _). destruct (nat_str n) as [|c s]; [done|].
    cbn [forallb] in Hd. apply andb_prop in Hd as [Hc _]. apply is_digit_range in Hc. eauto. }
  unfold int_str. destruct (z <? 0) eqn:S; [apply Z.ltb_lt in S | apply Z.ltb_ge in S].
  - destruct (N (- z)) as (d & s & E & Hd); [lia|]. exists 45, (nat_str (- z)). naive_solver.
  - destruct (N z S) as (c & s & E & Hc). eauto.
Qed.

(** What a written value starts with: neither white space nor a closing bracket. *)
Definition opens (s : str) : Prop :=
  exists c r, s = c :: r /\ is_ws c = false /\ c <> 93 /\ c <> 65279.

Lemma opens_app s t : opens s -> opens (s ++ t).
Proof. intros (c & r & -> & H). exists c, (r ++ t). done. Qed.

Lemma dumps_opens v : plain v = true -> opens (dumps v).
Proof.
  intros Hp. destruct v as [|[]|z|f|s|l|l]; cbn [dumps u dump_str]; try discriminate Hp.
  all: try (eexists _, _; split; [reflexivity | done]).
  destruct (int_str_head z) as (c & s & E & Hc). rewrite E. exists c, s. split; [done|].
  split; [|lia]. unfold is_ws. cmp. done.
Qed.

Lemma skip_ws_opens s : opens s -> skip_ws s = s.
Proof. intros (c & r & -> & H & _). cbn [skip_ws]. by rewrite H. Qed.

Lemma after_infinity c d s : c <> 45 \/ d <> 73 -> after "-Infinity" (c :: d :: s) = None.
Proof.
  intros H. unfold after, starts_with. rewrite bool_decide_false; [done|].
  intros [k Hk]. injection Hk. intros. subst. naive_solver.
Qed.

Lemma parse_value_int fuel z r :
  Z.abs z < 10 ^ 19 -> number_ends r = true -> parse_value (S fuel) (int_str z ++ r) = Some (JInt z, r).
Proof.
  intros Hz Hr. rewrite <-(parse_int_dumped z r Hz Hr).
  destruct (int_str_head z) as (c & s & -> & Hc). cbn [app parse_value].
  rewrite (after_other "null" c (s ++ r) 110 (u "ull")), (after_other "true" c (s ++ r) 116 (u "rue")),
    (after_other "false" c (s ++ r) 102 (u "alse")), (after_other "NaN" c (s ++ r) 78 (u "aN")),
    (after_other "Infinity" c (s ++ r) 73 (u "nfinity")) by (done || lia).
  replace (after "-Infinity" (c :: s ++ r)) with (@None str); [cmp; done|]. symmetry.
  destruct Hc as [Hc | (-> & d & s' & -> & Hd)].
  - apply (after_other _ c _ 45 (u "Infinity")); [done|lia].
  - apply after_infinity. lia.
Qed.

Lemma parse_value_str fuel s r :
  chars s = true -> parse_value (S fuel) (dump_str s ++ r) = Some (JStr s, r).
Proof.
  intros Hs. unfold dump_str. cbn [app parse_value]. rewrite Z.eqb_refl, <-app_assoc.
  cbn [app]. by rewrite scan_dumped.
Qed.

Lemma opens_not_empty s : opens s -> (1 <= length s)%nat.
Proof. intros (c & r & -> & _). simpl. lia. Qed.

(** What the round trip says of one value. *)
Definition read_back (v : json) : Prop :=
  forall fuel r, (length (dumps v) <= fuel)%nat -> number_ends r = true ->
  parse_value fuel (dumps v ++ r) = Some (normalize v, r).

Lemma parse_elements_dumped l r :
  l <> [] -> Forall read_back l -> forallb plain l = true ->
  forall fuel, (length (join_with 44 (map dumps l)) < fuel)%nat ->
  parse_elements fuel (join_with 44 (map dumps l) ++ 93 :: r) = Some (map normalize l, r).
Proof.
  intros Hne HR HP. induction HR as [|v l Hv HR IH]; [done|]. clear Hne. intros fuel Hf.
  cbn [forallb] in HP. apply andb_prop in HP as [Pv Pl].
  destruct fuel as [|fuel]; [lia|]. destruct l as [|w l].
  - cbn [parse_elements]. cbn [join_with map] in *. rewrite Hv by (done || lia). done.
  - change (join_with 44 (map dumps (v :: w :: l))) with
      (dumps v ++ 44 :: join_with 44 (map dumps (w :: l))) in *. cbn [parse_elements].
    rewrite length_app in Hf. cbn [length] in Hf. pose proof (opens_not_empty _ (dumps_opens v Pv)).
    rewrite <-app_assoc. cbn [app]. rewrite Hv by (done || lia). cbn [mbind option_bind skip_ws].
    rewrite (eq_refl : is_ws 44 = false), (eq_refl : (44 =? 93) = false), (eq_refl : (44 =? 44) = true).
    rewrite skip_ws_opens.
    + rewrite IH by (done || lia). done.
    + apply opens_app. cbn [forallb] in Pl. apply andb_prop in Pl as [Pw _].
      destruct l; cbn [map join_with]; [by apply dumps_opens | apply opens_app; by apply dumps_opens].
Qed.

Definition dump_member (kv : str * json) : str := dump_str (fst kv) ++ 58 :: dumps (snd kv).

Lemma parse_members_dumped (l : list (str * json)) r :
  l <> [] -> Forall (fun kv => read_back (snd kv)) l ->
  forallb (fun kv => chars (fst kv) && plain (snd kv)) l = true ->
  forall fuel, (length (join_with 44 (map dump_member l)) < fuel)%nat ->
  parse_members fuel (join_with 44 (map dump_member l) ++ 125 :: r)
  = Some (map (fun kv => (fst kv, normalize (snd kv))) l, r).
Proof.
  intros Hne HR HP. induction HR as [|[k v] l Hv HR IH]; [done|]. clear Hne. intros fuel Hf. cbn [snd] in Hv.
  cbn [forallb fst snd] in HP. apply andb_prop in HP as [Pv Pl]. apply andb_prop in Pv as [Pk Pv].
  destruct fuel as [|fuel]; [lia|].
  assert (Head : forall t, parse_members (S fuel) (dump_member (k, v) ++ t) =
    match parse_value fuel (dumps v ++ t) with
    | Some (v, r) => match skip_ws r with
        | [] => None
        | c :: r => if c =? 125 then Some ([(k, v)], r)
            else if c =? 44 then '(kvs, r) ← parse_members fuel (skip_ws r); Some ((k, v) :: kvs, r) else None
        end
    | None => None
    end).
  { intros t. unfold dump_member. cbn [fst snd]. unfold dump_str. cbn [app parse_members].
    rewrite Z.eqb_refl, <-!app_assoc. cbn [app]. rewrite scan_dumped by done. cbn [mbind option_bind skip_ws].
    rewrite (eq_refl : is_ws 58 = false), Z.eqb_refl.
    rewrite skip_ws_opens by (apply opens_app; by apply dumps_opens).
    by destruct (parse_value fuel (dumps v ++ t)) as [[? ?]|]. }
  assert (Hl : (length (dumps v) < length (dump_member (k, v)))%nat).
  { unfold dump_member. rewrite length_app. cbn [fst snd length]. lia. }
  destruct l as [|w l].
  - cbn [join_with map] in *. rewrite Head, Hv by (done || lia). done.
  - change (join_with 44 (map dump_member ((k, v) :: w :: l))) with
      (dump_member (k, v) ++ 44 :: join_with 44 (map dump_member (w :: l))) in *.
    rewrite length_app in Hf. cbn [length] in Hf.
    rewrite <-app_assoc. cbn [app]. rewrite Head, Hv by (done || lia). cbn [skip_ws].
    rewrite (eq_refl : is_ws 44 = false), (eq_refl : (44 =? 125) = false), (eq_refl : (44 =? 44) = true).
    rewrite skip_ws_opens by (destruct w, l; eexists _, _; cbn [map join_with dump_member dump_str app]; done).
    rewrite IH by (done || lia). done.
Qed.

Lemma read_back_plain v : plain v = true -> read_back v.
Proof.
  induction v as [| b | z | f | s | l IH | l IH] using json_induction; intros HP fuel r Hf Hr;
    pose proof (opens_not_empty _ (dumps_opens _ HP)) as Hlen;
    (destruct fuel as [|fuel]; [lia|]); clear Hlen; cbn [plain] in HP; try discriminate HP.
  - done.
  - by destruct b.
  - cbn [dumps normalize]. apply parse_value_int; [by apply Z.ltb_lt|done].
  - cbn [dumps normalize]. by apply parse_value_str.
  - cbn [dumps normalize]. destruct l as [|v l]; [done|]. cbn [dumps] in Hf.
    rewrite length_cons, length_app in Hf. cbn [length] in Hf.
    cbn [app parse_value]. rewrite (eq_refl : (91 =? 34) = false), (eq_refl : (91 =? 123) = false), (eq_refl : (91 =? 91) = true).
    rewrite <-app_assoc. cbn [app].
    assert (O : opens (join_with 44 (map dumps (v :: l)))).
    { cbn [forallb] in HP. apply andb_prop in HP as [Pv _].
      destruct l; cbn [map join_with]; [by apply dumps_opens | apply opens_app; by apply dumps_opens]. }
    pose proof (opens_app _ (93 :: r) O) as O'. rewrite (skip_ws_opens _ O').
    pose proof (parse_elements_dumped (v :: l) r ltac:(done)) as PE.
    assert (FR : Forall read_back (v :: l)).
    { apply Forall_forall. intros w Hw. rewrite Forall_forall in IH. apply IH; [done|].
      apply forallb_forall with (x := w) in HP; [done|]. by apply list_elem_of_In. }
    specialize (PE FR HP fuel ltac:(lia)).
    destruct O' as (c & t & E & _ & H93 & _). rewrite E in *. rewrite (proj2 (Z.eqb_neq c 93)) by done.
    rewrite PE. done.
  - apply andb_prop in HP as [HU HP]. apply bool_decide_eq_true in HU.
    cbn [dumps normalize] in *. rewrite !sort_items_fmap in * by done. rewrite map_map in *.
    change (fun x : str * json => dump_str (fst (fst x, dumps (snd x))) ++ 58 :: snd (fst x, dumps (snd x)))
      with dump_member in *.
    rewrite length_cons, length_app in Hf. cbn [length] in Hf.
    assert (FR : Forall (fun kv => read_back (snd kv)) (sort_items l)).
    { rewrite sort_items_perm. apply Forall_forall. intros w Hw. rewrite Forall_forall in IH. apply IH; [done|].
      apply forallb_forall with (x := w) in HP; [|by apply list_elem_of_In]. apply andb_prop in HP as [_ HP]. done. }
    assert (HP' : forallb (fun kv => chars (fst kv) && plain (snd kv)) (sort_items l) = true).
    { apply forallb_forall. intros w Hw. apply forallb_forall with (x := w) in HP; [done|].
      apply list_elem_of_In. rewrite <-(sort_items_perm l). by apply list_elem_of_In. }
    assert (HU' : NoDup (map fst (sort_items l))) by (by rewrite sort_items_perm).
    generalize (sort_items l) as l', Hf, FR, HP', HU'. clear. intros l' Hf FR HP HU.
    destruct l' as [|kv l']; [done|].
    cbn [app parse_value]. rewrite (eq_refl : (123 =? 34) = false), (eq_refl : (123 =? 123) = true).
    rewrite <-app_assoc. cbn [app].
    pose proof (parse_members_dumped (kv :: l') r ltac:(done) FR HP fuel ltac:(lia)) as PM.
    rewrite skip_ws_opens by (destruct kv, l'; eexists _, _; cbn [map join_with dump_member dump_str app]; done).
    assert (E : exists t, join_with 44 (map dump_member (kv :: l')) ++ 125 :: r = 34 :: t).
    { destruct kv, l'; eexists; cbn [map join_with dump_member dump_str app]; done. }
    destruct E as [t E]. rewrite E in *. rewrite (eq_refl : (34 =? 125) = false). rewrite PM. cbn [mbind option_bind].
    rewrite reject_duplicate_keys_unique; [done|]. rewrite map_map. done.
Qed.

Lemma loads_dumps v w :
  plain v = true -> skip_ws w = [] -> number_ends w = true -> loads (dumps v ++ w) = Some (normalize v).
Proof.
  intros HP Hw Hn. unfold loads. pose proof (dumps_opens v HP) as O. pose proof (opens_app _ w O) as O'.
  rewrite (skip_ws_opens _ O').
  replace (starts_with [65279] (dumps v ++ w)) with false.
  - rewrite (read_back_plain v HP) by (rewrite ?length_app; done || lia). cbn [mbind option_bind]. by rewrite Hw.
  - destruct O' as (c & r & -> & _ & _ & H). symmetry. apply bool_decide_eq_false. intros [k Hk]. by injection Hk as ->.
Qed.

Lemma forallb_perm {A} (f : A -> bool) l1 l2 : l1 ≡ₚ l2 -> forallb f l1 = forallb f l2.
Proof. induction 1; cbn [forallb]; try congruence. by rewrite !andb_assoc, (andb_comm (f y)). Qed.

Lemma forallb_ext_in {A} (f g : A -> bool) l :
  Forall (fun x => f x = g x) l -> forallb f l = forallb g l.
Proof. induction 1 as [|x l E _ IH]; [done|]. cbn [forallb]. by rewrite E, IH. Qed.

Lemma forallb_map {A B} (g : A -> B) (f : B -> bool) l : forallb f (map g l) = forallb (fun x => f (g x)) l.
Proof. induction l as [|x l IH]; [done|]. cbn [map forallb]. by rewrite IH. Qed.

Lemma depth_normalize v d : _json_depth (normalize v) d = _json_depth v d.
Proof.
  revert d. induction v as [| b | z | f | s | l IH | l IH] using json_induction; intros d; try done;
    cbn [normalize _json_depth]; destruct (MAX_JSON_DEPTH <? d); try done.
  - rewrite forallb_map. apply forallb_ext_in. eapply Forall_impl; [exact IH|]. intros v H. apply H.
  - rewrite (forallb_perm _ _ _ (sort_items_perm _)), forallb_map. apply forallb_ext_in.
    eapply Forall_impl; [exact IH|]. intros v H. cbn [fst snd]. by rewrite H.
Qed.

Lemma dumps_normalize v : plain v = true -> dumps (normalize v) = dumps v.
Proof.
  induction v as [| b | z | f | s | l IH | l IH] using json_induction; intros HP; try done; cbn [normalize dumps plain] in *.
  - do 3 f_equal. rewrite map_map. apply map_ext_in. intros v Hv. rewrite Forall_forall in IH.
    apply IH; [by apply list_elem_of_In|]. by apply forallb_forall with (x := v) in HP.
  - apply andb_prop in HP as [HU HP]. apply bool_decide_eq_true in HU. do 4 f_equal.
    assert (E : map (fun kv => (fst kv, dumps (snd kv))) (map (fun kv => (fst kv, normalize (snd kv))) l)
      = map (fun kv => (fst kv, dumps (snd kv))) l).
    { rewrite map_map. apply map_ext_in. intros v Hv. cbn [fst snd]. f_equal. rewrite Forall_forall in IH.
      apply IH; [by apply list_elem_of_In|]. apply forallb_forall with (x := v) in HP; [|done]. by apply andb_prop in HP as [_ HP]. }
    apply sort_items_perm_eq.
    + rewrite map_map. cbn [fst]. rewrite sort_items_perm, map_map. exact HU.
    + rewrite <-E. apply fmap_Permutation, sort_items_perm.
Qed.

(** ** Encodability *)

Lemma encodable_join sep l :
  scalar sep = true -> forallb encodable l = true -> encodable (join_with sep l) = true.
Proof.
  intros Hs. induction l as [|a l IH]; [done|]. cbn [forallb]. rewrite andb_true_iff. intros [Ha Hl].
  destruct l as [|b l]; [done|]. change (join_with sep (a :: b :: l)) with (a ++ sep :: join_with sep (b :: l)).
  rewrite encodable_app, Ha. cbn [andb encodable forallb]. rewrite Hs. by apply IH.
Qed.

Lemma encodable_nat_str n : 0 <= n -> encodable (nat_str n) = true.
Proof.
  intros Hn. destruct (nat_str_spec n Hn) as (_ & Hd & _). apply lower_hex_encodable.
  apply forallb_forall. intros x Hx. apply forallb_forall with (x := x) in Hd; [|done].
  unfold is_lower_hex. by rewrite Hd.
Qed.

Lemma scalar_range c : 0 <= c < 55296 -> scalar c = true.
Proof. intros. unfold scalar, is_surrogate. cmp. done. Qed.

Lemma encodable_escape c : scalar c = true -> encodable (escape_char c) = true.
Proof.
  intros Hc. unfold escape_char.
  repeat (match goal with |- context [if ?b then _ else _] => destruct b eqn:? end; [try done|]);
    cbn [encodable forallb]; [|by rewrite Hc].
  apply Z.ltb_lt in Heqb6. assert (0 <= c) by (unfold scalar in Hc; rewrite !andb_true_iff, !Z.leb_le in Hc; lia).
  assert (H1 : 0 <= c / 16 < 16) by (split; [apply Z.div_pos | apply Z.div_lt_upper_bound]; lia).
  pose proof (Z.mod_pos_bound c 16 ltac:(lia)) as H2.
  rewrite !(scalar_range (hex_char _)); [done| |];
    unfold hex_char; match goal with |- context [if ?b then _ else _] => destruct b end; lia.
Qed.

Lemma encodable_dump_str s : encodable s = true -> encodable (dump_str s) = true.
Proof.
  intros Hs. unfold dump_str. cbn [encodable forallb]. rewrite (eq_refl : scalar 34 = true). cbn [andb].
  fold (encodable (flat_map escape_char s ++ [34])). rewrite encodable_app. cbn [encodable forallb].
  rewrite (eq_refl : scalar 34 = true), !andb_true_r.
  induction s as [|c s IH]; [done|]. cbn [flat_map]. cbn [encodable forallb] in Hs. apply andb_prop in Hs as [Hc Hs].
  rewrite encodable_app, encodable_escape by done. by apply IH.
Qed.

Lemma depth_encodable v d : plain v = true -> _json_depth v d = true -> encodable (dumps v) = true.
Proof.
  revert d. induction v as [| b | z | f | s | l IH | l IH] using json_induction; intros d HP HD;
    cbn [_json_depth] in HD; destruct (MAX_JSON_DEPTH <? d); try discriminate HD; cbn [dumps plain] in *.
  - done.
  - by destruct b.
  - unfold int_str. destruct (z <? 0) eqn:S; [apply Z.ltb_lt in S | apply Z.ltb_ge in S].
    + cbn [encodable forallb]. rewrite (eq_refl : scalar 45 = true). apply encodable_nat_str. lia.
    + by apply encodable_nat_str.
  - done.
  - by apply encodable_dump_str.
  - cbn [encodable forallb]. rewrite (eq_refl : scalar 91 = true). cbn [andb].
    fold (encodable (join_with 44 (map dumps l) ++ [93])). rewrite encodable_app.
    rewrite encodable_join; [done|done|]. rewrite forallb_map. apply forallb_forall. intros v Hv.
    rewrite Forall_forall in IH. apply (IH v) with (d := d + 1); [by apply list_elem_of_In| |].
    + by apply forallb_forall with (x := v) in HP.
    + by apply forallb_forall with (x := v) in HD.
  - apply andb_prop in HP as [_ HP]. cbn [encodable forallb]. rewrite (eq_refl : scalar 123 = true). cbn [andb].
    fold (encodable (join_with 44 (map (fun kt => dump_str (fst kt) ++ 58 :: snd kt)
      (sort_items (map (fun kv => (fst kv, dumps (snd kv))) l))) ++ [125])). rewrite encodable_app.
    rewrite encodable_join; [done|done|].
    rewrite forallb_map, (forallb_perm _ _ _ (sort_items_perm _)), forallb_map. cbn [fst snd].
    apply forallb_forall. intros v Hv.
    apply forallb_forall with (x := v) in HP, HD; [|done|done]. apply andb_prop in HP as [_ HP], HD as [HK HD].
    rewrite encodable_app, encodable_dump_str by done. cbn [andb encodable forallb]. rewrite (eq_refl : scalar 58 = true).
    rewrite Forall_forall in IH. apply (IH v) with (d := d + 1); [by apply list_elem_of_In|done|done].
Qed.

(** ** The characters of canonical text *)

(** Every key and every string of a value satisfies [Q]. *)
Fixpoint texts (Q : str -> bool) (v : json) : bool :=
  match v with
  | JStr s => Q s
  | JList l => forallb (texts Q) l
  | JObj l => forallb (fun kv => Q (fst kv) && texts Q (snd kv)) l
  | _ => true
  end.

Lemma hex_char_range n : 0 <= n < 16 -> 48 <= hex_char n < 127.
Proof. intros H. unfold hex_char. destruct (n <? 10) eqn:E; [apply Z.ltb_lt in E|apply Z.ltb_ge in E]; lia. Qed.

(** Text is written with printable ASCII and the characters of its strings. *)
Section Chars.
Context (P : Z -> bool) (printable : forall c, 32 <= c < 127 -> P c = true).

Definition kept_chars (s : str) : bool := forallb (fun c => (c <? 32) || P c) s.

Lemma all_join sep l : P sep = true -> forallb (forallb P) l = true -> forallb P (join_with sep l) = true.
Proof.
  intros Hs. induction l as [|a l IH]; [done|]. cbn [forallb]. rewrite andb_true_iff. intros [Ha Hl].
  destruct l as [|b l]; [done|]. change (join_with sep (a :: b :: l)) with (a ++ sep :: join_with sep (b :: l)).
  rewrite forallb_app, Ha. cbn [forallb]. rewrite Hs. by apply IH.
Qed.

Lemma all_nat_str n : 0 <= n -> forallb P (nat_str n) = true.
Proof.
  intros Hn. destruct (nat_str_spec n Hn) as (_ & Hd & _). apply forallb_forall. intros x Hx.
  apply forallb_forall with (x := x) in Hd; [|done]. apply is_digit_range in Hd. apply printable. lia.
Qed.

Lemma all_escape c : 0 <= c -> (c <? 32) || P c = true -> forallb P (escape_char c) = true.
Proof.
  intros Hc HP. unfold escape_char.
  do 7 (destruct (_ =? _); [cbn [forallb]; rewrite !printable by lia; done|]).
  destruct (c <? 32) eqn:S.
  - apply Z.ltb_lt in S. pose proof (hex_char_range (c mod 16) ltac:(pose proof (Z.mod_pos_bound c 16); lia)).
    assert (0 <= c / 16 < 16) by (Z.to_euclidean_division_equations; lia). pose proof (hex_char_range (c / 16) ltac:(lia)).
    cbn [forallb]. rewrite !printable by lia. done.
  - cbn [forallb orb] in *. by rewrite HP.
Qed.

Lemma all_dump_str s : chars s = true -> kept_chars s = true -> forallb P (dump_str s) = true.
Proof.
  intros Hs HP. unfold dump_str. cbn [forallb]. rewrite forallb_app. cbn [forallb]. rewrite !printable by lia. cbn [andb].
  rewrite andb_true_r. induction s as [|c s IH]; [done|]. cbn [flat_map]. unfold chars, kept_chars in Hs, HP. cbn [forallb] in Hs, HP.
  apply andb_prop in Hs as [Hc Hs], HP as [HPc HP]. rewrite forallb_app, IH, all_escape; try done. by apply Z.leb_le.
Qed.

Lemma all_dumps v : plain v = true -> texts kept_chars v = true -> forallb P (dumps v) = true.
Proof.
  induction v as [| b | z | f | s | l IH | l IH] using json_induction; intros HP HT; cbn [dumps plain texts] in *.
  - cbn. rewrite !printable by lia. done.
  - destruct b; cbn; rewrite !printable by lia; done.
  - unfold int_str. destruct (z <? 0) eqn:S; [apply Z.ltb_lt in S | apply Z.ltb_ge in S].
    + cbn [forallb]. rewrite printable, all_nat_str by lia. done.
    + by apply all_nat_str.
  - done.
  - by apply all_dump_str.
  - cbn [forallb]. rewrite forallb_app. cbn [forallb]. rewrite !printable by lia. rewrite all_join; [done|by apply printable|].
    rewrite forallb_map. apply forallb_forall. intros v Hv.
    rewrite Forall_forall in IH. apply (IH v); [by apply list_elem_of_In| |].
    + by apply forallb_forall with (x := v) in HP.
    + by apply forallb_forall with (x := v) in HT.
  - apply andb_prop in HP as [_ HP]. cbn [forallb]. rewrite forallb_app. cbn [forallb]. rewrite !printable by lia.
    rewrite all_join; [done|by apply printable|].
    rewrite forallb_map, (forallb_perm _ _ _ (sort_items_perm _)), forallb_map. cbn [fst snd].
    apply forallb_forall. intros v Hv.
    apply forallb_forall with (x := v) in HP; [|done]. apply andb_prop in HP as [HK HP].
    apply forallb_forall with (x := v) in HT; [|done]. apply andb_prop in HT as [HQ HT].
    rewrite forallb_app, all_dump_str by done. cbn [forallb]. rewrite printable by lia.
    rewrite Forall_forall in IH. apply (IH v); [by apply list_elem_of_In|done|done].
Qed.
End Chars.

Lemma texts_all Q v : (forall s, Q s = true) -> texts Q v = true.
Proof.
  intros HQ. induction v as [| b | z | f | s | l IH | l IH] using json_induction; cbn [texts]; try done; rewrite Forall_forall in IH;
    apply forallb_forall; intros x Hx; rewrite ?HQ; apply IH; by apply list_elem_of_In.
Qed.

(** Canonical text is one line. *)
Definition one_line (s : str) : bool := forallb (fun c => negb (c =? 10)) s.

Lemma one_line_cons c s : one_line (c :: s) = negb (c =? 10) && one_line s.
Proof. done. Qed.

Lemma dumps_one_line v : plain v = true -> one_line (dumps v) = true.
Proof.
  intros HP. apply all_dumps; [|done|].
  - intros c Hc. apply negb_true_iff, Z.eqb_neq. lia.
  - apply texts_all. intros s. apply forallb_forall. intros c _. destruct (c <? 32) eqn:S; [done|].
    apply Z.ltb_ge in S. apply negb_true_iff, Z.eqb_neq. lia.
Qed.

(** ASCII text, and the size of its encoding. *)
Definition ascii_text (s : str) : bool := forallb (fun c => (0 <=? c) && (c <? 128)) s.

Lemma dumps_ascii v : plain v = true -> texts ascii_text v = true -> ascii_text (dumps v) = true.
Proof.
  intros HP HT. apply all_dumps; [|done|].
  - intros c Hc. apply andb_true_iff. rewrite Z.leb_le, Z.ltb_lt. lia.
  - revert HT. clear HP. assert (HQ : forall s, ascii_text s = true -> kept_chars (fun c => (0 <=? c) && (c <? 128)) s = true).
    { intros s H. apply forallb_forall. intros c Hc. apply forallb_forall with (x := c) in H; [|done]. rewrite H. apply orb_true_r. }
    induction v as [| b | z | f | s | l IH | l IH] using json_induction; cbn [texts]; try done; [by apply HQ| |]; intros HT;
      rewrite Forall_forall in IH; apply forallb_forall; intros x Hx; apply forallb_forall with (x := x) in HT; try done.
    + apply IH; [by apply list_elem_of_In|done].
    + apply andb_prop in HT as [HK HT]. rewrite HQ by done. apply IH; [by apply list_elem_of_In|done].
Qed.

Definition sum_sizes {A} (f : A -> Z) (l : list A) : Z := foldr (fun a n => f a + n) 0 l.

Lemma sum_sizes_perm {A} (f : A -> Z) l1 l2 : l1 ≡ₚ l2 -> sum_sizes f l1 = sum_sizes f l2.
Proof. unfold sum_sizes. induction 1; cbn [foldr] in *; lia. Qed.
Lemma sum_sizes_map {A B} (g : A -> B) f (l : list A) : sum_sizes f (map g l) = sum_sizes (fun a => f (g a)) l.
Proof. unfold sum_sizes. induction l as [|a l IH]; cbn [map foldr] in *; lia. Qed.
Lemma sum_sizes_le {A} (f g : A -> Z) l : (forall a, a ∈ l -> f a <= g a) -> sum_sizes f l <= sum_sizes g l.
Proof.
  induction l as [|a l IH]; intros H; cbn; [lia|]. assert (f a <= g a) by (apply H; by left).
  assert (sum_sizes f l <= sum_sizes g l) by (apply IH; intros b Hb; apply H; by right). unfold sum_sizes in *. lia.
Qed.
Lemma sum_sizes_const {A} (c : Z) (l : list A) : sum_sizes (fun _ => c) l = c * len l.
Proof. induction l as [|a l IH]; [change (0 = c * 0); lia|]. unfold sum_sizes in *. cbn. rewrite IH, len_cons. lia. Qed.

Lemma len_join sep l : len (join_with sep l) <= sum_sizes (fun s => len s + 1) l.
Proof.
  induction l as [|a l IH]; [done|]. destruct l as [|b l]; [cbn; lia|].
  change (join_with sep (a :: b :: l)) with (a ++ sep :: join_with sep (b :: l)). rewrite len_app, len_cons.
  unfold sum_sizes in *. cbn [foldr] in *. lia.
Qed.

(** A bound of the size of a value's text, which does not depend on the order of
    keys. *)
Fixpoint text_size (v : json) : Z :=
  match v with
  | JList l => 2 + sum_sizes (fun v => text_size v + 1) l
  | JObj l => 2 + sum_sizes (fun kv => len (dump_str (fst kv)) + 2 + text_size (snd kv)) l
  | v => len (dumps v)
  end.

Lemma dumps_size v : len (dumps v) <= text_size v.
Proof.
  induction v as [| b | z | f | s | l IH | l IH] using json_induction; try (cbn [text_size]; lia); rewrite Forall_forall in IH;
    cbn [dumps text_size]; rewrite len_cons, len_app, len_cons, len_nil;
    match goal with |- context [join_with 44 ?l] => pose proof (len_join 44 l) end.
  - rewrite sum_sizes_map in H.
    assert (sum_sizes (fun v => len (dumps v) + 1) l <= sum_sizes (fun v => text_size v + 1) l); [|lia].
    apply sum_sizes_le. intros v Hv. specialize (IH v Hv). lia.
  - rewrite sum_sizes_map, (sum_sizes_perm _ _ _ (sort_items_perm _)), sum_sizes_map in H. cbn [fst snd] in H.
    match type of H with _ <= ?X => assert (X <= sum_sizes (fun kv => len (dump_str (fst kv)) + 2 + text_size (snd kv)) l); [|lia] end.
    apply sum_sizes_le. intros v Hv. specialize (IH v Hv). rewrite len_app, len_cons. lia.
Qed.

(** Text without quotes, backslashes and control characters is written as it is. *)
Definition unescaped (s : str) : bool := forallb (fun c => (32 <=? c) && negb (c =? 34) && negb (c =? 92)) s.

Lemma len_dump_str s : unescaped s = true -> len (dump_str s) = len s + 2.
Proof.
  intros H. unfold dump_str. rewrite len_cons, len_app, len_cons, len_nil. assert (flat_map escape_char s = s) as ->; [|lia].
  induction s as [|c s IH]; [done|]. unfold unescaped in H. cbn [forallb] in H. rewrite !andb_true_iff in H. destruct H as [[[H1 H2] H3] Hs].
  apply Z.leb_le in H1. apply negb_true_iff in H2, H3. cbn [flat_map]. rewrite IH by done. unfold escape_char. rewrite H2, H3. by cmp.
Qed.

Lemma canonical_size v b :
  plain v = true -> texts ascii_text v = true -> canonical_json v = Some b -> len b <= text_size v.
Proof.
  intros HP HT H. unfold canonical_json in H. rewrite utf8_encode_ascii in H by (by apply dumps_ascii). injection H as <-.
  rewrite <-dumps_size. unfold len. by rewrite length_map.
Qed.

Lemma utf8_one_line s b : utf8_encode s = Some b -> one_line s = true -> x0a ∉ b.
Proof.
  revert b. induction s as [|c s IH]; cbn [utf8_encode]; intros b H O.
  - injection H as <-. apply not_elem_of_nil.
  - rewrite one_line_cons in O. apply andb_prop in O as [Oc Os]. apply negb_true_iff, Z.eqb_neq in Oc.
    apply bind_Some in H as (bc & Hc & H). apply bind_Some in H as (r & Hr & [= <-]).
    apply not_elem_of_app. split; [|by eapply IH]. intros X. unfold utf8_char in Hc.
    repeat (match type of Hc with context [if ?b then _ else _] => destruct b eqn:? end; simplify_eq);
      rewrite ?orb_false_iff, ?Z.ltb_lt, ?Z.ltb_ge in *; destruct_and?;
      apply list_elem_of_In in X; cbn [In] in X; destruct_or? X; try done;
      apply (f_equal bz) in X; rewrite bz_zb in X; change (bz x0a) with 10 in X;
      Z.to_euclidean_division_equations; lia.
Qed.

Lemma canonical_one_line v b : plain v = true -> canonical_json v = Some b -> x0a ∉ b.
Proof. intros HP Hb. eapply utf8_one_line; [exact Hb|]. by apply dumps_one_line. Qed.

Lemma canonical_json_some v d :
  plain v = true -> _json_depth v d = true -> exists b, canonical_json v = Some b.
Proof. intros HP HD. apply utf8_encode_encodable. by eapply depth_encodable. Qed.

(** The line written for a value is read back as the value. *)
Lemma load_canonical v b :
  plain v = true -> _json_depth v 0 = true -> canonical_json v = Some b ->
  load_json_bytes (b ++ [x0a]) = Some (normalize v).
Proof.
  intros HP HD Hb. unfold load_json_bytes.
  assert (E : utf8_encode (dumps v ++ [10]) = Some (b ++ [x0a])).
  { rewrite utf8_encode_app. unfold canonical_json in Hb. by rewrite Hb. }
  rewrite (utf8_decode_encode _ _ E). cbn [mbind option_bind].
  rewrite loads_dumps by done. cbn [mbind option_bind]. by rewrite depth_normalize, HD.
Qed.

Lemma canonical_inj v w b :
  plain v = true -> _json_depth v 0 = true -> plain w = true -> _json_depth w 0 = true ->
  canonical_json v = Some b -> canonical_json w = Some b -> normalize v = normalize w.
Proof.
  intros PV DV PW DW HV HW. pose proof (load_canonical v b PV DV HV). pose proof (load_canonical w b PW DW HW). congruence.
Qed.

(** ** The fuel of the reader is enough *)

Lemma skip_ws_length s : (length (skip_ws s) <= length s)%nat.
Proof. induction s as [|c s IH]; [done|]. cbn [skip_ws]. destruct (is_ws c); cbn [length]; lia. Qed.

Lemma scan_string_length n : forall s t r,
  (length s <= n)%nat -> scan_string s = Some (t, r) -> (length r < length s)%nat.
Proof.
  assert (P : forall c m (t r : str), push c m = Some (t, r) -> exists t', m = Some (t', r)).
  { intros c [[s' r']|] t r H; [|done]. injection H as <- <-. eauto. }
  induction n as [|n IH]; intros [|c s] t r Hn H; cbn [length] in *; try done; try lia.
  cbn [scan_string] in H.
  repeat (match type of H with
    | (if ?b then _ else _) = _ => destruct b
    | match ?x with _ => _ end = _ => destruct x
    | None = Some _ => discriminate H
    | Some _ = Some _ => injection H as <- <-
    | push _ _ = _ => apply P in H as [? H]; apply IH in H; cbn [length] in *
    end); cbn [length] in *; lia.
Qed.

Lemma span_digits_length s d r : span_digits s = (d, r) -> (length r + length d = length s)%nat.
Proof.
  revert d r; induction s as [|c s IH]; intros d r; cbn [span_digits]; [by intros [= <- <-]|].
  destruct (is_digit c); [|by intros [= <- <-]]. destruct (span_digits s) as [d' r'] eqn:E.
  intros [= <- <-]. specialize (IH _ _ eq_refl). cbn [length]. lia.
Qed.

Lemma scan_number_length s n r : scan_number s = Some (n, r) -> (length r < length s)%nat.
Proof.
  unfold scan_number. intros H. destruct (scan_int s) as [[[neg d] r1]|] eqn:Ei; [|done].
  destruct (scan_frac r1) as [f r2] eqn:Ef. destruct (scan_exp r2) as [e r3] eqn:Ee. injection H as <- <-.
  assert (L1 : (length r1 < length s)%nat).
  { assert (Core : forall neg' t, match t with [] => None | c :: r0 => if c =? 48 then Some (neg', [48], r0)
        else if is_digit c then let '(d0, r0) := span_digits t in Some (neg', d0, r0) else None end = Some (neg, d, r1) ->
        (length r1 < length t)%nat).
    { intros neg' [|c t]; [done|]. destruct (c =? 48); [intros [= _ _ <-]; cbn [length]; lia|].
      destruct (is_digit c) eqn:D; [|done]. cbn [span_digits]. rewrite D.
      destruct (span_digits t) as [d0 r0] eqn:Sp. intros [= _ _ <-]. apply span_digits_length in Sp. cbn [length]. lia. }
    unfold scan_int in Ei. destruct s as [|c s]; [done|]. destruct (c =? 45); [apply (Core true s) in Ei; cbn [length]; lia | exact (Core false (c :: s) Ei)]. }
  assert (L2 : (length r2 <= length r1)%nat).
  { unfold scan_frac in Ef. destruct r1 as [|c r1]; [by injection Ef as <- <-|].
    destruct (c =? 46); [|by injection Ef as <- <-].
    destruct (span_digits r1) as [[|d0 ds] r0] eqn:Sp; injection Ef as <- <-; [lia|].
    apply span_digits_length in Sp. cbn [length] in *. lia. }
  assert (L3 : (length r3 <= length r2)%nat); [|lia].
  unfold scan_exp in Ee. destruct r2 as [|c r2]; [by injection Ee as <- <-|].
  destruct ((c =? 101) || (c =? 69)); [|by injection Ee as <- <-].
  destruct (match r2 with [] => (false, r2) | g :: r' => if g =? 45 then (true, r') else if g =? 43 then (false, r') else (false, r2) end)
    as [ng r4] eqn:Eg.
  assert (L4 : (length r4 <= length r2)%nat).
  { destruct r2 as [|g r']; [by injection Eg as <- <-|]. destruct (g =? 45), (g =? 43); injection Eg as <- <-; cbn [length]; lia. }
  destruct (span_digits r4) as [[|d0 ds] r0] eqn:Sp; injection Ee as <- <-; [lia|].
  apply span_digits_length in Sp. cbn [length] in *. lia.
Qed.

Lemma parse_number_length s v r : parse_number s = Some (v, r) -> (length r < length s)%nat.
Proof.
  unfold parse_number. destruct (scan_number s) as [[n r1]|] eqn:E; [|done]. apply scan_number_length in E. intros H.
  assert (r = r1) as ->; [|done].
  destruct (n_frac n), (n_exp n); apply obind_some in H as (? & _ & H); by injection H as _ ->.
Qed.

Lemma after_length lit s r : after lit s = Some r -> u lit <> [] -> (length r < length s)%nat.
Proof.
  unfold after, starts_with. case_bool_decide as P; [|done]. intros [= <-] Hne. destruct P as [k ->].
  rewrite drop_app_length, length_app. destruct (u lit); [done|]. cbn [length]. lia.
Qed.

(** Every value, member and element read takes at least one character. *)
Lemma parse_length fuel :
  (forall s v r, parse_value fuel s = Some (v, r) -> (length r < length s)%nat) /\
  (forall s v r, parse_members fuel s = Some (v, r) -> (length r < length s)%nat) /\
  (forall s v r, parse_elements fuel s = Some (v, r) -> (length r < length s)%nat).
Proof.
  induction fuel as [|fuel (IV & IM & IE)]; [done|]. split_and!; intros s v r H.
  - destruct s as [|c s]; [done|]. cbn [parse_value] in H. cbn [length]. pose proof (skip_ws_length s) as W.
    destruct (c =? 34).
    { apply obind_some in H as ([t r'] & Hs & [= <- <-]). apply (scan_string_length (length s)) in Hs; lia. }
    destruct (c =? 123).
    { destruct (skip_ws s) as [|d s']; [done|]. cbn [length] in W. destruct (d =? 125); [injection H as <- <-; lia|].
      apply obind_some in H as ([k r'] & Hm & H). apply obind_some in H as (k' & _ & [= <- <-]). apply IM in Hm. cbn [length] in Hm. lia. }
    destruct (c =? 91).
    { destruct (skip_ws s) as [|d s']; [done|]. cbn [length] in W. destruct (d =? 93); [injection H as <- <-; lia|].
      apply obind_some in H as ([k r'] & Hm & [= <- <-]). apply IE in Hm. cbn [length] in Hm. lia. }
    destruct (after "null" (c :: s)) eqn:A1; [injection H as <- <-; by apply after_length in A1|].
    destruct (after "true" (c :: s)) eqn:A2; [injection H as <- <-; by apply after_length in A2|].
    destruct (after "false" (c :: s)) eqn:A3; [injection H as <- <-; by apply after_length in A3|].
    destruct (after "NaN" (c :: s)), (after "Infinity" (c :: s)), (after "-Infinity" (c :: s)); try done.
    by apply parse_number_length in H.
  - destruct s as [|c s]; [done|]. cbn [parse_members] in H. cbn [length].
    destruct (c =? 34); [|done]. apply obind_some in H as ([k r1] & Hs & H). apply (scan_string_length (length s)) in Hs; [|lia].
    pose proof (skip_ws_length r1). destruct (skip_ws r1) as [|d r2]; [done|]. cbn [length] in *. destruct (d =? 58); [|done].
    apply obind_some in H as ([w r3] & Hv & H). apply IV in Hv. pose proof (skip_ws_length r2). pose proof (skip_ws_length r3).
    destruct (skip_ws r3) as [|e r4]; [done|]. cbn [length] in *. destruct (e =? 125); [injection H as <- <-; lia|].
    destruct (e =? 44); [|done]. apply obind_some in H as ([kvs r5] & Hm & [= <- <-]). apply IM in Hm.
    pose proof (skip_ws_length r4). lia.
  - cbn [parse_elements] in H. apply obind_some in H as ([w r3] & Hv & H). apply IV in Hv. pose proof (skip_ws_length r3).
    destruct (skip_ws r3) as [|e r4]; [done|]. cbn [length] in *. destruct (e =? 93); [injection H as <- <-; lia|].
    destruct (e =? 44); [|done]. apply obind_some in H as ([kvs r5] & Hm & [= <- <-]). apply IE in Hm.
    pose proof (skip_ws_length r4). lia.
Qed.

Lemma parse_fuel f1 :
  forall f2 s,
  ((2 * length s < f1)%nat -> (2 * length s < f2)%nat -> parse_value f1 s = parse_value f2 s) /\
  ((2 * length s < f1)%nat -> (2 * length s < f2)%nat -> parse_members f1 s = parse_members f2 s) /\
  ((2 * length s + 1 < f1)%nat -> (2 * length s + 1 < f2)%nat -> parse_elements f1 s = parse_elements f2 s).
Proof.
  induction f1 as [|f1 IH]; [intros f2 s; split_and!; intros; lia|]. intros [|f2] s; [split_and!; intros; lia|].
  split_and!; intros H1 H2.
  - destruct s as [|c s]; [done|]. cbn [parse_value]. cbn [length] in *. pose proof (skip_ws_length s) as W.
    destruct (c =? 34); [done|]. destruct (skip_ws s) as [|d s']; [by repeat case_match|]. cbn [length] in W.
    destruct (IH f2 (d :: s')) as (_ & EM & EE). cbn [length] in *. rewrite EM, EE by lia. done.
  - destruct s as [|c s]; [done|]. cbn [parse_members]. cbn [length] in *.
    destruct (c =? 34); [|done]. destruct (scan_string s) as [[k r1]|] eqn:Hs; [|done]. cbn [mbind option_bind].
    apply (scan_string_length (length s)) in Hs; [|lia].
    pose proof (skip_ws_length r1). destruct (skip_ws r1) as [|d r2]; [done|]. cbn [length] in *. destruct (d =? 58); [|done].
    pose proof (skip_ws_length r2). destruct (IH f2 (skip_ws r2)) as (EV & _ & _). rewrite EV by lia.
    destruct (parse_value f2 (skip_ws r2)) as [[w r3]|] eqn:Hv; [|done]. cbn [mbind option_bind].
    apply parse_length in Hv. pose proof (skip_ws_length r3).
    destruct (skip_ws r3) as [|e r4]; [done|]. cbn [length] in *. destruct (e =? 125); [done|]. destruct (e =? 44); [|done].
    pose proof (skip_ws_length r4). destruct (IH f2 (skip_ws r4)) as (_ & EM & _). by rewrite EM by lia.
  - cbn [parse_elements]. destruct (IH f2 s) as (EV & _ & _). rewrite EV by lia.
    destruct (parse_value f2 s) as [[w r3]|] eqn:Hv; [|done]. cbn [mbind option_bind].
    apply parse_length in Hv. pose proof (skip_ws_length r3).
    destruct (skip_ws r3) as [|e r4]; [done|]. cbn [length] in *. destruct (e =? 93); [done|]. destruct (e =? 44); [|done].
    pose proof (skip_ws_length r4). destruct (IH f2 (skip_ws r4)) as (_ & _ & EE). by rewrite EE by lia.
Qed.

Lemma parse_value_fuel f s : (2 * length s < f)%nat -> parse_value f s = parse_value (S (2 * length s)) s.
Proof. intros H. apply parse_fuel; lia. Qed.

(** ** What the reader accepts *)

(** Distinct keys in every dict and integers of at most nineteen digits. *)
Fixpoint strict (v : json) : bool :=
  match v with
  | JInt z => Z.abs z <? 10 ^ 19
  | JList l => forallb strict l
  | JObj l => unique_keys l && forallb (fun kv => strict (snd kv)) l
  | _ => true
  end.

Lemma reject_duplicate_keys_ok pairs d :
  _reject_duplicate_keys pairs = Some d -> d = pairs /\ NoDup (map fst pairs).
Proof.
  revert d. induction pairs as [|kv l IH] using rev_ind; intros d H.
  - injection H as <-. split; [done|constructor].
  - unfold _reject_duplicate_keys in *. rewrite foldl_app in H. cbn [foldl] in H.
    apply obind_some in H as (d0 & H0 & H). destruct (IH d0 H0) as [-> N].
    destruct (existsb _ l) eqn:X; [done|]. injection H as <-. split; [done|].
    rewrite map_app. apply NoDup_app. split; [done|]. split; [|apply NoDup_singleton].
    intros k Hk Hk'. apply list_elem_of_singleton in Hk' as ->.
    apply list_elem_of_fmap in Hk as (e & Ek & He). apply list_elem_of_In in He.
    assert (existsb (fun e => str_eqb (fst e) (fst kv)) l = true); [|congruence].
    apply existsb_exists. exists e. split; [done|]. by apply bool_decide_eq_true.
Qed.

Lemma span_digits_digits s d r : span_digits s = (d, r) -> forallb is_digit d = true.
Proof.
  revert d r; induction s as [|c s IH]; intros d r; cbn [span_digits]; [by intros [= <- <-]|].
  destruct (is_digit c) eqn:D; [|by intros [= <- <-]]. destruct (span_digits s) as [d' r'] eqn:E.
  intros [= <- <-]. cbn [forallb]. by rewrite D, (IH _ _ eq_refl).
Qed.

Lemma scan_int_digits s neg d r : scan_int s = Some (neg, d, r) -> forallb is_digit d = true.
Proof.
  unfold scan_int.
  destruct (match s with [] => (false, s) | c :: r => if c =? 45 then (true, r) else (false, s) end) as [ng t].
  destruct t as [|c t]; [done|]. destruct (c =? 48); [by intros [= _ <- _]|].
  destruct (is_digit c); [|done]. destruct (span_digits (c :: t)) as [d0 r0] eqn:Sp. intros [= _ <- _].
  by apply span_digits_digits in Sp.
Qed.

Lemma parse_number_strict s v r : parse_number s = Some (v, r) -> strict v = true.
Proof.
  unfold parse_number, scan_number. intros H.
  destruct (scan_int s) as [[[neg d] r1]|] eqn:E; [|done]. apply scan_int_digits in E.
  destruct (scan_frac r1) as [f r2], (scan_exp r2) as [e r3]. cbn [n_frac n_exp] in H.
  destruct f, e; apply obind_some in H as (x & Hx & [= <- <-]); try done.
  unfold _parse_json_integer in Hx. cbn [n_int n_neg] in Hx. destruct (_ <? _) eqn:L; [done|]. injection Hx as <-.
  unfold MAX_JSON_INTEGER_DIGITS in L. apply Z.ltb_ge in L. pose proof (dec_value_bound d E) as B.
  cbn [strict]. apply Z.ltb_lt. assert (10 ^ len d <= 10 ^ 19) by (apply Z.pow_le_mono_r; lia).
  destruct neg; lia.
Qed.

Lemma parse_strict fuel :
  (forall s v r, parse_value fuel s = Some (v, r) -> strict v = true) /\
  (forall s kvs r, parse_members fuel s = Some (kvs, r) -> forallb (fun kv => strict (snd kv)) kvs = true) /\
  (forall s vs r, parse_elements fuel s = Some (vs, r) -> forallb strict vs = true).
Proof.
  induction fuel as [|fuel (IV & IM & IE)]; [done|]. split_and!; intros s v r H.
  - destruct s as [|c s]; [done|]. cbn [parse_value] in H.
    destruct (c =? 34); [by apply obind_some in H as ([t r'] & _ & [= <- <-])|].
    destruct (c =? 123).
    { destruct (skip_ws s) as [|d s']; [done|]. destruct (d =? 125); [by injection H as <- <-|].
      apply obind_some in H as ([k r'] & Hm & H). apply obind_some in H as (k' & Hk & [= <- <-]).
      apply reject_duplicate_keys_ok in Hk as [-> N]. cbn [strict]. unfold unique_keys.
      rewrite bool_decide_true by done. by eapply IM. }
    destruct (c =? 91).
    { destruct (skip_ws s) as [|d s']; [done|]. destruct (d =? 93); [by injection H as <- <-|].
      apply obind_some in H as ([k r'] & Hm & [= <- <-]). by eapply IE. }
    repeat (destruct (after _ (c :: s)); [by injection H as <- <- || done|]).
    by apply parse_number_strict in H.
  - destruct s as [|c s]; [done|]. cbn [parse_members] in H. destruct (c =? 34); [|done].
    apply obind_some in H as ([k r1] & _ & H). destruct (skip_ws r1) as [|d r2]; [done|]. destruct (d =? 58); [|done].
    apply obind_some in H as ([w r3] & Hv & H). apply IV in Hv.
    destruct (skip_ws r3) as [|e r4]; [done|]. destruct (e =? 125); [injection H as <- <-; cbn; by rewrite Hv|].
    destruct (e =? 44); [|done]. apply obind_some in H as ([kvs r5] & Hm & [= <- <-]). apply IM in Hm.
    cbn [forallb snd]. by rewrite Hv, Hm.
  - cbn [parse_elements] in H. apply obind_some in H as ([w r3] & Hv & H). apply IV in Hv.
    destruct (skip_ws r3) as [|e r4]; [done|]. destruct (e =? 93); [injection H as <- <-; cbn; by rewrite Hv|].
    destruct (e =? 44); [|done]. apply obind_some in H as ([kvs r5] & Hm & [= <- <-]). apply IE in Hm.
    cbn [forallb]. by rewrite Hv, Hm.
Qed.

Lemma load_json_strict data v :
  load_json_bytes data = Some v -> strict v = true /\ _json_depth v 0 = true.
Proof.
  unfold load_json_bytes, loads. intros H. apply obind_some in H as (text & _ & H). apply obind_some in H as (w & Hw & H).
  destruct (_json_depth w 0) eqn:D; [|done]. injection H as <-. split; [|done].
  destruct (starts_with _ _); [done|]. apply obind_some in Hw as ([w' r] & Hp & Hw). apply parse_strict in Hp.
  destruct (skip_ws r); [by injection Hw as ->|done].
Qed.

Fixpoint has_float (v : json) : bool :=
  match v with
  | JFloat _ => true
  | JList l => existsb has_float l
  | JObj l => existsb (fun kv => has_float (snd kv)) l
  | _ => false
  end.

Lemma strict_plain v d :
  strict v = true -> _json_depth v d = true -> has_float v = false -> plain v = true.
Proof.
  revert d. induction v as [| b | z | f | s | l IH | l IH] using json_induction; intros d HS HD HF;
    cbn [_json_depth] in HD; destruct (MAX_JSON_DEPTH <? d); try discriminate HD; cbn [strict plain has_float] in *; try done.
  - by apply encodable_chars.
  - apply forallb_forall. intros v Hv. rewrite Forall_forall in IH. apply (IH v) with (d := d + 1).
    + by apply list_elem_of_In.
    + by apply forallb_forall with (x := v) in HS.
    + by apply forallb_forall with (x := v) in HD.
    + apply not_true_is_false. intros T. rewrite <-not_true_iff_false in HF. apply HF. apply existsb_exists. eauto.
  - apply andb_prop in HS as [HU HS]. rewrite HU. cbn [andb].
    apply forallb_forall. intros v Hv. rewrite Forall_forall in IH.
    apply forallb_forall with (x := v) in HD; [|done]. apply andb_prop in HD as [HK HD].
    rewrite encodable_chars by done. cbn [andb]. apply (IH v) with (d := d + 1).
    + by apply list_elem_of_In.
    + by apply forallb_forall with (x := v) in HS.
    + done.
    + apply not_true_is_false. intros T. rewrite <-not_true_iff_false in HF. apply HF. apply existsb_exists. eauto.
Qed.

(** ** Dicts up to the order of keys *)

Lemma str_eqb_eq a b : str_eqb a b = true <-> a = b.
Proof. apply bool_decide_eq_true. Qed.
Lemma str_eqb_refl a : str_eqb a a = true.
Proof. by apply str_eqb_eq. Qed.

Lemma obj_get_elem l k v : NoDup (map fst l) -> (k, v) ∈ l -> obj_get l k = Some v.
Proof.
  induction l as [|[k' v'] l IH]; intros N H; [set_solver|]. cbn [map fst] in N. apply NoDup_cons in N as [N1 N2].
  cbn [obj_get]. destruct (str_eqb k' k) eqn:X.
  - apply str_eqb_eq in X as ->. apply elem_of_cons in H as [[= ->] | H]; [done|].
    exfalso. apply N1. apply list_elem_of_fmap. by exists (k, v).
  - apply IH; [done|]. apply elem_of_cons in H as [[= -> ->] | H]; [|done]. by rewrite str_eqb_refl in X.
Qed.

Lemma obj_get_some l k v : obj_get l k = Some v -> (k, v) ∈ l.
Proof.
  induction l as [|[k' v'] l IH]; cbn [obj_get]; [done|]. destruct (str_eqb k' k) eqn:X.
  - apply str_eqb_eq in X as ->. intros [= ->]. set_solver.
  - intros H. apply IH in H. set_solver.
Qed.

Lemma obj_get_perm l1 l2 k : NoDup (map fst l1) -> l1 ≡ₚ l2 -> obj_get l1 k = obj_get l2 k.
Proof.
  intros N P. assert (N2 : NoDup (map fst l2)) by (by rewrite <-P).
  destruct (obj_get l1 k) as [v|] eqn:E1, (obj_get l2 k) as [w|] eqn:E2; try done.
  - apply obj_get_some in E1. rewrite P in E1. apply obj_get_elem in E1; [congruence|done].
  - apply obj_get_some in E1. rewrite P in E1. apply obj_get_elem in E1; [congruence|done].
  - apply obj_get_some in E2. rewrite <-P in E2. apply obj_get_elem in E2; [congruence|done].
Qed.

Lemma same_fields_spec fields l :
  same_fields fields l = true <-> (forall k, k ∈ fields <-> k ∈ map fst l).
Proof.
  unfold same_fields. rewrite andb_true_iff, !forallb_forall. split.
  - intros [H1 H2] k. split; intros Hk.
    + apply list_elem_of_In, H1, existsb_exists in Hk as (kv & Hkv & Ek). apply str_eqb_eq in Ek as <-.
      apply list_elem_of_fmap. exists kv. split; [done|]. by apply list_elem_of_In.
    + apply list_elem_of_fmap in Hk as (kv & -> & Hkv). apply list_elem_of_In, H2, existsb_exists in Hkv as (f & Hf & Ek).
      apply str_eqb_eq in Ek as ->. by apply list_elem_of_In.
  - intros H. split.
    + intros f Hf. apply list_elem_of_In, H, list_elem_of_fmap in Hf as (kv & -> & Hkv).
      apply existsb_exists. exists kv. split; [by apply list_elem_of_In | apply str_eqb_refl].
    + intros kv Hkv. apply existsb_exists. exists (fst kv). split; [|apply str_eqb_refl].
      apply list_elem_of_In, H, list_elem_of_fmap. exists kv. split; [done|]. by apply list_elem_of_In.
Qed.

(** A dict with given fields is, up to order, those fields with its values. *)
Lemma dict_of_fields fields l :
  NoDup fields -> NoDup (map fst l) -> same_fields fields l = true ->
  l ≡ₚ map (fun f => (f, default JNull (obj_get l f))) fields.
Proof.
  intros NF NL H. rewrite same_fields_spec in H. apply NoDup_Permutation.
  - by eapply NoDup_fmap_1.
  - apply (NoDup_fmap_1 fst). by rewrite <-list_fmap_compose, list_fmap_id.
  - intros [k v]. split; intros Hkv.
    + apply list_elem_of_fmap. exists k. split; [by rewrite (obj_get_elem l k v)|].
      apply H, list_elem_of_fmap. by exists (k, v).
    + apply list_elem_of_fmap in Hkv as (f & [= -> ->] & Hf). apply H, list_elem_of_fmap in Hf as ([k' v'] & -> & Hkv).
      cbn [fst]. by rewrite (obj_get_elem l k' v').
Qed.

Lemma dumps_obj_perm l1 l2 : NoDup (map fst l1) -> l1 ≡ₚ l2 -> dumps (JObj l1) = dumps (JObj l2).
Proof.
  intros N P. cbn [dumps]. do 4 f_equal. apply sort_items_perm_eq; [by rewrite map_map|]. by apply fmap_Permutation.
Qed.

Lemma strict_unique l : strict (JObj l) = true -> NoDup (map fst l).
Proof. cbn [strict]. rewrite andb_true_iff. intros [H _]. by apply bool_decide_eq_true in H. Qed.

Lemma sha256_encodable s : is_sha256 s = true -> encodable s = true.
Proof. unfold is_sha256. rewrite andb_true_iff. intros [_ H]. by apply lower_hex_encodable. Qed.

Definition dict_items (v : json) : list (str * json) := match v with JObj l => l | _ => [] end.


Definition sample_value : json :=
  JObj [(u "b", JList [JInt (-42); JNull; JStr [233; 128512; 10; 34]]); (u "a", JObj []); (u "ab", JBool true)].


(** A value that [load_json_bytes] returns has distinct keys in every dict,
    integers of at most nineteen digits, nesting of at most thirty-two and
    encodable text; without floats it has a canonical encoding, and reading that
    encoding gives the same value up to the order of keys. *)
Theorem load_json_bytes_strict data v :
  load_json_bytes data = Some v ->
  strict v = true /\ _json_depth v 0 = true /\
  (has_float v = false -> exists b, canonical_json v = Some b /\ load_json_bytes (b ++ [x0a]) = Some (normalize v)).
Proof.
  intros H. destruct (load_json_strict data v H) as [HS HD]. split; [done|]. split; [done|]. intros HF.
  pose proof (strict_plain v 0 HS HD HF) as HP. destruct (canonical_json_some v 0 HP HD) as [b Hb].
  exists b. split; [done|]. by apply load_canonical.
Qed.

Lemma load_json_bytes_strict_witness :
  exists v, load_json_bytes (bstr " [1, {}, -0] ") = Some v /\ strict v = true /\ _json_depth v 0 = true.
Proof.
  eexists. assert (H : load_json_bytes (bstr " [1, {}, -0] ") = Some (JList [JInt 1; JObj []; JInt 0])) by (vm_compute; reflexivity).
  split; [exact H|]. destruct (load_json_bytes_strict _ _ H) as (HS & HD & _). split; [exact HS | exact HD].
Defined.

(** The reader refuses repeated keys, constants, long integers, infinite floats
    and lone surrogates, and reads a surrogate pair as one character. *)
Example loads_examples :
  map (fun s => loads (u s)) ["NaN"; "12345678901234567890"; "1e400"; "[1,]"; "01"]%string = [None; None; None; None; None] /\
  load_json_bytes ([x22] ++ bstr "\ud800" ++ [x22]) = None /\
  load_json_bytes ([x22] ++ bstr "\ud83d\ude00" ++ [x22]) = Some (JStr [128512]) /\
  loads (123 :: dump_str (u "a") ++ u ":1," ++ dump_str (u "a") ++ u ":2}") = None /\
  option_map dumps (loads (u "[1e16, 0.1, 5e-324, -2.50, 1e-5]")) = Some (u "[1e+16,0.1,5e-324,-2.5,1e-05]").
Proof. vm_compute. repeat split; reflexivity. Qed.
