(* ===== verification/DateTime.v ===== *)
(** * UTC timestamps

    The part of Python's [datetime] that the journal uses: aware UTC times
    without microseconds, their order, [isoformat] and [fromisoformat]. *)

From S2P Require Import Prelude Sha256 Text.

Record datetime := DateTime {
  year : Z; month : Z; day : Z; hour : Z; minute : Z; second : Z
}.

#[export] Instance datetime_eq_decision : EqDecision datetime.
Proof. solve_decision. Defined.

Definition is_leap (y : Z) : bool := (y mod 4 =? 0) && (negb (y mod 100 =? 0) || (y mod 400 =? 0)).
Definition days_in_month (y m : Z) : Z :=
  if m =? 2 then (if is_leap y then 29 else 28)
  else if (m =? 4) || (m =? 6) || (m =? 9) || (m =? 11) then 30 else 31.

(** The range checks of the [datetime] constructor. *)
Definition valid_datetime (d : datetime) : bool :=
  (1 <=? year d) && (year d <=? 9999) && (1 <=? month d) && (month d <=? 12) &&
  (1 <=? day d) && (day d <=? days_in_month (year d) (month d)) &&
  (0 <=? hour d) && (hour d <=? 23) && (0 <=? minute d) && (minute d <=? 59) &&
  (0 <=? second d) && (second d <=? 59).

(** Two UTC times compare field by field, most significant first. *)
Definition fields (d : datetime) : list Z := [year d; month d; day d; hour d; minute d; second d].
Definition datetime_ltb (a b : datetime) : bool := negb (str_leb (fields b) (fields a)).

Lemma datetime_ltb_irrefl d : datetime_ltb d d = false.
Proof. unfold datetime_ltb. destruct (str_le_total (fields d) (fields d)) as [H|H]; unfold str_le in H; by rewrite H. Qed.

(** [isoformat()] of a UTC time, ["Z"] standing for the offset. *)
Definition format_utc (d : datetime) : str :=
  pad_int 4 (year d) ++ [45] ++ pad_int 2 (month d) ++ [45] ++ pad_int 2 (day d) ++ [84] ++
  pad_int 2 (hour d) ++ [58] ++ pad_int 2 (minute d) ++ [58] ++ pad_int 2 (second d) ++ [90].

(** [YYYY-MM-DDTHH:MM:SSZ] with decimal digits, taken apart. *)
Definition split_utc (s : str) : option (str * str * str * str * str * str) :=
  match s with
  | [y1; y2; y3; y4; c1; m1; m2; c2; d1; d2; c3; h1; h2; c4; n1; n2; c5; s1; s2; c6] =>
      if (c1 =? 45) && (c2 =? 45) && (c3 =? 84) && (c4 =? 58) && (c5 =? 58) && (c6 =? 90) &&
         forallb is_digit [y1; y2; y3; y4; m1; m2; d1; d2; h1; h2; n1; n2; s1; s2]
      then Some ([y1; y2; y3; y4], [m1; m2], [d1; d2], [h1; h2], [n1; n2], [s1; s2])
      else None
  | _ => None
  end.

(** Midnight at the end of a day is the start of the next one. *)
Definition next_midnight (d : datetime) : datetime :=
  if day d + 1 <=? days_in_month (year d) (month d) then DateTime (year d) (month d) (day d + 1) 0 0 0
  else if month d <? 12 then DateTime (year d) (month d + 1) 1 0 0 0
  else DateTime (year d + 1) 1 1 0 0 0.

(** [datetime.fromisoformat] on such a text ([ValueError] is [None]); since
    Python 3.14 it reads [24:00:00] as the next midnight. *)
Definition fromisoformat (s : str) : option datetime :=
  '(y, m, d, h, n, s) ← split_utc s;
  let t := DateTime (dec_value y) (dec_value m) (dec_value d) (dec_value h) (dec_value n) (dec_value s) in
  let t := if (hour t =? 24) && (minute t =? 0) && (second t =? 0) &&
              valid_datetime (DateTime (year t) (month t) (day t) 0 0 0)
           then next_midnight t else t in
  if valid_datetime t then Some t else None.

Lemma valid_datetime_range d :
  valid_datetime d = true ->
  1 <= year d <= 9999 /\ 1 <= month d <= 12 /\ 1 <= day d <= 31 /\ 0 <= hour d <= 23 /\
  0 <= minute d <= 59 /\ 0 <= second d <= 59.
Proof.
  unfold valid_datetime. rewrite !andb_true_iff, !Z.leb_le. intros.
  assert (days_in_month (year d) (month d) <= 31) by (unfold days_in_month; repeat case_match; lia). lia.
Qed.

Lemma two_digits n : 0 <= n < 100 ->
  exists a b, pad_int 2 n = [a; b] /\ is_digit a = true /\ is_digit b = true /\ dec_value [a; b] = n.
Proof.
  intros Hn. destruct (pad_int_spec 2 n) as (L & D & V); [change (10 ^ Z.of_nat 2) with 100; lia|lia|].
  destruct (pad_int 2 n) as [|a [|b [|]]]; try discriminate L. cbn [forallb] in D.
  rewrite !andb_true_iff in D. exists a, b. naive_solver.
Qed.

Lemma four_digits n : 0 <= n < 10000 ->
  exists a b c d, pad_int 4 n = [a; b; c; d] /\ forallb is_digit [a; b; c; d] = true /\ dec_value [a; b; c; d] = n.
Proof.
  intros Hn. destruct (pad_int_spec 4 n) as (L & D & V); [change (10 ^ Z.of_nat 4) with 10000; lia|lia|].
  destruct (pad_int 4 n) as [|a [|b [|c [|d [|]]]]]; try discriminate L. exists a, b, c, d. done.
Qed.

Lemma format_utc_digits d :
  valid_datetime d = true ->
  exists y1 y2 y3 y4 m1 m2 d1 d2 h1 h2 n1 n2 s1 s2,
    format_utc d = [y1; y2; y3; y4; 45; m1; m2; 45; d1; d2; 84; h1; h2; 58; n1; n2; 58; s1; s2; 90] /\
    forallb is_digit [y1; y2; y3; y4; m1; m2; d1; d2; h1; h2; n1; n2; s1; s2] = true /\
    dec_value [y1; y2; y3; y4] = year d /\ dec_value [m1; m2] = month d /\ dec_value [d1; d2] = day d /\
    dec_value [h1; h2] = hour d /\ dec_value [n1; n2] = minute d /\ dec_value [s1; s2] = second d.
Proof.
  intros H. apply valid_datetime_range in H as (Hy & Hm & Hd & Hh & Hn & Hs).
  destruct (four_digits (year d)) as (y1 & y2 & y3 & y4 & Ey & Dy & Vy); [lia|].
  destruct (two_digits (month d)) as (m1 & m2 & Em & Dm1 & Dm2 & Vm); [lia|].
  destruct (two_digits (day d)) as (d1 & d2 & Ed & Dd1 & Dd2 & Vd); [lia|].
  destruct (two_digits (hour d)) as (h1 & h2 & Eh & Dh1 & Dh2 & Vh); [lia|].
  destruct (two_digits (minute d)) as (n1 & n2 & En & Dn1 & Dn2 & Vn); [lia|].
  destruct (two_digits (second d)) as (s1 & s2 & Es & Ds1 & Ds2 & Vs); [lia|].
  exists y1, y2, y3, y4, m1, m2, d1, d2, h1, h2, n1, n2, s1, s2.
  unfold format_utc. rewrite Ey, Em, Ed, Eh, En, Es. split; [done|]. split; [|naive_solver].
  cbn [forallb] in *. rewrite !andb_true_iff in *. naive_solver.
Qed.

(** A formatted time is read back. *)
Lemma fromisoformat_format d : valid_datetime d = true -> fromisoformat (format_utc d) = Some d.
Proof.
  intros H. destruct (format_utc_digits d H) as
    (y1 & y2 & y3 & y4 & m1 & m2 & d1 & d2 & h1 & h2 & n1 & n2 & s1 & s2 & E & D & Vy & Vm & Vd & Vh & Vn & Vs).
  unfold fromisoformat, split_utc. rewrite E, D. rewrite !Z.eqb_refl. cbn [andb mbind option_bind].
  rewrite Vy, Vm, Vd, Vh, Vn, Vs. cbn [hour minute second year month day].
  pose proof (valid_datetime_range d H).
  rewrite (proj2 (Z.eqb_neq (hour d) 24)) by lia. cbn [andb].
  replace (DateTime (year d) (month d) (day d) (hour d) (minute d) (second d)) with d by (by destruct d).
  by rewrite H.
Qed.

Lemma format_utc_ascii d : valid_datetime d = true -> forallb (fun c => (45 <=? c) && (c <=? 90)) (format_utc d) = true.
Proof.
  intros H. destruct (format_utc_digits d H) as
    (y1 & y2 & y3 & y4 & m1 & m2 & d1 & d2 & h1 & h2 & n1 & n2 & s1 & s2 & E & D & _).
  rewrite E. apply forallb_forall. intros x Hx.
  assert (x = 45 \/ x = 84 \/ x = 58 \/ x = 90 \/ is_digit x = true) as [->|[->|[->|[->|Hd]]]]; try done.
  { rewrite forallb_forall in D. cbn [In] in *. naive_solver. }
  unfold is_digit in Hd. rewrite andb_true_iff, !Z.leb_le in *. lia.
Qed.
