(* ===== verification/Effects.v ===== *)
(** * Effects of the capture programs

    The physical-capture modules mutate a private archive on disk, raise
    exceptions, and can be killed between any two system calls.  A computation
    is a function from a state to an outcome and the state it leaves: a Python
    exception keeps every effect made before it, and a crash additionally skips
    every handler ([except], [finally]) that was waiting. *)

From S2P Require Import Prelude Sha256 Text.

(** The exceptions of the modelled modules, with the [code] they carry. *)
Inductive pyexn :=
  | ArchiveError (code : string)            (* PhysicalCaptureArchiveError *)
  | ObservationError (code : string)        (* PhysicalObservationError *)
  | SessionError (code : string)            (* PhysicalCaptureSessionError *)
  | TransactionError (code : string)        (* PhysicalCaptureTransactionError *)
  | OutcomeUnknown (code : string)          (* PhysicalCaptureOutcomeUnknownError *)
  | RawArtifactError
  | CollectorTrustNotConfiguredError        (* a subclass of RawArtifactError *)
  | PhysicalCollectorRequestError
  | PhysicalMachineIdentityError
  | AdversarialMatrixError
  | LifecycleMatrixError
  | PacketEvidenceError
  | PerformanceGateError
  | AdversarialCaptureError
  | LifecycleCaptureError
  | PhysicalMaterializationError
  | PhysicalEvidenceError
  | CompositionError                        (* PhysicalCaptureCompositionError *)
  | PolicyError                             (* PhysicalCapturePolicyError *)
  | PolicyMaterialError
  | ProofError                              (* PhysicalCaptureProofError *)
  | FinalizationError (code : string)       (* PhysicalCaptureFinalizationError *)
  | PreSendError                            (* of cloud_run.py *)
  | OutcomeUnknownError                     (* of cloud_run.py *)
  | FileNotFoundError
  | BlockingIOError
  | OSError
  | KeyError
  | TypeError
  | ValueError                              (* and UnicodeError, its subclass *)
  | OtherException                          (* any other [Exception] *)
  | KeyboardInterrupt.                      (* a [BaseException] that is no [Exception] *)

#[export] Instance pyexn_eq_decision : EqDecision pyexn.
Proof. solve_decision. Defined.

Inductive outcome (A : Type) :=
  | Ret (a : A)
  | Raise (e : pyexn)
  | Crash.
Arguments Ret {A} a.
Arguments Raise {A} e.
Arguments Crash {A}.

Definition M (S A : Type) : Type := S -> outcome A * S.

#[export] Instance M_ret {S} : MRet (M S) := fun A a s => (Ret a, s).
#[export] Instance M_bind {S} : MBind (M S) := fun A B f m s =>
  match m s with
  | (Ret a, s) => f a s
  | (Raise e, s) => (Raise e, s)
  | (Crash, s) => (Crash, s)
  end.

Definition raise {S A} (e : pyexn) : M S A := fun s => (Raise e, s).
Definition gets {S A} (f : S -> A) : M S A := fun s => (Ret (f s), s).
Definition modify {S} (f : S -> S) : M S () := fun s => (Ret (), f s).

(** [if c: raise e] before [k]. *)
Definition check {S} (c : bool) (e : pyexn) : M S () := if c then raise e else mret ().

(** [try: m except ...: h]: the handler sees every exception and decides, by
    raising it again, which ones it does not catch. *)
Definition try_except {S A} (m : M S A) (h : pyexn -> M S A) : M S A := fun s =>
  match m s with
  | (Raise e, s) => h e s
  | r => r
  end.

(** [except BaseException: cleanup; raise]. *)
Definition on_exception {S A} (m : M S A) (cleanup : M S ()) : M S A :=
  try_except m (fun e => cleanup ≫= fun _ => raise e).

(** [try: m finally: k]. *)
Definition finally {S A} (m : M S A) (k : M S ()) : M S A := fun s =>
  match m s with
  | (Ret a, s) => match k s with (Ret _, s) => (Ret a, s) | (Raise e, s) => (Raise e, s) | (Crash, s) => (Crash, s) end
  | (Raise e, s) => match k s with (Ret _, s) => (Raise e, s) | (Raise e', s) => (Raise e', s) | (Crash, s) => (Crash, s) end
  | (Crash, s) => (Crash, s)
  end.

(** A value of [option] or [result] whose failure is an exception. *)
Definition of_option {S A} (e : pyexn) (o : option A) : M S A :=
  match o with Some a => mret a | None => raise e end.
Definition of_result {S A} (r : result pyexn A) : M S A :=
  match r with Ok a => mret a | Err e => raise e end.

(** A computation on a part of the state. *)
Definition zoom {S T A} (get : S -> T) (set : T -> S -> S) (m : M T A) : M S A := fun s =>
  let '(o, t) := m (get s) in (o, set t s).

Fixpoint for_each {S A} (l : list A) (f : A -> M S ()) : M S () :=
  match l with
  | [] => mret ()
  | a :: l => f a ≫= fun _ => for_each l f
  end.

(** The class of an exception, as [except PhysicalCaptureArchiveError] and the
    like test it.  [PhysicalCaptureOutcomeUnknownError] is a subclass of
    [PhysicalCaptureTransactionError]. *)
Definition is_archive_error (e : pyexn) : bool := match e with ArchiveError _ => true | _ => false end.
Definition is_observation_error (e : pyexn) : bool := match e with ObservationError _ => true | _ => false end.
Definition is_session_error (e : pyexn) : bool := match e with SessionError _ => true | _ => false end.
(** [except OSError]. *)
Definition is_os_error (e : pyexn) : bool := match e with OSError | FileNotFoundError | BlockingIOError => true | _ => false end.
(** [except Exception]. *)
Definition is_exception (e : pyexn) : bool := match e with KeyboardInterrupt => false | _ => true end.
Definition archive_code (e : pyexn) : option string := match e with ArchiveError c => Some c | _ => None end.

(** [except E: raise e'] for the exceptions that satisfy [p]. *)
Definition translate {S A} (p : pyexn -> bool) (e' : pyexn) (m : M S A) : M S A :=
  try_except m (fun e => if p e then raise e' else raise e).

(** ** Reasoning *)

Section Reasoning.
Context {S : Type}.

(** [m] leaves the state in relation [R] to where it started, whatever the
    outcome. *)
Definition within {A} (R : S -> S -> Prop) (m : M S A) : Prop := forall s, R s (snd (m s)).

Lemma within_ret {A} (R : S -> S -> Prop) `{!Reflexive R} (a : A) : within R (mret a).
Proof. intros s. done. Qed.

Lemma within_raise {A} (R : S -> S -> Prop) `{!Reflexive R} e : within R (@raise S A e).
Proof. intros s. done. Qed.

Lemma within_bind {A B} (R : S -> S -> Prop) `{!Transitive R} (m : M S A) (f : A -> M S B) :
  within R m -> (forall a, within R (f a)) -> within R (m ≫= f).
Proof.
  intros Hm Hf s. specialize (Hm s). unfold mbind, M_bind. destruct (m s) as [[a|e|] s'] eqn:E; [|done|done].
  cbn [snd] in Hm. etrans; [exact Hm|apply Hf].
Qed.

Lemma within_try {A} (R : S -> S -> Prop) `{!Transitive R} (m : M S A) (h : pyexn -> M S A) :
  within R m -> (forall e, within R (h e)) -> within R (try_except m h).
Proof.
  intros Hm Hh s. specialize (Hm s). unfold try_except. destruct (m s) as [[a|e|] s'] eqn:E; [done| |done].
  cbn [snd] in Hm. etrans; [exact Hm|apply Hh].
Qed.

Lemma within_finally {A} (R : S -> S -> Prop) `{!Transitive R} (m : M S A) (k : M S ()) :
  within R m -> within R k -> within R (finally m k).
Proof.
  intros Hm Hk s. specialize (Hm s). unfold finally. destruct (m s) as [[a|e|] s'] eqn:E; [| |done];
    cbn [snd] in Hm; specialize (Hk s'); destruct (k s') as [[[]|e'|] s''] eqn:E'; cbn [snd] in *; by etrans.
Qed.

Lemma within_gets {A} (R : S -> S -> Prop) `{!Reflexive R} (f : S -> A) : within R (gets f).
Proof. intros s. done. Qed.

Lemma within_check (R : S -> S -> Prop) `{!Reflexive R} c e : within R (@check S c e).
Proof. intros s. unfold check. by destruct c. Qed.

Lemma within_of_option {A} (R : S -> S -> Prop) `{!Reflexive R} e (o : option A) : within R (@of_option S A e o).
Proof. intros s. by destruct o. Qed.

Lemma within_of_result {A} (R : S -> S -> Prop) `{!Reflexive R} (o : result pyexn A) : within R (@of_result S A o).
Proof. intros s. by destruct o. Qed.

Lemma within_translate {A} (R : S -> S -> Prop) `{!Reflexive R, !Transitive R} p e (m : M S A) :
  within R m -> within R (translate p e m).
Proof. intros Hm. apply within_try; [apply _|done|]. intros e'. by destruct (p e'). Qed.

Lemma within_for_each {A} (R : S -> S -> Prop) `{!Reflexive R, !Transitive R} (l : list A) f :
  (forall a, a ∈ l -> within R (f a)) -> within R (for_each l f).
Proof.
  induction l as [|a l IH]; intros Hf; cbn [for_each]; [by apply within_ret|].
  apply within_bind; [apply _|apply Hf; set_solver|]. intros _. apply IH. intros b Hb. apply Hf. set_solver.
Qed.

(** A value already known, and a guard that passed. *)
Lemma within_known {A B} (R : S -> S -> Prop) (a : A) (f : A -> M S B) :
  within R (f a) -> within R (of_result (Ok a) ≫= f).
Proof. intros H s. apply H. Qed.

Lemma within_guard {B} (R : S -> S -> Prop) `{!Reflexive R} c e (f : () -> M S B) :
  (c = false -> within R (f ())) -> within R (check c e ≫= f).
Proof. intros H s. unfold check. destruct c; [done|]. by apply H. Qed.

Lemma within_impl {A} (R R' : S -> S -> Prop) (m : M S A) :
  (forall s s', R s s' -> R' s s') -> within R m -> within R' m.
Proof. intros H Hm s. apply H, Hm. Qed.

End Reasoning.

Lemma bind_ret_inv {S A B} (m : M S A) (f : A -> M S B) s b s' :
  (m ≫= f) s = (Ret b, s') -> exists a s1, m s = (Ret a, s1) /\ f a s1 = (Ret b, s').
Proof.
  unfold mbind, M_bind. destruct (m s) as [[a|e|] s1]; intros H; [eauto|discriminate|discriminate].
Qed.

Lemma bind_ret_eq {S A B} (m : M S A) (f : A -> M S B) s a s1 :
  m s = (Ret a, s1) -> (m ≫= f) s = f a s1.
Proof. unfold mbind, M_bind. by intros ->. Qed.

(** How a sequence ends: in its first part, or in the second after the first
    returned. *)
Lemma bind_cases {S A B} (m : M S A) (f : A -> M S B) s o s' :
  (m ≫= f) s = (o, s') ->
  (exists a s1, m s = (Ret a, s1) /\ f a s1 = (o, s')) \/
  (exists e, m s = (Raise e, s') /\ o = Raise e) \/ (m s = (Crash, s') /\ o = Crash).
Proof.
  unfold mbind, M_bind. destruct (m s) as [[a|e|] s1]; intros H; [left; eauto| |]; injection H as <- <-; eauto.
Qed.

Lemma try_cases {S A} (m : M S A) h s o s' :
  try_except m h s = (o, s') ->
  (exists e s1, m s = (Raise e, s1) /\ h e s1 = (o, s')) \/ (m s = (o, s') /\ forall e, o <> Raise e).
Proof.
  unfold try_except. destruct (m s) as [[a|e|] s1]; intros H; [| left; eauto |]; injection H as <- <-; right; done.
Qed.

Lemma check_ret {S} c e (s : S) s' : check c e s = (Ret (), s') -> c = false /\ s' = s.
Proof. unfold check. destruct c; intros H; [discriminate|]. by injection H as <-. Qed.

Lemma of_option_ret {S A} e (o : option A) (s : S) a s' : of_option e o s = (Ret a, s') -> o = Some a /\ s' = s.
Proof. destruct o; intros H; [|discriminate H]. by injection H as -> ->. Qed.

Lemma of_result_ret {S A} (r : result pyexn A) (s : S) a s' : of_result r s = (Ret a, s') -> r = Ok a /\ s' = s.
Proof. destruct r; intros H; [|discriminate H]. by injection H as -> ->. Qed.

Lemma translate_ret {S A} p e (m : M S A) s a s' : translate p e m s = (Ret a, s') <-> m s = (Ret a, s').
Proof.
  unfold translate, try_except. destruct (m s) as [[x|x|] s1]; [done| |done]. destruct (p x); split; discriminate.
Qed.

(** [within_auto] walks through a computation with the rules above and leaves
    the steps that are not of this file. *)
Ltac within_auto :=
  repeat (match goal with
  | |- within _ (mbind _ _) => apply within_bind; [try apply _ | | intros ?]
  | |- within _ (fun _ => _) => fail 1
  | |- within _ (try_except _ _) => apply within_try; [try apply _ | | intros ?]
  | |- within _ (on_exception _ _) => unfold on_exception
  | |- within _ (finally _ _) => apply within_finally; [try apply _ | |]
  | |- within _ (translate _ _ _) => apply within_translate; [try apply _ | try apply _ |]
  | |- within _ (for_each _ _) => apply within_for_each; [try apply _ | try apply _ | intros ? ?]
  | |- within _ (mret _) => apply within_ret; try apply _
  | |- within _ (raise _) => apply within_raise; try apply _
  | |- within _ (gets _) => apply within_gets; try apply _
  | |- within _ (check _ _) => apply within_check; try apply _
  | |- within _ (of_option _ _) => apply within_of_option; try apply _
  | |- within _ (of_result _) => apply within_of_result; try apply _
  | |- within _ (if ?b then _ else _) => destruct b
  | |- within _ (match ?x with _ => _ end) => destruct x
  | |- within _ (let _ := _ in _) => cbv zeta
  end; cbv beta); try done.

(** A computation that only reads. *)
Abbreviation reads m := (within eq m).

Lemma reads_state {S A} (m : M S A) s o s' : reads m -> m s = (o, s') -> s' = s.
Proof. intros H E. specialize (H s). rewrite E in H. done. Qed.

(** A sequence whose first part only reads, or keeps a relation. *)
Lemma bind_reads {S A B} (m : M S A) (f : A -> M S B) s o s' :
  reads m -> (m ≫= f) s = (o, s') ->
  (exists a, m s = (Ret a, s) /\ f a s = (o, s')) \/ (s' = s /\ forall b, o <> Ret b).
Proof.
  intros R H. apply bind_cases in H as [(a & s1 & H1 & H) | [(e & H1 & ->) | [H1 ->]]];
    pose proof (reads_state _ _ _ _ R H1) as ->; [left; eauto|right; split; [done|by intros b]..].
Qed.

Lemma bind_within {S A B} (R : S -> S -> Prop) (m : M S A) (f : A -> M S B) s o s' :
  within R m -> (m ≫= f) s = (o, s') ->
  (exists a s1, m s = (Ret a, s1) /\ R s s1 /\ f a s1 = (o, s')) \/ (R s s' /\ forall b, o <> Ret b).
Proof.
  intros W H. specialize (W s). apply bind_cases in H as [(a & s1 & H1 & H) | [(e & H1 & ->) | [H1 ->]]];
    rewrite H1 in W; [left; eauto|right; split; [done|by intros b]..].
Qed.

Lemma bind_check {S A} c e (f : () -> M S A) s o s' :
  (check c e ≫= f) s = (o, s') -> (c = false /\ f () s = (o, s')) \/ (s' = s /\ forall b, o <> Ret b).
Proof.
  intros H. apply bind_reads in H as [(a & H1 & H) | ?]; [|by right|by apply within_check].
  destruct a. apply check_ret in H1 as [? _]. by left.
Qed.

Lemma bind_result {S A B} (r : result pyexn A) (f : A -> M S B) s o s' :
  (of_result r ≫= f) s = (o, s') -> (exists a, r = Ok a /\ f a s = (o, s')) \/ (s' = s /\ forall b, o <> Ret b).
Proof.
  intros H. destruct r as [a|e]; [left; eauto|]. injection H as <- <-. right. split; [done|by intros b].
Qed.

(** A sequence whose second part relies on what the first returns. *)
Lemma within_bind_when {S A B} (R : S -> S -> Prop) `{!Transitive R} (P : A -> Prop) (m : M S A) (f : A -> M S B) :
  within R m -> (forall s a s', m s = (Ret a, s') -> P a) -> (forall a, P a -> within R (f a)) -> within R (m ≫= f).
Proof.
  intros Hm HP Hf s. specialize (Hm s). specialize (HP s). unfold mbind, M_bind.
  destruct (m s) as [[a|e|] s'] eqn:E; [|done|done]. cbn [snd] in Hm. etrans; [exact Hm|]. apply Hf. by eapply HP.
Qed.

(** ** Exceptions *)

(** Every exception that leaves [m] satisfies [P]. *)
Definition raises {S A} (P : pyexn -> Prop) (m : M S A) : Prop := forall s e s', m s = (Raise e, s') -> P e.
(** Likewise for a function that only fails. *)
Definition fails {A} (P : pyexn -> Prop) (r : result pyexn A) : Prop := forall e, r = Err e -> P e.

Section Raises.
Context {S : Type} (P : pyexn -> Prop).

Lemma raises_ret {A} (a : A) : raises (S := S) P (mret a).
Proof. by intros s e s' H. Qed.
Lemma raises_raise {A} e : P e -> raises (S := S) P (raise (A := A) e).
Proof. by intros He s e' s' [= <- _]. Qed.
Lemma raises_gets {A} (f : S -> A) : raises P (gets f).
Proof. by intros s e s' H. Qed.
Lemma raises_modify (f : S -> S) : raises P (modify f).
Proof. by intros s e s' H. Qed.
Lemma raises_check c e : P e -> raises (S := S) P (check c e).
Proof. intros He s e' s' H. unfold check in H. destruct c; [by injection H as <- _|done]. Qed.
Lemma raises_of_option {A} e (o : option A) : P e -> raises (S := S) P (of_option e o).
Proof. intros He s e' s' H. destruct o; [done|by injection H as <- _]. Qed.
Lemma raises_of_result {A} (r : result pyexn A) : fails P r -> raises (S := S) P (of_result r).
Proof. intros He s e' s' H. destruct r; [done|injection H as <- _]. by apply He. Qed.

Lemma raises_bind {A B} (m : M S A) (f : A -> M S B) : raises P m -> (forall a, raises P (f a)) -> raises P (m ≫= f).
Proof.
  intros Hm Hf s e s' H. apply bind_cases in H as [(a & s1 & _ & H) | [(e' & H & [= <-]) | [_ [=]]]]; [by eapply Hf|by eapply Hm].
Qed.

Lemma raises_try {A} (m : M S A) h : (forall e, raises P (h e)) -> raises P (try_except m h).
Proof. intros Hh s e s' H. apply try_cases in H as [(e' & s1 & _ & H) | [_ N]]; [by eapply Hh|by destruct (N e)]. Qed.

Lemma raises_translate {A} p e' (m : M S A) : P e' -> raises P m -> raises P (translate p e' m).
Proof.
  intros He Hm s e s' H. apply try_cases in H as [(e1 & s1 & H1 & H) | [_ N]]; [|by destruct (N e)].
  destruct (p e1); injection H as <- _; [done|by eapply Hm].
Qed.

Lemma raises_for_each {A} (l : list A) f : (forall a, raises P (f a)) -> raises (S := S) P (for_each l f).
Proof. intros Hf. induction l as [|a l IH]; cbn [for_each]; [apply raises_ret|]. by apply raises_bind. Qed.
End Raises.

Lemma fails_ok {A} P (a : A) : fails P (Ok a).
Proof. by intros e. Qed.
Lemma fails_err {A} (P : pyexn -> Prop) e : P e -> fails (A := A) P (Err e).
Proof. by intros He e' [= <-]. Qed.
Lemma fails_bind {A B} P (r : result pyexn A) (f : A -> result pyexn B) : fails P r -> (forall a, fails P (f a)) -> fails P (r ≫= f).
Proof. intros Hr Hf e H. destruct r as [a|e']; [by apply (Hf a)|]. injection H as <-. by apply Hr. Qed.
Lemma fails_map_res {A B} P (f : A -> result pyexn B) l : (forall a, fails P (f a)) -> fails P (map_res f l).
Proof.
  intros Hf. induction l as [|a l IH]; cbn [map_res]; [apply fails_ok|]. apply fails_bind; [done|]. intros b.
  apply fails_bind; [done|]. intros bs. apply fails_ok.
Qed.

(** [raises_auto] follows a computation and leaves the steps of other files and
    the exceptions that are not literal. *)
Ltac raises_auto :=
  repeat (match goal with
  | |- raises _ (mbind _ _) => apply raises_bind; [|intros ?]
  | |- raises _ (mret _) => apply raises_ret
  | |- raises _ (raise _) => apply raises_raise
  | |- raises _ (gets _) => apply raises_gets
  | |- raises _ (modify _) => apply raises_modify
  | |- raises _ (check _ _) => apply raises_check
  | |- raises _ (of_option _ _) => apply raises_of_option
  | |- raises _ (of_result _) => apply raises_of_result
  | |- raises _ (translate _ _ _) => apply raises_translate
  | |- raises _ (for_each _ _) => apply raises_for_each; intros ?
  | |- raises _ (if ?b then _ else _) => destruct b
  | |- raises _ (match ?x with _ => _ end) => destruct x
  | |- fails _ (mbind _ _) => apply fails_bind; [|intros ?]
  | |- fails _ (Ok _) => apply fails_ok
  | |- fails _ (Err _) => apply fails_err
  | |- fails _ (map_res _ _) => apply fails_map_res; intros ?
  | |- fails _ (if ?b then _ else _) => destruct b
  | |- fails _ (match ?x with _ => _ end) => destruct x
  end; cbv beta); try done.

(** ** Progress *)

(** From [s], [m] returns (it neither raises nor dies), and its value and the
    state it leaves satisfy [Q]. *)
Definition returns {S A} (m : M S A) (s : S) (Q : A -> S -> Prop) : Prop :=
  exists a s', m s = (Ret a, s') /\ Q a s'.

Section Returns.
Context {S : Type}.
Implicit Types s : S.

Lemma returns_ret {A} (a : A) s (Q : A -> S -> Prop) : Q a s -> returns (mret a) s Q.
Proof. by exists a, s. Qed.
Lemma returns_gets {A} (f : S -> A) s (Q : A -> S -> Prop) : Q (f s) s -> returns (gets f) s Q.
Proof. by exists (f s), s. Qed.
Lemma returns_modify (f : S -> S) s (Q : () -> S -> Prop) : Q () (f s) -> returns (modify f) s Q.
Proof. by exists (), (f s). Qed.
Lemma returns_check c e s (Q : () -> S -> Prop) : c = false -> Q () s -> returns (check c e) s Q.
Proof. intros -> H. by exists (), s. Qed.
Lemma returns_of_result {A} (r : result pyexn A) a s (Q : A -> S -> Prop) : r = Ok a -> Q a s -> returns (of_result r) s Q.
Proof. intros -> H. by exists a, s. Qed.
Lemma returns_of_option {A} e (o : option A) a s (Q : A -> S -> Prop) : o = Some a -> Q a s -> returns (of_option e o) s Q.
Proof. intros -> H. by exists a, s. Qed.

Lemma returns_bind {A B} (m : M S A) (f : A -> M S B) s Q :
  returns m s (fun a s' => returns (f a) s' Q) -> returns (m ≫= f) s Q.
Proof.
  intros (a & s1 & H1 & b & s2 & H2 & HQ). exists b, s2. split; [|done]. by rewrite (bind_ret_eq _ _ _ _ _ H1).
Qed.

Lemma returns_mono {A} (m : M S A) s (Q Q' : A -> S -> Prop) :
  returns m s Q -> (forall a s', Q a s' -> Q' a s') -> returns m s Q'.
Proof. intros (a & s' & H & HQ) HQ'. exists a, s'. auto. Qed.

Lemma returns_try {A} (m : M S A) h s Q : returns m s Q -> returns (try_except m h) s Q.
Proof. intros (a & s' & H & HQ). exists a, s'. split; [|done]. unfold try_except. by rewrite H. Qed.

Lemma returns_translate {A} p e (m : M S A) s Q : returns m s Q -> returns (translate p e m) s Q.
Proof. apply returns_try. Qed.

(** A computation that returns leaves whatever relation it keeps. *)
Lemma returns_within {A} (R : S -> S -> Prop) (m : M S A) s Q :
  within R m -> returns m s Q -> returns m s (fun a s' => Q a s' /\ R s s').
Proof. intros W (a & s' & H & HQ). exists a, s'. specialize (W s). by rewrite H in W. Qed.

(** A loop with an invariant on what is left. *)
Lemma returns_for_each {A} (I : list A -> S -> Prop) f l s :
  I l s -> (forall a l s, I (a :: l) s -> returns (f a) s (fun _ => I l)) -> returns (for_each l f) s (fun _ => I []).
Proof.
  revert s; induction l as [|a l IH]; intros s HI Hf; cbn [for_each]; [by apply returns_ret|].
  apply returns_bind. eapply returns_mono; [by apply Hf|]. intros x s' HI'. by apply IH.
Qed.
End Returns.
