(* ===== verification/Programs.v ===== *)
(** * Programs against an interface

    Some of the code that the pipeline calls is not modelled line by line, but
    what it can do to the state is: it goes through the operations of an
    interface and nothing else.  A [program] is such code, with the exceptions
    of the operations handed to it, as a [try] statement would; [run] gives it
    its meaning from the meaning of the operations. *)

From S2P Require Import Prelude Effects.

Section Program.
Context {action : Type} {answer : action -> Type}.

Inductive program (A : Type) :=
  | Finish (r : result pyexn A)
  | Perform (a : action) (k : result pyexn (answer a) -> program A).
Arguments Finish {A} r.
Arguments Perform {A} a k.

Section Run.
Context {S : Type} (perform : forall a, M S (answer a)).

Fixpoint run {A} (p : program A) : M S A :=
  match p with
  | Finish r => of_result r
  | Perform a k => fun s =>
      match perform a s with
      | (Ret x, s) => run (k (Ok x)) s
      | (Raise e, s) => run (k (Err e)) s
      | (Crash, s) => (Crash, s)
      end
  end.

(** A program does to the state what its operations can do to it. *)
Lemma run_within {A} (R : S -> S -> Prop) `{!Reflexive R, !Transitive R} (p : program A) :
  (forall a, within R (perform a)) -> within R (run p).
Proof.
  intros W. induction p as [r|a k IH]; cbn [run]; [by apply within_of_result|]. intros s. specialize (W a s).
  destruct (perform a s) as [[x|e|] s1]; cbn [snd] in *; [| |done]; (etrans; [exact W|apply IH]).
Qed.
End Run.
End Program.

Arguments program {action} answer A.
Arguments Finish {action answer A} r.
Arguments Perform {action answer A} a k.

(** A sequence of programs. *)
Fixpoint bind_program {action} {answer : action -> Type} {A B} (p : program answer A) (f : A -> program answer B) : program answer B :=
  match p with
  | Finish (Ok a) => f a
  | Finish (Err e) => Finish (Err e)
  | Perform a k => Perform a (fun r => bind_program (k r) f)
  end.

Lemma run_bind {action} {answer : action -> Type} {S A B} (perform : forall a, M S (answer a)) (p : program answer A) (f : A -> program answer B) s :
  run perform (bind_program p f) s = (run perform p ≫= fun a => run perform (f a)) s.
Proof.
  revert s; induction p as [[a|e]|a k IH]; intros s; cbn [bind_program run]; [done|done|]. unfold mbind, M_bind in *.
  destruct (perform a s) as [[x|e|] s1]; [apply IH|apply IH|done].
Qed.
