(* ===== verification/Base64.v ===== *)
(** * Unpadded base64url

    [_base64url_decode] of src/scripts/harness/raw_artifacts.py, with the part of
    Python's [base64] it uses: [urlsafe_b64encode] without its padding, and
    [urlsafe_b64decode] of a text over the alphabet that was padded to a multiple
    of four.  [None] is [RawArtifactError]. *)

From S2P Require Import Prelude Sha256 Text Json.

(** The alphabet. *)
Definition b64_value (c : Z) : option Z :=
  if (65 <=? c) && (c <=? 90) then Some (c - 65)
  else if (97 <=? c) && (c <=? 122) then Some (c - 71)
  else if (48 <=? c) && (c <=? 57) then Some (c + 4)
  else if c =? 45 then Some 62
  else if c =? 95 then Some 63
  else None.
Definition b64_char (n : Z) : Z :=
  if n <? 26 then n + 65 else if n <? 52 then n + 71 else if n <? 62 then n - 4 else if n =? 62 then 45 else 95.

(** [base64.urlsafe_b64encode(data).rstrip(b'=')]. *)
Fixpoint b64_encode (l : bytes) : str :=
  match l with
  | [] => []
  | [a] => [b64_char (bz a / 4); b64_char (bz a mod 4 * 16)]
  | [a; b] => [b64_char (bz a / 4); b64_char (bz a mod 4 * 16 + bz b / 16); b64_char (bz b mod 16 * 4)]
  | a :: b :: c :: l =>
      b64_char (bz a / 4) :: b64_char (bz a mod 4 * 16 + bz b / 16) ::
      b64_char (bz b mod 16 * 4 + bz c / 64) :: b64_char (bz c mod 64) :: b64_encode l
  end.

(** [base64.urlsafe_b64decode] of the text and its padding; bits left over in
    the last character are ignored. *)
Fixpoint b64_decode (s : str) : option bytes :=
  match s with
  | [] => Some []
  | [_] => None
  | [c1; c2] => v1 ← b64_value c1; v2 ← b64_value c2; Some [zb (v1 * 4 + v2 / 16)]
  | [c1; c2; c3] =>
      v1 ← b64_value c1; v2 ← b64_value c2; v3 ← b64_value c3;
      Some [zb (v1 * 4 + v2 / 16); zb (v2 mod 16 * 16 + v3 / 4)]
  | c1 :: c2 :: c3 :: c4 :: s =>
      v1 ← b64_value c1; v2 ← b64_value c2; v3 ← b64_value c3; v4 ← b64_value c4; rest ← b64_decode s;
      Some (zb (v1 * 4 + v2 / 16) :: zb (v2 mod 16 * 16 + v3 / 4) :: zb (v3 mod 4 * 64 + v4) :: rest)
  end.

Definition in_alphabet (c : Z) : bool := match b64_value c with Some _ => true | None => false end.

(** [^[A-Za-z0-9_-]+$]. *)
Definition BASE64URL_RE (s : str) : bool := negb (bool_decide (s = [])) && forallb in_alphabet s.

Definition _base64url_decode (value : json) : option bytes :=
  match value with
  | JStr s =>
      if BASE64URL_RE s then
        decoded ← b64_decode s;
        if str_eqb (b64_encode decoded) s then Some decoded else None
      else None
  | _ => None
  end.

Lemma b64_value_char n : 0 <= n < 64 -> b64_value (b64_char n) = Some n.
Proof.
  intros Hn. unfold b64_char, b64_value.
  repeat match goal with
  | |- context [?a <? ?b] => destruct (Z.ltb_spec a b)
  | |- context [?a <=? ?b] => destruct (Z.leb_spec a b)
  | |- context [?a =? ?b] => destruct (Z.eqb_spec a b)
  end; cbn [andb]; try lia; f_equal; lia.
Qed.

(** Three at a time. *)
Lemma triples_ind (P : bytes -> Prop) :
  P [] -> (forall a, P [a]) -> (forall a b, P [a; b]) -> (forall a b c l, P l -> P (a :: b :: c :: l)) -> forall l, P l.
Proof.
  intros H0 H1 H2 H3 l. assert (H : forall n (l : bytes), (length l <= n)%nat -> P l); [|by apply (H (length l))].
  clear l. induction n as [|n IH]; intros l Hl; destruct l as [|a [|b [|c l]]]; cbn in Hl; try lia; auto.
  apply H3, IH. lia.
Qed.

Ltac byte_bounds :=
  repeat match goal with
  | |- context [bz ?b] => lazymatch goal with H : 0 <= bz b < 256 |- _ => fail | _ => pose proof (bz_range b) end
  end.

Lemma zb_of b z : z = bz b -> zb z = b.
Proof. intros ->. apply zb_bz. Qed.

Lemma b64_decode_encode l : b64_decode (b64_encode l) = Some l.
Proof.
  induction l as [|a|a b|a b c l IH] using triples_ind; cbn [b64_encode b64_decode]; [done|..];
    byte_bounds; rewrite !b64_value_char by (Z.to_euclidean_division_equations; lia); cbn [mbind option_bind]; rewrite ?IH;
    cbn [mbind option_bind]; repeat f_equal; apply zb_of; Z.to_euclidean_division_equations; lia.
Qed.

Lemma b64_encode_alphabet l : forallb in_alphabet (b64_encode l) = true.
Proof.
  induction l as [|a|a b|a b c l IH] using triples_ind; cbn [b64_encode forallb]; [done|..];
    unfold in_alphabet; byte_bounds; rewrite !b64_value_char by (Z.to_euclidean_division_equations; lia); cbn [andb]; done.
Qed.

Lemma b64_encode_nil l : b64_encode l = [] <-> l = [].
Proof. destruct l as [|a [|b [|c l]]]; done. Qed.

Lemma base64url_decoded value d : _base64url_decode value = Some d -> d <> [] /\ value = JStr (b64_encode d).
Proof.
  unfold _base64url_decode. destruct value as [| | | |s| |]; try done. destruct (BASE64URL_RE s) eqn:R; [|done]. intros H.
  apply bind_Some in H as (x & _ & H). destruct (str_eqb (b64_encode x) s) eqn:Q; [|done]. injection H as ->.
  apply str_eqb_eq in Q as <-. split; [|done]. by intros ->.
Qed.

Lemma base64url_read d : d <> [] -> _base64url_decode (JStr (b64_encode d)) = Some d.
Proof.
  intros Hd. unfold _base64url_decode. assert (R : BASE64URL_RE (b64_encode d) = true).
  { unfold BASE64URL_RE. rewrite bool_decide_false by (by rewrite b64_encode_nil). cbn. apply b64_encode_alphabet. }
  rewrite R, b64_decode_encode. cbn. by rewrite str_eqb_refl.
Qed.

(** Canonical base64url.  [_base64url_decode] returns bytes for a value
    exactly when the value is the unpadded base64url encoding of those bytes and
    they are not empty; every other value, other spellings of the same bytes
    included, is refused. *)
Theorem base64url_exact value d :
  _base64url_decode value = Some d <-> d <> [] /\ value = JStr (b64_encode d).
Proof. split; [apply base64url_decoded|]. intros [Hd ->]. by apply base64url_read. Qed.
