(* ===== verification/Ps256.v ===== *)
(** * The PS256 signature check

    [_mgf1_sha256] and [verify_ps256] of src/scripts/harness/raw_artifacts.py:
    RSA-PSS with SHA-256, a salt of 32 bytes and a 3072-bit modulus.  The
    reference is the encoder EMSA-PSS of RFC 8017; the check accepts exactly the
    signatures whose power is an encoding of the message.  [None] is
    [RawArtifactError]. *)

From Stdlib Require Import Zpow_facts.
From S2P Require Import Prelude Sha256 Text Json Base64.

Definition RSA_MODULUS_BITS : Z := 3072.
Definition RSA_PUBLIC_EXPONENT : Z := 65537.
Definition PS256_SIGNATURE_BYTES : Z := 384.
Definition PS256_HASH_BYTES : Z := 32.
Definition PS256_SALT_BYTES : Z := 32.
Definition PS256_EM_BITS : Z := 3071.

(** [int.bit_length()] of a positive integer. *)
Definition bit_length (n : Z) : Z := Z.log2 n + 1.

(** [left ^ right] on bytes. *)
Definition bxor (a b : byte) : byte := zb (Z.lxor (bz a) (bz b)).

Definition _mgf1_sha256 (seed : bytes) (length : Z) : option bytes :=
  if (length <? 0) || (2 ^ 32 * PS256_HASH_BYTES <? length) then None
  else
    let counters := map Z.of_nat (seq 0 (Z.to_nat ((length + PS256_HASH_BYTES - 1) / PS256_HASH_BYTES))) in
    Some (take (Z.to_nat length) (flat_map (fun counter => sha256 (seed ++ be_bytes 4 counter)) counters)).

(** [decoded_db[0] &= 0x7F] on a non-empty byte array. *)
Definition clear_high_bit (l : bytes) : bytes :=
  match l with [] => [] | b :: l => zb (Z.land (bz b) 127) :: l end.

(** What [verify_ps256] does with the encoded message, from the trailer field
    on. *)
Definition verify_encoded (message encoded : bytes) : option () :=
  if negb (bool_decide (slice_from encoded 383 = [xbc])) then None
  else
    let masked_db := slice encoded 0 351 in
    let encoded_hash := slice encoded 351 383 in
    if negb (len masked_db =? 351) then None
    else
      let unused_bits := 8 * PS256_SIGNATURE_BYTES - PS256_EM_BITS in
      if negb (unused_bits =? 1) || match masked_db with b :: _ => negb (Z.land (bz b) 128 =? 0) | [] => true end then None
      else
        mask ← _mgf1_sha256 encoded_hash (len masked_db);
        let decoded_db := clear_high_bit (zip_with bxor masked_db mask) in
        let padding_length := len decoded_db - PS256_SALT_BYTES - 1 in
        if negb (padding_length =? 318) then None
        else if negb (bool_decide (slice decoded_db 0 padding_length = replicate (Z.to_nat padding_length) x00)) then None
        else if negb (bool_decide (slice decoded_db padding_length (padding_length + 1) = [x01])) then None
        else
          let salt := slice_from decoded_db (len decoded_db - PS256_SALT_BYTES) in
          let expected_hash := sha256 (replicate 8 x00 ++ sha256 message ++ salt) in
          if bool_decide (encoded_hash = expected_hash) then Some () else None.

Definition verify_ps256 (message : bytes) (signature_base64url : json) (modulus : Z) (exponent : Z) : option () :=
  if (modulus <=? 0) || (modulus mod 2 =? 0) || negb (bit_length modulus =? RSA_MODULUS_BITS) then None
  else if negb (exponent =? RSA_PUBLIC_EXPONENT) then None
  else
    signature ← _base64url_decode signature_base64url;
    if negb (len signature =? PS256_SIGNATURE_BYTES) then None
    else
      let encoded_integer := int_be signature in
      if modulus <=? encoded_integer then None
      else
        let encoded := be_bytes (Z.to_nat PS256_SIGNATURE_BYTES) (Zpow_mod encoded_integer exponent modulus) in
        verify_encoded message encoded.

(** ** The encoder *)

(** MGF1 of appendix B.2.1: the first bytes of the digests of the seed and a
    counter of four bytes. *)
Definition mgf1 (seed : bytes) (n : nat) : bytes :=
  take n (flat_map (fun counter => sha256 (seed ++ be_bytes 4 (Z.of_nat counter))) (seq 0 ((n + 31) / 32))).

(** EMSA-PSS-ENCODE of section 9.1.1 with SHA-256, an encoded message of 3071
    bits and the given salt of 32 bytes. *)
Definition emsa_pss_encode (message salt : bytes) : bytes :=
  let h := sha256 (replicate 8 x00 ++ sha256 message ++ salt) in
  let db := replicate 318 x00 ++ [x01] ++ salt in
  clear_high_bit (zip_with bxor db (mgf1 h 351)) ++ h ++ [xbc].

(** ** Masks *)

Lemma byte_bits x i : 0 <= x < 256 -> 8 <= i -> Z.testbit x i = false.
Proof.
  intros Hx Hi. rewrite <-(Z.mod_small x (2 ^ 8)) by (change (2 ^ 8) with 256; lia). by apply Z.mod_pow2_bits_high.
Qed.

Lemma bz_bxor a b : bz (bxor a b) = Z.lxor (bz a) (bz b).
Proof.
  unfold bxor. rewrite bz_zb. change 256 with (2 ^ 8). apply Z.bits_inj'. intros i Hi.
  destruct (Z.lt_ge_cases i 8).
  - by rewrite Z.mod_pow2_bits_low.
  - rewrite Z.mod_pow2_bits_high, Z.lxor_spec by lia. pose proof (bz_range a). pose proof (bz_range b). by rewrite !byte_bits.
Qed.

Lemma bxor_bxor a b : bxor (bxor a b) b = a.
Proof. apply bz_inj. by rewrite !bz_bxor, Z.lxor_assoc, Z.lxor_nilpotent, Z.lxor_0_r. Qed.

Lemma land_byte x : bz (zb (Z.land x 127)) = Z.land x 127.
Proof. rewrite bz_zb. change 127 with (Z.ones 7). rewrite Z.land_ones by lia. pose proof (Z.mod_pos_bound x (2 ^ 7)). apply Z.mod_small. lia. Qed.

Lemma unmask_high a m : Z.land (bz a) 128 = 0 -> zb (Z.land (bz (bxor (zb (Z.land (bz (bxor a m)) 127)) m)) 127) = a.
Proof.
  intros Ha. apply bz_inj. rewrite land_byte, !bz_bxor, land_byte. pose proof (bz_range a) as Hr.
  apply Z.bits_inj'. intros i Hi. rewrite !Z.land_spec, !Z.lxor_spec, Z.land_spec, Z.lxor_spec.
  change 127 with (Z.ones 7). destruct (Z.lt_ge_cases i 7).
  - rewrite Z.ones_spec_low by lia. rewrite !andb_true_r. by destruct (Z.testbit (bz a) i), (Z.testbit (bz m) i).
  - rewrite Z.ones_spec_high, andb_false_r by lia. symmetry. destruct (Z.eq_dec i 7) as [->|]; [|apply byte_bits; lia].
    assert (H7 : Z.testbit (Z.land (bz a) 128) 7 = false) by (by rewrite Ha, Z.bits_0). rewrite Z.land_spec in H7.
    change (Z.testbit 128 7) with true in H7. by rewrite andb_true_r in H7.
Qed.

Definition high_clear (l : bytes) : Prop := match l with b :: _ => Z.land (bz b) 128 = 0 | [] => True end.

Lemma clear_high_clear l : high_clear (clear_high_bit l).
Proof.
  destruct l as [|b l]; [done|]. cbn. rewrite land_byte, <-Z.land_assoc. change (Z.land 127 128) with 0. apply Z.land_0_r.
Qed.

Lemma clear_high_length l : length (clear_high_bit l) = length l.
Proof. by destruct l. Qed.

Lemma unmask_rest l mask : length mask = length l -> zip_with bxor (zip_with bxor l mask) mask = l.
Proof.
  revert mask; induction l as [|a l IH]; intros [|m mask] Hl; try done. cbn in *. rewrite bxor_bxor, IH by lia. done.
Qed.

(** Masking twice gives the block back. *)
Lemma unmask l mask : length mask = length l -> high_clear l ->
  clear_high_bit (zip_with bxor (clear_high_bit (zip_with bxor l mask)) mask) = l.
Proof.
  intros Hl Hc. destruct l as [|a l], mask as [|m mask]; try done. cbn in *. by rewrite unmask_high, unmask_rest by lia.
Qed.

(** ** MGF1 *)

Lemma mgf1_length seed n : length (mgf1 seed n) = n.
Proof.
  unfold mgf1. rewrite length_take.
  assert (H : forall l : list nat, length (flat_map (fun c => sha256 (seed ++ be_bytes 4 (Z.of_nat c))) l) = (32 * length l)%nat).
  { intros l. induction l as [|c l IH]; [done|]. cbn [flat_map]. rewrite length_app, IH. pose proof (sha256_len (seed ++ be_bytes 4 (Z.of_nat c))).
    unfold len in *. cbn [length]. lia. }
  rewrite H, length_seq. pose proof (Nat.div_mod (n + 31) 32 ltac:(lia)). pose proof (Nat.mod_upper_bound (n + 31) 32 ltac:(lia)). lia.
Qed.

Lemma mgf1_sha256_spec seed n : Z.of_nat n <= 2 ^ 37 -> _mgf1_sha256 seed (Z.of_nat n) = Some (mgf1 seed n).
Proof.
  intros Hn. unfold _mgf1_sha256, mgf1, PS256_HASH_BYTES. rewrite !(proj2 (Z.ltb_ge _ _)) by lia. cbn [orb]. cbv zeta.
  do 2 f_equal; [lia|]. rewrite flat_map_concat_map, map_map, <-flat_map_concat_map. do 2 f_equal.
  rewrite <-(Nat2Z.id ((n + 31) / 32)), Nat2Z.inj_div, Nat2Z.inj_add. f_equal. f_equal. lia.
Qed.

(** ** The encoded message *)

Lemma app_slices {A} (l1 l2 l3 : list A) n1 n2 :
  len l1 = n1 -> len l2 = n2 - n1 ->
  slice (l1 ++ l2 ++ l3) 0 n1 = l1 /\ slice (l1 ++ l2 ++ l3) n1 n2 = l2 /\ slice_from (l1 ++ l2 ++ l3) n2 = l3.
Proof.
  intros H1 H2. unfold len in *. unfold slice, slice_from. split_and!.
  - rewrite drop_0, Z.sub_0_r. by apply take_app_length'; lia.
  - rewrite drop_app_length' by lia. apply take_app_length'. lia.
  - rewrite app_assoc. apply drop_app_length'. rewrite length_app. lia.
Qed.

Lemma slices_app {A} (l : list A) n1 n2 : 0 <= n1 <= n2 -> slice l 0 n1 ++ slice l n1 n2 ++ slice_from l n2 = l.
Proof.
  intros H. unfold slice, slice_from. rewrite drop_0, Z.sub_0_r.
  replace (Z.to_nat n2) with (Z.to_nat n1 + Z.to_nat (n2 - n1))%nat by lia. by rewrite <-drop_drop, take_drop, take_drop.
Qed.

(** The data block: zeros, a one, and the salt. *)
Definition data_block (salt : bytes) : bytes := replicate 318 x00 ++ [x01] ++ salt.

Lemma data_block_slices l : len l = 351 ->
  (slice l 0 318 = replicate 318 x00 /\ slice l 318 319 = [x01]) <-> l = data_block (slice_from l 319).
Proof.
  intros Hl. split.
  - intros [H1 H2]. rewrite <-(slices_app l 318 319) at 1 by lia. by rewrite H1, H2.
  - intros E. set (s := slice_from l 319) in E. clearbody s. subst l.
    by destruct (app_slices (replicate 318 x00) [x01] s 318 319) as (H1 & H2 & _).
Qed.

Lemma data_block_high salt : high_clear (data_block salt).
Proof. reflexivity. Qed.

Lemma emsa_pss_length message salt : len salt = 32 -> len (emsa_pss_encode message salt) = 384.
Proof.
  intros Hs. unfold emsa_pss_encode. rewrite !len_app, sha256_len. change (len [xbc]) with 1. unfold len in *.
  rewrite clear_high_length, length_zip_with, mgf1_length, !length_app, length_replicate. cbn [length]. lia.
Qed.

Lemma verify_encoded_exact message encoded : len encoded = 384 ->
  verify_encoded message encoded = Some () <-> exists salt, len salt = 32 /\ encoded = emsa_pss_encode message salt.
Proof.
  intros Hl. pose proof (slices_app encoded 351 383 ltac:(lia)) as Hsp.
  assert (HM : len (slice encoded 0 351) = 351) by (unfold len, slice in *; rewrite length_take, length_drop; lia).
  set (M := slice encoded 0 351) in *. set (H := slice encoded 351 383) in *.
  assert (Hmask : _mgf1_sha256 H (len M) = Some (mgf1 H 351)) by (rewrite HM; apply (mgf1_sha256_spec H 351); lia).
  assert (HML : length (mgf1 H 351) = length M) by (rewrite mgf1_length; unfold len in HM; lia).
  assert (HD : len (clear_high_bit (zip_with bxor M (mgf1 H 351))) = 351)
    by (unfold len; rewrite clear_high_length, length_zip_with, HML; unfold len in HM; lia).
  unfold verify_encoded. fold M H. rewrite Hmask, HM. cbn [mbind option_bind]. cbv zeta. rewrite HD.
  change (8 * PS256_SIGNATURE_BYTES - PS256_EM_BITS =? 1) with true. change (351 - PS256_SALT_BYTES - 1) with 318.
  change (351 - PS256_SALT_BYTES) with 319. change (318 + 1) with 319. cbn [Z.eqb Pos.eqb negb orb]. change (Z.to_nat 318) with 318%nat.
  set (D := clear_high_bit (zip_with bxor M (mgf1 H 351))) in *. split.
  - intros V. case_bool_decide as HT; [|done]. cbn [negb] in V.
    destruct M as [|b M'] eqn:EM; [by rewrite len_nil in HM|]. destruct (Z.land (bz b) 128 =? 0) eqn:HB; [|done]. cbn [negb] in V.
    apply Z.eqb_eq in HB. case_bool_decide as H1; [|done]. cbn [negb] in V. case_bool_decide as H2; [|done]. cbn [negb] in V.
    case_bool_decide as H3; [|done]. exists (slice_from D 319). split.
    { unfold slice_from, len in *. rewrite length_drop. lia. }
    unfold emsa_pss_encode. rewrite <-H3. change (replicate 318 x00 ++ [x01] ++ slice_from D 319) with (data_block (slice_from D 319)).
    rewrite <-(proj1 (data_block_slices D HD) (conj H1 H2)). unfold D. rewrite unmask by done. by rewrite <-HT, Hsp.
  - intros (salt & Hs & ->). assert (HDB : length (mgf1 (sha256 (replicate 8 x00 ++ sha256 message ++ salt)) 351) = length (data_block salt)).
    { rewrite mgf1_length. unfold data_block, len in *. rewrite !length_app, length_replicate. cbn [length]. lia. }
    destruct (app_slices (clear_high_bit (zip_with bxor (data_block salt) (mgf1 (sha256 (replicate 8 x00 ++ sha256 message ++ salt)) 351)))
      (sha256 (replicate 8 x00 ++ sha256 message ++ salt)) [xbc] 351 383) as (S1 & S2 & S3).
    { unfold len. rewrite clear_high_length, length_zip_with, mgf1_length, <-HDB, mgf1_length. lia. }
    { rewrite sha256_len. lia. }
    fold (data_block salt) in M, H |- *. unfold emsa_pss_encode in M, H |- *. fold (data_block salt) in M, H |- *.
    rewrite (bool_decide_eq_true_2 _ S3). cbn [negb]. change (slice (emsa_pss_encode message salt) 0 351) with M.
    assert (EM : M = clear_high_bit (zip_with bxor (data_block salt) (mgf1 (sha256 (replicate 8 x00 ++ sha256 message ++ salt)) 351))) by exact S1.
    assert (EH : H = sha256 (replicate 8 x00 ++ sha256 message ++ salt)) by exact S2.
    assert (ED : D = data_block salt) by (unfold D; rewrite EM, EH; by apply unmask).
    clearbody D. assert (HC : high_clear M) by (rewrite EM; apply clear_high_clear).
    destruct M as [|b M'] eqn:E0; [by rewrite len_nil in HM|]. cbn [high_clear] in HC. rewrite HC. cbn [Z.eqb negb].
    destruct (proj2 (data_block_slices D HD)) as [H1 H2].
    { rewrite ED. unfold data_block at 3. by destruct (app_slices (replicate 318 x00) [x01] salt 318 319) as (_ & _ & ->). }
    rewrite (bool_decide_eq_true_2 _ H1), (bool_decide_eq_true_2 _ H2). cbn [negb].
    assert (HS : slice_from D 319 = salt) by (rewrite ED; by destruct (app_slices (replicate 318 x00) [x01] salt 318 319) as (_ & _ & ?)).
    rewrite HS, EH. by rewrite (bool_decide_eq_true_2 _ eq_refl).
Qed.

(** The keys the check accepts. *)
Definition rsa_key (modulus exponent : Z) : Prop :=
  0 < modulus /\ modulus mod 2 <> 0 /\ bit_length modulus = RSA_MODULUS_BITS /\ exponent = RSA_PUBLIC_EXPONENT.

Lemma rsa_key_bound modulus exponent : rsa_key modulus exponent -> 1 < modulus < 256 ^ 384.
Proof.
  intros (Hp & _ & Hb & _). unfold bit_length, RSA_MODULUS_BITS in Hb. assert (HL : Z.log2 modulus = 3071) by lia. split.
  - destruct (Z.le_gt_cases modulus 1); [|lia]. assert (modulus = 1) as -> by lia. done.
  - pose proof (Z.log2_spec modulus Hp) as [_ H]. rewrite HL in H. change 256 with (2 ^ 8). rewrite <-Z.pow_mul_r by lia. exact H.
Qed.

Lemma key_checks modulus exponent :
  ((modulus <=? 0) || (modulus mod 2 =? 0) || negb (bit_length modulus =? RSA_MODULUS_BITS) = false /\
   negb (exponent =? RSA_PUBLIC_EXPONENT) = false) <-> rsa_key modulus exponent.
Proof.
  unfold rsa_key. rewrite !orb_false_iff, !negb_false_iff, Z.leb_gt, Z.eqb_neq, !Z.eqb_eq. tauto.
Qed.

(** The encoded message of a signature representative. *)
Lemma power_bytes s modulus exponent : rsa_key modulus exponent ->
  int_be (be_bytes (Z.to_nat PS256_SIGNATURE_BYTES) (Zpow_mod (int_be s) exponent modulus)) = int_be s ^ RSA_PUBLIC_EXPONENT mod modulus.
Proof.
  intros K. pose proof (rsa_key_bound _ _ K) as [H1 H2]. destruct K as (_ & _ & _ & ->).
  rewrite Zpow_mod_correct by (unfold RSA_PUBLIC_EXPONENT; lia). apply int_be_be_bytes.
  pose proof (Z.mod_pos_bound (int_be s ^ RSA_PUBLIC_EXPONENT) modulus ltac:(lia)) as [B1 B2]. split; [exact B1|].
  eapply Z.lt_trans; [exact B2|exact H2].
Qed.

(** C34: the signature check is RSA-PSS.  [verify_ps256] accepts a signature of a
    message exactly when the key is an odd 3072-bit modulus with exponent 65537
    and the signature is the canonical base64url text of 384 bytes, below the
    modulus as an integer, whose 65537th power modulo the key is the EMSA-PSS
    encoding (RFC 8017, SHA-256, MGF1-SHA-256, 3071 bits) of the message with
    some salt of 32 bytes. *)
Theorem verify_ps256_exact message signature modulus exponent :
  verify_ps256 message signature modulus exponent = Some () <->
  rsa_key modulus exponent /\
  exists s salt, signature = JStr (b64_encode s) /\ len s = PS256_SIGNATURE_BYTES /\ int_be s < modulus /\
    len salt = PS256_SALT_BYTES /\ int_be s ^ RSA_PUBLIC_EXPONENT mod modulus = int_be (emsa_pss_encode message salt).
Proof.
  assert (HB : forall s, len (be_bytes (Z.to_nat PS256_SIGNATURE_BYTES) (Zpow_mod (int_be s) exponent modulus)) = 384)
    by (intros s; unfold len; by rewrite be_bytes_length).
  rewrite <-key_checks. unfold verify_ps256. split.
  - intros H. destruct (_ || _ || _) eqn:K1 in H; [done|]. destruct (negb (exponent =? _)) eqn:K2 in H; [done|].
    pose proof (proj1 (key_checks modulus exponent) (conj K1 K2)) as K. split; [exact (conj K1 K2)|].
    apply bind_Some in H as (s & Hs & H). destruct (negb (len s =? _)) eqn:L in H; [done|]. apply negb_false_iff, Z.eqb_eq in L.
    cbv zeta in H. destruct (modulus <=? int_be s) eqn:B in H; [done|]. apply Z.leb_gt in B.
    apply verify_encoded_exact in H as (salt & Hsalt & He); [|apply HB].
    apply base64url_decoded in Hs as [_ ->]. exists s, salt.
    refine (conj eq_refl (conj L (conj B (conj Hsalt _)))). rewrite <-He. symmetry. apply power_bytes. exact K.
  - intros ((K1 & K2) & s & salt & -> & L & B & Hsalt & He). pose proof (proj1 (key_checks modulus exponent) (conj K1 K2)) as K.
    rewrite K1, K2. rewrite base64url_read by (intros ->; by rewrite len_nil in L). cbn [mbind option_bind].
    rewrite L. cbn [negb Z.eqb Pos.eqb]. change (PS256_SIGNATURE_BYTES =? PS256_SIGNATURE_BYTES) with true. cbn [negb]. cbv zeta.
    rewrite (proj2 (Z.leb_gt _ _) B). apply verify_encoded_exact; [apply HB|]. exists salt. split; [exact Hsalt|].
    rewrite <-(power_bytes s modulus exponent K) in He. rewrite <-(be_bytes_int_be (be_bytes _ _)), be_bytes_length, He.
    pose proof (emsa_pss_length message salt Hsalt) as HE. rewrite <-(be_bytes_int_be (emsa_pss_encode message salt)) at 2.
    f_equal. unfold len in HE. change (Z.to_nat PS256_SIGNATURE_BYTES) with 384%nat. lia.
Qed.
