(* ===== verification/TrustPolicy.v ===== *)
(** * The collector trust policy

    [rsa_spki_sha256] with its DER encoders, [_require_exact_json_value],
    [require_kms_key_version] and [parse_trust_policy_bytes] of
    src/scripts/harness/raw_artifacts.py. *)

From S2P Require Import Prelude Sha256 Text Json Effects Base64 Ps256.

(** ** DER *)

(** [value.to_bytes((value.bit_length() + 7) // 8, "big")] of a positive value. *)
Definition min_bytes (value : Z) : bytes := be_bytes (Z.to_nat ((bit_length value + 7) / 8)) value.

Definition _der_length (length : Z) : bytes :=
  if length <? 128 then [zb length]
  else let encoded := min_bytes length in zb (Z.lor 128 (len encoded)) :: encoded.

Definition _der_tlv (tag : byte) (value : bytes) : bytes := [tag] ++ _der_length (len value) ++ value.

(** [None] is [RawArtifactError]. *)
Definition _der_integer (value : Z) : option bytes :=
  if value <=? 0 then None
  else
    let encoded := min_bytes value in
    let encoded := match encoded with b :: _ => if Z.land (bz b) 128 =? 0 then encoded else x00 :: encoded | [] => encoded end in
    Some (_der_tlv x02 encoded).

(** The algorithm identifier rsaEncryption. *)
Definition rsa_encryption_algorithm : bytes :=
  [x30; x0d; x06; x09; x2a; x86; x48; x86; xf7; x0d; x01; x01; x01; x05; x00].

(** The DER SubjectPublicKeyInfo whose digest [rsa_spki_sha256] returns. *)
Definition rsa_spki (modulus exponent : Z) : option bytes :=
  n ← _der_integer modulus;
  e ← _der_integer exponent;
  let rsa_public_key := _der_tlv x30 (n ++ e) in
  let subject_public_key := _der_tlv x03 ([x00] ++ rsa_public_key) in
  Some (_der_tlv x30 (rsa_encryption_algorithm ++ subject_public_key)).
Definition rsa_spki_sha256 (modulus exponent : Z) : option str := hexdigest <$> rsa_spki modulus exponent.

(** ** The policy document *)

Definition COLLECTOR_SIGNATURE_ALGORITHM : str := u "PS256".
Definition KMS_SIGNATURE_ALGORITHM : str := u "RSA_SIGN_PSS_3072_SHA256".
Definition KMS_PROTECTION_LEVEL : str := u "HSM".
Definition KMS_ATTESTATION_FORMATS : list str := [u "CAVIUM_V1_COMPRESSED"; u "CAVIUM_V2_COMPRESSED"].
Definition MAX_TRUST_POLICY_BYTES : Z := 64 * 1024.

Definition EVIDENCE_PROFILE : json :=
  JObj [(u "aggregate_schema_version", JInt 5);
        (u "aggregator_version", JStr (u "physical-evidence-aggregator-v5-single-machine"));
        (u "boot_environment_scheme", JStr (u "cfw-boot-environment-v1"));
        (u "machine_identity_scheme", JStr (u "cfw-physical-machine-identity-v1"));
        (u "machine_topology", JStr (u "one-machine-two-clean-os-v1"));
        (u "required_runs",
          JList [JObj [(u "macos_build", JStr (u "25G72")); (u "macos_version", JStr (u "26.6")); (u "os", JStr (u "current-macos"))];
                 JObj [(u "macos_build", JStr (u "24G824")); (u "macos_version", JStr (u "15.7.8")); (u "os", JStr (u "macos15"))]]);
        (u "schema_version", JInt 1);
        (u "soak_hours_per_run", JInt 3)].

Definition EVIDENCE_PROFILE_FIELDS : list str := map fst (dict_items EVIDENCE_PROFILE).

(** [_require_exact_json_value] returns: the value has the type of the expected
    one at every place, the same fields, lengths and scalars. *)
Fixpoint _require_exact_json_value (expected value : json) : bool :=
  match expected, value with
  | JNull, JNull => true
  | JBool a, JBool b => Bool.eqb a b
  | JInt a, JInt b => a =? b
  | JFloat a, JFloat b => bool_decide (a = b)
  | JStr a, JStr b => str_eqb a b
  | JList l, JList m =>
      (fix items (l m : list json) : bool :=
         match l, m with
         | [], [] => true
         | x :: l, y :: m => _require_exact_json_value x y && items l m
         | _, _ => false
         end) l m
  | JObj l, JObj m =>
      same_fields (map fst l) m &&
      forallb (fun kv => match obj_get m (fst kv) with Some v => _require_exact_json_value (snd kv) v | None => false end) l
  | _, _ => false
  end.

Definition lower (c : Z) : bool := (97 <=? c) && (c <=? 122).
Definition upper (c : Z) : bool := (65 <=? c) && (c <=? 90).
Definition between (lo hi : nat) (s : str) : bool := (lo <=? length s)%nat && (length s <=? hi)%nat.

(** The segments of GCP_KMS_KEY_VERSION_RE, none of which holds a slash. *)
Definition kms_project (s : str) : bool :=
  match s with
  | c :: r => lower c && between 6 30 s && forallb (fun c => lower c || is_digit c || (c =? 45)) r &&
              match List.last s 0 with c => lower c || is_digit c end
  | [] => false
  end.
Definition kms_location (s : str) : bool := between 1 63 s && forallb (fun c => lower c || is_digit c || (c =? 45)) s.
Definition kms_name (s : str) : bool :=
  between 1 63 s && forallb (fun c => lower c || upper c || is_digit c || (c =? 95) || (c =? 45)) s.
Definition kms_version (s : str) : bool :=
  match s with c :: r => (49 <=? c) && (c <=? 57) && forallb is_digit r | [] => false end.

Definition GCP_KMS_KEY_VERSION_RE (s : str) : bool :=
  match split_slash s with
  | [projects; p; locations; l; keyRings; k; cryptoKeys; c; versions; v] =>
      str_eqb projects (u "projects") && kms_project p && str_eqb locations (u "locations") && kms_location l &&
      str_eqb keyRings (u "keyRings") && kms_name k && str_eqb cryptoKeys (u "cryptoKeys") && kms_name c &&
      str_eqb versions (u "cryptoKeyVersions") && kms_version v
  | _ => false
  end.

Definition RAE {A} : result pyexn A := Err RawArtifactError.

Definition require_kms_key_version (value : json) : result pyexn str :=
  match value with JStr s => if GCP_KMS_KEY_VERSION_RE s then Ok s else RAE | _ => RAE end.
Definition require_sha256 (value : json) : result pyexn str :=
  match value with JStr s => if is_sha256 s then Ok s else RAE | _ => RAE end.
Definition is_identifier_char (c : Z) : bool :=
  is_digit c || upper c || lower c || (c =? 46) || (c =? 95) || (c =? 45).
(** [^[A-Za-z0-9][A-Za-z0-9._-]{0,127}$]. *)
Definition IDENTIFIER_RE (s : str) : bool :=
  match s with
  | c :: r => (is_digit c || upper c || lower c) && forallb is_identifier_char r && (length r <=? 127)%nat
  | [] => false
  end.
Definition require_identifier (value : json) : result pyexn str :=
  match value with JStr s => if IDENTIFIER_RE s then Ok s else RAE | _ => RAE end.

(** [value[name]] of a dict that has the field. *)
Definition member (l : list (str * json)) (name : string) : json := default JNull (obj_get l (u name)).
(** [value == text]. *)
Definition json_eq_str (value : json) (text : str) : bool := match value with JStr s => str_eqb s text | _ => false end.
(** [type(value) is int and value == n]. *)
Definition json_eq_int (value : json) (n : Z) : bool := match value with JInt z => z =? n | _ => false end.
Definition printable_text (maximum : Z) (value : json) : bool :=
  match value with
  | JStr s => match utf8_encode s with
              | Some b => negb (bool_decide (s = [])) && (len b <=? maximum) && negb (existsb (fun c => (c <? 32) || (c =? 127)) s)
              | None => false
              end
  | _ => false
  end.

Record CollectorTrustPolicy := {
  tp_policy_sha256 : str; tp_key_version : str; tp_algorithm : str; tp_kms_algorithm : str; tp_protection_level : str;
  tp_attestation_format : str; tp_public_key_sha256 : str; tp_attestation_sha256 : str; tp_modulus : Z; tp_exponent : Z;
  tp_collector_version : str; tp_collector_source_sha256 : str; tp_collector_executable_sha256 : str;
  tp_evidence_profile_sha256 : str; tp_aggregate_schema_version : json; tp_aggregator_version : json;
  tp_boot_environment_scheme : json; tp_machine_identity_scheme : json; tp_machine_topology : json;
  tp_release_source_pinned : bool
}.

Definition NOT_CONFIGURED_FIELDS : list str := [u "schema_version"; u "state"; u "reason"].
Definition POLICY_FIELDS : list str :=
  [u "schema_version"; u "state"; u "key_version"; u "kty"; u "alg"; u "kms_algorithm"; u "protection_level";
   u "attestation_format"; u "public_key_sha256"; u "attestation_sha256"; u "n"; u "e"; u "collector_version";
   u "collector_source_sha256"; u "collector_executable_sha256"; u "evidence_profile"].

Definition of_raw {A} (o : option A) : result pyexn A := match o with Some a => Ok a | None => RAE end.

(** The record of a policy that was never provisioned: always an exception. *)
Definition not_configured {A} (value : list (str * json)) : result pyexn A :=
  _ ← of_raw (exact_object (JObj value) NOT_CONFIGURED_FIELDS);
  raise_if negb (json_eq_int (member value "schema_version") 2) || negb (printable_text 512 (member value "reason"))
    with RawArtifactError ;;
  Err CollectorTrustNotConfiguredError.

(** [value not in KMS_ATTESTATION_FORMATS]; a list or a dict is not hashable. *)
Definition attestation_format (value : json) : result pyexn str :=
  match value with
  | JStr s => if existsb (str_eqb s) KMS_ATTESTATION_FORMATS then Ok s else RAE
  | JList _ | JObj _ => Err OtherException
  | _ => RAE
  end.

(** The key of the policy: canonical bytes of an odd 3072-bit modulus and of the
    exponent 65537. *)
Definition policy_key (n e : json) : result pyexn (Z * Z) :=
  modulus_bytes ← of_raw (_base64url_decode n);
  exponent_bytes ← of_raw (_base64url_decode e);
  raise_if negb (len modulus_bytes =? PS256_SIGNATURE_BYTES) ||
           match modulus_bytes with b :: _ => bz b <? 128 | [] => true end with RawArtifactError ;;
  raise_if negb (bool_decide (exponent_bytes = be_bytes 3 RSA_PUBLIC_EXPONENT)) with RawArtifactError ;;
  let modulus := int_be modulus_bytes in
  let exponent := int_be exponent_bytes in
  raise_if (modulus mod 2 =? 0) || negb (bit_length modulus =? RSA_MODULUS_BITS) with RawArtifactError ;;
  raise_if negb (exponent =? RSA_PUBLIC_EXPONENT) with RawArtifactError ;;
  Ok (modulus, exponent).

Definition configured_policy (policy : list (str * json)) (actual_digest : str) (release_source_pinned : bool)
  : result pyexn CollectorTrustPolicy :=
  _ ← of_raw (exact_object (JObj policy) POLICY_FIELDS);
  raise_if negb (json_eq_int (member policy "schema_version") 3) || negb (json_eq_str (member policy "state") (u "configured"))
    with RawArtifactError ;;
  evidence_profile ← of_raw (exact_object (member policy "evidence_profile") EVIDENCE_PROFILE_FIELDS);
  raise_if negb (_require_exact_json_value EVIDENCE_PROFILE (JObj evidence_profile)) with RawArtifactError ;;
  profile_bytes ← of_raw (canonical_json (JObj evidence_profile));
  raise_if negb (json_eq_str (member policy "kty") (u "RSA")) ||
           negb (json_eq_str (member policy "alg") COLLECTOR_SIGNATURE_ALGORITHM) with RawArtifactError ;;
  raise_if negb (json_eq_str (member policy "kms_algorithm") KMS_SIGNATURE_ALGORITHM) with RawArtifactError ;;
  raise_if negb (json_eq_str (member policy "protection_level") KMS_PROTECTION_LEVEL) with RawArtifactError ;;
  attestation ← attestation_format (member policy "attestation_format");
  key_version ← require_kms_key_version (member policy "key_version");
  '(modulus, exponent) ← policy_key (member policy "n") (member policy "e");
  public_key_sha256 ← require_sha256 (member policy "public_key_sha256");
  computed ← of_raw (rsa_spki_sha256 modulus exponent);
  raise_if negb (str_eqb public_key_sha256 computed) with RawArtifactError ;;
  attestation_sha256 ← require_sha256 (member policy "attestation_sha256");
  raise_if str_eqb attestation_sha256 (replicate 64 48) || str_eqb attestation_sha256 public_key_sha256 with RawArtifactError ;;
  collector_version ← require_identifier (member policy "collector_version");
  source ← require_sha256 (member policy "collector_source_sha256");
  executable ← require_sha256 (member policy "collector_executable_sha256");
  Ok {| tp_policy_sha256 := actual_digest; tp_key_version := key_version; tp_algorithm := COLLECTOR_SIGNATURE_ALGORITHM;
        tp_kms_algorithm := KMS_SIGNATURE_ALGORITHM; tp_protection_level := KMS_PROTECTION_LEVEL;
        tp_attestation_format := attestation; tp_public_key_sha256 := public_key_sha256;
        tp_attestation_sha256 := attestation_sha256; tp_modulus := modulus; tp_exponent := exponent;
        tp_collector_version := collector_version; tp_collector_source_sha256 := source;
        tp_collector_executable_sha256 := executable; tp_evidence_profile_sha256 := hexdigest profile_bytes;
        tp_aggregate_schema_version := member evidence_profile "aggregate_schema_version";
        tp_aggregator_version := member evidence_profile "aggregator_version";
        tp_boot_environment_scheme := member evidence_profile "boot_environment_scheme";
        tp_machine_identity_scheme := member evidence_profile "machine_identity_scheme";
        tp_machine_topology := member evidence_profile "machine_topology";
        tp_release_source_pinned := release_source_pinned |}.

Definition parse_trust_policy_bytes (data : bytes) (expected_sha256 : str) (release_source_pinned : bool)
  : result pyexn CollectorTrustPolicy :=
  _ ← require_sha256 (JStr expected_sha256);
  raise_if bool_decide (data = []) || (MAX_TRUST_POLICY_BYTES <? len data) with RawArtifactError ;;
  let actual_digest := hexdigest data in
  raise_if negb (str_eqb actual_digest expected_sha256) with RawArtifactError ;;
  match load_json_bytes data with
  | Some (JObj value) =>
      canonical ← of_raw (canonical_json (JObj value));
      raise_if negb (bool_decide (data = canonical ++ [x0a])) with RawArtifactError ;;
      if json_eq_str (member value "state") (u "not-configured") then not_configured value
      else configured_policy value actual_digest release_source_pinned
  | _ => RAE
  end.

(** ** The key of a SubjectPublicKeyInfo *)

Lemma bit_length_bound v : 0 < v -> 1 <= bit_length v /\ v < 2 ^ bit_length v.
Proof.
  intros Hv. unfold bit_length. pose proof (Z.log2_nonneg v). split; [lia|].
  rewrite Z.add_1_r. by apply Z.log2_spec.
Qed.

Lemma min_bytes_value v : 0 < v -> int_be (min_bytes v) = v.
Proof.
  intros Hv. destruct (bit_length_bound v Hv) as [Hb Hv2]. unfold min_bytes. apply int_be_be_bytes. split; [lia|].
  eapply Z.lt_le_trans; [exact Hv2|]. rewrite Z2Nat.id by (Z.to_euclidean_division_equations; lia).
  change 256 with (2 ^ 8). rewrite <-Z.pow_mul_r by (Z.to_euclidean_division_equations; lia).
  apply Z.pow_le_mono_r; Z.to_euclidean_division_equations; lia.
Qed.

Lemma min_bytes_len v : 0 < v < 2 ^ 1000 -> 1 <= len (min_bytes v) <= 125.
Proof.
  intros [Hv Hb]. destruct (bit_length_bound v Hv) as [H1 _]. unfold min_bytes, len. rewrite be_bytes_length.
  assert (Z.log2 v < 1000) by (by apply Z.log2_lt_pow2). unfold bit_length in *.
  rewrite Z2Nat.id; Z.to_euclidean_division_equations; lia.
Qed.

Lemma lor_128 k : 0 <= k < 128 -> Z.lor 128 k = 128 + k.
Proof.
  intros Hk. assert (HL : Z.land 128 k = 0).
  { apply Z.bits_inj'. intros i Hi. rewrite Z.land_spec, Z.bits_0. change 128 with (2 ^ 7). rewrite Z.pow2_bits_eqb by lia.
    destruct (Z.eqb_spec 7 i) as [<-|]; [|done]. cbn [andb]. rewrite <-(Z.mod_small k (2 ^ 7)) by (change (2 ^ 7) with 128; lia).
    by apply Z.mod_pow2_bits_high. }
  symmetry. rewrite <-Z.lxor_lor by done. by apply Z.add_nocarry_lxor.
Qed.

(** Lengths, and with them tagged values, are read off the front of a text. *)
Lemma der_length_inj a b r r' : 0 <= a < 2 ^ 1000 -> 0 <= b < 2 ^ 1000 ->
  _der_length a ++ r = _der_length b ++ r' -> a = b /\ r = r'.
Proof.
  intros Ha Hb. unfold _der_length.
  assert (HF : forall v, 128 <= v < 2 ^ 1000 -> bz (zb (Z.lor 128 (len (min_bytes v)))) = 128 + len (min_bytes v) /\ 1 <= len (min_bytes v)).
  { intros v Hv. pose proof (min_bytes_len v ltac:(lia)). rewrite lor_128, bz_zb by lia. split; [apply Z.mod_small; lia|lia]. }
  destruct (a <? 128) eqn:A, (b <? 128) eqn:B; rewrite ?Z.ltb_lt, ?Z.ltb_ge in *; cbn [app]; intros H; injection H as H1 H2.
  - apply (f_equal bz) in H1. rewrite !bz_zb, !Z.mod_small in H1 by lia. done.
  - apply (f_equal bz) in H1. destruct (HF b ltac:(lia)) as [E ?]. rewrite E, bz_zb, Z.mod_small in H1 by lia. lia.
  - apply (f_equal bz) in H1. destruct (HF a ltac:(lia)) as [E ?]. rewrite E, bz_zb, Z.mod_small in H1 by lia. lia.
  - apply (f_equal bz) in H1. destruct (HF a ltac:(lia)) as [Ea _], (HF b ltac:(lia)) as [Eb _]. rewrite Ea, Eb in H1.
    assert (HL : length (min_bytes a) = length (min_bytes b)) by (unfold len in H1; lia).
    destruct (app_inj_1 _ _ _ _ HL H2) as [HM ->]. split; [|done].
    rewrite <-(min_bytes_value a), <-(min_bytes_value b) by lia. by rewrite HM.
Qed.

Lemma der_tlv_inj t t' v v' r r' : len v < 2 ^ 1000 -> len v' < 2 ^ 1000 ->
  _der_tlv t v ++ r = _der_tlv t' v' ++ r' -> t = t' /\ v = v' /\ r = r'.
Proof.
  intros Hv Hv'. unfold _der_tlv. cbn [app]. intros H. injection H as -> H. rewrite <-!app_assoc in H.
  pose proof (len_nonneg v). pose proof (len_nonneg v').
  apply der_length_inj in H as [HL H]; [|lia|lia]. assert (length v = length v') by (unfold len in HL; lia).
  by destruct (app_inj_1 _ _ _ _ H2 H) as [-> ->].
Qed.

Lemma der_tlv_inj_all t t' v v' : len v < 2 ^ 1000 -> len v' < 2 ^ 1000 -> _der_tlv t v = _der_tlv t' v' -> t = t' /\ v = v'.
Proof.
  intros Hv Hv' H. destruct (der_tlv_inj t t' v v' [] [] Hv Hv') as (? & ? & _); [by rewrite !app_nil_r|done].
Qed.

Lemma der_tlv_len t v : len v <= len (_der_tlv t v).
Proof. unfold _der_tlv. rewrite !len_app. pose proof (len_nonneg [t]). pose proof (len_nonneg (_der_length (len v))). lia. Qed.

(** The content of an integer has its value. *)
Lemma der_integer_content z d : _der_integer z = Some d -> exists c, d = _der_tlv x02 c /\ int_be c = z.
Proof.
  unfold _der_integer. destruct (z <=? 0) eqn:P; [done|]. apply Z.leb_gt in P. intros [= <-]. eexists. split; [reflexivity|].
  pose proof (min_bytes_value z P) as HV. destruct (min_bytes z) as [|b l] eqn:M; [done|]. destruct (_ =? 0); [done|].
  change (x00 :: b :: l) with ([x00] ++ b :: l). rewrite int_be_app, HV. done.
Qed.

Lemma rsa_spki_content n e d : rsa_spki n e = Some d ->
  exists cn ce, int_be cn = n /\ int_be ce = e /\
    d = _der_tlv x30 (rsa_encryption_algorithm ++ _der_tlv x03 ([x00] ++ _der_tlv x30 (_der_tlv x02 cn ++ _der_tlv x02 ce))).
Proof.
  unfold rsa_spki. intros H. apply bind_Some in H as (dn & Hn & H). apply bind_Some in H as (de & He & H).
  apply der_integer_content in Hn as (cn & -> & Hn), He as (ce & -> & He). exists cn, ce. by injection H as <-.
Qed.

Lemma rsa_spki_inj n1 e1 n2 e2 d : len d < 2 ^ 1000 ->
  rsa_spki n1 e1 = Some d -> rsa_spki n2 e2 = Some d -> n1 = n2 /\ e1 = e2.
Proof.
  intros Hd (cn1 & ce1 & Hn1 & He1 & D1)%rsa_spki_content (cn2 & ce2 & Hn2 & He2 & D2)%rsa_spki_content.
  assert (Hb : forall cn ce, d = _der_tlv x30 (rsa_encryption_algorithm ++ _der_tlv x03 ([x00] ++ _der_tlv x30 (_der_tlv x02 cn ++ _der_tlv x02 ce))) ->
    len (rsa_encryption_algorithm ++ _der_tlv x03 ([x00] ++ _der_tlv x30 (_der_tlv x02 cn ++ _der_tlv x02 ce))) < 2 ^ 1000 /\
    len ([x00] ++ _der_tlv x30 (_der_tlv x02 cn ++ _der_tlv x02 ce)) < 2 ^ 1000 /\
    len (_der_tlv x02 cn ++ _der_tlv x02 ce) < 2 ^ 1000 /\ len cn < 2 ^ 1000 /\ len ce < 2 ^ 1000).
  { intros cn ce ->. pose proof (der_tlv_len x30 (rsa_encryption_algorithm ++ _der_tlv x03 ([x00] ++ _der_tlv x30 (_der_tlv x02 cn ++ _der_tlv x02 ce)))) as L1.
    pose proof (der_tlv_len x03 ([x00] ++ _der_tlv x30 (_der_tlv x02 cn ++ _der_tlv x02 ce))) as L2.
    pose proof (der_tlv_len x30 (_der_tlv x02 cn ++ _der_tlv x02 ce)) as L3. pose proof (der_tlv_len x02 cn) as L4. pose proof (der_tlv_len x02 ce) as L5.
    rewrite !len_app in *. pose proof (len_nonneg rsa_encryption_algorithm). pose proof (len_nonneg [x00]).
    pose proof (len_nonneg cn). pose proof (len_nonneg ce). lia. }
  destruct (Hb _ _ D1) as (A1 & A2 & A3 & A4 & A5), (Hb _ _ D2) as (B1 & B2 & B3 & B4 & B5). rewrite D1 in D2.
  apply der_tlv_inj_all in D2 as [_ D2]; [|done..]. apply app_inv_head in D2. apply der_tlv_inj_all in D2 as [_ D2]; [|done..].
  apply app_inv_head in D2. apply der_tlv_inj_all in D2 as [_ D2]; [|done..]. apply der_tlv_inj in D2 as (_ & Hcn & D2); [|done..].
  apply der_tlv_inj_all in D2 as [_ Hce]; [|done..]. by subst.
Qed.

Lemma fmap_some_inj {A B} (f : A -> B) a b : f <$> Some a = f <$> Some b -> f a = f b.
Proof. intros [=]. assumption. Qed.

(** The public-key digest binds the key.  Two keys whose
    [rsa_spki_sha256] is the same are the same modulus and the same exponent, or
    their SubjectPublicKeyInfo encodings are a SHA-256 collision. *)
Theorem spki_digest_binds_key n1 e1 n2 e2 d1 d2 :
  rsa_spki n1 e1 = Some d1 -> rsa_spki n2 e2 = Some d2 -> len d1 < 2 ^ 1000 -> len d2 < 2 ^ 1000 ->
  rsa_spki_sha256 n1 e1 = rsa_spki_sha256 n2 e2 ->
  (n1 = n2 /\ e1 = e2) \/ (d1 <> d2 /\ hexdigest d1 = hexdigest d2).
Proof.
  intros H1 H2 L1 L2 H. unfold rsa_spki_sha256 in H. rewrite H1, H2 in H.
  pose proof (fmap_some_inj hexdigest d1 d2 H) as E.
  destruct (decide (d1 = d2)) as [<-|N]; [left|right; exact (conj N E)]. exact (rsa_spki_inj n1 e1 n2 e2 d1 L1 H1 H2).
Qed.

(** The key of the witness below, encoded. *)
Definition small_spki : bytes := Eval vm_compute in default [] (rsa_spki 187 3).

Lemma spki_digest_binds_key_witness :
  (187 = 187 /\ 3 = 3) \/ (small_spki <> small_spki /\ hexdigest small_spki = hexdigest small_spki).
Proof.
  assert (E : rsa_spki 187 3 = Some small_spki) by (vm_compute; reflexivity).
  assert (L : len small_spki < 2 ^ 1000) by (vm_compute; reflexivity).
  exact (spki_digest_binds_key 187 3 187 3 small_spki small_spki E E L L (eq_refl (rsa_spki_sha256 187 3))).
Defined.
