(* ===== verification/PolicyProofs.v ===== *)
(** * What the reader of the trust policy accepts

    The lemmas on [parse_trust_policy_bytes] of
    src/scripts/harness/raw_artifacts.py: the document of a policy, and that
    exactly the canonical lines of such documents are read. *)

From S2P Require Import Prelude Sha256 Text Json Effects Base64 Ps256 TrustPolicy.

(** ** What an accepted policy is *)

(** [value] holds the same JSON value as [expected], up to the order of keys. *)
Lemma exact_value_dumps expected value :
  plain expected = true -> strict value = true -> _require_exact_json_value expected value = true -> dumps value = dumps expected.
Proof.
  revert value. induction expected as [| b | z | f | s | l IH | l IH] using json_induction; intros value HP HS H;
    destruct value as [| b' | z' | f' | s' | m | m]; try discriminate H; cbn [_require_exact_json_value] in H; try done.
  - by apply Bool.eqb_prop in H as ->.
  - by apply Z.eqb_eq in H as ->.
  - by apply str_eqb_eq in H as ->.
  - cbn [dumps]. do 3 f_equal. cbn [plain strict] in HP, HS. revert m HS H. induction IH as [|x l Hx _ IHl]; intros [|y m] HS H; try done.
    cbn [forallb] in HP, HS. apply andb_prop in HP as [HPx HP], HS as [HSy HS], H as [Hxy H]. cbn [map].
    by rewrite (Hx y), (IHl HP m).
  - apply andb_prop in H as [HF H]. pose proof (strict_unique _ HS) as NM. cbn [plain] in HP. apply andb_prop in HP as [NL HP].
    apply bool_decide_eq_true in NL. pose proof (dict_of_fields _ _ NL NM HF) as HPm.
    rewrite (dumps_obj_perm _ _ NM HPm). cbn [dumps]. do 5 f_equal. rewrite map_map, map_map. apply map_ext_in. intros [k v] Hkv. cbn [fst snd].
    f_equal. rewrite Forall_forall in IH. rewrite forallb_forall in H, HP. specialize (H _ Hkv). cbn [fst snd] in H.
    destruct (obj_get m k) as [w|] eqn:G; [|done]. cbn. apply (IH (k, v)); [by apply list_elem_of_In| | |done].
    + specialize (HP _ Hkv). by apply andb_prop in HP as [_ ?].
    + cbn [strict] in HS. apply andb_prop in HS as [_ HS]. rewrite forallb_forall in HS. apply obj_get_some, list_elem_of_In in G.
      exact (HS _ G).
Qed.

Lemma dumps_obj_ext l1 l2 :
  Forall2 (fun a b => fst a = fst b /\ dumps (snd a) = dumps (snd b)) l1 l2 -> dumps (JObj l1) = dumps (JObj l2).
Proof.
  intros H. cbn [dumps]. do 5 f_equal. induction H as [|[k v] [k' v'] l1 l2 [Hk Hv] _ IH]; [done|].
  cbn [map fst snd] in *. by rewrite Hk, Hv, IH.
Qed.

Lemma exact_text s value : _require_exact_json_value (JStr s) value = true -> value = JStr s.
Proof. destruct value; try done. cbn. by intros ->%str_eqb_eq. Qed.
Lemma exact_int z value : _require_exact_json_value (JInt z) value = true -> value = JInt z.
Proof. destruct value; try done. cbn. by intros ->%Z.eqb_eq. Qed.

Lemma exact_member l m k v : (u k, v) ∈ l ->
  _require_exact_json_value (JObj l) (JObj m) = true -> _require_exact_json_value v (member m k) = true.
Proof.
  intros Hk H. cbn [_require_exact_json_value] in H. apply andb_prop in H as [_ H]. rewrite forallb_forall in H.
  apply list_elem_of_In, H in Hk. cbn [fst snd] in Hk. unfold member. by destruct (obj_get m (u k)).
Qed.

Lemma eq_str_inv value s : negb (json_eq_str value s) = false -> value = JStr s.
Proof. destruct value; cbn; try done. by intros ->%negb_false_iff%str_eqb_eq. Qed.
Lemma eq_int_inv value n : negb (json_eq_int value n) = false -> value = JInt n.
Proof. destruct value; cbn; try done. by intros ->%negb_false_iff%Z.eqb_eq. Qed.
Lemma digest_field_ok value s : require_sha256 value = Ok s <-> value = JStr s /\ is_sha256 s = true.
Proof.
  unfold require_sha256. split; [|by intros [-> ->]]. destruct value as [| | | |t| |]; try done.
  destruct (is_sha256 t) eqn:T; [|done]. by intros [= <-].
Qed.
Lemma require_identifier_ok value s : require_identifier value = Ok s <-> value = JStr s /\ IDENTIFIER_RE s = true.
Proof.
  unfold require_identifier. split; [|by intros [-> ->]]. destruct value as [| | | |t| |]; try done.
  destruct (IDENTIFIER_RE t) eqn:T; [|done]. by intros [= <-].
Qed.
Lemma require_kms_ok value s : require_kms_key_version value = Ok s <-> value = JStr s /\ GCP_KMS_KEY_VERSION_RE s = true.
Proof.
  unfold require_kms_key_version. split; [|by intros [-> ->]]. destruct value as [| | | |t| |]; try done.
  destruct (GCP_KMS_KEY_VERSION_RE t) eqn:T; [|done]. by intros [= <-].
Qed.
Lemma attestation_format_ok value s :
  attestation_format value = Ok s <-> value = JStr s /\ s ∈ KMS_ATTESTATION_FORMATS.
Proof.
  assert (HE : forall t, existsb (str_eqb t) KMS_ATTESTATION_FORMATS = true <-> t ∈ KMS_ATTESTATION_FORMATS).
  { intros t. rewrite existsb_exists. split.
    - intros (x & Hx & ->%str_eqb_eq). by apply list_elem_of_In.
    - intros Ht. exists t. split; [by apply list_elem_of_In|apply str_eqb_refl]. }
  split.
  - destruct value as [| | | |t| |]; try done. cbn [attestation_format]. destruct (existsb _ _) eqn:X; [|done].
    intros [= <-]. by apply HE in X.
  - intros [-> H%HE]. cbn [attestation_format]. by rewrite H.
Qed.
Lemma of_raw_ok {A} (o : option A) a : of_raw o = Ok a <-> o = Some a.
Proof. unfold of_raw, RAE. destruct o; split; congruence. Qed.

(** ** The key of a policy *)

Definition EXPONENT_BYTES : bytes := be_bytes 3 RSA_PUBLIC_EXPONENT.

Lemma high_bit_first (b : byte) l modulus :
  len (b :: l) = PS256_SIGNATURE_BYTES -> int_be (b :: l) = modulus -> bit_length modulus = RSA_MODULUS_BITS -> 0 < modulus ->
  128 <= bz b.
Proof.
  intros HL <- HB HP. change (b :: l) with ([b] ++ l) in *. rewrite len_app in HL. change (len [b]) with 1 in HL.
  assert (L : len l = 383) by (unfold PS256_SIGNATURE_BYTES in HL; lia). rewrite int_be_app, L in *.
  pose proof (int_be_bound l) as HI. rewrite L in HI. change (int_be [b]) with (0 * 256 + bz b) in *.
  unfold bit_length, RSA_MODULUS_BITS in HB. assert (HG : Z.log2 ((0 * 256 + bz b) * 256 ^ 383 + int_be l) = 3071) by lia.
  assert (H2 : 2 ^ 3071 <= (0 * 256 + bz b) * 256 ^ 383 + int_be l) by (rewrite <-HG; apply Z.log2_spec; lia).
  change (2 ^ 3071) with (128 * 256 ^ 383) in H2. set (P := 256 ^ 383) in *. clearbody P. nia.
Qed.

Lemma policy_key_ok n e modulus exponent :
  policy_key n e = Ok (modulus, exponent) <->
  rsa_key modulus exponent /\ n = JStr (b64_encode (be_bytes 384 modulus)) /\ e = JStr (b64_encode EXPONENT_BYTES).
Proof.
  unfold policy_key. split.
  - intros H. inv_bind H. inv_bind H. apply of_raw_ok in E, E0. apply base64url_decoded in E as [_ ->], E0 as [_ ->].
    destruct (_ || _) eqn:G1 in H; [done|]. apply orb_false_iff in G1 as [L B]. apply negb_false_iff, Z.eqb_eq in L.
    destruct (negb _) eqn:G2 in H; [done|]. apply negb_false_iff, bool_decide_eq_true in G2. cbv zeta in H.
    destruct (_ || _) eqn:G3 in H; [done|]. apply orb_false_iff in G3 as [O BL]. apply Z.eqb_neq in O.
    apply negb_false_iff, Z.eqb_eq in BL. destruct (negb _) eqn:G4 in H; [done|]. apply negb_false_iff, Z.eqb_eq in G4.
    assert (P : 0 < int_be v).
    { pose proof (int_be_bound v) as [P _]. destruct (decide (int_be v = 0)) as [Z0|N]; [|lia]. rewrite Z0 in BL. discriminate BL. }
    assert (HB : be_bytes 384 (int_be v) = v).
    { rewrite <-(be_bytes_int_be v) at 2. f_equal. unfold len, PS256_SIGNATURE_BYTES in L. lia. }
    injection H as <- <-. rewrite HB. unfold EXPONENT_BYTES. rewrite <-G2. exact (conj (conj P (conj O (conj BL G4))) (conj eq_refl eq_refl)).
  - intros (K & -> & ->). pose proof (rsa_key_bound _ _ K) as [K1 K2]. destruct K as (P & O & BL & ->).
    assert (L : len (be_bytes 384 modulus) = PS256_SIGNATURE_BYTES) by (unfold len; by rewrite be_bytes_length).
    assert (V : int_be (be_bytes 384 modulus) = modulus).
    { apply int_be_be_bytes. change (Z.of_nat 384) with 384. set (X := 256 ^ 384) in *. clearbody X. lia. }
    rewrite (base64url_read (be_bytes 384 modulus)) by (intros X; rewrite X in L; discriminate L).
    rewrite (base64url_read EXPONENT_BYTES) by discriminate. cbn [of_raw mbind result_bind]. rewrite L, V, BL.
    change (PS256_SIGNATURE_BYTES =? PS256_SIGNATURE_BYTES) with true. cbn [negb orb].
    assert (F : match be_bytes 384 modulus with b :: _ => bz b <? 128 | [] => true end = false).
    { destruct (be_bytes 384 modulus) as [|b l] eqn:M; [discriminate L|]. apply Z.ltb_ge.
      exact (high_bit_first b l modulus L V BL P). }
    rewrite F. rewrite (bool_decide_eq_true_2 _ (eq_refl EXPONENT_BYTES)). cbn [negb]. cbv zeta.
    rewrite (proj2 (Z.eqb_neq _ _) O). change (RSA_MODULUS_BITS =? RSA_MODULUS_BITS) with true. cbn [negb orb].
    change (int_be EXPONENT_BYTES) with RSA_PUBLIC_EXPONENT.
    change (RSA_PUBLIC_EXPONENT =? RSA_PUBLIC_EXPONENT) with true. reflexivity.
Qed.

(** ** The document of a policy *)

(** The five fields of the evidence profile a policy carries. *)
Definition profile_field (name : string) : json := member (dict_items EVIDENCE_PROFILE) name.
Definition EVIDENCE_PROFILE_BYTES : bytes := default [] (canonical_json EVIDENCE_PROFILE).

(** What the fields of a policy are. *)
Record policy_ok (p : CollectorTrustPolicy) : Prop := {
  ok_key_version : GCP_KMS_KEY_VERSION_RE (tp_key_version p) = true;
  ok_algorithm : tp_algorithm p = COLLECTOR_SIGNATURE_ALGORITHM;
  ok_kms_algorithm : tp_kms_algorithm p = KMS_SIGNATURE_ALGORITHM;
  ok_protection : tp_protection_level p = KMS_PROTECTION_LEVEL;
  ok_format : tp_attestation_format p ∈ KMS_ATTESTATION_FORMATS;
  ok_key : rsa_key (tp_modulus p) (tp_exponent p);
  ok_public_key : rsa_spki_sha256 (tp_modulus p) (tp_exponent p) = Some (tp_public_key_sha256 p);
  ok_attestation : is_sha256 (tp_attestation_sha256 p) = true;
  ok_provisioned : tp_attestation_sha256 p <> replicate 64 48 /\ tp_attestation_sha256 p <> tp_public_key_sha256 p;
  ok_version : IDENTIFIER_RE (tp_collector_version p) = true;
  ok_source : is_sha256 (tp_collector_source_sha256 p) = true;
  ok_executable : is_sha256 (tp_collector_executable_sha256 p) = true;
  ok_profile : tp_evidence_profile_sha256 p = hexdigest EVIDENCE_PROFILE_BYTES;
  ok_schema : tp_aggregate_schema_version p = profile_field "aggregate_schema_version";
  ok_aggregator : tp_aggregator_version p = profile_field "aggregator_version";
  ok_boot : tp_boot_environment_scheme p = profile_field "boot_environment_scheme";
  ok_machine : tp_machine_identity_scheme p = profile_field "machine_identity_scheme";
  ok_topology : tp_machine_topology p = profile_field "machine_topology"
}.

(** The document of a policy. *)
Definition policy_items (p : CollectorTrustPolicy) : list (str * json) :=
  [(u "schema_version", JInt 3); (u "state", JStr (u "configured")); (u "key_version", JStr (tp_key_version p));
   (u "kty", JStr (u "RSA")); (u "alg", JStr COLLECTOR_SIGNATURE_ALGORITHM); (u "kms_algorithm", JStr KMS_SIGNATURE_ALGORITHM);
   (u "protection_level", JStr KMS_PROTECTION_LEVEL); (u "attestation_format", JStr (tp_attestation_format p));
   (u "public_key_sha256", JStr (tp_public_key_sha256 p)); (u "attestation_sha256", JStr (tp_attestation_sha256 p));
   (u "n", JStr (b64_encode (be_bytes 384 (tp_modulus p)))); (u "e", JStr (b64_encode EXPONENT_BYTES));
   (u "collector_version", JStr (tp_collector_version p)); (u "collector_source_sha256", JStr (tp_collector_source_sha256 p));
   (u "collector_executable_sha256", JStr (tp_collector_executable_sha256 p)); (u "evidence_profile", EVIDENCE_PROFILE)].
Definition policy_document (p : CollectorTrustPolicy) : json := JObj (policy_items p).

(** A policy with the digest and the pin it was read with. *)
Definition read_as (p : CollectorTrustPolicy) (digest : str) (pinned : bool) : Prop :=
  tp_policy_sha256 p = digest /\ tp_release_source_pinned p = pinned.

Lemma profile_plain : plain EVIDENCE_PROFILE = true.
Proof. vm_compute. reflexivity. Qed.

Lemma rsa_public_digest n e d : rsa_spki_sha256 n e = Some d -> is_sha256 d = true.
Proof.
  unfold rsa_spki_sha256. intros H. apply fmap_Some in H as (b & _ & ->). apply hexdigest_sha256.
Qed.

(** What reading the fields of a dict gives. *)
Lemma configured_ok policy digest pinned p :
  NoDup (map fst policy) -> strict (JObj policy) = true ->
  configured_policy policy digest pinned = Ok p ->
  read_as p digest pinned /\ policy_ok p /\ dumps (JObj policy) = dumps (policy_document p).
Proof.
  intros ND HS H. unfold configured_policy in H. inv_bind H. apply of_raw_ok in E. cbn [exact_object] in E.
  destruct (same_fields POLICY_FIELDS policy) eqn:SF; [|discriminate E]. clear E.
  destruct (_ || _) eqn:G1 in H; [discriminate H|]. apply orb_false_iff in G1 as [Hschema Hstate].
  apply eq_int_inv in Hschema. apply eq_str_inv in Hstate.
  inv_bind H. apply of_raw_ok in E. destruct (member policy "evidence_profile") as [| | | | | |profile] eqn:Hprofile; try discriminate E.
  cbn [exact_object] in E. destruct (same_fields EVIDENCE_PROFILE_FIELDS profile) eqn:SP; [|discriminate E].
  injection E as <-. destruct (negb _) eqn:G2 in H; [discriminate H|]. apply negb_false_iff in G2.
  assert (HSP : strict (JObj profile) = true).
  { cbn [strict] in HS. apply andb_prop in HS as [_ HS]. rewrite forallb_forall in HS. unfold member in Hprofile.
    destruct (obj_get policy (u "evidence_profile")) as [x|] eqn:GP; [|discriminate Hprofile]. simpl in Hprofile. subst x.
    apply obj_get_some, list_elem_of_In, HS in GP. exact GP. }
  pose proof (exact_value_dumps _ _ profile_plain HSP G2) as HD.
  inv_bind H. apply of_raw_ok in E. unfold canonical_json in E. rewrite HD in E.
  destruct (_ || _) eqn:G3 in H; [discriminate H|]. apply orb_false_iff in G3 as [Hkty Halg]. apply eq_str_inv in Hkty, Halg.
  destruct (negb _) eqn:G4 in H; [discriminate H|]. apply eq_str_inv in G4.
  destruct (negb _) eqn:G5 in H; [discriminate H|]. apply eq_str_inv in G5.
  inv_bind H. apply attestation_format_ok in E0 as [Hformat Fformat].
  inv_bind H. apply require_kms_ok in E0 as [Hkey Fkey].
  inv_bind H. destruct v3 as [modulus exponent]. apply policy_key_ok in E0 as (Frsa & Hn & He).
  inv_bind H. apply digest_field_ok in E0 as [Hpub _]. inv_bind H. apply of_raw_ok in E0.
  destruct (negb _) eqn:G6 in H; [discriminate H|]. apply negb_false_iff, str_eqb_eq in G6. subst v4.
  inv_bind H. apply digest_field_ok in E1 as [Hatt Fatt]. destruct (_ || _) eqn:G7 in H; [discriminate H|].
  apply orb_false_iff in G7 as [G7 G8].
  inv_bind H. apply require_identifier_ok in E1 as [Hver Fver]. inv_bind H. apply digest_field_ok in E1 as [Hsrc Fsrc].
  inv_bind H. apply digest_field_ok in E1 as [Hexe Fexe]. injection H as <-.
  assert (FM : forall k w, (u k, w) ∈ dict_items EVIDENCE_PROFILE -> _require_exact_json_value w (member profile k) = true).
  { intros k w Hk. exact (exact_member _ profile k w Hk G2). }
  split; [exact (conj eq_refl eq_refl)|]. split.
  - constructor; cbn [tp_key_version tp_algorithm tp_kms_algorithm tp_protection_level tp_attestation_format tp_modulus tp_exponent
      tp_public_key_sha256 tp_attestation_sha256 tp_collector_version tp_collector_source_sha256 tp_collector_executable_sha256
      tp_evidence_profile_sha256 tp_aggregate_schema_version tp_aggregator_version tp_boot_environment_scheme
      tp_machine_identity_scheme tp_machine_topology]; try assumption; try reflexivity.
    + split; intros X; [rewrite X, str_eqb_refl in G7; discriminate G7|rewrite X, str_eqb_refl in G8; discriminate G8].
    + unfold EVIDENCE_PROFILE_BYTES, canonical_json. rewrite E. reflexivity.
    + apply exact_int, FM. left.
    + apply exact_text, FM. right; left.
    + apply exact_text, FM. do 2 right; left.
    + apply exact_text, FM. do 3 right; left.
    + apply exact_text, FM. do 4 right; left.
  - assert (NF : NoDup POLICY_FIELDS) by (apply (bool_decide_eq_true_1 _); vm_compute; reflexivity).
    rewrite (dumps_obj_perm _ _ ND (dict_of_fields _ _ NF ND SF)). apply dumps_obj_ext. unfold POLICY_FIELDS, policy_items. cbn [map].
    repeat (apply List.Forall2_cons; [split; [reflexivity|]; cbn [fst snd]|]); [..|constructor];
      match goal with |- dumps (default JNull (obj_get policy (u ?k))) = _ => change (default JNull (obj_get policy (u k))) with (member policy k) end.
    all: first [rewrite Hschema | rewrite Hstate | rewrite Hkey | rewrite Hkty | rewrite Halg | rewrite G4 | rewrite G5 | rewrite Hformat
      | rewrite Hpub | rewrite Hatt | rewrite Hn | rewrite He | rewrite Hver | rewrite Hsrc | rewrite Hexe | rewrite Hprofile; exact HD]; reflexivity.
Qed.

(** ASCII text of the characters a policy's fields are made of. *)
Definition word_char (c : Z) : bool := is_digit c || lower c || upper c || (45 <=? c) && (c <=? 47) || (c =? 95).

Lemma word_char_range c : word_char c = true -> 45 <= c < 123.
Proof. unfold word_char, is_digit, lower, upper. rewrite !orb_true_iff, !andb_true_iff, !Z.leb_le, Z.eqb_eq. lia. Qed.
Lemma word_encodable s : forallb word_char s = true -> encodable s = true.
Proof.
  intros H. apply forallb_forall. intros c Hc. apply forallb_forall with (x := c) in H; [|exact Hc].
  apply word_char_range in H. apply scalar_range. lia.
Qed.

Lemma identifier_word s : IDENTIFIER_RE s = true -> forallb word_char s = true.
Proof.
  unfold IDENTIFIER_RE. destruct s as [|c r]; [done|]. rewrite !andb_true_iff. intros [[Hc Hr] _]. cbn [forallb]. apply andb_true_iff. split.
  - unfold word_char. rewrite !orb_true_iff in *. tauto.
  - apply forallb_forall. intros x Hx. apply forallb_forall with (x := x) in Hr; [|exact Hx]. revert Hr.
    unfold is_identifier_char, word_char. rewrite !orb_true_iff, andb_true_iff, !Z.eqb_eq, !Z.leb_le. intros ?. intuition lia.
Qed.

Lemma kms_key_word s : GCP_KMS_KEY_VERSION_RE s = true -> forallb word_char s = true.
Proof.
  unfold GCP_KMS_KEY_VERSION_RE. intros H. rewrite <-(join_slash_split s). apply all_join_slash; [done|].
  destruct (split_slash s) as [|s1 [|s2 [|s3 [|s4 [|s5 [|s6 [|s7 [|s8 [|s9 [|s10 [|]]]]]]]]]]]; try discriminate H.
  rewrite !andb_true_iff in H. destruct H as (((((((((H1 & H2) & H3) & H4) & H5) & H6) & H7) & H8) & H9) & H10).
  apply str_eqb_eq in H1, H3, H5, H7, H9. subst.
  assert (W : forall (P : Z -> bool) l, (forall c, P c = true -> word_char c = true) -> forallb P l = true -> forallb word_char l = true).
  { intros P l HP Hl. apply forallb_forall. intros x Hx. apply HP. apply forallb_forall with (x := x) in Hl; [exact Hl|exact Hx]. }
  assert (W1 : forall c, lower c || is_digit c || (c =? 45) = true -> word_char c = true).
  { intros c. unfold word_char. rewrite !orb_true_iff, andb_true_iff, !Z.eqb_eq, !Z.leb_le. intuition lia. }
  assert (W2 : forall c, lower c || upper c || is_digit c || (c =? 95) || (c =? 45) = true -> word_char c = true).
  { intros c. unfold word_char. rewrite !orb_true_iff, andb_true_iff, !Z.eqb_eq, !Z.leb_le. intuition lia. }
  assert (W3 : forall c, is_digit c = true -> word_char c = true) by (intros c E; unfold word_char; by rewrite E).
  cbn [forallb]. rewrite !andb_true_iff. repeat split.
  - destruct s2 as [|c r]; [discriminate H2|]. unfold kms_project in H2. rewrite !andb_true_iff in H2. destruct H2 as (((Hc & _) & Hr) & _).
    cbn [forallb]. apply andb_true_iff. split; [apply W1; by rewrite Hc|exact (W _ _ W1 Hr)].
  - unfold kms_location in H4. apply andb_prop in H4 as [_ H4]. exact (W _ _ W1 H4).
  - unfold kms_name in H6. apply andb_prop in H6 as [_ H6]. exact (W _ _ W2 H6).
  - unfold kms_name in H8. apply andb_prop in H8 as [_ H8]. exact (W _ _ W2 H8).
  - destruct s10 as [|c r]; [discriminate H10|]. unfold kms_version in H10. rewrite !andb_true_iff in H10. destruct H10 as ((Hc1 & Hc2) & Hr).
    cbn [forallb]. apply andb_true_iff. split; [|exact (W _ _ W3 Hr)]. apply W3. unfold is_digit. rewrite Hc2, andb_true_r.
    apply Z.leb_le in Hc1. apply Z.leb_le. lia.
Qed.

Lemma b64_encodable l : encodable (b64_encode l) = true.
Proof.
  apply word_encodable, forallb_forall. intros c Hc. pose proof (b64_encode_alphabet l) as H.
  apply forallb_forall with (x := c) in H; [|exact Hc]. unfold in_alphabet, b64_value in H. unfold word_char.
  fold (upper c) (lower c) (is_digit c) in H. destruct (is_digit c); [done|]. destruct (upper c); [by rewrite orb_true_r|].
  destruct (lower c); [done|]. destruct (Z.eqb_spec c 45) as [->|_]; [done|]. destruct (Z.eqb_spec c 95) as [->|_]; [done|done].
Qed.

(** Every text of the document can be written. *)
Definition policy_texts (p : CollectorTrustPolicy) : list str :=
  [tp_key_version p; tp_attestation_format p; tp_public_key_sha256 p; tp_attestation_sha256 p;
   b64_encode (be_bytes 384 (tp_modulus p)); tp_collector_version p; tp_collector_source_sha256 p; tp_collector_executable_sha256 p].

Lemma policy_encodable p : policy_ok p -> Forall (fun s => encodable s = true) (policy_texts p).
Proof.
  intros P. unfold policy_texts. repeat apply Forall_cons_2; [..|apply Forall_nil_2].
  - apply word_encodable, kms_key_word, P.
  - pose proof (ok_format p P) as F. unfold KMS_ATTESTATION_FORMATS in F. rewrite !elem_of_cons, elem_of_nil in F.
    destruct F as [-> | [-> | []]]; vm_compute; reflexivity.
  - eapply sha256_encodable, rsa_public_digest, P.
  - apply sha256_encodable, P.
  - apply b64_encodable.
  - apply word_encodable, identifier_word, P.
  - apply sha256_encodable, P.
  - apply sha256_encodable, P.
Qed.

Lemma encodable_document p : Forall (fun s => encodable s = true) (policy_texts p) ->
  plain (policy_document p) = true /\ _json_depth (policy_document p) 0 = true.
Proof.
  intros F. unfold policy_texts in F. unfold policy_document, policy_items.
  repeat (apply Forall_cons in F as [? F]).
  assert (U : unique_keys (policy_items p) = true) by (apply bool_decide_eq_true_2; apply (bool_decide_eq_true_1 _); vm_compute; reflexivity).
  split.
  - cbn [plain]. fold (policy_items p). rewrite U. unfold policy_items. cbn [forallb fst snd plain]. rewrite profile_plain.
    repeat match goal with H : encodable ?s = true |- _ => rewrite (encodable_chars s H); clear H end. vm_compute. reflexivity.
  - unfold policy_items. cbn [_json_depth forallb fst snd]. change (MAX_JSON_DEPTH <? 0) with false. change (MAX_JSON_DEPTH <? 0 + 1) with false.
    cbv iota. repeat match goal with H : encodable ?s = true |- _ => rewrite H; clear H end. vm_compute. reflexivity.
Qed.

Lemma policy_document_facts p : policy_ok p -> plain (policy_document p) = true /\ _json_depth (policy_document p) 0 = true.
Proof. intros P. by apply encodable_document, policy_encodable. Qed.

Lemma normalize_keys l : NoDup (map fst l) -> NoDup (map fst (dict_items (normalize (JObj l)))).
Proof.
  intros N. cbn [normalize dict_items]. rewrite (fmap_Permutation _ _ _ (sort_items_perm _)). unfold fmap. by rewrite map_map.
Qed.

Lemma member_normalize l k : NoDup (map fst l) -> member (dict_items (normalize (JObj l))) k = normalize (member l k).
Proof.
  intros N. unfold member. rewrite (obj_get_perm _ _ (u k) (normalize_keys l N) (sort_items_perm _)).
  clear N. induction l as [|[k' v] l IH]; [done|]. cbn [map obj_get fst snd]. destruct (str_eqb k' (u k)); [done|exact IH].
Qed.

Lemma fields_normalize fields l : same_fields fields (dict_items (normalize (JObj l))) = same_fields fields l.
Proof.
  apply Bool.eq_iff_eq_true. rewrite !same_fields_spec. cbn [normalize dict_items].
  assert (E : forall k, k ∈ map fst (sort_items (map (fun kv => (fst kv, normalize (snd kv))) l)) <-> k ∈ map fst l).
  { intros k. rewrite (fmap_Permutation fst _ _ (sort_items_perm _)). unfold fmap. by rewrite map_map. }
  split; intros H k; rewrite H; [apply E|symmetry; apply E].
Qed.

Lemma policy_items_keys p : NoDup (map fst (policy_items p)).
Proof. change (map fst (policy_items p)) with POLICY_FIELDS. apply (bool_decide_eq_true_1 _). vm_compute. reflexivity. Qed.

(** A policy is read from its document. *)
Lemma configured_read p digest pinned : policy_ok p -> read_as p digest pinned ->
  configured_policy (dict_items (normalize (policy_document p))) digest pinned = Ok p.
Proof.
  intros P [Hd Hp]. pose proof (policy_items_keys p) as N. unfold configured_policy, policy_document.
  assert (X : exact_object (JObj (dict_items (normalize (JObj (policy_items p))))) POLICY_FIELDS =
    Some (dict_items (normalize (JObj (policy_items p))))).
  { unfold exact_object. rewrite fields_normalize.
    assert (S : same_fields POLICY_FIELDS (policy_items p) = true) by (apply same_fields_spec; intros k; reflexivity). by rewrite S. }
  rewrite X. rewrite !(fun k => member_normalize (policy_items p) k N). clear X N.
  change (normalize (member (policy_items p) "schema_version")) with (JInt 3).
  change (normalize (member (policy_items p) "state")) with (JStr (u "configured")).
  change (normalize (member (policy_items p) "key_version")) with (JStr (tp_key_version p)).
  change (normalize (member (policy_items p) "kty")) with (JStr (u "RSA")).
  change (normalize (member (policy_items p) "alg")) with (JStr COLLECTOR_SIGNATURE_ALGORITHM).
  change (normalize (member (policy_items p) "kms_algorithm")) with (JStr KMS_SIGNATURE_ALGORITHM).
  change (normalize (member (policy_items p) "protection_level")) with (JStr KMS_PROTECTION_LEVEL).
  change (normalize (member (policy_items p) "attestation_format")) with (JStr (tp_attestation_format p)).
  change (normalize (member (policy_items p) "public_key_sha256")) with (JStr (tp_public_key_sha256 p)).
  change (normalize (member (policy_items p) "attestation_sha256")) with (JStr (tp_attestation_sha256 p)).
  change (normalize (member (policy_items p) "n")) with (JStr (b64_encode (be_bytes 384 (tp_modulus p)))).
  change (normalize (member (policy_items p) "e")) with (JStr (b64_encode EXPONENT_BYTES)).
  change (normalize (member (policy_items p) "collector_version")) with (JStr (tp_collector_version p)).
  change (normalize (member (policy_items p) "collector_source_sha256")) with (JStr (tp_collector_source_sha256 p)).
  change (normalize (member (policy_items p) "collector_executable_sha256")) with (JStr (tp_collector_executable_sha256 p)).
  change (normalize (member (policy_items p) "evidence_profile")) with (EVIDENCE_PROFILE).
  change (exact_object EVIDENCE_PROFILE EVIDENCE_PROFILE_FIELDS) with (Some (dict_items EVIDENCE_PROFILE)).
  cbn [of_raw mbind result_bind json_eq_int json_eq_str Z.eqb Pos.eqb]. rewrite !str_eqb_refl. cbn [negb orb].
  change (JObj (dict_items EVIDENCE_PROFILE)) with EVIDENCE_PROFILE.
  assert (HX : _require_exact_json_value EVIDENCE_PROFILE EVIDENCE_PROFILE = true) by (vm_compute; reflexivity).
  destruct (canonical_json_some EVIDENCE_PROFILE 0 profile_plain ltac:(vm_compute; reflexivity)) as [b Hb].
  pose proof (ok_profile p P) as HB. unfold EVIDENCE_PROFILE_BYTES in HB. rewrite Hb in HB. change (default [] (Some b)) with b in HB.
  assert (Hpub : is_sha256 (tp_public_key_sha256 p) = true) by (eapply rsa_public_digest, P).
  rewrite HX, Hb. cbn [of_raw mbind result_bind negb].
  rewrite (proj2 (attestation_format_ok _ _) (conj eq_refl (ok_format p P))). cbn [mbind result_bind].
  rewrite (proj2 (require_kms_ok _ _) (conj eq_refl (ok_key_version p P))). cbn [mbind result_bind].
  rewrite (proj2 (policy_key_ok _ _ _ _) (conj (ok_key p P) (conj eq_refl eq_refl))). cbn [mbind result_bind].
  rewrite (proj2 (digest_field_ok _ _) (conj eq_refl Hpub)). cbn [mbind result_bind].
  rewrite (ok_public_key p P). cbn [of_raw mbind result_bind]. rewrite str_eqb_refl. cbn [negb].
  rewrite (proj2 (digest_field_ok _ _) (conj eq_refl (ok_attestation p P))). cbn [mbind result_bind].
  destruct (ok_provisioned p P) as [Z1 Z2].
  rewrite (bool_decide_eq_false_2 _ Z1 : str_eqb _ _ = false), (bool_decide_eq_false_2 _ Z2 : str_eqb _ _ = false). cbn [orb].
  rewrite (proj2 (require_identifier_ok _ _) (conj eq_refl (ok_version p P))). cbn [mbind result_bind].
  rewrite (proj2 (digest_field_ok _ _) (conj eq_refl (ok_source p P))). cbn [mbind result_bind].
  rewrite (proj2 (digest_field_ok _ _) (conj eq_refl (ok_executable p P))). cbn [mbind result_bind].
  fold (profile_field "aggregate_schema_version") (profile_field "aggregator_version") (profile_field "boot_environment_scheme")
    (profile_field "machine_identity_scheme") (profile_field "machine_topology").
  rewrite <-HB, <-(ok_schema p P), <-(ok_aggregator p P), <-(ok_boot p P), <-(ok_machine p P), <-(ok_topology p P).
  rewrite <-Hd, <-Hp, <-(ok_algorithm p P), <-(ok_kms_algorithm p P), <-(ok_protection p P). by destruct p.
Qed.

(** What a policy that was read is. *)
Lemma parsed_policy_ok data expected pinned p : parse_trust_policy_bytes data expected pinned = Ok p ->
  policy_ok p /\ read_as p expected pinned /\ hexdigest data = expected /\ len data <= MAX_TRUST_POLICY_BYTES /\
  exists line, canonical_json (policy_document p) = Some line /\ data = line ++ [x0a].
Proof.
  unfold parse_trust_policy_bytes.
  intros H. inv_bind H. destruct (_ || _) eqn:G1 in H; [discriminate H|]. apply orb_false_iff in G1 as [_ G1]. apply Z.ltb_ge in G1.
  cbv zeta in H. destruct (negb _) eqn:G2 in H; [discriminate H|]. apply negb_false_iff, str_eqb_eq in G2.
  destruct (load_json_bytes data) as [[| | | | | |value]|] eqn:HL; try discriminate H. inv_bind H. apply of_raw_ok in E0.
  destruct (negb _) eqn:G3 in H; [discriminate H|]. apply negb_false_iff, bool_decide_eq_true in G3.
  destruct (json_eq_str _ _) in H; [unfold not_configured in H; inv_bind H; destruct (_ || _) in H; discriminate H|].
  apply load_json_strict in HL as [HS _]. apply (configured_ok _ _ _ _ (strict_unique _ HS) HS) in H as (HR & HP & HD).
  rewrite G2 in HR. refine (conj HP (conj HR (conj G2 (conj G1 _)))). exists v0. split; [|exact G3].
  unfold canonical_json in *. rewrite <-HD. exact E0.
Qed.

(** And each such policy is read from its line. *)
Lemma policy_parses data expected pinned p :
  policy_ok p -> read_as p expected pinned -> hexdigest data = expected -> len data <= MAX_TRUST_POLICY_BYTES ->
  (exists line, canonical_json (policy_document p) = Some line /\ data = line ++ [x0a]) -> parse_trust_policy_bytes data expected pinned = Ok p.
Proof.
  unfold parse_trust_policy_bytes. intros P R D L (line & HL & ->). destruct (policy_document_facts p P) as [HP HD].
  assert (SE : is_sha256 expected = true) by (rewrite <-D; apply hexdigest_sha256).
  rewrite (proj2 (digest_field_ok _ expected) (conj eq_refl SE)). cbn [mbind result_bind].
  rewrite (bool_decide_eq_false_2 (line ++ [x0a] = [])) by (by destruct line). rewrite (proj2 (Z.ltb_ge _ _) L). cbn [orb]. cbv zeta.
  rewrite D, str_eqb_refl. cbn [negb]. rewrite (load_canonical _ _ HP HD HL).
  change (normalize (policy_document p)) with (JObj (dict_items (normalize (policy_document p)))).
  assert (HC : canonical_json (JObj (dict_items (normalize (policy_document p)))) = Some line).
  { change (JObj (dict_items (normalize (policy_document p)))) with (normalize (policy_document p)).
    unfold canonical_json. rewrite (dumps_normalize _ HP). exact HL. }
  cbv beta iota. rewrite HC. cbn [of_raw mbind result_bind]. rewrite (bool_decide_eq_true_2 _ eq_refl). cbn [negb].
  change (policy_document p) with (JObj (policy_items p)) at 1.
  rewrite (member_normalize (policy_items p) "state" (policy_items_keys p)).
  change (json_eq_str (normalize (member (policy_items p) "state")) (u "not-configured")) with false. cbv iota.
  exact (configured_read p expected pinned P R).
Qed.

(** C31: reading a trust policy accepts exactly the provisioned policies.
    [parse_trust_policy_bytes] returns a policy if and only if the bytes have the
    pinned digest and are the canonical line, of at most [MAX_TRUST_POLICY_BYTES]
    bytes, of the document of that policy, whose key is an odd 3072-bit modulus
    with the exponent 65537 and has the stated public-key digest, whose attestation
    digest is neither blank nor the digest of the key, and whose evidence profile
    is the one the release pins. *)
Theorem parse_trust_policy_exact data expected pinned p :
  parse_trust_policy_bytes data expected pinned = Ok p <->
  policy_ok p /\ read_as p expected pinned /\ hexdigest data = expected /\ len data <= MAX_TRUST_POLICY_BYTES /\
  exists line, canonical_json (policy_document p) = Some line /\ data = line ++ [x0a].
Proof. split; [apply parsed_policy_ok|]. intros (P & R & D & L & H). by apply policy_parses. Qed.
