(* ===== verification/Python.v ===== *)
(** * Python values and texts

    What the collector modules use of the language: [==] on decoded JSON,
    [str.strip], [str.splitlines] and bounded printable text. *)

From S2P Require Import Prelude Sha256 Text Json.

(** ** Equality *)

(** A number as a fraction: [True] and [1] and [1.0] are equal. *)
Definition number_of (v : json) : option (Z * Z) :=
  match v with
  | JBool b => Some (Z.b2z b, 1)
  | JInt z => Some (z, 1)
  | JFloat f =>
      let m := if f_neg f then - f_man f else f_man f in
      if f_exp f <? 0 then Some (m, 2 ^ (- f_exp f)) else Some (m * 2 ^ f_exp f, 1)
  | _ => None
  end.

(** [a == b]; the order of the keys of a dict does not matter. *)
Fixpoint py_eq (a b : json) : bool :=
  match number_of a, number_of b with
  | Some (p, q), Some (p', q') => p * q' =? p' * q
  | Some _, None | None, Some _ => false
  | None, None =>
      match a, b with
      | JNull, JNull => true
      | JStr s, JStr t => str_eqb s t
      | JList l, JList m =>
          (fix go (l m : list json) : bool :=
             match l, m with
             | [], [] => true
             | x :: l, y :: m => py_eq x y && go l m
             | _, _ => false
             end) l m
      | JObj l, JObj m =>
          (len l =? len m) &&
          (fix go (l : list (str * json)) : bool :=
             match l with
             | [] => true
             | (k, x) :: l => match obj_get m k with Some y => py_eq x y | None => false end && go l
             end) l
      | _, _ => false
      end
  end.

(** ** Texts *)

(** [str.isspace] of one character. *)
Definition is_space (c : Z) : bool :=
  ((9 <=? c) && (c <=? 13)) || ((28 <=? c) && (c <=? 32)) || (c =? 133) || (c =? 160) || (c =? 5760) ||
  ((8192 <=? c) && (c <=? 8202)) || (c =? 8232) || (c =? 8233) || (c =? 8239) || (c =? 8287) || (c =? 12288).

Fixpoint lstrip (s : str) : str := match s with c :: r => if is_space c then lstrip r else s | [] => [] end.
Definition strip (s : str) : str := rev (lstrip (rev (lstrip s))).

(** The ends of lines of [str.splitlines]; [\r\n] is one of them. *)
Definition is_line_end (c : Z) : bool :=
  ((10 <=? c) && (c <=? 13)) || ((28 <=? c) && (c <=? 30)) || (c =? 133) || (c =? 8232) || (c =? 8233).
Fixpoint splitlines_from (acc s : str) : list str :=
  match s with
  | [] => if bool_decide (acc = []) then [] else [acc]
  | c :: r =>
      if is_line_end c then
        acc :: match r with d :: r' => if (c =? 13) && (d =? 10) then splitlines_from [] r' else splitlines_from [] r | [] => [] end
      else splitlines_from (acc ++ [c]) r
  end.
Definition splitlines (s : str) : list str := splitlines_from [] s.

(** [any(ord(c) < 0x20 or ord(c) == 0x7F for c in s)]. *)
Definition has_control (s : str) : bool := existsb (fun c => (c <? 32) || (c =? 127)) s.

Definition upper_char (c : Z) : bool := (65 <=? c) && (c <=? 90).
Definition lower_char (c : Z) : bool := (97 <=? c) && (c <=? 122).
(** [str.lower] of ASCII text. *)
Definition ascii_lower (s : str) : str := map (fun c => if upper_char c then c + 32 else c) s.

(** [haystack.find(needle) >= 0]. *)
Fixpoint contains (needle s : str) : bool :=
  starts_with needle s || match s with [] => false | _ :: r => contains needle r end.

(** [s.split(sep)] for a separator of two characters. *)
Fixpoint split_two (a b : Z) (acc s : str) : list str :=
  match s with
  | [] => [acc]
  | c :: r => match r with
              | d :: r' => if (c =? a) && (d =? b) then acc :: split_two a b [] r' else split_two a b (acc ++ [c]) r
              | [] => [acc ++ [c]]
              end
  end.

(** ** Equal values *)

Lemma obj_get_in l k v : obj_get l k = Some v -> In (k, v) l.
Proof. intros H. apply list_elem_of_In. by apply obj_get_some. Qed.

(** Equality of the elements of two lists, by [py_eq]. *)
Lemma py_eq_list l m : py_eq (JList l) (JList m) = true <-> Forall2 (fun x y => py_eq x y = true) l m.
Proof.
  cbn [py_eq number_of]. revert m. induction l as [|x l IH]; intros [|y m]; split; intros H; try done; try by inversion H.
  - apply andb_prop in H as [H1 H2]. constructor; [done|]. by apply IH.
  - inversion H as [|? ? ? ? H1 H2]; subst. rewrite H1. by apply IH.
Qed.
