(* ===== verification/Timestamp.v ===== *)
(** * Timestamps with fractions of a second

    [_timestamp], [_format_timestamp] and [_observation_time] of
    src/scripts/harness/physical_collector_request.py, with the part of Python's
    [datetime] they use: [fromisoformat] of a UTC text with up to six digits of
    a second, the order of aware times and their difference from a [timedelta]. *)

From S2P Require Import Prelude Sha256 Text Json DateTime Effects.

(** A time and its microseconds. *)
Record stamp := Stamp { st_date : datetime; st_micro : Z }.

(** ** The line of time *)

(** [date.toordinal], the first of January of the year 1 being day 1. *)
Definition days_before_year (y : Z) : Z := (y - 1) * 365 + (y - 1) / 4 - (y - 1) / 100 + (y - 1) / 400.
Definition days_before_month (y m : Z) : Z :=
  foldr Z.add 0 (map (fun k => days_in_month y (Z.of_nat k)) (seq 1 (Z.to_nat (m - 1)))).
Definition toordinal (d : datetime) : Z := days_before_year (year d) + days_before_month (year d) (month d) + day d.

Definition SECOND : Z := 1000000.
(** Microseconds since the day before the first. *)
Definition moment (t : stamp) : Z :=
  (toordinal (st_date t) * 86400 + hour (st_date t) * 3600 + minute (st_date t) * 60 + second (st_date t)) * SECOND + st_micro t.
(** [datetime.min]: no earlier time can be represented. *)
Definition MIN_MOMENT : Z := moment (Stamp (DateTime 1 1 1 0 0 0) 0).

(** [timedelta(hours=6)]. *)
Definition PRODUCTION_NONCE_TTL : Z := 6 * 3600 * SECOND.

(** ** Reading and writing *)

(** [(?:\.[0-9]{1,6})?Z$], the digits being a fraction of a second. *)
Definition split_fraction (s : str) : option Z :=
  match s with
  | [90] => Some 0
  | 46 :: r =>
      let digits := removelast r in
      if (List.last r 0 =? 90) && (1 <=? length digits)%nat && (length digits <=? 6)%nat && forallb is_digit digits
      then Some (dec_value (digits ++ replicate (6 - length digits) 48))
      else None
  | _ => None
  end.

(** [UTC_TIMESTAMP_RE] and [datetime.fromisoformat(value[:-1] + "+00:00")]. *)
Definition read_stamp (value : str) : option stamp :=
  micro ← split_fraction (drop 19 value);
  '(y, m, d, h, n, s) ← split_utc (take 19 value ++ [90]);
  let t := DateTime (dec_value y) (dec_value m) (dec_value d) (dec_value h) (dec_value n) (dec_value s) in
  let t := if (hour t =? 24) && (minute t =? 0) && (second t =? 0) && (micro =? 0) &&
              valid_datetime (DateTime (year t) (month t) (day t) 0 0 0)
           then next_midnight t else t in
  if valid_datetime t then Some (Stamp t micro) else None.

Definition _timestamp (value : json) : result pyexn stamp :=
  match value with
  | JStr s => match read_stamp s with Some t => Ok t | None => Err PhysicalCollectorRequestError end
  | _ => Err PhysicalCollectorRequestError
  end.

Definition _format_timestamp (t : stamp) : str := format_utc (st_date t).
