(* ===== verification/Identity.v ===== *)
(** * The identity of the machine

    src/scripts/harness/physical_machine_identity.py: the commands that observe
    the machine, the checks of their output, and the digests of the machine and of
    its boot environment.  The commands are processes of the operating system and
    property lists are read by [plistlib]; both are parameters. *)

From S2P Require Import Prelude Sha256 Text Json Effects Python TrustPolicy.

(** ** Commands and property lists *)

(** What [runner(command)] does: a completed process, or an exception. *)
Inductive command_result :=
  | Completed (returncode : Z) (stdout stderr : bytes)
  | TimeoutExpired
  | NotStarted.                             (* OSError *)

Definition Runner : Type := list string -> command_result.

(** What [plistlib.loads] returns: the values the code looks at, and the rest. *)
#[local] Unset Elimination Schemes.
Inductive plist :=
  | PBool (b : bool)
  | PInt (z : Z)
  | PReal (f : float64)
  | PStr (s : str)
  | PArray (l : list plist)
  | PDict (l : list (str * plist))
  | POther.                                 (* data, dates and identifiers *)
#[local] Set Elimination Schemes.

Inductive plist_result :=
  | Plist (value : plist)
  | NotPlist                                (* InvalidFileException or ValueError *)
  | PlistFailure.                           (* any other exception *)

Fixpoint plist_get (l : list (str * plist)) (k : str) : option plist :=
  match l with [] => None | (k', v) :: l => if str_eqb k' k then Some v else plist_get l k end.

(** [value == s] and [value == b]; [True == 1 == 1.0]. *)
Definition plist_is_str (v : option plist) (s : string) : bool := match v with Some (PStr t) => str_eqb t (u s) | _ => false end.
Definition plist_is_bool (v : option plist) (b : bool) : bool :=
  match v with
  | Some (PBool c) => Bool.eqb c b
  | Some (PInt z) => z =? Z.b2z b
  | Some (PReal f) => py_eq (JFloat f) (JBool b)
  | _ => false
  end.

Definition MAX_COMMAND_OUTPUT : Z := 1024 * 1024.

Definition IdE {A} : result pyexn A := Err PhysicalMachineIdentityError.

Definition _validate_result (returncode : Z) (stdout stderr : bytes) : result pyexn bytes :=
  raise_if negb (returncode =? 0) || negb (bool_decide (stderr = [])) with PhysicalMachineIdentityError ;;
  raise_if bool_decide (stdout = []) || (MAX_COMMAND_OUTPUT <? len stdout) with PhysicalMachineIdentityError ;;
  Ok stdout.

(** [_run]; the bounded runner used when none is given fails in the same cases. *)
Definition _run (runner : Runner) (command : list string) : result pyexn bytes :=
  match runner command with
  | Completed returncode stdout stderr => _validate_result returncode stdout stderr
  | TimeoutExpired => IdE
  | NotStarted => Err OSError
  end.

Definition _text (data : bytes) : result pyexn str :=
  match utf8_decode data with
  | None => IdE
  | Some text =>
      let value := strip text in
      raise_if bool_decide (value = []) || match utf8_encode value with Some b => 128 <? len b | None => true end || has_control value
        with PhysicalMachineIdentityError ;;
      Ok value
  end.

(** ** Identifiers *)

Definition is_hex (c : Z) : bool := is_lower_hex c || ((65 <=? c) && (c <=? 70)).
(** The parts of a text between hyphens. *)
Fixpoint split_hyphen (acc s : str) : list str :=
  match s with [] => [acc] | c :: r => if c =? 45 then acc :: split_hyphen [] r else split_hyphen (acc ++ [c]) r end.
Definition hex_part (n : nat) (s : str) : bool := (length s =? n)%nat && forallb is_hex s.
Definition UUID_PATTERN (s : str) : bool :=
  match split_hyphen [] s with
  | [a; b; c; d; e] => hex_part 8 a && hex_part 4 b && hex_part 4 c && hex_part 4 d && hex_part 12 e
  | _ => false
  end.
Definition ZERO_UUID : str := u "00000000-0000-0000-0000-000000000000".

(** [[1-9][0-9]{0,2}]. *)
Definition model_number (s : str) : bool :=
  match s with c :: r => (49 <=? c) && (c <=? 57) && forallb is_digit r && (length r <=? 2)%nat | [] => false end.
Fixpoint split_comma (acc s : str) : list str :=
  match s with [] => [acc] | c :: r => if c =? 44 then acc :: split_comma [] r else split_comma (acc ++ [c]) r end.
Definition MODEL_NAMES : list string :=
  ["Mac"; "MacBookAir"; "MacBookPro"; "Macmini"; "MacPro"; "MacStudio"; "iMac"; "iMacPro"]%string.
Definition PHYSICAL_MODEL_PATTERN (s : str) : bool :=
  existsb (fun name => match after name s with
                       | Some r => match split_comma [] r with [a; b] => model_number a && model_number b | _ => false end
                       | None => false
                       end) MODEL_NAMES.

Definition validate_physical_hardware_model (value : str) : result pyexn str :=
  if PHYSICAL_MODEL_PATTERN value then Ok value else IdE.

(** ** Digests *)

Definition DOCUMENT : str := u "cfw-physical-machine-identity-v1".
Definition BOOT_DOCUMENT : str := u "cfw-boot-environment-v1".
(** [document.encode("ascii") + b"\0"]. *)
Definition domain (document : str) : bytes := default [] (utf8_encode document) ++ [x00].

Definition machine_payload (platform_uuid hardware_model architecture : str) : json :=
  JObj [(u "architecture", JStr architecture); (u "document", JStr DOCUMENT); (u "hardware_model", JStr hardware_model);
        (u "io_platform_uuid", JStr (ascii_lower platform_uuid)); (u "schema_version", JInt 1);
        (u "virtualization_present", JBool false)].

Definition derive_machine_sha256 (platform_uuid hardware_model architecture : str) (virtualization_present : bool) : result pyexn str :=
  raise_if negb (UUID_PATTERN platform_uuid) || str_eqb (ascii_lower platform_uuid) ZERO_UUID with PhysicalMachineIdentityError ;;
  _ ← validate_physical_hardware_model hardware_model;
  raise_if negb (str_eqb architecture (u "arm64")) with PhysicalMachineIdentityError ;;
  raise_if virtualization_present with PhysicalMachineIdentityError ;;
  payload ← of_raw (canonical_json (machine_payload platform_uuid hardware_model architecture));
  Ok (hexdigest (domain DOCUMENT ++ payload)).

Definition boot_payload (volume_uuid volume_group_uuid : str) : json :=
  JObj [(u "document", JStr BOOT_DOCUMENT); (u "schema_version", JInt 1);
        (u "volume_group_uuid", JStr (ascii_lower volume_group_uuid)); (u "volume_uuid", JStr (ascii_lower volume_uuid))].

Definition derive_boot_environment_sha256 (volume_uuid volume_group_uuid : str) : result pyexn str :=
  raise_if negb (UUID_PATTERN volume_uuid) || str_eqb (ascii_lower volume_uuid) ZERO_UUID with PhysicalMachineIdentityError ;;
  raise_if negb (UUID_PATTERN volume_group_uuid) || str_eqb (ascii_lower volume_group_uuid) ZERO_UUID
    with PhysicalMachineIdentityError ;;
  payload ← of_raw (canonical_json (boot_payload volume_uuid volume_group_uuid));
  Ok (hexdigest (domain BOOT_DOCUMENT ++ payload)).

(** ** Observing the machine *)

Section Observe.
Context (plist_loads : bytes -> plist_result) (runner : Runner).

Definition _platform_uuid (data : bytes) : result pyexn str :=
  match plist_loads data with
  | Plist (PArray [PDict root]) =>
      match plist_get root (u "IOPlatformUUID") with
      | Some (PStr platform_uuid) =>
          raise_if negb (UUID_PATTERN platform_uuid) || str_eqb (ascii_lower platform_uuid) ZERO_UUID
            with PhysicalMachineIdentityError ;;
          Ok (ascii_lower platform_uuid)
      | _ => IdE
      end
  | Plist _ | NotPlist => IdE
  | PlistFailure => Err OtherException
  end.

(** [/dev/disk[0-9]+s[0-9]+s[0-9]+]. *)
Definition device_node (s : str) : bool :=
  match after "/dev/disk" s with
  | None => false
  | Some r =>
      let (a, r) := span_digits r in
      match r with
      | 115 :: r => let (b, r) := span_digits r in
          match r with
          | 115 :: r => let (c, r) := span_digits r in
              bool_decide (r = []) && negb (bool_decide (a = [])) && negb (bool_decide (b = [])) && negb (bool_decide (c = []))
          | _ => false
          end
      | _ => false
      end
  end.

Definition mount_flag (s : str) : bool :=
  negb (bool_decide (s = [])) && forallb (fun c => lower_char c || is_digit c || (c =? 45)) s.

(** The flags of the root mount of [device] in one line of [mount]; none when
    the line has another shape. *)
Definition mount_flags (device line : str) : list str :=
  let head := device ++ u " on / (" in
  let rest := drop (length head) line in
  if starts_with head line && (List.last rest 0 =? 41) && negb (bool_decide (rest = [])) then
    let flags := split_two 44 32 [] (removelast rest) in
    if forallb mount_flag flags then flags else []
  else [].

Definition _require_sealed_boot_volume (value : list (str * plist)) : result pyexn () :=
  if plist_is_str (plist_get value (u "Sealed")) "Yes" then Ok ()
  else
    match plist_get value (u "Sealed"), plist_get value (u "APFSSnapshot"), plist_get value (u "Writable"),
          plist_get value (u "DeviceNode") with
    | Some (PStr sealed), Some (PBool true), Some (PBool false), Some (PStr device) =>
        raise_if negb (str_eqb sealed (u "No") || str_eqb sealed (u "Broken")) || negb (device_node device)
          with PhysicalMachineIdentityError ;;
        data ← _run runner ["/sbin/mount"%string];
        match utf8_decode data with
        | None => IdE
        | Some output =>
            let roots := List.filter (contains (u " on / (")) (splitlines output) in
            let flags := match roots with [root] => mount_flags device root | _ => [] end in
            raise_if negb (bool_decide (NoDup flags)) ||
                     negb (forallb (fun flag => existsb (str_eqb (u flag)) flags) ["apfs"; "sealed"; "local"; "read-only"]%string)
              with PhysicalMachineIdentityError ;;
            Ok ()
        end
    | _, _, _, _ => IdE
    end.

Definition _boot_environment (data : bytes) : result pyexn str :=
  match plist_loads data with
  | Plist (PDict value) =>
      raise_if negb (plist_is_str (plist_get value (u "MountPoint")) "/") with PhysicalMachineIdentityError ;;
      raise_if negb (plist_is_bool (plist_get value (u "Bootable")) true) with PhysicalMachineIdentityError ;;
      raise_if negb (plist_is_str (plist_get value (u "FilesystemType")) "apfs") with PhysicalMachineIdentityError ;;
      raise_if negb (plist_is_bool (plist_get value (u "SystemImage")) false) with PhysicalMachineIdentityError ;;
      _ ← _require_sealed_boot_volume value;
      match plist_get value (u "VolumeUUID"), plist_get value (u "APFSVolumeGroupID") with
      | Some (PStr volume_uuid), Some (PStr volume_group_uuid) => derive_boot_environment_sha256 volume_uuid volume_group_uuid
      | _, _ => IdE
      end
  | Plist _ | NotPlist => IdE
  | PlistFailure => Err OtherException
  end.

Record PhysicalMachineIdentity := { mi_machine_sha256 : str; mi_hardware_model : str; mi_architecture : str }.

Definition collect_machine_identity : result pyexn PhysicalMachineIdentity :=
  os ← _run runner ["/usr/bin/uname"; "-s"]%string;
  operating_system ← _text os;
  raise_if negb (str_eqb operating_system (u "Darwin")) with PhysicalMachineIdentityError ;;
  arch ← _run runner ["/usr/bin/uname"; "-m"]%string;
  architecture ← _text arch;
  model ← _run runner ["/usr/sbin/sysctl"; "-n"; "hw.model"]%string;
  hardware_model ← _text model;
  _ ← validate_physical_hardware_model hardware_model;
  vmm ← _run runner ["/usr/sbin/sysctl"; "-n"; "kern.hv_vmm_present"]%string;
  virtualization ← _text vmm;
  raise_if negb (str_eqb virtualization (u "0") || str_eqb virtualization (u "1")) with PhysicalMachineIdentityError ;;
  ioreg ← _run runner ["/usr/sbin/ioreg"; "-a"; "-r"; "-l"; "-d"; "1"; "-c"; "IOPlatformExpertDevice"]%string;
  platform_uuid ← _platform_uuid ioreg;
  digest ← derive_machine_sha256 platform_uuid hardware_model architecture (str_eqb virtualization (u "1"));
  Ok {| mi_machine_sha256 := digest; mi_hardware_model := hardware_model; mi_architecture := architecture |}.

Definition collect_boot_environment_sha256 : result pyexn str :=
  data ← _run runner ["/usr/sbin/diskutil"; "info"; "-plist"; "/"]%string;
  _boot_environment data.
End Observe.

(** [self_check] returns. *)
Definition self_check : bool :=
  match derive_machine_sha256 (u "01234567-89ab-cdef-0123-456789abcdef") (u "Mac16,1") (u "arm64") false,
        derive_boot_environment_sha256 (u "11111111-2222-3333-4444-555555555555") (u "aaaaaaaa-bbbb-cccc-dddd-eeeeeeeeeeee") with
  | Ok machine, Ok boot =>
      str_eqb machine (u "e16dea85471fe6c16032fa874c25e3803d6142acedc805fb4ef04b2b190bb902") &&
      str_eqb boot (u "d474c92f7822316f5ebcf273cae689fdfa2c5348f9c2d73ff6dd8b24bb42cb63")
  | _, _ => false
  end.

(** ** What the digests bind *)

Lemma split_hyphen_chars (P : Z -> bool) acc s :
  P 45 = true -> forallb (forallb P) (split_hyphen acc s) = true -> forallb P (acc ++ s) = true.
Proof.
  intros H45. revert acc. induction s as [|c s IH]; intros acc; cbn [split_hyphen].
  - cbn [forallb]. rewrite andb_true_r, app_nil_r. done.
  - destruct (c =? 45) eqn:C.
    + apply Z.eqb_eq in C as ->. cbn [forallb]. rewrite andb_true_iff. intros [Ha Hs]. rewrite forallb_app, Ha. cbn [forallb andb].
      rewrite H45. exact (IH [] Hs).
    + intros H. apply IH in H. by rewrite <-app_assoc in H.
Qed.

Lemma split_comma_chars (P : Z -> bool) acc s :
  P 44 = true -> forallb (forallb P) (split_comma acc s) = true -> forallb P (acc ++ s) = true.
Proof.
  intros H44. revert acc. induction s as [|c s IH]; intros acc; cbn [split_comma].
  - cbn [forallb]. rewrite andb_true_r, app_nil_r. done.
  - destruct (c =? 44) eqn:C.
    + apply Z.eqb_eq in C as ->. cbn [forallb]. rewrite andb_true_iff. intros [Ha Hs]. rewrite forallb_app, Ha. cbn [forallb andb].
      rewrite H44. exact (IH [] Hs).
    + intros H. apply IH in H. by rewrite <-app_assoc in H.
Qed.

(** Printable ASCII without quotes and backslashes needs no escape. *)
Definition clean_char (c : Z) : bool := (33 <=? c) && negb (c =? 34) && negb (c =? 92) && (c <? 127).

Lemma clean_weaken (P : Z -> bool) s : (forall c, P c = true -> clean_char c = true) -> forallb P s = true -> forallb clean_char s = true.
Proof. intros HP H. apply forallb_forall. intros c Hc. apply HP. by apply forallb_forall with (x := c) in H. Qed.

Lemma clean_encodable s : forallb clean_char s = true -> encodable s = true.
Proof.
  intros H. apply forallb_forall. intros c Hc. apply forallb_forall with (x := c) in H; [|done].
  unfold clean_char in H. rewrite !andb_true_iff, Z.leb_le, Z.ltb_lt in H. apply scalar_range. lia.
Qed.

Lemma hex_clean c : is_hex c = true -> clean_char c = true.
Proof.
  unfold is_hex, is_lower_hex, is_digit, clean_char. rewrite !orb_true_iff, !andb_true_iff, !Z.leb_le, !negb_true_iff, !Z.eqb_neq, Z.ltb_lt. lia.
Qed.

Lemma uuid_clean s : UUID_PATTERN s = true -> forallb clean_char s = true.
Proof.
  unfold UUID_PATTERN. intros H. apply (split_hyphen_chars _ [] s); [done|].
  destruct (split_hyphen [] s) as [|a [|b [|c [|d [|e [|]]]]]]; try discriminate H. unfold hex_part in H. rewrite !andb_true_iff in H.
  destruct H as (((([_ Ha] & [_ Hb]) & [_ Hc]) & [_ Hd]) & [_ He]). cbn [forallb].
  by rewrite !(clean_weaken _ _ hex_clean).
Qed.

Lemma digit_clean c : is_digit c = true -> clean_char c = true.
Proof. intros H. apply hex_clean. unfold is_hex, is_lower_hex. by rewrite H. Qed.

Lemma model_number_clean s : model_number s = true -> forallb clean_char s = true.
Proof.
  unfold model_number. destruct s as [|c r]; [done|]. rewrite !andb_true_iff. intros [[[H1 H2] H3] _]. cbn [forallb].
  rewrite (clean_weaken _ _ digit_clean H3), andb_true_r. apply digit_clean. unfold is_digit. rewrite H2, andb_true_r.
  apply Z.leb_le in H1. apply Z.leb_le. lia.
Qed.

Lemma after_app lit s r : after lit s = Some r -> s = u lit ++ r.
Proof.
  unfold after. destruct (starts_with (u lit) s) eqn:S; [|done]. intros [= <-]. unfold starts_with in S. apply bool_decide_eq_true in S as [k ->].
  by rewrite drop_app_length.
Qed.

Lemma model_clean s : PHYSICAL_MODEL_PATTERN s = true -> forallb clean_char s = true.
Proof.
  unfold PHYSICAL_MODEL_PATTERN. rewrite existsb_exists. intros (name & Hn & H). destruct (after name s) as [r|] eqn:A; [|done].
  apply after_app in A as ->. rewrite forallb_app, andb_true_iff. split.
  - assert (C : forallb (fun n => forallb clean_char (u n)) MODEL_NAMES = true) by (vm_compute; reflexivity).
    by apply forallb_forall with (x := name) in C.
  - apply (split_comma_chars _ [] r); [done|]. destruct (split_comma [] r) as [|a [|b [|]]]; try discriminate H.
    apply andb_prop in H as [Ha Hb]. cbn [forallb]. by rewrite (model_number_clean a Ha), (model_number_clean b Hb).
Qed.

Lemma lower_clean s : forallb clean_char s = true -> forallb clean_char (ascii_lower s) = true.
Proof.
  intros H. unfold ascii_lower. rewrite forallb_map. apply forallb_forall. intros c Hc. apply forallb_forall with (x := c) in H; [|done].
  destruct (upper_char c) eqn:U; [|done]. unfold upper_char in U. apply andb_prop in U as [U1 U2]. apply Z.leb_le in U1, U2.
  unfold clean_char. rewrite !andb_true_iff, !negb_true_iff, !Z.eqb_neq, Z.leb_le, Z.ltb_lt. lia.
Qed.

(** What is hashed. *)
Definition machine_message (platform_uuid hardware_model architecture : str) : bytes :=
  domain DOCUMENT ++ default [] (canonical_json (machine_payload platform_uuid hardware_model architecture)).
Definition boot_message (volume_uuid volume_group_uuid : str) : bytes :=
  domain BOOT_DOCUMENT ++ default [] (canonical_json (boot_payload volume_uuid volume_group_uuid)).

Lemma of_raw_inv {A} (o : option A) a : of_raw o = Ok a -> o = Some a.
Proof. unfold of_raw, RAE. destruct o; congruence. Qed.

Lemma derive_machine_ok uuid model arch virt d : derive_machine_sha256 uuid model arch virt = Ok d ->
  UUID_PATTERN uuid = true /\ ascii_lower uuid <> ZERO_UUID /\ PHYSICAL_MODEL_PATTERN model = true /\ arch = u "arm64" /\ virt = false /\
  d = hexdigest (machine_message uuid model arch).
Proof.
  unfold derive_machine_sha256, validate_physical_hardware_model. intros H.
  destruct (negb (UUID_PATTERN uuid) || _) eqn:G1 in H; [discriminate H|]. apply orb_false_iff in G1 as [G1 G2]. apply negb_false_iff in G1.
  inv_bind H. destruct (PHYSICAL_MODEL_PATTERN model) eqn:G3; [|discriminate E]. destruct (negb _) eqn:G4 in H; [discriminate H|].
  apply negb_false_iff, str_eqb_eq in G4. destruct virt; [discriminate H|]. inv_bind H. apply of_raw_inv in E0.
  split; [done|]. split; [by intros X; rewrite X in G2|]. split; [done|]. split; [done|]. split; [done|].
  unfold machine_message. rewrite E0. injection H as <-. reflexivity.
Qed.

Lemma derive_boot_ok v g d : derive_boot_environment_sha256 v g = Ok d ->
  UUID_PATTERN v = true /\ UUID_PATTERN g = true /\ d = hexdigest (boot_message v g).
Proof.
  unfold derive_boot_environment_sha256. intros H.
  destruct (negb (UUID_PATTERN v) || _) eqn:G1 in H; [discriminate H|]. apply orb_false_iff in G1 as [G1 _]. apply negb_false_iff in G1.
  destruct (negb (UUID_PATTERN g) || _) eqn:G2 in H; [discriminate H|]. apply orb_false_iff in G2 as [G2 _]. apply negb_false_iff in G2.
  inv_bind H. apply of_raw_inv in E. split; [done|]. split; [done|]. unfold boot_message. rewrite E. injection H as <-. reflexivity.
Qed.

Lemma payload_facts uuid model arch : UUID_PATTERN uuid = true -> PHYSICAL_MODEL_PATTERN model = true -> arch = u "arm64" ->
  plain (machine_payload uuid model arch) = true /\ _json_depth (machine_payload uuid model arch) 0 = true.
Proof.
  intros HU HM ->. pose proof (clean_encodable _ (lower_clean _ (uuid_clean _ HU))) as EU. pose proof (clean_encodable _ (model_clean _ HM)) as EM.
  unfold machine_payload. split.
  - cbn [plain forallb fst snd]. rewrite (encodable_chars _ EU), (encodable_chars _ EM). vm_compute. reflexivity.
  - cbn [_json_depth forallb fst snd]. change (MAX_JSON_DEPTH <? 0) with false. change (MAX_JSON_DEPTH <? 0 + 1) with false. cbv iota.
    rewrite EU, EM. vm_compute. reflexivity.
Qed.

Lemma boot_payload_facts v g : UUID_PATTERN v = true -> UUID_PATTERN g = true ->
  plain (boot_payload v g) = true /\ _json_depth (boot_payload v g) 0 = true.
Proof.
  intros HV HG. pose proof (clean_encodable _ (lower_clean _ (uuid_clean _ HV))) as EV. pose proof (clean_encodable _ (lower_clean _ (uuid_clean _ HG))) as EG.
  unfold boot_payload. split.
  - cbn [plain forallb fst snd]. rewrite (encodable_chars _ EV), (encodable_chars _ EG). vm_compute. reflexivity.
  - cbn [_json_depth forallb fst snd]. change (MAX_JSON_DEPTH <? 0) with false. change (MAX_JSON_DEPTH <? 0 + 1) with false. cbv iota.
    rewrite EV, EG. vm_compute. reflexivity.
Qed.

Lemma machine_message_inj u1 m1 a1 u2 m2 a2 :
  UUID_PATTERN u1 = true -> PHYSICAL_MODEL_PATTERN m1 = true -> a1 = u "arm64" ->
  UUID_PATTERN u2 = true -> PHYSICAL_MODEL_PATTERN m2 = true -> a2 = u "arm64" ->
  machine_message u1 m1 a1 = machine_message u2 m2 a2 -> ascii_lower u1 = ascii_lower u2 /\ m1 = m2.
Proof.
  intros U1 M1 A1 U2 M2 A2 H. destruct (payload_facts _ _ _ U1 M1 A1) as [P1 D1], (payload_facts _ _ _ U2 M2 A2) as [P2 D2].
  destruct (canonical_json_some _ 0 P1 D1) as [b1 B1], (canonical_json_some _ 0 P2 D2) as [b2 B2].
  unfold machine_message in H. rewrite B1, B2 in H. apply app_inv_head in H. change (b1 = b2) in H. subst b2.
  pose proof (canonical_inj _ _ _ P1 D1 P2 D2 B1 B2) as E. unfold machine_payload in E. injection E. auto.
Qed.

(** C26: the machine digest identifies the machine.  Two machines with one
    [machine_sha256] have the same platform identifier, up to case, and the same
    hardware model, or what was hashed is a SHA-256 collision; and the digest of a
    machine is never the digest of a boot environment, or that is a collision:
    the two are hashed in different domains. *)
Theorem machine_digest_binds u1 m1 a1 v1 u2 m2 a2 v2 volume group d d' :
  derive_machine_sha256 u1 m1 a1 v1 = Ok d -> derive_machine_sha256 u2 m2 a2 v2 = Ok d ->
  derive_boot_environment_sha256 volume group = Ok d' ->
  ((ascii_lower u1 = ascii_lower u2 /\ m1 = m2) \/
   (machine_message u1 m1 a1 <> machine_message u2 m2 a2 /\ hexdigest (machine_message u1 m1 a1) = hexdigest (machine_message u2 m2 a2))) /\
  (d <> d' \/
   (machine_message u1 m1 a1 <> boot_message volume group /\ hexdigest (machine_message u1 m1 a1) = hexdigest (boot_message volume group))).
Proof.
  intros (U1 & _ & M1 & A1 & _ & D1)%derive_machine_ok (U2 & _ & M2 & A2 & _ & D2)%derive_machine_ok (HV & HG & DB)%derive_boot_ok. split.
  - destruct (decide (machine_message u1 m1 a1 = machine_message u2 m2 a2)) as [E|N].
    + left. exact (machine_message_inj _ _ _ _ _ _ U1 M1 A1 U2 M2 A2 E).
    + right. split; [exact N|]. rewrite <-D1, <-D2. reflexivity.
  - destruct (decide (d = d')) as [->|N]; [right|left; exact N]. split; [|rewrite <-D1, <-DB; reflexivity].
    intros E. unfold machine_message, boot_message in E. apply (f_equal (take 10)) in E. rewrite !take_app_le in E by (vm_compute; lia).
    vm_compute in E. discriminate E.
Qed.

(** The published test vectors of [self_check] are met. *)
Theorem identity_self_check : self_check = true.
Proof. vm_compute. reflexivity. Qed.

(** The digests are derived from well-formed identifiers. *)
Lemma derive_machine_some uuid model : UUID_PATTERN uuid = true -> str_eqb (ascii_lower uuid) ZERO_UUID = false ->
  PHYSICAL_MODEL_PATTERN model = true ->
  derive_machine_sha256 uuid model (u "arm64") false = Ok (hexdigest (machine_message uuid model (u "arm64"))).
Proof.
  intros HU HZ HM. unfold derive_machine_sha256, validate_physical_hardware_model, machine_message. rewrite HU, HZ, HM.
  cbn [negb orb mbind result_bind]. rewrite str_eqb_refl. cbn [negb].
  destruct (payload_facts uuid model _ HU HM eq_refl) as [P D]. destruct (canonical_json_some _ 0 P D) as [b ->]. reflexivity.
Qed.
Lemma derive_boot_some v g : UUID_PATTERN v = true -> str_eqb (ascii_lower v) ZERO_UUID = false ->
  UUID_PATTERN g = true -> str_eqb (ascii_lower g) ZERO_UUID = false ->
  derive_boot_environment_sha256 v g = Ok (hexdigest (boot_message v g)).
Proof.
  intros HV ZV HG ZG. unfold derive_boot_environment_sha256, boot_message. rewrite HV, ZV, HG, ZG. cbn [negb orb].
  destruct (boot_payload_facts v g HV HG) as [P D]. destruct (canonical_json_some _ 0 P D) as [b ->]. reflexivity.
Qed.

Definition sample_uuid : str := u "01234567-89ab-cdef-0123-456789abcdef".

Lemma machine_digest_binds_witness : exists d d' : str,
  ((ascii_lower sample_uuid = ascii_lower sample_uuid /\ u "Mac16,1" = u "Mac16,1") \/
   (machine_message sample_uuid (u "Mac16,1") (u "arm64") <> machine_message sample_uuid (u "Mac16,1") (u "arm64") /\
    hexdigest (machine_message sample_uuid (u "Mac16,1") (u "arm64")) = hexdigest (machine_message sample_uuid (u "Mac16,1") (u "arm64")))) /\
  (d <> d' \/
   (machine_message sample_uuid (u "Mac16,1") (u "arm64") <> boot_message sample_uuid sample_uuid /\
    hexdigest (machine_message sample_uuid (u "Mac16,1") (u "arm64")) = hexdigest (boot_message sample_uuid sample_uuid))).
Proof.
  pose proof (derive_machine_some sample_uuid (u "Mac16,1") eq_refl eq_refl eq_refl) as E.
  pose proof (derive_boot_some sample_uuid sample_uuid eq_refl eq_refl eq_refl eq_refl) as B.
  exists (hexdigest (machine_message sample_uuid (u "Mac16,1") (u "arm64"))), (hexdigest (boot_message sample_uuid sample_uuid)).
  exact (machine_digest_binds _ _ _ _ _ _ _ _ _ _ _ _ E E B).
Defined.

(** What a machine that passes is. *)
Lemma collect_machine_ok plist_loads runner m : collect_machine_identity plist_loads runner = Ok m ->
  PHYSICAL_MODEL_PATTERN (mi_hardware_model m) = true /\ mi_architecture m = u "arm64" /\ is_sha256 (mi_machine_sha256 m) = true.
Proof.
  unfold collect_machine_identity. intros H. inv_bind H. inv_bind H. destruct (negb _) in H; [discriminate H|].
  do 5 inv_bind H. inv_bind H. inv_bind H. destruct (negb _) in H; [discriminate H|]. inv_bind H. inv_bind H. inv_bind H.
  injection H as <-. apply derive_machine_ok in E10 as (_ & _ & M & A & _ & D). cbn [mi_hardware_model mi_architecture mi_machine_sha256].
  split; [exact M|]. split; [exact A|]. rewrite D. apply hexdigest_sha256.
Qed.
Lemma collect_boot_ok plist_loads runner d : collect_boot_environment_sha256 plist_loads runner = Ok d -> is_sha256 d = true.
Proof.
  unfold collect_boot_environment_sha256, _boot_environment. intros H. inv_bind H.
  destruct (plist_loads v) as [[| | | | |value|]| |]; try discriminate H.
  do 4 (destruct (negb _) in H; [discriminate H|]). inv_bind H.
  destruct (plist_get value (u "VolumeUUID")) as [[]|]; try discriminate H.
  destruct (plist_get value (u "APFSVolumeGroupID")) as [[]|]; try discriminate H.
  apply derive_boot_ok in H as (_ & _ & ->). apply hexdigest_sha256.
Qed.
