(* ===== verification/Archive.v ===== *)
(** * The private archive

    [SecureArchive] of src/scripts/physical_capture/archive.py: a tree of
    private directories and files below one root, written only by exclusive
    creation of a pending file, a complete write, and an exclusive rename.

    The state is what the archive's directory tree holds ([h_dirs], [h_files],
    keyed by path components below the root), whether its root exists, the
    object's sealed prefixes, whether its root descriptor is open, and a counter
    of system calls.  Every system call that changes the disk consults the
    environment [e_fault]: it succeeds, fails with an error, or the process dies
    there, before or after the call took effect; a write may do either after any
    number of bytes.  [e_uuid] is the source of pending names and [e_now] the
    clock.  The tree holds only owner-only regular files and directories and no
    other process changes it: modes, owners, links and the comparison of two
    [stat] results of one file are not modelled. *)

From S2P Require Import Prelude Sha256 Text DateTime Effects.

Inductive fault :=
  | Proceed
  | Fails (n : nat)
  | Crashes (n : nat).

Record env := Env {
  e_fault : nat -> fault;
  e_uuid : nat -> str;
  e_now : nat -> datetime
}.

Abbreviation path := (list str).

Record host := Host {
  h_root : bool;
  h_dirs : gset path;
  h_files : gmap path bytes;
  h_sealed : list path;
  h_open : bool;
  h_step : nat
}.

Definition with_root (b : bool) (h : host) : host := Host b (h_dirs h) (h_files h) (h_sealed h) (h_open h) (h_step h).
Definition with_dirs (d : gset path) (h : host) : host := Host (h_root h) d (h_files h) (h_sealed h) (h_open h) (h_step h).
Definition with_files (f : gmap path bytes) (h : host) : host := Host (h_root h) (h_dirs h) f (h_sealed h) (h_open h) (h_step h).
Definition with_sealed (l : list path) (h : host) : host := Host (h_root h) (h_dirs h) (h_files h) l (h_open h) (h_step h).
Definition with_open (b : bool) (h : host) : host := Host (h_root h) (h_dirs h) (h_files h) (h_sealed h) b (h_step h).
Definition tick (h : host) : host := Host (h_root h) (h_dirs h) (h_files h) (h_sealed h) (h_open h) (S (h_step h)).

(** ** Names and paths *)

Definition DEFAULT_MAXIMUM_BYTES : Z := 256 * 1024 * 1024.
Definition MAX_PATH_COMPONENT_BYTES : Z := 128.
Definition MAX_RELATIVE_PATH_BYTES : Z := 512.

Definition is_alnum (c : Z) : bool :=
  is_digit c || ((65 <=? c) && (c <=? 90)) || ((97 <=? c) && (c <=? 122)).
Definition is_component_char (c : Z) : bool := is_alnum c || (c =? 46) || (c =? 95) || (c =? 45).

(** [^[A-Za-z0-9][A-Za-z0-9._-]{0,127}$]. *)
Definition _COMPONENT_RE (s : str) : bool :=
  match s with
  | [] => false
  | c :: r => is_alnum c && forallb is_component_char r && (length r <=? 127)%nat
  end.

(** A dot, a component, [.pending-] and thirty-two hexadecimal digits: the
    component, if the name has this form. *)
Definition _PENDING_RE (name : str) : option str :=
  match name with
  | [] => None
  | c :: r =>
      let n := (length r - 41)%nat in
      let final := take n r in
      let nonce := drop (n + 9) r in
      if (c =? 46) && _COMPONENT_RE final && str_eqb (take 9 (drop n r)) (u ".pending-") &&
         (length nonce =? 32)%nat && forallb is_lower_hex nonce
      then Some final else None
  end.

Record ArchivedFile := { af_relative_path : str; af_size : Z; af_sha256 : str }.
Record PendingFile := { pf_relative_path : str; pf_final_relative_path : str }.

#[export] Instance ArchivedFile_eq_decision : EqDecision ArchivedFile.
Proof. solve_decision. Defined.
#[export] Instance PendingFile_eq_decision : EqDecision PendingFile.
Proof. solve_decision. Defined.

Definition archived (relative : str) (data : bytes) : ArchivedFile :=
  {| af_relative_path := relative; af_size := len data; af_sha256 := hexdigest data |}.

(** The components of a relative path.  A path all of whose pieces are
    components is relative and equal to its canonical form. *)
Definition _relative_parts (text : str) : result pyexn path :=
  match utf8_encode text with
  | None => if bool_decide (text = []) || existsb (Z.eqb 92) text || existsb (Z.eqb 0) text
            then Err (ArchiveError "invalid_relative_path") else Err ValueError
  | Some encoded =>
      if bool_decide (text = []) || existsb (Z.eqb 92) text || existsb (Z.eqb 0) text ||
         (MAX_RELATIVE_PATH_BYTES <? len encoded)
      then Err (ArchiveError "invalid_relative_path")
      else
        let parts := split_slash text in
        if forallb _COMPONENT_RE parts then Ok parts else Err (ArchiveError "invalid_relative_path")
  end.

(** ** System calls *)

Section Archive.
Context (E : env).

(** A system call whose effect on the disk is [eff] and whose failure is [e]. *)
Definition syscall (eff : host -> host) (e : pyexn) : M host () := fun h =>
  match e_fault E (h_step h) with
  | Proceed => (Ret (), eff (tick h))
  | Fails _ => (Raise e, tick h)
  | Crashes O => (Crash, tick h)
  | Crashes (S _) => (Crash, eff (tick h))
  end.

(** [_write_all]: the loop over [os.write] appends the data; interrupted, it
    has appended a prefix. *)
Definition _write_all (p : path) (data : bytes) : M host () := fun h =>
  let put n := with_files (<[p := default [] (h_files h !! p) ++ take n data]> (h_files h)) (tick h) in
  match e_fault E (h_step h) with
  | Proceed => (Ret (), put (length data))
  | Fails n => (Raise OSError, put n)
  | Crashes n => (Crash, put n)
  end.

Definition sys_mkdir (p : path) : M host () :=
  syscall (fun h => with_dirs ({[p]} ∪ h_dirs h) h) (ArchiveError "directory_create_failed").
Definition sys_create (p : path) (e : pyexn) : M host () :=
  syscall (fun h => with_files (<[p := []]> (h_files h)) h) e.
Definition sys_unlink (p : path) : M host () :=
  syscall (fun h => with_files (delete p (h_files h)) h) OSError.
Definition sys_fsync : M host () := syscall id OSError.
Definition _fsync_directory : M host () := syscall id (ArchiveError "directory_fsync_failed").

(** What a name in the tree is. *)
Definition is_file (p : path) (h : host) : bool := bool_decide (is_Some (h_files h !! p)).
Definition is_dir (p : path) (h : host) : bool := bool_decide (p ∈ h_dirs h).
Definition present (p : path) (h : host) : bool := is_file p h || is_dir p h.

Definition _exclusive_rename_at (source destination : path) : M host () :=
  exists_ ← gets (present destination);
  check exists_ (ArchiveError "archive_destination_exists") ≫= fun _ =>
  syscall (fun h => with_files (<[destination := default [] (h_files h !! source)]> (delete source (h_files h))) h)
    (ArchiveError "atomic_rename_failed").

(** ** The archive object *)

Definition _require_open : M host () :=
  o ← gets h_open; check (negb o) (ArchiveError "archive_closed").

Definition close_archive : M host () := modify (with_open false).

Definition _open_directory_at (p : path) : M host () :=
  d ← gets (is_dir p);
  if d : bool then mret ()
  else f ← gets (is_file p);
       raise (ArchiveError (if f : bool then "directory_open_failed" else "directory_not_found")).

Definition _open_or_create_private_directory (p : path) : M host () :=
  try_except (_open_directory_at p) (fun e =>
    check (negb (bool_decide (e = ArchiveError "directory_not_found"))) e ≫= fun _ =>
    sys_mkdir p ≫= fun _ => _open_directory_at p ≫= fun _ => _fsync_directory).

(** The non-empty prefixes of a path, shortest first: the directories that
    opening it component by component passes through. *)
Definition prefixes (parts : path) : list path :=
  map (fun n => take n parts) (seq 1 (length parts)).

Definition _open_relative_directory (parts : path) (create : bool) : M host () :=
  _require_open ≫= fun _ =>
  for_each (prefixes parts) (fun p =>
    if create then _open_or_create_private_directory p else _open_directory_at p).

(** [prefix] is an initial segment of [parts]. *)
Definition under (prefix parts : path) : bool := bool_decide (take (length prefix) parts = prefix).

Definition _require_mutable (relative : str) : M host () :=
  parts ← of_result (_relative_parts relative);
  sealed ← gets h_sealed;
  check (existsb (fun prefix => under prefix parts) sealed) (ArchiveError "archive_namespace_sealed").

(** Tuples of components compare lexicographically. *)
Fixpoint path_leb (a b : path) : bool :=
  match a, b with
  | [], _ => true
  | _ :: _, [] => false
  | x :: a, y :: b => if str_eqb x y then path_leb a b else str_leb x y
  end.
Definition path_le (a b : path) : Prop := path_leb a b = true.
#[export] Instance path_le_dec a b : Decision (path_le a b).
Proof. unfold path_le. apply _. Defined.

Fixpoint any_overlap (l : list path) : bool :=
  match l with
  | [] => false
  | prefix :: l => existsb (fun candidate => under prefix candidate) l || any_overlap l
  end.

Definition seal_prefixes (names : list str) : M host () :=
  _require_open ≫= fun _ =>
  check (bool_decide (names = [])) (ArchiveError "invalid_sealed_prefixes") ≫= fun _ =>
  parts ← of_result (map_res _relative_parts names);
  let normalized := merge_sort path_le (remove_dups parts) in
  check (negb (length normalized =? length names)%nat || any_overlap normalized)
    (ArchiveError "invalid_sealed_prefixes") ≫= fun _ =>
  sealed ← gets h_sealed;
  check (negb (bool_decide (sealed = [])) && negb (bool_decide (sealed = normalized)))
    (ArchiveError "sealed_prefix_drift") ≫= fun _ =>
  modify (with_sealed normalized).

Definition ensure_directory (relative : str) : M host () :=
  _require_mutable relative ≫= fun _ =>
  parts ← of_result (_relative_parts relative);
  _open_relative_directory parts true.

Definition _parent_and_name (relative : str) (create_parents : bool) : M host (path * str) :=
  parts ← of_result (_relative_parts relative);
  _open_relative_directory (removelast parts) create_parents ≫= fun _ =>
  mret (removelast parts, List.last parts []).

Definition _new_pending_name (final_name : str) : M host str :=
  n ← gets h_step; mret ([46] ++ final_name ++ u ".pending-" ++ e_uuid E n).

Definition _open_new_private (p : path) : M host () :=
  exists_ ← gets (present p);
  check exists_ (ArchiveError "private_file_create_failed") ≫= fun _ =>
  sys_create p (ArchiveError "private_file_create_failed").

Definition _open_existing_private_at (p : path) : M host bytes :=
  f ← gets (fun h => h_files h !! p);
  of_option (ArchiveError "archive_file_open_failed") f.

Definition _read_opened (data : bytes) (maximum : Z) : M host bytes :=
  check ((len data <? 1) || (maximum <? len data)) (ArchiveError "archive_file_size") ≫= fun _ => mret data.

Definition _verify_published_at (p : path) (maximum : Z) (expected : ArchivedFile) : M host ArchivedFile :=
  data ← _open_existing_private_at p;
  data ← _read_opened data maximum;
  let observed := archived (af_relative_path expected) data in
  check (negb (bool_decide (observed = expected))) (ArchiveError "archive_publish_mismatch") ≫= fun _ =>
  mret observed.

(** [except BaseException: if not published: unlink(pending) ...; raise]. *)
Definition unpublished (p : path) : M host () :=
  f ← gets (is_file p);
  if f : bool then sys_unlink p ≫= fun _ => _fsync_directory else mret ().

Definition write_bytes (relative : str) (data : bytes) (maximum : Z) : M host ArchivedFile :=
  _require_mutable relative ≫= fun _ =>
  check (bool_decide (data = []) || (maximum <? len data)) (ArchiveError "invalid_archive_bytes") ≫= fun _ =>
  '(parent, final_name) ← _parent_and_name relative true;
  pending_name ← _new_pending_name final_name;
  let pending := parent ++ [pending_name] in
  let final := parent ++ [final_name] in
  on_exception
    (_open_new_private pending ≫= fun _ =>
     _write_all pending data ≫= fun _ =>
     sys_fsync ≫= fun _ =>
     _exclusive_rename_at pending final)
    (unpublished pending) ≫= fun _ =>
  _fsync_directory ≫= fun _ =>
  _verify_published_at final maximum (archived relative data).

Definition read_bytes (relative : str) (maximum : Z) : M host bytes :=
  '(parent, name) ← _parent_and_name relative false;
  data ← _open_existing_private_at (parent ++ [name]);
  _read_opened data maximum.

Definition describe_file (relative : str) (maximum : Z) : M host ArchivedFile :=
  data ← read_bytes relative maximum; mret (archived relative data).

(** The names in a directory: the last components of the files and directories
    one level below it. *)
Definition name_below (dir p : path) : option str :=
  match p with
  | [] => None
  | _ => if bool_decide (removelast p = dir) then Some (List.last p []) else None
  end.
Definition listdir (dir : path) (h : host) : list str :=
  omap (name_below dir) (map fst (map_to_list (h_files h))) ++ omap (name_below dir) (elements (h_dirs h)).

Definition unsafe_name (name : str) : bool :=
  bool_decide (name = []) || existsb (Z.eqb 47) name || existsb (Z.eqb 0) name.

Definition list_names (relative_directory : str) : M host (list str) :=
  parts ← of_result (_relative_parts relative_directory);
  _open_relative_directory parts false ≫= fun _ =>
  names ← gets (listdir parts);
  check (existsb unsafe_name names) (ArchiveError "unsafe_directory_entry") ≫= fun _ =>
  mret (sort_strs names).

Definition list_root_names : M host (list str) :=
  _require_open ≫= fun _ =>
  names ← gets (listdir []);
  check (existsb unsafe_name names) (ArchiveError "unsafe_directory_entry") ≫= fun _ =>
  mret (sort_strs names).

Definition pending_in (relative_directory : str) (name : str) : option PendingFile :=
  final ← _PENDING_RE name;
  Some {| pf_relative_path := relative_directory ++ 47 :: name;
          pf_final_relative_path := relative_directory ++ 47 :: final |}.

Definition pending_files (relative_directory : str) : M host (list PendingFile) :=
  names ← list_names relative_directory; mret (omap (pending_in relative_directory) names).

(** The pending file an object names: its path, and the final name it carries. *)
Definition pending_path (pending : PendingFile) : M host (path * str) :=
  let parts := split_slash (pf_relative_path pending) in
  final ← of_option (ArchiveError "invalid_pending_name") (_PENDING_RE (List.last parts []));
  mret (parts, final).

Definition read_pending (pending : PendingFile) (maximum : Z) : M host bytes :=
  '(parts, _) ← pending_path pending;
  _open_relative_directory (removelast parts) false ≫= fun _ =>
  data ← _open_existing_private_at parts;
  _read_opened data maximum.

(** An interrupted write may have left no bytes at all. *)
Definition read_pending_fragment (pending : PendingFile) (maximum : Z) : M host bytes :=
  '(parts, _) ← pending_path pending;
  _open_relative_directory (removelast parts) false ≫= fun _ =>
  data ← _open_existing_private_at parts;
  check (maximum <? len data) (ArchiveError "archive_file_size") ≫= fun _ => mret data.

Definition publish_pending (pending : PendingFile) : M host () :=
  _require_mutable (pf_final_relative_path pending) ≫= fun _ =>
  let parts := split_slash (pf_relative_path pending) in
  let final := split_slash (pf_final_relative_path pending) in
  check (negb (bool_decide (_PENDING_RE (List.last parts []) = Some (List.last final []) /\
                            removelast parts = removelast final)))
    (ArchiveError "invalid_pending_binding") ≫= fun _ =>
  _open_relative_directory (removelast parts) false ≫= fun _ =>
  _open_existing_private_at parts ≫= fun _ =>
  _exclusive_rename_at parts final ≫= fun _ => _fsync_directory.

Definition discard_pending (pending : PendingFile) : M host () :=
  _require_mutable (pf_final_relative_path pending) ≫= fun _ =>
  '(parts, _) ← pending_path pending;
  _open_relative_directory (removelast parts) false ≫= fun _ =>
  _open_existing_private_at parts ≫= fun _ =>
  sys_unlink parts ≫= fun _ => _fsync_directory.

Definition _verify_exact_descriptor (relative : str) (expected : ArchivedFile) (maximum : Z) : M host ArchivedFile :=
  observed ← describe_file relative maximum;
  check (negb (bool_decide (observed = expected))) (ArchiveError "archive_publish_mismatch") ≫= fun _ =>
  mret observed.

Definition write_or_reopen_exact (relative : str) (data : bytes) (maximum : Z) : M host ArchivedFile :=
  _require_mutable relative ≫= fun _ =>
  parts ← of_result (_relative_parts relative);
  check (length parts <? 2)%nat (ArchiveError "exact_archive_parent_required") ≫= fun _ =>
  check (bool_decide (data = []) || (maximum <? len data)) (ArchiveError "invalid_archive_bytes") ≫= fun _ =>
  let parent := removelast parts in
  let parent_relative := join_slash parent in
  let final_name := List.last parts [] in
  _open_relative_directory parent true ≫= fun _ =>
  names ← gets (listdir parent);
  check (existsb unsafe_name names) (ArchiveError "unsafe_directory_entry") ≫= fun _ =>
  check (existsb (fun name => negb (bool_decide (is_Some (_PENDING_RE name))) && starts_with [46] name) names)
    (ArchiveError "unexpected_pending_archive_file") ≫= fun _ =>
  let pending := omap (pending_in parent_relative) names in
  let target_pending := List.filter (fun item => str_eqb (pf_final_relative_path item) relative) pending in
  check (1 <? length pending)%nat (ArchiveError "ambiguous_pending_archive_file") ≫= fun _ =>
  let expected := archived relative data in
  if existsb (str_eqb final_name) names then
    observed ← read_bytes relative maximum;
    check (negb (bool_decide (observed = data))) (ArchiveError "archive_publish_mismatch") ≫= fun _ =>
    match target_pending with
    | candidate :: _ =>
        interrupted ← read_pending_fragment candidate maximum;
        check (negb (starts_with interrupted data)) (ArchiveError "pending_archive_mismatch") ≫= fun _ =>
        discard_pending candidate
    | [] => mret ()
    end ≫= fun _ =>
    _verify_exact_descriptor relative expected maximum
  else
    check (negb (bool_decide (pending = [])) && bool_decide (target_pending = []))
      (ArchiveError "ambiguous_pending_archive_file") ≫= fun _ =>
    let write :=
      record ← write_bytes relative data maximum;
      check (negb (bool_decide (record = expected))) (ArchiveError "archive_publish_mismatch") ≫= fun _ =>
      mret record in
    match target_pending with
    | candidate :: _ =>
        interrupted ← read_pending_fragment candidate maximum;
        if bool_decide (interrupted = data) then
          publish_pending candidate ≫= fun _ => _verify_exact_descriptor relative expected maximum
        else
          check (negb (starts_with interrupted data)) (ArchiveError "pending_archive_mismatch") ≫= fun _ =>
          discard_pending candidate ≫= fun _ => write
    | [] => write
    end.

(** [copy_file] of a source file whose bytes are [source]; [None] is a source
    that cannot be opened safely.  The copy loop reads at most [maximum] bytes
    and one more. *)
Definition copy_file (source : option bytes) (relative : str) (maximum : Z) : M host ArchivedFile :=
  _require_mutable relative ≫= fun _ =>
  check (maximum <=? 0) (ArchiveError "invalid_copy_bound") ≫= fun _ =>
  data ← of_option (ArchiveError "source_open_failed") source;
  check ((len data <? 1) || (maximum <? len data)) (ArchiveError "source_size") ≫= fun _ =>
  '(parent, final_name) ← _parent_and_name relative true;
  pending_name ← _new_pending_name final_name;
  let pending := parent ++ [pending_name] in
  let final := parent ++ [final_name] in
  on_exception
    (_open_new_private pending ≫= fun _ =>
     _write_all pending data ≫= fun _ =>
     sys_fsync ≫= fun _ =>
     _exclusive_rename_at pending final)
    (unpublished pending) ≫= fun _ =>
  _fsync_directory ≫= fun _ =>
  _verify_published_at final maximum (archived relative data).

(** A lock file is an empty private file of the root. *)
Definition create_lock_file (relative : str) : M host () :=
  _require_mutable relative ≫= fun _ =>
  '(parent, name) ← _parent_and_name relative true;
  let p := parent ++ [name] in
  _open_new_private p ≫= fun _ =>
  on_exception (sys_fsync ≫= fun _ => _fsync_directory) (unpublished p).

Definition open_lock_file (relative : str) : M host () :=
  _require_mutable relative ≫= fun _ =>
  '(parent, name) ← _parent_and_name relative false;
  f ← gets (is_file (parent ++ [name]));
  check (negb f) FileNotFoundError.

(** [SecureArchive.create] and [SecureArchive.open], the archive's parents below
    [target/] being there: a new object with no sealed prefix. *)
Definition archive_create (root : str) : M host () :=
  _ ← of_result (_relative_parts root);
  r ← gets h_root;
  check r (ArchiveError "archive_exists") ≫= fun _ =>
  syscall (with_root true) (ArchiveError "archive_create_failed") ≫= fun _ =>
  _fsync_directory ≫= fun _ =>
  modify (fun h => with_open true (with_sealed [] h)).

Definition archive_open (root : str) : M host () :=
  _ ← of_result (_relative_parts root);
  r ← gets h_root;
  check (negb r) (ArchiveError "directory_not_found") ≫= fun _ =>
  modify (fun h => with_open true (with_sealed [] h)).

End Archive.
