(* ===== verification/ArchiveProofs.v ===== *)
(** * What the archive promises *)

From S2P Require Import Prelude Sha256 Text DateTime Effects Archive.

(** [dirs_only h h']: nothing but new directories and the count of system
    calls. *)
Record dirs_only (h h' : host) : Prop := {
  do_root : h_root h' = h_root h;
  do_dirs : h_dirs h ⊆ h_dirs h';
  do_files : h_files h' = h_files h;
  do_sealed : h_sealed h' = h_sealed h;
  do_open : h_open h' = h_open h;
  do_step : (h_step h <= h_step h')%nat
}.

#[export] Instance dirs_only_refl : Reflexive dirs_only.
Proof. intros h. by constructor. Qed.
#[export] Instance dirs_only_trans : Transitive dirs_only.
Proof. intros a b c [] []. constructor; try congruence; [set_solver|lia]. Qed.

(** [disk_only h h']: the files may change, too. *)
Record disk_only (h h' : host) : Prop := {
  ko_root : h_root h' = h_root h;
  ko_dirs : h_dirs h ⊆ h_dirs h';
  ko_sealed : h_sealed h' = h_sealed h;
  ko_open : h_open h' = h_open h;
  ko_step : (h_step h <= h_step h')%nat
}.

#[export] Instance disk_only_refl : Reflexive disk_only.
Proof. intros h. by constructor. Qed.
#[export] Instance disk_only_trans : Transitive disk_only.
Proof. intros a b c [] []. constructor; try congruence; [set_solver|lia]. Qed.

Lemma dirs_disk h h' : dirs_only h h' -> disk_only h h'.
Proof. intros []. by constructor. Qed.
Lemma eq_dirs h h' : h = h' -> dirs_only h h'.
Proof. by intros ->. Qed.

Section Proofs.
Context (E : env).

Lemma syscall_within (R : host -> host -> Prop) eff e :
  (forall h, R h (tick h)) -> (forall h, R h (eff (tick h))) -> within R (syscall E eff e).
Proof. intros H1 H2 h. unfold syscall. destruct (e_fault E (h_step h)) as [|n|[|n]]; cbn [snd]; auto. Qed.

Lemma fsync_directory_within : within dirs_only (_fsync_directory E).
Proof. apply syscall_within; intros h; constructor; cbn; try done; lia. Qed.
Lemma fsync_within : within dirs_only (sys_fsync E).
Proof. apply syscall_within; intros h; constructor; cbn; try done; lia. Qed.
Lemma mkdir_within p : within dirs_only (sys_mkdir E p).
Proof. apply syscall_within; intros h; constructor; cbn; try done; try lia. set_solver. Qed.

Lemma require_open_reads : reads _require_open.
Proof. unfold _require_open. within_auto. Qed.
Lemma open_directory_reads p : reads (_open_directory_at p).
Proof. unfold _open_directory_at. within_auto. Qed.
Lemma require_mutable_reads relative : reads (_require_mutable relative).
Proof. unfold _require_mutable. within_auto. Qed.

Lemma open_or_create_within p : within dirs_only (_open_or_create_private_directory E p).
Proof.
  unfold _open_or_create_private_directory. within_auto.
  - eapply within_impl; [apply eq_dirs|apply open_directory_reads].
  - apply mkdir_within.
  - eapply within_impl; [apply eq_dirs|apply open_directory_reads].
  - apply fsync_directory_within.
Qed.

Lemma open_relative_within parts create : within dirs_only (_open_relative_directory E parts create).
Proof.
  unfold _open_relative_directory. within_auto.
  - eapply within_impl; [apply eq_dirs|apply require_open_reads].
  - apply open_or_create_within.
  - eapply within_impl; [apply eq_dirs|apply open_directory_reads].
Qed.

Lemma open_relative_reads parts : reads (_open_relative_directory E parts false).
Proof.
  unfold _open_relative_directory. within_auto; [apply require_open_reads | apply open_directory_reads].
Qed.

Lemma parent_and_name_within relative create : within dirs_only (_parent_and_name E relative create).
Proof. unfold _parent_and_name. within_auto. apply open_relative_within. Qed.

Lemma parent_and_name_reads relative : reads (_parent_and_name E relative false).
Proof. unfold _parent_and_name. within_auto. apply open_relative_reads. Qed.

Lemma new_pending_name_reads name : reads (_new_pending_name E name).
Proof. unfold _new_pending_name. within_auto. Qed.
Lemma open_existing_reads p : reads (_open_existing_private_at p).
Proof. unfold _open_existing_private_at. within_auto. Qed.
Lemma read_opened_reads data maximum : reads (_read_opened data maximum).
Proof. unfold _read_opened. within_auto. Qed.
Lemma verify_published_reads p maximum expected : reads (_verify_published_at p maximum expected).
Proof. unfold _verify_published_at. within_auto; [apply open_existing_reads | apply read_opened_reads]. Qed.
Lemma read_bytes_reads relative maximum : reads (read_bytes E relative maximum).
Proof.
  unfold read_bytes. within_auto;
    [apply parent_and_name_reads | apply open_existing_reads | apply read_opened_reads].
Qed.
Lemma describe_file_reads relative maximum : reads (describe_file E relative maximum).
Proof. unfold describe_file. within_auto. apply read_bytes_reads. Qed.
Lemma list_names_reads d : reads (list_names E d).
Proof. unfold list_names. within_auto. apply open_relative_reads. Qed.
Lemma list_root_names_reads : reads list_root_names.
Proof. unfold list_root_names. within_auto. apply require_open_reads. Qed.
Lemma pending_files_reads d : reads (pending_files E d).
Proof. unfold pending_files. within_auto. apply list_names_reads. Qed.
Lemma pending_path_reads p : reads (pending_path p).
Proof. unfold pending_path. within_auto. Qed.
Lemma read_pending_reads p maximum : reads (read_pending E p maximum).
Proof.
  unfold read_pending. within_auto;
    [apply pending_path_reads | apply open_relative_reads | apply open_existing_reads | apply read_opened_reads].
Qed.
Lemma read_pending_fragment_reads p maximum : reads (read_pending_fragment E p maximum).
Proof.
  unfold read_pending_fragment. within_auto;
    [apply pending_path_reads | apply open_relative_reads | apply open_existing_reads].
Qed.

#[local] Hint Resolve require_open_reads open_directory_reads require_mutable_reads open_relative_reads
  parent_and_name_reads new_pending_name_reads open_existing_reads read_opened_reads verify_published_reads
  read_bytes_reads describe_file_reads list_names_reads list_root_names_reads pending_files_reads
  pending_path_reads read_pending_reads read_pending_fragment_reads : pyres.

(** ** Publication is atomic *)

(** What an interrupted or finished publication of [data] as [final] through
    [pend] does to the files. *)
Inductive publication (pend final : path) (data : bytes) (f f' : gmap path bytes) : Prop :=
  | pub_none : f' = f -> publication pend final data f f'
  | pub_removed : f' = delete pend f -> publication pend final data f f'
  | pub_partial n : f !! pend = None -> f' = <[pend := take n data]> f -> publication pend final data f f'
  | pub_done : f !! final = None -> f' = <[final := data]> f -> publication pend final data f f'.

Definition publish (pend final : path) (data : bytes) : M host () :=
  on_exception
    (_open_new_private E pend ≫= fun _ =>
     _write_all E pend data ≫= fun _ =>
     sys_fsync E ≫= fun _ =>
     _exclusive_rename_at E pend final)
    (unpublished E pend).

Lemma syscall_cases eff e h o h' :
  syscall E eff e h = (o, h') ->
  (o = Ret () /\ h' = eff (tick h)) \/ (o = Raise e /\ h' = tick h) \/ (o = Crash /\ (h' = tick h \/ h' = eff (tick h))).
Proof. unfold syscall. destruct (e_fault E (h_step h)) as [|n|[|n]]; intros [= <- <-]; auto. Qed.

Lemma unpublished_files pend h o h' :
  unpublished E pend h = (o, h') ->
  h_files h' = h_files h \/ h_files h' = delete pend (h_files h).
Proof.
  unfold unpublished, mbind, M_bind, gets. destruct (is_file pend h); [|intros [= <- <-]; by left].
  unfold sys_unlink. destruct (syscall E _ OSError h) as [o1 h1] eqn:S. apply syscall_cases in S.
  destruct S as [[-> ->] | [[-> ->] | [-> [-> | ->]]]]; try (intros [= <- <-]; cbn; auto).
  intros F. right. pose proof (fsync_directory_within (with_files (delete pend (h_files h)) (tick h))) as [_ _ Hf _ _ _].
  change (_fsync_directory E (with_files (delete pend (h_files h)) (tick h)) = (o, h')) in F.
  by rewrite F in Hf.
Qed.

Lemma unpublished_disk pend : within disk_only (unpublished E pend).
Proof.
  unfold unpublished. within_auto.
  - apply syscall_within; intros h; constructor; cbn; try done; lia.
  - eapply within_impl; [apply dirs_disk|apply fsync_directory_within].
Qed.

Lemma write_all_cases p data h o h' :
  _write_all E p data h = (o, h') ->
  exists n, h' = with_files (<[p := default [] (h_files h !! p) ++ take n data]> (h_files h)) (tick h) /\
  (o = Ret () -> n = length data).
Proof.
  unfold _write_all. destruct (e_fault E (h_step h)) as [|n|n]; intros [= <- <-]; eexists; split; done.
Qed.

Lemma present_none p h : present p h = false -> h_files h !! p = None.
Proof.
  unfold present, is_file. rewrite orb_false_iff, !bool_decide_eq_false. intros [H _]. by apply eq_None_not_Some.
Qed.

Lemma open_new_cases p h o h' :
  _open_new_private E p h = (o, h') ->
  (o = Ret () /\ h_files h !! p = None /\ h' = with_files (<[p := []]> (h_files h)) (tick h)) \/
  (exists e, o = Raise e /\ (h' = h \/ h' = tick h)) \/
  (o = Crash /\ (h' = tick h \/ h_files h !! p = None /\ h' = with_files (<[p := []]> (h_files h)) (tick h))).
Proof.
  unfold _open_new_private, mbind, M_bind, gets, check. destruct (present p h) eqn:Pr.
  - intros [= <- <-]. right; left. eauto.
  - apply present_none in Pr. intros H. apply syscall_cases in H as [[-> ->] | [[-> ->] | [-> [-> | ->]]]]; eauto 10.
Qed.

Lemma exclusive_rename_cases src dst h o h' :
  _exclusive_rename_at E src dst h = (o, h') ->
  let moved := with_files (<[dst := default [] (h_files h !! src)]> (delete src (h_files h))) (tick h) in
  (o = Ret () /\ present dst h = false /\ h' = moved) \/
  (exists e, o = Raise e /\ (h' = h \/ h' = tick h)) \/
  (o = Crash /\ (h' = tick h \/ present dst h = false /\ h' = moved)).
Proof.
  unfold _exclusive_rename_at, mbind, M_bind, gets, check. destruct (present dst h) eqn:Pr.
  - intros [= <- <-]. right; left. eauto.
  - intros H. apply syscall_cases in H as [[-> ->] | [[-> ->] | [-> [-> | ->]]]]; eauto 10.
Qed.

(** The body of the [try]: what each outcome leaves. *)
Lemma publish_body_cases pend final data h o h' :
  pend <> final ->
  (_open_new_private E pend ≫= fun _ => _write_all E pend data ≫= fun _ =>
   sys_fsync E ≫= fun _ => _exclusive_rename_at E pend final) h = (o, h') ->
  (h_files h' = h_files h /\ o <> Ret ()) \/
  (h_files h !! pend = None /\ o <> Ret () /\ exists n, h_files h' = <[pend := take n data]> (h_files h)) \/
  (h_files h !! pend = None /\ (o = Ret () \/ o = Crash) /\
   h_files h !! final = None /\ h_files h' = <[final := data]> (h_files h)).
Proof.
  intros Hpf H.
  apply bind_cases in H as [([] & h1 & H1 & H) | [(e & H1 & ->) | [H1 ->]]];
    apply open_new_cases in H1 as [(Ho & Hn & ->) | [(e' & Ho & [-> | ->]) | (Ho & [-> | [Hn ->]])]];
    try discriminate Ho; cbn; try (left; split; [done|discriminate]);
    try (right; left; split; [done|]; split; [discriminate|]; exists O; by rewrite take_0).
  apply bind_cases in H as [([] & h2 & H2 & H) | [(e & H2 & ->) | [H2 ->]]];
    apply write_all_cases in H2 as (n & -> & Hfull); cbn in *; rewrite lookup_insert_eq in *; cbn in *;
    try (right; left; split; [done|]; split; [discriminate|]; exists n; by rewrite insert_insert_eq).
  specialize (Hfull eq_refl). subst n.
  apply bind_cases in H as [([] & h3 & H3 & H) | [(e & H3 & ->) | [H3 ->]]];
    pose proof (fsync_within (with_files (<[pend := take (length data) data]> (<[pend := []]> (h_files h))) (tick (tick h)))) as W;
    unfold tick, with_files in W, H3; cbn in W, H3; rewrite H3 in W; cbn [snd] in W; destruct W as [_ _ Hf _ _ _]; cbn in Hf;
    try (right; left; split; [done|]; split; [discriminate|]; exists (length data); by rewrite Hf, insert_insert_eq).
  rewrite firstn_all, insert_insert_eq in Hf.
  apply exclusive_rename_cases in H. rewrite Hf, lookup_insert_eq in H. cbn in H.
  assert (Pf : forall h0, h_files h0 = <[pend := data]> (h_files h) -> present final h0 = false -> h_files h !! final = None).
  { intros h0 E0 P0. apply present_none in P0. rewrite E0, lookup_insert_ne in P0; done. }
  rewrite delete_insert_id in H by done.
  destruct H as [(-> & Pr & ->) | [(e & -> & [-> | ->]) | (-> & [-> | [Pr ->]])]]; cbn.
  - right; right. split; [done|]. split; [by left|]. split; [by eapply Pf|done].
  - right; left. split; [done|]. split; [discriminate|]. exists (length data). by rewrite firstn_all.
  - right; left. split; [done|]. split; [discriminate|]. exists (length data). by rewrite firstn_all.
  - right; left. split; [done|]. split; [discriminate|]. exists (length data). by rewrite firstn_all.
  - right; right. split; [done|]. split; [by right|]. split; [by eapply Pf|done].
Qed.

Lemma publish_cases pend final data h o h' :
  pend <> final -> publish pend final data h = (o, h') ->
  publication pend final data (h_files h) (h_files h') /\
  (o = Ret () -> h_files h !! final = None /\ h_files h' = <[final := data]> (h_files h)).
Proof.
  intros Hpf H. unfold publish, on_exception in H.
  apply try_cases in H as [(e & h1 & H1 & H) | [H1 Hne]].
  - apply publish_body_cases in H1; [|done].
    assert (Hr : o <> Ret ()).
    { intros ->. unfold mbind, M_bind in H. by destruct (unpublished E pend h1) as [[]]. }
    assert (Hu : h_files h' = h_files h1 \/ h_files h' = delete pend (h_files h1)).
    { apply bind_cases in H as [([] & h2 & H2 & H) | [(e' & H2 & ->) | [H2 ->]]]; [|by eapply unpublished_files..].
      injection H as _ <-. by eapply unpublished_files. }
    split; [|done]. destruct H1 as [[E1 _] | [(Hn & _ & n & E1) | (_ & [?|?] & _)]]; try done;
      rewrite E1 in Hu; destruct Hu as [-> | ->].
    + by apply pub_none.
    + by apply pub_removed.
    + by eapply pub_partial.
    + apply pub_removed. rewrite delete_insert_id by done. by rewrite delete_id.
  - apply publish_body_cases in H1; [|done].
    destruct H1 as [[E1 Hr] | [(Hn & Hr & n & E1) | (Hn & Hr & Hfin & E1)]].
    + split; [by apply pub_none|done].
    + split; [by eapply pub_partial|done].
    + split; [by apply pub_done|done].
Qed.

Lemma relative_parts_ok relative parts :
  _relative_parts relative = Ok parts ->
  parts = split_slash relative /\ parts <> [] /\ forallb _COMPONENT_RE parts = true.
Proof.
  unfold _relative_parts. destruct (utf8_encode relative); [|by destruct (_ || _ || _)].
  destruct (_ || _ || _ || _); [done|]. destruct (forallb _ _) eqn:F; [|done]. intros [= <-].
  split; [done|]. split; [apply split_slash_from_ne|done].
Qed.

Lemma parts_app_last (parts : path) : parts <> [] -> removelast parts ++ [List.last parts []] = parts.
Proof. intros H. symmetry. by apply app_removelast_last. Qed.

(** The name of a pending file for [final_name]. *)
Definition pend_name (final_name uuid : str) : str := [46] ++ final_name ++ u ".pending-" ++ uuid.
Definition pend_path (parts : path) (uuid : str) : path := removelast parts ++ [pend_name (List.last parts []) uuid].

Lemma pend_path_ne parts uuid : forallb _COMPONENT_RE parts = true -> parts <> [] -> pend_path parts uuid <> parts.
Proof.
  intros Hc Hne H. unfold pend_path in H. rewrite <-(parts_app_last parts Hne) in H at 3.
  apply app_inj_tail in H as [_ H]. rewrite <-(parts_app_last parts Hne), forallb_app in Hc.
  apply andb_prop in Hc as [_ Hc]. cbn [forallb] in Hc. rewrite andb_true_r, <-H in Hc.
  unfold pend_name, _COMPONENT_RE in Hc. cbn [app] in Hc. done.
Qed.

(** Whether the object refuses changes below [parts]. *)
Definition is_sealed (parts : path) (h : host) : bool := existsb (fun prefix => under prefix parts) (h_sealed h).

Lemma require_mutable_ret relative h h' :
  _require_mutable relative h = (Ret (), h') ->
  h' = h /\ exists parts, _relative_parts relative = Ok parts /\ is_sealed parts h = false.
Proof.
  unfold _require_mutable, mbind, M_bind, of_result, gets.
  destruct (_relative_parts relative) as [parts|e]; [|done]. cbn. intros H. apply check_ret in H as [H ->]. eauto.
Qed.

Lemma rel_app {A B} (m : M host A) (f : A -> M host B) (R : host -> host -> Prop) h o h' :
  Transitive R -> within R m -> (forall a, within R (f a)) -> (m ≫= f) h = (o, h') -> R h h'.
Proof. intros T Hm Hf H. pose proof (within_bind R m f Hm Hf h) as W. by rewrite H in W. Qed.

Lemma within_run {A} (R : host -> host -> Prop) (m : M host A) h o h' : within R m -> m h = (o, h') -> R h h'.
Proof. intros W H. specialize (W h). by rewrite H in W. Qed.

Lemma publish_disk pend final data : within disk_only (publish pend final data).
Proof.
  unfold publish. within_auto.
  - unfold _open_new_private. within_auto. apply syscall_within; intros h; constructor; cbn; try done; lia.
  - intros h. unfold _write_all. destruct (e_fault E (h_step h)); constructor; cbn; try done; lia.
  - eapply within_impl; [apply dirs_disk|apply fsync_within].
  - unfold _exclusive_rename_at. within_auto. apply syscall_within; intros h; constructor; cbn; try done; lia.
  - apply unpublished_disk.
Qed.

(** The part that [write_bytes] and [copy_file] share. *)
Definition write_tail (relative : str) (data : bytes) (maximum : Z) : M host ArchivedFile :=
  _parent_and_name E relative true ≫= fun '(parent, final_name) =>
  _new_pending_name E final_name ≫= fun pending_name =>
  publish (parent ++ [pending_name]) (parent ++ [final_name]) data ≫= fun _ =>
  _fsync_directory E ≫= fun _ =>
  _verify_published_at (parent ++ [final_name]) maximum (archived relative data).

Lemma write_bytes_unfold relative data maximum :
  write_bytes E relative data maximum =
  (_require_mutable relative ≫= fun _ =>
   check (bool_decide (data = []) || (maximum <? len data)) (ArchiveError "invalid_archive_bytes") ≫= fun _ =>
   write_tail relative data maximum).
Proof. reflexivity. Qed.

Lemma copy_file_unfold source relative maximum :
  copy_file E source relative maximum =
  (_require_mutable relative ≫= fun _ =>
   check (maximum <=? 0) (ArchiveError "invalid_copy_bound") ≫= fun _ =>
   data ← of_option (ArchiveError "source_open_failed") source;
   check ((len data <? 1) || (maximum <? len data)) (ArchiveError "source_size") ≫= fun _ =>
   write_tail relative data maximum).
Proof. reflexivity. Qed.

Lemma parent_and_name_ret relative create h r h' :
  _parent_and_name E relative create h = (Ret r, h') ->
  dirs_only h h' /\ exists parts, _relative_parts relative = Ok parts /\ r = (removelast parts, List.last parts []).
Proof.
  intros H. split; [by eapply within_run; [apply parent_and_name_within|]|].
  unfold _parent_and_name in H. apply bind_ret_inv in H as (parts & h1 & H1 & H).
  unfold of_result in H1. destruct (_relative_parts relative) as [parts'|]; [|done]. injection H1 as <- <-.
  apply bind_ret_inv in H as ([] & h2 & _ & H). injection H as <- <-. eauto.
Qed.

(** What a read returns is the file. *)
Lemma read_bytes_ret relative maximum h d h' :
  read_bytes E relative maximum h = (Ret d, h') ->
  h' = h /\ exists parts, _relative_parts relative = Ok parts /\ h_files h !! parts = Some d.
Proof.
  intros H. pose proof (reads_state _ _ _ _ (read_bytes_reads relative maximum) H) as ->. split; [done|].
  unfold read_bytes in H. apply bind_ret_inv in H as (r & h1 & H1 & H).
  pose proof (reads_state _ _ _ _ (parent_and_name_reads relative) H1) as ->.
  apply parent_and_name_ret in H1 as (_ & parts & Hp & ->). destruct (relative_parts_ok _ _ Hp) as (_ & Hne & _).
  rewrite (parts_app_last parts Hne) in H. exists parts. split; [done|].
  apply bind_ret_inv in H as (d1 & h1 & H1 & H).
  pose proof (reads_state _ _ _ _ (open_existing_reads parts) H1) as ->.
  unfold _open_existing_private_at, mbind, M_bind, gets, of_option in H1. destruct (h_files h !! parts) as [x|]; [|done].
  injection H1 as ->. unfold _read_opened in H. apply bind_ret_inv in H as ([] & h2 & _ & H). by injection H as ->.
Qed.

Lemma write_tail_disk relative data maximum : within disk_only (write_tail relative data maximum).
Proof.
  unfold write_tail. within_auto.
  - eapply within_impl; [apply dirs_disk|apply parent_and_name_within].
  - apply publish_disk.
  - eapply within_impl; [apply dirs_disk|apply fsync_directory_within].
  - eapply within_impl; [|apply verify_published_reads]. by intros ?? ->.
Qed.

Lemma write_bytes_disk relative data maximum : within disk_only (write_bytes E relative data maximum).
Proof.
  rewrite write_bytes_unfold. within_auto.
  - eapply within_impl; [|apply require_mutable_reads]. by intros ?? ->.
  - apply write_tail_disk.
Qed.

(** What the shared part leaves, whatever interrupts it: nothing new, or an
    interrupted publication of the data; when it returns, the data is the file
    of that path, which did not exist before. *)
Lemma write_tail_cases relative parts data maximum h o h' :
  _relative_parts relative = Ok parts -> write_tail relative data maximum h = (o, h') ->
  (h_files h' = h_files h /\ forall r, o <> Ret r) \/
  exists n, publication (pend_path parts (e_uuid E n)) parts data (h_files h) (h_files h') /\
    (forall r, o = Ret r -> r = archived relative data /\ h_files h !! parts = None /\ h_files h' = <[parts := data]> (h_files h)).
Proof.
  intros Hp H. unfold write_tail in H.
  apply bind_cases in H as [(r & h3 & H3 & H) | [(e & H3 & ->) | [H3 ->]]];
    [|left; pose proof (within_run _ _ _ _ _ (parent_and_name_within relative true) H3) as []; done..].
  apply parent_and_name_ret in H3 as (D3 & parts' & Hp' & ->). rewrite Hp in Hp'. injection Hp' as <-.
  destruct (relative_parts_ok _ _ Hp) as (_ & Hpne & Hpc).
  right. apply bind_cases in H as [(nm & h4 & H4 & H) | [(e & H4 & ->) | [H4 ->]]]; [|done|done].
  unfold _new_pending_name in H4. injection H4 as <- <-.
  exists (h_step h3). rewrite (parts_app_last parts Hpne) in H.
  change ([46] ++ List.last parts [] ++ u ".pending-" ++ e_uuid E (h_step h3)) with (pend_name (List.last parts []) (e_uuid E (h_step h3))) in H.
  fold (pend_path parts (e_uuid E (h_step h3))) in H. rewrite <-(do_files _ _ D3).
  assert (Hpp : pend_path parts (e_uuid E (h_step h3)) <> parts) by (by apply pend_path_ne).
  apply bind_cases in H as [([] & h5 & H5 & H) | [(e & H5 & ->) | [H5 ->]]];
    apply publish_cases in H5 as [P5 R5]; try done.
  destruct (R5 eq_refl) as [Hno Hf5]. clear R5.
  assert (F : h_files h' = h_files h5 /\ forall r, o = Ret r -> r = archived relative data).
  { apply bind_cases in H as [([] & h6 & H6 & H) | [(e & H6 & ->) | [H6 ->]]];
      pose proof (do_files _ _ (within_run _ _ _ _ _ fsync_directory_within H6)) as F6; [|done|done].
    rewrite <-F6. pose proof (reads_state _ _ _ _ (verify_published_reads parts maximum (archived relative data)) H) as ->.
    split; [done|]. intros r ->. unfold _verify_published_at in H.
    apply bind_ret_inv in H as (d & h7 & H7 & H). apply bind_ret_inv in H as (d' & h8 & H8 & H).
    apply bind_ret_inv in H as ([] & h9 & H9 & H). injection H as <- <-. apply check_ret in H9 as [H9 _].
    apply negb_false_iff, bool_decide_eq_true in H9. done. }
  destruct F as [F1 F2]. rewrite F1. split; [done|]. intros r Hr. split; [by apply F2|]. done.
Qed.

Lemma write_bytes_cases relative data maximum h o h' :
  write_bytes E relative data maximum h = (o, h') ->
  (h_files h' = h_files h /\ forall r, o <> Ret r) \/
  exists parts n, _relative_parts relative = Ok parts /\ is_sealed parts h = false /\ data <> [] /\ len data <= maximum /\
    publication (pend_path parts (e_uuid E n)) parts data (h_files h) (h_files h') /\
    (forall r, o = Ret r -> r = archived relative data /\ h_files h !! parts = None /\ h_files h' = <[parts := data]> (h_files h)).
Proof.
  rewrite write_bytes_unfold. intros H.
  apply bind_cases in H as [([] & h1 & H1 & H) | [(e & H1 & ->) | [H1 ->]]];
    [|left; by rewrite (reads_state _ _ _ _ (require_mutable_reads relative) H1)..].
  apply require_mutable_ret in H1 as (-> & parts & Hp & Hs).
  apply bind_cases in H as [([] & h2 & H2 & H) | [(e & H2 & ->) | [H2 ->]]];
    [|left; by rewrite (reads_state _ _ _ _ (within_check eq _ _) H2)..].
  apply check_ret in H2 as (Hd & ->). apply orb_false_elim in Hd as [Hne Hmax].
  apply bool_decide_eq_false in Hne. apply Z.ltb_ge in Hmax.
  destruct (write_tail_cases _ _ _ _ _ _ _ Hp H) as [? | (n & P & R)]; [by left|]. right. by exists parts, n.
Qed.

Lemma copy_file_cases source relative maximum h o h' :
  copy_file E source relative maximum h = (o, h') ->
  (h_files h' = h_files h /\ forall r, o <> Ret r) \/
  exists data parts n, source = Some data /\ _relative_parts relative = Ok parts /\ is_sealed parts h = false /\
    publication (pend_path parts (e_uuid E n)) parts data (h_files h) (h_files h') /\
    (forall r, o = Ret r -> r = archived relative data /\ h_files h !! parts = None /\ h_files h' = <[parts := data]> (h_files h)).
Proof.
  rewrite copy_file_unfold. intros H.
  apply bind_cases in H as [([] & h1 & H1 & H) | [(e & H1 & ->) | [H1 ->]]];
    [|left; by rewrite (reads_state _ _ _ _ (require_mutable_reads relative) H1)..].
  apply require_mutable_ret in H1 as (-> & parts & Hp & Hs).
  apply bind_cases in H as [([] & h2 & H2 & H) | [(e & H2 & ->) | [H2 ->]]];
    rewrite (reads_state _ _ _ _ (within_check eq _ _) H2) in *; [|by left..].
  apply bind_cases in H as [(data & h3 & H3 & H) | [(e & H3 & ->) | [H3 ->]]];
    rewrite (reads_state _ _ _ _ (within_of_option eq _ _) H3) in *; [|by left..].
  destruct source as [d|]; [|done]. injection H3 as <-.
  apply bind_cases in H as [([] & h4 & H4 & H) | [(e & H4 & ->) | [H4 ->]]];
    rewrite (reads_state _ _ _ _ (within_check eq _ _) H4) in *; [|by left..].
  destruct (write_tail_cases _ _ _ _ _ _ _ Hp H) as [? | (n & P & R)]; [by left|]. right. by exists d, parts, n.
Qed.

(** ** Operations stay in their directory *)

(** The files directly in directory [d] are as before. *)
Definition kept (d : path) (h h' : host) : Prop :=
  forall p, removelast p = d -> h_files h' !! p = h_files h !! p.

#[local] Instance kept_refl d : Reflexive (kept d).
Proof. by intros h p. Qed.
#[local] Instance kept_trans d : Transitive (kept d).
Proof. intros a b c H1 H2 p Hp. by rewrite H2, H1. Qed.

Lemma dirs_kept d h h' : dirs_only h h' -> kept d h h'.
Proof. intros [_ _ H _ _ _] p _. by rewrite H. Qed.
Lemma eq_kept d h h' : h = h' -> kept d h h'.
Proof. by intros ->. Qed.

Lemma reads_kept {A} d (m : M host A) : reads m -> within (kept d) m.
Proof. apply within_impl, eq_kept. Qed.
Lemma dirs_only_kept {A} d (m : M host A) : within dirs_only m -> within (kept d) m.
Proof. apply within_impl, dirs_kept. Qed.

Lemma publication_kept d pend final data f f' p :
  publication pend final data f f' -> removelast pend <> d -> removelast final <> d -> removelast p = d -> f' !! p = f !! p.
Proof.
  intros Hp Hpe Hfi Hpd. assert (p <> pend) by (by intros ->). assert (p <> final) by (by intros ->).
  destruct Hp as [-> | -> | n _ -> | _ ->]; [done| | |].
  - by rewrite lookup_delete_ne.
  - by rewrite lookup_insert_ne.
  - by rewrite lookup_insert_ne.
Qed.

Lemma removelast_snoc {A} (l : list A) x : removelast (l ++ [x]) = l.
Proof. apply removelast_last. Qed.

Lemma write_bytes_kept d relative data maximum :
  (forall parts, _relative_parts relative = Ok parts -> removelast parts <> d) ->
  within (kept d) (write_bytes E relative data maximum).
Proof.
  intros Hd h p Hpd. destruct (write_bytes E relative data maximum h) as [o h'] eqn:W. cbn [snd].
  apply write_bytes_cases in W as [[-> _] | (parts & n & Hp & _ & _ & _ & P & _)]; [done|].
  eapply publication_kept; [exact P| | |exact Hpd].
  - unfold pend_path. rewrite removelast_snoc. by apply Hd.
  - by apply Hd.
Qed.

Lemma pending_path_ret pending h r h' :
  pending_path pending h = (Ret r, h') ->
  h' = h /\ exists final, r = (split_slash (pf_relative_path pending), final) /\
    _PENDING_RE (List.last (split_slash (pf_relative_path pending)) []) = Some final.
Proof.
  unfold pending_path, mbind, M_bind, of_option. destruct (_PENDING_RE _) eqn:R; [|done]. intros [= <- <-]. eauto.
Qed.

(** What discarding a pending file does. *)
Lemma discard_pending_cases pending h o h' :
  discard_pending E pending h = (o, h') ->
  (h_files h' = h_files h /\ o <> Ret ()) \/
  (h_files h' = delete (split_slash (pf_relative_path pending)) (h_files h) /\
   is_Some (_PENDING_RE (List.last (split_slash (pf_relative_path pending)) []))).
Proof.
  unfold discard_pending. intros H.
  apply bind_cases in H as [([] & h1 & H1 & H) | [(e & H1 & ->) | [H1 ->]]];
    rewrite (reads_state _ _ _ _ (require_mutable_reads _) H1) in *; [|by left..].
  apply bind_cases in H as [(r & h2 & H2 & H) | [(e & H2 & ->) | [H2 ->]]];
    [|rewrite (reads_state _ _ _ _ (pending_path_reads pending) H2) in *; by left..].
  apply pending_path_ret in H2 as (-> & final & -> & HR).
  apply bind_cases in H as [([] & h3 & H3 & H) | [(e & H3 & ->) | [H3 ->]]];
    rewrite (reads_state _ _ _ _ (open_relative_reads _) H3) in *; [|by left..].
  apply bind_cases in H as [(d & h4 & H4 & H) | [(e & H4 & ->) | [H4 ->]]];
    rewrite (reads_state _ _ _ _ (open_existing_reads _) H4) in *; [|by left..].
  assert (U : forall o1 h5, sys_unlink E (split_slash (pf_relative_path pending)) h = (o1, h5) ->
    (h_files h5 = h_files h /\ o1 <> Ret ()) \/ h_files h5 = delete (split_slash (pf_relative_path pending)) (h_files h)).
  { intros o1 h5 H5. apply syscall_cases in H5 as [[-> ->] | [[-> ->] | [-> [-> | ->]]]]; cbn; auto. }
  apply bind_cases in H as [([] & h5 & H5 & H) | [(e & H5 & ->) | [H5 ->]]]; apply U in H5; [|naive_solver..].
  destruct H5 as [[_ ?] | H5]; [done|].
  pose proof (do_files _ _ (within_run _ _ _ _ _ fsync_directory_within H)) as F. rewrite F. right. eauto.
Qed.

(** What publishing a pending file does. *)
Lemma publish_pending_cases pending h o h' :
  publish_pending E pending h = (o, h') ->
  let src := split_slash (pf_relative_path pending) in
  let dst := split_slash (pf_final_relative_path pending) in
  (h_files h' = h_files h /\ o <> Ret ()) \/
  (exists data, h_files h !! src = Some data /\ present dst h = false /\ is_sealed dst h = false /\
   _PENDING_RE (List.last src []) = Some (List.last dst []) /\ removelast src = removelast dst /\
   h_files h' = <[dst := data]> (delete src (h_files h))).
Proof.
  unfold publish_pending. intros H. cbv zeta in *.
  apply bind_cases in H as [([] & h1 & H1 & H) | [(e & H1 & ->) | [H1 ->]]];
    [|rewrite (reads_state _ _ _ _ (require_mutable_reads _) H1) in *; by left..].
  apply require_mutable_ret in H1 as (-> & fparts & HP & HS).
  apply relative_parts_ok in HP as (-> & _ & _).
  apply bind_cases in H as [([] & h2 & H2 & H) | [(e & H2 & ->) | [H2 ->]]];
    [|rewrite (reads_state _ _ _ _ (within_check eq _ _) H2) in *; by left..].
  apply check_ret in H2 as (HB & ->). apply negb_false_iff, bool_decide_eq_true in HB as [HB1 HB2].
  apply bind_cases in H as [([] & h3 & H3 & H) | [(e & H3 & ->) | [H3 ->]]];
    rewrite (reads_state _ _ _ _ (open_relative_reads _) H3) in *; [|by left..].
  apply bind_cases in H as [(d & h4 & H4 & H) | [(e & H4 & ->) | [H4 ->]]];
    rewrite (reads_state _ _ _ _ (open_existing_reads _) H4) in *; [|by left..].
  unfold _open_existing_private_at, mbind, M_bind, gets, of_option in H4.
  destruct (h_files h !! split_slash (pf_relative_path pending)) as [d'|] eqn:L; [|done]. clear H4.
  assert (U : forall o1 h5, _exclusive_rename_at E (split_slash (pf_relative_path pending)) (split_slash (pf_final_relative_path pending)) h = (o1, h5) ->
    (h_files h5 = h_files h /\ o1 <> Ret ()) \/
    (present (split_slash (pf_final_relative_path pending)) h = false /\
     h_files h5 = <[split_slash (pf_final_relative_path pending) := d']> (delete (split_slash (pf_relative_path pending)) (h_files h)))).
  { intros o1 h5 H5. apply exclusive_rename_cases in H5. rewrite L in H5. cbn in H5.
    destruct H5 as [(-> & Pr & ->) | [(e & -> & [-> | ->]) | (-> & [-> | [Pr ->]])]]; cbn; auto. }
  apply bind_cases in H as [([] & h5 & H5 & H) | [(e & H5 & ->) | [H5 ->]]]; apply U in H5.
  - destruct H5 as [[_ ?] | [Pr H5]]; [done|].
    pose proof (do_files _ _ (within_run _ _ _ _ _ fsync_directory_within H)) as F. rewrite F. right. exists d'. done.
  - destruct H5 as [[-> _] | [Pr H5]]; [by left|]. right. exists d'. done.
  - destruct H5 as [[-> _] | [Pr H5]]; [by left|]. right. exists d'. done.
Qed.

Lemma discard_pending_kept d pending :
  removelast (split_slash (pf_relative_path pending)) <> d -> within (kept d) (discard_pending E pending).
Proof.
  intros Hd h p Hp. destruct (discard_pending E pending h) as [o h'] eqn:D. cbn [snd].
  apply discard_pending_cases in D as [[-> _] | [-> _]]; [done|]. rewrite lookup_delete_ne; [done|]. by intros <-.
Qed.

Lemma publish_pending_kept d pending :
  removelast (split_slash (pf_relative_path pending)) <> d -> within (kept d) (publish_pending E pending).
Proof.
  intros Hd h p Hp. destruct (publish_pending E pending h) as [o h'] eqn:D. cbn [snd].
  apply publish_pending_cases in D as [[-> _] | (data & _ & _ & _ & _ & Hsd & ->)]; [done|].
  rewrite lookup_insert_ne, lookup_delete_ne; [done| |]; intros <-; congruence.
Qed.

Lemma component_no_slash s : _COMPONENT_RE s = true -> 47 ∉ s.
Proof.
  unfold _COMPONENT_RE. destruct s as [|c s]; [done|]. rewrite !andb_true_iff. intros [[Hc Hs] _] H.
  apply elem_of_cons in H as [<- | H]; [done|]. rewrite forallb_forall in Hs. apply list_elem_of_In, Hs in H. done.
Qed.

Lemma components_no_slash parts : forallb _COMPONENT_RE parts = true -> Forall (fun a => 47 ∉ a) parts.
Proof.
  intros H. apply Forall_forall. intros x Hx. apply component_no_slash. rewrite forallb_forall in H. by apply H, list_elem_of_In.
Qed.

Lemma safe_no_slash name : unsafe_name name = false -> 47 ∉ name.
Proof.
  unfold unsafe_name. rewrite !orb_false_iff. intros [[_ H] _] X. rewrite <-not_true_iff_false, existsb_exists in H.
  apply H. exists 47. split; [by apply list_elem_of_In|done].
Qed.

Lemma join_slash_snoc parent name : parent <> [] -> join_slash (parent ++ [name]) = join_slash parent ++ 47 :: name.
Proof.
  induction parent as [|a l IH]; intros H; [done|]. destruct l as [|b l]; [done|].
  change ((a :: b :: l) ++ [name]) with (a :: ((b :: l) ++ [name])).
  change (join_slash (a :: (b :: l) ++ [name])) with (a ++ 47 :: join_slash ((b :: l) ++ [name])).
  rewrite IH by done. change (join_slash (a :: b :: l)) with (a ++ 47 :: join_slash (b :: l)). by rewrite <-app_assoc.
Qed.

(** The path of a pending file found in a directory. *)
Lemma split_pending parent name :
  parent <> [] -> Forall (fun a => 47 ∉ a) parent -> 47 ∉ name ->
  split_slash (join_slash parent ++ 47 :: name) = parent ++ [name].
Proof.
  intros Hne Hp Hn. rewrite <-join_slash_snoc by done. apply split_join; [by destruct parent|].
  apply Forall_app. split; [done|]. by constructor.
Qed.

Lemma pending_in_path parent name item :
  parent <> [] -> Forall (fun a => 47 ∉ a) parent -> 47 ∉ name -> pending_in (join_slash parent) name = Some item ->
  split_slash (pf_relative_path item) = parent ++ [name] /\
  exists final, _PENDING_RE name = Some final /\ pf_final_relative_path item = join_slash parent ++ 47 :: final.
Proof.
  intros Hne Hp Hn H. unfold pending_in in H. apply bind_Some in H as (final & Hf & [= <-]). cbn.
  split; [by apply split_pending|]. eauto.
Qed.

Lemma write_or_reopen_exact_kept d relative data maximum :
  (forall parts, _relative_parts relative = Ok parts -> removelast parts <> d) ->
  within (kept d) (write_or_reopen_exact E relative data maximum).
Proof.
  intros Hd. unfold write_or_reopen_exact.
  apply within_bind; [apply _|apply reads_kept, require_mutable_reads|intros _].
  destruct (_relative_parts relative) as [parts|e] eqn:HP; [|by intros h p].
  destruct (relative_parts_ok _ _ HP) as (_ & Hne & Hcomp). specialize (Hd parts eq_refl).
  apply within_known, within_guard; [apply _|]. intros L2. apply Nat.ltb_ge in L2.
  assert (Hpar : removelast parts <> []).
  { destruct parts as [|a [|b r]]; cbn in *; [lia|lia|done]. }
  assert (Hslash : Forall (fun a => 47 ∉ a) (removelast parts)).
  { apply components_no_slash in Hcomp. rewrite <-(parts_app_last parts Hne) in Hcomp. by apply Forall_app in Hcomp as [? _]. }
  apply within_bind; [apply _|apply within_check, _|intros _]. cbv zeta.
  apply within_bind; [apply _|apply dirs_only_kept, open_relative_within|intros _].
  apply within_bind; [apply _|apply within_gets, _|intros names].
  apply within_guard; [apply _|]. intros UN.
  assert (PK : forall item, item ∈ omap (pending_in (join_slash (removelast parts))) names ->
    removelast (split_slash (pf_relative_path item)) <> d).
  { intros item Hi. apply list_elem_of_omap in Hi as (name & Hn & Hi).
    apply pending_in_path in Hi as [-> _]; [by rewrite removelast_snoc|done|done|].
    apply safe_no_slash. rewrite <-not_true_iff_false, existsb_exists in UN. apply not_true_iff_false. intros X. apply UN.
    exists name. split; [by apply list_elem_of_In|done]. }
  assert (TK : forall item rest, List.filter (fun item => str_eqb (pf_final_relative_path item) relative)
      (omap (pending_in (join_slash (removelast parts))) names) = item :: rest ->
    removelast (split_slash (pf_relative_path item)) <> d).
  { intros item rest Ht. apply PK. apply list_elem_of_In. eapply (proj1 (List.filter_In _ _ _)). rewrite Ht. by left. }
  destruct (List.filter _ _) as [|item rest] eqn:TP.
  - within_auto; try (apply reads_kept; eauto with pyres; fail); try (apply write_bytes_kept; rewrite HP; intros ? [= <-]; done).
    all: unfold _verify_exact_descriptor; within_auto; apply reads_kept; eauto with pyres.
  - specialize (TK item rest eq_refl).
    within_auto; try (apply reads_kept; eauto with pyres; fail); try (by apply discard_pending_kept);
      try (by apply publish_pending_kept); try (apply write_bytes_kept; rewrite HP; intros ? [= <-]; done).
    all: try (unfold _verify_exact_descriptor; within_auto; apply reads_kept; eauto with pyres; fail).
Qed.

Lemma ensure_directory_within relative : within dirs_only (ensure_directory E relative).
Proof.
  unfold ensure_directory. within_auto; [|apply open_relative_within].
  eapply within_impl; [apply eq_dirs|apply require_mutable_reads].
Qed.

(** Every file is as before. *)
Definition same_files (h h' : host) : Prop := h_files h' = h_files h.
#[local] Instance same_files_refl : Reflexive same_files.
Proof. by intros h. Qed.
#[local] Instance same_files_trans : Transitive same_files.
Proof. intros a b c H1 H2. unfold same_files in *. congruence. Qed.

Lemma same_files_kept d h h' : same_files h h' -> kept d h h'.
Proof. intros H p _. by rewrite H. Qed.

Lemma seal_prefixes_files names : within same_files (seal_prefixes names).
Proof.
  unfold seal_prefixes. within_auto.
  eapply within_impl; [|apply require_open_reads]. by intros ?? ->.
Qed.
Lemma close_archive_files : within same_files close_archive.
Proof. by intros h. Qed.

Lemma archive_open_files root : within same_files (archive_open root).
Proof. unfold archive_open. within_auto. Qed.
Lemma archive_create_files root : within same_files (archive_create E root).
Proof.
  unfold archive_create. within_auto.
  - by apply syscall_within.
  - by apply syscall_within.
Qed.

(** The lock file is created or left alone; nothing else changes. *)
Lemma create_lock_file_cases relative h o h' :
  create_lock_file E relative h = (o, h') ->
  h_files h' = h_files h \/
  exists parts, _relative_parts relative = Ok parts /\ is_sealed parts h = false /\ h_files h !! parts = None /\
    h_files h' = <[parts := []]> (h_files h).
Proof.
  unfold create_lock_file. intros H.
  apply bind_cases in H as [([] & h1 & H1 & H) | [(e & H1 & ->) | [H1 ->]]];
    [|left; by rewrite (reads_state _ _ _ _ (require_mutable_reads relative) H1)..].
  apply require_mutable_ret in H1 as (-> & parts & Hp & Hs).
  apply bind_cases in H as [(r & h3 & H3 & H) | [(e & H3 & ->) | [H3 ->]]];
    [|left; pose proof (within_run _ _ _ _ _ (parent_and_name_within relative true) H3) as []; done..].
  apply parent_and_name_ret in H3 as (D3 & parts' & Hp' & ->). rewrite Hp in Hp'. injection Hp' as <-.
  destruct (relative_parts_ok _ _ Hp) as (_ & Hpne & _). rewrite (parts_app_last parts Hpne) in H.
  rewrite <-(do_files _ _ D3).
  apply bind_cases in H as [([] & h4 & H4 & H) | [(e & H4 & ->) | [H4 ->]]];
    apply open_new_cases in H4 as [(Ho & Hn & ->) | [(e' & Ho & [-> | ->]) | (Ho & [-> | [Hn ->]])]];
    try discriminate Ho; cbn; try (by left); try (right; by exists parts).
  unfold on_exception in H.
  assert (B : forall hx o2 h2, (sys_fsync E ≫= fun _ => _fsync_directory E) hx = (o2, h2) -> h_files h2 = h_files hx).
  { intros hx o2 h2 HB. refine (do_files _ _ (within_run dirs_only _ _ _ _ _ HB)).
    apply within_bind; [apply _|apply fsync_within|intros; apply fsync_directory_within]. }
  apply try_cases in H as [(e & h5 & H5 & H) | [H5 _]]; apply B in H5; cbn in H5.
  - apply bind_cases in H as [([] & h6 & H6 & H) | [(e' & H6 & ->) | [H6 ->]]];
      [injection H as _ <-| |]; apply unpublished_files in H6 as [-> | ->]; rewrite H5;
      try (right; by exists parts); left; by rewrite delete_insert_id, ?delete_id by done.
  - right. by exists parts.
Qed.

End Proofs.

#[export] Hint Resolve require_open_reads open_directory_reads require_mutable_reads open_relative_reads
  parent_and_name_reads new_pending_name_reads open_existing_reads read_opened_reads verify_published_reads
  read_bytes_reads describe_file_reads list_names_reads list_root_names_reads pending_files_reads
  pending_path_reads read_pending_reads read_pending_fragment_reads : pyres.
