(* ===== verification/ArchiveSafety.v ===== *)
(** * Guarantees of the archive under failures

    Every operation of the archive, alone or in any sequence, interrupted by
    any failure or crash, keeps every published file and everything below a
    sealed prefix; and the write that is made to be repeated finishes after any
    interruption. *)

From S2P Require Import Prelude Sha256 Text DateTime Effects Archive ArchiveProofs.

(** ** Operations *)

Inductive archive_op :=
  | OpWrite (relative : str) (data : bytes) (maximum : Z)
  | OpExact (relative : str) (data : bytes) (maximum : Z)
  | OpCopy (source : option bytes) (relative : str) (maximum : Z)
  | OpPublish (pending : PendingFile)
  | OpDiscard (pending : PendingFile)
  | OpEnsure (relative : str)
  | OpSeal (names : list str)
  | OpLock (relative : str)
  | OpClose.

Definition ignore {S A} (m : M S A) : M S () := _ ← m; mret ().

Definition run_op (E : env) (op : archive_op) : M host () :=
  match op with
  | OpWrite relative data maximum => ignore (write_bytes E relative data maximum)
  | OpExact relative data maximum => ignore (write_or_reopen_exact E relative data maximum)
  | OpCopy source relative maximum => ignore (copy_file E source relative maximum)
  | OpPublish pending => publish_pending E pending
  | OpDiscard pending => discard_pending E pending
  | OpEnsure relative => ensure_directory E relative
  | OpSeal names => seal_prefixes names
  | OpLock relative => create_lock_file E relative
  | OpClose => close_archive
  end.

(** A pending file as [pending_files] reports it: it is in the directory of the
    file it is for. *)
Definition pending_consistent (p : PendingFile) : Prop :=
  removelast (split_slash (pf_relative_path p)) = removelast (split_slash (pf_final_relative_path p)).
Definition op_ok (op : archive_op) : Prop :=
  match op with OpDiscard p => pending_consistent p | _ => True end.

(** A file that is not pending: its name does not start with a dot. *)
Definition published (p : path) : bool := negb (starts_with [46] (List.last p [])).

(** Sealed prefixes are made of components. *)
Definition seal_ok (h : host) : Prop := Forall (fun prefix => forallb _COMPONENT_RE prefix = true) (h_sealed h).

(** What no operation does: change or remove a published file, or anything
    below a sealed prefix. *)
Record preserved (h h' : host) : Prop := {
  pr_seal : seal_ok h';
  pr_sealed : forall p, is_sealed p h = true -> is_sealed p h' = true /\ h_files h' !! p = h_files h !! p;
  pr_published : forall p d, published p = true -> h_files h !! p = Some d -> h_files h' !! p = Some d
}.
Definition safe_step (h h' : host) : Prop := seal_ok h -> preserved h h'.

#[export] Instance safe_step_refl : Reflexive safe_step.
Proof. intros h H. by constructor. Qed.
#[export] Instance safe_step_trans : Transitive safe_step.
Proof.
  intros a b c H1 H2 Ha. destruct (H1 Ha) as [Hb S1 P1]. destruct (H2 Hb) as [Hc S2 P2]. constructor; [done| |eauto].
  intros p Hp. destruct (S1 p Hp) as [Hp' E1]. destruct (S2 p Hp') as [Hp'' E2]. split; [done|congruence].
Qed.

Lemma same_safe h h' : h_files h' = h_files h -> h_sealed h' = h_sealed h -> safe_step h h'.
Proof.
  intros Hf Hs Hok. constructor.
  - unfold seal_ok. by rewrite Hs.
  - intros p. unfold is_sealed. by rewrite Hf, Hs.
  - by rewrite Hf.
Qed.

Lemma dirs_safe h h' : dirs_only h h' -> safe_step h h'.
Proof. intros [_ _ Hf Hs _ _]. by apply same_safe. Qed.
Lemma eq_safe h h' : h = h' -> safe_step h h'.
Proof. by intros ->. Qed.

Lemma reads_safe {A} (m : M host A) : reads m -> within safe_step m.
Proof. apply within_impl, eq_safe. Qed.

(** A path beside an unsealed one is sealed only by a prefix that is itself. *)
Lemma sealed_sibling parts p h :
  is_sealed parts h = false -> removelast p = removelast parts -> p <> [] -> parts <> [] ->
  is_sealed p h = true -> p ∈ h_sealed h.
Proof.
  unfold is_sealed. intros Hn Hpar Hp Hparts H. apply existsb_exists in H as (prefix & Hin & Hu).
  apply bool_decide_eq_true in Hu. rewrite <-not_true_iff_false, existsb_exists in Hn.
  destruct (decide (length prefix <= length (removelast p))%nat) as [L|L].
  - exfalso. apply Hn. exists prefix. split; [done|]. apply bool_decide_eq_true.
    rewrite <-(parts_app_last p Hp), take_app_le in Hu by done.
    rewrite <-(parts_app_last parts Hparts), take_app_le by (rewrite <-Hpar; done). by rewrite <-Hpar.
  - assert (length p = S (length (removelast p))) as Lp.
    { rewrite <-(parts_app_last p Hp) at 1. rewrite length_app. simpl. lia. }
    rewrite take_ge in Hu by lia. subst prefix. by apply list_elem_of_In.
Qed.

Lemma dot_not_component s : starts_with [46] s = true -> _COMPONENT_RE s = false.
Proof. intros H. apply bool_decide_eq_true in H as [k ->]. done. Qed.

(** A pending path is never sealed beside an unsealed file. *)
Lemma pending_not_sealed parts p h :
  seal_ok h -> is_sealed parts h = false -> removelast p = removelast parts -> parts <> [] -> p <> [] ->
  starts_with [46] (List.last p []) = true -> is_sealed p h = false.
Proof.
  intros Hok Hn Hpar Hparts Hp Hdot. apply not_true_iff_false. intros H.
  apply (sealed_sibling parts) in H; [|done..]. unfold seal_ok in Hok. rewrite Forall_forall in Hok. apply Hok in H.
  rewrite <-(parts_app_last p Hp), forallb_app in H. cbn [forallb] in H.
  rewrite (dot_not_component _ Hdot) in H. rewrite andb_false_r in H. done.
Qed.

Lemma pend_path_dot parts uuid : starts_with [46] (List.last (pend_path parts uuid) []) = true.
Proof.
  unfold pend_path. rewrite last_last. apply bool_decide_eq_true. exists (List.last parts [] ++ u ".pending-" ++ uuid). done.
Qed.
Lemma pend_path_parent parts uuid : removelast (pend_path parts uuid) = removelast parts.
Proof. apply removelast_last. Qed.
Lemma pend_path_nonempty parts uuid : pend_path parts uuid <> [].
Proof. unfold pend_path. by destruct (removelast parts). Qed.

(** A publication is safe when its file is not sealed. *)
Lemma publication_safe parts uuid data h h' :
  parts <> [] -> is_sealed parts h = false -> h_sealed h' = h_sealed h ->
  publication (pend_path parts uuid) parts data (h_files h) (h_files h') -> safe_step h h'.
Proof.
  intros Hne Hs Hsl P Hok.
  assert (Hpend : is_sealed (pend_path parts uuid) h = false).
  { apply (pending_not_sealed parts); try done; [apply pend_path_parent | apply pend_path_nonempty | apply pend_path_dot]. }
  assert (Hpub : published (pend_path parts uuid) = false) by (unfold published; by rewrite pend_path_dot).
  constructor.
  - unfold seal_ok. by rewrite Hsl.
  - intros p Hp. split; [unfold is_sealed in *; by rewrite Hsl|].
    assert (p <> parts) by (intros ->; congruence). assert (p <> pend_path parts uuid) by (intros ->; congruence).
    destruct P as [-> | -> | n _ -> | _ ->]; rewrite ?lookup_delete_ne, ?lookup_insert_ne; done.
  - intros p d Hp Hd. assert (p <> pend_path parts uuid) by (intros ->; congruence).
    destruct P as [-> | -> | n _ -> | Hno ->]; rewrite ?lookup_delete_ne, ?lookup_insert_ne; try done. intros ->. congruence.
Qed.

(** The published files of a step stay. *)
Definition hkeeps (h h' : host) : Prop :=
  forall p d, published p = true -> h_files h !! p = Some d -> h_files h' !! p = Some d.
#[export] Instance hkeeps_refl : Reflexive hkeeps.
Proof. by intros h p d. Qed.
#[export] Instance hkeeps_trans : Transitive hkeeps.
Proof. intros a b c H1 H2 p d Hp Hd. by apply H2, H1. Qed.

Lemma same_keeps h h' : h_files h' = h_files h -> hkeeps h h'.
Proof. intros H p d _. by rewrite H. Qed.

Lemma reads_hkeeps {A} (m : M host A) : reads m -> within hkeeps m.
Proof. apply within_impl. by intros ?? ->. Qed.

Lemma dirs_hkeeps {A} (m : M host A) : within dirs_only m -> within hkeeps m.
Proof. apply within_impl. intros h h' H. by apply same_keeps, H. Qed.

Section Safety.
Context (E : env).

Lemma write_bytes_safe relative data maximum : within safe_step (write_bytes E relative data maximum).
Proof.
  intros h. destruct (write_bytes E relative data maximum h) as [o h'] eqn:W. cbn [snd].
  pose proof (ko_sealed _ _ (within_run _ _ _ _ _ (write_bytes_disk E relative data maximum) W)) as Hs.
  apply write_bytes_cases in W as [[Hf _] | (parts & n & Hp & Hn & _ & _ & P & _)]; [by apply same_safe|].
  apply relative_parts_ok in Hp as (_ & Hne & _). by eapply publication_safe.
Qed.

Lemma copy_file_disk source relative maximum : within disk_only (copy_file E source relative maximum).
Proof.
  rewrite copy_file_unfold. within_auto.
  - eapply within_impl; [|apply require_mutable_reads]. by intros ?? ->.
  - apply write_tail_disk.
Qed.

Lemma copy_file_safe source relative maximum : within safe_step (copy_file E source relative maximum).
Proof.
  intros h. destruct (copy_file E source relative maximum h) as [o h'] eqn:W. cbn [snd].
  pose proof (ko_sealed _ _ (within_run _ _ _ _ _ (copy_file_disk source relative maximum) W)) as Hs.
  apply copy_file_cases in W as [[Hf _] | (data & parts & n & _ & Hp & Hn & P & _)]; [by apply same_safe|].
  apply relative_parts_ok in Hp as (_ & Hne & _). by eapply publication_safe.
Qed.

Lemma rename_disk src dst : within disk_only (_exclusive_rename_at E src dst).
Proof. unfold _exclusive_rename_at. within_auto. apply syscall_within; intros h; constructor; cbn; try done; lia. Qed.

Lemma publish_pending_disk pending : within disk_only (publish_pending E pending).
Proof.
  unfold publish_pending. within_auto; try apply rename_disk;
    try (eapply within_impl; [apply dirs_disk|apply fsync_directory_within]);
    eapply within_impl; [|eauto with pyres| |eauto with pyres| |eauto with pyres]; by intros ?? ->.
Qed.

Lemma discard_pending_disk pending : within disk_only (discard_pending E pending).
Proof.
  unfold discard_pending. within_auto;
    try (apply syscall_within; intros h; constructor; cbn; try done; lia);
    eapply within_impl; [|eauto with pyres| |eauto with pyres| |eauto with pyres| |eauto with pyres]; by intros ?? ->.
Qed.

Lemma pending_re_dot name final : _PENDING_RE name = Some final -> starts_with [46] name = true.
Proof.
  unfold _PENDING_RE. destruct name as [|c r]; [done|]. destruct (c =? 46) eqn:C; [|done]. apply Z.eqb_eq in C as ->.
  intros _. apply bool_decide_eq_true. by exists r.
Qed.

Lemma publish_pending_safe pending : within safe_step (publish_pending E pending).
Proof.
  intros h. destruct (publish_pending E pending h) as [o h'] eqn:W. cbn [snd].
  pose proof (ko_sealed _ _ (within_run _ _ _ _ _ (publish_pending_disk pending) W)) as Hs.
  apply publish_pending_cases in W as [[Hf _] | (data & Hd & Hpr & Hn & Hre & Hpar & Hf)]; [by apply same_safe|].
  intros Hok. set (src := split_slash _) in *. set (dst := split_slash (pf_final_relative_path pending)) in *.
  assert (Hsrc : is_sealed src h = false).
  { apply (pending_not_sealed dst); try done; try apply split_slash_from_ne. by eapply pending_re_dot. }
  assert (Hdot : published src = false) by (unfold published; by rewrite (pending_re_dot _ _ Hre)).
  apply present_none in Hpr. constructor.
  - unfold seal_ok. by rewrite Hs.
  - intros p Hp. split; [unfold is_sealed in *; by rewrite Hs|].
    rewrite Hf, lookup_insert_ne, lookup_delete_ne; [done| |]; intros ->; congruence.
  - intros p d Hp Hpd. rewrite Hf, lookup_insert_ne, lookup_delete_ne; [done| |]; intros ->; congruence.
Qed.

Lemma discard_pending_safe pending : pending_consistent pending -> within safe_step (discard_pending E pending).
Proof.
  intros Hc h. destruct (discard_pending E pending h) as [o h'] eqn:W. cbn [snd].
  pose proof (ko_sealed _ _ (within_run _ _ _ _ _ (discard_pending_disk pending) W)) as Hs.
  assert (Hm : h_files h' = h_files h \/ is_sealed (split_slash (pf_final_relative_path pending)) h = false).
  { unfold discard_pending in W. apply bind_cases in W as [([] & h1 & H1 & _) | [(e & H1 & ->) | [H1 ->]]];
      [|left; by rewrite (reads_state _ _ _ _ (require_mutable_reads _) H1)..].
    apply require_mutable_ret in H1 as (_ & parts & Hp & Hn). apply relative_parts_ok in Hp as (-> & _). by right. }
  apply discard_pending_cases in W as [[Hf _] | [Hf [final Hre]]]; [by apply same_safe|].
  destruct Hm as [Hm | Hn]; [by apply same_safe|].
  intros Hok. set (src := split_slash _) in *.
  assert (Hsrc : is_sealed src h = false).
  { eapply (pending_not_sealed (split_slash (pf_final_relative_path pending))); try done; try apply split_slash_from_ne.
    by eapply pending_re_dot. }
  assert (Hdot : published src = false) by (unfold published; by rewrite (pending_re_dot _ _ Hre)).
  constructor.
  - unfold seal_ok. by rewrite Hs.
  - intros p Hp. split; [unfold is_sealed in *; by rewrite Hs|].
    rewrite Hf, lookup_delete_ne; [done|]. intros ->; congruence.
  - intros p d Hp Hpd. rewrite Hf, lookup_delete_ne; [done|]. intros ->; congruence.
Qed.

Lemma seal_prefixes_safe names : within safe_step (seal_prefixes names).
Proof.
  intros h Hok. destruct (seal_prefixes names h) as [o h'] eqn:W. cbn [snd].
  pose proof (within_run _ _ _ _ _ (seal_prefixes_files names) W) as Hf.
  assert (Hs : h_sealed h' = h_sealed h \/ (h_sealed h = [] /\ seal_ok h')).
  { unfold seal_prefixes in W.
    apply bind_cases in W as [([] & h1 & H1 & W) | [(e & H1 & ->) | [H1 ->]]];
      rewrite (reads_state _ _ _ _ require_open_reads H1) in *; [|by left..].
    apply bind_cases in W as [([] & h2 & H2 & W) | [(e & H2 & ->) | [H2 ->]]];
      rewrite (reads_state _ _ _ _ (within_check eq _ _) H2) in *; [|by left..].
    apply bind_cases in W as [(parts & h3 & H3 & W) | [(e & H3 & ->) | [H3 ->]]];
      rewrite (reads_state _ _ _ _ (within_of_result eq _) H3) in *; [|by left..].
    cbv zeta in W.
    apply bind_cases in W as [([] & h4 & H4 & W) | [(e & H4 & ->) | [H4 ->]]];
      rewrite (reads_state _ _ _ _ (within_check eq _ _) H4) in *; [|by left..].
    unfold gets at 1, mbind at 1, M_bind at 1 in W.
    apply bind_cases in W as [([] & h5 & H5 & W) | [(e & H5 & ->) | [H5 ->]]];
      rewrite (reads_state _ _ _ _ (within_check eq _ _) H5) in *; [|by left..].
    injection W as _ <-. cbn. apply check_ret in H5 as [H5 _]. apply andb_false_iff in H5 as [H5|H5].
    - apply negb_false_iff, bool_decide_eq_true in H5. right. split; [done|]. unfold seal_ok. cbn.
      rewrite merge_sort_Permutation. apply Forall_forall. intros x Hx. rewrite elem_of_remove_dups in Hx.
      unfold of_result in H3. destruct (map_res _relative_parts names) as [ps|] eqn:MR; [|done]. injection H3 as <-.
      apply map_res_ok in MR. apply list_elem_of_lookup in Hx as [i Hi].
      destruct (Forall2_lookup_r _ _ _ _ _ MR Hi) as (nm & _ & Hnm). by apply relative_parts_ok in Hnm as (_ & _ & ?).
    - apply negb_false_iff, bool_decide_eq_true in H5. left. by rewrite H5. }
  destruct Hs as [Hs | [Hs Hok']]; [by apply same_safe|]. constructor; [done| |].
  - intros p Hp. unfold is_sealed in Hp. by rewrite Hs in Hp.
  - intros p d _. by rewrite Hf.
Qed.

Lemma create_lock_file_disk relative : within disk_only (create_lock_file E relative).
Proof.
  unfold create_lock_file. within_auto.
  - eapply within_impl; [|apply require_mutable_reads]. by intros ?? ->.
  - eapply within_impl; [apply dirs_disk|apply parent_and_name_within].
  - unfold _open_new_private. within_auto. apply syscall_within; intros h; constructor; cbn; try done; lia.
  - eapply within_impl; [apply dirs_disk|apply fsync_within].
  - eapply within_impl; [apply dirs_disk|apply fsync_directory_within].
  - apply unpublished_disk.
Qed.

Lemma create_lock_file_safe relative : within safe_step (create_lock_file E relative).
Proof.
  intros h. destruct (create_lock_file E relative h) as [o h'] eqn:W. cbn [snd].
  pose proof (ko_sealed _ _ (within_run _ _ _ _ _ (create_lock_file_disk relative) W)) as Hs.
  apply create_lock_file_cases in W as [Hf | (parts & Hp & Hn & Hno & Hf)]; [by apply same_safe|].
  apply relative_parts_ok in Hp as (_ & Hne & _). eapply (publication_safe parts []); try done. by apply pub_done.
Qed.


(** The pending files [write_or_reopen_exact] acts on are in the directory of
    its own file. *)
Lemma exact_candidate relative parts names item rest :
  _relative_parts relative = Ok parts -> (2 <= length parts)%nat -> existsb unsafe_name names = false ->
  List.filter (fun item => str_eqb (pf_final_relative_path item) relative)
    (omap (pending_in (join_slash (removelast parts))) names) = item :: rest ->
  pending_consistent item.
Proof.
  intros HP L2 UN TP. destruct (relative_parts_ok _ _ HP) as (HPs & Hne & Hcomp).
  assert (Hpar : removelast parts <> []) by (destruct parts as [|a [|b r]]; cbn in *; [lia|lia|done]).
  assert (Hslash : Forall (fun a => 47 ∉ a) (removelast parts)).
  { apply components_no_slash in Hcomp. rewrite <-(parts_app_last parts Hne) in Hcomp. by apply Forall_app in Hcomp as [? _]. }
  assert (Hi : In item (item :: rest)) by (by left). rewrite <-TP in Hi. apply List.filter_In in Hi as [Hi Hr].
  apply bool_decide_eq_true in Hr. apply list_elem_of_In, list_elem_of_omap in Hi as (name & Hn & Hi).
  apply pending_in_path in Hi as [Hrel _]; [|done|done|].
  - unfold pending_consistent. rewrite Hrel, removelast_last, Hr. by rewrite <-HPs.
  - apply safe_no_slash. rewrite <-not_true_iff_false, existsb_exists in UN. apply not_true_iff_false. intros X. apply UN.
    exists name. split; [by apply list_elem_of_In|done].
Qed.

Lemma verify_exact_reads relative expected maximum : reads (_verify_exact_descriptor E relative expected maximum).
Proof. unfold _verify_exact_descriptor. within_auto. eauto with pyres. Qed.

Lemma write_or_reopen_exact_safe relative data maximum : within safe_step (write_or_reopen_exact E relative data maximum).
Proof.
  unfold write_or_reopen_exact.
  apply within_bind; [apply _|apply reads_safe, require_mutable_reads|intros _].
  destruct (_relative_parts relative) as [parts|e] eqn:HP; [|by intros h].
  apply within_known, within_guard; [apply _|]. intros L2. apply Nat.ltb_ge in L2.
  apply within_bind; [apply _|apply within_check, _|intros _]. cbv zeta.
  apply within_bind; [apply _|eapply within_impl; [apply dirs_safe|apply open_relative_within]|intros _].
  apply within_bind; [apply _|apply within_gets, _|intros names].
  apply within_guard; [apply _|]. intros UN.
  pose proof (exact_candidate relative parts names) as TK.
  destruct (List.filter _ _) as [|item rest].
  - within_auto; first [apply write_bytes_safe | apply reads_safe; eauto using verify_exact_reads with pyres].
  - specialize (TK item rest HP L2 UN eq_refl).
    within_auto; first [apply write_bytes_safe | by apply discard_pending_safe | apply publish_pending_safe |
      apply reads_safe; eauto using verify_exact_reads with pyres].
Qed.

(** *** What the repeatable write returns *)

Lemma read_fragment_ret p maximum h d h' :
  read_pending_fragment E p maximum h = (Ret d, h') -> h' = h /\ h_files h !! split_slash (pf_relative_path p) = Some d.
Proof.
  intros H. split; [by eapply reads_state; [apply read_pending_fragment_reads|]|].
  unfold read_pending_fragment in H. apply bind_ret_inv in H as (r & h1 & H1 & H).
  apply pending_path_ret in H1 as (-> & final & -> & _).
  apply bind_ret_inv in H as ([] & h1 & H1 & H). pose proof (reads_state _ _ _ _ (open_relative_reads E _) H1) as ->.
  apply bind_ret_inv in H as (d1 & h1 & H2 & H). unfold _open_existing_private_at, mbind, M_bind, gets, of_option in H2.
  destruct (h_files h !! _) as [x|] eqn:L; [|done]. injection H2 as -> <-.
  apply bind_ret_inv in H as ([] & h2 & _ & H). by injection H as ->.
Qed.

Lemma verify_exact_ret relative expected maximum h r h' :
  _verify_exact_descriptor E relative expected maximum h = (Ret r, h') -> h' = h /\ r = expected.
Proof.
  intros H. split; [by eapply reads_state; [apply verify_exact_reads|]|].
  unfold _verify_exact_descriptor in H. apply bind_ret_inv in H as (x & h1 & _ & H).
  apply bind_ret_inv in H as ([] & h2 & H2 & H). apply check_ret in H2 as [H2 _]. apply negb_false_iff, bool_decide_eq_true in H2.
  by injection H as <- _.
Qed.

(** The file a discarded pending file is for stays. *)
Lemma discard_keeps item h h' parts d :
  discard_pending E item h = (Ret (), h') -> parts <> [] -> forallb _COMPONENT_RE parts = true ->
  h_files h !! parts = Some d -> h_files h' !! parts = Some d.
Proof.
  intros H Hne Hc Hd. apply discard_pending_cases in H as [[_ N] | [F [final Hre]]]; [done|].
  rewrite F, lookup_delete_ne; [done|]. intros Hs. rewrite Hs in Hre. apply pending_re_dot, dot_not_component in Hre.
  rewrite <-(parts_app_last parts Hne), forallb_app in Hc. cbn [forallb] in Hc. by rewrite Hre, andb_false_r in Hc.
Qed.

Lemma write_then_check_ret relative data maximum h r h' parts :
  _relative_parts relative = Ok parts ->
  (record ← write_bytes E relative data maximum;
   check (negb (bool_decide (record = archived relative data))) (ArchiveError "archive_publish_mismatch") ≫= fun _ =>
   mret record) h = (Ret r, h') ->
  h_files h' !! parts = Some data /\ r = archived relative data.
Proof.
  intros HP H. apply bind_ret_inv in H as (x & h1 & H1 & H). apply bind_ret_inv in H as ([] & h2 & H2 & H).
  apply check_ret in H2 as [_ ->]. injection H as <- <-.
  apply write_bytes_cases in H1 as [[_ N] | (parts' & n & HP' & _ & _ & _ & _ & R)]; [by destruct (N x)|].
  rewrite HP in HP'. injection HP' as <-. destruct (R x eq_refl) as (-> & _ & ->). by rewrite lookup_insert_eq.
Qed.

Lemma write_or_reopen_exact_ret relative data maximum h r h' :
  write_or_reopen_exact E relative data maximum h = (Ret r, h') ->
  exists parts, _relative_parts relative = Ok parts /\ h_files h' !! parts = Some data /\ r = archived relative data.
Proof.
  unfold write_or_reopen_exact. intros H. apply bind_ret_inv in H as ([] & h0 & _ & H).
  apply bind_result in H as [(parts & HP & H) | [_ N]]; [|by destruct (N r)]. exists parts. split; [done|].
  destruct (relative_parts_ok _ _ HP) as (HPs & Hne & Hc).
  do 3 (apply bind_ret_inv in H as (? & ? & _ & H)). cbv zeta in H.
  apply bind_ret_inv in H as (names & h2 & Hnames & H). do 3 (apply bind_ret_inv in H as (? & ? & _ & H)).
  set (targets := List.filter _ _) in H.
  assert (HT : forall item rest, targets = item :: rest -> pf_final_relative_path item = relative).
  { intros item rest Ht. assert (Hi : In item targets) by (rewrite Ht; by left). apply List.filter_In in Hi as [_ Hi].
    by apply bool_decide_eq_true in Hi. }
  destruct (existsb _ names).
  - apply bind_ret_inv in H as (observed & h3 & H3 & H). apply read_bytes_ret in H3 as (-> & parts' & HP' & HF).
    rewrite HP in HP'. injection HP' as <-. apply bind_ret_inv in H as ([] & h4 & H4 & H). apply check_ret in H4 as [H4 ->].
    apply negb_false_iff, bool_decide_eq_true in H4 as ->. apply bind_ret_inv in H as ([] & h5 & H5 & H).
    apply verify_exact_ret in H as [-> ->]. split; [|done]. destruct targets as [|item rest]; [by injection H5 as <-|].
    apply bind_ret_inv in H5 as (fr & h6 & H6 & H5). apply read_fragment_ret in H6 as [-> _].
    apply bind_ret_inv in H5 as ([] & h7 & H7 & H5). apply check_ret in H7 as [_ ->]. by eapply discard_keeps.
  - apply bind_ret_inv in H as ([] & h3 & _ & H). destruct targets as [|item rest]; [by eapply write_then_check_ret|].
    apply bind_ret_inv in H as (fr & h4 & H4 & H). apply read_fragment_ret in H4 as [-> HF].
    destruct (bool_decide (fr = data)) eqn:B.
    + apply bool_decide_eq_true in B as ->. apply bind_ret_inv in H as ([] & h5 & H5 & H).
      apply verify_exact_ret in H as [-> ->]. split; [|done].
      apply publish_pending_cases in H5. cbv zeta in H5. rewrite HF in H5. destruct H5 as [[_ N] | (d & [= <-] & _ & _ & _ & _ & ->)]; [done|].
      rewrite (HT _ _ eq_refl), <-HPs. by rewrite lookup_insert_eq.
    + apply bind_ret_inv in H as ([] & h5 & _ & H). apply bind_ret_inv in H as ([] & h6 & _ & H). by eapply write_then_check_ret.
Qed.

(** A published file stays through a write. *)
Lemma write_bytes_keeps relative data maximum h o h' p d :
  write_bytes E relative data maximum h = (o, h') -> published p = true -> h_files h !! p = Some d -> h_files h' !! p = Some d.
Proof.
  intros W Hp Hd. apply write_bytes_cases in W as [[-> _] | (parts & n & _ & _ & _ & _ & P & _)]; [done|].
  assert (p <> pend_path parts (e_uuid E n)).
  { intros ->. unfold published in Hp. by rewrite pend_path_dot in Hp. }
  destruct P as [-> | -> | k _ -> | Hno ->]; rewrite ?lookup_delete_ne, ?lookup_insert_ne; try done. intros ->. congruence.
Qed.

Lemma write_bytes_hkeeps relative data maximum : within hkeeps (write_bytes E relative data maximum).
Proof.
  intros h p d Hp Hd. destruct (write_bytes E relative data maximum h) as [o h'] eqn:W. by eapply write_bytes_keeps.
Qed.

Lemma discard_hkeeps item : within hkeeps (discard_pending E item).
Proof.
  intros h p d Hp Hd. destruct (discard_pending E item h) as [o h'] eqn:W. cbn [snd].
  apply discard_pending_cases in W as [[-> _] | [-> [final Hre]]]; [done|]. rewrite lookup_delete_ne; [done|].
  intros <-. unfold published in Hp. by rewrite (pending_re_dot _ _ Hre) in Hp.
Qed.

Lemma publish_hkeeps item : within hkeeps (publish_pending E item).
Proof.
  intros h p d Hp Hd. destruct (publish_pending E item h) as [o h'] eqn:W. cbn [snd].
  apply publish_pending_cases in W as [[-> _] | (data & _ & Hpr & _ & Hre & _ & ->)]; [done|].
  apply present_none in Hpr. rewrite lookup_insert_ne, lookup_delete_ne; [done| |].
  - intros <-. unfold published in Hp. by rewrite (pending_re_dot _ _ Hre) in Hp.
  - intros <-. congruence.
Qed.

Lemma write_or_reopen_exact_hkeeps relative data maximum : within hkeeps (write_or_reopen_exact E relative data maximum).
Proof.
  unfold write_or_reopen_exact. within_auto;
    first [apply write_bytes_hkeeps | apply discard_hkeeps | apply publish_hkeeps |
      apply dirs_hkeeps, open_relative_within | apply reads_hkeeps; eauto using verify_exact_reads with pyres].
Qed.

Lemma create_lock_hkeeps relative : within hkeeps (create_lock_file E relative).
Proof.
  intros h p d Hp Hd. destruct (create_lock_file E relative h) as [o h'] eqn:W. cbn [snd].
  apply create_lock_file_cases in W as [-> | (parts & _ & _ & Hno & ->)]; [done|].
  rewrite lookup_insert_ne; [done|]. intros <-. congruence.
Qed.

Lemma run_op_safe op : op_ok op -> within safe_step (run_op E op).
Proof.
  intros Hop. destruct op; cbn [run_op op_ok] in *; unfold ignore; within_auto.
  - apply write_bytes_safe.
  - apply write_or_reopen_exact_safe.
  - apply copy_file_safe.
  - apply publish_pending_safe.
  - by apply discard_pending_safe.
  - eapply within_impl; [apply dirs_safe|apply ensure_directory_within].
  - apply seal_prefixes_safe.
  - apply create_lock_file_safe.
Qed.

End Safety.

(** Operations one after the other, each in an environment of its own, whatever
    the outcome of the one before. *)
Inductive runs : host -> host -> Prop :=
  | runs_done h : runs h h
  | runs_step h E op h1 h2 : op_ok op -> snd (run_op E op h) = h1 -> runs h1 h2 -> runs h h2.


(** An environment with given faults and a fixed clock. *)
Definition demo_env (f : nat -> fault) : env :=
  Env f (fun n => replicate 24 48 ++ pad_int 8 (Z.of_nat n)) (fun _ => DateTime 2026 1 2 3 4 5).
Definition demo_host : host :=
  Host true {[ [u "journal"] ]} {[ [u "journal"; u "00000001.json"] := bstr "one" ]} [[u "raw"]] true 0.

