(* ===== verification/ArchiveProgress.v ===== *)
(** * The repeatable write can always be finished

    [write_or_reopen_exact] of src/scripts/physical_capture/archive.py is made
    to be called again after a failure or a crash.  Here its effect is refined
    to three stages of one file (absent, partly written as a pending file,
    published), and every interrupted attempt is shown to stay among them, so
    that the next attempt that is not interrupted publishes the file. *)

From S2P Require Import Prelude Sha256 Text DateTime Effects Archive ArchiveProofs ArchiveSafety.

(** A pending name carries its final name. *)
Definition uuid_hex (s : str) : Prop := length s = 32%nat /\ forallb is_lower_hex s = true.

Lemma pending_re_pend_name final uuid :
  _COMPONENT_RE final = true -> uuid_hex uuid -> _PENDING_RE (pend_name final uuid) = Some final.
Proof.
  intros Hf [Hl Hh]. unfold pend_name, _PENDING_RE. cbn [app].
  assert (L : length (final ++ u ".pending-" ++ uuid) = (length final + 41)%nat).
  { rewrite !length_app, Hl. cbn. lia. }
  rewrite L. replace (length final + 41 - 41)%nat with (length final) by lia.
  rewrite take_app_length, drop_app_length, Hf.
  rewrite <-drop_drop, drop_app_length. change (drop 9 (u ".pending-" ++ uuid)) with uuid.
  change (take 9 (u ".pending-" ++ uuid)) with (u ".pending-").
  rewrite Hl, Hh. unfold str_eqb. by rewrite bool_decide_true.
Qed.

(** ** Directories an operation may add *)

(** Only directories of [new] are added; the object stays as it is. *)
Record grown (new : list path) (h h' : host) : Prop := {
  gr_open : h_open h' = h_open h;
  gr_sealed : h_sealed h' = h_sealed h;
  gr_dirs : h_dirs h ⊆ h_dirs h';
  gr_new : forall p, p ∈ h_dirs h' -> p ∈ h_dirs h \/ p ∈ new
}.

#[export] Instance grown_refl new : Reflexive (grown new).
Proof. intros h. constructor; auto. Qed.
#[export] Instance grown_trans new : Transitive (grown new).
Proof.
  intros a b c [] []. constructor; try congruence; [set_solver|].
  intros p Hp. destruct (gr_new1 p Hp); auto.
Qed.

Lemma same_dirs_grown new h h' :
  h_open h' = h_open h -> h_sealed h' = h_sealed h -> h_dirs h' = h_dirs h -> grown new h h'.
Proof. intros ? ? Hd. constructor; [done|done|by rewrite Hd|]. rewrite Hd. auto. Qed.

Lemma reads_grown {A} new (m : M host A) : reads m -> within (grown new) m.
Proof. apply within_impl. by intros ?? ->. Qed.

Section Grown.
Context (E : env).

Lemma fsync_directory_grown new : within (grown new) (_fsync_directory E).
Proof. by apply syscall_within; intros h; apply same_dirs_grown. Qed.

Lemma open_or_create_grown new p : p ∈ new -> within (grown new) (_open_or_create_private_directory E p).
Proof.
  intros Hp. unfold _open_or_create_private_directory. within_auto;
    try apply fsync_directory_grown; try (apply reads_grown; solve [eauto with pyres]).
  apply syscall_within; intros h; [by apply same_dirs_grown|]. constructor; cbn; [done|done|set_solver|].
  intros q. rewrite elem_of_union, elem_of_singleton. intros [-> | ?]; auto.
Qed.

Lemma open_relative_grown parts create : within (grown (prefixes parts)) (_open_relative_directory E parts create).
Proof.
  unfold _open_relative_directory. within_auto; try (apply reads_grown; solve [eauto with pyres]). by apply open_or_create_grown.
Qed.

Lemma publish_grown new pend final data : within (grown new) (publish E pend final data).
Proof.
  unfold publish, unpublished, _open_new_private, _exclusive_rename_at. within_auto; try apply fsync_directory_grown;
    try (by apply syscall_within; intros h; apply same_dirs_grown).
  intros h. unfold _write_all. destruct (e_fault E (h_step h)); by apply same_dirs_grown.
Qed.

Lemma parent_and_name_grown relative create parts :
  _relative_parts relative = Ok parts -> within (grown (prefixes (removelast parts))) (_parent_and_name E relative create).
Proof.
  intros Hp. unfold _parent_and_name. rewrite Hp. apply within_known. within_auto. apply open_relative_grown.
Qed.

Lemma write_bytes_grown relative data maximum parts :
  _relative_parts relative = Ok parts -> within (grown (prefixes (removelast parts))) (write_bytes E relative data maximum).
Proof.
  intros Hp. rewrite write_bytes_unfold. unfold write_tail.
  within_auto; first [by apply parent_and_name_grown | apply fsync_directory_grown | apply publish_grown |
    apply reads_grown; solve [eauto with pyres]].
Qed.

Lemma pending_ops_grown new item :
  within (grown new) (discard_pending E item) /\ within (grown new) (publish_pending E item).
Proof.
  split; unfold discard_pending, publish_pending, _exclusive_rename_at; within_auto;
    try apply fsync_directory_grown; try (apply reads_grown; solve [eauto with pyres]);
    by apply syscall_within; intros h; apply same_dirs_grown.
Qed.

Lemma write_or_reopen_exact_grown relative data maximum parts :
  _relative_parts relative = Ok parts ->
  within (grown (prefixes (removelast parts))) (write_or_reopen_exact E relative data maximum).
Proof.
  intros Hp. unfold write_or_reopen_exact. rewrite Hp.
  apply within_bind; [apply _|apply reads_grown, require_mutable_reads|intros _]. apply within_known.
  within_auto; first [apply open_relative_grown | by apply write_bytes_grown | apply pending_ops_grown |
    apply reads_grown; solve [eauto using verify_exact_reads with pyres]].
Qed.
End Grown.

(** ** What a directory lists *)

Lemma name_below_spec d p n : name_below d p = Some n <-> p = d ++ [n].
Proof.
  unfold name_below. destruct p as [|a p]; [split; [done|by destruct d]|]. case_bool_decide as Hd.
  - split; [intros [= <-]; rewrite <-Hd; symmetry; by apply parts_app_last|]. intros ->. by rewrite last_last.
  - split; [done|]. intros Hp. destruct Hd. rewrite Hp. apply removelast_last.
Qed.

Lemma elem_of_listdir d h n : n ∈ listdir d h <-> is_Some (h_files h !! (d ++ [n])) \/ d ++ [n] ∈ h_dirs h.
Proof.
  unfold listdir. rewrite elem_of_app, !list_elem_of_omap. setoid_rewrite name_below_spec. setoid_rewrite elem_of_elements.
  split; (intros [H|H]; [left|right]).
  - destruct H as (p & Hp & ->). apply list_elem_of_In, in_map_iff in Hp as ([p b] & Hpb & Hp). cbn in Hpb. subst p.
    apply list_elem_of_In, elem_of_map_to_list in Hp. eauto.
  - by destruct H as (p & Hp & ->).
  - destruct H as [b Hb]. exists (d ++ [n]). split; [|done]. apply list_elem_of_In, in_map_iff. exists (d ++ [n], b).
    split; [done|]. by apply list_elem_of_In, elem_of_map_to_list.
  - by exists (d ++ [n]).
Qed.

(** One more file of a directory is one more name. *)
Lemma listdir_insert d n b f h h' :
  h_files h = f -> f !! (d ++ [n]) = None -> h_files h' = <[d ++ [n] := b]> f -> h_dirs h' = h_dirs h ->
  listdir d h' ≡ₚ n :: listdir d h.
Proof.
  intros Hf Hn Hf' Hd. unfold listdir. rewrite Hf, Hf', Hd. rewrite map_to_list_insert by done.
  cbn [map fst omap list_omap]. by rewrite (proj2 (name_below_spec d (d ++ [n]) n) eq_refl).
Qed.

(** ** System calls that succeed *)

Section Undisturbed.
Context (E : env) (calm : forall n, e_fault E n = Proceed).

Lemma syscall_calm eff e h (Q : () -> host -> Prop) : Q () (eff (tick h)) -> returns (syscall E eff e) h Q.
Proof. intros HQ. exists (), (eff (tick h)). split; [|done]. unfold syscall. by rewrite calm. Qed.

Lemma write_all_calm p b h (Q : () -> host -> Prop) :
  Q () (with_files (<[p := default [] (h_files h !! p) ++ b]> (h_files h)) (tick h)) -> returns (_write_all E p b) h Q.
Proof. intros HQ. eexists _, _. split; [unfold _write_all; rewrite calm; done|]. by rewrite firstn_all. Qed.

(** Directories on the way that are there, or can be made. *)
Definition way_open (d : path) (h : host) : Prop := forall p, p ∈ prefixes d -> p ∈ h_dirs h.

Lemma open_directory_there p h (Q : () -> host -> Prop) : p ∈ h_dirs h -> Q () h -> returns (_open_directory_at p) h Q.
Proof.
  intros Hp HQ. exists (), h. split; [|done]. unfold _open_directory_at, mbind, M_bind, gets, is_dir.
  by rewrite (proj2 (bool_decide_eq_true _) Hp).
Qed.

Lemma require_open_calm h (Q : () -> host -> Prop) : h_open h = true -> Q () h -> returns _require_open h Q.
Proof. intros Ho HQ. apply returns_bind, returns_gets, returns_check; [by rewrite Ho|done]. Qed.

Lemma way_returns d h (Q : () -> host -> Prop) :
  h_open h = true -> way_open d h -> Q () h -> returns (_open_relative_directory E d false) h Q.
Proof.
  intros Ho Hd HQ. apply returns_bind, require_open_calm; [done|].
  eapply returns_mono; [apply (returns_for_each (fun l s => s = h /\ forall p, p ∈ l -> p ∈ h_dirs h))|].
  - by split.
  - intros p l s [-> Hl]. apply open_directory_there; [apply Hl; by left|]. split; [done|]. intros q Hq. apply Hl. by right.
  - intros [] s [-> _]. done.
Qed.

Lemma open_or_create_calm p h (Q : () -> host -> Prop) :
  h_files h !! p = None -> (forall h', dirs_only h h' -> p ∈ h_dirs h' -> Q () h') ->
  returns (_open_or_create_private_directory E p) h Q.
Proof.
  intros Hf HQ. unfold _open_or_create_private_directory. destruct (decide (p ∈ h_dirs h)) as [Hp|Hp].
  - apply returns_try, open_directory_there; [done|]. by apply HQ.
  - assert (Hno : _open_directory_at p h = (Raise (ArchiveError "directory_not_found"), h)).
    { unfold _open_directory_at, mbind, M_bind, gets, is_dir, is_file.
      rewrite bool_decide_false by done. by rewrite bool_decide_false by (rewrite Hf; by intros []). }
    set (h1 := with_dirs ({[p]} ∪ h_dirs (tick h)) (tick h)).
    assert (R : returns (_fsync_directory E) h1 Q).
    { apply syscall_calm, HQ; [|set_solver]. constructor; cbn; try done; [set_solver|lia]. }
    destruct R as (a & s' & Hr & HQ'). exists a, s'. split; [|done]. unfold try_except. rewrite Hno.
    cbn [check]. rewrite bool_decide_true by done. cbn [negb]. unfold check, mbind at 1, M_bind at 1, mret at 1, M_ret at 1.
    assert (Hm : sys_mkdir E p h = (Ret (), h1)) by (unfold sys_mkdir, syscall; by rewrite calm).
    rewrite (bind_ret_eq _ _ _ _ _ Hm). rewrite (bind_ret_eq _ _ h1 () h1); [done|].
    destruct (open_directory_there p h1 (fun _ s => s = h1)) as ([] & s1 & Hs & ->); [cbn; set_solver|done|done].
Qed.

Lemma make_way d h :
  h_open h = true -> (forall p, p ∈ prefixes d -> h_files h !! p = None) ->
  returns (_open_relative_directory E d true) h (fun _ h' => dirs_only h h' /\ way_open d h').
Proof.
  intros Ho Hf. apply returns_bind, require_open_calm; [done|].
  eapply returns_mono; [apply (returns_for_each (fun l s => dirs_only h s /\ (forall p, p ∈ l -> p ∈ prefixes d) /\
    forall p, p ∈ prefixes d -> p ∈ l \/ p ∈ h_dirs s))|].
  - split; [done|]. split; [done|]. by left.
  - intros p l s (D & Hl & Hd). apply open_or_create_calm.
    + rewrite (do_files _ _ D). apply Hf, Hl. by left.
    + intros s' D' Hp. split; [by etrans|]. split; [intros q Hq; apply Hl; by right|].
      intros q Hq. destruct (Hd q Hq) as [[-> | ?]%elem_of_cons | Hq']; [by right|by left|right]. by apply (do_dirs _ _ D').
  - intros [] s (D & _ & Hd). split; [done|]. intros p Hp. destruct (Hd p Hp) as [H|H]; [by apply elem_of_nil in H|done].
Qed.

Lemma existing_calm p b h (Q : bytes -> host -> Prop) :
  h_files h !! p = Some b -> Q b h -> returns (_open_existing_private_at p) h Q.
Proof. intros Hb HQ. apply returns_bind, returns_gets. by eapply returns_of_option. Qed.

Lemma read_opened_calm b m h (Q : bytes -> host -> Prop) :
  1 <= len b <= m -> Q b h -> returns (_read_opened b m) h Q.
Proof.
  intros Hb HQ. apply returns_bind, returns_check; [|by apply returns_ret].
  apply orb_false_iff. rewrite !Z.ltb_ge. lia.
Qed.

End Undisturbed.

(** ** The stages of one file *)

Inductive stage :=
  | Absent
  | Partial (uuid : str) (n : nat)
  | Published.

(** A name that is neither hidden nor unsafe. *)
Definition plain_name (name : str) : Prop := unsafe_name name = false /\ starts_with [46] name = false.

Section Repeat.
Context (relative : str) (data : bytes) (maximum : Z) (parts : path).

Definition stage_ok (st : stage) : Prop := match st with Partial uuid _ => uuid_hex uuid | _ => True end.

(** The files at a stage, [f] being the files without it. *)
Definition stage_files (st : stage) (f : gmap path bytes) : gmap path bytes :=
  match st with
  | Absent => f
  | Partial uuid n => <[pend_path parts uuid := take n data]> f
  | Published => <[parts := data]> f
  end.

(** The files before the first attempt: the file is not there, its directory
    holds no hidden or unsafe name, and no directory of its path is a file. *)
Record base (f : gmap path bytes) : Prop := {
  bf_new : f !! parts = None;
  bf_plain : forall p, is_Some (f !! p) -> removelast p = removelast parts -> plain_name (List.last p []);
  bf_path : forall p, p ∈ prefixes (removelast parts) -> f !! p = None
}.

Record ready (f : gmap path bytes) (st : stage) (h : host) : Prop := {
  rd_open : h_open h = true;
  rd_mutable : is_sealed parts h = false;
  rd_stage : stage_ok st;
  rd_files : h_files h = stage_files st f;
  rd_dir : parts ∉ h_dirs h;
  rd_dirs : forall p, p ∈ h_dirs h -> removelast p = removelast parts -> plain_name (List.last p [])
}.

Hypothesis Hparts : _relative_parts relative = Ok parts.
Hypothesis Hlen : (2 <= length parts)%nat.

Lemma parts_ne : parts <> [].
Proof. intros ->. cbn in Hlen. lia. Qed.
Lemma parent_ne : removelast parts <> [].
Proof. clear Hparts. destruct parts as [|a [|b r]]; cbn in *; [lia|lia|done]. Qed.
Lemma parts_split : parts = removelast parts ++ [List.last parts []].
Proof. symmetry. apply parts_app_last, parts_ne. Qed.
Lemma relative_join : relative = join_slash (removelast parts) ++ 47 :: List.last parts [].
Proof.
  rewrite <-join_slash_snoc by apply parent_ne. rewrite <-parts_split.
  destruct (relative_parts_ok _ _ Hparts) as [-> _]. by rewrite join_slash_split.
Qed.
Lemma name_component : _COMPONENT_RE (List.last parts []) = true.
Proof.
  destruct (relative_parts_ok _ _ Hparts) as (_ & _ & Hc). rewrite parts_split, forallb_app in Hc.
  apply andb_prop in Hc as [_ Hc]. cbn [forallb] in Hc. by rewrite andb_true_r in Hc.
Qed.
Lemma parent_no_slash : Forall (fun a => 47 ∉ a) (removelast parts).
Proof.
  destruct (relative_parts_ok _ _ Hparts) as (_ & _ & Hc). apply components_no_slash in Hc.
  rewrite parts_split in Hc. by apply Forall_app in Hc as [? _].
Qed.

Lemma pend_path_name uuid : pend_path parts uuid = removelast parts ++ [pend_name (List.last parts []) uuid].
Proof. done. Qed.

Lemma base_no_pending f uuid : base f -> f !! pend_path parts uuid = None.
Proof.
  intros [_ Hp _]. apply eq_None_not_Some. intros Hs. apply Hp in Hs as [_ Hd]; [|apply pend_path_parent].
  by rewrite pend_path_dot in Hd.
Qed.

(** The directories on the way to the file are not in its directory. *)
Lemma prefix_length p : p ∈ prefixes (removelast parts) -> (length p < length parts)%nat.
Proof.
  intros Hp. apply list_elem_of_In, in_map_iff in Hp as (n & <- & Hn). apply in_seq in Hn.
  rewrite length_take. rewrite parts_split at 2. rewrite length_app. cbn. lia.
Qed.

Lemma grown_ready f st st' h h' :
  grown (prefixes (removelast parts)) h h' -> ready f st h -> stage_ok st' -> h_files h' = stage_files st' f -> ready f st' h'.
Proof.
  intros [Ho Hs Hd Hn] [R1 R2 _ _ R5 R6] Hok Hf. constructor; [congruence| |done|done| |].
  - unfold is_sealed in *. by rewrite Hs.
  - intros H. apply Hn in H as [?|H]; [done|]. apply prefix_length in H. lia.
  - intros p Hp Hpar. apply Hn in Hp as [Hp|Hp]; [by apply R6|]. apply prefix_length in Hp.
    assert (Hl : length parts = S (length (removelast parts))) by (rewrite parts_split at 1; rewrite length_app; cbn; lia).
    rewrite Hl, <-Hpar in Hp. exfalso. destruct p as [|a p]; [|].
    + cbn in Hpar. by apply parent_ne.
    + rewrite <-(parts_app_last (a :: p)) in Hp at 1 by done. rewrite length_app in Hp. cbn in Hp. lia.
Qed.

(** What [write_or_reopen_exact] sees in the directory at each stage. *)

Definition stage_pending (st : stage) : list PendingFile :=
  match st with
  | Partial uuid _ =>
      [{| pf_relative_path := join_slash (removelast parts) ++ 47 :: pend_name (List.last parts []) uuid;
          pf_final_relative_path := relative |}]
  | _ => []
  end.
Definition is_published (st : stage) : bool := match st with Published => true | _ => false end.

Lemma plain_not_pending pr name : plain_name name -> pending_in pr name = None.
Proof.
  intros [_ Hd]. unfold pending_in. destruct (_PENDING_RE name) eqn:E; [|done]. apply pending_re_dot in E. congruence.
Qed.

Lemma plain_component name : _COMPONENT_RE name = true -> plain_name name.
Proof.
  intros Hc. split; [|destruct (starts_with [46] name) eqn:E; [|done]; apply dot_not_component in E; congruence].
  pose proof (component_no_slash _ Hc) as Hs. unfold unsafe_name. rewrite !orb_false_iff. split_and!.
  - apply bool_decide_eq_false. by intros ->.
  - apply not_true_iff_false. intros (x & Hx & Hx')%existsb_exists. apply Z.eqb_eq in Hx' as <-. by apply Hs, list_elem_of_In.
  - apply not_true_iff_false. intros (x & Hx & Hx')%existsb_exists. apply Z.eqb_eq in Hx' as <-.
    unfold _COMPONENT_RE in Hc. destruct name as [|c r]; [done|]. rewrite !andb_true_iff in Hc. destruct Hc as [[Hc Hr] _].
    destruct Hx as [->|Hx]; [done|]. rewrite forallb_forall in Hr. by apply Hr in Hx.
Qed.

Lemma pend_name_safe uuid : uuid_hex uuid -> unsafe_name (pend_name (List.last parts []) uuid) = false.
Proof.
  intros [_ Hh]. destruct (plain_component _ name_component) as [Hs _]. unfold unsafe_name, pend_name in *.
  rewrite !orb_false_iff in *. destruct Hs as [[_ H1] H2]. rewrite forallb_forall in Hh. cbn [app existsb].
  rewrite !existsb_app, H1, H2. cbn. split_and!; try done; apply not_true_iff_false;
    intros (x & Hx & Hx')%existsb_exists; apply Z.eqb_eq in Hx' as <-; by apply Hh in Hx.
Qed.

(** The names of a stage that has no pending file. *)
Lemma listing_plain f st h name :
  base f -> ready f st h -> stage_pending st = [] -> name ∈ listdir (removelast parts) h -> plain_name name.
Proof.
  intros B R Hst [Hn|Hn]%elem_of_listdir.
  - rewrite (rd_files _ _ _ R) in Hn. destruct st as [|uuid n|]; [|done|]; cbn [stage_files] in Hn.
    + apply (bf_plain _ B) in Hn; [|apply removelast_last]. by rewrite last_last in Hn.
    + rewrite lookup_insert in Hn. case_decide as Hp.
      * apply plain_component. rewrite parts_split in Hp at 1. apply app_inj_tail in Hp as [_ <-]. apply name_component.
      * apply (bf_plain _ B) in Hn; [|apply removelast_last]. by rewrite last_last in Hn.
  - apply (rd_dirs _ _ _ R) in Hn; [|apply removelast_last]. by rewrite last_last in Hn.
Qed.
Definition hidden_not_pending (name : str) : bool :=
  negb (bool_decide (is_Some (_PENDING_RE name))) && starts_with [46] name.

Record survey (st : stage) (names : list str) : Prop := {
  sv_safe : existsb unsafe_name names = false;
  sv_hidden : existsb hidden_not_pending names = false;
  sv_pending : omap (pending_in (join_slash (removelast parts))) names = stage_pending st;
  sv_final : existsb (str_eqb (List.last parts [])) names = is_published st
}.

Lemma existsb_none {A} (p : A -> bool) l : (forall x, x ∈ l -> p x = false) -> existsb p l = false.
Proof.
  intros H. apply not_true_iff_false. intros (x & Hx & Hp)%existsb_exists. apply list_elem_of_In in Hx.
  by rewrite H in Hp.
Qed.

Lemma survey_plain f st h :
  base f -> ready f st h -> stage_pending st = [] -> survey st (listdir (removelast parts) h).
Proof.
  intros B R Hst. pose proof (fun name => listing_plain f st h name B R Hst) as Hp. constructor.
  - apply existsb_none. intros x Hx. by apply Hp.
  - apply existsb_none. intros x Hx. unfold hidden_not_pending. destruct (Hp x Hx) as [_ ->]. apply andb_false_r.
  - rewrite Hst. destruct (omap _ _) as [|item l] eqn:O; [done|].
    assert (Hi : item ∈ omap (pending_in (join_slash (removelast parts))) (listdir (removelast parts) h)) by (rewrite O; by left).
    apply list_elem_of_omap in Hi as (x & Hx & Hi). by rewrite plain_not_pending in Hi by (by apply Hp).
  - assert (Hin : List.last parts [] ∈ listdir (removelast parts) h <-> is_Some (stage_files st f !! parts)).
    { rewrite elem_of_listdir, <-parts_split, <-(rd_files _ _ _ R). pose proof (rd_dir _ _ _ R). tauto. }
    destruct st as [|uuid n|]; [|done|]; cbn [is_published stage_files] in *.
    + apply existsb_none. intros x Hx. apply bool_decide_eq_false. intros <-. apply Hin in Hx.
      rewrite (bf_new _ B) in Hx. by destruct Hx.
    + apply existsb_exists. exists (List.last parts []). split; [|by apply bool_decide_eq_true].
      apply list_elem_of_In, Hin. rewrite lookup_insert_eq. eauto.
Qed.

Lemma survey_cons st uuid n names names' :
  survey Absent names -> uuid_hex uuid -> names' ≡ₚ pend_name (List.last parts []) uuid :: names -> st = Partial uuid n ->
  survey st names'.
Proof.
  intros [S1 S2 S3 S4] Hu Hperm ->.
  assert (Hex : forall p : str -> bool, p (pend_name (List.last parts []) uuid) = false -> existsb p names = false -> existsb p names' = false).
  { intros p H1 H2. apply existsb_none. intros x Hx. rewrite Hperm in Hx. apply elem_of_cons in Hx as [->|Hx]; [done|].
    apply not_true_iff_false. intros Hp. rewrite <-not_true_iff_false in H2. apply H2, existsb_exists. exists x.
    by rewrite <-list_elem_of_In. }
  pose proof (pending_re_pend_name _ _ name_component Hu) as Hre. constructor.
  - apply Hex; [by apply pend_name_safe|done].
  - apply Hex; [|done]. unfold hidden_not_pending. by rewrite Hre, bool_decide_true.
  - apply Permutation_singleton_r. rewrite Hperm. cbn [omap list_omap]. rewrite S3. unfold pending_in. rewrite Hre. cbn.
    by rewrite <-relative_join.
  - apply Hex; [|done]. apply bool_decide_eq_false. intros Hn. pose proof name_component as Hc. rewrite Hn in Hc.
    unfold pend_name in Hc. done.
Qed.

Lemma survey_ready f st h : base f -> ready f st h -> survey st (listdir (removelast parts) h).
Proof.
  intros B R. destruct st as [|uuid n|]; [by eapply survey_plain| |by eapply survey_plain].
  assert (R0 : ready f Absent (with_files f h)) by (destruct R; by constructor).
  eapply survey_cons; [by eapply survey_plain|by apply (rd_stage _ _ _ R)| |done].
  eapply listdir_insert; [done| |by apply R|done]. by apply base_no_pending.
Qed.

(** ** An interrupted attempt *)

Definition at_stage (f : gmap path bytes) (h : host) : Prop :=
  exists st, stage_ok st /\ h_files h = stage_files st f.

Lemma ready_at_stage f st h : ready f st h -> at_stage f h.
Proof. intros R. exists st. split; apply R. Qed.

Lemma write_from_absent E f h o h' :
  base f -> (forall n, uuid_hex (e_uuid E n)) -> h_files h = f ->
  write_bytes E relative data maximum h = (o, h') -> at_stage f h'.
Proof.
  intros B Hu Hf W. apply write_bytes_cases in W as [[Hf' _] | (parts' & n & Hp & _ & _ & _ & P & _)].
  { exists Absent. by rewrite Hf', Hf. }
  rewrite Hparts in Hp. injection Hp as <-. rewrite Hf in P. destruct P as [Hf' | Hf' | k _ Hf' | _ Hf'].
  - by exists Absent.
  - exists Absent. split; [done|]. cbn. rewrite Hf', delete_id; [done|]. by apply base_no_pending.
  - exists (Partial (e_uuid E n) k). split; [apply Hu|done].
  - by exists Published.
Qed.

(** The pending file of an interrupted attempt, as the directory reports it. *)
Definition candidate (uuid : str) : PendingFile :=
  {| pf_relative_path := join_slash (removelast parts) ++ 47 :: pend_name (List.last parts []) uuid;
     pf_final_relative_path := relative |}.

Lemma candidate_path uuid : uuid_hex uuid -> split_slash (pf_relative_path (candidate uuid)) = pend_path parts uuid.
Proof.
  intros Hu. apply split_pending; [apply parent_ne|apply parent_no_slash|]. by apply safe_no_slash, pend_name_safe.
Qed.
Lemma candidate_final uuid : split_slash (pf_final_relative_path (candidate uuid)) = parts.
Proof. by destruct (relative_parts_ok _ _ Hparts) as [-> _]. Qed.

Lemma discard_candidate_stage E f uuid n h o h' :
  base f -> ready f (Partial uuid n) h -> discard_pending E (candidate uuid) h = (o, h') ->
  at_stage f h' /\ (o = Ret () -> h_files h' = f).
Proof.
  intros B R D. pose proof (rd_stage _ _ _ R : uuid_hex uuid) as Hu. pose proof (rd_files _ _ _ R) as Hf.
  apply discard_pending_cases in D as [[Hf' Ho] | [Hf' _]].
  - split; [|done]. exists (Partial uuid n). by rewrite Hf', Hf.
  - rewrite candidate_path, Hf in Hf' by done. cbn [stage_files] in Hf'.
    rewrite delete_insert_id in Hf' by (by apply base_no_pending). split; [by exists Absent|done].
Qed.

Lemma publish_candidate_stage E f uuid n h o h' :
  base f -> ready f (Partial uuid n) h -> take n data = data -> publish_pending E (candidate uuid) h = (o, h') ->
  at_stage f h' /\ (o = Ret () -> h_files h' = stage_files Published f).
Proof.
  intros B R Hn D. pose proof (rd_stage _ _ _ R : uuid_hex uuid) as Hu. pose proof (rd_files _ _ _ R) as Hf.
  apply publish_pending_cases in D. cbv zeta in D. rewrite candidate_path, candidate_final, Hf in D by done.
  cbn [stage_files] in D. rewrite lookup_insert_eq, Hn in D. destruct D as [[Hf' Ho] | (d & [= <-] & _ & _ & _ & _ & Hf')].
  - split; [|done]. exists (Partial uuid n). cbn [stage_files]. by rewrite Hn, Hf'.
  - rewrite delete_insert_id in Hf' by (by apply base_no_pending). split; [by exists Published|done].
Qed.

Lemma exact_body_stage E f st h o h' :
  base f -> (forall n, uuid_hex (e_uuid E n)) -> ready f st h ->
  write_or_reopen_exact E relative data maximum h = (o, h') -> at_stage f h'.
Proof.
  intros B Hu R W. pose proof (ready_at_stage _ _ _ R) as A. unfold write_or_reopen_exact in W. rewrite Hparts in W.
  apply bind_reads in W as [([] & _ & W) | [-> _]]; [|done|apply require_mutable_reads].
  apply bind_result in W as [(? & [= <-] & W) | [-> _]]; [|done].
  apply bind_check in W as [[_ W] | [-> _]]; [|done]. apply bind_check in W as [[_ W] | [-> _]]; [|done]. cbv zeta in W.
  apply bind_within with (R := fun h h' => ready f st h -> ready f st h') in W as [([] & h1 & _ & R1 & W) | [R1 _]].
  2: by eapply ready_at_stage, R1.
  2: { intros h0 R0. eapply grown_ready; [apply open_relative_grown|done|apply R0|].
       rewrite (do_files _ _ (open_relative_within E (removelast parts) true h0)). apply R0. }
  specialize (R1 R). clear h R A. pose proof (ready_at_stage _ _ _ R1) as A.
  apply bind_reads in W as [(names & Hnames & W) | [-> _]]; [|done|apply within_gets; apply _]. injection Hnames as <-.
  destruct (survey_ready f st h1 B R1) as [_ _ SP SF].
  do 2 (apply bind_check in W as [[_ W] | [-> _]]; [|done]). rewrite SP, SF in W.
  apply bind_check in W as [[_ W] | [-> _]]; [|done].
  assert (ReadsOnly : forall B (m : M host B) o h', reads m -> m h1 = (o, h') -> at_stage f h').
  { intros B' m o' h2 Hr Hm. by rewrite (reads_state _ _ _ _ Hr Hm). }
  destruct st as [|uuid n|]; cbn [is_published stage_pending List.filter pf_final_relative_path] in W.
  - apply bind_check in W as [[_ W] | [-> _]]; [|done].
    apply bind_within with (R := fun h h' => h_files h = f -> at_stage f h') in W as [(r & h2 & _ & R2 & W) | [R2 _]].
    + apply bind_check in W as [[_ W] | [-> _]]; [injection W as _ <-|]; apply R2, R1.
    + apply R2, R1.
    + intros h0 Hf. destruct (write_bytes E relative data maximum h0) as [o0 h0'] eqn:W0. by eapply write_from_absent.
  - rewrite (proj2 (bool_decide_eq_true (relative = relative)) eq_refl : str_eqb relative relative = true) in W. apply bind_check in W as [[_ W] | [-> _]]; [|done].
    fold (candidate uuid) in W. apply bind_reads in W as [(fr & H2 & W) | [-> _]]; [|done|apply read_pending_fragment_reads].
    apply read_fragment_ret in H2 as [_ HF]. rewrite candidate_path, (rd_files _ _ _ R1) in HF by apply R1.
    cbn [stage_files] in HF. rewrite lookup_insert_eq in HF. injection HF as <-.
    case_bool_decide as Hd.
    + apply bind_cases in W as [([] & h2 & H2 & W) | [(e & H2 & ->) | [H2 ->]]];
        apply (publish_candidate_stage _ f uuid n) in H2 as [A2 _]; try done.
      by rewrite (reads_state _ _ _ _ (verify_exact_reads E _ _ _) W).
    + apply bind_check in W as [[_ W] | [-> _]]; [|done].
      apply bind_cases in W as [([] & h2 & H2 & W) | [(e & H2 & ->) | [H2 ->]]];
        apply (discard_candidate_stage _ f uuid n) in H2 as [A2 F2]; try done.
      specialize (F2 eq_refl).
      apply bind_cases in W as [(r & h3 & H3 & W) | [(e & H3 & ->) | [H3 ->]]]; apply (write_from_absent E f) in H3; try done.
      apply bind_check in W as [[_ W] | [-> _]]; [by injection W as _ <-|done].
  - refine (ReadsOnly _ _ _ _ _ W). within_auto; eauto using verify_exact_reads with pyres.
Qed.

Lemma exact_interrupted E f st h :
  base f -> (forall n, uuid_hex (e_uuid E n)) -> ready f st h ->
  exists st', ready f st' (snd (write_or_reopen_exact E relative data maximum h)).
Proof.
  intros B Hu R. destruct (write_or_reopen_exact E relative data maximum h) as [o h'] eqn:W.
  destruct (exact_body_stage E f st h o h' B Hu R W) as (st' & Hok & Hf). exists st'.
  eapply grown_ready; [|exact R|done|done]. exact (within_run _ _ _ _ _ (write_or_reopen_exact_grown E _ _ _ _ Hparts) W).
Qed.

(** ** An attempt that is not interrupted *)

Section Calm.
Context (E : env) (calm : forall n, e_fault E n = Proceed).

Lemma read_calm b h (Q : bytes -> host -> Prop) :
  h_open h = true -> way_open (removelast parts) h -> h_files h !! parts = Some b -> 1 <= len b <= maximum -> Q b h ->
  returns (read_bytes E relative maximum) h Q.
Proof.
  intros Ho Hw Hb Hl HQ. apply returns_bind, returns_bind. eapply returns_of_result; [exact Hparts|].
  apply returns_bind, way_returns; [done|done|]. apply returns_ret. rewrite <-parts_split.
  apply returns_bind. eapply existing_calm; [exact Hb|]. by apply read_opened_calm.
Qed.

Lemma mutable_calm h (Q : () -> host -> Prop) : is_sealed parts h = false -> Q () h -> returns (_require_mutable relative) h Q.
Proof.
  intros Hs HQ. apply returns_bind. eapply returns_of_result; [exact Hparts|]. apply returns_bind, returns_gets.
  by apply returns_check.
Qed.

Hypothesis Hdata : data <> [].
Hypothesis Hmax : len data <= maximum.

Lemma data_bounds : 1 <= len data <= maximum.
Proof. split; [|done]. destruct data; [done|]. unfold len. cbn [length]. lia. Qed.

Lemma verify_calm h (Q : ArchivedFile -> host -> Prop) :
  h_open h = true -> way_open (removelast parts) h -> h_files h !! parts = Some data -> Q (archived relative data) h ->
  returns (_verify_exact_descriptor E relative (archived relative data) maximum) h Q.
Proof.
  intros Ho Hw Hf HQ. apply returns_bind, returns_bind. eapply read_calm; [done|done|exact Hf|apply data_bounds|].
  apply returns_ret, returns_bind, returns_check; [|by apply returns_ret]. by rewrite bool_decide_true.
Qed.

Lemma plain_absent f st uuid h : ready f st h -> present (pend_path parts uuid) h = is_file (pend_path parts uuid) h.
Proof.
  intros R. unfold present, is_dir. rewrite (bool_decide_false _), orb_false_r; [done|]. intros Hd.
  apply (rd_dirs _ _ _ R) in Hd as [_ Hd]; [|apply pend_path_parent]. by rewrite pend_path_dot in Hd.
Qed.

Lemma not_present p h : h_files h !! p = None -> p ∉ h_dirs h -> present p h = false.
Proof.
  intros Hf Hd. unfold present, is_file, is_dir. rewrite Hf, !bool_decide_false; [done|done|by intros []].
Qed.

Lemma publish_calm f uuid h :
  base f -> ready f Absent h -> returns (publish E (pend_path parts uuid) parts data) h (fun _ _ => True).
Proof.
  intros B R. pose proof (base_no_pending f uuid B) as Hno.
  assert (Hne : pend_path parts uuid <> parts).
  { apply pend_path_ne; [|apply parts_ne]. by destruct (relative_parts_ok _ _ Hparts) as (_ & _ & ?). }
  apply returns_try, returns_bind, returns_bind, returns_gets, returns_bind, returns_check.
  { rewrite (plain_absent _ _ _ _ R). unfold is_file. rewrite (rd_files _ _ _ R). cbn.
    rewrite bool_decide_false; [done|]. rewrite Hno. by intros []. }
  apply (syscall_calm E calm), returns_bind, (write_all_calm E calm), returns_bind, (syscall_calm E calm). cbn.
  apply returns_bind, returns_gets, returns_bind, returns_check; [|by apply (syscall_calm E calm)].
  apply not_present; cbn; [|apply R]. rewrite !lookup_insert_ne by done. rewrite (rd_files _ _ _ R). apply B.
Qed.

Lemma prefix_no_file f st p : base f -> p ∈ prefixes (removelast parts) -> stage_files st f !! p = None.
Proof.
  intros B Hp. pose proof (prefix_length _ Hp) as Hl. pose proof (bf_path _ B p Hp) as Hf.
  destruct st as [|uuid n|]; cbn [stage_files]; [done| |]; rewrite lookup_insert_ne; try done; intros <-; [|lia].
  rewrite pend_path_name in Hl. rewrite parts_split in Hl at 3. rewrite !length_app in Hl. cbn in Hl. lia.
Qed.

Lemma make_way_ready f st h :
  base f -> ready f st h ->
  returns (_open_relative_directory E (removelast parts) true) h
    (fun _ h' => ready f st h' /\ way_open (removelast parts) h').
Proof.
  intros B R. eapply returns_mono.
  { apply (returns_within (grown (prefixes (removelast parts)))); [apply open_relative_grown|].
    apply (make_way E calm); [apply R|]. intros p Hp. rewrite (rd_files _ _ _ R). by apply prefix_no_file. }
  intros [] h' [[D Hw] G]. split; [|done]. eapply grown_ready; [done|done|apply R|]. rewrite (do_files _ _ D). apply R.
Qed.

Lemma verify_published_calm h :
  h_files h !! parts = Some data ->
  returns (_verify_published_at parts maximum (archived relative data)) h (fun r _ => r = archived relative data).
Proof.
  intros Hf. apply returns_bind. eapply existing_calm; [exact Hf|]. apply returns_bind, read_opened_calm; [apply data_bounds|].
  apply returns_bind, returns_check; [by rewrite bool_decide_true|]. by apply returns_ret.
Qed.

Lemma write_calm f h :
  base f -> ready f Absent h -> returns (write_bytes E relative data maximum) h (fun r _ => r = archived relative data).
Proof.
  intros B R. rewrite write_bytes_unfold. apply returns_bind, mutable_calm; [apply R|].
  pose proof data_bounds as [_ Hm]. apply returns_bind, returns_check.
  { rewrite bool_decide_false by done. by apply Z.ltb_ge. }
  apply returns_bind, returns_bind. eapply returns_of_result; [exact Hparts|].
  apply returns_bind. eapply returns_mono; [by apply make_way_ready|].
  intros [] h1 [R1 _]. apply returns_ret, returns_bind, returns_bind, returns_gets, returns_ret, returns_bind.
  rewrite <-parts_split.
  change ([46] ++ List.last parts [] ++ u ".pending-" ++ e_uuid E (h_step h1)) with (pend_name (List.last parts []) (e_uuid E (h_step h1))).
  rewrite <-pend_path_name. destruct (publish_calm f (e_uuid E (h_step h1)) h1 B R1) as ([] & h2 & H2 & _).
  exists (), h2. split; [done|]. apply publish_cases in H2 as [_ H2].
  2: { apply pend_path_ne; [|apply parts_ne]. by destruct (relative_parts_ok _ _ Hparts) as (_ & _ & ?). }
  destruct (H2 eq_refl) as [_ Hf2]. apply returns_bind, (syscall_calm E calm), verify_published_calm. cbn. by rewrite Hf2, lookup_insert_eq.
Qed.

Lemma candidate_pending_path uuid h (Q : path * str -> host -> Prop) :
  uuid_hex uuid -> Q (pend_path parts uuid, List.last parts []) h -> returns (pending_path (candidate uuid)) h Q.
Proof.
  intros Hu HQ. unfold pending_path. cbv zeta. rewrite candidate_path by done. apply returns_bind.
  eapply returns_of_option; [|by apply returns_ret]. rewrite pend_path_name, last_last.
  apply pending_re_pend_name; [apply name_component|done].
Qed.

Lemma fragment_calm f uuid n h :
  ready f (Partial uuid n) h -> way_open (removelast parts) h ->
  returns (read_pending_fragment E (candidate uuid) maximum) h (fun b h' => b = take n data /\ h' = h).
Proof.
  intros R Hw. apply returns_bind, candidate_pending_path; [apply R|]. rewrite pend_path_parent.
  apply returns_bind, way_returns; [apply R|done|]. apply returns_bind.
  eapply existing_calm; [by rewrite (rd_files _ _ _ R); cbn; rewrite lookup_insert_eq|].
  apply returns_bind, returns_check; [|by apply returns_ret]. apply Z.ltb_ge. pose proof data_bounds.
  unfold len in *. rewrite length_take. lia.
Qed.

Lemma discard_calm f uuid n h :
  ready f (Partial uuid n) h -> way_open (removelast parts) h ->
  returns (discard_pending E (candidate uuid)) h (fun _ _ => True).
Proof.
  intros R Hw. apply returns_bind, mutable_calm; [apply R|]. apply returns_bind, candidate_pending_path; [apply R|].
  rewrite pend_path_parent. apply returns_bind, way_returns; [apply R|done|]. apply returns_bind.
  eapply existing_calm; [by rewrite (rd_files _ _ _ R); cbn; rewrite lookup_insert_eq|].
  by apply returns_bind, (syscall_calm E calm), (syscall_calm E calm).
Qed.

Lemma publish_candidate_calm f uuid n h :
  base f -> ready f (Partial uuid n) h -> way_open (removelast parts) h ->
  returns (publish_pending E (candidate uuid)) h (fun _ _ => True).
Proof.
  intros B R Hw. apply returns_bind, mutable_calm; [apply R|]. cbv zeta.
  rewrite candidate_path, candidate_final by apply R. apply returns_bind, returns_check.
  { apply negb_false_iff, bool_decide_eq_true. split; [|apply pend_path_parent]. rewrite pend_path_name, last_last.
    apply pending_re_pend_name; [apply name_component|apply R]. }
  rewrite pend_path_parent. apply returns_bind, way_returns; [apply R|done|]. apply returns_bind.
  eapply existing_calm; [by rewrite (rd_files _ _ _ R); cbn; rewrite lookup_insert_eq|].
  apply returns_bind, returns_bind, returns_gets, returns_bind, returns_check.
  { apply not_present; [|apply R]. rewrite (rd_files _ _ _ R). cbn. rewrite lookup_insert_ne; [apply B|].
    apply pend_path_ne; [|apply parts_ne]. by destruct (relative_parts_ok _ _ Hparts) as (_ & _ & ?). }
  by apply (syscall_calm E calm), (syscall_calm E calm).
Qed.

Lemma exact_calm_returns f st h :
  base f -> ready f st h -> returns (write_or_reopen_exact E relative data maximum) h (fun _ _ => True).
Proof.
  intros B R. apply returns_bind, mutable_calm; [apply R|]. apply returns_bind. eapply returns_of_result; [exact Hparts|].
  pose proof data_bounds as [_ Hm].
  apply returns_bind, returns_check; [by apply Nat.ltb_ge|]. apply returns_bind, returns_check.
  { rewrite bool_decide_false by done. by apply Z.ltb_ge. }
  cbv zeta. apply returns_bind. eapply returns_mono; [by apply make_way_ready|]. clear h R. intros [] h [R Hw].
  apply returns_bind, returns_gets. destruct (survey_ready f st h B R) as [S1 S2 S3 S4]. rewrite S3, S4.
  apply returns_bind, returns_check; [done|]. apply returns_bind, returns_check; [exact S2|].
  apply returns_bind, returns_check; [by destruct st|].
  assert (Hrr : str_eqb relative relative = true) by (by apply bool_decide_eq_true).
  assert (Hfin : forall h', ready f Published h' -> way_open (removelast parts) h' ->
    returns (_verify_exact_descriptor E relative (archived relative data) maximum) h' (fun _ _ => True)).
  { intros h' R' Hw'. apply verify_calm; [apply R'|done| |done]. rewrite (rd_files _ _ _ R'). apply lookup_insert_eq. }
  assert (Hwr : forall h', ready f Absent h' -> returns (record ← write_bytes E relative data maximum;
      check (negb (bool_decide (record = archived relative data))) (ArchiveError "archive_publish_mismatch") ≫= fun _ =>
      mret record) h' (fun _ _ => True)).
  { intros h' R'. apply returns_bind. eapply returns_mono; [by eapply write_calm|]. intros r h2 ->.
    apply returns_bind, returns_check; [by rewrite bool_decide_true|]. by apply returns_ret. }
  destruct st as [|uuid n|]; cbn [is_published stage_pending List.filter pf_final_relative_path].
  - apply returns_bind, returns_check; [done|]. by apply Hwr.
  - rewrite Hrr. apply returns_bind, returns_check; [by rewrite andb_false_r|]. fold (candidate uuid). apply returns_bind.
    eapply returns_mono; [by eapply fragment_calm|]. intros b h' [-> ->].
    assert (Hg : forall m o h2, within (grown (prefixes (removelast parts))) m -> m h = (o : outcome (), h2) ->
      forall st', stage_ok st' -> h_files h2 = stage_files st' f -> ready f st' h2 /\ way_open (removelast parts) h2).
    { intros m o h2 G Hm2 st' Hok Hf. specialize (G h). rewrite Hm2 in G. split; [by eapply grown_ready|].
      intros p Hp. by apply (gr_dirs _ _ _ G), Hw. }
    case_bool_decide as Hn.
    + apply returns_bind. destruct (publish_candidate_calm f uuid n h B R Hw) as ([] & h2 & H2 & _). exists (), h2. split; [done|].
      destruct (publish_candidate_stage E f uuid n h _ h2 B R Hn H2) as [_ Hf].
      destruct (Hg _ _ _ (proj2 (pending_ops_grown E _ _)) H2 Published I (Hf eq_refl)). by apply Hfin.
    + apply returns_bind, returns_check; [apply negb_false_iff, bool_decide_eq_true, prefix_take|]. apply returns_bind.
      destruct (discard_calm f uuid n h R Hw) as ([] & h2 & H2 & _). exists (), h2. split; [done|].
      destruct (discard_candidate_stage E f uuid n h _ h2 B R H2) as [_ Hf].
      destruct (Hg _ _ _ (proj1 (pending_ops_grown E _ _)) H2 Absent I (Hf eq_refl)). by apply Hwr.
  - apply returns_bind. eapply read_calm; [apply R|done| |apply data_bounds|].
    + rewrite (rd_files _ _ _ R). apply lookup_insert_eq.
    + apply returns_bind, returns_check; [by rewrite bool_decide_true|]. apply returns_bind, returns_ret. by apply Hfin.
Qed.

Lemma exact_calm f st h :
  base f -> (forall n, uuid_hex (e_uuid E n)) -> ready f st h ->
  exists h', write_or_reopen_exact E relative data maximum h = (Ret (archived relative data), h') /\
    h_files h' = <[parts := data]> f.
Proof.
  intros B Hu R. destruct (exact_calm_returns f st h B R) as (r & h' & H & _). exists h'.
  destruct (write_or_reopen_exact_ret _ _ _ _ _ _ _ H) as (parts' & Hp & Hf & ->). rewrite Hparts in Hp. injection Hp as <-.
  split; [done|]. destruct (exact_body_stage E f st h _ h' B Hu R H) as (st' & Hok & Hf'). rewrite Hf' in Hf.
  destruct st' as [|uuid n|]; cbn [stage_files] in *; [by rewrite (bf_new _ B) in Hf| |done].
  rewrite lookup_insert_ne, (bf_new _ B) in Hf; [done|]. apply pend_path_ne; [|apply parts_ne].
  by destruct (relative_parts_ok _ _ Hparts) as (_ & _ & ?).
Qed.
End Calm.
End Repeat.

(** ** Any number of attempts *)

(** A file that can be written for the first time: a path of at least two
    components that is not sealed, data within the bound, nothing of that name,
    no hidden or unsafe name beside it, and no file where its directories are. *)
Record writable (relative : str) (data : bytes) (maximum : Z) (parts : path) (h : host) : Prop := {
  wr_parts : _relative_parts relative = Ok parts;
  wr_length : (2 <= length parts)%nat;
  wr_data : data <> [];
  wr_bound : len data <= maximum;
  wr_open : h_open h = true;
  wr_mutable : is_sealed parts h = false;
  wr_no_file : h_files h !! parts = None;
  wr_no_dir : parts ∉ h_dirs h;
  wr_beside : forall name, name ∈ listdir (removelast parts) h -> plain_name name;
  wr_way : forall p, p ∈ prefixes (removelast parts) -> h_files h !! p = None
}.

(** Attempts at the same write, each finished, failed or killed in an
    environment of its own, with the archive opened again in between or not. *)
Inductive attempts (relative : str) (data : bytes) (maximum : Z) : host -> host -> Prop :=
  | attempts_none h : attempts relative data maximum h h
  | attempts_write h E h' :
      (forall n, uuid_hex (e_uuid E n)) ->
      attempts relative data maximum (snd (write_or_reopen_exact E relative data maximum h)) h' ->
      attempts relative data maximum h h'
  | attempts_open h root h' :
      attempts relative data maximum (snd (archive_open root h)) h' -> attempts relative data maximum h h'.

Lemma writable_ready relative data maximum parts h :
  writable relative data maximum parts h -> base parts (h_files h) /\ ready data parts (h_files h) Absent h.
Proof.
  intros W. pose proof (parent_ne _ (wr_length _ _ _ _ _ W)) as Hne.
  assert (Hb : forall p, is_Some (h_files h !! p) \/ p ∈ h_dirs h -> removelast p = removelast parts -> plain_name (List.last p [])).
  { intros p Hp Hr. assert (Hp0 : p <> []) by (intros ->; by symmetry in Hr). apply (wr_beside _ _ _ _ _ W).
    apply elem_of_listdir. by rewrite <-Hr, (parts_app_last p Hp0). }
  split; constructor; try (apply W; fail); try done; intros p Hp; apply Hb; auto.
Qed.

Lemma archive_open_ready data parts f st root h :
  ready data parts f st h -> ready data parts f st (snd (archive_open root h)).
Proof.
  intros R. unfold archive_open, mbind, M_bind, of_result, gets, check. destruct (_relative_parts root); [|done].
  cbn. destruct (h_root h); [|done]. destruct R. by constructor.
Qed.

Lemma attempts_ready relative data maximum parts f h h' :
  _relative_parts relative = Ok parts -> (2 <= length parts)%nat -> base parts f ->
  attempts relative data maximum h h' -> (exists st, ready data parts f st h) -> exists st, ready data parts f st h'.
Proof.
  intros Hp Hl B. induction 1 as [h|h E h' Hu _ IH|h root h' _ IH]; intros [st R]; [by exists st| |].
  - apply IH. by eapply exact_interrupted.
  - apply IH. exists st. by apply archive_open_ready.
Qed.

(** C29: the repeatable write can always be finished.  From a host where a file
    can be written, after any number of attempts at that write, each of them
    failed or killed at any system call, the next attempt that meets no failure
    returns the file's descriptor, and then the archive holds what it held at
    the beginning and that file: no pending file is left and nothing else has
    changed. *)
Theorem interrupted_write_completes relative data maximum parts h h1 E :
  writable relative data maximum parts h -> attempts relative data maximum h h1 ->
  (forall n, e_fault E n = Proceed) -> (forall n, uuid_hex (e_uuid E n)) ->
  exists h2, write_or_reopen_exact E relative data maximum h1 = (Ret (archived relative data), h2) /\
    h_files h2 = <[parts := data]> (h_files h).
Proof.
  intros W A HE Hu. destruct (writable_ready _ _ _ _ _ W) as [B R].
  destruct (attempts_ready _ _ _ _ _ _ _ (wr_parts _ _ _ _ _ W) (wr_length _ _ _ _ _ W) B A) as [st R1]; [by eexists|].
  destruct W. by eapply exact_calm.
Qed.

(** An environment with one pending name. *)
Definition zero_env (f : nat -> fault) : env := Env f (fun _ => replicate 32 48) (fun _ => DateTime 2026 1 2 3 4 5).

Lemma interrupted_write_completes_witness :
  let write E := write_or_reopen_exact E (u "journal/00000002.json") (bstr "two") 100 in
  let dies := zero_env (fun n => if (n =? 1)%nat then Crashes 2 else Proceed) in
  exists h2,
    write (zero_env (fun _ => Proceed)) (snd (archive_open (u "session") (snd (write dies demo_host)))) =
      (Ret (archived (u "journal/00000002.json") (bstr "two")), h2) /\
    h_files h2 = <[[u "journal"; u "00000002.json"] := bstr "two"]> (h_files demo_host).
Proof.
  cbv zeta. apply (interrupted_write_completes (u "journal/00000002.json") (bstr "two") 100 [u "journal"; u "00000002.json"]
    demo_host _ (zero_env (fun _ => Proceed))).
  - constructor; try (vm_compute; reflexivity); try (vm_compute; lia); try done; try (vm_compute; discriminate).
    + intros name Hn. assert (L : listdir (removelast [u "journal"; u "00000002.json"]) demo_host = [u "00000001.json"]) by (vm_compute; reflexivity).
      rewrite L in Hn. apply list_elem_of_singleton in Hn as ->. split; vm_compute; reflexivity.
    + intros p Hp. apply list_elem_of_singleton in Hp as ->. vm_compute. reflexivity.
  - apply attempts_write with (E := zero_env (fun n => if (n =? 1)%nat then Crashes 2 else Proceed)); [intros n; by split|].
    apply (attempts_open _ _ _ _ (u "session")). apply attempts_none.
  - intros n. reflexivity.
  - intros n. by split.
Defined.
