(* ===== verification/Observation.v ===== *)
(** * The observation manifest

    src/scripts/physical_capture/observation.py: the artifact descriptors, the
    manifest that binds every observation by subject, kind, path, size and
    digest, its publication and its verification against the archive; with
    [parse_descriptor] of src/scripts/harness/raw_artifacts.py.  The producer
    boundary ([ObservationCapture]) is modelled up to the commands it runs, which
    are processes. *)

From S2P Require Import Prelude Sha256 Text Json DateTime Effects Archive.

(** ** Artifact descriptors *)

Record ArtifactKindSpec := { ak_suffix : str; ak_maximum_bytes : Z }.

Definition MiB : Z := 1024 * 1024.
Definition REPORT_MAX_BYTES : Z := 1 * MiB.

Definition ARTIFACT_KINDS : list (str * ArtifactKindSpec) :=
  map (fun '(kind, suffix, maximum) => (u kind, {| ak_suffix := u suffix; ak_maximum_bytes := maximum |}))
  [("physical-aggregate", ".json", 8 * MiB);
   ("packet-report", ".json", REPORT_MAX_BYTES);
   ("lifecycle-report", ".json", REPORT_MAX_BYTES);
   ("performance-report", ".json", REPORT_MAX_BYTES);
   ("adversarial-report", ".json", REPORT_MAX_BYTES);
   ("packet-pcap", ".pcap", 32 * MiB);
   ("packet-pcapng", ".pcapng", 32 * MiB);
   ("packet-product-state-observation", ".json", MiB);
   ("packet-capture-provenance", ".json", 256 * 1024);
   ("packet-send-attempt", ".json", 256 * 1024);
   ("lifecycle-observation", ".json", MiB);
   ("lifecycle-event", ".json", MiB);
   ("renderer-ready-trace", ".json", MiB);
   ("network-extension-trace", ".json", MiB);
   ("sleep-wake-trace", ".json", MiB);
   ("wkwebview-metadata", ".json", 256 * 1024);
   ("wkwebview-rgba", ".rgba", 16 * MiB);
   ("performance-sample-ledger", ".json", 64 * MiB);
   ("performance-shaping-transaction", ".json", 16 * MiB);
   ("adversarial-case-observation", ".json", MiB);
   ("adversarial-secret-coverage", ".json", MiB);
   ("adversarial-signature-observation", ".json", 256 * 1024);
   ("adversarial-transcript", ".json", MiB)]%string.

Fixpoint assoc {A} (l : list (str * A)) (k : str) : option A :=
  match l with
  | [] => None
  | (k', a) :: l => if str_eqb k' k then Some a else assoc l k
  end.

Record ArtifactDescriptor := { ad_kind : str; ad_path : str; ad_size : Z; ad_sha256 : str }.

#[export] Instance ArtifactDescriptor_eq_decision : EqDecision ArtifactDescriptor.
Proof. solve_decision. Defined.

Definition descriptor_as_dict (d : ArtifactDescriptor) : json :=
  JObj [(u "kind", JStr (ad_kind d)); (u "path", JStr (ad_path d)); (u "size", JInt (ad_size d));
        (u "sha256", JStr (ad_sha256 d))].

Definition DESCRIPTOR_FIELDS : list str := [u "kind"; u "path"; u "size"; u "sha256"].

Definition ends_with (suffix s : str) : bool := bool_decide (suffix `suffix_of` s).

(** [parse_descriptor] with every kind allowed; [None] is [RawArtifactError]. *)
Definition parse_descriptor (value : json) : option ArtifactDescriptor :=
  raw ← exact_object value DESCRIPTOR_FIELDS;
  match obj_get raw (u "kind"), obj_get raw (u "path"), obj_get raw (u "size"), obj_get raw (u "sha256") with
  | Some (JStr kind), Some (JStr p), Some (JInt size), Some (JStr sha) =>
      spec ← assoc ARTIFACT_KINDS kind;
      if bool_decide (p = []) || existsb (Z.eqb 92) p then None
      else
        encoded ← utf8_encode p;
        if (512 <? len encoded) || negb (forallb _COMPONENT_RE (split_slash p)) ||
           negb (ends_with (ak_suffix spec) p) || (size <? 1) || (ak_maximum_bytes spec <? size) || negb (is_sha256 sha)
        then None
        else Some {| ad_kind := kind; ad_path := p; ad_size := size; ad_sha256 := sha |}
  | _, _, _, _ => None
  end.

(** ** Observations *)

Definition OBSERVATION_MANIFEST_RELATIVE : str := u "raw/observation-manifest.json".
Definition OBSERVATION_MANIFEST_DOCUMENT : str := u "cfw-physical-observation-manifest-v1".
Definition OBSERVATION_MANIFEST_SCHEMA_VERSION : Z := 1.
Definition MAX_OBSERVATIONS : Z := 512.
Definition MAX_MANIFEST_BYTES : Z := MiB.

Definition OBSERVATION_HARNESSES : list str := [u "adversarial"; u "lifecycle"; u "packet"; u "performance"].
Definition observation_directory (harness : str) : str := u "raw/" ++ harness ++ u "/observations".
Definition OBSERVATION_DIRECTORIES : list str := map observation_directory OBSERVATION_HARNESSES.

Record ObservationArtifact := { oa_subject : str; oa_descriptor : ArtifactDescriptor }.
#[export] Instance ObservationArtifact_eq_decision : EqDecision ObservationArtifact.
Proof. solve_decision. Defined.

Definition as_entry (o : ObservationArtifact) : json :=
  JObj [(u "subject", JStr (oa_subject o)); (u "descriptor", descriptor_as_dict (oa_descriptor o))].

Record ObservationManifest := { om_record : ArchivedFile; om_observations : list ObservationArtifact }.
Definition root_sha256 (m : ObservationManifest) : str := af_sha256 (om_record m).

Definition is_subject_start (c : Z) : bool := is_digit c || ((97 <=? c) && (c <=? 122)).
(** [^[a-z0-9][a-z0-9._:-]{0,127}$]. *)
Definition _SUBJECT_RE (s : str) : bool :=
  match s with
  | [] => false
  | c :: r =>
      is_subject_start c &&
      forallb (fun c => is_subject_start c || (c =? 46) || (c =? 95) || (c =? 58) || (c =? 45)) r &&
      (length r <=? 127)%nat
  end.

Definition _subject (value : json) : result pyexn str :=
  match value with
  | JStr s => if _SUBJECT_RE s then Ok s else Err (ObservationError "invalid_observation_subject")
  | _ => Err (ObservationError "invalid_observation_subject")
  end.

Definition _validate_observation_path (p : str) : result pyexn () :=
  match split_slash p with
  | [raw; harness; observations; _] =>
      if str_eqb raw (u "raw") && existsb (str_eqb harness) OBSERVATION_HARNESSES &&
         str_eqb observations (u "observations")
      then Ok () else Err (ObservationError "invalid_observation_path")
  | _ => Err (ObservationError "invalid_observation_path")
  end.

Definition _parse_artifact (subject descriptor : json) : result pyexn ObservationArtifact :=
  s ← _subject subject;
  match parse_descriptor descriptor with
  | None => Err (ObservationError "invalid_observation_descriptor")
  | Some parsed =>
      _validate_observation_path (ad_path parsed) ≫= fun _ =>
      Ok {| oa_subject := s; oa_descriptor := parsed |}
  end.

Definition _validate_declared_artifact (subject kind relative : str) : result pyexn () :=
  _ ← _parse_artifact (JStr subject)
        (JObj [(u "kind", JStr kind); (u "path", JStr relative); (u "size", JInt 1);
               (u "sha256", JStr (replicate 64 48))]);
  Ok ().

Definition _maximum_for_kind (kind : str) (maximum : option Z) : result pyexn Z :=
  match assoc ARTIFACT_KINDS kind with
  | None => Err (ObservationError "invalid_observation_kind")
  | Some spec =>
      let selected := default (ak_maximum_bytes spec) maximum in
      if (selected <? 1) || (ak_maximum_bytes spec <? selected)
      then Err (ObservationError "invalid_observation_bound") else Ok selected
  end.

(** Observations in subject and path order. *)
Definition obs_le (a b : ObservationArtifact) : Prop :=
  (str_leb (oa_subject a) (oa_subject b) &&
   (negb (str_eqb (oa_subject a) (oa_subject b)) || str_leb (ad_path (oa_descriptor a)) (ad_path (oa_descriptor b)))) = true.
#[export] Instance obs_le_dec a b : Decision (obs_le a b).
Proof. unfold obs_le. apply _. Defined.
Definition sort_observations (l : list ObservationArtifact) : list ObservationArtifact := merge_sort obs_le l.

Definition no_repeat (l : list str) : bool := bool_decide (NoDup l).

Definition _require_unique_sorted (observations : list ObservationArtifact) : result pyexn (list ObservationArtifact) :=
  raise_if negb ((1 <=? len observations) && (len observations <=? MAX_OBSERVATIONS))
    with ObservationError "invalid_observation_count" ;;
  raise_if negb (bool_decide (observations = sort_observations observations))
    with ObservationError "noncanonical_observation_order" ;;
  raise_if negb (no_repeat (map oa_subject observations)) ||
           negb (no_repeat (map (fun o => ad_path (oa_descriptor o)) observations)) ||
           negb (no_repeat (map (fun o => ad_sha256 (oa_descriptor o)) observations))
    with ObservationError "duplicate_observation_binding" ;;
  Ok observations.

(** The descriptors a producer hands over, by subject. *)
Definition _mapping_observations (value : list (str * json)) : result pyexn (list ObservationArtifact) :=
  raise_if negb ((1 <=? len value) && (len value <=? MAX_OBSERVATIONS))
    with ObservationError "invalid_observation_count" ;;
  parsed ← map_res (fun '(subject, descriptor) => _parse_artifact (JStr subject) descriptor) value;
  _require_unique_sorted (sort_observations parsed).

Definition _manifest_document (observations : list ObservationArtifact) : json :=
  JObj [(u "schema_version", JInt OBSERVATION_MANIFEST_SCHEMA_VERSION);
        (u "document", JStr OBSERVATION_MANIFEST_DOCUMENT);
        (u "observation_count", JInt (len observations));
        (u "observations", JList (map as_entry observations))].

Definition _MANIFEST_FIELDS : list str := [u "schema_version"; u "document"; u "observation_count"; u "observations"].
Definition _ENTRY_FIELDS : list str := [u "subject"; u "descriptor"].

Definition is_int (v : option json) (z : Z) : bool := match v with Some (JInt n) => n =? z | _ => false end.
Definition is_str (v : option json) (s : str) : bool := match v with Some (JStr t) => str_eqb t s | _ => false end.

Definition _parse_entry (value_entry : json) : result pyexn ObservationArtifact :=
  match exact_object value_entry _ENTRY_FIELDS with
  | None => Err (ObservationError "invalid_observation_manifest")
  | Some entry =>
      _parse_artifact (default JNull (obj_get entry (u "subject"))) (default JNull (obj_get entry (u "descriptor")))
  end.

Definition _parse_manifest (value : json) : result pyexn (list ObservationArtifact) :=
  match exact_object value _MANIFEST_FIELDS with
  | None => Err (ObservationError "invalid_observation_manifest")
  | Some raw =>
      raise_if negb (is_int (obj_get raw (u "schema_version")) OBSERVATION_MANIFEST_SCHEMA_VERSION &&
                     is_str (obj_get raw (u "document")) OBSERVATION_MANIFEST_DOCUMENT)
        with ObservationError "invalid_observation_manifest" ;;
      match obj_get raw (u "observations") with
      | Some (JList values) =>
          raise_if negb ((1 <=? len values) && (len values <=? MAX_OBSERVATIONS))
            with ObservationError "invalid_observation_count" ;;
          parsed ← map_res _parse_entry values;
          observations ← _require_unique_sorted parsed;
          raise_if negb (is_int (obj_get raw (u "observation_count")) (len observations))
            with ObservationError "invalid_observation_count" ;;
          Ok observations
      | _ => Err (ObservationError "invalid_observation_manifest")
      end
  end.

Definition _canonical_manifest_bytes (observations : list ObservationArtifact) : result pyexn bytes :=
  match canonical_json (_manifest_document observations) with
  | None => Err (ObservationError "observation_manifest_encoding_failed")
  | Some b =>
      let data := b ++ [x0a] in
      raise_if MAX_MANIFEST_BYTES <? len data with ObservationError "observation_manifest_too_large" ;;
      Ok data
  end.

(** ** Against the archive *)

Section Observation.
Context (E : env).

(** The names the manifest gives to one harness. *)
Definition expected_names (observations : list ObservationArtifact) (harness : str) : list str :=
  omap (fun o => match split_slash (ad_path (oa_descriptor o)) with
                 | [_; h; _; name] => if str_eqb h harness then Some name else None
                 | _ => None
                 end) observations.

Definition verify_file (o : ObservationArtifact) : M host () :=
  let d := oa_descriptor o in
  observed ← describe_file E (ad_path d) (ad_size d);
  check (negb (bool_decide (observed = {| af_relative_path := ad_path d; af_size := ad_size d; af_sha256 := ad_sha256 d |})))
    (ObservationError "observation_bytes_drifted").

Definition verify_namespace (observations : list ObservationArtifact) (harness : str) : M host () :=
  observed_names ← list_names E (observation_directory harness);
  check (negb (bool_decide (observed_names = sort_strs (remove_dups (expected_names observations harness)))))
    (ObservationError "observation_namespace_drifted").

Definition _verify_observation_files (observations : list ObservationArtifact) : M host () :=
  translate is_archive_error (ObservationError "observation_archive_unreadable")
    (for_each observations verify_file ≫= fun _ =>
     for_each OBSERVATION_HARNESSES (verify_namespace observations)).

Definition load_observation_manifest (expected_root_sha256 : option str) : M host ObservationManifest :=
  data ← translate is_archive_error (ObservationError "observation_manifest_unreadable")
    (read_bytes E OBSERVATION_MANIFEST_RELATIVE MAX_MANIFEST_BYTES);
  let root := hexdigest data in
  check (match expected_root_sha256 with Some e => negb (str_eqb root e) | None => false end)
    (ObservationError "observation_manifest_root_mismatch") ≫= fun _ =>
  value ← of_option (ObservationError "invalid_observation_manifest") (load_json_bytes data);
  observations ← of_result (_parse_manifest value);
  canonical ← of_result (_canonical_manifest_bytes observations);
  check (negb (bool_decide (canonical = data))) (ObservationError "noncanonical_observation_manifest") ≫= fun _ =>
  _verify_observation_files observations ≫= fun _ =>
  mret {| om_record := {| af_relative_path := OBSERVATION_MANIFEST_RELATIVE; af_size := len data; af_sha256 := root |};
          om_observations := observations |}.

Definition publish_observation_manifest (observations : list (str * json)) : M host ObservationManifest :=
  normalized ← of_result (_mapping_observations observations);
  translate is_archive_error (ObservationError "observation_namespace_unavailable")
    (for_each OBSERVATION_DIRECTORIES (ensure_directory E)) ≫= fun _ =>
  _verify_observation_files normalized ≫= fun _ =>
  data ← of_result (_canonical_manifest_bytes normalized);
  record ← translate is_archive_error (ObservationError "observation_manifest_archive_failed")
    (write_or_reopen_exact E OBSERVATION_MANIFEST_RELATIVE data MAX_MANIFEST_BYTES);
  pending ← translate is_archive_error (ObservationError "observation_manifest_unreadable")
    (pending_files E (u "raw"));
  check (negb (bool_decide (pending = []))) (ObservationError "observation_manifest_pending") ≫= fun _ =>
  reopened ← load_observation_manifest (Some (af_sha256 record));
  check (negb (bool_decide (om_record reopened = record)) || negb (bool_decide (om_observations reopened = normalized)))
    (ObservationError "observation_manifest_drifted") ≫= fun _ =>
  mret reopened.

(** [ObservationCapture.write_bytes] and [copy_file], [collecting] being the
    session's [require_collection_open]. *)
Definition capture_write_bytes (collecting : M host ()) (subject kind relative : str) (data : bytes) (maximum : option Z)
  : M host ObservationArtifact :=
  of_result (_validate_declared_artifact subject kind relative) ≫= fun _ =>
  bound ← of_result (_maximum_for_kind kind maximum);
  collecting ≫= fun _ =>
  record ← translate is_archive_error (ObservationError "observation_archive_failed")
    (write_bytes E relative data bound);
  collecting ≫= fun _ =>
  of_result (_parse_artifact (JStr subject)
    (JObj [(u "kind", JStr kind); (u "path", JStr (af_relative_path record)); (u "size", JInt (af_size record));
           (u "sha256", JStr (af_sha256 record))])).

Definition capture_copy_file (collecting : M host ()) (subject kind : str) (source : option bytes) (relative : str)
  (maximum : option Z) : M host ObservationArtifact :=
  of_result (_validate_declared_artifact subject kind relative) ≫= fun _ =>
  bound ← of_result (_maximum_for_kind kind maximum);
  collecting ≫= fun _ =>
  record ← translate is_archive_error (ObservationError "observation_archive_failed")
    (copy_file E source relative bound);
  collecting ≫= fun _ =>
  of_result (_parse_artifact (JStr subject)
    (JObj [(u "kind", JStr kind); (u "path", JStr (af_relative_path record)); (u "size", JInt (af_size record));
           (u "sha256", JStr (af_sha256 record))])).

End Observation.
