(* ===== verification/ObservationProofs.v ===== *)
(** * What an observation manifest binds

    The manifest of src/scripts/physical_capture/observation.py: its bytes are
    bounded and read back, loading accepts exactly the manifests whose evidence
    is in the archive, and the digest of a manifest fixes the evidence. *)

From S2P Require Import Prelude Sha256 Text Json DateTime Effects.
From S2P Require Import Archive ArchiveProofs ArchiveSafety ArchiveProgress Observation.

(** ** Well-formed observations *)

(** The path of an observation: its harness and its name. *)
Definition obs_at (harness name : str) : path := [u "raw"; harness; u "observations"; name].

Record obs_ok (o : ObservationArtifact) : Prop := {
  ok_subject : _SUBJECT_RE (oa_subject o) = true;
  ok_kind : exists spec, assoc ARTIFACT_KINDS (ad_kind (oa_descriptor o)) = Some spec /\
    ends_with (ak_suffix spec) (ad_path (oa_descriptor o)) = true /\
    1 <= ad_size (oa_descriptor o) <= ak_maximum_bytes spec;
  ok_path : exists harness name, harness ∈ OBSERVATION_HARNESSES /\
    split_slash (ad_path (oa_descriptor o)) = obs_at harness name /\ _COMPONENT_RE name = true;
  ok_length : len (ad_path (oa_descriptor o)) <= 512;
  ok_sha : is_sha256 (ad_sha256 (oa_descriptor o)) = true
}.

(** Printable ASCII without quotes and backslashes. *)
Definition simple_char (c : Z) : bool := (32 <=? c) && negb (c =? 34) && negb (c =? 92) && (c <? 128).

Lemma component_char_simple c : is_component_char c = true -> simple_char c = true.
Proof.
  unfold is_component_char, is_alnum, is_digit, simple_char. intros H.
  rewrite !orb_true_iff, !andb_true_iff, !Z.leb_le, !Z.eqb_eq in H.
  rewrite !andb_true_iff, !negb_true_iff, Z.leb_le, !Z.eqb_neq, Z.ltb_lt. lia.
Qed.

Lemma component_simple s : _COMPONENT_RE s = true -> forallb simple_char s = true.
Proof.
  unfold _COMPONENT_RE. destruct s as [|c s]; [done|]. rewrite !andb_true_iff. intros [[Hc Hs] _]. cbn [forallb].
  rewrite component_char_simple by (unfold is_component_char; by rewrite Hc). cbn.
  apply forallb_forall. intros x Hx. apply component_char_simple. by apply forallb_forall with (x := x) in Hs.
Qed.

Lemma components_simple p : forallb _COMPONENT_RE (split_slash p) = true -> forallb simple_char p = true.
Proof.
  intros H. rewrite <-(join_slash_split p). apply all_join_slash; [done|]. apply forallb_forall. intros a Ha.
  apply component_simple. by apply forallb_forall with (x := a) in H.
Qed.

Lemma simple_ascii s : forallb simple_char s = true -> ascii_text s = true /\ unescaped s = true /\ encodable s = true.
Proof.
  intros H. unfold ascii_text, unescaped, encodable.
  assert (HI : forall c, In c s -> 32 <= c < 128 /\ c <> 34 /\ c <> 92).
  { intros c Hc. apply forallb_forall with (x := c) in H; [|done]. unfold simple_char in H.
    rewrite !andb_true_iff, !negb_true_iff, Z.leb_le, !Z.eqb_neq, Z.ltb_lt in H. lia. }
  split_and!; apply forallb_forall; intros c Hc; apply HI in Hc.
  - apply andb_true_iff. rewrite Z.leb_le, Z.ltb_lt. lia.
  - rewrite !andb_true_iff, !negb_true_iff, Z.leb_le, !Z.eqb_neq. lia.
  - apply scalar_range. lia.
Qed.

Lemma subject_simple s : _SUBJECT_RE s = true -> forallb simple_char s = true /\ len s <= 128.
Proof.
  unfold _SUBJECT_RE. destruct s as [|c s]; [done|]. rewrite !andb_true_iff. intros [[Hc Hs] Hl]. apply Nat.leb_le in Hl.
  assert (HS : forall c, is_subject_start c || (c =? 46) || (c =? 95) || (c =? 58) || (c =? 45) = true -> simple_char c = true).
  { intros x Hx. unfold is_subject_start, is_digit in Hx. rewrite !orb_true_iff, !andb_true_iff, !Z.leb_le, !Z.eqb_eq in Hx.
    unfold simple_char. rewrite !andb_true_iff, !negb_true_iff, Z.leb_le, !Z.eqb_neq, Z.ltb_lt. lia. }
  split; [|rewrite len_cons; unfold len; lia]. cbn [forallb]. rewrite HS by (by rewrite Hc). cbn.
  apply forallb_forall. intros x Hx. apply HS. by apply forallb_forall with (x := x) in Hs.
Qed.

Lemma sha256_simple s : is_sha256 s = true -> forallb simple_char s = true /\ len s = 64.
Proof.
  unfold is_sha256. rewrite andb_true_iff. intros [Hl Hh]. apply Nat.eqb_eq in Hl. split; [|unfold len; lia].
  apply forallb_forall. intros x Hx. apply forallb_forall with (x := x) in Hh; [|done].
  unfold is_lower_hex, is_digit in Hh. rewrite orb_true_iff, !andb_true_iff, !Z.leb_le in Hh.
  unfold simple_char. rewrite !andb_true_iff, !negb_true_iff, Z.leb_le, !Z.eqb_neq, Z.ltb_lt. lia.
Qed.

Lemma assoc_in {A} (l : list (str * A)) k a : assoc l k = Some a -> (k, a) ∈ l.
Proof.
  induction l as [|[k' a'] l IH]; cbn [assoc]; [done|]. destruct (str_eqb k' k) eqn:E.
  - apply str_eqb_eq in E as ->. intros [= ->]. by left.
  - intros H. right. by apply IH.
Qed.

(** The kinds: short names, and bounds of eight digits. *)
Lemma kind_bounds kind spec : assoc ARTIFACT_KINDS kind = Some spec ->
  forallb simple_char kind = true /\ len kind <= 33 /\ ak_maximum_bytes spec < 10 ^ 8.
Proof.
  intros H. apply assoc_in in H.
  assert (C : forallb (fun kv => forallb simple_char (fst kv) && (len (fst kv) <=? 33) && (ak_maximum_bytes (snd kv) <? 10 ^ 8)) ARTIFACT_KINDS = true)
    by (vm_compute; reflexivity).
  apply forallb_forall with (x := (kind, spec)) in C; [|by apply list_elem_of_In].
  rewrite !andb_true_iff, Z.leb_le, Z.ltb_lt in C. cbn [fst snd] in C. tauto.
Qed.

(** ** Entries are read back *)

Lemma harness_component harness : harness ∈ OBSERVATION_HARNESSES -> _COMPONENT_RE harness = true.
Proof.
  intros H. assert (C : forallb _COMPONENT_RE OBSERVATION_HARNESSES = true) by (vm_compute; reflexivity).
  apply forallb_forall with (x := harness) in C; [done|by apply list_elem_of_In].
Qed.

Lemma obs_path_components o : obs_ok o -> forallb _COMPONENT_RE (split_slash (ad_path (oa_descriptor o))) = true.
Proof.
  intros [_ _ (harness & name & Hh & -> & Hn) _ _]. apply harness_component in Hh. unfold obs_at. cbn [forallb]. by rewrite Hh, Hn.
Qed.

Lemma encode_simple s : forallb simple_char s = true -> exists b, utf8_encode s = Some b /\ len b = len s.
Proof.
  intros H. apply simple_ascii in H as (Ha & _). exists (map zb s). split; [by apply utf8_encode_ascii|].
  unfold len. by rewrite length_map.
Qed.

Lemma no_backslash s : forallb simple_char s = true -> existsb (Z.eqb 92) s = false.
Proof.
  intros H. apply existsb_none. intros c Hc. apply list_elem_of_In in Hc. apply forallb_forall with (x := c) in H; [|done].
  unfold simple_char in H. rewrite !andb_true_iff, !negb_true_iff, !Z.eqb_neq in H. apply Z.eqb_neq. lia.
Qed.

Lemma path_not_empty p h n : split_slash p = obs_at h n -> p <> [].
Proof. by intros H ->. Qed.

Lemma parse_descriptor_spec value d :
  parse_descriptor value = Some d ->
  exists spec, assoc ARTIFACT_KINDS (ad_kind d) = Some spec /\ ends_with (ak_suffix spec) (ad_path d) = true /\
    1 <= ad_size d <= ak_maximum_bytes spec /\ forallb _COMPONENT_RE (split_slash (ad_path d)) = true /\
    len (ad_path d) <= 512 /\ is_sha256 (ad_sha256 d) = true.
Proof.
  unfold parse_descriptor. intros H. apply bind_Some in H as (raw & _ & H).
  destruct (obj_get raw (u "kind")) as [[| | | |kind| |]|]; try done.
  destruct (obj_get raw (u "path")) as [[| | | |p| |]|]; try done.
  destruct (obj_get raw (u "size")) as [[| |size| | | |]|]; try done.
  destruct (obj_get raw (u "sha256")) as [[| | | |sha| |]|]; try done.
  apply bind_Some in H as (spec & Hs & H). destruct (_ || _) eqn:G1; [done|].
  apply bind_Some in H as (encoded & He & H). destruct (_ || _ || _ || _ || _ || _) eqn:G2; [done|]. injection H as <-. cbn.
  rewrite !orb_false_iff, !negb_false_iff, !Z.ltb_ge in G2. destruct G2 as [[[[[H1 H2] H3] H4] H5] H6].
  exists spec. destruct (encode_simple p (components_simple _ H2)) as (b & Hb & Hl). split_and!; try done.
  rewrite He in Hb. injection Hb as ->. lia.
Qed.

Lemma observation_path_spec p :
  _validate_observation_path p = Ok () <-> exists harness name, harness ∈ OBSERVATION_HARNESSES /\ split_slash p = obs_at harness name.
Proof.
  unfold _validate_observation_path. split.
  - destruct (split_slash p) as [|raw [|harness [|observations [|name []]]]] eqn:S; try done.
    destruct (_ && _ && _) eqn:G; [|done]. intros _. rewrite !andb_true_iff in G. destruct G as [[H1 H2] H3].
    apply str_eqb_eq in H1 as ->, H3 as ->. apply existsb_exists in H2 as (h & Hh & H2). apply str_eqb_eq in H2 as ->.
    exists h, name. split; [by apply list_elem_of_In|done].
  - intros (harness & name & Hh & ->). unfold obs_at. rewrite !str_eqb_refl.
    rewrite (proj2 (existsb_exists (str_eqb harness) OBSERVATION_HARNESSES)); [done|]. exists harness.
    split; [by apply list_elem_of_In|apply str_eqb_refl].
Qed.

Lemma parse_artifact_ok subject descriptor o : _parse_artifact subject descriptor = Ok o -> obs_ok o.
Proof.
  unfold _parse_artifact. intros H. res_inv H. unfold _subject in E. destruct subject as [| | | |s| |]; try done.
  destruct (_SUBJECT_RE s) eqn:Hs; [|done]. injection E as <-.
  destruct (parse_descriptor descriptor) as [d|] eqn:Hd; [|done]. res_inv H. subst o.
  apply parse_descriptor_spec in Hd as (spec & H1 & H2 & H3 & H4 & H5 & H6).
  destruct v. apply observation_path_spec in E as (harness & name & Hh & Hp). constructor; cbn; try done.
  - by exists spec.
  - exists harness, name. split_and!; [done|done|]. rewrite Hp in H4. cbn [forallb obs_at] in H4.
    rewrite !andb_true_iff in H4. tauto.
Qed.

Lemma parse_descriptor_read d o raw :
  obs_ok o -> d = oa_descriptor o -> same_fields DESCRIPTOR_FIELDS raw = true ->
  obj_get raw (u "kind") = Some (JStr (ad_kind d)) -> obj_get raw (u "path") = Some (JStr (ad_path d)) ->
  obj_get raw (u "size") = Some (JInt (ad_size d)) -> obj_get raw (u "sha256") = Some (JStr (ad_sha256 d)) ->
  parse_descriptor (JObj raw) = Some d.
Proof.
  intros Hok -> Hf Hk Hp Hz Hs. unfold parse_descriptor, exact_object. rewrite Hf. cbn [mbind option_bind].
  rewrite Hk, Hp, Hz, Hs. pose proof (obs_path_components o Hok) as Hc. destruct Hok as [_ (spec & HK & HE & HZ) (h & n & _ & HP & _) HL HS].
  rewrite HK. cbn [mbind option_bind]. pose proof (components_simple _ Hc) as Hsim.
  rewrite (no_backslash _ Hsim), bool_decide_false by (by eapply path_not_empty). cbn [orb].
  destruct (encode_simple _ Hsim) as (b & Hb & Hl). rewrite Hb. cbn [mbind option_bind]. rewrite Hl, Hc, HE, HS.
  destruct HZ. cmp. by destruct (oa_descriptor o).
Qed.

Lemma parse_artifact_read o descriptor :
  obs_ok o -> parse_descriptor descriptor = Some (oa_descriptor o) -> _parse_artifact (JStr (oa_subject o)) descriptor = Ok o.
Proof.
  intros Hok Hd. unfold _parse_artifact, _subject. rewrite (ok_subject _ Hok). cbn [mbind result_bind]. rewrite Hd.
  destruct (ok_path _ Hok) as (h & n & Hh & Hp & _).
  rewrite (proj2 (observation_path_spec _)) by eauto. cbn. by destruct o.
Qed.

Lemma parse_entry_read o : obs_ok o -> _parse_entry (normalize (as_entry o)) = Ok o.
Proof.
  intros Hok. assert (N : normalize (as_entry o) =
    JObj [(u "descriptor", JObj [(u "kind", JStr (ad_kind (oa_descriptor o))); (u "path", JStr (ad_path (oa_descriptor o)));
            (u "sha256", JStr (ad_sha256 (oa_descriptor o))); (u "size", JInt (ad_size (oa_descriptor o)))]);
          (u "subject", JStr (oa_subject o))]) by reflexivity.
  rewrite N. unfold _parse_entry.
  match goal with |- context [exact_object (JObj ?l) _] => change (exact_object (JObj l) _ENTRY_FIELDS) with (Some l) end.
  apply parse_artifact_read; [done|]. by apply (parse_descriptor_read _ o).
Qed.

(** ** Manifests *)

Definition manifest_ok (observations : list ObservationArtifact) : Prop :=
  Forall obs_ok observations /\ _require_unique_sorted observations = Ok observations.

Lemma require_unique_sorted_inv l l' : _require_unique_sorted l = Ok l' ->
  l' = l /\ 1 <= len l <= MAX_OBSERVATIONS /\ l = sort_observations l /\ NoDup (map oa_subject l) /\
  NoDup (map (fun o => ad_path (oa_descriptor o)) l) /\ NoDup (map (fun o => ad_sha256 (oa_descriptor o)) l).
Proof.
  unfold _require_unique_sorted. intros H. res_inv H. subst l'. unfold no_repeat in *.
  rewrite !orb_false_iff, !negb_false_iff, !bool_decide_eq_true in G1. apply negb_false_iff, bool_decide_eq_true in G0.
  apply negb_false_iff, andb_true_iff in G as [G2 G3]. apply Z.leb_le in G2, G3. tauto.
Qed.

Lemma map_res_forall {A B} (f : A -> result pyexn B) (P : B -> Prop) l l' :
  (forall a b, f a = Ok b -> P b) -> map_res f l = Ok l' -> Forall P l'.
Proof.
  intros Hf H. apply map_res_ok in H. induction H as [|a b l l' Hab _ IH]; constructor; [by eapply Hf|done].
Qed.

Lemma parse_manifest_ok value observations : _parse_manifest value = Ok observations -> manifest_ok observations.
Proof.
  unfold _parse_manifest. destruct (exact_object value _MANIFEST_FIELDS) as [raw|]; [|done]. intros H. res_step H.
  destruct (obj_get raw (u "observations")) as [[| | | | |values|]|]; try done. res_inv H. subst observations.
  pose proof (require_unique_sorted_inv _ _ E0) as [-> _]. split; [|done]. eapply map_res_forall; [|exact E].
  intros entry o He. unfold _parse_entry in He. destruct (exact_object entry _ENTRY_FIELDS); [|done]. by eapply parse_artifact_ok.
Qed.

Lemma mapping_ok value observations : _mapping_observations value = Ok observations -> manifest_ok observations.
Proof.
  unfold _mapping_observations. intros H. res_inv H. pose proof (require_unique_sorted_inv _ _ H) as [-> _].
  split; [|done]. apply Forall_forall. intros o Ho. unfold sort_observations in Ho. rewrite merge_sort_Permutation in Ho.
  apply (map_res_forall _ obs_ok) in E; [by rewrite Forall_forall in E; apply E|]. intros [s d] b. apply parse_artifact_ok.
Qed.

Lemma size_text n : 0 <= n < 10 ^ 8 -> len (int_str n) <= 8.
Proof.
  intros Hn. unfold int_str. rewrite (proj2 (Z.ltb_ge n 0)) by lia. pose proof (nat_str_length n 8 Hn ltac:(lia)). unfold len. lia.
Qed.

Record entry_facts (o : ObservationArtifact) : Prop := {
  ef_subject : forallb simple_char (oa_subject o) = true /\ len (oa_subject o) <= 128;
  ef_kind : forallb simple_char (ad_kind (oa_descriptor o)) = true /\ len (ad_kind (oa_descriptor o)) <= 33;
  ef_path : forallb simple_char (ad_path (oa_descriptor o)) = true /\ len (ad_path (oa_descriptor o)) <= 512;
  ef_sha : forallb simple_char (ad_sha256 (oa_descriptor o)) = true /\ len (ad_sha256 (oa_descriptor o)) = 64;
  ef_size : 0 <= ad_size (oa_descriptor o) < 10 ^ 8
}.

Lemma obs_entry_facts o : obs_ok o -> entry_facts o.
Proof.
  intros Hok. destruct (ok_kind _ Hok) as (spec & HK & _ & HZ). apply kind_bounds in HK as (K1 & K2 & K3). constructor.
  - apply subject_simple, Hok.
  - done.
  - split; [|apply Hok]. by apply components_simple, obs_path_components.
  - apply sha256_simple, Hok.
  - lia.
Qed.

Lemma entry_plain o : entry_facts o ->
  plain (as_entry o) = true /\ texts ascii_text (as_entry o) = true /\ _json_depth (as_entry o) 2 = true.
Proof.
  intros [[S1 _] [K1 _] [P1 _] [H1 _] Z1]. apply simple_ascii in S1 as (S1 & _ & S2), K1 as (K1 & _ & K2), P1 as (P1 & _ & P2), H1 as (H1 & _ & H2).
  assert (HZ : Z.abs (ad_size (oa_descriptor o)) <? 10 ^ 19 = true) by (apply Z.ltb_lt; lia).
  split_and!.
  - unfold as_entry, descriptor_as_dict. cbn [plain forallb fst snd].
    repeat match goal with |- context [unique_keys ?l] => change (unique_keys l) with true end.
    rewrite !encodable_chars by done. rewrite HZ. vm_compute. reflexivity.
  - unfold as_entry, descriptor_as_dict. cbn [texts forallb fst snd]. rewrite S1, K1, P1, H1. vm_compute. reflexivity.
  - unfold as_entry, descriptor_as_dict. cbn [_json_depth forallb fst snd]. rewrite S2, K2, P2, H2. vm_compute. reflexivity.
Qed.

Lemma entry_size o : entry_facts o -> text_size (as_entry o) <= 900.
Proof.
  intros [[S1 S2] [K1 K2] [P1 P2] [H1 H2] Z1]. apply simple_ascii in S1 as (_ & S1 & _), K1 as (_ & K1 & _), P1 as (_ & P1 & _), H1 as (_ & H1 & _).
  pose proof (size_text _ Z1) as HZ. unfold as_entry, descriptor_as_dict. cbn [text_size sum_sizes foldr fst snd dumps].
  rewrite (len_dump_str _ S1), (len_dump_str _ K1), (len_dump_str _ P1), (len_dump_str _ H1).
  repeat match goal with |- context [len (dump_str (u ?k))] => let n := eval vm_compute in (len (dump_str (u k))) in change (len (dump_str (u k))) with n end.
  lia.
Qed.

Lemma document_facts observations : manifest_ok observations ->
  plain (_manifest_document observations) = true /\ texts ascii_text (_manifest_document observations) = true /\
  _json_depth (_manifest_document observations) 0 = true /\ text_size (_manifest_document observations) < MAX_MANIFEST_BYTES.
Proof.
  intros [Hok Hs]. apply require_unique_sorted_inv in Hs as (_ & Hc & _). unfold MAX_OBSERVATIONS in Hc.
  assert (HF : Forall entry_facts observations) by (eapply Forall_impl; [exact Hok|apply obs_entry_facts]). rewrite Forall_forall in HF.
  assert (HC : Z.abs (len observations) <? 10 ^ 19 = true) by (apply Z.ltb_lt; lia).
  assert (HL : forall (p : json -> bool), (forall o, entry_facts o -> p (as_entry o) = true) -> forallb p (map as_entry observations) = true).
  { intros p Hp. rewrite forallb_map. apply forallb_forall. intros o Ho. apply Hp, HF. by apply list_elem_of_In. }
  split_and!.
  - unfold _manifest_document. cbn [plain forallb fst snd]. match goal with |- context [unique_keys ?l] => change (unique_keys l) with true end.
    rewrite HL by apply entry_plain. rewrite HC. vm_compute. reflexivity.
  - unfold _manifest_document. cbn [texts forallb fst snd]. rewrite HL by apply entry_plain. vm_compute. reflexivity.
  - unfold _manifest_document. cbn [_json_depth forallb fst snd]. change (0 + 1 + 1) with 2.
    rewrite HL by apply entry_plain. vm_compute. reflexivity.
  - pose proof (size_text (len observations) ltac:(lia)) as HN.
    assert (HE : sum_sizes (fun o => text_size (as_entry o) + 1) observations <= 901 * len observations).
    { rewrite <-sum_sizes_const. apply sum_sizes_le. intros o Ho. apply HF, entry_size in Ho. lia. }
    unfold _manifest_document. cbn [text_size]. unfold sum_sizes at 1. cbn [foldr fst snd text_size]. rewrite sum_sizes_map.
    set (total := sum_sizes _ observations) in *. cbn [dumps].
    repeat match goal with |- context [len (dump_str ?k)] => let n := eval vm_compute in (len (dump_str k)) in change (len (dump_str k)) with n end.
    change (len (int_str OBSERVATION_MANIFEST_SCHEMA_VERSION)) with 1. clearbody total. unfold MAX_MANIFEST_BYTES, MiB. lia.
Qed.

Lemma normalize_document observations :
  normalize (_manifest_document observations) =
  JObj [(u "document", JStr OBSERVATION_MANIFEST_DOCUMENT); (u "observation_count", JInt (len observations));
        (u "observations", JList (map normalize (map as_entry observations)));
        (u "schema_version", JInt OBSERVATION_MANIFEST_SCHEMA_VERSION)].
Proof. reflexivity. Qed.

Lemma parse_manifest_read observations : manifest_ok observations ->
  _parse_manifest (normalize (_manifest_document observations)) = Ok observations.
Proof.
  intros [Hok Hs]. rewrite normalize_document. unfold _parse_manifest.
  match goal with |- context [exact_object (JObj ?l) _] => change (exact_object (JObj l) _MANIFEST_FIELDS) with (Some l) end. cbv beta iota.
  match goal with |- context [obj_get ?l (u "observations")] =>
    change (obj_get l (u "observations")) with (Some (JList (map normalize (map as_entry observations))));
    change (obj_get l (u "observation_count")) with (Some (JInt (len observations)));
    change (is_int (obj_get l (u "schema_version")) OBSERVATION_MANIFEST_SCHEMA_VERSION) with true;
    change (is_str (obj_get l (u "document")) OBSERVATION_MANIFEST_DOCUMENT) with true end.
  cbn [negb andb]. destruct (require_unique_sorted_inv _ _ Hs) as (_ & Hc & _).
  assert (HL : len (map normalize (map as_entry observations)) = len observations) by (unfold len; by rewrite !length_map).
  rewrite HL. rewrite !(proj2 (Z.leb_le _ _)) by lia. cbn [negb andb].
  assert (HM : map_res _parse_entry (map normalize (map as_entry observations)) = Ok observations).
  { clear Hs Hc HL. induction Hok as [|o l Ho _ IH]; [done|]. cbn [map map_res]. rewrite parse_entry_read by done. cbn. by rewrite IH. }
  rewrite HM. cbn [mbind result_bind]. rewrite Hs. cbn [mbind result_bind is_int]. by rewrite Z.eqb_refl.
Qed.

(** What the manifest of well-formed observations is: bounded bytes that are
    read back. *)
Lemma manifest_read_back observations : manifest_ok observations ->
  exists data value, _canonical_manifest_bytes observations = Ok data /\ 1 <= len data <= MAX_MANIFEST_BYTES /\
    load_json_bytes data = Some value /\ _parse_manifest value = Ok observations.
Proof.
  intros Hok. destruct (document_facts _ Hok) as (HP & HA & HD & HS). destruct (canonical_json_some _ 0 HP HD) as [b Hb].
  exists (b ++ [x0a]), (normalize (_manifest_document observations)). unfold _canonical_manifest_bytes. rewrite Hb.
  pose proof (canonical_size _ _ HP HA Hb) as HL. pose proof (len_nonneg b). rewrite len_app. change (len [x0a]) with 1.
  rewrite (proj2 (Z.ltb_ge _ _)) by lia. split; [done|]. split; [lia|].
  split; [by apply load_canonical|]. by apply parse_manifest_read.
Qed.

(** A manifest always fits.  Whatever descriptors a producer hands over, when
    they are accepted as observations, these are well formed, sorted and without
    repeated subjects, paths and digests, at most [MAX_OBSERVATIONS] of them; the
    manifest then has canonical bytes of at most [MAX_MANIFEST_BYTES], so that the
    size error is never raised, and those bytes are read back as exactly these
    observations, in order. *)
Theorem manifest_fits_and_reads_back value observations :
  _mapping_observations value = Ok observations ->
  manifest_ok observations /\
  exists data document, _canonical_manifest_bytes observations = Ok data /\ 1 <= len data <= MAX_MANIFEST_BYTES /\
    load_json_bytes data = Some document /\ _parse_manifest document = Ok observations.
Proof. intros H%mapping_ok. split; [done|]. by apply manifest_read_back. Qed.

Lemma demo_mapping_ok : exists o, _mapping_observations
  [(u "packet-01", JObj [(u "kind", JStr (u "packet-pcap")); (u "path", JStr (u "raw/packet/observations/packet-01.pcap"));
     (u "size", JInt 4); (u "sha256", JStr (replicate 64 97))])] = Ok [o].
Proof. eexists. vm_compute. reflexivity. Qed.

Lemma manifest_fits_and_reads_back_witness :
  exists o data document, _canonical_manifest_bytes [o] = Ok data /\ 1 <= len data <= MAX_MANIFEST_BYTES /\
    load_json_bytes data = Some document /\ _parse_manifest document = Ok [o].
Proof.
  destruct demo_mapping_ok as [o Ho]. exists o. exact (proj2 (manifest_fits_and_reads_back _ [o] Ho)).
Defined.

(** ** The evidence of a manifest *)

Definition odir (harness : str) : path := [u "raw"; harness; u "observations"].
Definition manifest_path : path := [u "raw"; u "observation-manifest.json"].

(** Every observation is in the archive with its size and digest, and the
    observation directories hold nothing else. *)
Record evidence (observations : list ObservationArtifact) (h : host) : Prop := {
  ev_open : h_open h = true;
  ev_dirs : forall harness, harness ∈ OBSERVATION_HARNESSES -> way_open (odir harness) h;
  ev_files : forall o, o ∈ observations -> exists b, h_files h !! split_slash (ad_path (oa_descriptor o)) = Some b /\
    len b = ad_size (oa_descriptor o) /\ hexdigest b = ad_sha256 (oa_descriptor o);
  ev_names : forall harness name, harness ∈ OBSERVATION_HARNESSES ->
    (name ∈ listdir (odir harness) h <-> exists o, o ∈ observations /\ split_slash (ad_path (oa_descriptor o)) = obs_at harness name)
}.

Lemma for_each_reads {S A} (f : A -> M S ()) l s s' :
  (forall a, reads (f a)) -> for_each l f s = (Ret (), s') -> s' = s /\ forall a, a ∈ l -> f a s = (Ret (), s).
Proof.
  intros Hr. revert s. induction l as [|a l IH]; intros s H; cbn [for_each] in H.
  - injection H as <-. split; [done|]. intros b Hb. by apply elem_of_nil in Hb.
  - apply bind_ret_inv in H as ([] & s1 & H1 & H). pose proof (reads_state _ _ _ _ (Hr a) H1) as ->. apply IH in H as [-> H].
    split; [done|]. intros b [-> | Hb]%elem_of_cons; [done|by apply H].
Qed.

Lemma open_directory_ret p h h' : _open_directory_at p h = (Ret (), h') -> p ∈ h_dirs h.
Proof.
  unfold _open_directory_at, mbind, M_bind, gets, is_dir. case_bool_decide; [done|]. by destruct (is_file p h).
Qed.

Section Load.
Context (E : env).

Lemma open_relative_ret d h h' :
  _open_relative_directory E d false h = (Ret (), h') -> h_open h = true /\ way_open d h.
Proof.
  unfold _open_relative_directory. intros H. apply bind_ret_inv in H as ([] & h1 & H1 & H).
  pose proof (reads_state _ _ _ _ require_open_reads H1) as ->. unfold _require_open in H1.
  apply bind_ret_inv in H1 as (o & h1 & [= <- <-] & H1). apply check_ret in H1 as [H1 _]. apply negb_false_iff in H1. split; [done|].
  apply for_each_reads in H as [_ H]; [|intros; apply open_directory_reads]. intros p Hp. by eapply open_directory_ret, H.
Qed.

Lemma list_names_inv d parts h names h' :
  _relative_parts d = Ok parts -> list_names E d h = (Ret names, h') ->
  h_open h = true /\ way_open parts h /\ names = sort_strs (listdir parts h).
Proof.
  unfold list_names. intros Hp H. rewrite Hp in H. apply bind_result in H as [(? & [= <-] & H) | [_ N]]; [|by destruct (N names)].
  apply bind_ret_inv in H as ([] & h1 & H1 & H). pose proof (reads_state _ _ _ _ (open_relative_reads E parts) H1) as ->.
  apply open_relative_ret in H1 as [Ho Hw]. apply bind_ret_inv in H as (l & h1 & [= <- <-] & H).
  apply bind_ret_inv in H as ([] & h1 & H1 & H). by injection H as <- _.
Qed.

Lemma list_names_calm d parts h (Q : list str -> host -> Prop) :
  _relative_parts d = Ok parts -> h_open h = true -> way_open parts h -> existsb unsafe_name (listdir parts h) = false ->
  Q (sort_strs (listdir parts h)) h -> returns (list_names E d) h Q.
Proof.
  intros Hp Ho Hw Hu HQ. apply returns_bind. eapply returns_of_result; [exact Hp|]. apply returns_bind, way_returns; [done|done|].
  apply returns_bind, returns_gets, returns_bind, returns_check; [done|]. by apply returns_ret.
Qed.

Lemma odir_parts harness : harness ∈ OBSERVATION_HARNESSES -> _relative_parts (observation_directory harness) = Ok (odir harness).
Proof.
  unfold OBSERVATION_HARNESSES. rewrite !elem_of_cons, elem_of_nil. intros [-> | [-> | [-> | [-> | []]]]]; vm_compute; reflexivity.
Qed.

Lemma obs_parts o harness name : obs_ok o -> split_slash (ad_path (oa_descriptor o)) = obs_at harness name ->
  _relative_parts (ad_path (oa_descriptor o)) = Ok (obs_at harness name).
Proof.
  intros Hok Hp. pose proof (obs_path_components o Hok) as Hc. pose proof (components_simple _ Hc) as Hs. unfold _relative_parts.
  destruct (encode_simple _ Hs) as (b & -> & Hl). rewrite (no_backslash _ Hs).
  assert (H0 : existsb (Z.eqb 0) (ad_path (oa_descriptor o)) = false).
  { apply existsb_none. intros c Hc'. apply list_elem_of_In in Hc'. apply forallb_forall with (x := c) in Hs; [|done].
    unfold simple_char in Hs. rewrite !andb_true_iff, Z.leb_le in Hs. apply Z.eqb_neq. lia. }
  rewrite H0, bool_decide_false by (by eapply path_not_empty). pose proof (ok_length _ Hok). unfold MAX_RELATIVE_PATH_BYTES.
  rewrite (proj2 (Z.ltb_ge _ _)) by lia. cbn [orb]. by rewrite Hc, Hp.
Qed.

Lemma elem_of_expected observations harness name : Forall obs_ok observations ->
  name ∈ expected_names observations harness <->
  exists o, o ∈ observations /\ split_slash (ad_path (oa_descriptor o)) = obs_at harness name.
Proof.
  intros Hok. rewrite Forall_forall in Hok. unfold expected_names. rewrite list_elem_of_omap. split.
  - intros (o & Ho & H). exists o. split; [done|]. destruct (ok_path _ (Hok o Ho)) as (h' & n' & _ & Hp & _). rewrite Hp in *.
    cbn in H. destruct (str_eqb h' harness) eqn:X; [|done]. apply str_eqb_eq in X as ->. by injection H as ->.
  - intros (o & Ho & Hp). exists o. split; [done|]. rewrite Hp. cbn. by rewrite str_eqb_refl.
Qed.

Lemma verify_file_ret o h h' : obs_ok o -> verify_file E o h = (Ret (), h') ->
  exists b, h_files h !! split_slash (ad_path (oa_descriptor o)) = Some b /\
    len b = ad_size (oa_descriptor o) /\ hexdigest b = ad_sha256 (oa_descriptor o).
Proof.
  intros Hok H. unfold verify_file in H. apply bind_ret_inv in H as (observed & h1 & H1 & H). apply check_ret in H as [H _].
  apply negb_false_iff, bool_decide_eq_true in H. unfold describe_file in H1. apply bind_ret_inv in H1 as (b & h2 & H2 & H1).
  injection H1 as <- <-. apply read_bytes_ret in H2 as (-> & parts & Hp & Hb). apply relative_parts_ok in Hp as [-> _].
  exists b. split; [done|]. unfold archived in H. by injection H.
Qed.

Lemma verify_file_reads o : reads (verify_file E o).
Proof. unfold verify_file. within_auto. apply describe_file_reads. Qed.
Lemma verify_namespace_reads observations harness : reads (verify_namespace E observations harness).
Proof. unfold verify_namespace. within_auto. apply list_names_reads. Qed.
Lemma verify_files_reads observations : reads (_verify_observation_files E observations).
Proof. unfold _verify_observation_files. within_auto; [apply verify_file_reads|apply verify_namespace_reads]. Qed.

Lemma verify_files_ret observations h h' : Forall obs_ok observations ->
  _verify_observation_files E observations h = (Ret (), h') -> h' = h /\ evidence observations h.
Proof.
  intros Hok H. pose proof (reads_state _ _ _ _ (verify_files_reads _) H) as ->. split; [done|].
  unfold _verify_observation_files in H. apply translate_ret in H. apply bind_ret_inv in H as ([] & h1 & H1 & H).
  apply for_each_reads in H1 as [-> H1]; [|apply verify_file_reads]. apply for_each_reads in H as [_ H]; [|apply verify_namespace_reads].
  assert (HN : forall harness, harness ∈ OBSERVATION_HARNESSES -> h_open h = true /\ way_open (odir harness) h /\
    sort_strs (listdir (odir harness) h) = sort_strs (remove_dups (expected_names observations harness))).
  { intros harness Hh. specialize (H harness Hh). unfold verify_namespace in H. apply bind_ret_inv in H as (names & h1 & H2 & H).
    apply check_ret in H as [H _]. apply negb_false_iff, bool_decide_eq_true in H.
    apply (list_names_inv _ (odir harness)) in H2 as (Ho & Hw & ->); [done|by apply odir_parts]. }
  constructor.
  - by apply (HN (u "adversarial")); left.
  - intros harness Hh. by apply HN.
  - intros o Ho. rewrite Forall_forall in Hok. eapply verify_file_ret; [by apply Hok|by apply H1].
  - intros harness name Hh. destruct (HN harness Hh) as (_ & _ & Hl).
    rewrite <-(elem_of_sort_strs name (listdir (odir harness) h)), Hl, elem_of_sort_strs, elem_of_remove_dups.
    by apply elem_of_expected.
Qed.

(** No name is a file and a directory. *)
Definition tree (h : host) : Prop := forall p, is_Some (h_files h !! p) -> p ∉ h_dirs h.

Lemma omap_nodup {A B} (f : A -> option B) l :
  (forall x y b, f x = Some b -> f y = Some b -> x = y) -> NoDup l -> NoDup (omap f l).
Proof.
  intros Hf. induction 1 as [|x l Hx _ IH]; cbn [omap list_omap]; [constructor|]. destruct (f x) as [b|] eqn:Fx; [|done].
  constructor; [|done]. intros (y & Hy & Fy)%list_elem_of_omap. by rewrite (Hf x y b Fx Fy) in Hx.
Qed.

Lemma listdir_nodup d h : tree h -> NoDup (listdir d h).
Proof.
  intros HT. unfold listdir. apply NoDup_app. split_and!.
  - apply omap_nodup; [|apply NoDup_fst_map_to_list]. intros p q n Hp Hq. apply name_below_spec in Hp, Hq. congruence.
  - intros n Hn Hn'. rewrite list_elem_of_omap in Hn, Hn'. destruct Hn as (p & Hp & Hpn), Hn' as (q & Hq & Hqn).
    apply name_below_spec in Hpn, Hqn. subst. apply elem_of_elements in Hq. apply (HT (d ++ [n])); [|done].
    apply list_elem_of_In, in_map_iff in Hp as ([p b] & Hpb & Hp). cbn in Hpb. subst p.
    apply list_elem_of_In, elem_of_map_to_list in Hp. eauto.
  - apply omap_nodup; [|apply NoDup_elements]. intros p q n Hp Hq. apply name_below_spec in Hp, Hq. congruence.
Qed.

Lemma harness_prefix harness h : way_open (odir harness) h -> way_open [u "raw"] h.
Proof. intros Hw p Hp. apply Hw. apply list_elem_of_singleton in Hp as ->. by left. Qed.

Lemma verify_file_calm o observations h : o ∈ observations -> obs_ok o -> evidence observations h ->
  returns (verify_file E o) h (fun _ h' => h' = h).
Proof.
  intros Ho Hok Hev. destruct (ok_path _ Hok) as (harness & name & Hh & Hp & _). destruct (ev_files _ _ Hev o Ho) as (b & Hb & Hl & Hd).
  destruct (ok_kind _ Hok) as (spec & _ & _ & Hsz). rewrite Hp in Hb. apply returns_bind, returns_bind.
  eapply (read_calm _ _ (obs_at harness name)); [by apply obs_parts|cbn; lia|apply Hev|by apply Hev|exact Hb|lia|].
  apply returns_ret, returns_check; [|done]. unfold archived. by rewrite Hl, Hd, bool_decide_true.
Qed.

Lemma verify_namespace_calm observations harness h :
  Forall obs_ok observations -> harness ∈ OBSERVATION_HARNESSES -> tree h -> evidence observations h ->
  returns (verify_namespace E observations harness) h (fun _ h' => h' = h).
Proof.
  intros Hok Hh HT Hev. apply returns_bind.
  assert (Hm : forall name, name ∈ listdir (odir harness) h <-> name ∈ remove_dups (expected_names observations harness)).
  { intros name. rewrite elem_of_remove_dups, elem_of_expected by done. by apply Hev. }
  eapply list_names_calm; [by apply odir_parts|apply Hev|by apply Hev| |].
  - apply existsb_none. intros name Hn. apply (ev_names _ _ Hev) in Hn as (o & Ho & Hp); [|done].
    rewrite Forall_forall in Hok. destruct (ok_path _ (Hok o Ho)) as (h' & n' & _ & Hp' & Hc). rewrite Hp in Hp'. injection Hp' as <- <-.
    by apply plain_component.
  - apply returns_check; [|done]. apply negb_false_iff, bool_decide_eq_true, sort_strs_unique, NoDup_Permutation;
      [by apply listdir_nodup|apply NoDup_remove_dups|done].
Qed.

Lemma verify_files_calm observations h : Forall obs_ok observations -> tree h -> evidence observations h ->
  returns (_verify_observation_files E observations) h (fun _ h' => h' = h).
Proof.
  intros Hok HT Hev. apply returns_translate, returns_bind. eapply returns_mono.
  - apply (returns_for_each (fun l s => s = h /\ forall o, o ∈ l -> o ∈ observations)); [done|]. intros o l s [-> Hl].
    rewrite Forall_forall in Hok. eapply returns_mono; [eapply verify_file_calm; [apply Hl; by left| |done]|].
    + apply Hok, Hl. by left.
    + intros [] s' ->. split; [done|]. intros o' Ho'. apply Hl. by right.
  - intros [] s [-> _]. eapply returns_mono.
    + apply (returns_for_each (fun l s => s = h /\ forall x, x ∈ l -> x ∈ OBSERVATION_HARNESSES)); [done|]. intros x l s [-> Hl].
      eapply returns_mono; [apply verify_namespace_calm; [done|apply Hl; by left|done|done]|].
      intros [] s' ->. split; [done|]. intros y Hy. apply Hl. by right.
    + by intros [] s [-> _].
Qed.

(** What a load returns: a manifest whose bytes are the file and whose evidence
    is there. *)
Definition manifest_of (data : bytes) (observations : list ObservationArtifact) : ObservationManifest :=
  {| om_record := archived OBSERVATION_MANIFEST_RELATIVE data; om_observations := observations |}.

Lemma manifest_relative_parts : _relative_parts OBSERVATION_MANIFEST_RELATIVE = Ok manifest_path.
Proof. vm_compute. reflexivity. Qed.

Lemma load_ret expected h m h' :
  load_observation_manifest E expected h = (Ret m, h') ->
  h' = h /\ exists data value, h_files h !! manifest_path = Some data /\ m = manifest_of data (om_observations m) /\
    (forall e, expected = Some e -> hexdigest data = e) /\ load_json_bytes data = Some value /\
    _parse_manifest value = Ok (om_observations m) /\ _canonical_manifest_bytes (om_observations m) = Ok data /\
    evidence (om_observations m) h.
Proof.
  unfold load_observation_manifest. intros H. apply bind_ret_inv in H as (data & h1 & H1 & H). apply translate_ret in H1.
  apply read_bytes_ret in H1 as (-> & parts & Hp & Hd). rewrite manifest_relative_parts in Hp. injection Hp as <-.
  apply bind_ret_inv in H as ([] & h1 & H1 & H). apply check_ret in H1 as [Hroot ->].
  apply bind_ret_inv in H as (value & h1 & H1 & H). unfold of_option in H1.
  destruct (load_json_bytes data) as [v|] eqn:L; [|done]. injection H1 as <- <-.
  apply bind_result in H as [(obs & Hobs & H) | [_ N]]; [|by destruct (N m)].
  apply bind_result in H as [(canonical & Hcan & H) | [_ N]]; [|by destruct (N m)].
  apply bind_ret_inv in H as ([] & h1 & H1 & H). apply check_ret in H1 as [H1 ->]. apply negb_false_iff, bool_decide_eq_true in H1 as ->.
  apply bind_ret_inv in H as ([] & h1 & H1 & H). apply verify_files_ret in H1 as [-> Hev]; [|by eapply parse_manifest_ok].
  injection H as <- <-. split; [done|]. exists data, v. cbn [om_observations]. split_and!; try done.
  intros e ->. by apply negb_false_iff, str_eqb_eq in Hroot.
Qed.

Lemma load_calm observations data h :
  tree h -> h_files h !! manifest_path = Some data -> manifest_ok observations ->
  _canonical_manifest_bytes observations = Ok data -> evidence observations h ->
  load_observation_manifest E (Some (hexdigest data)) h = (Ret (manifest_of data observations), h).
Proof.
  intros HT Hd Hok Hc Hev. destruct (manifest_read_back _ Hok) as (data' & value & Hc' & Hl & Hv & Hp). rewrite Hc in Hc'. injection Hc' as <-.
  assert (R : returns (load_observation_manifest E (Some (hexdigest data))) h (fun m h' => m = manifest_of data observations /\ h' = h)).
  { apply returns_bind, returns_translate. eapply (read_calm _ _ manifest_path); [apply manifest_relative_parts|cbn; lia|apply Hev| |exact Hd|done|].
    { apply (harness_prefix (u "packet")), Hev. right; right; by left. }
    apply returns_bind, returns_check; [by rewrite str_eqb_refl|]. apply returns_bind. eapply returns_of_option; [exact Hv|].
    apply returns_bind. eapply returns_of_result; [exact Hp|]. apply returns_bind. eapply returns_of_result; [exact Hc|].
    apply returns_bind, returns_check; [by rewrite bool_decide_true|]. apply returns_bind.
    eapply returns_mono; [apply verify_files_calm; [apply Hok|done|done]|]. intros [] h' ->. by apply returns_ret. }
  destruct R as (m & h' & -> & -> & ->). done.
Qed.
End Load.

(** C30: loading accepts exactly the evidence.  On a host without a name that is
    both a file and a directory, loading the manifest with a root digest returns
    a manifest if and only if the manifest file has that digest and is the
    canonical encoding of well-formed, sorted, duplicate-free observations, every
    observation file is there with its size and its digest, and the four
    observation directories hold no other name; it never changes the host. *)
Theorem load_manifest_exact E root h m h' : tree h ->
  load_observation_manifest E (Some root) h = (Ret m, h') <->
  h' = h /\ exists data, h_files h !! manifest_path = Some data /\ hexdigest data = root /\
    m = manifest_of data (om_observations m) /\ manifest_ok (om_observations m) /\
    _canonical_manifest_bytes (om_observations m) = Ok data /\ evidence (om_observations m) h.
Proof.
  intros HT. split.
  - intros (-> & data & value & H1 & H2 & H3 & _ & H5 & H6 & H7)%load_ret. split; [done|]. exists data. split_and!; try done.
    + by apply H3.
    + by eapply parse_manifest_ok.
  - intros (-> & data & Hd & <- & Hm & Hok & Hc & Hev). rewrite Hm. by apply load_calm.
Qed.

(** Two hosts with different bytes of one digest in one file. *)
Definition file_collision (h1 h2 : host) : Prop :=
  exists p b1 b2, h_files h1 !! p = Some b1 /\ h_files h2 !! p = Some b2 /\ b1 <> b2 /\ hexdigest b1 = hexdigest b2.

Lemma evidence_agrees observations h1 h2 :
  Forall obs_ok observations -> evidence observations h1 -> evidence observations h2 ->
  (forall harness name, harness ∈ OBSERVATION_HARNESSES -> h_files h1 !! obs_at harness name = h_files h2 !! obs_at harness name) \/
  file_collision h1 h2.
Proof.
  intros Hok V1 V2.
  set (same o := h_files h1 !! split_slash (ad_path (oa_descriptor o)) = h_files h2 !! split_slash (ad_path (oa_descriptor o))).
  destruct (decide (Forall same observations)) as [HS|HS].
  - left. intros harness name Hh. rewrite Forall_forall in HS.
    assert (N : forall h, evidence observations h -> is_Some (h_files h !! obs_at harness name) ->
      exists o, o ∈ observations /\ split_slash (ad_path (oa_descriptor o)) = obs_at harness name).
    { intros h V Hs. apply (ev_names _ _ V); [done|]. apply elem_of_listdir. by left. }
    destruct (h_files h1 !! obs_at harness name) as [b1|] eqn:F1, (h_files h2 !! obs_at harness name) as [b2|] eqn:F2; [| | |done].
    + destruct (N h1 V1) as (o & Ho & Hp); [by eexists|]. specialize (HS o Ho). unfold same in HS. rewrite Hp in HS. congruence.
    + destruct (N h1 V1) as (o & Ho & Hp); [by eexists|]. specialize (HS o Ho). unfold same in HS. rewrite Hp in HS. congruence.
    + destruct (N h2 V2) as (o & Ho & Hp); [by eexists|]. specialize (HS o Ho). unfold same in HS. rewrite Hp in HS. congruence.
  - right. apply not_Forall_Exists, Exists_exists in HS; [|apply _].
    destruct HS as (o & Ho & Hne). destruct (ev_files _ _ V1 o Ho) as (b1 & F1 & _ & D1), (ev_files _ _ V2 o Ho) as (b2 & F2 & _ & D2).
    exists (split_slash (ad_path (oa_descriptor o))), b1, b2. split_and!; [done|done| |congruence]. unfold same in Hne. congruence.
Qed.

(** C28: the root digest binds the evidence.  Whenever and wherever manifests are
    loaded with the same root digest, they are the same manifest, and the two
    archives hold the same observation files with the same bytes and no others
    beside them, unless some file of the two exhibits a SHA-256 collision. *)
Theorem manifest_binds_evidence E1 E2 root h1 h2 m1 m2 h1' h2' :
  load_observation_manifest E1 (Some root) h1 = (Ret m1, h1') ->
  load_observation_manifest E2 (Some root) h2 = (Ret m2, h2') ->
  (m1 = m2 /\ forall harness name, harness ∈ OBSERVATION_HARNESSES ->
     h_files h1 !! obs_at harness name = h_files h2 !! obs_at harness name) \/
  file_collision h1 h2.
Proof.
  intros (_ & d1 & v1 & F1 & M1 & R1 & L1 & P1 & _ & V1)%load_ret (_ & d2 & v2 & F2 & M2 & R2 & L2 & P2 & _ & V2)%load_ret.
  specialize (R1 _ eq_refl). specialize (R2 _ eq_refl).
  destruct (decide (d1 = d2)) as [->|Hne]; [|right; exists manifest_path, d1, d2; split_and!; congruence].
  assert (HO : om_observations m1 = om_observations m2) by congruence. rewrite <-HO in V2, M2.
  destruct (evidence_agrees _ h1 h2 (proj1 (parse_manifest_ok _ _ P1)) V1 V2) as [HA|]; [|by right].
  left. split; [congruence|done].
Qed.

(** An archive with one packet capture and its manifest. *)
Definition demo_bytes : bytes := bstr "pcap".
Definition demo_obs : ObservationArtifact :=
  {| oa_subject := u "packet-01";
     oa_descriptor := {| ad_kind := u "packet-pcap"; ad_path := u "raw/packet/observations/packet-01.pcap";
                         ad_size := 4; ad_sha256 := hexdigest demo_bytes |} |}.
Definition demo_dirs : gset path :=
  list_to_set ([u "raw"] :: flat_map (fun harness => [[u "raw"; harness]; odir harness]) OBSERVATION_HARNESSES).
Definition demo_evidence_host (data : bytes) : host :=
  Host true demo_dirs (<[manifest_path := data]> {[obs_at (u "packet") (u "packet-01.pcap") := demo_bytes]}) [] true 0.

Lemma demo_manifest_ok : manifest_ok [demo_obs].
Proof.
  split; [|reflexivity]. constructor; [|constructor]. constructor.
  - reflexivity.
  - eexists. split; [vm_compute; reflexivity|]. split; [apply bool_decide_eq_true; by exists (u "raw/packet/observations/packet-01")|].
    vm_compute. split; discriminate.
  - exists (u "packet"), (u "packet-01.pcap"). split; [right; right; by left|]. split; vm_compute; reflexivity.
  - vm_compute. discriminate.
  - apply hexdigest_sha256.
Qed.

Lemma demo_dirs_length p : p ∈ demo_dirs -> (length p <= 3)%nat.
Proof.
  unfold demo_dirs. rewrite elem_of_list_to_set. intros Hp. apply list_elem_of_In in Hp.
  assert (C : forallb (fun p => (length p <=? 3)%nat) ([u "raw"] :: flat_map (fun harness => [[u "raw"; harness]; odir harness]) OBSERVATION_HARNESSES) = true)
    by (vm_compute; reflexivity).
  apply forallb_forall with (x := p) in C; [|done]. by apply Nat.leb_le in C.
Qed.

Lemma demo_evidence data : evidence [demo_obs] (demo_evidence_host data).
Proof.
  constructor; [done| | |].
  - intros harness Hh p Hp. cbn [h_dirs demo_evidence_host]. unfold demo_dirs. rewrite elem_of_list_to_set.
    cbn in Hp. rewrite !elem_of_cons, elem_of_nil in Hp. destruct Hp as [-> | [-> | [-> | []]]]; [by left|right..];
      apply list_elem_of_In, in_flat_map; exists harness; (split; [by apply list_elem_of_In|]); [by left|right; by left].
  - intros o ->%list_elem_of_singleton. exists demo_bytes. split; [|by split]. vm_compute. reflexivity.
  - intros harness name _. rewrite elem_of_listdir. cbn [h_files h_dirs demo_evidence_host odir app]. split.
    + intros [[b Hb] | Hd]; [|apply demo_dirs_length in Hd; cbn in Hd; lia]. exists demo_obs. split; [by left|].
      rewrite lookup_insert_ne in Hb by done. apply lookup_singleton_Some in Hb as [Hp _].
      transitivity (obs_at (u "packet") (u "packet-01.pcap")); [vm_compute; reflexivity|done].
    + intros (o & ->%list_elem_of_singleton & Hp). left. exists demo_bytes. rewrite lookup_insert_ne by done.
      change (obs_at (u "packet") (u "packet-01.pcap") = obs_at harness name) in Hp.
      change [u "raw"; harness; u "observations"; name] with (obs_at harness name). rewrite <-Hp. apply lookup_singleton_eq.
Qed.

Lemma demo_tree data : tree (demo_evidence_host data).
Proof.
  intros p [b Hb]. cbn [h_files demo_evidence_host] in Hb. change (p ∉ demo_dirs).
  rewrite lookup_insert_Some, lookup_singleton_Some in Hb. destruct Hb as [[<- _] | (_ & <- & _)].
  - apply (bool_decide_eq_false (manifest_path ∈ demo_dirs)). vm_compute. reflexivity.
  - intros Hp. apply demo_dirs_length in Hp. cbn in Hp. lia.
Qed.

Lemma load_manifest_exact_witness :
  exists data, load_observation_manifest (zero_env (fun _ => Proceed)) (Some (hexdigest data)) (demo_evidence_host data) =
    (Ret (manifest_of data [demo_obs]), demo_evidence_host data).
Proof.
  destruct (manifest_read_back _ demo_manifest_ok) as (data & _ & Hc & _). exists data.
  apply (load_manifest_exact (zero_env (fun _ => Proceed)) (hexdigest data) (demo_evidence_host data) _ _ (demo_tree data)).
  split; [reflexivity|]. exists data.
  exact (conj (lookup_insert_eq _ _ _) (conj eq_refl (conj eq_refl (conj demo_manifest_ok (conj Hc (demo_evidence data)))))).
Defined.

Lemma manifest_binds_evidence_witness :
  exists data, (manifest_of data [demo_obs] = manifest_of data [demo_obs] /\ forall harness name, harness ∈ OBSERVATION_HARNESSES ->
     h_files (demo_evidence_host data) !! obs_at harness name = h_files (demo_evidence_host data) !! obs_at harness name) \/
   file_collision (demo_evidence_host data) (demo_evidence_host data).
Proof.
  destruct (manifest_read_back _ demo_manifest_ok) as (data & _ & Hc & _). exists data.
  assert (L : load_observation_manifest (zero_env (fun _ => Proceed)) (Some (hexdigest data)) (demo_evidence_host data) =
    (Ret (manifest_of data [demo_obs]), demo_evidence_host data)).
  { apply load_calm; [apply demo_tree|apply lookup_insert_eq|apply demo_manifest_ok|exact Hc|apply demo_evidence]. }
  exact (manifest_binds_evidence _ _ _ _ _ _ _ _ _ L L).
Defined.
