(* ===== verification/Catalogue.v ===== *)
(** * The catalogue of evidence subjects

    The source-pinned tables every run is measured against: the adversarial
    cases of src/scripts/harness/adversarial_clients.py, the lifecycle probes of
    lifecycle_matrix.py, the packet cases of packet_evidence.py and the subjects
    of performance_ledger.py, the raw subjects each of them requires, the kinds
    of artifact a subject may have, and the tables of
    physical_collector_request.py over all four harnesses. *)

From S2P Require Import Prelude Sha256 Text Json Effects Archive Observation.

Open Scope string_scope.
Open Scope Z_scope.

(** [x in names] for a set of texts. *)
Definition mem (x : str) (names : list str) : bool := existsb (str_eqb x) names.

(** ** Adversarial cases *)

Record AdversarialCaseSpec := {
  ac_category : string; ac_role : string; ac_precondition : string; ac_event : string; ac_accepted : bool;
  ac_actual_code : string; ac_cleanup_state : string; ac_state_relation : string; ac_isolation_mode : string;
  ac_reset_required : bool; ac_decision_source : string; ac_identity_mismatch : option string;
  ac_secret_surface : option string
}.

Definition _case (category precondition event : string) (accepted : bool) (actual_code cleanup_state : string)
  (state_relation isolation_mode : string) (reset_required : bool) (decision_source : string)
  (identity_mismatch secret_surface : option string) : AdversarialCaseSpec :=
  {| ac_category := category; ac_role := "host"; ac_precondition := precondition; ac_event := event;
     ac_accepted := accepted; ac_actual_code := actual_code; ac_cleanup_state := cleanup_state;
     ac_state_relation := state_relation; ac_isolation_mode := isolation_mode; ac_reset_required := reset_required;
     ac_decision_source := decision_source; ac_identity_mismatch := identity_mismatch; ac_secret_surface := secret_surface |}.

Definition BASELINE_SPEC : AdversarialCaseSpec :=
  _case "baseline" "authorized-product-host" "peer_authorization_decision" true "accepted" "off"
    "unchanged" "exclusive-machine" false "authority_peer" None None.

Definition SECRET_SURFACES : list (string * string) :=
  [("secret-extraction-logs", "unified-logs"); ("secret-extraction-preferences", "preferences");
   ("secret-extraction-journal", "authority-journal"); ("secret-extraction-crash-records", "crash-records");
   ("secret-extraction-snapshots", "authority-snapshots"); ("secret-extraction-evidence", "release-evidence")].

(** [REQUIRED_CASES], in three parts and the secret cases. *)
Definition identity_cases : list (string * AdversarialCaseSpec) := [
  ("wrong-team-id", _case "identity" "peer-team-mismatch" "xpc_requirement_rejection" false "global_authority_identity_rejected"
     "off" "unchanged" "signed-variant" false "xpc_requirement" (Some "team_id") None);
  ("wrong-bundle-identifier", _case "identity" "peer-signing-identifier-mismatch" "xpc_requirement_rejection" false
     "global_authority_identity_rejected" "off" "unchanged" "signed-variant" false "xpc_requirement" (Some "signing_id") None);
  ("wrong-designated-requirement", _case "identity" "peer-designated-requirement-mismatch" "xpc_requirement_rejection" false
     "global_authority_identity_rejected" "off" "unchanged" "signed-variant" false "xpc_requirement" (Some
     "designated_requirement") None);
  ("wrong-entitlement", _case "identity" "peer-entitlements-mismatch" "xpc_requirement_rejection" false
     "global_authority_identity_rejected" "off" "unchanged" "signed-variant" false "xpc_requirement" (Some "entitlements")
     None);
  ("wrong-uid", _case "identity" "peer-euid-mismatch" "peer_authorization_decision" false "global_authority_identity_rejected"
     "off" "unchanged" "privileged-uid" true "authority_peer" (Some "euid") None);
  ("wrong-audit-session", _case "identity" "peer-audit-session-mismatch" "peer_authorization_decision" false
     "global_authority_identity_rejected" "off" "unchanged" "isolated-audit-session" true "authority_peer" (Some "audit_session"
     ) None);
  ("stale-pid-evidence", _case "identity" "peer-pid-evidence-stale" "identity_evidence_rejection" false "stale_evidence" "off"
     "unchanged" "pid-reuse-window" true "identity_freshness" (Some "pid_fresh") None);
  ("stale-audit-evidence", _case "identity" "peer-audit-evidence-stale" "identity_evidence_rejection" false "stale_evidence"
     "off" "unchanged" "isolated-audit-session" true "identity_freshness" (Some "audit_evidence_fresh") None);
  ("inactive-console-user", _case "identity" "peer-console-user-inactive" "peer_authorization_decision" false
     "global_authority_identity_rejected" "off" "unchanged" "isolated-console-session" true "authority_peer" (Some
     "console_user") None);
  ("same-team-unknown-bundle", _case "identity" "peer-role-bundle-unknown" "xpc_requirement_rejection" false
     "global_authority_identity_rejected" "off" "unchanged" "signed-variant" false "xpc_requirement" (Some "role_binding")
     None)].

Definition operation_cases : list (string * AdversarialCaseSpec) := [
  ("replayed-operation", _case "replay" "operation-context-already-consumed" "operation_decision" false "replay_rejected" "off"
     "unchanged" "exclusive-machine" false "authority_operation" None None);
  ("replayed-start-ticket", _case "replay" "start-ticket-already-redeemed" "operation_decision" false "ticket_already_redeemed"
     "off" "unchanged" "exclusive-machine" false "authority_operation" None None);
  ("duplicate-redemption", _case "replay" "ticket-second-redemption" "operation_decision" false "ticket_already_redeemed" "off"
     "unchanged" "exclusive-machine" false "authority_operation" None None);
  ("replay-cursor-rollback", _case "replay" "durable-replay-cursor-rollback" "journal_integrity_decision" false
     "journal_corrupt" "quarantined" "changed" "journal-snapshot" true "authority_journal" None None);
  ("authority-journal-truncation", _case "journal" "authority-journal-truncated" "journal_integrity_decision" false
     "journal_corrupt" "quarantined" "changed" "journal-snapshot" true "authority_journal" None None);
  ("authority-journal-tamper", _case "journal" "authority-journal-bit-tamper" "journal_integrity_decision" false
     "journal_corrupt" "quarantined" "changed" "journal-snapshot" true "authority_journal" None None);
  ("authority-journal-symlink", _case "journal" "authority-journal-symlink" "journal_integrity_decision" false "journal_corrupt"
     "quarantined" "changed" "journal-snapshot" true "authority_journal" None None)].

Definition service_cases : list (string * AdversarialCaseSpec) := [
  ("oversize-message", _case "protocol" "request-exceeds-message-bound" "operation_decision" false "invalid_message" "off"
     "unchanged" "exclusive-machine" false "authority_operation" None None);
  ("deep-message", _case "protocol" "request-exceeds-nesting-bound" "operation_decision" false "invalid_message" "off"
     "unchanged" "exclusive-machine" false "authority_operation" None None);
  ("noncanonical-message", _case "protocol" "request-is-noncanonical" "operation_decision" false "invalid_message" "off"
     "unchanged" "exclusive-machine" false "authority_operation" None None);
  ("request-flood", _case "backpressure" "bounded-read-request-flood" "operation_decision" false "resource_exhausted" "off"
     "unchanged" "exclusive-machine" false "authority_operation" None None);
  ("in-flight-saturation", _case "backpressure" "mutating-transaction-capacity-saturated" "operation_decision" false "busy"
     "off" "unchanged" "exclusive-machine" false "authority_operation" None None);
  ("event-queue-saturation", _case "backpressure" "peer-event-queue-capacity-saturated" "operation_decision" false
     "resource_exhausted" "off" "unchanged" "exclusive-machine" false "authority_operation" None None);
  ("heartbeat-loss", _case "liveness" "owner-heartbeat-expired" "lease_liveness_decision" false "owner_unresponsive" "off"
     "changed" "exclusive-machine" false "authority_liveness" None None);
  ("fast-user-switching-race", _case "liveness" "console-owner-changed-during-operation" "lease_liveness_decision" false
     "stale_operation" "off" "changed" "fast-user-switch" true "authority_liveness" None None);
  ("late-callback", _case "liveness" "owner-callback-after-revocation" "lease_liveness_decision" false "stale_operation" "off"
     "unchanged" "exclusive-machine" false "authority_liveness" None None)].

Definition secret_cases : list (string * AdversarialCaseSpec) :=
  map (fun '(case_id, surface) =>
    (case_id, _case "secret" ("canary-injected-" ++ surface) "secret_coverage_manifest" true "secret_absent" "off"
                "unchanged" "secret-canary" true "secret_coverage" None (Some surface))) SECRET_SURFACES.

Definition ADVERSARIAL_CASES : list (string * AdversarialCaseSpec) :=
  (identity_cases ++ operation_cases ++ service_cases ++ secret_cases)%list.

Definition required_case_ids : list str := sort_strs (map (fun kv => u (fst kv)) ADVERSARIAL_CASES).
Definition all_subject_ids : list str := u "baseline" :: required_case_ids.

Definition required_raw_subjects : list str :=
  (flat_map (fun subject => [subject; u "observation:" ++ subject; u "client-signature:" ++ subject;
                             u "server-signature:" ++ subject]) all_subject_ids ++
   map (fun kv => u "secret-coverage:" ++ u (fst kv)) SECRET_SURFACES)%list.
Definition REQUIRED_ADVERSARIAL_RAW_SUBJECTS : list str := Eval vm_compute in required_raw_subjects.

Definition ADVERSARIAL_RAW_KINDS : list str :=
  map u ["adversarial-case-observation"; "adversarial-secret-coverage"; "adversarial-signature-observation"; "adversarial-transcript"].

(** [expected_raw_kind] of adversarial_clients.py; [None] is
    [AdversarialMatrixError]. *)
Definition expected_adversarial_raw_kind (subject : str) : option str :=
  if negb (mem subject REQUIRED_ADVERSARIAL_RAW_SUBJECTS) then None
  else if starts_with (u "observation:") subject then Some (u "adversarial-case-observation")
  else if starts_with (u "client-signature:") subject || starts_with (u "server-signature:") subject
  then Some (u "adversarial-signature-observation")
  else if starts_with (u "secret-coverage:") subject then Some (u "adversarial-secret-coverage")
  else Some (u "adversarial-transcript").

(** ** Lifecycle probes *)

(** Category, exit code, terminal observation and the least value of each
    attribute. *)
Definition PROBE_SPECS : list (string * (string * Z * string * list (string * Z))) := [
  ("inside-out-signatures", ("identity", 0, "identity-verified", []));
  ("team-id", ("identity", 0, "identity-verified", []));
  ("bundle-identifiers", ("identity", 0, "identity-verified", []));
  ("entitlements", ("identity", 0, "identity-verified", []));
  ("provisioning", ("identity", 0, "identity-verified", []));
  ("daemon-registration-approval", ("daemon", 0, "approval-observed", []));
  ("daemon-registration-denial", ("daemon", 77, "denial-observed", []));
  ("system-extension-approval", ("system-extension", 0, "approval-observed", []));
  ("system-extension-pending", ("system-extension", 0, "pending-observed", []));
  ("system-extension-restart", ("system-extension", 0, "restart-observed", []));
  ("network-extension-approval", ("network-extension", 0, "approval-observed", []));
  ("network-extension-denial", ("network-extension", 77, "denial-observed", []));
  ("network-extension-pending", ("network-extension", 0, "pending-observed", []));
  ("renderer-ready-v2", ("migration", 0, "ordered-ready-observed", []));
  ("upgrade", ("packaging", 0, "transition-observed", []));
  ("replacement", ("packaging", 0, "transition-observed", []));
  ("downgrade-refusal", ("packaging", 77, "denial-observed", []));
  ("install-cleanup", ("packaging", 0, "cleanup-observed", []));
  ("uninstall-cleanup", ("packaging", 0, "cleanup-observed", []));
  ("login", ("session", 0, "transition-observed", []));
  ("logout", ("session", 0, "transition-observed", []));
  ("lock", ("session", 0, "transition-observed", []));
  ("fast-user-switching", ("session", 0, "transition-observed", [("user_count", 2)]));
  ("concurrent-starts", ("concurrency", 0, "serialization-observed", [("concurrent_start_count", 2)]));
  ("cancellation", ("concurrency", 0, "cancellation-observed", []));
  ("sleep-wake", ("power", 0, "recovery-observed", []));
  ("wkwebview-850x603", ("visual", 0, "pixel-buffer-observed", []));
  ("reboot-recovery", ("power", 0, "recovery-observed", []));
  ("host-crash", ("crash", 0, "recovery-observed", []));
  ("global-authority-crash", ("crash", 0, "recovery-observed", []));
  ("proxy-agent-crash", ("crash", 0, "recovery-observed", []));
  ("provider-crash", ("crash", 0, "recovery-observed", []))].

Definition REQUIRED_PROBES : list str := map (fun kv => u (fst kv)) PROBE_SPECS.
Definition LIFECYCLE_EVENT_SUBJECTS : list str := REQUIRED_PROBES.
Definition LIFECYCLE_OBSERVATION_SUBJECTS : list str := map (fun probe_id => (probe_id ++ u ":observation")%list) REQUIRED_PROBES.
Definition LIFECYCLE_SPECIAL_SUBJECTS : list str :=
  map u ["renderer-ready-v2:trace"; "network-extension-approval:trace"; "network-extension-denial:trace";
         "network-extension-pending:trace"; "sleep-wake:trace"; "sleep-wake:packet"; "wkwebview-850x603:metadata";
         "wkwebview-850x603:pixels"].
Definition EXPECTED_LIFECYCLE_RAW_SUBJECTS : list str :=
  Eval vm_compute in (LIFECYCLE_EVENT_SUBJECTS ++ LIFECYCLE_OBSERVATION_SUBJECTS ++ LIFECYCLE_SPECIAL_SUBJECTS)%list.

(** [None] is [LifecycleMatrixError]. *)
Definition expected_lifecycle_raw_kinds (subject : str) : option (list str) :=
  if negb (mem subject EXPECTED_LIFECYCLE_RAW_SUBJECTS) then None
  else if mem subject LIFECYCLE_OBSERVATION_SUBJECTS then Some [u "lifecycle-observation"]
  else if str_eqb subject (u "renderer-ready-v2:trace") then Some [u "renderer-ready-trace"]
  else if mem subject (map u ["network-extension-approval:trace"; "network-extension-denial:trace"; "network-extension-pending:trace"])
  then Some [u "network-extension-trace"]
  else if str_eqb subject (u "sleep-wake:trace") then Some [u "sleep-wake-trace"]
  else if str_eqb subject (u "sleep-wake:packet") then Some [u "packet-pcap"; u "packet-pcapng"]
  else if str_eqb subject (u "wkwebview-850x603:metadata") then Some [u "wkwebview-metadata"]
  else if str_eqb subject (u "wkwebview-850x603:pixels") then Some [u "wkwebview-rgba"]
  else if mem subject LIFECYCLE_EVENT_SUBJECTS then Some [u "lifecycle-event"]
  else None.

(** ** Packet cases *)

(** [CaseSpec] of packet_evidence.py. *)
Record packet_case := CaseSpec {
  cs_protocol : string; cs_family : string; cs_resolver_role : string; cs_vantage : string;
  cs_token_observed : bool; cs_product_state : string
}.

Definition PACKET_CASES : list (string * packet_case) := [
  ("tcp-ipv4", CaseSpec "tcp" "ipv4" "none" "tunnel_egress" true "active");
  ("tcp-ipv6", CaseSpec "tcp" "ipv6" "none" "tunnel_egress" true "active");
  ("udp", CaseSpec "udp" "ipv4" "none" "tunnel_egress" true "active");
  ("quic", CaseSpec "quic" "ipv4" "none" "tunnel_egress" true "active");
  ("dns-a-primary", CaseSpec "dns" "ipv4" "primary" "independent_server" true "active");
  ("dns-a-secondary", CaseSpec "dns" "ipv4" "secondary" "independent_server" true "active");
  ("dns-aaaa-primary", CaseSpec "dns" "ipv6" "primary" "independent_server" true "active");
  ("dns-aaaa-secondary", CaseSpec "dns" "ipv6" "secondary" "independent_server" true "active");
  ("lan-bypass", CaseSpec "tcp" "ipv4" "none" "lan_segment" true "active");
  ("included-routes", CaseSpec "tcp" "ipv4" "none" "tunnel_egress" true "active");
  ("excluded-routes", CaseSpec "tcp" "ipv4" "none" "direct_wan" true "active");
  ("stop-cleanup", CaseSpec "tcp" "ipv4" "none" "tunnel_egress" false "off");
  ("ipv6-disabled-absence", CaseSpec "tcp" "ipv6" "none" "tunnel_egress" false "ipv6-disabled")].

Definition EXPECTED_PACKET_RAW_SUBJECTS : list str :=
  Eval vm_compute in
    flat_map (fun kv => map (fun part => (u (fst kv) ++ u part)%list) [""; ":product-state"; ":capture-provenance"; ":send-attempt"])
      PACKET_CASES.
Definition OPTIONAL_PACKET_RAW_SUBJECTS : list str :=
  Eval vm_compute in
    flat_map (fun kv => if cs_token_observed (snd kv) then [] else [(u (fst kv) ++ u ":restore-state")%list]) PACKET_CASES.

(** ** Performance subjects *)

Definition PERFORMANCE_LEDGER_KIND : str := u "performance-sample-ledger".
Definition PERFORMANCE_SHAPING_KIND : str := u "performance-shaping-transaction".
Definition LEDGER_SUBJECT : str := u "sample-ledger".
Definition REQUIRED_PERFORMANCE_SUBJECTS : list str := [LEDGER_SUBJECT; u "shaping-intent"; u "shaping-restoration"].

(** ** The four harnesses of a receipt *)

(** Harness, version of the tool and kind of its report, in order. *)
Definition EXPECTED_REPORTS : list (str * (str * str)) :=
  [(u "adversarial", (u "adversarial-clients-v3", u "adversarial-report"));
   (u "lifecycle", (u "lifecycle-matrix-v4", u "lifecycle-report"));
   (u "packet", (u "packet-evidence-v4", u "packet-report"));
   (u "performance", (u "performance-gates-v3", u "performance-report"))].
Definition REPORT_HARNESSES : list str := map fst EXPECTED_REPORTS.

Definition RAW_KINDS_BY_HARNESS : list (str * list str) :=
  [(u "adversarial", ADVERSARIAL_RAW_KINDS);
   (u "lifecycle", map u ["lifecycle-observation"; "lifecycle-event"; "network-extension-trace"; "packet-pcap";
                          "renderer-ready-trace"; "sleep-wake-trace"; "wkwebview-metadata"; "wkwebview-rgba"]);
   (u "packet", map u ["packet-capture-provenance"; "packet-pcap"; "packet-pcapng"; "packet-product-state-observation";
                       "packet-send-attempt"]);
   (u "performance", [PERFORMANCE_LEDGER_KIND; PERFORMANCE_SHAPING_KIND])].

Definition REQUIRED_RECEIPT_ARTIFACT_COUNT : Z := 269.
Definition MAX_RECEIPT_ARTIFACT_COUNT : Z := 271.
Definition MAX_TOTAL_ARTIFACT_BYTES : Z := 256 * MiB.
