(* ===== verification/CollectorRequest.v ===== *)
(** * Collector requests

    src/scripts/harness/physical_collector_request.py: the run context that binds
    a candidate to the observed machine, the nonce request, and the receipt
    request that binds four reports and every raw artifact to one nonce.  A
    function that reads the clock takes the reading as an argument; the commands
    that observe the machine and [plistlib] are the parameters of Identity.v. *)

From S2P Require Import Prelude Sha256 Text Json DateTime Effects Base64 Ps256 TrustPolicy Archive Observation.
From S2P Require Import Python Timestamp Identity Catalogue.

Open Scope Z_scope.
Open Scope list_scope.

Definition CRE {A} : result pyexn A := Err PhysicalCollectorRequestError.

(** [datetime.now(timezone.utc).replace(microsecond=0)]. *)
Definition _now (reading : Z) : Z := reading / SECOND * SECOND.
Definition _observation_time (observed_at : option Z) (reading : Z) : Z :=
  match observed_at with Some t => t | None => _now reading end.

(** ** The candidate *)

Definition PRODUCT_VERSION : str := u "0.5.1".
Definition GA_RELEASE_BUILD : str := u "51005".
Definition MAX_BUILD_VERSION_TEXT : str := u "9223372036854775807".

(** [canonical_build_version] of src/scripts/release_build_identity.py; [None] is
    [BuildIdentityError]. *)
Definition canonical_build_version (value : json) : option str :=
  match value with
  | JStr ((c :: r) as s) =>
      if (49 <=? c) && (c <=? 57) && forallb is_digit r then
        if (length MAX_BUILD_VERSION_TEXT <? length s)%nat ||
           ((length s =? length MAX_BUILD_VERSION_TEXT)%nat && negb (str_leb s MAX_BUILD_VERSION_TEXT))
        then None else Some s
      else None
  | _ => None
  end.

Record Candidate := {
  ca_version : str; ca_build_number : str; ca_app_manifest_sha256 : str; ca_signed_app_tree_sha256 : str;
  ca_artifact_hash_manifest_sha256 : str; ca_built_at : str
}.
Definition candidate_json (c : Candidate) : json :=
  JObj [(u "version", JStr (ca_version c)); (u "build_number", JStr (ca_build_number c));
        (u "app_manifest_sha256", JStr (ca_app_manifest_sha256 c));
        (u "signed_app_tree_sha256", JStr (ca_signed_app_tree_sha256 c));
        (u "artifact_hash_manifest_sha256", JStr (ca_artifact_hash_manifest_sha256 c)); (u "built_at", JStr (ca_built_at c))].

Definition CANDIDATE_FIELDS : list str :=
  map u ["version"; "build_number"; "app_manifest_sha256"; "signed_app_tree_sha256"; "artifact_hash_manifest_sha256"; "built_at"]%string.

Definition json_text (value : json) : str := match value with JStr s => s | _ => [] end.

Definition _candidate (reading : Z) (value : json) : result pyexn Candidate :=
  candidate ← of_raw (exact_object value CANDIDATE_FIELDS);
  raise_if negb (json_eq_str (member candidate "version") PRODUCT_VERSION) with PhysicalCollectorRequestError ;;
  build_number ← match canonical_build_version (member candidate "build_number") with Some s => Ok s | None => CRE end;
  raise_if negb (str_eqb build_number GA_RELEASE_BUILD) with PhysicalCollectorRequestError ;;
  built_at ← _timestamp (member candidate "built_at");
  raise_if _now reading <? moment built_at with PhysicalCollectorRequestError ;;
  app_manifest ← require_sha256 (member candidate "app_manifest_sha256");
  signed_app_tree ← require_sha256 (member candidate "signed_app_tree_sha256");
  artifact_hash_manifest ← require_sha256 (member candidate "artifact_hash_manifest_sha256");
  Ok {| ca_version := PRODUCT_VERSION; ca_build_number := build_number; ca_app_manifest_sha256 := app_manifest;
        ca_signed_app_tree_sha256 := signed_app_tree; ca_artifact_hash_manifest_sha256 := artifact_hash_manifest;
        ca_built_at := json_text (member candidate "built_at") |}.

(** ** The environment *)

Definition MAX_TEXT_OUTPUT : Z := 4096.

Definition _run_text (runner : Runner) (command : list string) : result pyexn str :=
  match runner command with
  | TimeoutExpired => CRE
  | NotStarted => Err OSError
  | Completed returncode stdout stderr =>
      raise_if negb (returncode =? 0) || negb (bool_decide (stderr = [])) with PhysicalCollectorRequestError ;;
      raise_if bool_decide (stdout = []) || (MAX_TEXT_OUTPUT <? len stdout) with PhysicalCollectorRequestError ;;
      match utf8_decode stdout with
      | None => CRE
      | Some text =>
          let value := strip text in
          raise_if bool_decide (value = []) || match utf8_encode value with Some b => 128 <? len b | None => true end || has_control value
            with PhysicalCollectorRequestError ;;
          Ok value
      end
  end.

(** [^[0-9]{2}[A-Z][0-9]{1,5}$]. *)
Definition MACOS_BUILD_RE (s : str) : bool :=
  match s with
  | a :: b :: c :: r => is_digit a && is_digit b && upper_char c && forallb is_digit r && (1 <=? length r)%nat && (length r <=? 5)%nat
  | _ => false
  end.

(** The lanes of [EVIDENCE_PROFILE]: version, build and label. *)
Definition PINNED_RUNS : list (str * str * str) :=
  [(u "26.6", u "25G72", u "current-macos"); (u "15.7.8", u "24G824", u "macos15")].
Fixpoint pinned_run (runs : list (str * str * str)) (version build : str) : option str :=
  match runs with
  | [] => None
  | (v, b, os) :: runs => if str_eqb v version && str_eqb b build then Some os else pinned_run runs version build
  end.

(** The fields of [_observe_environment] that vary. *)
Record environment := {
  en_os : str; en_macos_version : str; en_macos_build : str; en_machine_sha256 : str; en_hardware_model : str;
  en_boot_environment_sha256 : str
}.
Definition MACHINE_IDENTITY_SCHEME : str := DOCUMENT.
Definition BOOT_ENVIRONMENT_SCHEME : str := BOOT_DOCUMENT.
Definition environment_items (e : environment) : list (str * json) :=
  [(u "os", JStr (en_os e)); (u "macos_version", JStr (en_macos_version e)); (u "macos_build", JStr (en_macos_build e));
   (u "machine_sha256", JStr (en_machine_sha256 e)); (u "machine_identity_scheme", JStr MACHINE_IDENTITY_SCHEME);
   (u "hardware_model", JStr (en_hardware_model e)); (u "virtualization_present", JBool false);
   (u "boot_environment_sha256", JStr (en_boot_environment_sha256 e));
   (u "boot_environment_scheme", JStr BOOT_ENVIRONMENT_SCHEME); (u "clean_install", JBool true)].

Definition _observe_environment (plist_loads : bytes -> plist_result) (runner : Runner) : result pyexn environment :=
  machine ← collect_machine_identity plist_loads runner;
  boot_environment ← collect_boot_environment_sha256 plist_loads runner;
  macos_version ← _run_text runner ["/usr/bin/sw_vers"; "-productVersion"]%string;
  macos_build ← _run_text runner ["/usr/bin/sw_vers"; "-buildVersion"]%string;
  raise_if negb (MACOS_BUILD_RE macos_build) with PhysicalCollectorRequestError ;;
  match pinned_run PINNED_RUNS macos_version macos_build with
  | None => CRE
  | Some os_label =>
      Ok {| en_os := os_label; en_macos_version := macos_version; en_macos_build := macos_build;
            en_machine_sha256 := mi_machine_sha256 machine; en_hardware_model := mi_hardware_model machine;
            en_boot_environment_sha256 := boot_environment |}
  end.

(** ** The run context *)

Definition CONTEXT_DOCUMENT : str := u "cfw-physical-run-context-v1".
Definition CONTEXT_SCHEMA_VERSION : Z := 1.
Definition CONTEXT_FIELDS : list str :=
  map u ["schema_version"; "document"; "evidence_profile_sha256"; "candidate"; "run"; "initialized_at"]%string.
Definition CONTEXT_RUN_FIELDS : list str :=
  map u ["os"; "macos_version"; "macos_build"; "machine_sha256"; "machine_identity_scheme"; "hardware_model";
         "virtualization_present"; "boot_environment_sha256"; "boot_environment_scheme"; "clean_install"; "run_id"]%string.

Record context := {
  cx_profile_sha256 : str; cx_candidate : Candidate; cx_environment : environment; cx_run_id : str; cx_initialized_at : str
}.
Definition context_run (c : context) : json := JObj (environment_items (cx_environment c) ++ [(u "run_id", JStr (cx_run_id c))]).
Definition context_json (c : context) : json :=
  JObj [(u "schema_version", JInt CONTEXT_SCHEMA_VERSION); (u "document", JStr CONTEXT_DOCUMENT);
        (u "evidence_profile_sha256", JStr (cx_profile_sha256 c)); (u "candidate", candidate_json (cx_candidate c));
        (u "run", context_run c); (u "initialized_at", JStr (cx_initialized_at c))].

(** [hashlib.sha256(canonical_json(EVIDENCE_PROFILE)).hexdigest()]. *)
Definition profile_sha256 : result pyexn str := b ← of_raw (canonical_json EVIDENCE_PROFILE); Ok (hexdigest b).

(** The readings of the clock by [_candidate] and by the caller of [_now] after
    it, by [validate_nonce_response], and by [build_receipt_request]. *)
Record clock := { ck_candidate : Z; ck_context : Z; ck_nonce : Z; ck_request : Z }.

Section Requests.
Context (plist_loads : bytes -> plist_result) (runner : Runner).

Definition initialize_context (candidate : json) (run_id : json) (clean_install_confirmed : bool) (reading : Z) (observed_at : stamp)
  : result pyexn context :=
  raise_if negb clean_install_confirmed with PhysicalCollectorRequestError ;;
  parsed_candidate ← _candidate reading candidate;
  parsed_run_id ← require_identifier run_id;
  observation ← _observe_environment plist_loads runner;
  profile ← profile_sha256;
  Ok {| cx_profile_sha256 := profile; cx_candidate := parsed_candidate; cx_environment := observation; cx_run_id := parsed_run_id;
        cx_initialized_at := _format_timestamp observed_at |}.

(** [run[field] != current] for a text or for a bool that [is] was checked of. *)
Definition drifted (run : list (str * json)) (field : str * json) : bool :=
  match snd field with
  | JStr s => negb (match obj_get run (fst field) with Some v => json_eq_str v s | None => false end)
  | _ => false
  end.

Definition validate_context (ck : clock) (value : json) : result pyexn context :=
  context ← of_raw (exact_object value CONTEXT_FIELDS);
  raise_if negb (json_eq_int (member context "schema_version") CONTEXT_SCHEMA_VERSION) ||
           negb (json_eq_str (member context "document") CONTEXT_DOCUMENT) with PhysicalCollectorRequestError ;;
  expected_profile ← profile_sha256;
  raise_if negb (json_eq_str (member context "evidence_profile_sha256") expected_profile) with PhysicalCollectorRequestError ;;
  candidate ← _candidate (ck_candidate ck) (member context "candidate");
  run ← of_raw (exact_object (member context "run") CONTEXT_RUN_FIELDS);
  run_id ← require_identifier (member run "run_id");
  raise_if negb (match member run "clean_install", member run "virtualization_present" with
                 | JBool true, JBool false => true | _, _ => false end) with PhysicalCollectorRequestError ;;
  observed ← _observe_environment plist_loads runner;
  raise_if existsb (drifted run) (environment_items observed) with PhysicalCollectorRequestError ;;
  initialized_at ← _timestamp (member context "initialized_at");
  raise_if _now (ck_context ck) <? moment initialized_at with PhysicalCollectorRequestError ;;
  Ok {| cx_profile_sha256 := expected_profile; cx_candidate := candidate; cx_environment := observed; cx_run_id := run_id;
        cx_initialized_at := json_text (member context "initialized_at") |}.

Definition COLLECTOR_REQUEST_SCHEMA_VERSION : Z := 1.
Definition MAX_COLLECTOR_REQUEST_BYTES : Z := 2 ^ 20.

Definition _bounded_request (value : json) : result pyexn json :=
  data ← of_raw (canonical_json value);
  raise_if MAX_COLLECTOR_REQUEST_BYTES <? len data + 1 with PhysicalCollectorRequestError ;;
  Ok value.

Definition nonce_request_json (c : context) : json :=
  let e := cx_environment c in
  JObj [(u "schema_version", JInt COLLECTOR_REQUEST_SCHEMA_VERSION); (u "candidate", candidate_json (cx_candidate c));
        (u "run", JObj [(u "os", JStr (en_os e)); (u "macos_version", JStr (en_macos_version e));
                        (u "macos_build", JStr (en_macos_build e)); (u "machine_sha256", JStr (en_machine_sha256 e));
                        (u "clean_install", JBool true); (u "run_id", JStr (cx_run_id c))])].

Definition build_nonce_request (ck : clock) (value : json) : result pyexn json :=
  validated ← validate_context ck value;
  _bounded_request (nonce_request_json validated).

(** ** Receipt bindings *)

Definition _bounded_printable (value : json) (maximum : Z) : result pyexn str :=
  match value with
  | JStr s =>
      match utf8_encode s with
      | None => CRE
      | Some encoded =>
          raise_if bool_decide (strip s = []) || (maximum <? len encoded) || has_control s with PhysicalCollectorRequestError ;;
          Ok s
      end
  | _ => CRE
  end.

(** [parse_descriptor] with the kinds a caller expects. *)
Definition parse_descriptor_of (kinds : list str) (value : json) : option ArtifactDescriptor :=
  d ← parse_descriptor value;
  if mem (ad_kind d) kinds then Some d else None.

Record report_binding := {
  rb_harness : str; rb_tool_version : str; rb_captured_at : str; rb_completed_at : str; rb_signed_at : str;
  rb_descriptor : ArtifactDescriptor
}.
Record raw_binding := { wb_harness : str; wb_subject : str; wb_descriptor : ArtifactDescriptor }.

Definition report_json (r : report_binding) : json :=
  JObj [(u "harness", JStr (rb_harness r)); (u "tool_version", JStr (rb_tool_version r));
        (u "captured_at", JStr (rb_captured_at r)); (u "completed_at", JStr (rb_completed_at r));
        (u "signed_at", JStr (rb_signed_at r)); (u "descriptor", descriptor_as_dict (rb_descriptor r))].
Definition raw_json (w : raw_binding) : json :=
  JObj [(u "harness", JStr (wb_harness w)); (u "subject", JStr (wb_subject w));
        (u "descriptor", descriptor_as_dict (wb_descriptor w))].

Definition BINDINGS_FIELDS : list str := map u ["schema_version"; "captured_at"; "completed_at"; "reports"; "raw_artifacts"]%string.
Definition REPORT_BINDING_FIELDS : list str :=
  map u ["harness"; "tool_version"; "captured_at"; "completed_at"; "signed_at"; "descriptor"]%string.
Definition RAW_ARTIFACT_BINDING_FIELDS : list str := map u ["harness"; "subject"; "descriptor"]%string.

(** The paths and digests that were recorded, and their bytes. *)
Record ledger := { lg_paths : list str; lg_digests : list str; lg_total : Z }.
Definition empty_ledger : ledger := {| lg_paths := []; lg_digests := []; lg_total := 0 |}.

(** [record_descriptor]; the exception is the caller's. *)
Definition record_descriptor (e : pyexn) (l : ledger) (d : ArtifactDescriptor) : result pyexn ledger :=
  raise_if mem (ad_path d) (lg_paths l) with e ;;
  raise_if mem (ad_sha256 d) (lg_digests l) with e ;;
  raise_if MAX_TOTAL_ARTIFACT_BYTES - lg_total l <? ad_size d with e ;;
  Ok {| lg_paths := lg_paths l ++ [ad_path d]; lg_digests := lg_digests l ++ [ad_sha256 d]; lg_total := lg_total l + ad_size d |}.

(** The times a report is compared with. *)
Record window := { wn_built : Z; wn_captured : Z; wn_completed : Z; wn_nonce : Z; wn_now : Z }.

Definition in_order (l : list Z) : bool :=
  match l with [] => true | x :: l => (fix go (x : Z) (l : list Z) := match l with [] => true | y :: l => (x <=? y) && go y l end) x l end.

(** One report of [_validated_receipt_bindings]. *)
Definition validated_report (w : window) (seen : list str) (l : ledger) (value : json) : result pyexn (report_binding * ledger) :=
  report ← of_raw (exact_object value REPORT_BINDING_FIELDS);
  match member report "harness" with
  | JStr harness =>
      match assoc EXPECTED_REPORTS harness with
      | None => CRE
      | Some (expected_version, expected_kind) =>
          raise_if mem harness seen with PhysicalCollectorRequestError ;;
          raise_if negb (json_eq_str (member report "tool_version") expected_version) with PhysicalCollectorRequestError ;;
          report_captured ← _timestamp (member report "captured_at");
          report_completed ← _timestamp (member report "completed_at");
          report_signed ← _timestamp (member report "signed_at");
          raise_if negb (in_order [wn_built w; wn_captured w; moment report_captured; moment report_completed; wn_completed w;
                                   wn_nonce w; moment report_signed; wn_now w]) with PhysicalCollectorRequestError ;;
          descriptor ← of_raw (parse_descriptor_of [expected_kind] (member report "descriptor"));
          l ← record_descriptor PhysicalCollectorRequestError l descriptor;
          Ok ({| rb_harness := harness; rb_tool_version := expected_version;
                 rb_captured_at := json_text (member report "captured_at");
                 rb_completed_at := json_text (member report "completed_at");
                 rb_signed_at := json_text (member report "signed_at"); rb_descriptor := descriptor |}, l)
      end
  | _ => CRE
  end.

Fixpoint validated_reports (w : window) (seen : list str) (l : ledger) (values : list json)
  : result pyexn (list report_binding * ledger) :=
  match values with
  | [] => Ok ([], l)
  | value :: values =>
      '(report, l) ← validated_report w seen l value;
      '(reports, l) ← validated_reports w (rb_harness report :: seen) l values;
      Ok (report :: reports, l)
  end.

(** The kind of a raw artifact agrees with its subject. *)
Definition subject_kind (harness subject kind : str) : result pyexn () :=
  if str_eqb harness (u "adversarial") then
    match expected_adversarial_raw_kind subject with
    | None => Err AdversarialMatrixError
    | Some expected => raise_if negb (str_eqb kind expected) with PhysicalCollectorRequestError ;; Ok ()
    end
  else if str_eqb harness (u "performance") then
    let expected := if str_eqb subject (u "sample-ledger") then PERFORMANCE_LEDGER_KIND else PERFORMANCE_SHAPING_KIND in
    raise_if negb (str_eqb kind expected) with PhysicalCollectorRequestError ;; Ok ()
  else if str_eqb harness (u "lifecycle") then
    match expected_lifecycle_raw_kinds subject with
    | None => CRE
    | Some kinds => raise_if negb (mem kind kinds) with PhysicalCollectorRequestError ;; Ok ()
    end
  else Ok ().

Definition seen_subject (harness subject : str) (w : raw_binding) : bool :=
  str_eqb (wb_harness w) harness && str_eqb (wb_subject w) subject.

(** One raw artifact. *)
Definition validated_raw_one (seen : list raw_binding) (l : ledger) (value : json) : result pyexn (raw_binding * ledger) :=
  binding ← of_raw (exact_object value RAW_ARTIFACT_BINDING_FIELDS);
  match member binding "harness" with
  | JStr harness =>
      match assoc RAW_KINDS_BY_HARNESS harness with
      | None => CRE
      | Some kinds =>
          subject ← _bounded_printable (member binding "subject") 256;
          raise_if existsb (seen_subject harness subject) seen with PhysicalCollectorRequestError ;;
          descriptor ← of_raw (parse_descriptor_of kinds (member binding "descriptor"));
          _ ← subject_kind harness subject (ad_kind descriptor);
          l ← record_descriptor PhysicalCollectorRequestError l descriptor;
          Ok ({| wb_harness := harness; wb_subject := subject; wb_descriptor := descriptor |}, l)
      end
  | _ => CRE
  end.

Fixpoint validated_raw (seen : list raw_binding) (l : ledger) (values : list json) : result pyexn (list raw_binding * ledger) :=
  match values with
  | [] => Ok ([], l)
  | value :: values =>
      '(binding, l) ← validated_raw_one seen l value;
      '(bindings, l) ← validated_raw (binding :: seen) l values;
      Ok (binding :: bindings, l)
  end.

(** The subjects of one harness. *)
Definition subjects_of (harness : string) (bindings : list raw_binding) : list str :=
  map wb_subject (List.filter (fun w => str_eqb (wb_harness w) (u harness)) bindings).
(** [a <= b] of sets. *)
Definition subset (a b : list str) : bool := forallb (fun x => mem x b) a.
Definition set_eq (a b : list str) : bool := subset a b && subset b a.

Definition report_le (a b : report_binding) : Prop := str_le (rb_harness a) (rb_harness b).
#[export] Instance report_le_dec a b : Decision (report_le a b) := decide (str_leb (rb_harness a) (rb_harness b) = true).
Definition raw_leb (a b : raw_binding) : bool :=
  if str_eqb (wb_harness a) (wb_harness b) then str_leb (wb_subject a) (wb_subject b) else str_leb (wb_harness a) (wb_harness b).
Definition raw_le (a b : raw_binding) : Prop := raw_leb a b = true.
#[export] Instance raw_le_dec a b : Decision (raw_le a b) := decide (raw_leb a b = true).

Definition sort_reports (l : list report_binding) : list report_binding := merge_sort report_le l.
Definition sort_raw (l : list raw_binding) : list raw_binding := merge_sort raw_le l.

(** The sets of subjects a receipt must have. *)
Definition complete_subjects (bindings : list raw_binding) : bool :=
  set_eq (subjects_of "lifecycle" bindings) EXPECTED_LIFECYCLE_RAW_SUBJECTS &&
  (subset EXPECTED_PACKET_RAW_SUBJECTS (subjects_of "packet" bindings) &&
   subset (subjects_of "packet" bindings) (EXPECTED_PACKET_RAW_SUBJECTS ++ OPTIONAL_PACKET_RAW_SUBJECTS)) &&
  set_eq (subjects_of "adversarial" bindings) REQUIRED_ADVERSARIAL_RAW_SUBJECTS &&
  set_eq (subjects_of "performance" bindings) REQUIRED_PERFORMANCE_SUBJECTS.

Definition _validated_receipt_bindings (material : list (str * json))
  (candidate_built_at context_initialized_at nonce_issued_at now : Z)
  : result pyexn (str * str * list report_binding * list raw_binding) :=
  captured_at ← _timestamp (member material "captured_at");
  completed_at ← _timestamp (member material "completed_at");
  raise_if (moment captured_at <? candidate_built_at) || (moment captured_at <? context_initialized_at) ||
           (moment completed_at <? moment captured_at) || (nonce_issued_at <? moment completed_at) || (now <? moment completed_at)
    with PhysicalCollectorRequestError ;;
  match member material "reports" with
  | JList raw_reports =>
      raise_if negb (len raw_reports =? len EXPECTED_REPORTS) with PhysicalCollectorRequestError ;;
      match member material "raw_artifacts" with
      | JList raw_artifacts =>
          raise_if bool_decide (raw_artifacts = []) with PhysicalCollectorRequestError ;;
          raise_if MAX_RECEIPT_ARTIFACT_COUNT <? len raw_reports + len raw_artifacts with PhysicalCollectorRequestError ;;
          let w := {| wn_built := candidate_built_at; wn_captured := moment captured_at; wn_completed := moment completed_at;
                      wn_nonce := nonce_issued_at; wn_now := now |} in
          '(reports, l) ← validated_reports w [] empty_ledger raw_reports;
          raise_if negb (set_eq (map rb_harness reports) REPORT_HARNESSES) with PhysicalCollectorRequestError ;;
          '(bindings, _) ← validated_raw [] l raw_artifacts;
          raise_if existsb (fun h => bool_decide (subjects_of h bindings = [])) ["adversarial"; "lifecycle"; "packet"; "performance"]%string
            with PhysicalCollectorRequestError ;;
          raise_if negb (complete_subjects bindings) with PhysicalCollectorRequestError ;;
          Ok (json_text (member material "captured_at"), json_text (member material "completed_at"),
              sort_reports reports, sort_raw bindings)
      | _ => CRE
      end
  | _ => CRE
  end.

(** ** The nonce *)

Definition NONCE_RESPONSE_FIELDS : list str := map u ["schema_version"; "run_nonce"; "expires_at"]%string.

Record nonce := { nc_run_nonce : str; nc_expires_at : str }.

Definition validate_nonce_response (nonce_response : json) (observed_at : option Z) (reading : Z) : result pyexn (nonce * Z) :=
  match (response ← of_raw (exact_object nonce_response NONCE_RESPONSE_FIELDS);
         run_nonce ← require_sha256 (member response "run_nonce");
         Ok (response, run_nonce)) with
  | Err _ => CRE
  | Ok (response, run_nonce) =>
      raise_if negb (json_eq_int (member response "schema_version") COLLECTOR_REQUEST_SCHEMA_VERSION) with PhysicalCollectorRequestError ;;
      expires_at ← _timestamp (member response "expires_at");
      let now := _observation_time observed_at reading in
      raise_if moment expires_at <=? now with PhysicalCollectorRequestError ;;
      let nonce_issued_at := moment expires_at - PRODUCTION_NONCE_TTL in
      raise_if nonce_issued_at <? MIN_MOMENT with OtherException ;;
      raise_if now <? nonce_issued_at with PhysicalCollectorRequestError ;;
      Ok ({| nc_run_nonce := run_nonce; nc_expires_at := json_text (member response "expires_at") |}, nonce_issued_at)
  end.

(** ** The receipt request *)

Record receipt_request := {
  rq_context : context; rq_captured_at : str; rq_completed_at : str; rq_run_nonce : str;
  rq_reports : list report_binding; rq_raw_artifacts : list raw_binding
}.

Definition request_run (r : receipt_request) : json :=
  let e := cx_environment (rq_context r) in
  JObj [(u "os", JStr (en_os e)); (u "macos_version", JStr (en_macos_version e)); (u "macos_build", JStr (en_macos_build e));
        (u "machine_sha256", JStr (en_machine_sha256 e)); (u "clean_install", JBool true);
        (u "captured_at", JStr (rq_captured_at r)); (u "completed_at", JStr (rq_completed_at r));
        (u "run_id", JStr (cx_run_id (rq_context r))); (u "run_nonce", JStr (rq_run_nonce r))].
Definition request_json (r : receipt_request) : json :=
  JObj [(u "schema_version", JInt COLLECTOR_REQUEST_SCHEMA_VERSION); (u "candidate", candidate_json (cx_candidate (rq_context r)));
        (u "run", request_run r); (u "reports", JList (map report_json (rq_reports r)));
        (u "raw_artifacts", JList (map raw_json (rq_raw_artifacts r)))].

Definition build_receipt_request (ck : clock) (value nonce_response bindings : json) (observed_at : option Z)
  : result pyexn receipt_request :=
  validated ← validate_context ck value;
  '(nonce, nonce_issued_at) ← validate_nonce_response nonce_response observed_at (ck_nonce ck);
  let now := _observation_time observed_at (ck_request ck) in
  material ← of_raw (exact_object bindings BINDINGS_FIELDS);
  raise_if negb (json_eq_int (member material "schema_version") 1) with PhysicalCollectorRequestError ;;
  built_at ← _timestamp (JStr (ca_built_at (cx_candidate validated)));
  initialized_at ← _timestamp (JStr (cx_initialized_at validated));
  '(captured_at, completed_at, reports, raw_artifacts) ←
    _validated_receipt_bindings material (moment built_at) (moment initialized_at) nonce_issued_at now;
  let request := {| rq_context := validated; rq_captured_at := captured_at; rq_completed_at := completed_at;
                    rq_run_nonce := nc_run_nonce nonce; rq_reports := reports; rq_raw_artifacts := raw_artifacts |} in
  _ ← _bounded_request (request_json request);
  Ok request.
End Requests.
