(* ===== verification/Composition.v ===== *)
(** * Composition of the physical evidence

    src/scripts/physical_capture/composition.py: receipt bindings from four
    verified reports, the receipt request revalidated, the run record composed
    from a signed receipt, and the aggregate of the two runs; with
    [load_source_pinned_policy] of policy.py and [_receipt_payload] of
    src/scripts/harness/physical_evidence_aggregator.py.  Reading the policy file
    is a parameter. *)

From S2P Require Import Prelude Sha256 Text Json DateTime Effects Base64 Ps256 TrustPolicy Archive Observation.
From S2P Require Import Python Timestamp Identity Catalogue CollectorRequest.

Open Scope Z_scope.
Open Scope list_scope.

Definition PCE {A} : result pyexn A := Err CompositionError.

(** [try: r; except caught: raise e]. *)
Definition catch {A} (caught : pyexn -> bool) (e : pyexn) (r : result pyexn A) : result pyexn A :=
  match r with Ok a => Ok a | Err e' => if caught e' then Err e else Err e' end.

Definition is_raw_error (e : pyexn) : bool := match e with RawArtifactError | CollectorTrustNotConfiguredError => true | _ => false end.
Definition is_request_error (e : pyexn) : bool := match e with PhysicalCollectorRequestError => true | _ => false end.

Definition _parse_timestamp (value : json) : result pyexn stamp := catch is_request_error CompositionError (_timestamp value).
Definition _parse_descriptor (kinds : list str) (value : json) : result pyexn ArtifactDescriptor :=
  catch is_raw_error CompositionError (of_raw (parse_descriptor_of kinds value)).
Definition _require_identifier (value : json) : result pyexn str := catch is_raw_error CompositionError (require_identifier value).
Definition _require_sha256 (value : json) : result pyexn str := catch is_raw_error CompositionError (require_sha256 value).
Definition composed_object (value : json) (fields : list str) : result pyexn (list (str * json)) :=
  catch is_raw_error CompositionError (of_raw (exact_object value fields)).

(** ** Receipt bindings *)

Definition REPORT_FIELDS : list str := map u ["tool_version"; "captured_at"; "completed_at"; "signed_at"; "artifact"]%string.
Definition RAW_BINDING_FIELDS : list str := RAW_ARTIFACT_BINDING_FIELDS.

(** A report with the times it states. *)
Record timed_report := { tr_binding : report_binding; tr_captured : Z; tr_completed : Z }.

Definition composed_report (reports : list (str * json)) (l : ledger) (harness : str) : result pyexn (timed_report * ledger) :=
  report ← composed_object (default JNull (obj_get reports harness)) REPORT_FIELDS;
  match assoc EXPECTED_REPORTS harness with
  | None => Err OtherException
  | Some (expected_version, expected_kind) =>
      raise_if negb (json_eq_str (member report "tool_version") expected_version) with CompositionError ;;
      captured_at ← _parse_timestamp (member report "captured_at");
      completed_at ← _parse_timestamp (member report "completed_at");
      signed_at ← _parse_timestamp (member report "signed_at");
      raise_if negb (in_order [moment captured_at; moment completed_at; moment signed_at]) with CompositionError ;;
      descriptor ← _parse_descriptor [expected_kind] (member report "artifact");
      l ← record_descriptor CompositionError l descriptor;
      Ok ({| tr_binding := {| rb_harness := harness; rb_tool_version := expected_version;
                              rb_captured_at := json_text (member report "captured_at");
                              rb_completed_at := json_text (member report "completed_at");
                              rb_signed_at := json_text (member report "signed_at"); rb_descriptor := descriptor |};
             tr_captured := moment captured_at; tr_completed := moment completed_at |}, l)
  end.

Fixpoint composed_reports (reports : list (str * json)) (l : ledger) (harnesses : list str) : result pyexn (list timed_report * ledger) :=
  match harnesses with
  | [] => Ok ([], l)
  | harness :: harnesses =>
      '(report, l) ← composed_report reports l harness;
      '(rest, l) ← composed_reports reports l harnesses;
      Ok (report :: rest, l)
  end.

Definition composed_raw_one (seen : list raw_binding) (l : ledger) (value : json) : result pyexn (raw_binding * ledger) :=
  binding ← composed_object value RAW_BINDING_FIELDS;
  match member binding "harness" with
  | JStr harness =>
      match assoc RAW_KINDS_BY_HARNESS harness with
      | None => PCE
      | Some kinds =>
          subject ← catch is_request_error CompositionError (_bounded_printable (member binding "subject") 256);
          raise_if existsb (seen_subject harness subject) seen with CompositionError ;;
          descriptor ← _parse_descriptor kinds (member binding "descriptor");
          raise_if str_eqb harness (u "lifecycle") &&
                   match expected_lifecycle_raw_kinds subject with
                   | None => true | Some expected => negb (mem (ad_kind descriptor) expected) end with CompositionError ;;
          l ← record_descriptor CompositionError l descriptor;
          Ok ({| wb_harness := harness; wb_subject := subject; wb_descriptor := descriptor |}, l)
      end
  | _ => PCE
  end.

Fixpoint composed_raw (seen : list raw_binding) (l : ledger) (values : list json) : result pyexn (list raw_binding * ledger) :=
  match values with
  | [] => Ok ([], l)
  | value :: values =>
      '(binding, l) ← composed_raw_one seen l value;
      '(bindings, l) ← composed_raw (binding :: seen) l values;
      Ok (binding :: bindings, l)
  end.

(** [min(items, key=...)] and [max(items, key=...)]: the first of the least and
    of the greatest. *)
Fixpoint earliest_of (best : Z * str) (l : list (Z * str)) : Z * str :=
  match l with [] => best | x :: l => earliest_of (if fst x <? fst best then x else best) l end.
Fixpoint latest_of (best : Z * str) (l : list (Z * str)) : Z * str :=
  match l with [] => best | x :: l => latest_of (if fst best <? fst x then x else best) l end.

Record receipt_bindings := {
  bd_captured_at : str; bd_completed_at : str; bd_reports : list report_binding; bd_raw_artifacts : list raw_binding
}.
Definition bindings_json (b : receipt_bindings) : json :=
  JObj [(u "schema_version", JInt 1); (u "captured_at", JStr (bd_captured_at b)); (u "completed_at", JStr (bd_completed_at b));
        (u "reports", JList (map report_json (bd_reports b))); (u "raw_artifacts", JList (map raw_json (bd_raw_artifacts b)))].

Definition compose_receipt_bindings (reports raw_artifacts : json) : result pyexn receipt_bindings :=
  match reports with
  | JObj reports =>
      raise_if negb (same_fields REPORT_HARNESSES reports) with CompositionError ;;
      match raw_artifacts with
      | JList raw_artifacts =>
          raise_if bool_decide (raw_artifacts = []) with CompositionError ;;
          raise_if MAX_RECEIPT_ARTIFACT_COUNT <? len reports + len raw_artifacts with CompositionError ;;
          '(timed, l) ← composed_reports reports empty_ledger REPORT_HARNESSES;
          '(bindings, _) ← composed_raw [] l raw_artifacts;
          raise_if existsb (fun h => bool_decide (subjects_of h bindings = [])) ["adversarial"; "lifecycle"; "packet"; "performance"]%string
            with CompositionError ;;
          raise_if negb (set_eq (subjects_of "lifecycle" bindings) EXPECTED_LIFECYCLE_RAW_SUBJECTS) with CompositionError ;;
          match timed with
          | [] => Err OtherException
          | first :: rest =>
              let captured t := (tr_captured t, rb_captured_at (tr_binding t)) in
              let completed t := (tr_completed t, rb_completed_at (tr_binding t)) in
              Ok {| bd_captured_at := snd (earliest_of (captured first) (map captured rest));
                    bd_completed_at := snd (latest_of (completed first) (map completed rest));
                    bd_reports := map tr_binding timed; bd_raw_artifacts := sort_raw bindings |}
          end
      | _ => PCE
      end
  | _ => PCE
  end.

(** ** The receipt request, read again *)

Definition RECEIPT_REQUEST_KEYS : list str := map u ["schema_version"; "candidate"; "run"; "reports"; "raw_artifacts"]%string.
Definition RECEIPT_RUN_FIELDS : list str :=
  map u ["os"; "macos_version"; "macos_build"; "machine_sha256"; "clean_install"; "captured_at"; "completed_at"; "run_id"; "run_nonce"]%string.
Definition RECEIPT_REPORT_FIELDS : list str := REPORT_BINDING_FIELDS.

(** The entry of [report_map] for one report of the request. *)
Definition mapped_report (seen : list (str * json)) (value : json) : result pyexn (str * json) :=
  report ← composed_object value RECEIPT_REPORT_FIELDS;
  match member report "harness" with
  | JStr harness =>
      raise_if negb (mem harness REPORT_HARNESSES) with CompositionError ;;
      raise_if mem harness (map fst seen) with CompositionError ;;
      Ok (harness, JObj [(u "tool_version", member report "tool_version"); (u "captured_at", member report "captured_at");
                         (u "completed_at", member report "completed_at"); (u "signed_at", member report "signed_at");
                         (u "artifact", member report "descriptor")])
  | _ => PCE
  end.
Fixpoint mapped_reports (seen : list (str * json)) (values : list json) : result pyexn (list (str * json)) :=
  match values with
  | [] => Ok seen
  | value :: values => entry ← mapped_report seen value; mapped_reports (seen ++ [entry]) values
  end.

(** The fields of the run that must agree with the context. *)
Definition context_field (c : context) (field : string) : json := member (dict_items (context_run c)) field.
Definition AGREED_FIELDS : list string := ["os"; "macos_version"; "macos_build"; "machine_sha256"; "clean_install"; "run_id"]%string.

Definition _validated_receipt_request (value : json) (c : context) : result pyexn (receipt_request * receipt_bindings) :=
  request ← composed_object value RECEIPT_REQUEST_KEYS;
  raise_if negb (json_eq_int (member request "schema_version") COLLECTOR_REQUEST_SCHEMA_VERSION) with CompositionError ;;
  raise_if negb (py_eq (member request "candidate") (candidate_json (cx_candidate c))) with CompositionError ;;
  run ← composed_object (member request "run") RECEIPT_RUN_FIELDS;
  raise_if existsb (fun field => negb (py_eq (member run field) (context_field c field))) AGREED_FIELDS with CompositionError ;;
  raise_if negb (match member run "clean_install" with JBool true => true | _ => false end) with CompositionError ;;
  _ ← _require_identifier (member run "run_id");
  run_nonce ← _require_sha256 (member run "run_nonce");
  captured_at ← _parse_timestamp (member run "captured_at");
  completed_at ← _parse_timestamp (member run "completed_at");
  raise_if moment completed_at <? moment captured_at with CompositionError ;;
  match member request "reports" with
  | JList raw_reports =>
      raise_if negb (len raw_reports =? len EXPECTED_REPORTS) with CompositionError ;;
      report_map ← mapped_reports [] raw_reports;
      bindings ← compose_receipt_bindings (JObj report_map) (member request "raw_artifacts");
      raise_if negb (json_eq_str (member run "captured_at") (bd_captured_at bindings)) ||
               negb (json_eq_str (member run "completed_at") (bd_completed_at bindings)) with CompositionError ;;
      raise_if negb (py_eq (member request "reports") (JList (map report_json (bd_reports bindings)))) with CompositionError ;;
      raise_if negb (py_eq (member request "raw_artifacts") (JList (map raw_json (bd_raw_artifacts bindings)))) with CompositionError ;;
      Ok ({| rq_context := c; rq_captured_at := bd_captured_at bindings; rq_completed_at := bd_completed_at bindings;
             rq_run_nonce := run_nonce; rq_reports := bd_reports bindings; rq_raw_artifacts := bd_raw_artifacts bindings |}, bindings)
  | _ => PCE
  end.

(** ** The trust policy of the release *)

Definition RELEASE_TRUST_POLICY_SHA256 : str := u "e95c2710371b3ba6f6899cb24fcbdc42038869934b1c89ddca651bd910601355".
Definition AGGREGATE_SCHEMA_VERSION : json := JInt 5.
Definition AGGREGATOR_VERSION : json := JStr (u "physical-evidence-aggregator-v5-single-machine").

(** [load_release_trust_policy] on the outcome of reading the policy file. *)
Definition load_release_trust_policy (file : result pyexn bytes) : result pyexn CollectorTrustPolicy :=
  data ← file; parse_trust_policy_bytes data RELEASE_TRUST_POLICY_SHA256 true.

Definition is_policy_failure (e : pyexn) : bool :=
  is_os_error e || is_raw_error e.

Definition load_source_pinned_policy (file : result pyexn bytes) : result pyexn CollectorTrustPolicy :=
  policy ← catch is_policy_failure PolicyError (load_release_trust_policy file);
  raise_if negb (tp_release_source_pinned policy) || negb (str_eqb (tp_policy_sha256 policy) RELEASE_TRUST_POLICY_SHA256) ||
           negb (str_eqb (tp_algorithm policy) COLLECTOR_SIGNATURE_ALGORITHM) ||
           negb (py_eq (tp_aggregate_schema_version policy) AGGREGATE_SCHEMA_VERSION) ||
           negb (py_eq (tp_aggregator_version policy) AGGREGATOR_VERSION) ||
           negb (py_eq (tp_boot_environment_scheme policy) (member (dict_items EVIDENCE_PROFILE) "boot_environment_scheme")) ||
           negb (py_eq (tp_machine_identity_scheme policy) (member (dict_items EVIDENCE_PROFILE) "machine_identity_scheme")) ||
           negb (py_eq (tp_machine_topology policy) (member (dict_items EVIDENCE_PROFILE) "machine_topology")) with PolicyError ;;
  Ok policy.

Definition _source_pinned_policy (file : result pyexn bytes) : result pyexn CollectorTrustPolicy :=
  catch (fun e => match e with PolicyError => true | _ => false end) CompositionError (load_source_pinned_policy file).

(** ** The run record *)

Definition RECEIPT_SCHEMA_VERSION : Z := 3.
Definition RUN_RECORD_DOCUMENT : str := u "cfw-physical-run-record-v1".
Definition RUN_RECORD_SCHEMA_VERSION : Z := 1.
Definition RECEIPT_RESPONSE_FIELDS : list str := map u ["schema_version"; "signed_at"; "receipt_sha256"; "signature"]%string.

Record run_record := { rr_policy : CollectorTrustPolicy; rr_request : receipt_request; rr_signed_at : str; rr_signature : str }.

Definition collector_items (p : CollectorTrustPolicy) : list (str * json) :=
  [(u "version", JStr (tp_collector_version p)); (u "source_sha256", JStr (tp_collector_source_sha256 p));
   (u "executable_sha256", JStr (tp_collector_executable_sha256 p)); (u "key_version", JStr (tp_key_version p));
   (u "algorithm", JStr (tp_algorithm p))].

(** [_receipt_payload] of the run: what the collector signs. *)
Definition _receipt_payload (r : run_record) : json :=
  let q := rr_request r in
  let e := cx_environment (rq_context q) in
  JObj [(u "schema_version", JInt RECEIPT_SCHEMA_VERSION); (u "trust_policy_sha256", JStr (tp_policy_sha256 (rr_policy r)));
        (u "candidate", candidate_json (cx_candidate (rq_context q)));
        (u "run", JObj [(u "os", JStr (en_os e)); (u "macos_version", JStr (en_macos_version e));
                        (u "macos_build", JStr (en_macos_build e)); (u "machine_sha256", JStr (en_machine_sha256 e));
                        (u "clean_install", JBool true); (u "captured_at", JStr (rq_captured_at q));
                        (u "completed_at", JStr (rq_completed_at q)); (u "signed_at", JStr (rr_signed_at r));
                        (u "run_id", JStr (cx_run_id (rq_context q))); (u "run_nonce", JStr (rq_run_nonce q))]);
        (u "collector", JObj (collector_items (rr_policy r)));
        (u "reports", JList (map report_json (sort_reports (rq_reports q))));
        (u "raw_artifacts", JList (map raw_json (sort_raw (rq_raw_artifacts q))))].

(** The entry of one harness in the run's reports. *)
Definition run_report (r : report_binding) : str * json :=
  (rb_harness r, JObj [(u "tool_version", JStr (rb_tool_version r)); (u "captured_at", JStr (rb_captured_at r));
                       (u "completed_at", JStr (rb_completed_at r)); (u "signed_at", JStr (rb_signed_at r));
                       (u "artifact", descriptor_as_dict (rb_descriptor r))]).

Definition run_json (r : run_record) : json :=
  let q := rr_request r in
  JObj (environment_items (cx_environment (rq_context q)) ++
        [(u "captured_at", JStr (rq_captured_at q)); (u "completed_at", JStr (rq_completed_at q));
         (u "signed_at", JStr (rr_signed_at r)); (u "run_id", JStr (cx_run_id (rq_context q)));
         (u "run_nonce", JStr (rq_run_nonce q));
         (u "collector", JObj (collector_items (rr_policy r) ++ [(u "signature", JStr (rr_signature r))]));
         (u "reports", JObj (map run_report (rq_reports q)))]).

Definition run_record_json (r : run_record) : json :=
  JObj [(u "schema_version", JInt RUN_RECORD_SCHEMA_VERSION); (u "document", JStr RUN_RECORD_DOCUMENT);
        (u "trust_policy_sha256", JStr (tp_policy_sha256 (rr_policy r)));
        (u "candidate", candidate_json (cx_candidate (rq_context (rr_request r)))); (u "run", run_json r)].

Definition is_context_failure (e : pyexn) : bool :=
  match e with PhysicalCollectorRequestError | PhysicalMachineIdentityError => true | _ => is_os_error e || is_raw_error e end.

(** A report signed after the receipt. *)
Definition signed_later (signed_at : Z) (r : report_binding) : result pyexn () :=
  t ← _parse_timestamp (JStr (rb_signed_at r));
  raise_if signed_at <? moment t with CompositionError ;; Ok ().
Fixpoint each {A} (f : A -> result pyexn ()) (l : list A) : result pyexn () :=
  match l with [] => Ok () | a :: l => _ ← f a; each f l end.

Section Record_.
Context (plist_loads : bytes -> plist_result) (runner : Runner) (policy_file : result pyexn bytes).

Definition compose_run_record (ck : clock) (now : Z) (value receipt_request receipt_response : json) : result pyexn run_record :=
  validated ← catch is_context_failure CompositionError (validate_context plist_loads runner ck value);
  policy ← _source_pinned_policy policy_file;
  raise_if negb (str_eqb (cx_profile_sha256 validated) (tp_evidence_profile_sha256 policy)) with CompositionError ;;
  '(request, bindings) ← _validated_receipt_request receipt_request validated;
  response ← composed_object receipt_response RECEIPT_RESPONSE_FIELDS;
  raise_if negb (json_eq_int (member response "schema_version") COLLECTOR_REQUEST_SCHEMA_VERSION) with CompositionError ;;
  signed_at ← _parse_timestamp (member response "signed_at");
  raise_if negb (st_micro signed_at =? 0) || negb (json_eq_str (member response "signed_at") (_format_timestamp signed_at))
    with CompositionError ;;
  raise_if now <? moment signed_at with CompositionError ;;
  run_completed ← _parse_timestamp (JStr (rq_completed_at request));
  raise_if moment signed_at <? moment run_completed with CompositionError ;;
  _ ← each (signed_later (moment signed_at)) (bd_reports bindings);
  receipt_sha256 ← _require_sha256 (member response "receipt_sha256");
  match member response "signature" with
  | JStr signature =>
      let record := {| rr_policy := policy; rr_request := request; rr_signed_at := json_text (member response "signed_at");
                       rr_signature := signature |} in
      payload_bytes ← of_raw (canonical_json (_receipt_payload record));
      raise_if negb (str_eqb (hexdigest payload_bytes) receipt_sha256) with CompositionError ;;
      match verify_ps256 payload_bytes (JStr signature) (tp_modulus policy) (tp_exponent policy) with
      | None => PCE
      | Some _ => Ok record
      end
  | _ => PCE
  end.
End Record_.

(** ** The aggregate of the runs *)

Definition RUN_RECORD_FIELDS : list str := map u ["schema_version"; "document"; "trust_policy_sha256"; "candidate"; "run"]%string.
Definition RUN_FIELDS : list str :=
  map u ["os"; "macos_version"; "macos_build"; "machine_sha256"; "machine_identity_scheme"; "hardware_model"; "virtualization_present";
         "boot_environment_sha256"; "boot_environment_scheme"; "clean_install"; "captured_at"; "completed_at"; "signed_at"; "run_id";
         "run_nonce"; "collector"; "reports"]%string.
(** The lanes, in the order of the evidence profile. *)
Definition REQUIRED_OS : list str := [u "current-macos"; u "macos15"].
Definition GRANTED_LEVEL : str := u "Signed_Installed_Verified".

#[export] Instance Candidate_eq_decision : EqDecision Candidate.
Proof. solve_decision. Defined.

(** A run of the aggregate: its lane and its document. *)
Definition lane_run : Type := str * json.

Definition aggregated_run (policy : CollectorTrustPolicy) (reading : Z) (candidate : option Candidate) (seen : list str) (value : json)
  : result pyexn (Candidate * lane_run) :=
  record ← composed_object value RUN_RECORD_FIELDS;
  raise_if negb (json_eq_int (member record "schema_version") RUN_RECORD_SCHEMA_VERSION) ||
           negb (json_eq_str (member record "document") RUN_RECORD_DOCUMENT) with CompositionError ;;
  raise_if negb (json_eq_str (member record "trust_policy_sha256") (tp_policy_sha256 policy)) with CompositionError ;;
  '(parsed, run) ← catch (fun e => is_raw_error e || is_request_error e) CompositionError
    (parsed ← _candidate reading (member record "candidate");
     run ← of_raw (exact_object (member record "run") RUN_FIELDS);
     Ok (parsed, run));
  raise_if match candidate with Some c => negb (bool_decide (parsed = c)) | None => false end with CompositionError ;;
  match member run "os" with
  | JStr os_label =>
      raise_if negb (mem os_label REQUIRED_OS) || mem os_label seen with CompositionError ;;
      Ok (parsed, (os_label, JObj run))
  | JList _ | JObj _ => Err OtherException
  | _ => PCE
  end.

(** The records with the readings of the clock [_candidate] makes of them. *)
Fixpoint aggregated_runs (policy : CollectorTrustPolicy) (candidate : option Candidate) (seen : list str) (records : list (Z * json))
  : result pyexn (option Candidate * list lane_run) :=
  match records with
  | [] => Ok (candidate, [])
  | (reading, value) :: records =>
      '(parsed, run) ← aggregated_run policy reading candidate seen value;
      '(final, runs) ← aggregated_runs policy (Some (default parsed candidate)) (fst run :: seen) records;
      Ok (final, run :: runs)
  end.

(** [_RUN_ORDER]. *)
Definition run_order (os : str) : nat := if str_eqb os (u "current-macos") then 0 else 1.
Definition lane_le (a b : lane_run) : Prop := (run_order (fst a) <= run_order (fst b))%nat.
#[export] Instance lane_le_dec a b : Decision (lane_le a b) := decide (run_order (fst a) <= run_order (fst b))%nat.

Record aggregate := { ag_policy_sha256 : str; ag_candidate : Candidate; ag_runs : list lane_run }.
Definition aggregate_json (a : aggregate) : json :=
  JObj [(u "schema_version", AGGREGATE_SCHEMA_VERSION); (u "aggregator_version", AGGREGATOR_VERSION);
        (u "granted_level", JStr GRANTED_LEVEL); (u "trust_policy_sha256", JStr (ag_policy_sha256 a));
        (u "candidate", candidate_json (ag_candidate a)); (u "runs", JList (map snd (ag_runs a)))].

Definition compose_physical_aggregate (policy_file : result pyexn bytes) (records : list (Z * json)) : result pyexn aggregate :=
  raise_if negb (len records =? len REQUIRED_OS) with CompositionError ;;
  policy ← _source_pinned_policy policy_file;
  '(candidate, runs) ← aggregated_runs policy None [] records;
  raise_if negb (set_eq (map fst runs) REQUIRED_OS) with CompositionError ;;
  match candidate with
  | None => PCE
  | Some candidate =>
      Ok {| ag_policy_sha256 := tp_policy_sha256 policy; ag_candidate := candidate; ag_runs := merge_sort lane_le runs |}
  end.
