(* ===== verification/PolicyFile.v ===== *)
(** * The policy file of the release

    src/scripts/harness/physical_collector_trust_policy.json, the one file that
    [load_source_pinned_policy] of src/scripts/physical_capture/policy.py reads. *)

From S2P Require Import Prelude Sha256 Text Json DateTime Effects Base64 Ps256 TrustPolicy Archive Observation.
From S2P Require Import Python Timestamp Identity Catalogue CollectorRequest Composition.

Open Scope Z_scope.
Open Scope list_scope.

(** The line of the file, with an apostrophe in the place of every quote. *)
Definition policy_line : list string := [
   "{'alg':'PS256','attestation_format':'CAVIUM_V2_COMPRESSED','attestation_sha256':'1c7b7535900239b917b867b059ce33fd0b4fc676bd412bae5f54dadf1a7";
   "66d79','collector_executable_sha256':'d4fa73f55dead6e806844a2c1bdbb445b55d83b9603444d3e591ffd1f418c230','collector_source_sha256':'67fa40140";
   "1dfe1ffca670cbea62eff5f74e581dcc9161847a371968b6f5176a2','collector_version':'physical-collector-v1','e':'AQAB','evidence_profile':{'aggrega";
   "te_schema_version':5,'aggregator_version':'physical-evidence-aggregator-v5-single-machine','boot_environment_scheme':'cfw-boot-environment-v";
   "1','machine_identity_scheme':'cfw-physical-machine-identity-v1','machine_topology':'one-machine-two-clean-os-v1','required_runs':[{'macos_bu";
   "ild':'25G72','macos_version':'26.6','os':'current-macos'},{'macos_build':'24G824','macos_version':'15.7.8','os':'macos15'}],'schema_version'";
   ":1,'soak_hours_per_run':3},'key_version':'projects/cfw-release-evidence-20260730/locations/asia-east1/keyRings/physical-evidence/cryptoKeys/";
   "collector-receipts-v040/cryptoKeyVersions/1','kms_algorithm':'RSA_SIGN_PSS_3072_SHA256','kty':'RSA','n':'i912Z0qre5x1CichNPio91Ab9wfTs7If5SM";
   "aeK5tksp7bpzOE5NPt7IjEZ9Oz4QCk00dgeqlc_lpQ_m0nI5vT6A_vfQgs9guvUIQanFH3eisKJeiYL7tYxLbhMnQpzL62Mtim9FZlT3GkDclvCJhrUX8uJWc6252N4y3UtP8YG9kB3e";
   "LxHHYJPzwZ3s9mrB3jeuIUWpg2vivDIE7AjTRPH0IHVSWiDl1dMRIZb2voT6GkXfMOia7a6T6yvk6yoDupU4SrWFCcq1Wx6bIbFDi5GfSjyyCxa7H1rTif03e4PLEEIMgFdqwzeG3efN";
   "UOmKsIRr-_meJYwCl7q9E9YDrA9WFqcrvTzycFNPMwudefiLgvYlCOxm9FwADpKYzcg1ERiSq2QxdDx21INQ9r_Z74ETpM8zUPF7hOXVdWQQokeo9bZP7C0cP5SoUCBT7fDSzLaZYlVG";
   "kAgxRJsMxj2nZYVv-wLWEPi1HumxdXXVFicCG7zsvl923fCpBjtaOfWdz','protection_level':'HSM','public_key_sha256':'863babb36d4f8f57ade95d8fce2cee57b2b";
   "bdd4f7688f85097ec29f3bbbb555a','schema_version':3,'state':'configured'}"]%string.
Definition policy_file : bytes :=
  map (fun c => if c =? 39 then x22 else zb c) (concat (map u policy_line)) ++ [x0a].

Lemma policy_file_loads : exists policy,
  load_source_pinned_policy (Ok policy_file) = Ok policy /\ tp_collector_version policy = u "physical-collector-v1" /\
  tp_policy_sha256 policy = RELEASE_TRUST_POLICY_SHA256 /\ tp_release_source_pinned policy = true.
Proof. eexists. split; [vm_compute; reflexivity|]. vm_compute. done. Qed.

(** The policy file that is checked in is the one the release pins: its bytes
    have the pinned digest, its public key has the digest it states, and
    [load_source_pinned_policy] returns a policy, for the collector version
    the file names. *)
Theorem checked_in_policy_loads : exists policy,
  load_source_pinned_policy (Ok policy_file) = Ok policy /\ tp_collector_version policy = u "physical-collector-v1" /\
  tp_policy_sha256 policy = RELEASE_TRUST_POLICY_SHA256 /\ tp_release_source_pinned policy = true.
Proof. exact policy_file_loads. Qed.
