(* ===== verification/Copies.v ===== *)
(** * Copies of a value

    A JSON value and the value as it is read back from its canonical encoding
    (src/scripts/harness/raw_artifacts.py, [canonical_json] and [load_json_file]):
    the same fields are found in both, and the two compare equal. *)

From S2P Require Import Prelude Sha256 Text Json Effects Base64 Ps256 TrustPolicy PolicyProofs Observation Python.

Open Scope Z_scope.
Open Scope list_scope.

(** A value, or the value as it is read from its canonical encoding. *)
Definition copy_of (v w : json) : Prop := v = w \/ v = normalize w.

(** The keys of every dict are distinct, as they are in Python. *)
Fixpoint distinct_keys (v : json) : bool :=
  match v with
  | JList l => forallb distinct_keys l
  | JObj l => unique_keys l && forallb (fun kv => distinct_keys (snd kv)) l
  | _ => true
  end.

Lemma copy_dict v l fields : NoDup (map fst l) -> same_fields fields l = true -> copy_of v (JObj l) ->
  exists m, exact_object v fields = Some m /\ forall k, copy_of (member m k) (member l k).
Proof.
  intros N F [-> | ->].
  - exists l. unfold exact_object. rewrite F. split; [done|]. intros k. by left.
  - exists (dict_items (normalize (JObj l))). cbn [normalize dict_items]. unfold exact_object.
    pose proof (fields_normalize fields l) as E. cbn [normalize dict_items] in E. rewrite E, F. split; [done|]. intros k. right.
    pose proof (member_normalize l k N) as M. cbn [normalize dict_items] in M. exact M.
Qed.

Lemma copy_list v l : copy_of v (JList l) -> exists m, v = JList m /\ Forall2 copy_of m l.
Proof.
  intros [-> | ->].
  - exists l. split; [done|]. induction l; constructor; [by left|done].
  - exists (map normalize l). split; [done|]. induction l; constructor; [by right|done].
Qed.

Lemma copy_str v s : copy_of v (JStr s) -> v = JStr s.
Proof. by intros [-> | ->]. Qed.
Lemma copy_int v z : copy_of v (JInt z) -> v = JInt z.
Proof. by intros [-> | ->]. Qed.
Lemma copy_bool v b : copy_of v (JBool b) -> v = JBool b.
Proof. by intros [-> | ->]. Qed.

Lemma py_eq_obj l m : length l = length m ->
  Forall (fun kv => exists y, obj_get m (fst kv) = Some y /\ py_eq (snd kv) y = true) l -> py_eq (JObj l) (JObj m) = true.
Proof.
  intros HL F. cbn [py_eq number_of]. unfold len. rewrite HL, Z.eqb_refl. cbn [andb].
  clear HL. induction F as [|[k x] l (y & G & E) F IH]; [done|]. cbn [fst snd] in *. rewrite G, E. exact IH.
Qed.

(** A value equals its copies. *)
Lemma py_eq_copy w v : distinct_keys w = true -> copy_of v w -> py_eq v w = true.
Proof.
  revert v. induction w as [| b | z | f | s | l IH | l IH] using json_induction; intros v HD H.
  - by destruct H as [-> | ->].
  - destruct H as [-> | ->]; cbn; apply Z.eqb_refl.
  - destruct H as [-> | ->]; cbn; apply Z.eqb_refl.
  - assert (R : py_eq (JFloat f) (JFloat f) = true) by (cbn; destruct (f_exp f <? 0); apply Z.eqb_refl). by destruct H as [-> | ->].
  - destruct H as [-> | ->]; cbn; apply str_eqb_refl.
  - apply copy_list in H as (m & -> & F). apply py_eq_list. cbn [distinct_keys] in HD. rewrite forallb_forall in HD.
    rewrite Forall_forall in IH. revert IH HD. induction F as [|x y m l Hxy F IHF]; intros IH HD; constructor.
    + apply IH; [by left| |done]. apply HD. by left.
    + apply IHF; [|intros z Hz; apply HD; by right]. intros z Hz. apply IH. by right.
  - cbn [distinct_keys] in HD. apply andb_prop in HD as [U HD]. apply bool_decide_eq_true in U. rewrite forallb_forall in HD.
    rewrite Forall_forall in IH. destruct H as [-> | ->].
    + apply py_eq_obj; [done|]. apply Forall_forall. intros [k x] Hk. exists x. cbn [fst snd]. split; [by apply obj_get_elem|].
      apply (IH (k, x)); [done| |by left]. apply (HD (k, x)). by apply list_elem_of_In.
    + cbn [normalize]. apply py_eq_obj.
      * rewrite (Permutation_length (sort_items_perm _)), length_map. done.
      * apply Forall_forall. intros [k x] Hk. rewrite (sort_items_perm _) in Hk. apply list_elem_of_fmap in Hk as ([k' y] & [= -> ->] & Hk).
        exists y. cbn [fst snd]. split; [by apply obj_get_elem|]. apply (IH (k', y)); [done| |by right]. apply (HD (k', y)). by apply list_elem_of_In.
Qed.

(** The keys of a literal dict are distinct. *)
Ltac distinct_names := apply (bool_decide_eq_true_1 _); vm_compute; reflexivity.
