(* ===== verification/Documents.v ===== *)
(** * Bounded documents

    The rules by which the canonical encoding of a document is bounded: its texts
    are printable ASCII without quotes and backslashes, its numbers small, its
    nesting shallow.  Such a document is always encoded, and within its bound. *)

From S2P Require Import Prelude Sha256 Text Json Effects Base64 Ps256 TrustPolicy PolicyProofs Archive Observation ObservationProofs.

Open Scope Z_scope.
Open Scope list_scope.

(** A simple text of at most [n] characters. *)
Definition short (n : Z) (s : str) : Prop := forallb simple_char s = true /\ len s <= n.

(** A value of nesting [k] that is encoded and read back. *)
Record sound (k : nat) (v : json) : Prop := {
  so_plain : plain v = true;
  so_depth : forall d, d + Z.of_nat k <= MAX_JSON_DEPTH -> _json_depth v d = true
}.
(** A value whose text is of at most [n] ASCII characters. *)
Record bounded (k : nat) (n : Z) (v : json) : Prop := {
  bn_sound : sound k v;
  bn_ascii : texts ascii_text v = true;
  bn_size : text_size v <= n
}.
Record bounded_items (k : nat) (n : Z) (l : list (str * json)) : Prop := {
  bi_sound : Forall (fun kv => encodable (fst kv) = true /\ sound k (snd kv)) l;
  bi_ascii : forallb (fun kv => ascii_text (fst kv) && texts ascii_text (snd kv)) l = true;
  bi_size : sum_sizes (fun kv => len (dump_str (fst kv)) + 2 + text_size (snd kv)) l <= n
}.

Lemma sound_deepen k m v : sound k v -> (k <= m)%nat -> sound m v.
Proof. intros [P D] L. constructor; [done|]. intros d H. apply D. lia. Qed.
Lemma bounded_weaken k m n v : bounded k m v -> m <= n -> bounded k n v.
Proof. intros [] L. constructor; [done..|lia]. Qed.
Lemma bounded_deepen k m n v : bounded k n v -> (k <= m)%nat -> bounded m n v.
Proof. intros [S A Z] L. constructor; [by eapply sound_deepen|done..]. Qed.

Lemma depth_ok k d : d + Z.of_nat k <= MAX_JSON_DEPTH -> (MAX_JSON_DEPTH <? d) = false.
Proof. intros. apply Z.ltb_ge. lia. Qed.

(** ** The rules *)

Lemma sound_text k s : encodable s = true -> sound k (JStr s).
Proof.
  intros E. constructor; [by apply encodable_chars|]. intros d D. cbn [_json_depth]. by rewrite (depth_ok k d D).
Qed.
Lemma sound_int k z : 0 <= z < 10 ^ 8 -> sound k (JInt z).
Proof.
  intros Z. constructor; [cbn [plain]; apply Z.ltb_lt; lia|]. intros d D. cbn [_json_depth]. by rewrite (depth_ok k d D).
Qed.
Lemma sound_bool k b : sound k (JBool b).
Proof. constructor; [done|]. intros d D. cbn [_json_depth]. by rewrite (depth_ok k d D). Qed.
Lemma sound_list k l : Forall (sound k) l -> sound (S k) (JList l).
Proof.
  intros F. rewrite Forall_forall in F. constructor; [|intros d D; cbn [_json_depth]; rewrite (depth_ok (S k) d D)];
    apply forallb_forall; intros v Hv; apply list_elem_of_In, F in Hv as [P X]; [exact P|apply X; lia].
Qed.
Lemma sound_object k l : unique_keys l = true -> Forall (fun kv => encodable (fst kv) = true /\ sound k (snd kv)) l -> sound (S k) (JObj l).
Proof.
  intros U F. rewrite Forall_forall in F. constructor; [cbn [plain]; rewrite U; cbn [andb]|intros d D; cbn [_json_depth]; rewrite (depth_ok (S k) d D)];
    apply forallb_forall; intros v Hv; apply list_elem_of_In, F in Hv as [E [P X]]; apply andb_true_intro;
    [split; [by apply encodable_chars|exact P]|split; [exact E|apply X; lia]].
Qed.

Lemma bounded_text k n s : short n s -> bounded k (n + 2) (JStr s).
Proof.
  intros [S L]. apply simple_ascii in S as (A & U & E). constructor; [by apply sound_text|exact A|].
  cbn [text_size dumps]. rewrite (len_dump_str _ U). lia.
Qed.
Lemma bounded_int k z : 0 <= z < 10 ^ 8 -> bounded k 8 (JInt z).
Proof. intros Z. constructor; [by apply sound_int|done|]. cbn [text_size dumps]. by apply size_text. Qed.
Lemma bounded_bool k b : bounded k 5 (JBool b).
Proof. constructor; [apply sound_bool|done|by destruct b]. Qed.

Lemma bounded_list k n c l : Forall (bounded k n) l -> len l <= c -> 0 <= n -> bounded (S k) (2 + (n + 1) * c) (JList l).
Proof.
  intros F L N. constructor.
  - apply sound_list. eapply Forall_impl; [exact F|]. by intros v [].
  - cbn [texts]. apply forallb_forall. intros v Hv. rewrite Forall_forall in F. apply (bn_ascii k n), F. by apply list_elem_of_In.
  - cbn [text_size]. assert (S : sum_sizes (fun v => text_size v + 1) l <= (n + 1) * len l).
    { rewrite <-sum_sizes_const. apply sum_sizes_le. intros v Hv. rewrite Forall_forall in F. pose proof (bn_size _ _ _ (F v Hv)). lia. }
    pose proof (Z.mul_le_mono_nonneg_l _ _ (n + 1) ltac:(lia) L). lia.
Qed.

Lemma items_nil k : bounded_items k 0 [].
Proof. by constructor. Qed.
Lemma items_cons k key n m v l : forallb simple_char key = true -> bounded k n v -> bounded_items k m l ->
  bounded_items k (len key + 4 + n + m) ((key, v) :: l).
Proof.
  intros S [D A Z] [D' A' Z']. apply simple_ascii in S as (SA & SU & SE). constructor.
  - by constructor.
  - cbn [forallb fst snd]. by rewrite SA, A, A'.
  - unfold sum_sizes in *. cbn [foldr fst snd]. rewrite (len_dump_str _ SU). lia.
Qed.
Lemma bounded_object k n l : unique_keys l = true -> bounded_items k n l -> bounded (S k) (n + 2) (JObj l).
Proof.
  intros U [D A Z]. constructor; [by apply sound_object|exact A|]. cbn [text_size]. lia.
Qed.

(** A sound document is encoded. *)
Lemma sound_encoded k v : sound k v -> Z.of_nat k <= MAX_JSON_DEPTH -> exists b, canonical_json v = Some b.
Proof. intros [P D] L. apply (canonical_json_some v 0 P). apply D. lia. Qed.
(** The encoding determines a sound document, up to the order of keys. *)
Lemma sound_injective k m v w b : sound k v -> sound m w -> Z.of_nat k <= MAX_JSON_DEPTH -> Z.of_nat m <= MAX_JSON_DEPTH ->
  canonical_json v = Some b -> canonical_json w = Some b -> normalize v = normalize w.
Proof. intros [P D] [P' D'] L L'. apply canonical_inj; [done|apply D; lia|done|apply D'; lia]. Qed.

(** A bounded document is encoded, and within its bound. *)
Lemma bounded_encoded k n v : bounded k n v -> Z.of_nat k <= MAX_JSON_DEPTH -> exists b, canonical_json v = Some b /\ len b <= n.
Proof.
  intros [D A Z] L. destruct (sound_encoded k v D L) as [b E]. exists b. split; [exact E|].
  pose proof (canonical_size v b (so_plain _ _ D) A E). lia.
Qed.

Lemma short_text n (s : str) : forallb simple_char s && (len s <=? n) = true -> short n s.
Proof. intros [S L%Z.leb_le]%andb_prop. by split. Qed.
Lemma short_digest s : is_sha256 s = true -> short 64 s.
Proof. intros H. destruct (sha256_simple s H) as [S L]. split; [exact S|lia]. Qed.
Lemma short_weaken m n s : short m s -> m <= n -> short n s.
Proof. intros [S L] H. split; [exact S|lia]. Qed.

(** Documents whose keys are literal. *)
Ltac bound_items := first [apply items_nil | eapply items_cons; [reflexivity| |bound_items]].
Ltac bound_object := eapply bounded_object; [vm_compute; reflexivity|bound_items].

Ltac sound_items := repeat (apply Forall_cons_2; [split; [reflexivity|cbn [snd]]|]); try apply Forall_nil_2.

Lemma short_encodable n s : short n s -> encodable s = true.
Proof. intros [S _]. by apply simple_ascii in S as (_ & _ & E). Qed.

Create HintDb documents.
#[export] Hint Resolve sound_text sound_bool sound_int sha256_encodable : documents.
