(* ===== verification/CollectorProofs.v ===== *)
(** * What an accepted receipt binding is

    Exact characterisations of the loops of [_validated_receipt_bindings]
    (src/scripts/harness/physical_collector_request.py) and of
    [compose_receipt_bindings] (src/scripts/physical_capture/composition.py): what
    a report and a raw artifact are read as, which of them are accepted, and what
    the shared ledger of paths, digests and bytes holds. *)

From S2P Require Import Prelude Sha256 Text Json DateTime Effects Base64 Ps256 TrustPolicy Archive Observation.
From S2P Require Import Python Timestamp Identity Catalogue CollectorRequest Composition.

Open Scope Z_scope.
Open Scope list_scope.

Lemma mem_spec x l : mem x l = true <-> x ∈ l.
Proof.
  unfold mem. rewrite existsb_exists. split.
  - intros (y & Hy & ->%str_eqb_eq). by apply list_elem_of_In.
  - intros H. exists x. split; [by apply list_elem_of_In|apply str_eqb_refl].
Qed.
Lemma mem_false x l : mem x l = false <-> x ∉ l.
Proof. rewrite <-mem_spec. symmetry. apply not_true_iff_false. Qed.
Lemma subset_spec a b : subset a b = true <-> a ⊆ b.
Proof.
  unfold subset. rewrite forallb_forall. split.
  - intros H x Hx. apply mem_spec, H. by apply list_elem_of_In.
  - intros H x Hx. apply mem_spec, H. by apply list_elem_of_In.
Qed.
Lemma set_eq_spec a b : set_eq a b = true <-> (forall x, x ∈ a <-> x ∈ b).
Proof.
  unfold set_eq. rewrite andb_true_iff, !subset_spec. split.
  - intros [H1 H2] x. split; [apply H1|apply H2].
  - intros H. split; intros x Hx; by apply H.
Qed.

Lemma of_raw_some {A} (o : option A) a : of_raw o = Ok a <-> o = Some a.
Proof. unfold of_raw, RAE. destruct o; split; congruence. Qed.

Lemma eq_str_text v s : json_eq_str v s = true <-> v = JStr s.
Proof. destruct v; cbn; split; try done; [by intros ->%str_eqb_eq|intros [= ->]; apply str_eqb_refl]. Qed.

(** ** The ledger *)

Definition total_size (ds : list ArtifactDescriptor) : Z := foldr (fun d n => ad_size d + n) 0 ds.
Definition ledger_of (ds : list ArtifactDescriptor) : ledger :=
  {| lg_paths := map ad_path ds; lg_digests := map ad_sha256 ds; lg_total := total_size ds |}.
(** No path and no digest twice, and the bytes within the bound. *)
Definition ok_ledger (ds : list ArtifactDescriptor) : Prop :=
  NoDup (map ad_path ds) /\ NoDup (map ad_sha256 ds) /\ total_size ds <= MAX_TOTAL_ARTIFACT_BYTES.

Lemma total_size_app a b : total_size (a ++ b) = total_size a + total_size b.
Proof. unfold total_size. induction a as [|d a IH]; cbn [app foldr]; [done|]. rewrite IH. lia. Qed.

Lemma total_size_perm a b : a ≡ₚ b -> total_size a = total_size b.
Proof. unfold total_size. induction 1; cbn [foldr] in *; lia. Qed.

Lemma ok_ledger_perm a b : a ≡ₚ b -> ok_ledger a -> ok_ledger b.
Proof. intros P (H1 & H2 & H3). unfold ok_ledger. rewrite <-P at 1 2. by rewrite <-(total_size_perm _ _ P). Qed.

Lemma ok_ledger_nil : ok_ledger [].
Proof. repeat split; try constructor. cbn. unfold MAX_TOTAL_ARTIFACT_BYTES, MiB. lia. Qed.

Lemma total_size_nonneg ds : Forall (fun d => 1 <= ad_size d) ds -> 0 <= total_size ds.
Proof. unfold total_size. induction 1; cbn [foldr]; lia. Qed.

Lemma ok_ledger_prefix a b : Forall (fun d => 1 <= ad_size d) b -> ok_ledger (a ++ b) -> ok_ledger a.
Proof.
  intros HB (H1 & H2 & H3). rewrite !map_app in *. rewrite total_size_app in H3. pose proof (total_size_nonneg _ HB).
  apply NoDup_app in H1 as (H1 & _), H2 as (H2 & _). repeat split; [done..|lia].
Qed.

Lemma record_ok e ds d l : ok_ledger ds ->
  record_descriptor e (ledger_of ds) d = Ok l <-> l = ledger_of (ds ++ [d]) /\ ok_ledger (ds ++ [d]).
Proof.
  intros (N1 & N2 & HT). unfold record_descriptor, ok_ledger. cbn [ledger_of lg_paths lg_digests lg_total].
  rewrite !map_app, total_size_app. cbn [map total_size foldr].
  assert (E : ledger_of (ds ++ [d]) = {| lg_paths := map ad_path ds ++ [ad_path d]; lg_digests := map ad_sha256 ds ++ [ad_sha256 d];
                                          lg_total := total_size ds + ad_size d |}).
  { unfold ledger_of. rewrite !map_app, total_size_app. cbn. by rewrite Z.add_0_r. }
  rewrite E. split.
  - destruct (mem (ad_path d) _) eqn:M1; [done|]. destruct (mem (ad_sha256 d) _) eqn:M2; [done|]. destruct (_ <? ad_size d) eqn:M3; [done|].
    intros [= <-]. split; [done|]. apply mem_false in M1, M2. apply Z.ltb_ge in M3.
    split; [|split; [|lia]]; (apply NoDup_app; split; [done|]; split; [|apply NoDup_singleton]); intros x Hx ->%list_elem_of_singleton; done.
  - intros (-> & D1 & D2 & HT'). apply NoDup_app in D1 as (_ & D1 & _), D2 as (_ & D2 & _).
    assert (M1 : mem (ad_path d) (map ad_path ds) = false) by (apply mem_false; intros H; apply (D1 _ H); by left).
    assert (M2 : mem (ad_sha256 d) (map ad_sha256 ds) = false) by (apply mem_false; intros H; apply (D2 _ H); by left).
    rewrite M1, M2, (proj2 (Z.ltb_ge _ _)) by lia. done.
Qed.

(** ** Descriptors *)

Definition descriptor_ok (d : ArtifactDescriptor) : Prop := parse_descriptor (descriptor_as_dict d) = Some d.

Lemma parse_descriptor_size v d : parse_descriptor v = Some d -> 1 <= ad_size d.
Proof.
  unfold parse_descriptor. intros H. apply bind_Some in H as (raw & _ & H).
  destruct (obj_get raw (u "kind")) as [[| | | |k| |]|]; try done. destruct (obj_get raw (u "path")) as [[| | | |p| |]|]; try done.
  destruct (obj_get raw (u "size")) as [[| |z| | | |]|]; try done. destruct (obj_get raw (u "sha256")) as [[| | | |x| |]|]; try done.
  apply bind_Some in H as (spec & _ & H). destruct (_ || _) in H; [done|]. apply bind_Some in H as (e & _ & H).
  destruct (_ || _) eqn:G in H; [done|]. injection H as <-. cbn. rewrite !orb_false_iff, !Z.ltb_ge in G. lia.
Qed.

Lemma parse_descriptor_of_some kinds v d :
  parse_descriptor_of kinds v = Some d <-> parse_descriptor v = Some d /\ ad_kind d ∈ kinds.
Proof.
  unfold parse_descriptor_of. split.
  - intros H. apply bind_Some in H as (d' & H1 & H). destruct (mem (ad_kind d') kinds) eqn:M; [|done]. injection H as ->. by apply mem_spec in M.
  - intros [-> H%mem_spec]. cbn. by rewrite H.
Qed.

(** ** Times *)

(** The moment a text states. *)
Definition time_of (s : str) : Z := match read_stamp s with Some t => moment t | None => 0 end.
Definition timely (s : str) : Prop := is_Some (read_stamp s).

Lemma timestamp_ok v t : _timestamp v = Ok t <-> exists s, v = JStr s /\ read_stamp s = Some t.
Proof.
  split.
  - destruct v as [| | | |s| |]; cbn; try done. destruct (read_stamp s) eqn:R; [|done]. intros [= <-]. by exists s.
  - intros (s & -> & R). cbn. by rewrite R.
Qed.

Lemma timestamp_text v t : _timestamp v = Ok t -> v = JStr (json_text v) /\ timely (json_text v) /\ moment t = time_of (json_text v).
Proof. intros (s & -> & R)%timestamp_ok. cbn [json_text]. unfold timely, time_of. rewrite R. by repeat eexists. Qed.

Lemma timely_timestamp s : timely s -> exists t, _timestamp (JStr s) = Ok t /\ moment t = time_of s.
Proof. intros [t R]. exists t. unfold time_of. cbn. by rewrite R. Qed.

Lemma catch_ok {A} caught e (r : result pyexn A) a : catch caught e r = Ok a <-> r = Ok a.
Proof. unfold catch. destruct r as [x|x]; [done|]. destruct (caught x); split; done. Qed.

(** ** Raw artifacts *)

Definition raw_reads (v : json) (w : raw_binding) : Prop :=
  exists b, exact_object v RAW_ARTIFACT_BINDING_FIELDS = Some b /\ member b "harness" = JStr (wb_harness w) /\
    member b "subject" = JStr (wb_subject w) /\ parse_descriptor (member b "descriptor") = Some (wb_descriptor w).

(** Bounded printable text. *)
Definition printable (maximum : Z) (s : str) : Prop := _bounded_printable (JStr s) maximum = Ok s.

(** The artifact is of a kind of its harness and its subject is printable. *)
Definition raw_fits (w : raw_binding) : Prop :=
  printable 256 (wb_subject w) /\ exists kinds, assoc RAW_KINDS_BY_HARNESS (wb_harness w) = Some kinds /\ ad_kind (wb_descriptor w) ∈ kinds.
Definition subject_fits (w : raw_binding) : Prop := subject_kind (wb_harness w) (wb_subject w) (ad_kind (wb_descriptor w)) = Ok ().
(** The check composition makes. *)
Definition lifecycle_fits (w : raw_binding) : Prop :=
  wb_harness w = u "lifecycle" -> exists kinds, expected_lifecycle_raw_kinds (wb_subject w) = Some kinds /\ ad_kind (wb_descriptor w) ∈ kinds.

Definition identity (w : raw_binding) : str * str := (wb_harness w, wb_subject w).
Definition fresh (seen ws : list raw_binding) : Prop := NoDup (map identity ws) /\ forall w, w ∈ ws -> identity w ∉ map identity seen.

Lemma seen_subject_spec h s seen : existsb (seen_subject h s) seen = true <-> (h, s) ∈ map identity seen.
Proof.
  rewrite existsb_exists, list_elem_of_fmap. unfold seen_subject, identity. split.
  - intros (w & Hw & H). apply andb_prop in H as [<-%str_eqb_eq <-%str_eqb_eq]. exists w. split; [done|]. by apply list_elem_of_In.
  - intros (w & [= -> ->] & Hw). exists w. rewrite !str_eqb_refl. split; [by apply list_elem_of_In|done].
Qed.

Lemma seen_subject_false h s seen : existsb (seen_subject h s) seen = false <-> (h, s) ∉ map identity seen.
Proof. rewrite <-seen_subject_spec. symmetry. apply not_true_iff_false. Qed.

Lemma fresh_cons seen w ws : fresh seen (w :: ws) <-> identity w ∉ map identity seen /\ fresh (w :: seen) ws.
Proof.
  unfold fresh. cbn [map]. rewrite NoDup_cons. split.
  - intros [[N1 N2] F]. split; [apply F; by left|]. split; [done|]. intros x Hx. rewrite not_elem_of_cons. split; [|apply F; by right].
    intros E. apply N1. rewrite <-E. apply list_elem_of_fmap. by exists x.
  - intros [N (D & F)]. split; [split; [|done]|].
    + intros (x & E & Hx)%list_elem_of_fmap. apply F in Hx. apply not_elem_of_cons in Hx as [Hx _]. by rewrite E in Hx.
    + intros x [-> | Hx]%elem_of_cons; [done|]. apply F in Hx. by apply not_elem_of_cons in Hx as [_ Hx].
Qed.

Lemma printable_inv v s maximum : _bounded_printable v maximum = Ok s <-> v = JStr s /\ printable maximum s.
Proof.
  unfold printable. split; [|by intros [-> H]]. destruct v as [| | | |t| |]; try done. intros H.
  assert (E : t = s); [|by subst]. cbn in H. destruct (utf8_encode t); [|done]. destruct (_ || _) in H; [done|]. by injection H.
Qed.

(** What one step accepts: [gate] is the check of the kind of its subject. *)
Section RawStep.
Context (step : list raw_binding -> ledger -> json -> result pyexn (raw_binding * ledger)) (gate : raw_binding -> Prop).
Definition step_spec : Prop := forall seen ds v w l, ok_ledger ds ->
  step seen (ledger_of ds) v = Ok (w, l) <->
  raw_reads v w /\ raw_fits w /\ gate w /\ identity w ∉ map identity seen /\
  l = ledger_of (ds ++ [wb_descriptor w]) /\ ok_ledger (ds ++ [wb_descriptor w]).

Fixpoint steps (seen : list raw_binding) (l : ledger) (values : list json) : result pyexn (list raw_binding * ledger) :=
  match values with
  | [] => Ok ([], l)
  | value :: values =>
      '(binding, l) ← step seen l value;
      '(bindings, l) ← steps (binding :: seen) l values;
      Ok (binding :: bindings, l)
  end.

Lemma raw_reads_size v w : raw_reads v w -> 1 <= ad_size (wb_descriptor w).
Proof. intros (b & _ & _ & _ & H). by apply parse_descriptor_size in H. Qed.

Lemma steps_exact : step_spec -> forall values seen ds ws l, ok_ledger ds ->
  steps seen (ledger_of ds) values = Ok (ws, l) <->
  Forall2 raw_reads values ws /\ Forall raw_fits ws /\ Forall gate ws /\ fresh seen ws /\
  l = ledger_of (ds ++ map wb_descriptor ws) /\ ok_ledger (ds ++ map wb_descriptor ws).
Proof.
  intros HS. induction values as [|v values IH]; intros seen ds ws l Hds; cbn [steps].
  - split.
    + intros [= <- <-]. cbn [map]. rewrite app_nil_r. repeat split; try constructor; try done; try apply Hds. intros x Hx. by apply elem_of_nil in Hx.
    + intros (F & _ & _ & _ & -> & _). inversion F; subst. cbn [map]. by rewrite app_nil_r.
  - split.
    + intros H. apply bind_ok in H as ([w l1] & H1 & H). apply bind_ok in H as ([ws' l2] & H2 & H). injection H as <- <-.
      apply HS in H1 as (R & F & G & I & -> & L); [|done]. apply IH in H2 as (R2 & F2 & G2 & I2 & -> & L2); [|done].
      cbn [map]. rewrite <-app_assoc in *. cbn [app] in *.
      exact (conj (List.Forall2_cons _ _ R R2) (conj (Forall_cons_2 _ _ _ F F2) (conj (Forall_cons_2 _ _ _ G G2)
        (conj (proj2 (fresh_cons _ _ _) (conj I I2)) (conj eq_refl L2))))).
    + intros (R & F & G & I & -> & L). inversion R as [|? w ? ws' R1 R2]; subst. apply Forall_cons in F as [F1 F2], G as [G1 G2].
      apply fresh_cons in I as [I1 I2]. cbn [map] in *.
      assert (L1 : ok_ledger (ds ++ [wb_descriptor w])).
      { apply (ok_ledger_prefix _ (map wb_descriptor ws')); [|by rewrite <-app_assoc].
        apply Forall_map. clear -R2. induction R2; constructor; [by eapply raw_reads_size|done]. }
      rewrite (proj2 (HS seen ds v w _ Hds) (conj R1 (conj F1 (conj G1 (conj I1 (conj eq_refl L1)))))). cbn [mbind result_bind].
      assert (E : steps (w :: seen) (ledger_of (ds ++ [wb_descriptor w])) values = Ok (ws', ledger_of ((ds ++ [wb_descriptor w]) ++ map wb_descriptor ws'))).
      { apply IH; [done|]. rewrite <-app_assoc. cbn [app]. done. }
      rewrite E. cbn [mbind result_bind]. by rewrite <-app_assoc.
Qed.
End RawStep.

Lemma validated_raw_steps seen l values : validated_raw seen l values = steps validated_raw_one seen l values.
Proof. revert seen l. induction values as [|v values IH]; intros seen l; [done|]. cbn [validated_raw steps]. destruct (validated_raw_one seen l v) as [[w l1]|]; [|done]. cbn [mbind result_bind]. by rewrite IH. Qed.
Lemma composed_raw_steps seen l values : composed_raw seen l values = steps composed_raw_one seen l values.
Proof. revert seen l. induction values as [|v values IH]; intros seen l; [done|]. cbn [composed_raw steps]. destruct (composed_raw_one seen l v) as [[w l1]|]; [|done]. cbn [mbind result_bind]. by rewrite IH. Qed.

Lemma validated_raw_step : step_spec validated_raw_one subject_fits.
Proof.
  intros seen ds v w l Hds. unfold validated_raw_one, raw_reads, raw_fits, subject_fits. split.
  - intros H. inv_bind H. apply of_raw_some in E. destruct (member v0 "harness") as [| | | |h| |] eqn:Hh; try discriminate H.
    destruct (assoc RAW_KINDS_BY_HARNESS h) as [kinds|] eqn:K; [|discriminate H]. inv_bind H. apply printable_inv in E0 as [Hs P].
    destruct (existsb _ seen) eqn:S; [discriminate H|]. apply seen_subject_false in S. inv_bind H. apply of_raw_some, parse_descriptor_of_some in E0 as [D KD].
    inv_bind H. destruct v3. inv_bind H. apply record_ok in E1 as [-> L]; [|done]. injection H as <- <-. cbn.
    split; [by exists v0|]. split; [by split; [|exists kinds]|]. done.
  - destruct w as [h s d]. cbn [wb_harness wb_subject wb_descriptor identity]. intros ((b & E & Hh & Hs & D) & (P & kinds & K & KD) & G & I & -> & L).
    rewrite E. cbn [of_raw mbind result_bind]. rewrite Hh, K, Hs, P. cbn [mbind result_bind].
    rewrite (proj2 (seen_subject_false h s seen) I), (proj2 (parse_descriptor_of_some kinds _ d) (conj D KD)). cbn [of_raw mbind result_bind].
    rewrite G. cbn [mbind result_bind]. by rewrite (proj2 (record_ok PhysicalCollectorRequestError ds d _ Hds) (conj eq_refl L)).
Qed.

Lemma lifecycle_gate (h s : str) (d : ArtifactDescriptor) :
  str_eqb h (u "lifecycle") && match expected_lifecycle_raw_kinds s with None => true | Some expected => negb (mem (ad_kind d) expected) end = false <->
  lifecycle_fits {| wb_harness := h; wb_subject := s; wb_descriptor := d |}.
Proof.
  unfold lifecycle_fits. cbn [wb_harness wb_subject wb_descriptor]. destruct (str_eqb h (u "lifecycle")) eqn:L; cbn [andb].
  - apply str_eqb_eq in L as ->. destruct (expected_lifecycle_raw_kinds s) as [kinds|].
    + rewrite negb_false_iff, mem_spec. split; [intros H _; by exists kinds|]. intros H. destruct (H eq_refl) as (k & [= <-] & ?). done.
    + split; [done|]. intros H. by destruct (H eq_refl) as (k & ? & _).
  - split; [|done]. intros _ ->. by rewrite str_eqb_refl in L.
Qed.

Lemma composed_raw_step : step_spec composed_raw_one lifecycle_fits.
Proof.
  intros seen ds v w l Hds. unfold composed_raw_one, raw_reads, raw_fits, composed_object, _parse_descriptor. split.
  - intros H. inv_bind H. apply catch_ok, of_raw_some in E. destruct (member v0 "harness") as [| | | |h| |] eqn:Hh; try discriminate H.
    destruct (assoc RAW_KINDS_BY_HARNESS h) as [kinds|] eqn:K; [|discriminate H]. inv_bind H. apply catch_ok, printable_inv in E0 as [Hs P].
    destruct (existsb _ seen) eqn:S; [discriminate H|]. apply seen_subject_false in S. inv_bind H.
    apply catch_ok, of_raw_some, parse_descriptor_of_some in E0 as [D KD]. destruct (_ && _) eqn:G in H; [discriminate H|].
    apply lifecycle_gate in G. inv_bind H. apply record_ok in E0 as [-> L]; [|done]. injection H as <- <-. cbn.
    split; [by exists v0|]. split; [by split; [|exists kinds]|]. done.
  - destruct w as [h s d]. cbn [wb_harness wb_subject wb_descriptor identity]. intros ((b & E & Hh & Hs & D) & (P & kinds & K & KD) & G & I & -> & L).
    change RAW_BINDING_FIELDS with RAW_ARTIFACT_BINDING_FIELDS. rewrite E. cbn [of_raw catch mbind result_bind]. rewrite Hh, K, Hs, P. cbn [catch mbind result_bind].
    rewrite (proj2 (seen_subject_false h s seen) I), (proj2 (parse_descriptor_of_some kinds _ d) (conj D KD)). cbn [of_raw catch mbind result_bind].
    rewrite (proj2 (lifecycle_gate h s d) G). by rewrite (proj2 (record_ok CompositionError ds d _ Hds) (conj eq_refl L)).
Qed.

(** ** Reports *)

Definition report_reads (v : json) (r : report_binding) : Prop :=
  exists b, exact_object v REPORT_BINDING_FIELDS = Some b /\ member b "harness" = JStr (rb_harness r) /\
    member b "tool_version" = JStr (rb_tool_version r) /\ member b "captured_at" = JStr (rb_captured_at r) /\
    member b "completed_at" = JStr (rb_completed_at r) /\ member b "signed_at" = JStr (rb_signed_at r) /\
    parse_descriptor (member b "descriptor") = Some (rb_descriptor r).
(** The same report in a map from harness to report. *)
Definition entry_reads (reports : list (str * json)) (r : report_binding) : Prop :=
  exists b, exact_object (default JNull (obj_get reports (rb_harness r))) REPORT_FIELDS = Some b /\
    member b "tool_version" = JStr (rb_tool_version r) /\ member b "captured_at" = JStr (rb_captured_at r) /\
    member b "completed_at" = JStr (rb_completed_at r) /\ member b "signed_at" = JStr (rb_signed_at r) /\
    parse_descriptor (member b "artifact") = Some (rb_descriptor r).

Definition report_fits (r : report_binding) : Prop :=
  assoc EXPECTED_REPORTS (rb_harness r) = Some (rb_tool_version r, ad_kind (rb_descriptor r)).
(** Times that can be read, the report captured before it was completed and
    completed before it was signed. *)
Definition report_timely (r : report_binding) : Prop :=
  timely (rb_captured_at r) /\ timely (rb_completed_at r) /\ timely (rb_signed_at r) /\
  time_of (rb_captured_at r) <= time_of (rb_completed_at r) <= time_of (rb_signed_at r).
(** The report was captured and completed within the run, and signed between the
    nonce and now. *)
Definition in_run (w : window) (r : report_binding) : Prop :=
  wn_built w <= wn_captured w <= time_of (rb_captured_at r) /\
  time_of (rb_completed_at r) <= wn_completed w <= wn_nonce w /\ wn_nonce w <= time_of (rb_signed_at r) <= wn_now w.

Lemma in_order_spec l : in_order l = true <-> Sorted Z.le l.
Proof.
  destruct l as [|x l]; [split; [constructor|done]|]. cbn [in_order]. revert x. induction l as [|y l IH]; intros x.
  - split; [by repeat constructor|done].
  - rewrite andb_true_iff, Z.leb_le, IH. split.
    + intros [H1 H2]. constructor; [done|by constructor].
    + intros H. inversion H as [|? ? H1 H2]; subst. by inversion H2.
Qed.

Lemma window_order w a b c :
  in_order [wn_built w; wn_captured w; a; b; wn_completed w; wn_nonce w; c; wn_now w] = true <->
  wn_built w <= wn_captured w <= a /\ a <= b /\ b <= wn_completed w <= wn_nonce w /\ wn_nonce w <= c <= wn_now w.
Proof. cbn [in_order]. rewrite !andb_true_iff, !Z.leb_le. lia. Qed.

Lemma validated_report_exact w seen ds v r l : ok_ledger ds ->
  validated_report w seen (ledger_of ds) v = Ok (r, l) <->
  report_reads v r /\ report_fits r /\ report_timely r /\ in_run w r /\ rb_harness r ∉ seen /\
  l = ledger_of (ds ++ [rb_descriptor r]) /\ ok_ledger (ds ++ [rb_descriptor r]).
Proof.
  intros Hds. unfold validated_report, report_reads, report_fits, report_timely, in_run. split.
  - intros H. inv_bind H. apply of_raw_some in E. destruct (member v0 "harness") as [| | | |h| |] eqn:Hh; try discriminate H.
    destruct (assoc EXPECTED_REPORTS h) as [[version kind]|] eqn:K; [|discriminate H]. destruct (mem h seen) eqn:M; [discriminate H|].
    apply mem_false in M. destruct (negb _) eqn:V in H; [discriminate H|]. apply negb_false_iff, eq_str_text in V.
    inv_bind H. apply timestamp_text in E0 as (C1 & C2 & C3). inv_bind H. apply timestamp_text in E0 as (D1 & D2 & D3).
    inv_bind H. apply timestamp_text in E0 as (S1 & S2 & S3). destruct (negb _) eqn:O in H; [discriminate H|].
    apply negb_false_iff, window_order in O. rewrite C3, D3, S3 in O. inv_bind H. apply of_raw_some, parse_descriptor_of_some in E0 as [D KD].
    apply list_elem_of_singleton in KD. inv_bind H. apply record_ok in E0 as [-> L]; [|done]. injection H as <- <-. cbn.
    split; [by exists v0|]. split; [by rewrite KD|]. split; [split; [done|]; split; [done|]; split; [done|lia]|]. split; [lia|]. done.
  - destruct r as [h version c k s d]. cbn [rb_harness rb_tool_version rb_captured_at rb_completed_at rb_signed_at rb_descriptor].
    intros ((b & E & Hh & HV & HC & HK & HS & D) & F & (TC & TK & TS & TO) & W & N & -> & L).
    rewrite E. cbn [of_raw mbind result_bind]. rewrite Hh, F, (proj2 (mem_false h seen) N), HV, HC, HK, HS.
    rewrite (proj2 (eq_str_text _ _) eq_refl). cbn [negb json_text].
    apply timely_timestamp in TC as (tc & EC & VC), TK as (tk & EK & VK), TS as (ts & ES & VS).
    rewrite EC, EK, ES. cbn [mbind result_bind]. rewrite VC, VK, VS, (proj2 (window_order w _ _ _)) by lia. cbn [negb].
    rewrite (proj2 (parse_descriptor_of_some [ad_kind d] _ d) (conj D (proj2 (list_elem_of_singleton _ _) eq_refl))). cbn [of_raw mbind result_bind].
    by rewrite (proj2 (record_ok PhysicalCollectorRequestError ds d _ Hds) (conj eq_refl L)).
Qed.

Lemma report_reads_size v r : report_reads v r -> 1 <= ad_size (rb_descriptor r).
Proof. intros (b & _ & _ & _ & _ & _ & _ & H). by apply parse_descriptor_size in H. Qed.

Definition new_harnesses (seen : list str) (rs : list report_binding) : Prop :=
  NoDup (map rb_harness rs) /\ forall r, r ∈ rs -> rb_harness r ∉ seen.

Lemma new_harnesses_cons seen r rs :
  new_harnesses seen (r :: rs) <-> rb_harness r ∉ seen /\ new_harnesses (rb_harness r :: seen) rs.
Proof.
  unfold new_harnesses. cbn [map]. rewrite NoDup_cons. split.
  - intros [[N1 N2] F]. split; [apply F; by left|]. split; [done|]. intros x Hx. rewrite not_elem_of_cons. split; [|apply F; by right].
    intros E. apply N1. rewrite <-E. apply list_elem_of_fmap. by exists x.
  - intros [N (D & F)]. split; [split; [|done]|].
    + intros (x & E & Hx)%list_elem_of_fmap. apply F in Hx. apply not_elem_of_cons in Hx as [Hx _]. by rewrite E in Hx.
    + intros x [-> | Hx]%elem_of_cons; [done|]. apply F in Hx. by apply not_elem_of_cons in Hx as [_ Hx].
Qed.

Lemma validated_reports_exact w values : forall seen ds rs l, ok_ledger ds ->
  validated_reports w seen (ledger_of ds) values = Ok (rs, l) <->
  Forall2 report_reads values rs /\ Forall report_fits rs /\ Forall report_timely rs /\ Forall (in_run w) rs /\ new_harnesses seen rs /\
  l = ledger_of (ds ++ map rb_descriptor rs) /\ ok_ledger (ds ++ map rb_descriptor rs).
Proof.
  induction values as [|v values IH]; intros seen ds rs l Hds; cbn [validated_reports].
  - split.
    + intros [= <- <-]. cbn [map]. rewrite app_nil_r. repeat split; try constructor; try done; try apply Hds. intros x Hx. by apply elem_of_nil in Hx.
    + intros (F & _ & _ & _ & _ & -> & _). inversion F; subst. cbn [map]. by rewrite app_nil_r.
  - split.
    + intros H. apply bind_ok in H as ([r l1] & H1 & H). apply bind_ok in H as ([rs' l2] & H2 & H). injection H as <- <-.
      apply validated_report_exact in H1 as (R & F & T & W & N & -> & L); [|done]. apply IH in H2 as (R2 & F2 & T2 & W2 & N2 & -> & L2); [|done].
      cbn [map]. rewrite <-app_assoc in *. cbn [app] in *.
      exact (conj (List.Forall2_cons _ _ R R2) (conj (Forall_cons_2 _ _ _ F F2) (conj (Forall_cons_2 _ _ _ T T2) (conj (Forall_cons_2 _ _ _ W W2)
        (conj (proj2 (new_harnesses_cons _ _ _) (conj N N2)) (conj eq_refl L2)))))).
    + intros (R & F & T & W & N & -> & L). inversion R as [|? r ? rs' R1 R2]; subst.
      apply Forall_cons in F as [F1 F2], T as [T1 T2], W as [W1 W2]. apply new_harnesses_cons in N as [N1 N2]. cbn [map] in *.
      assert (L1 : ok_ledger (ds ++ [rb_descriptor r])).
      { apply (ok_ledger_prefix _ (map rb_descriptor rs')); [|by rewrite <-app_assoc].
        apply Forall_map. clear -R2. induction R2; constructor; [by eapply report_reads_size|done]. }
      rewrite (proj2 (validated_report_exact w seen ds v r _ Hds) (conj R1 (conj F1 (conj T1 (conj W1 (conj N1 (conj eq_refl L1))))))).
      cbn [mbind result_bind].
      assert (E : validated_reports w (rb_harness r :: seen) (ledger_of (ds ++ [rb_descriptor r])) values =
        Ok (rs', ledger_of ((ds ++ [rb_descriptor r]) ++ map rb_descriptor rs'))) by (apply IH; [done|]; rewrite <-app_assoc; done).
      rewrite E. cbn [mbind result_bind]. by rewrite <-app_assoc.
Qed.

(** The reports of a composition: with the times they state. *)
Definition timed (r : report_binding) : timed_report :=
  {| tr_binding := r; tr_captured := time_of (rb_captured_at r); tr_completed := time_of (rb_completed_at r) |}.

Lemma composed_report_exact reports ds h t l : ok_ledger ds ->
  composed_report reports (ledger_of ds) h = Ok (t, l) <->
  exists r, t = timed r /\ rb_harness r = h /\ entry_reads reports r /\ report_fits r /\ report_timely r /\
  l = ledger_of (ds ++ [rb_descriptor r]) /\ ok_ledger (ds ++ [rb_descriptor r]).
Proof.
  intros Hds. unfold composed_report, entry_reads, report_fits, report_timely, composed_object, _parse_timestamp, _parse_descriptor. split.
  - intros H. inv_bind H. apply catch_ok, of_raw_some in E. destruct (assoc EXPECTED_REPORTS h) as [[version kind]|] eqn:K; [|discriminate H].
    destruct (negb _) eqn:V in H; [discriminate H|]. apply negb_false_iff, eq_str_text in V.
    inv_bind H. apply catch_ok, timestamp_text in E0 as (C1 & C2 & C3). inv_bind H. apply catch_ok, timestamp_text in E0 as (D1 & D2 & D3).
    inv_bind H. apply catch_ok, timestamp_text in E0 as (S1 & S2 & S3). destruct (negb _) eqn:O in H; [discriminate H|].
    apply negb_false_iff in O. cbn [in_order] in O. rewrite !andb_true_iff, !Z.leb_le, C3, D3, S3 in O.
    inv_bind H. apply catch_ok, of_raw_some, parse_descriptor_of_some in E0 as [D KD]. apply list_elem_of_singleton in KD.
    inv_bind H. apply record_ok in E0 as [-> L]; [|done]. injection H as <- <-. rewrite C3, D3.
    exists {| rb_harness := h; rb_tool_version := version; rb_captured_at := json_text (member v "captured_at");
              rb_completed_at := json_text (member v "completed_at"); rb_signed_at := json_text (member v "signed_at"); rb_descriptor := v3 |}.
    split; [reflexivity|]. cbn. split; [done|]. split; [by exists v|]. split; [by rewrite KD|].
    split; [split; [done|]; split; [done|]; split; [done|lia]|]. done.
  - intros ([h' version c k s d] & -> & <- & (b & E & HV & HC & HK & HS & D) & F & (TC & TK & TS & TO) & -> & L).
    unfold timed. cbn [rb_harness rb_tool_version rb_captured_at rb_completed_at rb_signed_at rb_descriptor] in *.
    rewrite E. cbn [of_raw catch mbind result_bind]. rewrite F, HV, HC, HK, HS. rewrite (proj2 (eq_str_text _ _) eq_refl). cbn [negb json_text].
    apply timely_timestamp in TC as (tc & EC & VC), TK as (tk & EK & VK), TS as (ts & ES & VS).
    rewrite EC, EK, ES. cbn [catch mbind result_bind]. rewrite VC, VK, VS.
    assert (O : in_order [time_of c; time_of k; time_of s] = true) by (cbn [in_order]; rewrite !andb_true_iff, !Z.leb_le; lia).
    rewrite O. cbn [negb].
    rewrite (proj2 (parse_descriptor_of_some [ad_kind d] _ d) (conj D (proj2 (list_elem_of_singleton _ _) eq_refl))). cbn [of_raw catch mbind result_bind].
    by rewrite (proj2 (record_ok CompositionError ds d _ Hds) (conj eq_refl L)).
Qed.

Lemma entry_reads_size reports r : entry_reads reports r -> 1 <= ad_size (rb_descriptor r).
Proof. intros (b & _ & _ & _ & _ & _ & H). by apply parse_descriptor_size in H. Qed.

Lemma composed_reports_exact reports harnesses : forall ds ts l, ok_ledger ds ->
  composed_reports reports (ledger_of ds) harnesses = Ok (ts, l) <->
  exists rs, ts = map timed rs /\ map rb_harness rs = harnesses /\ Forall (entry_reads reports) rs /\ Forall report_fits rs /\
  Forall report_timely rs /\ l = ledger_of (ds ++ map rb_descriptor rs) /\ ok_ledger (ds ++ map rb_descriptor rs).
Proof.
  induction harnesses as [|h harnesses IH]; intros ds ts l Hds; cbn [composed_reports].
  - split.
    + intros [= <- <-]. exists []. cbn [map]. rewrite app_nil_r. by repeat split; try constructor; try apply Hds.
    + intros (rs & -> & E & _ & _ & _ & -> & _). destruct rs; [|done]. cbn [map]. by rewrite app_nil_r.
  - split.
    + intros H. apply bind_ok in H as ([t l1] & H1 & H). apply bind_ok in H as ([ts' l2] & H2 & H). injection H as <- <-.
      apply composed_report_exact in H1 as (r & -> & <- & R & F & T & -> & L); [|done].
      apply IH in H2 as (rs & -> & <- & R2 & F2 & T2 & -> & L2); [|done]. exists (r :: rs). cbn [map]. rewrite <-app_assoc in *. cbn [app] in *.
      exact (conj eq_refl (conj eq_refl (conj (Forall_cons_2 _ _ _ R R2) (conj (Forall_cons_2 _ _ _ F F2) (conj (Forall_cons_2 _ _ _ T T2) (conj eq_refl L2)))))).
    + intros (rs & -> & E & R & F & T & -> & L). destruct rs as [|r rs]; [done|]. cbn [map] in *. injection E as <- <-.
      apply Forall_cons in R as [R1 R2], F as [F1 F2], T as [T1 T2].
      assert (L1 : ok_ledger (ds ++ [rb_descriptor r])).
      { apply (ok_ledger_prefix _ (map rb_descriptor rs)); [|by rewrite <-app_assoc].
        apply Forall_map. eapply Forall_impl; [exact R2|]. intros x. by apply entry_reads_size. }
      rewrite (proj2 (composed_report_exact reports ds (rb_harness r) (timed r) _ Hds)) by (exists r; done). cbn [mbind result_bind].
      assert (E : composed_reports reports (ledger_of (ds ++ [rb_descriptor r])) (map rb_harness rs) =
        Ok (map timed rs, ledger_of ((ds ++ [rb_descriptor r]) ++ map rb_descriptor rs))).
      { apply IH; [done|]. exists rs. rewrite <-app_assoc. done. }
      rewrite E. cbn [mbind result_bind]. by rewrite <-app_assoc.
Qed.

(** ** The capture of the sleep-wake probe *)

(** The lifecycle harness lets the capture of the sleep-wake probe be a pcapng
    file, but no such artifact is accepted in a receipt. *)
Theorem sleep_wake_pcapng_refused :
  (exists kinds, expected_lifecycle_raw_kinds (u "sleep-wake:packet") = Some kinds /\ u "packet-pcapng" ∈ kinds) /\
  (forall seen l v w, raw_reads v w -> wb_harness w = u "lifecycle" -> ad_kind (wb_descriptor w) = u "packet-pcapng" ->
    (forall x, validated_raw_one seen l v <> Ok x) /\ forall x, composed_raw_one seen l v <> Ok x).
Proof.
  split; [eexists; split; [vm_compute; reflexivity|right; left]|]. intros seen l v w (b & E & H1 & H2 & D) HH HK.
  assert (K : exists kinds, assoc RAW_KINDS_BY_HARNESS (u "lifecycle") = Some kinds /\ mem (u "packet-pcapng") kinds = false)
    by (eexists; split; vm_compute; reflexivity).
  destruct K as (kinds & EK & M).
  assert (N : parse_descriptor_of kinds (member b "descriptor") = None) by (unfold parse_descriptor_of; rewrite D; cbn [mbind option_bind]; by rewrite HK, M).
  unfold validated_raw_one, composed_raw_one, composed_object, _parse_descriptor. change RAW_BINDING_FIELDS with RAW_ARTIFACT_BINDING_FIELDS.
  rewrite E. cbn [of_raw catch mbind result_bind]. rewrite H1, HH, EK. split; intros x H.
  - inv_bind H. destruct (existsb _ _) in H; [discriminate H|]. rewrite N in H. discriminate H.
  - inv_bind H. destruct (existsb _ _) in H; [discriminate H|]. rewrite N in H. discriminate H.
Qed.
