(* ===== verification/PolicyMaterial.v ===== *)
(** * Policy material

    src/scripts/harness/physical_collector_policy_material.py: from the metadata
    of a Cloud KMS key version, its public key in DER and its attestation, the
    bytes of the trust policy that the release is to pin.  The outcomes of reading
    the three files and the gzip decoder of [zlib] are parameters. *)

From S2P Require Import Prelude Sha256 Text Json Effects Base64 Ps256 TrustPolicy Archive Observation Catalogue CollectorRequest Composition.

Open Scope Z_scope.
Open Scope list_scope.

Definition PME {A} : result pyexn A := Err PolicyMaterialError.

Definition MAX_COMPRESSED_ATTESTATION_BYTES : Z := 8 * 1024 * 1024.
Definition MAX_DECOMPRESSED_ATTESTATION_BYTES : Z := 16 * 1024 * 1024.
Definition METADATA_FIELDS : list str := map u ["name"; "state"; "algorithm"; "protectionLevel"; "attestation"]%string.

(** ** DER *)

Record _DerReader := DerReader { dr_data : bytes; dr_offset : Z }.

Definition at_end (r : _DerReader) : bool := dr_offset r =? len (dr_data r).

Definition _take (length : Z) (r : _DerReader) : result pyexn (bytes * _DerReader) :=
  let end_ := dr_offset r + length in
  raise_if (length <? 0) || (len (dr_data r) <? end_) with PolicyMaterialError ;;
  Ok (slice (dr_data r) (dr_offset r) end_, DerReader (dr_data r) end_).

(** [data[0]]; [IndexError] on empty data. *)
Definition first_byte (data : bytes) : result pyexn Z := match data with b :: _ => Ok (bz b) | [] => Err OtherException end.

Definition _length (r : _DerReader) : result pyexn (Z * _DerReader) :=
  '(data, r) ← _take 1 r;
  initial ← first_byte data;
  if initial <? 128 then Ok (initial, r)
  else
    let width := Z.land initial 127 in
    raise_if width =? 0 with PolicyMaterialError ;;
    raise_if 4 <? width with PolicyMaterialError ;;
    '(encoded, r) ← _take width r;
    first ← first_byte encoded;
    raise_if first =? 0 with PolicyMaterialError ;;
    let length := int_be encoded in
    raise_if length <? 128 with PolicyMaterialError ;;
    Ok (length, r).

Definition value (tag : byte) (r : _DerReader) : result pyexn (bytes * _DerReader) :=
  '(data, r) ← _take 1 r;
  observed ← first_byte data;
  raise_if negb (observed =? bz tag) with PolicyMaterialError ;;
  '(length, r) ← _length r;
  _take length r.

Definition require_end (r : _DerReader) : result pyexn () := raise_if negb (at_end r) with PolicyMaterialError ;; Ok ().

Definition _der_positive_integer (data : bytes) : result pyexn bytes :=
  '(encoded, r) ← value x02 (DerReader data 0);
  _ ← require_end r;
  match encoded with
  | [] => PME
  | b :: rest =>
      raise_if negb (Z.land (bz b) 128 =? 0) with PolicyMaterialError ;;
      encoded ← match rest with
        | c :: _ => if bz b =? 0 then raise_if Z.land (bz c) 128 =? 0 with PolicyMaterialError ;; Ok rest else Ok encoded
        | [] => Ok encoded
        end;
      raise_if negb (any_nonzero encoded) with PolicyMaterialError ;;
      Ok encoded
  end.

Definition _encode_der_length (length : Z) : bytes :=
  if length <? 128 then [zb length]
  else let encoded := min_bytes length in zb (Z.lor 128 (len encoded)) :: encoded.

Definition _read_complete_tlv (tag : byte) (r : _DerReader) : result pyexn (bytes * _DerReader) :=
  '(data, r) ← value tag r;
  Ok ([tag] ++ _encode_der_length (len data) ++ data, r).

Definition RSA_ENCRYPTION_ALGORITHM_IDENTIFIER : bytes := hexb "300d06092a864886f70d0101010500".

(** The bytes and the values of modulus and exponent. *)
Definition _parse_rsa_spki (data : bytes) : result pyexn (bytes * bytes * Z * Z) :=
  '(spki, outer) ← value x30 (DerReader data 0);
  _ ← require_end outer;
  '(algorithm, spki_reader) ← value x30 (DerReader spki 0);
  raise_if negb (beq ([x30] ++ _encode_der_length (len algorithm) ++ algorithm) RSA_ENCRYPTION_ALGORITHM_IDENTIFIER)
    with PolicyMaterialError ;;
  '(bit_string, spki_reader) ← value x03 spki_reader;
  _ ← require_end spki_reader;
  match bit_string with
  | [] => PME
  | unused :: key =>
      raise_if negb (bz unused =? 0) with PolicyMaterialError ;;
      '(rsa_sequence, wrapped_key) ← value x30 (DerReader key 0);
      _ ← require_end wrapped_key;
      '(modulus_tlv, rsa_reader) ← _read_complete_tlv x02 (DerReader rsa_sequence 0);
      '(exponent_tlv, rsa_reader) ← _read_complete_tlv x02 rsa_reader;
      _ ← require_end rsa_reader;
      modulus_bytes ← _der_positive_integer modulus_tlv;
      exponent_bytes ← _der_positive_integer exponent_tlv;
      let modulus := int_be modulus_bytes in
      let exponent := int_be exponent_bytes in
      raise_if negb (len modulus_bytes =? RSA_MODULUS_BITS / 8) || negb (bit_length modulus =? RSA_MODULUS_BITS) || (modulus mod 2 =? 0)
        with PolicyMaterialError ;;
      raise_if negb (exponent =? RSA_PUBLIC_EXPONENT) || negb (beq exponent_bytes [x01; x00; x01]) with PolicyMaterialError ;;
      Ok (modulus_bytes, exponent_bytes, modulus, exponent)
  end.

(** ** The attestation *)

Definition _base64url (data : bytes) : str := b64_encode data.

(** [base64.b64encode]: the standard alphabet, padded. *)
Definition std_char (c : Z) : Z := if c =? 45 then 43 else if c =? 95 then 47 else c.
Definition url_char (c : Z) : Z := if c =? 43 then 45 else if c =? 47 then 95 else c.
Definition b64encode (data : bytes) : str :=
  let s := map std_char (b64_encode data) in
  s ++ replicate (Z.to_nat (- len s mod 4)) 61.
Definition is_std (c : Z) : bool := negb (c =? 45) && negb (c =? 95) && in_alphabet (url_char c).

(** [base64.b64decode(encoded, validate=True)] of a text with the padding it needs;
    the texts that Python decodes without it are refused by the comparison with
    [b64encode] that follows. *)
Definition b64decode (s : str) : option bytes :=
  let body := List.filter (fun c => negb (c =? 61)) s in
  if forallb is_std body && bool_decide (s = body ++ replicate (Z.to_nat (- len body mod 4)) 61) then b64_decode (map url_char body) else None.

Definition _decode_rest_bytes (content : json) : result pyexn bytes :=
  match content with
  | JStr s =>
      raise_if bool_decide (s = []) with PolicyMaterialError ;;
      raise_if negb (forallb (fun c => c <? 128) s) with PolicyMaterialError ;;
      decoded ← match b64decode s with Some d => Ok d | None => PME end;
      raise_if negb (str_eqb (b64encode decoded) s) with PolicyMaterialError ;;
      raise_if bool_decide (decoded = []) || (MAX_COMPRESSED_ATTESTATION_BYTES <? len decoded) with PolicyMaterialError ;;
      Ok decoded
  | _ => PME
  end.

(** What a gzip decoder answers: [decompress(data, max_length)] with whether input
    is left, then [flush(length)] with [eof], and whether there is data after the
    stream or input left.  [None] is [zlib.error]. *)
Record Zlib := {
  zl_decompress : bytes -> Z -> option (bytes * bool);
  zl_flush : bytes -> Z -> Z -> option (bytes * (bool * bool * bool))
}.

Section Material.
Context (zlib : Zlib).

Definition _validate_gzip_attestation (data : bytes) : result pyexn () :=
  raise_if (len data <? 18) || negb (beq (take 3 data) [x1f; x8b; x08]) with PolicyMaterialError ;;
  let maximum := MAX_DECOMPRESSED_ATTESTATION_BYTES + 1 in
  '(expanded, unconsumed) ← match zl_decompress zlib data maximum with Some x => Ok x | None => PME end;
  raise_if unconsumed || (MAX_DECOMPRESSED_ATTESTATION_BYTES <? len expanded) with PolicyMaterialError ;;
  '(more, (eof, unused, unconsumed)) ← match zl_flush zlib data maximum (maximum - len expanded) with Some x => Ok x | None => PME end;
  let expanded := expanded ++ more in
  raise_if MAX_DECOMPRESSED_ATTESTATION_BYTES <? len expanded with PolicyMaterialError ;;
  raise_if negb eof || unused || unconsumed with PolicyMaterialError ;;
  raise_if bool_decide (expanded = []) with PolicyMaterialError ;;
  Ok ().

Definition _non_placeholder_sha256 (digest : json) : result pyexn str :=
  digest ← require_sha256 digest;
  raise_if str_eqb digest (replicate 64 48) with PolicyMaterialError ;;
  Ok digest.

Definition _load_metadata (file : result pyexn bytes) : result pyexn (list (str * json)) :=
  data ← file;
  metadata ← of_raw (load_json_bytes data);
  of_raw (exact_object metadata METADATA_FIELDS).

Definition _attestation_bytes (attestation : list (str * json)) (compressed : option (result pyexn bytes)) : result pyexn bytes :=
  raise_if negb (mem (u "format") (map fst attestation)) with PolicyMaterialError ;;
  raise_if negb (subset (map fst attestation) [u "format"; u "content"]) with PolicyMaterialError ;;
  metadata_bytes ← match obj_get attestation (u "content") with
    | Some content => b ← _decode_rest_bytes content; Ok (Some b) | None => Ok None end;
  file_bytes ← match compressed with Some file => b ← file; Ok (Some b) | None => Ok None end;
  selected ← match metadata_bytes, file_bytes with
    | None, None => PME
    | Some m, Some f => raise_if negb (beq m f) with PolicyMaterialError ;; Ok m
    | Some m, None => Ok m
    | None, Some f => Ok f
    end;
  _ ← _validate_gzip_attestation selected;
  Ok selected.

(** [attestation_format not in KMS_ATTESTATION_FORMATS], of a set. *)
Definition material_format (format : json) : result pyexn str :=
  match format with
  | JStr s => raise_if negb (mem s KMS_ATTESTATION_FORMATS) with PolicyMaterialError ;; Ok s
  | JList _ | JObj _ => Err TypeError
  | _ => PME
  end.

(** The dict [policy]. *)
Definition policy_dict (format attestation_sha256 executable source version key_version public_key_sha256 : str) (modulus_bytes exponent_bytes : bytes)
  : json :=
  JObj [(u "alg", JStr COLLECTOR_SIGNATURE_ALGORITHM); (u "attestation_format", JStr format); (u "attestation_sha256", JStr attestation_sha256);
        (u "collector_executable_sha256", JStr executable); (u "collector_source_sha256", JStr source); (u "collector_version", JStr version);
        (u "e", JStr (_base64url exponent_bytes)); (u "evidence_profile", EVIDENCE_PROFILE); (u "key_version", JStr key_version);
        (u "kms_algorithm", JStr KMS_SIGNATURE_ALGORITHM); (u "kty", JStr (u "RSA")); (u "n", JStr (_base64url modulus_bytes));
        (u "protection_level", JStr KMS_PROTECTION_LEVEL); (u "public_key_sha256", JStr public_key_sha256); (u "schema_version", JInt 3);
        (u "state", JStr (u "configured"))].

(** The outcomes of reading the files, and the arguments. *)
Record material_inputs := {
  mi_metadata : result pyexn bytes; mi_public_key_der : result pyexn bytes; mi_attestation : option (result pyexn bytes);
  mi_expected_key_version : str; mi_collector_version : str; mi_collector_source_sha256 : str; mi_collector_executable_sha256 : str
}.

(** The checks of the metadata: the name of the key version, the format and the
    bytes of its attestation. *)
Definition key_version_material (i : material_inputs) (expected_name : str) : result pyexn (str * str * bytes) :=
  metadata ← _load_metadata (mi_metadata i);
  observed_name ← require_kms_key_version (member metadata "name");
  raise_if negb (str_eqb observed_name expected_name) with PolicyMaterialError ;;
  raise_if negb (json_eq_str (member metadata "state") (u "ENABLED")) with PolicyMaterialError ;;
  raise_if negb (json_eq_str (member metadata "algorithm") KMS_SIGNATURE_ALGORITHM) with PolicyMaterialError ;;
  raise_if negb (json_eq_str (member metadata "protectionLevel") KMS_PROTECTION_LEVEL) with PolicyMaterialError ;;
  match member metadata "attestation" with
  | JObj attestation =>
      format ← material_format (member attestation "format");
      compressed_attestation ← _attestation_bytes attestation (mi_attestation i);
      Ok (observed_name, format, compressed_attestation)
  | _ => PME
  end.

Definition build_configured_policy (i : material_inputs) : result pyexn bytes :=
  catch is_raw_error PolicyMaterialError
    (expected_name ← require_kms_key_version (JStr (mi_expected_key_version i));
     version ← require_identifier (JStr (mi_collector_version i));
     source_digest ← _non_placeholder_sha256 (JStr (mi_collector_source_sha256 i));
     executable_digest ← _non_placeholder_sha256 (JStr (mi_collector_executable_sha256 i));
     '(observed_name, format, compressed_attestation) ← key_version_material i expected_name;
     public_der ← mi_public_key_der i;
     '(modulus_bytes, exponent_bytes, modulus, exponent) ← _parse_rsa_spki public_der;
     let public_key_sha256 := hexdigest public_der in
     canonical_sha256 ← of_raw (rsa_spki_sha256 modulus exponent);
     raise_if negb (str_eqb public_key_sha256 canonical_sha256) with PolicyMaterialError ;;
     line ← of_raw (canonical_json (policy_dict format (hexdigest compressed_attestation) executable_digest source_digest version observed_name
                                      public_key_sha256 modulus_bytes exponent_bytes));
     let encoded := line ++ [x0a] in
     _ ← parse_trust_policy_bytes encoded (hexdigest encoded) false;
     Ok encoded).

End Material.
