(* ===== verification/MaterialProofs.v ===== *)
(** * What policy material becomes

    src/scripts/harness/physical_collector_policy_material.py: its strict DER
    reader accepts exactly the encoding that src/scripts/harness/raw_artifacts.py
    hashes, and the policy it prints is read back as the material it was made of. *)

From S2P Require Import Prelude Sha256 Text Json Effects Base64 Ps256 TrustPolicy PolicyProofs Archive Observation.
From S2P Require Import Copies Documents Catalogue CollectorRequest Composition CollectorProofs PolicyMaterial.

Open Scope Z_scope.
Open Scope list_scope.

(** ** Minimal bytes *)

Lemma int_be_cons b l : int_be (b :: l) = bz b * 256 ^ len l + int_be l.
Proof. change (b :: l) with ([b] ++ l). rewrite int_be_app. unfold int_be at 1. cbn [foldl]. lia. Qed.

Lemma pow_bytes n : 0 <= n -> 256 ^ n = 2 ^ (8 * n).
Proof. intros H. change 256 with (2 ^ 8). by rewrite <-Z.pow_mul_r by lia. Qed.

(** Bytes without a leading zero are the shortest of their value. *)
Lemma min_bytes_int_be b l : bz b <> 0 -> min_bytes (int_be (b :: l)) = b :: l.
Proof.
  intros N. pose proof (bz_range b) as B. pose proof (int_be_bound (b :: l)) as [_ U]. pose proof (int_be_bound l) as [L _].
  assert (G : 2 ^ (8 * len l) <= int_be (b :: l)) by (rewrite <-pow_bytes by apply len_nonneg; rewrite int_be_cons; nia).
  rewrite len_cons, pow_bytes in U by (pose proof (len_nonneg l); lia). pose proof (len_nonneg l) as LN.
  assert (P : 0 < int_be (b :: l)) by (eapply Z.lt_le_trans; [|exact G]; apply Z.pow_pos_nonneg; lia).
  apply Z.log2_le_pow2 in G; [|done]. apply Z.log2_lt_pow2 in U; [|done].
  unfold min_bytes, bit_length. set (n := int_be (b :: l)) in *.
  assert (W : (Z.log2 n + 1 + 7) / 8 = 1 + len l) by (Z.to_euclidean_division_equations; lia).
  rewrite W. assert (X : Z.to_nat (1 + len l) = length (b :: l)) by (unfold len; cbn [length]; lia). rewrite X. apply be_bytes_int_be.
Qed.

Lemma min_bytes_first n : 0 < n -> exists b l, min_bytes n = b :: l /\ bz b <> 0.
Proof.
  intros P. pose proof (min_bytes_value n P) as V. assert (LW : len (min_bytes n) = (bit_length n + 7) / 8).
  { unfold min_bytes, len. rewrite be_bytes_length. apply Z2Nat.id. unfold bit_length. pose proof (Z.log2_nonneg n). Z.to_euclidean_division_equations; lia. }
  destruct (min_bytes n) as [|b l] eqn:M; [cbn in V; lia|]. exists b, l. split; [done|]. intros Z0. rewrite int_be_cons, Z0 in V.
  pose proof (int_be_bound l) as [_ U]. rewrite pow_bytes in U by apply len_nonneg. assert (G : n < 2 ^ (8 * len l)) by lia.
  apply Z.log2_lt_pow2 in G; [|done]. rewrite len_cons in LW. unfold bit_length in LW. Z.to_euclidean_division_equations; lia.
Qed.

Lemma land_127 n : 128 <= n < 256 -> n = 128 + Z.land n 127.
Proof.
  intros H. change 127 with (Z.ones 7). rewrite Z.land_ones by lia. change (2 ^ 7) with 128. Z.to_euclidean_division_equations; lia.
Qed.

Lemma land_128 b : Z.land (bz b) 128 =? 0 = (bz b <? 128).
Proof. destruct b; vm_compute; reflexivity. Qed.

Lemma beq_eq a b : beq a b = true <-> a = b.
Proof. apply bool_decide_eq_true. Qed.

(** ** The reader *)

(** A reader between the bytes it has read and the rest. *)
Definition at_ (read rest : bytes) : _DerReader := DerReader (read ++ rest) (len read).

Lemma take_ok n p rest x r : _take n (at_ p rest) = Ok (x, r) <-> exists rest', rest = x ++ rest' /\ len x = n /\ r = at_ (p ++ x) rest'.
Proof.
  unfold _take, at_. cbn [dr_data dr_offset]. cbv zeta. rewrite len_app. pose proof (len_nonneg p) as LP. pose proof (len_nonneg rest) as LR.
  assert (SL : forall n, slice (p ++ rest) (len p) (len p + n) = take (Z.to_nat n) rest).
  { intros m. unfold slice. replace (len p + m - len p) with m by lia. unfold len. rewrite Nat2Z.id. by rewrite drop_app_length. }
  destruct (_ || _) eqn:G.
  - split; [done|]. intros (rest' & -> & <- & _). rewrite len_app in G. pose proof (len_nonneg x). pose proof (len_nonneg rest').
    apply orb_true_iff in G as [G|G]; [apply Z.ltb_lt in G|apply Z.ltb_lt in G]; lia.
  - apply orb_false_iff in G as [G1 G2]. apply Z.ltb_ge in G1, G2. rewrite SL. split.
    + intros [= <- <-]. exists (drop (Z.to_nat n) rest). split; [by rewrite take_drop|]. unfold len in *. rewrite length_take. split; [lia|].
      f_equal; [by rewrite <-app_assoc, take_drop|]. rewrite length_app, length_take. lia.
    + intros (rest' & -> & <- & ->). unfold len at 1. rewrite Nat2Z.id, take_app_length. f_equal. f_equal. by rewrite <-app_assoc, len_app.
Qed.

Lemma first_byte_ok x n : first_byte x = Ok n <-> exists b l, x = b :: l /\ n = bz b.
Proof. destruct x as [|b l]; cbn; split; [done|by intros (? & ? & ? & _)|intros [= <-]; by exists b, l|intros (? & ? & [= <- <-] & ->); done]. Qed.

Lemma len_one {A} (l : list A) : len l = 1 -> exists a, l = [a].
Proof. destruct l as [|a [|]]; unfold len; cbn; try lia. by exists a. Qed.

Lemma length_ok p rest n r : _length (at_ p rest) = Ok (n, r) ->
  exists rest', rest = _der_length n ++ rest' /\ r = at_ (p ++ _der_length n) rest' /\ 0 <= n.
Proof.
  unfold _length. intros H. inv_bind H. destruct v as [x r1]. apply take_ok in E as (rest1 & -> & L & ->). apply len_one in L as [b ->].
  cbn [first_byte mbind result_bind] in H. pose proof (bz_range b) as B. destruct (bz b <? 128) eqn:S.
  - injection H as <- <-. apply Z.ltb_lt in S. exists rest1. unfold _der_length. rewrite (proj2 (Z.ltb_lt _ _) S), zb_bz. split; [done|]. split; [done|lia].
  - apply Z.ltb_ge in S. cbv zeta in H. destruct (_ =? 0) in H; [discriminate H|]. destruct (4 <? _) in H; [discriminate H|].
    inv_bind H. destruct v as [x r2]. apply take_ok in E as (rest2 & -> & L & ->). inv_bind H. apply first_byte_ok in E as (c & l & -> & ->).
    destruct (bz c =? 0) eqn:Z0 in H; [discriminate H|]. apply Z.eqb_neq in Z0. destruct (_ <? 128) eqn:S2 in H; [discriminate H|]. apply Z.ltb_ge in S2.
    injection H as <- <-. exists rest2. pose proof (land_127 (bz b) ltac:(lia)) as LB.
    assert (D : _der_length (int_be (c :: l)) = b :: c :: l).
    { unfold _der_length. rewrite (proj2 (Z.ltb_ge _ _) S2). cbv zeta. rewrite (min_bytes_int_be c l Z0), L, lor_128, <-LB, zb_bz by lia. done. }
    rewrite D. split; [done|]. split; [|lia]. by rewrite <-app_assoc.
Qed.

Lemma length_read p n rest : 0 <= n < 2 ^ 32 -> _length (at_ p (_der_length n ++ rest)) = Ok (n, at_ (p ++ _der_length n) rest).
Proof.
  intros Hn. unfold _length, _der_length. destruct (n <? 128) eqn:S.
  - apply Z.ltb_lt in S. rewrite (proj2 (take_ok 1 p _ [zb n] (at_ (p ++ [zb n]) rest))) by (by exists rest). cbn [mbind result_bind first_byte].
    rewrite bz_zb, Z.mod_small by lia. by rewrite (proj2 (Z.ltb_lt _ _) S).
  - apply Z.ltb_ge in S. cbv zeta. pose proof (min_bytes_value n ltac:(lia)) as V. destruct (min_bytes_first n ltac:(lia)) as (c & l & M & C0).
    assert (LM : 1 <= len (min_bytes n) <= 4).
    { unfold min_bytes, len. rewrite be_bytes_length, Z2Nat.id; unfold bit_length; pose proof (Z.log2_nonneg n);
        assert (Z.log2 n < 32) by (apply Z.log2_lt_pow2; lia); Z.to_euclidean_division_equations; lia. }
    set (b := zb (Z.lor 128 (len (min_bytes n)))).
    assert (B : bz b = 128 + len (min_bytes n)) by (unfold b; rewrite lor_128, bz_zb, Z.mod_small by lia; lia).
    rewrite (proj2 (take_ok 1 p ((b :: min_bytes n) ++ rest) [b] (at_ (p ++ [b]) (min_bytes n ++ rest)))) by (by exists (min_bytes n ++ rest)).
    cbn [mbind result_bind first_byte]. rewrite (proj2 (Z.ltb_ge (bz b) 128)) by lia.
    assert (W : Z.land (bz b) 127 = len (min_bytes n)) by (pose proof (land_127 (bz b) ltac:(lia)); lia). rewrite W.
    rewrite (proj2 (Z.eqb_neq _ _)) by lia. rewrite (proj2 (Z.ltb_ge 4 _)) by lia.
    rewrite (proj2 (take_ok (len (min_bytes n)) (p ++ [b]) _ (min_bytes n) (at_ ((p ++ [b]) ++ min_bytes n) rest))) by (by exists rest).
    cbn [mbind result_bind]. rewrite V, M. cbn [first_byte mbind result_bind]. rewrite (proj2 (Z.eqb_neq _ _) C0), (proj2 (Z.ltb_ge _ _) S).
    by rewrite <-app_assoc.
Qed.

(** A value is read exactly from its encoding. *)
Lemma value_ok tag p rest v r : value tag (at_ p rest) = Ok (v, r) ->
  exists rest', rest = _der_tlv tag v ++ rest' /\ r = at_ (p ++ _der_tlv tag v) rest'.
Proof.
  unfold value. intros H. inv_bind H. destruct v0 as [x r1]. apply take_ok in E as (rest1 & -> & L & ->). apply len_one in L as [b ->].
  cbn [first_byte mbind result_bind] in H. destruct (negb _) eqn:G in H; [discriminate H|]. apply negb_false_iff, Z.eqb_eq, bz_inj in G as ->.
  inv_bind H. destruct v0 as [n r2]. apply length_ok in E as (rest2 & -> & -> & _). apply take_ok in H as (rest3 & -> & <- & ->).
  exists rest3. unfold _der_tlv. split; [cbn [app]; by rewrite <-app_assoc|]. f_equal. cbn [app]. by rewrite <-!app_assoc.
Qed.

Lemma value_read tag p v rest : len v < 2 ^ 32 -> value tag (at_ p (_der_tlv tag v ++ rest)) = Ok (v, at_ (p ++ _der_tlv tag v) rest).
Proof.
  intros L. unfold value. set (d := _der_length (len v)).
  assert (T : _der_tlv tag v ++ rest = [tag] ++ d ++ v ++ rest) by (unfold _der_tlv; by rewrite <-!app_assoc). rewrite T.
  rewrite (proj2 (take_ok 1 p _ [tag] (at_ (p ++ [tag]) (d ++ v ++ rest)))) by (by exists (d ++ v ++ rest)). cbn [mbind result_bind first_byte].
  rewrite Z.eqb_refl. cbn [negb]. pose proof (length_read (p ++ [tag]) (len v) (v ++ rest) ltac:(pose proof (len_nonneg v); lia)) as LR. fold d in LR. rewrite LR. cbn [mbind result_bind].
  apply take_ok. exists rest. split; [done|]. split; [done|]. f_equal. unfold _der_tlv. fold d. by rewrite <-!app_assoc.
Qed.

Lemma end_ok p rest : require_end (at_ p rest) = Ok () <-> rest = [].
Proof.
  unfold require_end, at_end, at_. cbn [dr_data dr_offset]. rewrite len_app. destruct (negb _) eqn:G.
  - split; [done|]. intros ->. apply negb_true_iff, Z.eqb_neq in G. change (len []) with 0 in G. lia.
  - apply negb_false_iff, Z.eqb_eq in G. split; [|done]. intros _. apply len_0_nil. lia.
Qed.

Lemma start data : DerReader data 0 = at_ [] data.
Proof. reflexivity. Qed.

(** A value that is all there is. *)
Lemma whole_ok tag data v r : value tag (DerReader data 0) = Ok (v, r) -> require_end r = Ok () -> data = _der_tlv tag v.
Proof. rewrite start. intros (rest & -> & ->)%value_ok H%end_ok. by rewrite H, app_nil_r. Qed.
Lemma whole_read tag v : len v < 2 ^ 32 -> exists r, value tag (DerReader (_der_tlv tag v) 0) = Ok (v, r) /\ require_end r = Ok ().
Proof.
  intros L. eexists. split; [rewrite start; rewrite <-(app_nil_r (_der_tlv tag v)); by apply value_read|by apply end_ok].
Qed.

(** ** Integers and keys *)

Lemma any_nonzero_first b l : bz b <> 0 -> any_nonzero (b :: l) = true.
Proof. intros N. unfold any_nonzero. cbn [existsb]. by rewrite (proj2 (Z.eqb_neq _ _) N). Qed.

Lemma int_be_positive b l : bz b <> 0 -> 0 < int_be (b :: l).
Proof.
  intros N. rewrite int_be_cons. pose proof (bz_range b). pose proof (int_be_bound l). assert (0 < 256 ^ len l) by (apply Z.pow_pos_nonneg; [lia|apply len_nonneg]). nia.
Qed.

(** The encoding of a value from its minimal bytes. *)
Lemma der_integer_min b l : bz b <> 0 ->
  _der_integer (int_be (b :: l)) = Some (_der_tlv x02 (if bz b <? 128 then b :: l else x00 :: b :: l)).
Proof.
  intros N. pose proof (int_be_positive b l N) as P. unfold _der_integer. rewrite (proj2 (Z.leb_gt _ _)) by lia.
  cbv zeta. rewrite (min_bytes_int_be b l N), land_128. done.
Qed.

Lemma positive_integer_ok data m : _der_positive_integer data = Ok m ->
  0 < int_be m /\ m = min_bytes (int_be m) /\ _der_integer (int_be m) = Some data.
Proof.
  unfold _der_positive_integer. intros H. inv_bind H. destruct v as [encoded r]. inv_bind H. destruct v.
  pose proof (whole_ok _ _ _ _ E E0) as ->. clear E E0 r. destruct encoded as [|b rest]; [discriminate H|]. rewrite land_128 in H.
  destruct (negb _) eqn:G in H; [discriminate H|]. apply negb_false_iff in G. inv_bind H. destruct (negb _) eqn:A in H; [discriminate H|].
  apply negb_false_iff in A. injection H as <-.
  assert (X : (exists c l, v = c :: l /\ bz c <> 0 /\ b :: rest = (if bz c <? 128 then c :: l else x00 :: c :: l))).
  { destruct rest as [|c l].
    - injection E as <-. exists b, []. split; [done|]. rewrite G. split; [|done]. unfold any_nonzero in A. cbn [existsb] in A.
      rewrite orb_false_r in A. by apply negb_true_iff, Z.eqb_neq in A.
    - destruct (bz b =? 0) eqn:Z0.
      + rewrite land_128 in E. destruct (bz c <? 128) eqn:C in E; [discriminate E|]. injection E as <-. exists c, l. split; [done|]. rewrite C.
        apply Z.ltb_ge in C. split; [lia|]. apply Z.eqb_eq in Z0. change 0 with (bz x00) in Z0. by apply bz_inj in Z0 as ->.
      + injection E as <-. exists b, (c :: l). split; [done|]. rewrite G. split; [by apply Z.eqb_neq in Z0|done]. }
  destruct X as (c & l & -> & N & ->). split; [by apply int_be_positive|]. split; [by rewrite min_bytes_int_be|]. by apply der_integer_min.
Qed.

Lemma positive_integer_read z data : 0 < z < 2 ^ 5000 -> _der_integer z = Some data -> _der_positive_integer data = Ok (min_bytes z).
Proof.
  intros [P U] H. destruct (min_bytes_first z P) as (c & l & M & N). pose proof (min_bytes_value z P) as V. rewrite M in V.
  rewrite <-V, (der_integer_min c l N) in H. injection H as <-. rewrite M. set (content := if bz c <? 128 then c :: l else x00 :: c :: l).
  assert (L : len content < 2 ^ 32).
  { assert (LM : len (c :: l) <= 626).
    { rewrite <-M. unfold min_bytes, len. assert (Z.log2 z < 5000) by (by apply Z.log2_lt_pow2). pose proof (Z.log2_nonneg z).
      rewrite be_bytes_length, Z2Nat.id; unfold bit_length; Z.to_euclidean_division_equations; lia. }
    unfold content. destruct (_ <? _); rewrite ?len_cons in *; lia. }
  destruct (whole_read x02 content L) as (r & E1 & E2). unfold _der_positive_integer. rewrite E1. cbn [mbind result_bind]. rewrite E2. cbn [mbind result_bind].
  unfold content. destruct (bz c <? 128) eqn:C.
  - rewrite land_128, C. cbn [negb]. rewrite (proj2 (Z.eqb_neq _ _) N). destruct l; cbn [mbind result_bind]; by rewrite (any_nonzero_first c _ N).
  - rewrite land_128. cbn [bz]. change (bz x00 <? 128) with true. change (bz x00 =? 0) with true. cbn [negb]. rewrite land_128, C. cbn [mbind result_bind].
    by rewrite (any_nonzero_first c l N).
Qed.

Lemma encode_length n : _encode_der_length n = _der_length n.
Proof. reflexivity. Qed.

Lemma encoded_tlv tag v : [tag] ++ _encode_der_length (len v) ++ v = _der_tlv tag v.
Proof. reflexivity. Qed.

Lemma complete_tlv_ok tag p rest d r : _read_complete_tlv tag (at_ p rest) = Ok (d, r) ->
  exists v rest', d = _der_tlv tag v /\ rest = d ++ rest' /\ r = at_ (p ++ d) rest'.
Proof.
  unfold _read_complete_tlv. intros H. inv_bind H. destruct v as [v r1]. apply value_ok in E as (rest' & -> & ->). injection H as <- <-.
  exists v, rest'. by rewrite encode_length.
Qed.
Lemma complete_tlv_read tag p v rest : len v < 2 ^ 32 ->
  _read_complete_tlv tag (at_ p (_der_tlv tag v ++ rest)) = Ok (_der_tlv tag v, at_ (p ++ _der_tlv tag v) rest).
Proof. intros L. unfold _read_complete_tlv. by rewrite value_read. Qed.

Lemma algorithm_tlv : RSA_ENCRYPTION_ALGORITHM_IDENTIFIER = rsa_encryption_algorithm.
Proof. reflexivity. Qed.

Lemma fixed_bytes w v : len v = Z.of_nat w -> v = be_bytes w (int_be v).
Proof. intros L. assert (X : w = length v) by (unfold len in L; lia). by rewrite X, be_bytes_int_be. Qed.

Lemma spki_of n e dn de : _der_integer n = Some dn -> _der_integer e = Some de ->
  rsa_spki n e = Some (_der_tlv x30 (rsa_encryption_algorithm ++ _der_tlv x03 (x00 :: _der_tlv x30 (dn ++ de)))).
Proof. intros E1 E2. unfold rsa_spki. rewrite E1. cbn [mbind option_bind]. by rewrite E2. Qed.

Lemma parsed_key_ok data mb eb n e : _parse_rsa_spki data = Ok (mb, eb, n, e) ->
  rsa_key n e /\ mb = be_bytes 384 n /\ eb = EXPONENT_BYTES /\ rsa_spki n e = Some data.
Proof.
  unfold _parse_rsa_spki. intros H. inv_bind H. destruct v as [spki outer]. inv_bind H. destruct v. pose proof (whole_ok _ _ _ _ E E0) as ->. clear E E0 outer.
  inv_bind H. destruct v as [alg r1]. rewrite start in E. apply value_ok in E as (rest & -> & ->). destruct (negb _) eqn:G in H; [discriminate H|].
  apply negb_false_iff, beq_eq in G. rewrite algorithm_tlv, encoded_tlv in G. rewrite G.
  inv_bind H. destruct v as [bits r2]. apply value_ok in E as (rest2 & -> & ->). inv_bind H. destruct v. apply end_ok in E as ->. rewrite app_nil_r.
  destruct bits as [|b key]; [discriminate H|]. destruct (negb _) eqn:Z0 in H; [discriminate H|]. apply negb_false_iff, Z.eqb_eq in Z0.
  change 0 with (bz x00) in Z0. apply bz_inj in Z0 as ->. inv_bind H. destruct v as [sq r3]. inv_bind H. destruct v. pose proof (whole_ok _ _ _ _ E E0) as ->. clear E E0 r3.
  inv_bind H. destruct v as [mt r4]. rewrite start in E. apply complete_tlv_ok in E as (mv & rest3 & _ & -> & ->).
  inv_bind H. destruct v as [et r5]. apply complete_tlv_ok in E as (ev & rest4 & _ & -> & ->). inv_bind H. destruct v. apply end_ok in E as ->.
  inv_bind H. apply positive_integer_ok in E as (P1 & M1 & D1). inv_bind H. apply positive_integer_ok in E as (P2 & M2 & D2). cbv zeta in H.
  destruct (_ || _) eqn:G1 in H; [discriminate H|]. rewrite !orb_false_iff, !negb_false_iff, !Z.eqb_eq in G1. destruct G1 as [[L1 B1] O1]. apply Z.eqb_neq in O1.
  destruct (_ || _) eqn:G2 in H; [discriminate H|]. rewrite orb_false_iff, !negb_false_iff, Z.eqb_eq in G2. destruct G2 as [X2 Y2]. apply beq_eq in Y2.
  change (RSA_MODULUS_BITS / 8) with (Z.of_nat 384) in L1. apply fixed_bytes in L1. rewrite app_nil_r. injection H as <- <- <- <-.
  exact (conj (conj P1 (conj O1 (conj B1 X2))) (conj L1 (conj Y2 (spki_of _ _ _ _ D1 D2)))).
Qed.

Lemma min_bytes_short n : 0 < n < 2 ^ 32 -> 1 <= len (min_bytes n) <= 4.
Proof.
  intros Hn. unfold min_bytes, len. pose proof (Z.log2_nonneg n). assert (Z.log2 n < 32) by (apply Z.log2_lt_pow2; lia).
  rewrite be_bytes_length, Z2Nat.id; unfold bit_length; Z.to_euclidean_division_equations; lia.
Qed.

Lemma tlv_len tag v : len v < 2 ^ 32 -> len (_der_tlv tag v) <= len v + 6.
Proof.
  intros L. pose proof (len_nonneg v) as N. unfold _der_tlv. rewrite !len_app. change (len [tag]) with 1. unfold _der_length.
  destruct (len v <? 128) eqn:S; [change (len [zb (len v)]) with 1; lia|]. apply Z.ltb_ge in S. cbv zeta. rewrite len_cons.
  pose proof (min_bytes_short (len v) ltac:(lia)). lia.
Qed.

Lemma exponent_der : _der_integer RSA_PUBLIC_EXPONENT = Some (_der_tlv x02 EXPONENT_BYTES) /\ min_bytes RSA_PUBLIC_EXPONENT = EXPONENT_BYTES.
Proof. split; vm_compute; reflexivity. Qed.

Lemma modulus_min n e : rsa_key n e -> min_bytes n = be_bytes 384 n.
Proof. intros (_ & _ & BL & _). unfold min_bytes. rewrite BL. reflexivity. Qed.

Lemma modulus_der n e : rsa_key n e -> exists cn, _der_integer n = Some (_der_tlv x02 cn) /\ len cn <= 385.
Proof.
  intros K. pose proof (modulus_min n e K) as MM. destruct K as (P & _). destruct (min_bytes_first n P) as (c & l & M & N).
  pose proof (min_bytes_value n P) as V. rewrite M in V.
  assert (L : len (c :: l) = 384) by (rewrite <-M, MM; unfold len; by rewrite be_bytes_length).
  rewrite <-V. eexists. split; [by apply der_integer_min|]. destruct (_ <? _); rewrite ?len_cons in *; lia.
Qed.

Lemma modulus_range n e : rsa_key n e -> 0 < n < 2 ^ 5000.
Proof.
  intros (P & _ & BL & _). split; [done|]. apply Z.log2_lt_pow2; [done|]. unfold bit_length, RSA_MODULUS_BITS in BL. lia.
Qed.

Lemma key_parsed data n e : rsa_key n e -> rsa_spki n e = Some data -> _parse_rsa_spki data = Ok (be_bytes 384 n, EXPONENT_BYTES, n, e).
Proof.
  intros K H. destruct (modulus_der n e K) as (cn & DN & LN). pose proof (modulus_range n e K) as RN. pose proof (modulus_min n e K) as MN.
  destruct K as (P & O & BL & ->). destruct exponent_der as [DE ME]. rewrite (spki_of _ _ _ _ DN DE) in H. apply (inj Some) in H. subst data.
  set (en := _der_tlv x02 cn) in *. set (ee := _der_tlv x02 EXPONENT_BYTES) in *.
  assert (L1 : len en <= 391) by (unfold en; pose proof (tlv_len x02 cn); lia). assert (L2 : len ee <= 9) by (vm_compute; discriminate).
  set (sq := _der_tlv x30 (en ++ ee)). assert (LQ : len (en ++ ee) <= 400) by (rewrite len_app; lia).
  assert (L3 : len sq <= 406) by (unfold sq; pose proof (tlv_len x30 (en ++ ee)); lia).
  assert (L4 : len (x00 :: sq) <= 407) by (rewrite len_cons; lia). set (bits := _der_tlv x03 (x00 :: sq)).
  assert (L5 : len bits <= 413) by (unfold bits; pose proof (tlv_len x03 (x00 :: sq)); lia).
  assert (L6 : len (rsa_encryption_algorithm ++ bits) < 2 ^ 32) by (rewrite len_app; change (len rsa_encryption_algorithm) with 15; lia).
  unfold _parse_rsa_spki. destruct (whole_read x30 _ L6) as (r & E1 & E2). rewrite E1. cbn [mbind result_bind]. rewrite E2. cbn [mbind result_bind].
  set (alg := drop 2 rsa_encryption_algorithm). change rsa_encryption_algorithm with (_der_tlv x30 alg) at 1. rewrite start.
  rewrite (value_read x30 [] alg bits) by (vm_compute; reflexivity). cbn [mbind result_bind]. rewrite algorithm_tlv, encoded_tlv.
  change (_der_tlv x30 alg) with rsa_encryption_algorithm. rewrite (proj2 (beq_eq _ _) eq_refl). cbn [negb].
  rewrite <-(app_nil_r bits). unfold bits. rewrite value_read by lia. cbn [mbind result_bind]. rewrite (proj2 (end_ok _ []) eq_refl). cbn [mbind result_bind].
  change (bz x00 =? 0) with true. cbn [negb]. destruct (whole_read x30 (en ++ ee) ltac:(lia)) as (r2 & E3 & E4). fold sq in E3. rewrite E3. cbn [mbind result_bind].
  rewrite E4. cbn [mbind result_bind]. rewrite start. unfold en at 1. rewrite (complete_tlv_read x02 [] cn ee) by lia. cbn [mbind result_bind]. fold en.
  rewrite <-(app_nil_r ee). unfold ee at 1. rewrite complete_tlv_read by (vm_compute; reflexivity). cbn [mbind result_bind]. fold ee.
  rewrite (proj2 (end_ok _ []) eq_refl). cbn [mbind result_bind]. rewrite (positive_integer_read n en RN DN), MN. cbn [mbind result_bind].
  rewrite (positive_integer_read RSA_PUBLIC_EXPONENT ee ltac:(vm_compute; done) DE), ME. cbn [mbind result_bind].
  pose proof (min_bytes_value n P) as V. rewrite MN in V. cbv zeta. rewrite V.
  assert (LM : len (be_bytes 384 n) = 384) by (unfold len; by rewrite be_bytes_length). rewrite LM, BL.
  change (384 =? RSA_MODULUS_BITS / 8) with true. change (RSA_MODULUS_BITS =? RSA_MODULUS_BITS) with true. rewrite (proj2 (Z.eqb_neq _ _) O). cbn [negb orb].
  change (int_be EXPONENT_BYTES) with RSA_PUBLIC_EXPONENT. change (RSA_PUBLIC_EXPONENT =? RSA_PUBLIC_EXPONENT) with true.
  rewrite (proj2 (beq_eq EXPONENT_BYTES [x01; x00; x01]) eq_refl). reflexivity.
Qed.

(** [data] is the DER encoding of a key of the release. *)
Definition encodes (data : bytes) (n e : Z) : Prop := rsa_key n e /\ rsa_spki n e = Some data.

(** C32: Exactly one encoding of a key is accepted.  [_parse_rsa_spki] returns if and
    only if the data are the DER SubjectPublicKeyInfo that [rsa_spki_sha256] hashes,
    of an odd 3072-bit modulus with the exponent 65537: every other length form,
    padding, tag, algorithm, trailing byte or key is refused.  What it returns are
    the bytes and the values of that key, so the later comparison of the digest of
    the data with [rsa_spki_sha256] cannot fail. *)
Theorem parse_rsa_spki_exact data mb eb n e :
  _parse_rsa_spki data = Ok (mb, eb, n, e) <->
  encodes data n e /\ mb = be_bytes 384 n /\ eb = EXPONENT_BYTES.
Proof. split; [intros (K & -> & -> & H)%parsed_key_ok; by split|]. intros ([K H] & -> & ->). by apply key_parsed. Qed.

(** ** The policy *)

Lemma dict_document p :
  canonical_json (policy_dict (tp_attestation_format p) (tp_attestation_sha256 p) (tp_collector_executable_sha256 p) (tp_collector_source_sha256 p)
    (tp_collector_version p) (tp_key_version p) (tp_public_key_sha256 p) (be_bytes 384 (tp_modulus p)) EXPONENT_BYTES) =
  canonical_json (policy_document p).
Proof.
  unfold canonical_json, policy_dict, policy_document, policy_items, _base64url. generalize (b64_encode (be_bytes 384 (tp_modulus p))). intros n.
  generalize (b64_encode EXPONENT_BYTES). intros e. generalize EVIDENCE_PROFILE. intros profile. reflexivity.
Qed.

(** The material a policy is made of. *)
Record material (zlib : Zlib) (i : material_inputs) (p : CollectorTrustPolicy) : Prop := {
  mt_name : tp_key_version p = mi_expected_key_version i;
  mt_metadata : exists metadata attestation compressed, _load_metadata (mi_metadata i) = Ok metadata /\
    member metadata "name" = JStr (tp_key_version p) /\ member metadata "state" = JStr (u "ENABLED") /\
    member metadata "algorithm" = JStr KMS_SIGNATURE_ALGORITHM /\ member metadata "protectionLevel" = JStr KMS_PROTECTION_LEVEL /\
    member metadata "attestation" = JObj attestation /\ member attestation "format" = JStr (tp_attestation_format p) /\
    _attestation_bytes zlib attestation (mi_attestation i) = Ok compressed /\ tp_attestation_sha256 p = hexdigest compressed;
  mt_key : exists der, mi_public_key_der i = Ok der /\ encodes der (tp_modulus p) (tp_exponent p);
  mt_version : tp_collector_version p = mi_collector_version i;
  mt_source : tp_collector_source_sha256 p = mi_collector_source_sha256 i /\ mi_collector_source_sha256 i <> replicate 64 48;
  mt_executable : tp_collector_executable_sha256 p = mi_collector_executable_sha256 i /\ mi_collector_executable_sha256 i <> replicate 64 48
}.

Lemma placeholder_ok s d : _non_placeholder_sha256 (JStr s) = Ok d <-> d = s /\ is_sha256 s = true /\ s <> replicate 64 48.
Proof.
  unfold _non_placeholder_sha256. split.
  - intros H. inv_bind H. apply digest_field_ok in E as [[= <-] S]. destruct (str_eqb _ _) eqn:G in H; [discriminate H|]. injection H as <-.
    split; [done|]. split; [done|]. intros X. rewrite X, str_eqb_refl in G. discriminate G.
  - intros (-> & S & N). rewrite (proj2 (digest_field_ok _ _) (conj eq_refl S)). cbn [mbind result_bind].
    by rewrite (bool_decide_eq_false_2 _ N : str_eqb _ _ = false).
Qed.

Lemma material_format_ok v s : material_format v = Ok s <-> v = JStr s /\ s ∈ KMS_ATTESTATION_FORMATS.
Proof.
  unfold material_format. split.
  - destruct v as [| | | |t| |]; try discriminate. destruct (mem t _) eqn:G; [|discriminate]. intros [= <-]. by apply mem_spec in G.
  - intros [-> H]. by apply mem_spec in H as ->.
Qed.

Lemma key_version_ok zlib i name v : key_version_material zlib i name = Ok v -> exists metadata attestation format compressed,
  v = (name, format, compressed) /\ _load_metadata (mi_metadata i) = Ok metadata /\ member metadata "name" = JStr name /\
  member metadata "state" = JStr (u "ENABLED") /\ member metadata "algorithm" = JStr KMS_SIGNATURE_ALGORITHM /\
  member metadata "protectionLevel" = JStr KMS_PROTECTION_LEVEL /\ member metadata "attestation" = JObj attestation /\
  member attestation "format" = JStr format /\ format ∈ KMS_ATTESTATION_FORMATS /\ _attestation_bytes zlib attestation (mi_attestation i) = Ok compressed.
Proof.
  unfold key_version_material. intros H. inv_bind H. inv_bind H. apply require_kms_ok in E0 as [N _]. destruct (negb _) eqn:G in H; [discriminate H|].
  apply negb_false_iff, str_eqb_eq in G as ->. do 3 (destruct (negb _) eqn:?G in H; [discriminate H|]). apply eq_str_inv in G, G0, G1.
  destruct (member v0 "attestation") as [| | | | | |attestation] eqn:A; try discriminate H. inv_bind H. apply material_format_ok in E0 as [F1 F2].
  inv_bind H. injection H as <-. exists v0, attestation, v1, v2. done.
Qed.

Lemma key_version_read zlib i name metadata attestation format compressed :
  GCP_KMS_KEY_VERSION_RE name = true -> _load_metadata (mi_metadata i) = Ok metadata -> member metadata "name" = JStr name ->
  member metadata "state" = JStr (u "ENABLED") -> member metadata "algorithm" = JStr KMS_SIGNATURE_ALGORITHM ->
  member metadata "protectionLevel" = JStr KMS_PROTECTION_LEVEL -> member metadata "attestation" = JObj attestation ->
  member attestation "format" = JStr format -> format ∈ KMS_ATTESTATION_FORMATS -> _attestation_bytes zlib attestation (mi_attestation i) = Ok compressed ->
  key_version_material zlib i name = Ok (name, format, compressed).
Proof.
  intros K E N S A P M F I B. unfold key_version_material. rewrite E. cbn [mbind result_bind]. rewrite N, S, A, P, M.
  rewrite (proj2 (require_kms_ok _ _) (conj eq_refl K)). cbn [mbind result_bind]. rewrite str_eqb_refl, !(proj2 (eq_str_text _ _) eq_refl). cbn [negb].
  rewrite (proj2 (material_format_ok _ _) (conj F I)). cbn [mbind result_bind]. by rewrite B.
Qed.

(** Two documents with the same encoding are of the same key, attestation and collector. *)
Lemma documents_agree p q line : Forall (fun s => encodable s = true) (policy_texts p) -> Forall (fun s => encodable s = true) (policy_texts q) ->
  canonical_json (policy_document p) = Some line -> canonical_json (policy_document q) = Some line -> policy_texts p = policy_texts q.
Proof.
  intros FP FQ EP EQ. destruct (encodable_document p FP) as [P1 P2]. destruct (encodable_document q FQ) as [Q1 Q2].
  pose proof (canonical_inj _ _ _ P1 P2 Q1 Q2 EP EQ) as N.
  assert (M : forall k, json_text (normalize (member (policy_items p) k)) = json_text (normalize (member (policy_items q) k))).
  { intros k. rewrite <-(member_normalize _ k (policy_items_keys p)), <-(member_normalize _ k (policy_items_keys q)). unfold policy_document in N. by rewrite N. }
  unfold policy_texts. rewrite (M "key_version"%string : tp_key_version p = tp_key_version q).
  rewrite (M "attestation_format"%string : tp_attestation_format p = tp_attestation_format q).
  rewrite (M "public_key_sha256"%string : tp_public_key_sha256 p = tp_public_key_sha256 q).
  rewrite (M "attestation_sha256"%string : tp_attestation_sha256 p = tp_attestation_sha256 q).
  rewrite (M "n"%string : b64_encode (be_bytes 384 (tp_modulus p)) = b64_encode (be_bytes 384 (tp_modulus q))).
  rewrite (M "collector_version"%string : tp_collector_version p = tp_collector_version q).
  rewrite (M "collector_source_sha256"%string : tp_collector_source_sha256 p = tp_collector_source_sha256 q).
  by rewrite (M "collector_executable_sha256"%string : tp_collector_executable_sha256 p = tp_collector_executable_sha256 q).
Qed.

(** Eight texts. *)
Lemma eight_inj {A} (a b c d e f g h a' b' c' d' e' f' g' h' : A) : [a; b; c; d; e; f; g; h] = [a'; b'; c'; d'; e'; f'; g'; h'] ->
  a = a' /\ b = b' /\ c = c' /\ d = d' /\ e = e' /\ f = f' /\ g = g' /\ h = h'.
Proof. by intros [= -> -> -> -> -> -> -> ->]. Qed.

Lemma modulus_text_inj n n' e e' : rsa_key n e -> rsa_key n' e' -> b64_encode (be_bytes 384 n) = b64_encode (be_bytes 384 n') -> n = n'.
Proof.
  intros K K' H. pose proof (b64_decode_encode (be_bytes 384 n)) as D. rewrite H, b64_decode_encode in D. apply (inj Some) in D.
  pose proof (modulus_min n e K) as M. pose proof (modulus_min n' e' K') as M'. destruct K as (P & _), K' as (P' & _).
  rewrite <-(min_bytes_value n P), <-(min_bytes_value n' P'). by rewrite M, M', D.
Qed.

Lemma built_policy_ok zlib i encoded : build_configured_policy zlib i = Ok encoded ->
  exists p, material zlib i p /\ parse_trust_policy_bytes encoded (hexdigest encoded) false = Ok p.
Proof.
  unfold build_configured_policy. intros H%catch_ok. inv_bind H. apply require_kms_ok in E as [[= <-] K]. inv_bind H. apply require_identifier_ok in E as [[= <-] I].
  inv_bind H. apply placeholder_ok in E as (-> & S1 & S2). inv_bind H. apply placeholder_ok in E as (-> & X1 & X2). inv_bind H.
  apply key_version_ok in E as (metadata & attestation & format & compressed & -> & M1 & M2 & M3 & M4 & M5 & M6 & M7 & M8 & M9).
  inv_bind H. rename v into der, E into ED. inv_bind H. destruct v as [[[mb eb] n] e]. apply parsed_key_ok in E as (RK & -> & -> & SP). cbv zeta in H.
  inv_bind H. destruct (negb _) eqn:G in H; [discriminate H|]. clear v E G. inv_bind H. apply of_raw_ok in E. inv_bind H. injection H as <-.
  rename v into line, v0 into p, E into EL, E0 into EP. exists p. split; [|exact EP].
  set (q := {| tp_policy_sha256 := []; tp_key_version := mi_expected_key_version i; tp_algorithm := []; tp_kms_algorithm := []; tp_protection_level := [];
    tp_attestation_format := format; tp_public_key_sha256 := hexdigest der; tp_attestation_sha256 := hexdigest compressed; tp_modulus := n; tp_exponent := e;
    tp_collector_version := mi_collector_version i; tp_collector_source_sha256 := mi_collector_source_sha256 i;
    tp_collector_executable_sha256 := mi_collector_executable_sha256 i; tp_evidence_profile_sha256 := []; tp_aggregate_schema_version := JNull;
    tp_aggregator_version := JNull; tp_boot_environment_scheme := JNull; tp_machine_identity_scheme := JNull; tp_machine_topology := JNull;
    tp_release_source_pinned := false |}).
  assert (FQ : Forall (fun s => encodable s = true) (policy_texts q)).
  { unfold policy_texts, q. cbn [tp_key_version tp_attestation_format tp_public_key_sha256 tp_attestation_sha256 tp_modulus tp_collector_version
      tp_collector_source_sha256 tp_collector_executable_sha256].
    repeat apply Forall_cons_2; [by apply word_encodable, kms_key_word| |apply sha256_encodable, hexdigest_sha256|apply sha256_encodable, hexdigest_sha256|
      apply b64_encodable|by apply word_encodable, identifier_word|by apply sha256_encodable|by apply sha256_encodable|apply Forall_nil_2].
    unfold KMS_ATTESTATION_FORMATS in M8. rewrite !elem_of_cons, elem_of_nil in M8. destruct M8 as [-> | [-> | []]]; vm_compute; reflexivity. }
  apply parsed_policy_ok in EP as (PO & _ & _ & _ & line' & EL' & EQ). apply app_inj_tail in EQ as [-> _].
  assert (DD : canonical_json (policy_document q) = Some line') by (rewrite <-(dict_document q); exact EL). clear EL.
  pose proof (documents_agree _ _ _ (policy_encodable p PO) FQ EL' DD) as T. unfold policy_texts in T.
  apply eight_inj in T as (T1 & T2 & _ & T4 & T5 & T6 & T7 & T8). apply (modulus_text_inj _ n _ e (ok_key p PO) RK) in T5.
  assert (TE : tp_exponent p = e) by (destruct (ok_key p PO) as (_ & _ & _ & ->), RK as (_ & _ & _ & ->); done).
  constructor; [exact T1| |exists der; rewrite T5, TE; by split|exact T6|by split|by split].
  exists metadata, attestation, compressed. rewrite T1, T2. done.
Qed.

Lemma policy_built zlib i encoded p : material zlib i p -> parse_trust_policy_bytes encoded (hexdigest encoded) false = Ok p ->
  build_configured_policy zlib i = Ok encoded.
Proof.
  intros [M1 (metadata & attestation & compressed & L & N & S & A & P & O & F & B & D) (der & ED & RK & SP) V [S1 S2] [X1 X2]] EP.
  pose proof EP as EP0. apply parsed_policy_ok in EP as (PO & _ & _ & _ & line & EL & ->).
  assert (K1 : GCP_KMS_KEY_VERSION_RE (mi_expected_key_version i) = true) by (rewrite <-M1; apply PO).
  assert (K2 : IDENTIFIER_RE (mi_collector_version i) = true) by (rewrite <-V; apply PO).
  assert (K3 : is_sha256 (mi_collector_source_sha256 i) = true) by (rewrite <-S1; apply PO).
  assert (K4 : is_sha256 (mi_collector_executable_sha256 i) = true) by (rewrite <-X1; apply PO).
  unfold build_configured_policy. apply catch_ok. rewrite (proj2 (require_kms_ok (JStr (mi_expected_key_version i)) _) (conj eq_refl K1)).
  cbn [mbind result_bind]. rewrite (proj2 (require_identifier_ok (JStr (mi_collector_version i)) _) (conj eq_refl K2)). cbn [mbind result_bind].
  rewrite (proj2 (placeholder_ok _ (mi_collector_source_sha256 i)) (conj eq_refl (conj K3 S2))). cbn [mbind result_bind].
  rewrite (proj2 (placeholder_ok _ (mi_collector_executable_sha256 i)) (conj eq_refl (conj K4 X2))). cbn [mbind result_bind].
  rewrite M1 in N. rewrite (key_version_read zlib i _ metadata attestation (tp_attestation_format p) compressed K1 L N S A P O F (ok_format p PO) B).
  cbn [mbind result_bind]. rewrite ED. cbn [mbind result_bind]. rewrite (key_parsed der _ _ RK SP). cbn [mbind result_bind]. cbv zeta.
  assert (PK : rsa_spki_sha256 (tp_modulus p) (tp_exponent p) = Some (hexdigest der)) by (unfold rsa_spki_sha256; by rewrite SP).
  rewrite PK. cbn [of_raw mbind result_bind]. rewrite str_eqb_refl. cbn [negb].
  pose proof (ok_public_key p PO) as PP. rewrite PK in PP. apply (inj Some) in PP.
  rewrite PP, <-D, <-M1, <-V, <-S1, <-X1, dict_document, EL. cbn [of_raw mbind result_bind]. by rewrite EP0.
Qed.

(** C33: A policy is built exactly from its material, and is read back as it.
    [build_configured_policy] returns bytes if and only if they parse, under their
    own digest, as a trust policy whose key version is the expected one and the one
    the metadata names, enabled and of the required algorithm and protection; whose
    attestation digest is that of the attestation bytes, which are a complete gzip
    stream and the same in the metadata and in the file where both are given; whose
    key is the one the DER file encodes; and whose collector version and digests,
    none of them blank, are the given ones. *)
Theorem built_policy_exact zlib i encoded :
  build_configured_policy zlib i = Ok encoded <->
  exists p, material zlib i p /\ parse_trust_policy_bytes encoded (hexdigest encoded) false = Ok p.
Proof. split; [apply built_policy_ok|]. intros (p & M & P). by eapply policy_built. Qed.

(** ** The content of the metadata *)

Lemma alphabet_std c : in_alphabet c = true -> is_std (std_char c) = true /\ url_char (std_char c) = c /\ std_char c <> 61 /\ std_char c < 128.
Proof.
  intros H. unfold is_std, url_char, std_char. destruct (Z.eqb_spec c 45) as [->|N1]; [by vm_compute|]. destruct (Z.eqb_spec c 95) as [->|N2]; [by vm_compute|].
  unfold in_alphabet, b64_value in H.
  assert (R : 48 <= c < 123 /\ c <> 61).
  { destruct ((65 <=? c) && (c <=? 90)) eqn:A1; [apply andb_prop in A1 as [A2 A3]; apply Z.leb_le in A2, A3; lia|].
    destruct ((97 <=? c) && (c <=? 122)) eqn:B1; [apply andb_prop in B1 as [B2 B3]; apply Z.leb_le in B2, B3; lia|].
    destruct ((48 <=? c) && (c <=? 57)) eqn:C1; [apply andb_prop in C1 as [C2 C3]; apply Z.leb_le in C2, C3; lia|].
    rewrite (proj2 (Z.eqb_neq _ _) N1), (proj2 (Z.eqb_neq _ _) N2) in H. discriminate H. }
  assert (E1 : c =? 43 = false) by (apply Z.eqb_neq; lia). assert (E2 : c =? 47 = false) by (apply Z.eqb_neq; lia).
  rewrite E1, E2, (proj2 (Z.eqb_neq _ _) N1), (proj2 (Z.eqb_neq _ _) N2). cbn [negb andb]. split; [exact H|]. split; [done|]. lia.
Qed.

Lemma std_body l : forallb in_alphabet l = true ->
  forallb is_std (map std_char l) = true /\ map url_char (map std_char l) = l /\ List.filter (fun c => negb (c =? 61)) (map std_char l) = map std_char l /\
  forallb (fun c => c <? 128) (map std_char l) = true.
Proof.
  induction l as [|c l IH]; [done|]. cbn [forallb map List.filter]. intros [Hc Hl]%andb_prop. destruct (IH Hl) as (I1 & I2 & I3 & I4).
  destruct (alphabet_std c Hc) as (A1 & A2 & A3 & A4). rewrite A1, A2, I1, I2, (proj2 (Z.eqb_neq _ _) A3). cbn [negb]. rewrite I3, I4, (proj2 (Z.ltb_lt _ _) A4). done.
Qed.

Lemma no_padding n : List.filter (fun c => negb (c =? 61)) (replicate n 61) = [] /\ forallb (fun c => c <? 128) (replicate n 61) = true.
Proof. induction n as [|n [I1 I2]]; [done|]. cbn [replicate List.filter forallb]. by rewrite I1, I2. Qed.

(** The content of an attestation is its padded base64 text, and no other text. *)
Lemma rest_bytes_exact v d : _decode_rest_bytes v = Ok d <-> v = JStr (b64encode d) /\ d <> [] /\ len d <= MAX_COMPRESSED_ATTESTATION_BYTES.
Proof.
  unfold _decode_rest_bytes. split.
  - destruct v as [| | | |s| |]; try discriminate. intros H. destruct (bool_decide _) in H; [discriminate H|]. destruct (negb _) in H; [discriminate H|]. inv_bind H.
    destruct (negb _) eqn:G in H; [discriminate H|]. apply negb_false_iff, str_eqb_eq in G as <-. destruct (_ || _) eqn:G in H; [discriminate H|]. injection H as <-.
    apply orb_false_iff in G as [G1 G2]. apply bool_decide_eq_false in G1. by apply Z.ltb_ge in G2.
  - intros (-> & N & L). destruct (std_body (b64_encode d) (b64_encode_alphabet d)) as (B1 & B2 & B3 & B4). set (s := map std_char (b64_encode d)) in *. set (k := Z.to_nat (- len s mod 4)).
    assert (BE : b64encode d = s ++ replicate k 61) by reflexivity. rewrite BE. destruct (no_padding k) as [P1 P2].
    assert (NE : s ++ replicate k 61 <> []).
    { intros X. apply app_eq_nil in X as [X _]. unfold s in X. apply map_eq_nil, b64_encode_nil in X. done. }
    rewrite (bool_decide_eq_false_2 _ NE), forallb_app, B4, P2. cbn [andb negb].
    assert (D : b64decode (s ++ replicate k 61) = Some d).
    { unfold b64decode. rewrite List.filter_app, B3, P1, app_nil_r, B1. fold k. rewrite bool_decide_eq_true_2 by done. cbn [andb]. rewrite B2. apply b64_decode_encode. }
    rewrite D. cbn [mbind result_bind]. rewrite BE, str_eqb_refl. cbn [negb].
    rewrite (bool_decide_eq_false_2 _ N), (proj2 (Z.ltb_ge _ _) L). done.
Qed.
