(* ===== verification/ArtifactReader.v ===== *)
(** * The artifact reader

    [ArtifactReader] of src/scripts/harness/raw_artifacts.py: it opens, reads and
    hashes the files that descriptors name below one directory, refuses a path or
    a digest it has seen, bounds their number and total size, and reads every
    accepted file again at the end.

    Other processes may change the tree between any two of its system calls, so
    the system calls are an interface, [Posix], about which only what POSIX
    promises is assumed: each is a computation on a state of its own, free to
    answer as it likes.  [Quiet] is the instance in which the tree is the
    archive's and nobody changes it. *)

From S2P Require Import Prelude Sha256 Text Json DateTime Effects Archive Observation ObservationProofs TrustPolicy Catalogue CollectorRequest.

Open Scope Z_scope.
Open Scope list_scope.

(** ** System calls *)

(** The fields of [os.stat_result] that [_stat_identity] keeps. *)
Record metadata := { md_dev : Z; md_ino : Z; md_mode : Z; md_nlink : Z; md_size : Z; md_mtime_ns : Z }.
#[export] Instance metadata_eq_decision : EqDecision metadata.
Proof. solve_decision. Defined.

Definition S_IFMT : Z := 61440.
Definition S_ISDIR (mode : Z) : bool := Z.land mode S_IFMT =? 16384.
Definition S_ISREG (mode : Z) : bool := Z.land mode S_IFMT =? 32768.

Class Posix (S : Type) := {
  fd : Type;
  os_open_root : M S fd;                        (* os.open(self.root, O_DIRECTORY | O_NOFOLLOW) *)
  os_stat_root : M S metadata;                  (* os.stat(self.root, follow_symlinks=False) *)
  os_open : fd -> str -> bool -> M S fd;        (* os.open(name, flags, dir_fd=...), with or without O_DIRECTORY *)
  os_fstat : fd -> M S metadata;
  os_read : fd -> Z -> M S bytes;
  os_read_bound f n s b s' : 0 <= n -> os_read f n s = (Ret b, s') -> len b <= n
}.

Definition MAX_ARTIFACT_COUNT : Z := 543.

(** ** Loops *)

(** [body] at most [2 ^ k] times, until it answers [inr]. *)
Fixpoint loop {S T A} (k : nat) (body : T -> M S (T + A)) (t : T) : M S (T + A) :=
  match k with
  | O => body t
  | Datatypes.S k =>
      r ← loop k body t;
      match r with inl t => loop k body t | inr a => mret (inr a) end
  end.

Section Reader.
Context {S : Type} `{PX : Posix S}.

Record ArtifactReader := {
  ar_root : option (fd * (Z * Z));       (* _root_fd with _root_identity *)
  ar_seen_paths : list str;
  ar_seen_digests : list str;
  ar_artifact_count : Z;
  ar_total_bytes : Z;
  ar_snapshots : list (ArtifactDescriptor * metadata)
}.

Definition new_reader : ArtifactReader := {|
  ar_root := None; ar_seen_paths := []; ar_seen_digests := []; ar_artifact_count := 0; ar_total_bytes := 0; ar_snapshots := [] |}.

(** The object and the system. *)
Record reading := Reading { rd_object : ArtifactReader; rd_os : S }.
Definition set_os (s : S) (r : reading) : reading := Reading (rd_object r) s.
Definition set_object (f : ArtifactReader -> ArtifactReader) (r : reading) : reading := Reading (f (rd_object r)) (rd_os r).
Definition sys {A} (m : M S A) : M reading A := zoom rd_os set_os m.

Definition opened (root : option (fd * (Z * Z))) (r : ArtifactReader) : ArtifactReader := {|
  ar_root := root; ar_seen_paths := ar_seen_paths r; ar_seen_digests := ar_seen_digests r;
  ar_artifact_count := ar_artifact_count r; ar_total_bytes := ar_total_bytes r; ar_snapshots := ar_snapshots r |}.
Definition accepted (d : ArtifactDescriptor) (identity : metadata) (r : ArtifactReader) : ArtifactReader := {|
  ar_root := ar_root r; ar_seen_paths := ar_seen_paths r ++ [ad_path d]; ar_seen_digests := ar_seen_digests r ++ [ad_sha256 d];
  ar_artifact_count := ar_artifact_count r + 1; ar_total_bytes := ar_total_bytes r + ad_size d;
  ar_snapshots := ar_snapshots r ++ [(d, identity)] |}.

Definition root_identity (m : metadata) : Z * Z := (md_dev m, md_ino m).

Definition __enter__ : M reading () :=
  root_fd ← translate is_os_error RawArtifactError (sys os_open_root);
  m ← sys (os_fstat root_fd);
  check (negb (S_ISDIR (md_mode m))) RawArtifactError ≫= fun _ =>
  modify (set_object (opened (Some (root_fd, root_identity m)))).
Definition __exit__ : M reading () := modify (set_object (fun r => opened None r)).

Definition _require_root : M reading (fd * (Z * Z)) :=
  root ← gets (fun r => ar_root (rd_object r)); of_option RawArtifactError root.

Definition _check_root_path : M reading () :=
  '(root_fd, identity) ← _require_root;
  m ← translate is_os_error RawArtifactError (sys os_stat_root);
  check (negb (S_ISDIR (md_mode m)) || negb (bool_decide (root_identity m = identity))) RawArtifactError ≫= fun _ =>
  held ← sys (os_fstat root_fd);
  held_again ← sys (os_fstat root_fd);
  check (negb (bool_decide ((md_dev held, md_ino held_again) = identity))) RawArtifactError.

(** The directories of a path, each opened below the last. *)
Fixpoint descend (directory : fd) (components : list str) : M reading fd :=
  match components with
  | [] => mret directory
  | component :: components => next ← sys (os_open directory component true); descend next components
  end.

Definition _open_relative (relative_path : str) : M reading fd :=
  '(root_fd, _) ← _require_root;
  let parts := split_slash relative_path in
  translate is_os_error RawArtifactError
    (directory ← descend root_fd (removelast parts); sys (os_open directory (List.last parts []) false)).

(** One pass of the loop: the bytes read so far and the number still wanted. *)
Definition read_chunk (f : fd) (t : bytes * Z) : M reading (bytes * Z + bytes) :=
  let '(chunks, remaining) := t in
  if remaining =? 0 then mret (inr chunks)
  else
    chunk ← translate (fun e => bool_decide (e = BlockingIOError)) RawArtifactError (sys (os_read f (Z.min MiB remaining)));
    if bool_decide (chunk = []) then mret (inr chunks) else mret (inl (chunks ++ chunk, remaining - len chunk)).

Definition _read_fd (f : fd) (maximum : Z) : M reading bytes :=
  r ← loop 27 (read_chunk f) ([], maximum + 1);
  match r with inr data => mret data | inl _ => raise OtherException end.

Definition _revalidate_snapshot (snapshot : ArtifactDescriptor * metadata) : M reading () :=
  let '(descriptor, identity) := snapshot in
  _check_root_path ≫= fun _ =>
  f ← _open_relative (ad_path descriptor);
  before ← sys (os_fstat f);
  check (negb (S_ISREG (md_mode before)) || negb (md_nlink before =? 1)) RawArtifactError ≫= fun _ =>
  check (negb (bool_decide (before = identity))) RawArtifactError ≫= fun _ =>
  data ← _read_fd f (ad_size descriptor);
  after ← sys (os_fstat f);
  check (negb (bool_decide (before = after))) RawArtifactError ≫= fun _ =>
  check (negb (len data =? ad_size descriptor)) RawArtifactError ≫= fun _ =>
  check (negb (str_eqb (hexdigest data) (ad_sha256 descriptor))) RawArtifactError ≫= fun _ =>
  again ← _open_relative (ad_path descriptor);
  reopened ← sys (os_fstat again);
  check (negb (bool_decide (reopened = identity))) RawArtifactError ≫= fun _ =>
  _check_root_path.

(** The accepted objects in the order of the rescan, the one at [final_path] last. *)
Definition rescan_order (final_path : option str) (snapshots : list (ArtifactDescriptor * metadata))
  : option (list (ArtifactDescriptor * metadata)) :=
  match final_path with
  | None => Some snapshots
  | Some p =>
      let is_final x := str_eqb (ad_path (fst x)) p in
      match List.filter is_final snapshots with
      | [final] => Some (List.filter (fun x => negb (is_final x)) snapshots ++ [final])
      | _ => None
      end
  end.

Definition verify_all_unchanged (final_path : option str) : M reading () :=
  snapshots ← gets (fun r => ar_snapshots (rd_object r));
  check (bool_decide (snapshots = [])) RawArtifactError ≫= fun _ =>
  ordered ← of_option RawArtifactError (rescan_order final_path snapshots);
  for_each ordered _revalidate_snapshot.

Definition read (kinds : list str) (value : json) : M reading (ArtifactDescriptor * bytes) :=
  descriptor ← of_option RawArtifactError (parse_descriptor_of kinds value);
  r ← gets rd_object;
  check (mem (ad_path descriptor) (ar_seen_paths r)) RawArtifactError ≫= fun _ =>
  check (mem (ad_sha256 descriptor) (ar_seen_digests r)) RawArtifactError ≫= fun _ =>
  check (MAX_ARTIFACT_COUNT <? ar_artifact_count r + 1) RawArtifactError ≫= fun _ =>
  check (MAX_TOTAL_ARTIFACT_BYTES <? ar_total_bytes r + ad_size descriptor) RawArtifactError ≫= fun _ =>
  _check_root_path ≫= fun _ =>
  f ← _open_relative (ad_path descriptor);
  before ← sys (os_fstat f);
  check (negb (S_ISREG (md_mode before))) RawArtifactError ≫= fun _ =>
  check (negb (md_nlink before =? 1)) RawArtifactError ≫= fun _ =>
  check (negb (md_size before =? ad_size descriptor)) RawArtifactError ≫= fun _ =>
  data ← _read_fd f (ad_size descriptor);
  after ← sys (os_fstat f);
  check (negb (bool_decide (before = after))) RawArtifactError ≫= fun _ =>
  check (negb (len data =? ad_size descriptor)) RawArtifactError ≫= fun _ =>
  check (negb (str_eqb (hexdigest data) (ad_sha256 descriptor))) RawArtifactError ≫= fun _ =>
  again ← _open_relative (ad_path descriptor);
  reopened ← sys (os_fstat again);
  check (negb (bool_decide (before = reopened))) RawArtifactError ≫= fun _ =>
  _check_root_path ≫= fun _ =>
  modify (set_object (accepted descriptor before)) ≫= fun _ =>
  mret (descriptor, data).

Definition read_json (kind : str) (value : json) : M reading (ArtifactDescriptor * json) :=
  '(descriptor, data) ← read [kind] value;
  document ← of_option RawArtifactError (load_json_bytes data);
  mret (descriptor, document).

(** [with ArtifactReader(root) as artifacts: m]. *)
Definition with_reader {A} (m : M reading A) : M reading A := __enter__ ≫= fun _ => finally m __exit__.

End Reader.
Arguments ArtifactReader S {PX}.
Arguments reading S {PX}.

(** ** A tree nobody changes *)

Module Quiet.

(** The tree, and the open descriptions with their offsets. *)
Record quiet := Opened { q_host : host; q_table : list (path * Z) }.

Definition entry (f : nat) : M quiet (path * Z) := fun q => of_option OSError (q_table q !! f) q.
Definition allocate (p : path) : M quiet nat := fun q => (Ret (length (q_table q)), Opened (q_host q) (q_table q ++ [(p, 0)])).

Definition file_metadata (size : Z) : metadata :=
  {| md_dev := 0; md_ino := 1; md_mode := 33152; md_nlink := 1; md_size := size; md_mtime_ns := 0 |}.
Definition directory_metadata : metadata :=
  {| md_dev := 0; md_ino := 0; md_mode := 16832; md_nlink := 2; md_size := 0; md_mtime_ns := 0 |}.

Definition metadata_at (p : path) (h : host) : metadata :=
  match h_files h !! p with Some data => file_metadata (len data) | None => directory_metadata end.

Definition q_open_root : M quiet nat :=
  root ← gets (fun q => h_root (q_host q));
  check (negb root) FileNotFoundError ≫= fun _ => allocate [].
Definition q_stat_root : M quiet metadata :=
  root ← gets (fun q => h_root (q_host q));
  check (negb root) FileNotFoundError ≫= fun _ => mret directory_metadata.
Definition q_open (f : nat) (name : str) (directory : bool) : M quiet nat :=
  '(p, _) ← entry f;
  found ← gets (fun q => if directory then is_dir (p ++ [name]) (q_host q) else present (p ++ [name]) (q_host q));
  check (negb found) FileNotFoundError ≫= fun _ => allocate (p ++ [name]).
Definition q_fstat (f : nat) : M quiet metadata :=
  '(p, _) ← entry f; gets (fun q => metadata_at p (q_host q)).
Definition q_read (f : nat) (n : Z) : M quiet bytes :=
  '(p, offset) ← entry f;
  data ← gets (fun q => h_files (q_host q) !! p);
  data ← of_option OSError data;
  let chunk := take (Z.to_nat n) (drop (Z.to_nat offset) data) in
  modify (fun q => Opened (q_host q) (<[f := (p, offset + len chunk)]> (q_table q))) ≫= fun _ =>
  mret chunk.

Lemma q_read_bound f n s b s' : 0 <= n -> q_read f n s = (Ret b, s') -> len b <= n.
Proof.
  intros Hn H. unfold q_read in H. apply bind_ret_inv in H as ([p offset] & s1 & _ & H). apply bind_ret_inv in H as (o & s2 & _ & H).
  apply bind_ret_inv in H as (data & s3 & _ & H). apply bind_ret_inv in H as (? & s4 & _ & H). injection H as <- _.
  unfold len. rewrite length_take. lia.
Qed.

#[export] Instance quiet_posix : Posix quiet := {|
  fd := nat;
  os_open_root := q_open_root;
  os_stat_root := q_stat_root;
  os_open := q_open;
  os_fstat := q_fstat;
  os_read := q_read;
  os_read_bound := q_read_bound
|}.
End Quiet.
