(* ===== verification/ReaderProofs.v ===== *)
(** * What the artifact reader guarantees

    Whatever other processes do to the tree, the artifacts that an
    [ArtifactReader] of src/scripts/harness/raw_artifacts.py returned have the
    sizes and digests of their descriptors, no path and no digest occurs twice,
    and their number and size are bounded.  On a tree nobody changes, what it
    accepts is exactly what is there. *)

From S2P Require Import Prelude Sha256 Text Json DateTime Effects Archive ArchiveProofs Observation ObservationProofs TrustPolicy Catalogue CollectorRequest Composition CollectorProofs ArtifactReader.

Open Scope Z_scope.
Open Scope list_scope.

(** ** Loops *)

Lemma loop_within {S T A} (R : S -> S -> Prop) `{!Reflexive R, !Transitive R} (body : T -> M S (T + A)) k :
  (forall t, within R (body t)) -> forall t, within R (loop k body t).
Proof. intros W. induction k as [|k IH]; intros t; cbn [loop]; [apply W|]. within_auto; auto. Qed.

(** ** The reader's account *)

Lemma parsed_size kinds value d : parse_descriptor_of kinds value = Some d -> 0 <= ad_size d < 10 ^ 8.
Proof.
  unfold parse_descriptor_of. intros HD. apply bind_Some in HD as (d' & HD & X). destruct (mem _ _) in X; [|discriminate X]. injection X as ->.
  apply parse_descriptor_spec in HD as (spec & HK & _ & HZ & _). apply kind_bounds in HK as (_ & _ & K). lia.
Qed.

Section Account.
Context {S : Type} `{PX : Posix S}.

Definition total_size (l : list ArtifactDescriptor) : Z := foldr Z.add 0 (map ad_size l).
Definition descriptors (r : ArtifactReader S) : list ArtifactDescriptor := map fst (ar_snapshots r).

Record reader_ok (r : ArtifactReader S) : Prop := {
  ro_paths : ar_seen_paths r = map ad_path (descriptors r);
  ro_digests : ar_seen_digests r = map ad_sha256 (descriptors r);
  ro_paths_once : NoDup (map ad_path (descriptors r));
  ro_digests_once : NoDup (map ad_sha256 (descriptors r));
  ro_count : ar_artifact_count r = len (descriptors r) /\ len (descriptors r) <= MAX_ARTIFACT_COUNT;
  ro_total : ar_total_bytes r = total_size (descriptors r) /\ total_size (descriptors r) <= MAX_TOTAL_ARTIFACT_BYTES;
  ro_sizes : Forall (fun d => 0 <= ad_size d < 10 ^ 8) (descriptors r)
}.

Lemma new_reader_ok : reader_ok new_reader.
Proof. constructor; try done; try constructor. Qed.

Lemma opened_ok root r : reader_ok r -> reader_ok (opened root r).
Proof. intros [H1 H2 H3 H4 H5 H6 H7]. by constructor. Qed.

Lemma total_snoc l d : total_size (l ++ [d]) = total_size l + ad_size d.
Proof. unfold total_size. rewrite map_app, foldr_app. cbn [map foldr]. induction (map ad_size l) as [|x xs IH]; cbn [foldr]; lia. Qed.

(** The checks [read] makes before it opens anything. *)
Record fresh_for (r : ArtifactReader S) (d : ArtifactDescriptor) : Prop := {
  ff_path : ad_path d ∉ ar_seen_paths r;
  ff_digest : ad_sha256 d ∉ ar_seen_digests r;
  ff_count : ar_artifact_count r + 1 <= MAX_ARTIFACT_COUNT;
  ff_total : ar_total_bytes r + ad_size d <= MAX_TOTAL_ARTIFACT_BYTES
}.

Lemma accepted_ok d m r : reader_ok r -> fresh_for r d -> 0 <= ad_size d < 10 ^ 8 -> reader_ok (accepted d m r).
Proof.
  intros [H1 H2 H3 H4 [H5 _] [H6 _] H7] [P D C T] SZ. rewrite H1 in P. rewrite H2 in D.
  assert (X : descriptors (accepted d m r) = descriptors r ++ [d]) by (unfold descriptors; cbn; by rewrite map_app).
  constructor; rewrite X; cbn [accepted ar_seen_paths ar_seen_digests ar_artifact_count ar_total_bytes]; rewrite ?map_app, ?total_snoc.
  - by rewrite H1.
  - by rewrite H2.
  - apply NoDup_app. split; [done|]. split; [|apply NoDup_singleton]. intros x Hx Hy. apply list_elem_of_singleton in Hy as ->. done.
  - apply NoDup_app. split; [done|]. split; [|apply NoDup_singleton]. intros x Hx Hy. apply list_elem_of_singleton in Hy as ->. done.
  - unfold len in *. rewrite length_app. cbn [length]. lia.
  - lia.
  - by apply Forall_app_2, Forall_singleton.
Qed.

(** ** What an operation does to the object *)

Definition same_object (a b : reading S) : Prop := rd_object b = rd_object a.
#[local] Instance same_object_refl : Reflexive same_object.
Proof. done. Qed.
#[local] Instance same_object_trans : Transitive same_object.
Proof. intros a b c H1 H2. unfold same_object in *. congruence. Qed.

Lemma sys_same {A} (m : M S A) : within same_object (sys m).
Proof. intros r. unfold sys, zoom. by destruct (m (rd_os r)). Qed.
Create HintDb reader.
#[local] Hint Resolve sys_same : reader.
Ltac same_auto := within_auto; eauto with reader.

Lemma require_root_same : within same_object _require_root.
Proof. unfold _require_root. same_auto. Qed.
Lemma check_root_path_same : within same_object _check_root_path.
Proof. unfold _check_root_path. apply within_bind; [apply _|apply require_root_same|]. intros [f i]. same_auto. Qed.
Lemma descend_same components : forall f, within same_object (descend f components).
Proof. induction components as [|c cs IH]; intros f; cbn [descend]; same_auto. Qed.
#[local] Hint Resolve require_root_same check_root_path_same descend_same : reader.
Lemma open_relative_same p : within same_object (_open_relative p).
Proof. unfold _open_relative. apply within_bind; [apply _|apply require_root_same|]. intros [f i]. same_auto. Qed.
Lemma read_fd_same f n : within same_object (_read_fd f n).
Proof.
  unfold _read_fd. apply within_bind; [apply _| |intros [t|a]; same_auto]. apply loop_within; [apply _|apply _|]. intros [b k].
  unfold read_chunk. same_auto.
Qed.
#[local] Hint Resolve open_relative_same read_fd_same : reader.
Lemma revalidate_same x : within same_object (_revalidate_snapshot x).
Proof. unfold _revalidate_snapshot. destruct x as [d m]. same_auto. Qed.
Lemma verify_same p : within same_object (verify_all_unchanged p).
Proof. unfold verify_all_unchanged. same_auto. by apply revalidate_same. Qed.

(** An artifact and the bytes that were read for it. *)
Definition matches (x : ArtifactDescriptor * bytes) : Prop := len (snd x) = ad_size (fst x) /\ hexdigest (snd x) = ad_sha256 (fst x).

(** The next step of a computation that has left the object alone so far. *)
Ltac rstep H a r R E :=
  apply (bind_within same_object) in H as [(a & r & E & R & H) | [R H]];
    [|right; split; [unfold same_object in *; congruence | exact H] | same_auto].
Ltac rcheck H r R G :=
  let a := fresh "a" in let E := fresh "E" in
  rstep H a r R E; destruct a; apply check_ret in E as [G ->].

Lemma read_cases kinds value r o r' : read kinds value r = (o, r') ->
  (exists d data m, o = Ret (d, data) /\ parse_descriptor_of kinds value = Some d /\ matches (d, data) /\
     fresh_for (rd_object r) d /\ rd_object r' = accepted d m (rd_object r)) \/
  (rd_object r' = rd_object r /\ forall x, o <> Ret x).
Proof.
  intros H. unfold read in H. rstep H d r1 R1 E1. apply of_option_ret in E1 as [E1 ->]. rstep H obj r2 R2 E2. injection E2 as <- <-.
  rcheck H r3 R3 G1. rcheck H r4 R4 G2. rcheck H r5 R5 G3. rcheck H r6 R6 G4. rstep H u7 r7 R7 E7. rstep H f r8 R8 E8. rstep H before r9 R9 E9.
  rcheck H r10 R10 G5. rcheck H r11 R11 G6. rcheck H r12 R12 G7. rstep H data r13 R13 E13. rstep H later r14 R14 E14.
  rcheck H r15 R15 G8. rcheck H r16 R16 G9. rcheck H r17 R17 G10. rstep H again r18 R18 E18. rstep H reopened r19 R19 E19.
  rcheck H r20 R20 G11. rstep H u21 r21 R21 E21. injection H as <- <-. left. exists d, data, before.
  apply mem_false in G1, G2. apply Z.ltb_ge in G3, G4. apply negb_false_iff in G9, G10. apply Z.eqb_eq in G9. apply str_eqb_eq in G10.
  assert (X : rd_object r21 = rd_object r) by (unfold same_object in *; congruence).
  split; [done|]. split; [done|]. split; [done|]. split; [done|]. cbn [set_object rd_object]. by rewrite X.
Qed.

(** ** Runs *)

(** What may happen to a reader, with what it returned: its operations, each
    ending as it may, and other processes in between. *)
Inductive reader_runs : reading S -> list (ArtifactDescriptor * bytes) -> reading S -> Prop :=
  | rruns_done r : reader_runs r [] r
  | rruns_system r s got r' : reader_runs (set_os s r) got r' -> reader_runs r got r'
  | rruns_enter r got r' : reader_runs (snd (__enter__ r)) got r' -> reader_runs r got r'
  | rruns_exit r got r' : reader_runs (snd (__exit__ r)) got r' -> reader_runs r got r'
  | rruns_verify p r got r' : reader_runs (snd (verify_all_unchanged p r)) got r' -> reader_runs r got r'
  | rruns_read kinds value r x r1 got r' :
      read kinds value r = (Ret x, r1) -> reader_runs r1 got r' -> reader_runs r (x :: got) r'
  | rruns_refused kinds value r o r1 got r' :
      read kinds value r = (o, r1) -> (forall x, o <> Ret x) -> reader_runs r1 got r' -> reader_runs r got r'.

Lemma enter_object r : exists root, rd_object (snd (__enter__ r)) = opened root (rd_object r).
Proof.
  destruct (__enter__ r) as [o r'] eqn:H. cbn [snd]. assert (X : (rd_object r' = rd_object r) \/ exists root, rd_object r' = opened (Some root) (rd_object r)).
  { unfold __enter__ in H. apply (bind_within same_object) in H as [(f & r1 & _ & R1 & H) | [R1 _]]; [|by left|same_auto].
    apply (bind_within same_object) in H as [(m & r2 & _ & R2 & H) | [R2 _]]; [|left; unfold same_object in *; congruence|same_auto].
    apply bind_check in H as [[_ H] | [-> _]]; [|left; unfold same_object in *; congruence]. injection H as _ <-. right.
    exists (f, root_identity m). cbn [set_object rd_object]. unfold same_object in *. congruence. }
  destruct X as [-> | [root ->]]; [exists (ar_root (rd_object r)); by destruct (rd_object r)|by exists (Some root)].
Qed.

Lemma reader_runs_ok r got r' : reader_runs r got r' -> reader_ok (rd_object r) ->
  reader_ok (rd_object r') /\ descriptors (rd_object r') = descriptors (rd_object r) ++ map fst got /\ Forall matches got.
Proof.
  induction 1 as [r|r s got r' _ IH|r got r' _ IH|r got r' _ IH|p r got r' _ IH|kinds value r x r1 got r' H _ IH|kinds value r o r1 got r' H N _ IH];
    intros K.
  - cbn [map]. rewrite app_nil_r. split; [done|]. by split.
  - by apply IH.
  - destruct (enter_object r) as [root E]. rewrite E in IH. apply IH, opened_ok, K.
  - apply IH, opened_ok, K.
  - pose proof (verify_same p r) as V. unfold same_object in V. rewrite V in IH. by apply IH.
  - apply read_cases in H as [(d & data & m & [= ->] & HP & HM & HF & E) | [_ N]]; [|by destruct (N x)].
    rewrite E in IH. destruct (IH (accepted_ok d m _ K HF (parsed_size _ _ _ HP))) as (I1 & I2 & I3). split; [done|]. split; [|by constructor].
    rewrite I2. unfold descriptors. cbn [accepted ar_snapshots map]. by rewrite map_app, <-app_assoc.
  - apply read_cases in H as [(d & data & m & E & _) | [E _]]; [by destruct (N (d, data))|]. rewrite E in IH. by apply IH.
Qed.

End Account.

(** ** A tree nobody changes *)

Import Quiet.

(** The directories [components] name one below the other, from [p] on. *)
Fixpoint walk (h : host) (p : path) (components : path) : bool :=
  match components with
  | [] => true
  | c :: components => is_dir (p ++ [c]) h && walk h (p ++ [c]) components
  end.
Definition reachable (h : host) (parts : path) : bool := walk h [] (removelast parts) && present parts h.

(** The reader has its root open. *)
Record root_open (h : host) (obj : ArtifactReader quiet) (tab : list (path * Z)) : Prop := {
  qr_root : exists f o, ar_root obj = Some (f, (0, 0)) /\ tab !! f = Some ([], o);
  qr_exists : h_root h = true;
  qr_nofile : h_files h !! [] = None
}.

(** Descriptors stay open on the paths they were opened at. *)
Definition grows (tab tab' : list (path * Z)) : Prop :=
  (length tab <= length tab')%nat /\ forall f p o, tab !! f = Some (p, o) -> exists o', tab' !! f = Some (p, o').
#[export] Instance grows_refl : Reflexive grows.
Proof. intros tab. split; [done|]. eauto. Qed.
#[export] Instance grows_trans : Transitive grows.
Proof. intros a b c [L1 H1] [L2 H2]. split; [lia|]. intros f p o H. destruct (H1 _ _ _ H) as [o' H']. by apply (H2 _ _ _ H'). Qed.
Lemma grows_app tab l : grows tab (tab ++ l).
Proof. split; [rewrite length_app; lia|]. intros f p o H. exists o. by apply lookup_app_l_Some. Qed.

Lemma root_open_grows h obj tab tab' : root_open h obj tab -> grows tab tab' -> root_open h obj tab'.
Proof. intros [(f & o & H1 & H2) H3 H4] [_ G]. constructor; [|done|done]. destruct (G _ _ _ H2) as [o' H']. eauto. Qed.

Lemma allocated tab (p : path) : (tab ++ [(p, 0)]) !! length tab = Some (p, 0).
Proof. rewrite lookup_app_r by lia. by rewrite Nat.sub_diag. Qed.

Lemma q_open_run h tab f p o name b :
  tab !! f = Some (p, o) ->
  q_open f name b (Opened h tab) =
    if (if b then is_dir (p ++ [name]) h else present (p ++ [name]) h)
    then (Ret (length tab), Opened h (tab ++ [(p ++ [name], 0)])) else (Raise FileNotFoundError, Opened h tab).
Proof.
  intros H. unfold q_open, mbind, M_bind, entry, gets, check, allocate. cbn [q_table q_host]. rewrite H. cbn [of_option mret M_ret q_host].
  destruct b; cbn [q_host]; [by destruct (is_dir _ h)|by destruct (present _ h)].
Qed.

Lemma descend_cons (obj : ArtifactReader quiet) h tab f p o c cs : tab !! f = Some (p, o) ->
  descend f (c :: cs) (Reading obj (Opened h tab)) =
    if is_dir (p ++ [c]) h then descend (length tab : fd) cs (Reading obj (Opened h (tab ++ [(p ++ [c], 0)])))
    else (Raise FileNotFoundError, Reading obj (Opened h tab)).
Proof.
  intros H. cbn [descend]. pose proof (q_open_run h tab f p o c true H) as E. cbn iota in E.
  unfold mbind, M_bind, sys, zoom. cbn [rd_os os_open quiet_posix]. rewrite E. by destruct (is_dir (p ++ [c]) h).
Qed.

Lemma descend_run (obj : ArtifactReader quiet) h components : forall tab f p o, tab !! f = Some (p, o) ->
  exists tab', grows tab tab' /\
    ((walk h p components = true /\ exists f' o', descend f components (Reading obj (Opened h tab)) = (Ret f', Reading obj (Opened h tab')) /\
        tab' !! f' = Some (p ++ components, o')) \/
     (walk h p components = false /\ descend f components (Reading obj (Opened h tab)) = (Raise FileNotFoundError, Reading obj (Opened h tab')))).
Proof.
  induction components as [|c cs IH]; intros tab f p o H.
  - exists tab. split; [reflexivity|]. left. split; [done|]. exists f, o. split; [done|]. by rewrite app_nil_r.
  - rewrite (descend_cons obj h tab f p o c cs H). cbn [walk]. destruct (is_dir (p ++ [c]) h); cbn [andb].
    + destruct (IH (tab ++ [(p ++ [c], 0)]) (length tab) (p ++ [c]) 0 (allocated _ _)) as (tab' & G & IH').
      exists tab'. split; [etrans; [apply grows_app|exact G]|]. by rewrite <-app_assoc in IH'.
    + exists tab. split; [reflexivity|]. by right.
Qed.

Lemma open_relative_run h obj tab p : root_open h obj tab ->
  let parts := split_slash p in
  exists tab', grows tab tab' /\
    ((reachable h parts = true /\ exists f, _open_relative p (Reading obj (Opened h tab)) = (Ret f, Reading obj (Opened h tab')) /\
        tab' !! f = Some (parts, 0) /\ (length tab <= f)%nat) \/
     (reachable h parts = false /\ _open_relative p (Reading obj (Opened h tab)) = (Raise RawArtifactError, Reading obj (Opened h tab')))).
Proof.
  intros [(r & o & R1 & R2) _ _] parts. assert (NE : parts <> []) by apply split_slash_from_ne.
  unfold _open_relative. rewrite (bind_ret_eq _ _ _ (r, (0, 0)) (Reading obj (Opened h tab))).
  2: { unfold _require_root, mbind, M_bind, gets. cbn [rd_object]. by rewrite R1. }
  cbv zeta. fold parts. destruct (descend_run obj h (removelast parts) tab r [] o R2) as (tab1 & G1 & D). unfold reachable.
  destruct D as [(W & f & o' & E & L) | [W E]]; rewrite W; cbn [andb].
  - pose proof (q_open_run h tab1 f (removelast parts) o' (List.last parts []) false L) as Q. cbn iota in Q.
    rewrite <-(app_removelast_last [] NE) in Q. unfold translate, try_except. rewrite (bind_ret_eq _ _ _ _ _ E).
    unfold sys, zoom. cbn [rd_os os_open quiet_posix]. rewrite Q. destruct (present parts h); cbn [set_os rd_object is_os_error].
    + exists (tab1 ++ [(parts, 0)]). split; [etrans; [exact G1|apply grows_app]|]. left. split; [done|]. exists (length tab1). split; [done|].
      split; [apply allocated|apply G1].
    + exists tab1. split; [done|]. right. by split.
  - exists tab1. split; [done|]. right. split; [done|]. unfold translate, try_except, mbind, M_bind at 1. by rewrite E.
Qed.

(** Reading a file in chunks: what was read so far, and where the descriptor is. *)
Record reading_at (obj : ArtifactReader quiet) (h : host) (tab : list (path * Z)) (f : nat) (p : path) (data : bytes) (n : Z)
  (t : bytes * Z) (tab' : list (path * Z)) : Prop := {
  rt_grows : grows tab tab';
  rt_prefix : fst t = take (length (fst t)) data;
  rt_length : (length (fst t) <= length data)%nat;
  rt_left : 0 <= snd t;
  rt_sum : len (fst t) + snd t = n + 1;
  rt_offset : tab' !! f = Some (p, len (fst t))
}.

Lemma q_read_run h tab f p o data n : tab !! f = Some (p, o) -> h_files h !! p = Some data ->
  let chunk := take (Z.to_nat n) (drop (Z.to_nat o) data) in
  q_read f n (Opened h tab) = (Ret chunk, Opened h (<[f := (p, o + len chunk)]> tab)).
Proof. intros HT HF chunk. unfold q_read, mbind, M_bind, entry, gets, modify. cbn [q_table q_host]. rewrite HT. cbn [of_option mret M_ret q_host]. by rewrite HF. Qed.

Lemma grows_insert tab f p o o' : tab !! f = Some (p, o) -> grows tab (<[f := (p, o')]> tab).
Proof.
  intros H. split; [by rewrite length_insert|]. intros g q x Hg. destruct (decide (f = g)) as [<-|N].
  - rewrite H in Hg. injection Hg as <- <-. exists o'. apply list_lookup_insert_eq. by apply lookup_lt_Some in H.
  - exists x. by rewrite list_lookup_insert_ne.
Qed.

Lemma take_split {A} (l : list A) a b : (a <= length l)%nat -> take a l ++ take b (drop a l) = take (a + length (take b (drop a l))) l.
Proof. intros H. rewrite length_take, length_drop. rewrite <-take_take_drop. f_equal. destruct (decide (b <= length l - a)%nat); [f_equal; lia|]. rewrite !take_ge by (rewrite length_drop; lia). done. Qed.

Lemma read_chunk_run obj h tab f p data n t tab1 : h_files h !! p = Some data -> reading_at obj h tab f p data n t tab1 ->
  exists x tab2, read_chunk f t (Reading obj (Opened h tab1)) = (Ret x, Reading obj (Opened h tab2)) /\
    match x with
    | inl t' => reading_at obj h tab f p data n t' tab2 /\ 0 <= snd t' < snd t
    | inr b => b = take (Z.to_nat (n + 1)) data /\ grows tab tab2
    end.
Proof.
  intros HF [G P L R Q O]. destruct t as [chunks remaining]. cbn [fst snd] in *. unfold read_chunk. unfold len in *.
  destruct (remaining =? 0) eqn:Z0; [apply Z.eqb_eq in Z0|apply Z.eqb_neq in Z0].
  - exists (inr chunks), tab1. split; [done|]. split; [|done]. rewrite P at 1. f_equal. lia.
  - pose proof (q_read_run h tab1 f p _ data (Z.min MiB remaining) O HF) as E. cbv zeta in E. rewrite Nat2Z.id in E.
    set (chunk := take (Z.to_nat (Z.min MiB remaining)) (drop (length chunks) data)) in *.
    assert (B : (length chunk <= Z.to_nat (Z.min MiB remaining))%nat) by (unfold chunk; rewrite length_take; lia).
    assert (K : 1 <= Z.min MiB remaining <= remaining) by (unfold MiB; lia).
    rewrite (bind_ret_eq _ _ _ chunk (Reading obj (Opened h (<[f := (p, Z.of_nat (length chunks) + len chunk)]> tab1)))).
    2: { unfold translate, try_except, sys, zoom. cbn [rd_os os_read quiet_posix]. unfold len. by rewrite E. }
    destruct (bool_decide (chunk = [])) eqn:C; [apply bool_decide_eq_true in C|apply bool_decide_eq_false in C].
    + do 2 eexists. split; [reflexivity|]. split; [|etrans; [exact G|by eapply grows_insert]].
      assert (X : length chunk = 0%nat) by (by rewrite C). unfold chunk in X. rewrite length_take, length_drop in X.
      rewrite P, !take_ge by lia. done.
    + do 2 eexists. split; [reflexivity|].
      assert (X : (length chunk <> 0)%nat) by (by destruct chunk). split; [|cbn [snd]; unfold len; lia].
      constructor; cbn [fst snd]; unfold len in *.
      * etrans; [exact G|by eapply grows_insert].
      * rewrite length_app. transitivity (take (length chunks) data ++ chunk); [by rewrite <-P|]. by apply take_split.
      * rewrite length_app. unfold chunk. rewrite length_take, length_drop. lia.
      * lia.
      * rewrite length_app. lia.
      * rewrite length_app. rewrite list_lookup_insert_eq by (by apply lookup_lt_Some in O). do 2 f_equal. lia.
Qed.

(** Reading a descriptor yields its file, up to one byte more than was asked. *)
Lemma read_fd_run (obj : ArtifactReader quiet) h tab f p data n :
  tab !! f = Some (p, 0) -> h_files h !! p = Some data -> 0 <= n < 10 ^ 8 ->
  exists tab', grows tab tab' /\ _read_fd (f : fd) n (Reading obj (Opened h tab)) = (Ret (take (Z.to_nat (n + 1)) data), Reading obj (Opened h tab')).
Proof.
  intros HT HF HN. set (start := (@nil byte, n + 1)).
  assert (I0 : reading_at obj h tab f p data n start tab).
  { constructor; cbn [start fst snd]; unfold len; cbn [length]; try lia; [reflexivity|done|exact HT]. }
  assert (L : forall k t tab1, reading_at obj h tab f p data n t tab1 ->
    exists x tab2, loop k (read_chunk (f : fd)) t (Reading obj (Opened h tab1)) = (Ret x, Reading obj (Opened h tab2)) /\
    match x with inl t' => reading_at obj h tab f p data n t' tab2 /\ 0 <= snd t' /\ snd t' + 2 ^ Z.of_nat k <= snd t
    | inr b => b = take (Z.to_nat (n + 1)) data /\ grows tab tab2 end).
  { induction k as [|k IH]; intros t tab1 It; cbn [loop].
    - destruct (read_chunk_run obj h tab f p data n t tab1 HF It) as (x & tab2 & E & X). exists x, tab2. split; [done|].
      destruct x as [t'|b]; [|done]. destruct X as [X1 X2]. split; [done|]. cbn. lia.
    - destruct (IH _ _ It) as (x & tab2 & E & X). rewrite (bind_ret_eq _ _ _ _ _ E). destruct x as [t'|b]; [|by exists (inr b), tab2].
      destruct X as (X1 & X2 & X3). destruct (IH _ _ X1) as (y & tab3 & E' & Y). exists y, tab3. split; [done|].
      destruct y as [t''|b]; [|done]. destruct Y as (Y1 & Y2 & Y3). split; [done|]. rewrite Nat2Z.inj_succ, Z.pow_succ_r by lia. lia. }
  destruct (L 27%nat start tab I0) as (x & tab2 & E & X). unfold _read_fd. fold start. rewrite (bind_ret_eq _ _ _ _ _ E).
  destruct x as [t'|b].
  - exfalso. destruct X as (_ & X2 & X3). cbn [start snd] in X3. lia.
  - destruct X as [-> G]. by exists tab2.
Qed.

(** ** What is accepted *)

Definition in_tree (h : host) (d : ArtifactDescriptor) (data : bytes) : Prop :=
  reachable h (split_slash (ad_path d)) = true /\ h_files h !! split_slash (ad_path d) = Some data /\ matches (d, data).

Lemma bind_pass {S A} c e (k : () -> M S A) s : c = false -> (check c e ≫= k) s = k () s.
Proof. by intros ->. Qed.
Lemma bind_stop {S A} c e (k : () -> M S A) s : c = true -> (check c e ≫= k) s = (Raise e, s).
Proof. by intros ->. Qed.
Lemma bind_raise_eq {S A B} (m : M S A) (k : A -> M S B) s e s' : m s = (Raise e, s') -> (m ≫= k) s = (Raise e, s').
Proof. unfold mbind, M_bind. by intros ->. Qed.

Lemma fstat_run (obj : ArtifactReader quiet) h tab (f : nat) p o : tab !! f = Some (p, o) ->
  sys (os_fstat (f : fd)) (Reading obj (Opened h tab)) = (Ret (metadata_at p h), Reading obj (Opened h tab)).
Proof. intros H. unfold sys, zoom. cbn [rd_os os_fstat quiet_posix]. unfold q_fstat, mbind, M_bind, entry, gets. cbn [q_table q_host]. rewrite H. cbn [of_option mret M_ret q_host set_os rd_object]. done. Qed.

Lemma check_root_run h obj tab : root_open h obj tab -> _check_root_path (Reading obj (Opened h tab)) = (Ret (), Reading obj (Opened h tab)).
Proof.
  intros [(f & o & R1 & R2) HR HN]. unfold _check_root_path. rewrite (bind_ret_eq _ _ _ (f, (0, 0)) (Reading obj (Opened h tab))).
  2: { unfold _require_root, mbind, M_bind, gets. cbn [rd_object]. by rewrite R1. }
  rewrite (bind_ret_eq _ _ _ directory_metadata (Reading obj (Opened h tab))).
  2: { unfold translate, try_except, sys, zoom. cbn [rd_os os_stat_root quiet_posix]. unfold q_stat_root, mbind, M_bind, gets, check. cbn [q_host]. by rewrite HR. }
  rewrite bind_pass by reflexivity. do 2 rewrite (bind_ret_eq _ _ _ _ _ (fstat_run obj h tab f [] o R2)). unfold metadata_at. by rewrite HN.
Qed.

Lemma metadata_regular h p : S_ISREG (md_mode (metadata_at p h)) = true <-> exists data, h_files h !! p = Some data.
Proof. unfold metadata_at. destruct (h_files h !! p) as [data|]; split; [by exists data|done|done|by intros [data H]]. Qed.

#[local] Opaque loop _read_fd _open_relative _check_root_path.

(** The steps from the read of a file to its reopening, which [read] and
    [_revalidate_snapshot] share, before [k]. *)
Definition read_and_reopen {A} (d : ArtifactDescriptor) (f : nat) (before : metadata) (same : metadata -> bool) (k : bytes -> M (reading quiet) A)
  : M (reading quiet) A :=
  data ← _read_fd (f : fd) (ad_size d);
  later ← sys (os_fstat (f : fd));
  check (negb (bool_decide (before = later))) RawArtifactError ≫= fun _ =>
  check (negb (len data =? ad_size d)) RawArtifactError ≫= fun _ =>
  check (negb (str_eqb (hexdigest data) (ad_sha256 d))) RawArtifactError ≫= fun _ =>
  again ← _open_relative (ad_path d);
  reopened ← sys (os_fstat again);
  check (negb (same reopened)) RawArtifactError ≫= fun _ =>
  k data.

Lemma read_and_reopen_run {A} h obj tab d f data same (k : bytes -> M (reading quiet) A) :
  root_open h obj tab -> 0 <= ad_size d < 10 ^ 8 -> tab !! f = Some (split_slash (ad_path d), 0) ->
  reachable h (split_slash (ad_path d)) = true -> h_files h !! split_slash (ad_path d) = Some data -> len data = ad_size d ->
  same (file_metadata (len data)) = true ->
  exists tab', grows tab tab' /\
    let r := read_and_reopen d f (file_metadata (len data)) same k (Reading obj (Opened h tab)) in
    (hexdigest data = ad_sha256 d /\ r = k data (Reading obj (Opened h tab'))) \/
    (hexdigest data <> ad_sha256 d /\ r = (Raise RawArtifactError, Reading obj (Opened h tab'))).
Proof.
  intros RO SZ L1 RE HF EL HS. assert (EM : metadata_at (split_slash (ad_path d)) h = file_metadata (len data)) by (unfold metadata_at; by rewrite HF).
  cbv zeta. unfold read_and_reopen.
  destruct (read_fd_run obj h tab f _ data (ad_size d) L1 HF SZ) as (tab2 & G2 & E2). rewrite take_ge in E2 by (unfold len in EL; lia).
  rewrite (bind_ret_eq _ _ _ _ _ E2). destruct (proj2 G2 _ _ _ L1) as [o2 L2]. rewrite (bind_ret_eq _ _ _ _ _ (fstat_run obj h tab2 f _ _ L2)). rewrite EM.
  rewrite bind_pass by (apply negb_false_iff; by apply bool_decide_eq_true). rewrite bind_pass by (apply negb_false_iff; by apply Z.eqb_eq).
  destruct (decide (hexdigest data = ad_sha256 d)) as [EH|NH].
  2: { exists tab2. split; [done|]. right. split; [done|]. rewrite bind_stop; [done|]. apply negb_true_iff, not_true_iff_false. by rewrite str_eqb_eq. }
  rewrite bind_pass by (apply negb_false_iff; by apply str_eqb_eq).
  destruct (open_relative_run h obj tab2 (ad_path d) (root_open_grows _ _ _ _ RO G2)) as (tab3 & G3 & [(_ & g & E3 & L3 & _) | [X _]]); [|congruence].
  rewrite (bind_ret_eq _ _ _ _ _ E3). rewrite (bind_ret_eq _ _ _ _ _ (fstat_run obj h tab3 g _ _ L3)). rewrite EM.
  rewrite bind_pass by (by apply negb_false_iff). exists tab3. split; [by etrans|]. by left.
Qed.

(** The files that [read] accepts, when the checks of the object pass. *)
Lemma read_run h obj tab kinds value d : root_open h obj tab -> parse_descriptor_of kinds value = Some d -> fresh_for obj d ->
  exists tab', grows tab tab' /\
    ((exists data, in_tree h d data /\ read kinds value (Reading obj (Opened h tab)) =
        (Ret (d, data), Reading (accepted d (file_metadata (ad_size d)) obj) (Opened h tab'))) \/
     ((forall data, ~ in_tree h d data) /\ read kinds value (Reading obj (Opened h tab)) = (Raise RawArtifactError, Reading obj (Opened h tab')))).
Proof.
  intros RO HD [F1 F2 F3 F4]. pose proof (parsed_size _ _ _ HD) as SZ. unfold read. rewrite HD.
  rewrite (bind_ret_eq _ _ _ d (Reading obj (Opened h tab))) by reflexivity. rewrite (bind_ret_eq _ _ _ obj (Reading obj (Opened h tab))) by reflexivity.
  rewrite bind_pass by (by apply mem_false). rewrite bind_pass by (by apply mem_false). rewrite !bind_pass by (by apply Z.ltb_ge).
  rewrite (bind_ret_eq _ _ _ _ _ (check_root_run h obj tab RO)).
  destruct (open_relative_run h obj tab (ad_path d) RO) as (tab1 & G1 & [(RE & f & E1 & L1 & _) | [RE E1]]).
  2: { exists tab1. split; [done|]. right. split; [|by rewrite (bind_raise_eq _ _ _ _ _ E1)]. intros data (X & _). congruence. }
  rewrite (bind_ret_eq _ _ _ _ _ E1). rewrite (bind_ret_eq _ _ _ _ _ (fstat_run obj h tab1 f _ _ L1)).
  destruct (h_files h !! split_slash (ad_path d)) as [data|] eqn:HF.
  2: { exists tab1. split; [done|]. right. split; [by intros data (_ & X & _); congruence|]. rewrite bind_stop; [done|]. unfold metadata_at. by rewrite HF. }
  assert (EM : metadata_at (split_slash (ad_path d)) h = file_metadata (len data)) by (unfold metadata_at; by rewrite HF). rewrite EM.
  rewrite bind_pass by reflexivity. rewrite bind_pass by reflexivity. destruct (decide (len data = ad_size d)) as [EL|NL].
  2: { exists tab1. split; [done|]. right. split; [intros x (_ & X & Y & _); rewrite HF in X; injection X as <-; exact (NL Y)|].
       rewrite bind_stop; [done|]. apply negb_true_iff. by apply Z.eqb_neq. }
  rewrite bind_pass by (apply negb_false_iff; by apply Z.eqb_eq).
  pose proof (root_open_grows _ _ _ _ RO G1) as RO1.
  destruct (read_and_reopen_run h obj tab1 d f data (fun m => bool_decide (file_metadata (len data) = m))
    (fun b => _check_root_path ≫= fun _ => modify (set_object (accepted d (file_metadata (len data)))) ≫= fun _ => mret (d, b))
    RO1 SZ L1 RE HF EL) as (tab2 & G2 & [[EH E2] | [NH E2]]); [by apply bool_decide_eq_true|..]; unfold read_and_reopen in E2.
  - exists tab2. split; [by etrans|]. left. exists data. split; [by split|]. rewrite E2.
    rewrite (bind_ret_eq _ _ _ _ _ (check_root_run h obj tab2 (root_open_grows _ _ _ _ RO1 G2))). by rewrite <-EL.
  - exists tab2. split; [by etrans|]. right. split; [|by rewrite E2]. intros x (_ & X & _ & Y). rewrite HF in X. injection X as <-. exact (NH Y).
Qed.

(** A tree as the rescan of an accepted artifact wants it. *)
Definition unchanged (h : host) (x : ArtifactDescriptor * metadata) : Prop :=
  exists data, in_tree h (fst x) data /\ snd x = file_metadata (len data).

Lemma revalidate_run h obj tab d m : root_open h obj tab -> 0 <= ad_size d < 10 ^ 8 ->
  exists tab', grows tab tab' /\
    ((unchanged h (d, m) /\ _revalidate_snapshot (d, m) (Reading obj (Opened h tab)) = (Ret (), Reading obj (Opened h tab'))) \/
     (~ unchanged h (d, m) /\ _revalidate_snapshot (d, m) (Reading obj (Opened h tab)) = (Raise RawArtifactError, Reading obj (Opened h tab')))).
Proof.
  intros RO SZ. unfold _revalidate_snapshot, unchanged. cbn [fst snd]. rewrite (bind_ret_eq _ _ _ _ _ (check_root_run h obj tab RO)).
  destruct (open_relative_run h obj tab (ad_path d) RO) as (tab1 & G1 & [(RE & f & E1 & L1 & _) | [RE E1]]).
  2: { exists tab1. split; [done|]. right. split; [|by rewrite (bind_raise_eq _ _ _ _ _ E1)]. intros (data & (X & _) & _). congruence. }
  rewrite (bind_ret_eq _ _ _ _ _ E1). rewrite (bind_ret_eq _ _ _ _ _ (fstat_run obj h tab1 f _ _ L1)).
  destruct (h_files h !! split_slash (ad_path d)) as [data|] eqn:HF.
  2: { exists tab1. split; [done|]. right. split; [intros (data & (_ & X & _) & _); congruence|]. rewrite bind_stop; [done|]. unfold metadata_at. by rewrite HF. }
  assert (EM : metadata_at (split_slash (ad_path d)) h = file_metadata (len data)) by (unfold metadata_at; by rewrite HF). rewrite EM.
  assert (U : forall x, in_tree h d x -> x = data) by (intros x (_ & X & _); congruence).
  rewrite bind_pass by reflexivity. destruct (decide (file_metadata (len data) = m)) as [<-|NM].
  2: { exists tab1. split; [done|]. right. split; [intros (x & X%U & Y); congruence|]. rewrite bind_stop; [done|]. apply negb_true_iff. by apply bool_decide_eq_false. }
  rewrite bind_pass by (apply negb_false_iff; by apply bool_decide_eq_true). pose proof (root_open_grows _ _ _ _ RO G1) as RO1.
  destruct (decide (len data = ad_size d)) as [EL|NL].
  - destruct (read_and_reopen_run h obj tab1 d f data (fun m => bool_decide (m = file_metadata (len data))) (fun _ => _check_root_path)
      RO1 SZ L1 RE HF EL) as (tab2 & G2 & [[EH E2] | [NH E2]]); [by apply bool_decide_eq_true|..]; unfold read_and_reopen in E2.
    + exists tab2. split; [by etrans|]. left. split; [by exists data|]. rewrite E2. apply check_root_run, (root_open_grows _ _ _ _ RO1 G2).
    + exists tab2. split; [by etrans|]. right. split; [|by rewrite E2]. intros (x & X & _). rewrite (U x X) in X. destruct X as (_ & _ & _ & Y). exact (NH Y).
  - destruct (read_fd_run obj h tab1 f _ data (ad_size d) L1 HF SZ) as (tab2 & G2 & E2). rewrite (bind_ret_eq _ _ _ _ _ E2).
    destruct (proj2 G2 _ _ _ L1) as [o2 L2]. rewrite (bind_ret_eq _ _ _ _ _ (fstat_run obj h tab2 f _ _ L2)). rewrite EM.
    rewrite bind_pass by (apply negb_false_iff; by apply bool_decide_eq_true). exists tab2. split; [by etrans|]. right. split.
    + intros (x & X & _). rewrite (U x X) in X. destruct X as (_ & _ & Y & _). exact (NL Y).
    + rewrite bind_stop; [done|]. apply negb_true_iff, Z.eqb_neq. unfold len in *. rewrite length_take. lia.
Qed.

Lemma rescan_run h obj l : Forall (fun x => 0 <= ad_size (fst x) < 10 ^ 8) l -> forall tab, root_open h obj tab ->
  exists tab', grows tab tab' /\
    ((Forall (unchanged h) l /\ for_each l _revalidate_snapshot (Reading obj (Opened h tab)) = (Ret (), Reading obj (Opened h tab'))) \/
     (~ Forall (unchanged h) l /\ for_each l _revalidate_snapshot (Reading obj (Opened h tab)) = (Raise RawArtifactError, Reading obj (Opened h tab')))).
Proof.
  induction 1 as [|[d m] l SZ F IH]; intros tab RO; [exists tab; split; [reflexivity|by left]|]. cbn [for_each].
  destruct (revalidate_run h obj tab d m RO SZ) as (tab1 & G1 & [[U E] | [U E]]).
  - rewrite (bind_ret_eq _ _ _ _ _ E). destruct (IH tab1 (root_open_grows _ _ _ _ RO G1)) as (tab2 & G2 & X).
    exists tab2. split; [by etrans|]. rewrite Forall_cons. tauto.
  - rewrite (bind_raise_eq _ _ _ _ _ E). exists tab1. split; [done|]. right. split; [|done]. rewrite Forall_cons. tauto.
Qed.

Lemma rescan_order_perm p l o : rescan_order p l = Some o -> Permutation o l.
Proof.
  unfold rescan_order. destruct p as [p|]; [|by intros [= <-]]. set (t := fun x : ArtifactDescriptor * metadata => str_eqb (ad_path (fst x)) p).
  destruct (List.filter t l) as [|x [|]] eqn:E; try discriminate. intros [= <-]. rewrite <-E. clear E x.
  change (fun x : ArtifactDescriptor * metadata => negb (str_eqb (ad_path (fst x)) p)) with (fun x => negb (t x)).
  induction l as [|x l IH]; [done|]. cbn [List.filter]. destruct (t x); cbn [negb].
  - by rewrite <-Permutation_middle, IH.
  - cbn [app]. by rewrite IH.
Qed.

Lemma snapshot_sizes (obj : ArtifactReader quiet) : reader_ok obj -> Forall (fun x => 0 <= ad_size (fst x) < 10 ^ 8) (ar_snapshots obj).
Proof. intros OK. exact (proj1 (Forall_fmap fst (fun d => 0 <= ad_size d < 10 ^ 8) _) (ro_sizes _ OK)). Qed.


(** ** One artifact *)

Module Demo.
Definition data : bytes := bstr "{}".
Definition descriptor : ArtifactDescriptor :=
  {| ad_kind := u "packet-report"; ad_path := u "derived/packet.json"; ad_size := 2; ad_sha256 := hexdigest data |}.
Definition tree : host := Host true {[ [u "derived"] ]} {[ [u "derived"; u "packet.json"] := data ]} [] true 0.
Definition start : reading quiet := Reading new_reader (Opened tree []).
Definition entered : reading quiet := snd (__enter__ start).
Definition kinds : list str := [u "packet-report"].

Lemma entered_open : root_open tree (rd_object entered) (q_table (rd_os entered)).
Proof. constructor; [exists 0%nat, 0; vm_compute; done|done|done]. Qed.

Lemma run : exists r, reader_runs start [(descriptor, data)] r.
Proof.
  destruct (read kinds (descriptor_as_dict descriptor) entered) as [o r] eqn:E. exists r. apply rruns_enter. fold entered.
  refine (rruns_read kinds (descriptor_as_dict descriptor) entered (descriptor, data) r [] r _ (rruns_done r)).
  rewrite E. f_equal. assert (X : fst (read kinds (descriptor_as_dict descriptor) entered) = Ret (descriptor, data)) by (vm_compute; reflexivity).
  by rewrite E in X.
Qed.
End Demo.


