(* ===== verification/ReceiptProofs.v ===== *)
(** * Receipts

    What [_validated_receipt_bindings] and [compose_receipt_bindings] accept, the
    number of artifacts of a receipt, the size of a receipt request, and that a
    receipt request built from composed bindings is accepted again when the run
    record is composed. *)

From S2P Require Import Prelude Sha256 Text Json DateTime Effects Base64 Ps256 TrustPolicy PolicyProofs Archive Observation ObservationProofs.
From S2P Require Import Python Copies Timestamp Identity Catalogue CollectorRequest Composition CollectorProofs.

Open Scope Z_scope.
Open Scope list_scope.

(** ** Reading back *)

Lemma parse_descriptor_fields v d l : parse_descriptor v = Some d -> exact_object (JObj l) DESCRIPTOR_FIELDS = Some l ->
  obj_get l (u "kind") = Some (JStr (ad_kind d)) -> obj_get l (u "path") = Some (JStr (ad_path d)) ->
  obj_get l (u "size") = Some (JInt (ad_size d)) -> obj_get l (u "sha256") = Some (JStr (ad_sha256 d)) ->
  parse_descriptor (JObj l) = Some d.
Proof.
  intros H HL K P Z S. unfold parse_descriptor in *. rewrite HL. cbn [mbind option_bind]. rewrite K, P, Z, S. clear HL K P Z S.
  apply bind_Some in H as (raw & _ & H).
  destruct (obj_get raw (u "kind")) as [[| | | |k| |]|]; try discriminate H. destruct (obj_get raw (u "path")) as [[| | | |p| |]|]; try discriminate H.
  destruct (obj_get raw (u "size")) as [[| |z| | | |]|]; try discriminate H. destruct (obj_get raw (u "sha256")) as [[| | | |x| |]|]; try discriminate H.
  pose proof H as H0. apply bind_Some in H0 as (spec & _ & H0). destruct (_ || _) in H0; [discriminate H0|]. apply bind_Some in H0 as (e & _ & H0).
  destruct (_ || _) in H0; [discriminate H0|]. injection H0 as <-. exact H.
Qed.

Lemma descriptor_copy v d w : parse_descriptor v = Some d -> copy_of w (descriptor_as_dict d) -> parse_descriptor w = Some d.
Proof. intros H [-> | ->]; apply (parse_descriptor_fields v d _ H); reflexivity. Qed.

Lemma raw_copy w v : (exists x, parse_descriptor x = Some (wb_descriptor w)) -> copy_of v (raw_json w) -> raw_reads v w.
Proof.
  intros [x D] [-> | ->]; (eexists; split; [reflexivity|]); (split; [reflexivity|]); (split; [reflexivity|]);
    apply (descriptor_copy x _ _ D); [by left|by right].
Qed.

Lemma report_copy r v : (exists x, parse_descriptor x = Some (rb_descriptor r)) -> copy_of v (report_json r) -> report_reads v r.
Proof.
  intros [x D] [-> | ->]; (eexists; split; [reflexivity|]); do 5 (split; [reflexivity|]);
    apply (descriptor_copy x _ _ D); [by left|by right].
Qed.

(** What is read is determined. *)
Lemma raw_reads_inj v w w' : raw_reads v w -> raw_reads v w' -> w = w'.
Proof. destruct w, w'. intros (b & E & H1 & H2 & H3) (b' & E' & H1' & H2' & H3'). cbn in *. congruence. Qed.
Lemma report_reads_inj v r r' : report_reads v r -> report_reads v r' -> r = r'.
Proof.
  destruct r, r'. intros (b & E & H1 & H2 & H3 & H4 & H5 & H6) (b' & E' & H1' & H2' & H3' & H4' & H5' & H6'). cbn in *. congruence.
Qed.
Lemma Forall2_inj {A B} (R : A -> B -> Prop) l m m' :
  (forall a b b', R a b -> R a b' -> b = b') -> Forall2 R l m -> Forall2 R l m' -> m = m'.
Proof.
  intros HR F. revert m'. induction F as [|a b l m Hab F IH]; intros m' F'; inversion F' as [|? b' ? m'' Hab' F'']; subst; [done|].
  f_equal; [by eapply HR|by apply IH].
Qed.

(** ** Orders *)

#[export] Instance raw_le_trans : Transitive raw_le.
Proof.
  intros a b c. unfold raw_le, raw_leb. intros H1 H2.
  destruct (str_eqb (wb_harness a) (wb_harness b)) eqn:E1, (str_eqb (wb_harness b) (wb_harness c)) eqn:E2;
    rewrite ?str_eqb_eq in *.
  - rewrite E1, E2, str_eqb_refl. exact (transitivity (R := str_le) H1 H2).
  - rewrite E1, E2. exact H2.
  - rewrite <-E2, E1. exact H1.
  - destruct (str_eqb (wb_harness a) (wb_harness c)) eqn:E3; [|exact (transitivity (R := str_le) H1 H2)].
    apply str_eqb_eq in E3. exfalso. rewrite E3 in H1. assert (X : wb_harness b = wb_harness c) by (by apply (anti_symm str_le)).
    rewrite X, str_eqb_refl in E2. discriminate E2.
Qed.
#[export] Instance raw_le_total : Total raw_le.
Proof.
  intros a b. unfold raw_le, raw_leb. destruct (str_eqb (wb_harness a) (wb_harness b)) eqn:E.
  - apply str_eqb_eq in E. rewrite E, str_eqb_refl. exact (total str_le _ _).
  - destruct (str_eqb (wb_harness b) (wb_harness a)) eqn:E'; [apply str_eqb_eq in E'; rewrite E', str_eqb_refl in E; discriminate E|].
    exact (total str_le _ _).
Qed.
Lemma raw_le_antisym a b : raw_le a b -> raw_le b a -> identity a = identity b.
Proof.
  unfold raw_le, raw_leb, identity. intros H1 H2. destruct (str_eqb (wb_harness a) (wb_harness b)) eqn:E.
  - apply str_eqb_eq in E. rewrite E, str_eqb_refl in H2. f_equal; [done|]. by apply (anti_symm str_le).
  - destruct (str_eqb (wb_harness b) (wb_harness a)) eqn:E'; [apply str_eqb_eq in E'; rewrite E', str_eqb_refl in E; discriminate E|].
    exfalso. assert (X : wb_harness a = wb_harness b) by (by apply (anti_symm str_le)). rewrite X, str_eqb_refl in E. discriminate E.
Qed.

(** Sorting lists of distinct identities. *)
Lemma identity_inj l a b : NoDup (map identity l) -> a ∈ l -> b ∈ l -> identity a = identity b -> a = b.
Proof.
  induction l as [|x l IH]; [by intros _ H%elem_of_nil|]. cbn [map]. intros [N1 N2]%NoDup_cons Ha Hb E.
  apply elem_of_cons in Ha as [->|Ha], Hb as [->|Hb]; [done| | |by apply IH].
  - exfalso. apply N1. rewrite E. apply list_elem_of_fmap. by exists b.
  - exfalso. apply N1. rewrite <-E. apply list_elem_of_fmap. by exists a.
Qed.

Lemma sort_raw_perm l : sort_raw l ≡ₚ l.
Proof. apply merge_sort_Permutation. Qed.
Lemma sort_raw_sorted l : StronglySorted raw_le (sort_raw l).
Proof. apply StronglySorted_merge_sort; apply _. Qed.

Lemma sorted_raw_unique l m : NoDup (map identity l) -> StronglySorted raw_le l -> StronglySorted raw_le m -> l ≡ₚ m -> l = m.
Proof.
  intros N SL SM P. apply (StronglySorted_unique_strong raw_le); [|done..].
  intros a b Ha Hb H1 H2. eapply identity_inj; [exact N|exact Ha| |by apply raw_le_antisym]. by rewrite P.
Qed.

Lemma sort_raw_id l : NoDup (map identity l) -> StronglySorted raw_le l -> sort_raw l = l.
Proof.
  intros N S. symmetry. apply sorted_raw_unique; [done|done|apply sort_raw_sorted|]. by rewrite sort_raw_perm.
Qed.

Lemma NoDup_sort_raw l : NoDup (map identity l) -> NoDup (map identity (sort_raw l)).
Proof. intros N. by rewrite (fmap_Permutation identity _ _ (sort_raw_perm l)). Qed.

Lemma sort_raw_twice l : NoDup (map identity l) -> sort_raw (sort_raw l) = sort_raw l.
Proof. intros N. apply sort_raw_id; [by apply NoDup_sort_raw|apply sort_raw_sorted]. Qed.

(** The four reports have one order. *)
#[export] Instance report_le_total : Total report_le.
Proof. intros a b. exact (total str_le _ _). Qed.
#[export] Instance report_le_trans : Transitive report_le.
Proof. intros a b c H1 H2. exact (transitivity (R := str_le) H1 H2). Qed.

Lemma StronglySorted_map l : StronglySorted report_le l -> StronglySorted str_le (map rb_harness l).
Proof. induction 1 as [|x l S IH F]; cbn; constructor; [done|]. by apply Forall_map. Qed.

Lemma harnesses_sorted : StronglySorted str_le REPORT_HARNESSES.
Proof. apply Sorted_StronglySorted; [apply _|]. repeat constructor. Qed.

Lemma sort_reports_harnesses l : NoDup (map rb_harness l) -> (forall x, x ∈ map rb_harness l <-> x ∈ REPORT_HARNESSES) ->
  map rb_harness (sort_reports l) = REPORT_HARNESSES.
Proof.
  intros N H. apply (StronglySorted_unique str_le).
  - apply StronglySorted_map, StronglySorted_merge_sort; apply _.
  - apply harnesses_sorted.
  - unfold sort_reports. rewrite (fmap_Permutation rb_harness _ _ (merge_sort_Permutation report_le l)).
    apply NoDup_Permutation; [done| |done]. apply (bool_decide_eq_true_1 (NoDup REPORT_HARNESSES)). vm_compute. reflexivity.
Qed.

Lemma sort_reports_id l : map rb_harness l = REPORT_HARNESSES -> sort_reports l = l.
Proof.
  intros H. assert (N : NoDup (map rb_harness l)) by (rewrite H; apply (bool_decide_eq_true_1 _); vm_compute; reflexivity).
  symmetry. apply (StronglySorted_unique_strong report_le).
  - intros a b Ha Hb H1 H2. unfold report_le in *. assert (E : rb_harness a = rb_harness b) by (by apply (anti_symm str_le)).
    unfold sort_reports in Hb. rewrite merge_sort_Permutation in Hb. clear H H1 H2. induction l as [|x l IH]; [by apply elem_of_nil in Ha|].
    cbn [map] in N. apply NoDup_cons in N as [N1 N2]. apply elem_of_cons in Ha as [->|Ha], Hb as [->|Hb]; [done| | |by apply IH].
    + exfalso. apply N1. rewrite E. apply list_elem_of_fmap. by exists b.
    + exfalso. apply N1. rewrite <-E. apply list_elem_of_fmap. by exists a.
  - assert (S : StronglySorted str_le (map rb_harness l)) by (rewrite H; apply harnesses_sorted). clear -S.
    induction l as [|x l IH]; cbn in *; [constructor|]. inversion S as [|? ? S1 F]; subst. constructor; [by apply IH|]. exact (proj1 (Forall_map rb_harness _ l) F).
  - apply StronglySorted_merge_sort; apply _.
  - unfold sort_reports. by rewrite merge_sort_Permutation.
Qed.

(** ** How many artifacts a receipt has *)

Definition HARNESS_NAMES : list string := ["adversarial"; "lifecycle"; "packet"; "performance"]%string.

Lemma raw_harness w : raw_fits w -> exists h, h ∈ HARNESS_NAMES /\ wb_harness w = u h.
Proof.
  intros (_ & kinds & H & _). apply assoc_in, list_elem_of_In in H.
  assert (C : forallb (fun kv => existsb (fun h => str_eqb (fst kv) (u h)) HARNESS_NAMES) RAW_KINDS_BY_HARNESS = true) by (vm_compute; reflexivity).
  apply forallb_forall with (x := (wb_harness w, kinds)) in C; [|exact H]. apply existsb_exists in C as (h & Hh & E%str_eqb_eq).
  exists h. split; [by apply list_elem_of_In|exact E].
Qed.

Lemma subjects_of_elem h ws s : s ∈ subjects_of h ws <-> exists w, w ∈ ws /\ identity w = (u h, s).
Proof.
  unfold subjects_of. rewrite list_elem_of_fmap. split.
  - intros (w & -> & Hw%list_elem_of_In%filter_In). destruct Hw as [Hw E%str_eqb_eq]. exists w. split; [by apply list_elem_of_In|].
    unfold identity. by rewrite E.
  - intros (w & Hw & [= E <-]). exists w. split; [done|]. apply list_elem_of_In, filter_In. split; [by apply list_elem_of_In|]. by apply str_eqb_eq.
Qed.

Lemma subjects_of_nodup h ws : NoDup (map identity ws) -> NoDup (subjects_of h ws).
Proof.
  unfold subjects_of. induction ws as [|w ws IH]; cbn [map List.filter]; [constructor|]. intros [N1 N2]%NoDup_cons.
  destruct (str_eqb (wb_harness w) (u h)) eqn:E; [|by apply IH]. cbn [map]. constructor; [|by apply IH].
  intros H. apply N1. change (wb_subject w ∈ subjects_of h ws) in H. apply subjects_of_elem in H as (w' & Hw & E').
  apply str_eqb_eq in E. apply list_elem_of_fmap. exists w'. split; [|done]. rewrite E'. unfold identity. by rewrite E.
Qed.

Lemma subjects_total ws : Forall raw_fits ws ->
  len ws = foldr (fun h n => len (subjects_of h ws) + n) 0 HARNESS_NAMES.
Proof.
  unfold HARNESS_NAMES, subjects_of, len. cbn [foldr]. rewrite !length_map. intros F. induction F as [|w ws Hw F IH]; [done|].
  cbn [List.filter length]. destruct (raw_harness w Hw) as (h & Hh & E). rewrite E. unfold HARNESS_NAMES in Hh. rewrite !elem_of_cons, elem_of_nil in Hh.
  destruct Hh as [-> | [-> | [-> | [-> | []]]]];
    repeat match goal with |- context [str_eqb (u ?a) (u ?b)] =>
      let x := eval vm_compute in (str_eqb (u a) (u b)) in change (str_eqb (u a) (u b)) with x end; cbv iota; cbn [length]; lia.
Qed.

Lemma catalogue_distinct :
  NoDup EXPECTED_LIFECYCLE_RAW_SUBJECTS /\ NoDup REQUIRED_ADVERSARIAL_RAW_SUBJECTS /\ NoDup REQUIRED_PERFORMANCE_SUBJECTS /\
  NoDup (EXPECTED_PACKET_RAW_SUBJECTS ++ OPTIONAL_PACKET_RAW_SUBJECTS).
Proof. repeat split; apply (bool_decide_eq_true_1 _); vm_compute; reflexivity. Qed.

Lemma set_eq_length (a b : list str) : NoDup a -> NoDup b -> set_eq a b = true -> len a = len b.
Proof. intros Na Nb H. unfold len. f_equal. apply Permutation_length. apply NoDup_Permutation; [done..|]. by apply set_eq_spec. Qed.
Lemma subset_length (a b : list str) : NoDup a -> a ⊆ b -> len a <= len b.
Proof. intros Na H. unfold len. apply inj_le. apply submseteq_length, NoDup_submseteq; [done|]. exact H. Qed.

Lemma complete_count ws : NoDup (map identity ws) -> Forall raw_fits ws -> complete_subjects ws = true -> 265 <= len ws <= 267.
Proof.
  intros N F C. rewrite (subjects_total ws F). unfold HARNESS_NAMES. cbn [foldr]. unfold complete_subjects in C.
  rewrite !andb_true_iff in C. destruct C as (((CL & CP1 & CP2) & CA) & CF). destruct catalogue_distinct as (NL & NA & NF & NP).
  pose proof (fun h => subjects_of_nodup h ws N) as NS.
  apply set_eq_length in CL, CA, CF; [|done..]. apply subset_spec in CP1, CP2.
  pose proof (subset_length _ _ (proj1 (proj1 (NoDup_app _ _) NP)) CP1) as P1. pose proof (subset_length _ _ (NS "packet"%string) CP2) as P2.
  change (len EXPECTED_LIFECYCLE_RAW_SUBJECTS) with 72 in CL. change (len REQUIRED_ADVERSARIAL_RAW_SUBJECTS) with 138 in CA.
  change (len REQUIRED_PERFORMANCE_SUBJECTS) with 3 in CF. change (len EXPECTED_PACKET_RAW_SUBJECTS) with 52 in P1.
  change (len (EXPECTED_PACKET_RAW_SUBJECTS ++ OPTIONAL_PACKET_RAW_SUBJECTS)) with 54 in P2. lia.
Qed.

Lemma complete_present ws : complete_subjects ws = true -> existsb (fun h => bool_decide (subjects_of h ws = [])) HARNESS_NAMES = false.
Proof.
  intros C. unfold complete_subjects in C. rewrite !andb_true_iff in C. destruct C as (((CL & CP1 & _) & CA) & CF).
  apply andb_prop in CL as [_ CL], CA as [_ CA], CF as [_ CF]. apply subset_spec in CL, CP1, CA, CF.
  unfold HARNESS_NAMES. cbn [existsb].
  assert (E : forall a b : list str, b <> [] -> b ⊆ a -> bool_decide (a = []) = false).
  { intros a [|x b] Hb HS; [done|]. apply bool_decide_eq_false_2. intros ->. assert (X : x ∈ x :: b) by left. by apply HS, elem_of_nil in X. }
  rewrite (E _ REQUIRED_ADVERSARIAL_RAW_SUBJECTS), (E _ EXPECTED_LIFECYCLE_RAW_SUBJECTS), (E _ EXPECTED_PACKET_RAW_SUBJECTS), (E _ REQUIRED_PERFORMANCE_SUBJECTS)
    by first [assumption | discriminate]. reflexivity.
Qed.

(** ** What is accepted *)

(** Reports and raw artifacts that [w] accepts. *)
Record receipt_ok (w : window) (rs : list report_binding) (ws : list raw_binding) : Prop := {
  ro_harnesses : NoDup (map rb_harness rs) /\ forall x, x ∈ map rb_harness rs <-> x ∈ REPORT_HARNESSES;
  ro_fits : Forall report_fits rs;
  ro_timely : Forall report_timely rs;
  ro_in_run : Forall (in_run w) rs;
  ro_raw_fits : Forall raw_fits ws;
  ro_subject_fits : Forall subject_fits ws;
  ro_distinct : NoDup (map identity ws);
  ro_complete : complete_subjects ws = true;
  ro_ledger : ok_ledger (map rb_descriptor rs ++ map wb_descriptor ws)
}.

(** The bounds of a run. *)
Definition run_window (built nonce now : Z) (c k : str) : window :=
  {| wn_built := built; wn_captured := time_of c; wn_completed := time_of k; wn_nonce := nonce; wn_now := now |}.
Definition run_bounds (built initialized nonce now : Z) (c k : str) : Prop :=
  timely c /\ timely k /\ built <= time_of c /\ initialized <= time_of c /\ time_of c <= time_of k /\ time_of k <= nonce /\ time_of k <= now.

Lemma validated_bindings_exact material built initialized nonce now c k reports raws :
  _validated_receipt_bindings material built initialized nonce now = Ok (c, k, reports, raws) <->
  member material "captured_at" = JStr c /\ member material "completed_at" = JStr k /\ run_bounds built initialized nonce now c k /\
  exists vr vw rs ws, member material "reports" = JList vr /\ member material "raw_artifacts" = JList vw /\
    Forall2 report_reads vr rs /\ Forall2 raw_reads vw ws /\ receipt_ok (run_window built nonce now c k) rs ws /\
    reports = sort_reports rs /\ raws = sort_raw ws.
Proof.
  unfold _validated_receipt_bindings, run_bounds. split.
  - intros H. inv_bind H. apply timestamp_text in E as (C1 & C2 & C3). inv_bind H. apply timestamp_text in E as (K1 & K2 & K3).
    destruct (_ || _) eqn:G in H; [discriminate H|]. rewrite !orb_false_iff, !Z.ltb_ge, C3, K3 in G.
    destruct (member material "reports") as [| | | | |vr|] eqn:HR; try discriminate H. destruct (negb _) eqn:G1 in H; [discriminate H|].
    destruct (member material "raw_artifacts") as [| | | | |vw|] eqn:HW; try discriminate H. destruct (bool_decide _) in H; [discriminate H|].
    destruct (_ <? _) in H; [discriminate H|]. cbv zeta in H. inv_bind H. destruct v1 as [rs l1]. rewrite C3, K3 in E.
    apply (validated_reports_exact _ _ [] []) in E as (R & RF & RT & RW & RN & -> & RL); [|apply ok_ledger_nil]. cbn [app] in *.
    destruct (negb _) eqn:G2 in H; [discriminate H|]. apply negb_false_iff in G2. pose proof (proj1 (set_eq_spec _ _) G2) as G4. inv_bind H. destruct v1 as [ws l2].
    rewrite validated_raw_steps in E. apply (steps_exact _ _ validated_raw_step) in E as (W & WF & WG & WI & -> & WL); [|done].
    destruct (existsb _ _) in H; [discriminate H|]. destruct (negb _) eqn:G3 in H; [discriminate H|]. apply negb_false_iff in G3.
    injection H as <- <- <- <-. split; [done|]. split; [done|]. split; [split; [done|]; split; [done|lia]|].
    exists vr, vw, rs, ws. split; [done|]. split; [done|]. split; [done|]. split; [done|]. split; [|done].
    destruct RN as [RN _], WI as [WI _]. by constructor.
  - intros (HC & HK & (TC & TK & B) & vr & vw & rs & ws & HR & HW & R & W & O & -> & ->).
    rewrite HC, HK, HR, HW. apply timely_timestamp in TC as (tc & EC & VC), TK as (tk & EK & VK). rewrite EC, EK. cbn [mbind result_bind json_text].
    rewrite VC, VK. rewrite !(proj2 (Z.ltb_ge _ _)) by lia. cbn [orb].
    pose proof (complete_count ws (ro_distinct _ _ _ O) (ro_raw_fits _ _ _ O) (ro_complete _ _ _ O)) as CW.
    destruct O as [[N E] F T I RF SF D C L].
    assert (LR : len rs = 4).
    { assert (NR : NoDup REPORT_HARNESSES) by (apply (bool_decide_eq_true_1 _); vm_compute; reflexivity).
      unfold len. rewrite <-(length_map rb_harness), (Permutation_length (NoDup_Permutation _ _ N NR E)). reflexivity. }
    assert (LV : len vr = 4) by (unfold len in *; rewrite (Forall2_length _ _ _ R); exact LR).
    assert (LW : len vw = len ws) by (unfold len; by rewrite (Forall2_length _ _ _ W)).
    rewrite LV. change (4 =? len EXPECTED_REPORTS) with true. cbn [negb].
    rewrite (bool_decide_eq_false_2 (vw = [])) by (intros ->; rewrite len_nil in LW; lia). rewrite LW, (proj2 (Z.ltb_ge _ _)) by (unfold MAX_RECEIPT_ARTIFACT_COUNT; lia).
    cbv zeta. fold (run_window built nonce now c k). change empty_ledger with (ledger_of []).
    assert (L1 : ok_ledger (map rb_descriptor rs)).
    { eapply ok_ledger_prefix; [|exact L]. apply Forall_map. clear -W. induction W; constructor; [by eapply raw_reads_size|done]. }
    assert (E1 : validated_reports (run_window built nonce now c k) [] (ledger_of []) vr = Ok (rs, ledger_of (map rb_descriptor rs))).
    { apply (validated_reports_exact _ _ [] []); [apply ok_ledger_nil|]. cbn [app].
      refine (conj R (conj F (conj T (conj I (conj _ (conj eq_refl L1)))))). split; [done|]. intros r _. apply not_elem_of_nil. }
    rewrite E1. cbn [mbind result_bind]. rewrite (proj2 (set_eq_spec _ _) E). cbn [negb].
    assert (E2 : validated_raw [] (ledger_of (map rb_descriptor rs)) vw = Ok (ws, ledger_of (map rb_descriptor rs ++ map wb_descriptor ws))).
    { rewrite validated_raw_steps. apply (steps_exact _ _ validated_raw_step); [done|].
      refine (conj W (conj RF (conj SF (conj _ (conj eq_refl L))))). split; [done|]. intros x _. apply not_elem_of_nil. }
    rewrite E2. cbn [mbind result_bind]. fold HARNESS_NAMES. rewrite (complete_present ws C), C. done.
Qed.

(** ** What is composed *)

Record composed_ok (rs : list report_binding) (ws : list raw_binding) : Prop := {
  co_harnesses : map rb_harness rs = REPORT_HARNESSES;
  co_fits : Forall report_fits rs;
  co_timely : Forall report_timely rs;
  co_raw_fits : Forall raw_fits ws;
  co_lifecycle_fits : Forall lifecycle_fits ws;
  co_distinct : NoDup (map identity ws);
  co_present : existsb (fun h => bool_decide (subjects_of h ws = [])) HARNESS_NAMES = false;
  co_lifecycle : set_eq (subjects_of "lifecycle" ws) EXPECTED_LIFECYCLE_RAW_SUBJECTS = true;
  co_ledger : ok_ledger (map rb_descriptor rs ++ map wb_descriptor ws)
}.

(** The first earliest capture and the first latest completion of reports. *)
Definition captured_of (r : report_binding) : Z * str := (time_of (rb_captured_at r), rb_captured_at r).
Definition completed_of (r : report_binding) : Z * str := (time_of (rb_completed_at r), rb_completed_at r).
Definition earliest (rs : list report_binding) : str :=
  match map captured_of rs with [] => [] | first :: rest => snd (earliest_of first rest) end.
Definition latest (rs : list report_binding) : str :=
  match map completed_of rs with [] => [] | first :: rest => snd (latest_of first rest) end.
Definition bindings_of (rs : list report_binding) (ws : list raw_binding) : receipt_bindings :=
  {| bd_captured_at := earliest rs; bd_completed_at := latest rs; bd_reports := rs; bd_raw_artifacts := sort_raw ws |}.

Lemma map_timed_binding rs : map tr_binding (map timed rs) = rs.
Proof. rewrite map_map. apply map_id. Qed.

Lemma compose_exact reports raw_artifacts b :
  compose_receipt_bindings reports raw_artifacts = Ok b <->
  exists entries values rs ws, reports = JObj entries /\ raw_artifacts = JList values /\ same_fields REPORT_HARNESSES entries = true /\
    len entries + len values <= MAX_RECEIPT_ARTIFACT_COUNT /\ Forall (entry_reads entries) rs /\ Forall2 raw_reads values ws /\
    composed_ok rs ws /\ b = bindings_of rs ws.
Proof.
  unfold compose_receipt_bindings. split.
  - intros H. destruct reports as [| | | | | |entries]; try discriminate H. destruct (negb _) eqn:G1 in H; [discriminate H|]. apply negb_false_iff in G1.
    destruct raw_artifacts as [| | | | |values|]; try discriminate H. destruct (bool_decide _) in H; [discriminate H|].
    destruct (_ <? _) eqn:G2 in H; [discriminate H|]. apply Z.ltb_ge in G2. inv_bind H. destruct v as [ts l1].
    apply (composed_reports_exact entries REPORT_HARNESSES []) in E as (rs & -> & RH & RE & RF & RT & -> & RL); [|apply ok_ledger_nil]. cbn [app] in *.
    inv_bind H. destruct v as [ws l2]. rewrite composed_raw_steps in E.
    apply (steps_exact _ _ composed_raw_step) in E as (W & WF & WG & [WI _] & -> & WL); [|done].
    fold HARNESS_NAMES in H. destruct (existsb _ _) eqn:G3 in H; [discriminate H|]. destruct (negb _) eqn:G4 in H; [discriminate H|]. apply negb_false_iff in G4.
    destruct rs as [|r rs]; [discriminate RH|]. cbn [map] in H. injection H as <-. exists entries, values, (r :: rs), ws.
    split; [done|]. split; [done|]. split; [done|]. split; [done|]. split; [done|]. split; [done|]. split; [by constructor|].
    unfold bindings_of, earliest, latest. cbn [map]. by rewrite !map_map, map_id.
  - intros (entries & values & rs & ws & -> & -> & G1 & G2 & RE & W & [RH RF RT WF WG WI G3 G4 WL] & ->).
    rewrite G1. cbn [negb]. assert (NV : values <> []).
    { intros ->. inversion W; subst. discriminate G4. }
    rewrite (bool_decide_eq_false_2 _ NV), (proj2 (Z.ltb_ge _ _) G2). change empty_ledger with (ledger_of []).
    assert (L1 : ok_ledger (map rb_descriptor rs)).
    { eapply ok_ledger_prefix; [|exact WL]. apply Forall_map. clear -W. induction W; constructor; [by eapply raw_reads_size|done]. }
    assert (E1 : composed_reports entries (ledger_of []) REPORT_HARNESSES = Ok (map timed rs, ledger_of (map rb_descriptor rs))).
    { apply (composed_reports_exact entries REPORT_HARNESSES []); [apply ok_ledger_nil|]. exists rs. done. }
    rewrite E1. cbn [mbind result_bind].
    assert (E2 : composed_raw [] (ledger_of (map rb_descriptor rs)) values = Ok (ws, ledger_of (map rb_descriptor rs ++ map wb_descriptor ws))).
    { rewrite composed_raw_steps. apply (steps_exact _ _ composed_raw_step); [done|].
      refine (conj W (conj WF (conj WG (conj _ (conj eq_refl WL))))). split; [done|]. intros x _. apply not_elem_of_nil. }
    rewrite E2. cbn [mbind result_bind]. fold HARNESS_NAMES. rewrite G3, G4. cbn [negb].
    destruct rs as [|r rs]; [discriminate RH|]. cbn [map]. unfold bindings_of, earliest, latest. cbn [map]. by rewrite !map_map, map_id.
Qed.
