(* ===== verification/ContextProofs.v ===== *)
(** * Contexts that are accepted

    What [_candidate] and [validate_context] of
    src/scripts/harness/physical_collector_request.py accept, and when a context
    that [initialize_context] made is accepted again. *)

From S2P Require Import Prelude Sha256 Text Json DateTime Effects Base64 Ps256 TrustPolicy PolicyProofs Archive Observation ObservationProofs.
From S2P Require Import Python Copies Timestamp Identity Catalogue CollectorRequest Composition CollectorProofs ReceiptProofs.

Open Scope Z_scope.
Open Scope list_scope.

(** ** The candidate *)

Definition candidate_reads (v : json) (c : Candidate) : Prop :=
  exists l, exact_object v CANDIDATE_FIELDS = Some l /\ member l "version" = JStr (ca_version c) /\
    member l "build_number" = JStr (ca_build_number c) /\ member l "app_manifest_sha256" = JStr (ca_app_manifest_sha256 c) /\
    member l "signed_app_tree_sha256" = JStr (ca_signed_app_tree_sha256 c) /\
    member l "artifact_hash_manifest_sha256" = JStr (ca_artifact_hash_manifest_sha256 c) /\ member l "built_at" = JStr (ca_built_at c).

(** The release that is built, at a time that has passed. *)
Record candidate_ok (reading : Z) (c : Candidate) : Prop := {
  cok_version : ca_version c = PRODUCT_VERSION;
  cok_build : ca_build_number c = GA_RELEASE_BUILD;
  cok_app_manifest : is_sha256 (ca_app_manifest_sha256 c) = true;
  cok_signed_app_tree : is_sha256 (ca_signed_app_tree_sha256 c) = true;
  cok_artifact_manifest : is_sha256 (ca_artifact_hash_manifest_sha256 c) = true;
  cok_built : timely (ca_built_at c);
  cok_past : time_of (ca_built_at c) <= _now reading
}.

Lemma candidate_exact reading v c : _candidate reading v = Ok c <-> candidate_reads v c /\ candidate_ok reading c.
Proof.
  unfold _candidate, candidate_reads. split.
  - intros H. inv_bind H. apply of_raw_some in E. destruct (negb _) eqn:G in H; [discriminate H|]. apply eq_str_inv in G.
    inv_bind H. rename E0 into B. destruct (canonical_build_version _) as [s|] eqn:Q; [|discriminate B]. injection B as ->.
    assert (QB : member v0 "build_number" = JStr v1).
    { unfold canonical_build_version in Q. destruct (member v0 "build_number") as [| | | |[|x r]| |]; try discriminate Q.
      destruct (_ && _) in Q; [|discriminate Q]. destruct (_ || _) in Q; [discriminate Q|]. by injection Q as ->. }
    destruct (negb _) eqn:G1 in H; [discriminate H|]. apply negb_false_iff, str_eqb_eq in G1.
    inv_bind H. apply timestamp_text in E0 as (T1 & T2 & T3). destruct (_ <? _) eqn:G2 in H; [discriminate H|]. apply Z.ltb_ge in G2. rewrite T3 in G2.
    inv_bind H. apply digest_field_ok in E0 as [D1 D1']. inv_bind H. apply digest_field_ok in E0 as [D2 D2'].
    inv_bind H. apply digest_field_ok in E0 as [D3 D3']. injection H as <-. cbn [ca_version ca_build_number ca_app_manifest_sha256
      ca_signed_app_tree_sha256 ca_artifact_hash_manifest_sha256 ca_built_at]. split; [|by constructor]. exists v0. done.
  - intros [(l & E & V & B & A & S & M & T) [V' B' A' S' M' T' P]]. rewrite E. cbn [of_raw mbind result_bind]. rewrite V, B, A, S, M, T, V', B'.
    change (json_eq_str (JStr PRODUCT_VERSION) PRODUCT_VERSION) with true. change (canonical_build_version (JStr GA_RELEASE_BUILD)) with (Some GA_RELEASE_BUILD).
    cbn [negb mbind result_bind]. rewrite str_eqb_refl. cbn [negb]. apply timely_timestamp in T' as (t & -> & Q). cbn [mbind result_bind]. rewrite Q, (proj2 (Z.ltb_ge _ _) P).
    rewrite (proj2 (digest_field_ok _ _) (conj eq_refl A')), (proj2 (digest_field_ok _ _) (conj eq_refl S')), (proj2 (digest_field_ok _ _) (conj eq_refl M')).
    cbn [mbind result_bind json_text]. destruct c. cbn in *. congruence.
Qed.

Lemma candidate_copy c v : copy_of v (candidate_json c) -> candidate_reads v c.
Proof. intros [-> | ->]; (eexists; split; [reflexivity|]); by repeat split. Qed.

Lemma candidate_reads_inj v c c' : candidate_reads v c -> candidate_reads v c' -> c = c'.
Proof.
  destruct c, c'. intros (l & E & H1 & H2 & H3 & H4 & H5 & H6) (l' & E' & H1' & H2' & H3' & H4' & H5' & H6'). cbn in *. congruence.
Qed.

(** ** The context *)

(** The run holds every field of the environment. *)
Definition environment_reads (run : list (str * json)) (e : environment) : Prop :=
  Forall (fun kv => obj_get run (fst kv) = Some (snd kv)) (environment_items e).

Definition context_reads (v : json) (c : context) : Prop :=
  exists l run, exact_object v CONTEXT_FIELDS = Some l /\ member l "schema_version" = JInt CONTEXT_SCHEMA_VERSION /\
    member l "document" = JStr CONTEXT_DOCUMENT /\ member l "evidence_profile_sha256" = JStr (cx_profile_sha256 c) /\
    candidate_reads (member l "candidate") (cx_candidate c) /\ exact_object (member l "run") CONTEXT_RUN_FIELDS = Some run /\
    environment_reads run (cx_environment c) /\ member run "run_id" = JStr (cx_run_id c) /\
    member l "initialized_at" = JStr (cx_initialized_at c).

Lemma member_get l k v : v <> JNull -> member l k = v <-> obj_get l (u k) = Some v.
Proof. intros N. unfold member. destruct (obj_get l (u k)); cbn; split; congruence. Qed.

Lemma undrifted run e :
  environment_reads run e <->
  match member run "clean_install", member run "virtualization_present" with JBool true, JBool false => true | _, _ => false end = true /\
  existsb (drifted run) (environment_items e) = false.
Proof.
  unfold environment_reads. transitivity
    ((member run "clean_install" = JBool true /\ member run "virtualization_present" = JBool false) /\
     Forall (fun kv => match snd kv with JStr s => obj_get run (fst kv) = Some (snd kv) | _ => True end) (environment_items e)).
  - rewrite !member_get by done. unfold environment_items. rewrite !Forall_cons, !Forall_nil. cbn [fst snd]. tauto.
  - split.
    + intros [[H1 H2] F]. rewrite H1, H2. split; [done|]. apply not_true_iff_false. rewrite existsb_exists. intros (kv & Hkv & D).
      rewrite Forall_forall in F. apply list_elem_of_In, F in Hkv. unfold drifted in D. destruct (snd kv); try discriminate D.
      rewrite Hkv in D. cbn in D. by rewrite str_eqb_refl in D.
    + intros [H D]. split.
      { destruct (member run "clean_install") as [|[]| | | | |]; try discriminate H. by destruct (member run "virtualization_present") as [|[]| | | | |]. }
      apply Forall_forall. intros kv Hkv. destruct (snd kv) as [| | | |s| |] eqn:Q; try done.
      assert (N : drifted run kv = false) by (apply not_true_iff_false; intros X; rewrite <-not_true_iff_false, existsb_exists in D;
        apply D; exists kv; split; [by apply list_elem_of_In|done]).
      unfold drifted in N. rewrite Q in N. destruct (obj_get run (fst kv)) as [w|]; [|discriminate N]. apply eq_str_inv in N. by rewrite N.
Qed.

Section Contexts.
Context (plist_loads : bytes -> plist_result) (runner : Runner).

Record context_ok (ck : clock) (c : context) : Prop := {
  xok_profile : profile_sha256 = Ok (cx_profile_sha256 c);
  xok_candidate : candidate_ok (ck_candidate ck) (cx_candidate c);
  xok_run_id : IDENTIFIER_RE (cx_run_id c) = true;
  xok_environment : _observe_environment plist_loads runner = Ok (cx_environment c);
  xok_initialized : timely (cx_initialized_at c);
  xok_past : time_of (cx_initialized_at c) <= _now (ck_context ck)
}.

Lemma validate_context_exact ck v c :
  validate_context plist_loads runner ck v = Ok c <-> context_reads v c /\ context_ok ck c.
Proof.
  unfold validate_context, context_reads. split.
  - intros H. inv_bind H. apply of_raw_some in E. destruct (_ || _) eqn:G in H; [discriminate H|]. apply orb_false_iff in G as [G1 G2].
    apply eq_int_inv in G1. apply eq_str_inv in G2. inv_bind H. rename E0 into EP. destruct (negb _) eqn:G in H; [discriminate H|]. apply eq_str_inv in G.
    inv_bind H. apply candidate_exact in E0 as [CR CO]. inv_bind H. apply of_raw_some in E0. inv_bind H. apply require_identifier_ok in E1 as [I1 I2].
    destruct (negb _) eqn:G3 in H; [discriminate H|]. apply negb_false_iff in G3. inv_bind H. destruct (existsb _ _) eqn:G4 in H; [discriminate H|].
    inv_bind H. apply timestamp_text in E2 as (T1 & T2 & T3). destruct (_ <? _) eqn:G5 in H; [discriminate H|]. apply Z.ltb_ge in G5. rewrite T3 in G5.
    apply (fun X => proj2 (undrifted _ _) (conj G3 X)) in G4.
    injection H as <-. split; [|by constructor]. exists v0, v3. done.
  - intros [(l & run & E & H1 & H2 & H3 & H4 & ER & H5 & H6 & H7) [P C I O T B]]. rewrite E. cbn [of_raw mbind result_bind].
    rewrite H1, H2. change (json_eq_int (JInt CONTEXT_SCHEMA_VERSION) CONTEXT_SCHEMA_VERSION) with true.
    change (json_eq_str (JStr CONTEXT_DOCUMENT) CONTEXT_DOCUMENT) with true. cbn [negb orb]. rewrite P. cbn [mbind result_bind].
    rewrite H3, (proj2 (eq_str_text _ _) eq_refl). cbn [negb]. rewrite (proj2 (candidate_exact _ _ _) (conj H4 C)). cbn [mbind result_bind].
    rewrite ER. cbn [of_raw mbind result_bind]. rewrite H6, (proj2 (require_identifier_ok _ _) (conj eq_refl I)). cbn [mbind result_bind].
    apply undrifted in H5 as [D1 D2]. rewrite D1, O. cbn [negb mbind result_bind]. rewrite D2, H7. apply timely_timestamp in T as (t & -> & Q).
    cbn [mbind result_bind]. rewrite Q, (proj2 (Z.ltb_ge _ _) B). cbn [json_text]. by destruct c.
Qed.
End Contexts.

Lemma context_copy c v : copy_of v (context_json c) -> context_reads v c.
Proof.
  intros [-> | ->]; (do 2 eexists; split; [reflexivity|]); (split; [reflexivity|]); (split; [reflexivity|]); (split; [reflexivity|]);
    (split; [apply candidate_copy; first [by left | by right]|]); (split; [reflexivity|]); (split; [repeat constructor|]); by split.
Qed.

Lemma environment_reads_inj run e e' : environment_reads run e -> environment_reads run e' -> e = e'.
Proof.
  unfold environment_reads, environment_items. rewrite !Forall_cons. cbn [fst snd]. intros (A1 & A2 & A3 & A4 & _ & A6 & _ & A8 & _)
    (B1 & B2 & B3 & B4 & _ & B6 & _ & B8 & _). destruct e, e'. cbn in *. congruence.
Qed.

Lemma context_reads_inj v c c' : context_reads v c -> context_reads v c' -> c = c'.
Proof.
  intros (l & run & E & _ & _ & P & C & R & V & I & T) (l' & run' & E' & _ & _ & P' & C' & R' & V' & I' & T').
  assert (l' = l) as -> by congruence. assert (run' = run) as -> by congruence.
  pose proof (candidate_reads_inj _ _ _ C C') as EC. pose proof (environment_reads_inj _ _ _ V V') as EE. destruct c, c'. cbn in *. congruence.
Qed.

Lemma read_stamp_format d : valid_datetime d = true -> read_stamp (format_utc d) = Some (Stamp d 0).
Proof.
  intros H. pose proof (fromisoformat_format d H) as F. destruct (format_utc_digits d H) as
    (y1 & y2 & y3 & y4 & m1 & m2 & d1 & d2 & h1 & h2 & n1 & n2 & s1 & s2 & E & _). rewrite E in *.
  unfold read_stamp. cbn [drop take app split_fraction mbind option_bind]. unfold fromisoformat in F. apply bind_Some in F as (p & -> & F).
  cbn [mbind option_bind]. destruct p as [[[[[y m] dd] h] n] s]. change (0 =? 0) with true. rewrite andb_true_r.
  cbv zeta in *. match type of F with (if valid_datetime ?t then _ else _) = _ => set (t' := t) in * end.
  destruct (valid_datetime t'); [|discriminate F]. injection F as F. by rewrite F.
Qed.

Lemma format_timely t : valid_datetime (st_date t) = true ->
  timely (_format_timestamp t) /\ time_of (_format_timestamp t) = moment (Stamp (st_date t) 0).
Proof. intros H. unfold timely, time_of, _format_timestamp. rewrite (read_stamp_format _ H). by split. Qed.

Lemma initialize_context_ok plist_loads runner candidate run_id confirmed reading observed_at c :
  initialize_context plist_loads runner candidate run_id confirmed reading observed_at = Ok c ->
  profile_sha256 = Ok (cx_profile_sha256 c) /\ candidate_ok reading (cx_candidate c) /\ IDENTIFIER_RE (cx_run_id c) = true /\
  _observe_environment plist_loads runner = Ok (cx_environment c) /\ cx_initialized_at c = _format_timestamp observed_at.
Proof.
  unfold initialize_context. intros H. destruct (negb _) in H; [discriminate H|]. inv_bind H. apply candidate_exact in E as [_ C].
  inv_bind H. apply require_identifier_ok in E as [_ I]. inv_bind H. inv_bind H. injection H as <-. cbn. done.
Qed.

(** The machine is observed as the context records it, and neither the build of
    the candidate nor the initialisation is in the future. *)
Definition still_current (plist_loads : bytes -> plist_result) (runner : Runner) (ck : clock) (c : context) (observed_at : stamp) : Prop :=
  _observe_environment plist_loads runner = Ok (cx_environment c) /\
  time_of (ca_built_at (cx_candidate c)) <= _now (ck_candidate ck) /\ moment (Stamp (st_date observed_at) 0) <= _now (ck_context ck).

(** A run context that [initialize_context] made is accepted again by
    [validate_context], as it was made or as it is read back from its canonical
    encoding, exactly while the machine is still observed with the environment
    the context records (operating system, build, machine and boot digests,
    hardware model) and the clock has not gone back behind the build of the
    candidate or the initialisation; and what is then validated is the context
    itself. *)
Theorem context_accepted_again plist_loads runner plist_loads' runner' candidate run_id confirmed reading observed_at ck v c c' :
  initialize_context plist_loads runner candidate run_id confirmed reading observed_at = Ok c ->
  valid_datetime (st_date observed_at) = true ->
  copy_of v (context_json c) ->
  validate_context plist_loads' runner' ck v = Ok c' <->
  c' = c /\ still_current plist_loads' runner' ck c observed_at.
Proof.
  intros H D V. apply initialize_context_ok in H as (P & C & I & _ & T). pose proof (context_copy c v V) as R.
  destruct (format_timely observed_at D) as [T1 T2]. rewrite validate_context_exact. split.
  - intros [R' [_ CO _ O _ L]]. pose proof (context_reads_inj _ _ _ R' R) as ->. rewrite T, T2 in L. exact (conj eq_refl (conj O (conj (cok_past _ _ CO) L))).
  - intros (-> & O & B & L). split; [done|]. destruct C as [C1 C2 C3 C4 C5 C6 C7].
    refine (Build_context_ok _ _ _ _ P (Build_candidate_ok _ _ C1 C2 C3 C4 C5 C6 B) I O _ _); rewrite T; [exact T1|by rewrite T2].
Qed.

(** ** A machine *)

Module Demo.
Definition text (s : string) : command_result := Completed 0 (default [] (utf8_encode (u s))) [].
Definition runner (command : list string) : command_result :=
  match command with
  | ["/usr/bin/uname"; "-s"] => text "Darwin"
  | ["/usr/bin/uname"; "-m"] => text "arm64"
  | ["/usr/sbin/sysctl"; "-n"; "hw.model"] => text "Mac16,1"
  | ["/usr/sbin/sysctl"; "-n"; "kern.hv_vmm_present"] => text "0"
  | "/usr/sbin/ioreg" :: _ => text "ioreg"
  | "/usr/sbin/diskutil" :: _ => text "diskutil"
  | ["/usr/bin/sw_vers"; "-productVersion"] => text "26.6"
  | ["/usr/bin/sw_vers"; "-buildVersion"] => text "25G72"
  | _ => NotStarted
  end%string.
Definition platform : plist := PArray [PDict [(u "IOPlatformUUID", PStr sample_uuid)]].
Definition volume : plist :=
  PDict [(u "MountPoint", PStr (u "/")); (u "Bootable", PBool true); (u "FilesystemType", PStr (u "apfs")); (u "SystemImage", PBool false);
         (u "Sealed", PStr (u "Yes")); (u "VolumeUUID", PStr sample_uuid); (u "APFSVolumeGroupID", PStr sample_uuid)].
Definition plist_loads (data : bytes) : plist_result :=
  match utf8_decode data with
  | Some s => if str_eqb s (u "ioreg") then Plist platform else if str_eqb s (u "diskutil") then Plist volume else NotPlist
  | None => NotPlist
  end.

Lemma observes : exists e, _observe_environment plist_loads runner = Ok e.
Proof. eexists. cbv -[hexdigest]. reflexivity. Qed.
Lemma profile : exists p, profile_sha256 = Ok p.
Proof.
  unfold profile_sha256. assert (E : is_Some (canonical_json EVIDENCE_PROFILE)) by (vm_compute; by eexists). destruct E as [b ->]. by exists (hexdigest b).
Qed.

Definition candidate : Candidate :=
  {| ca_version := PRODUCT_VERSION; ca_build_number := GA_RELEASE_BUILD; ca_app_manifest_sha256 := replicate 64 97;
     ca_signed_app_tree_sha256 := replicate 64 98; ca_artifact_hash_manifest_sha256 := replicate 64 99; ca_built_at := u "2026-01-01T00:00:00Z" |}.
Definition start : stamp := Stamp (DateTime 2026 1 2 0 0 0) 0.
Definition ck : clock := {| ck_candidate := moment start; ck_context := moment start; ck_nonce := moment start; ck_request := moment start |}.

Definition context (e : environment) (p : str) : CollectorRequest.context :=
  {| cx_profile_sha256 := p; cx_candidate := candidate; cx_environment := e; cx_run_id := u "run-0001"; cx_initialized_at := u "2026-01-02T00:00:00Z" |}.

Lemma initializes : exists e p, initialize_context plist_loads runner (candidate_json candidate) (JStr (u "run-0001")) true (moment start) start = Ok (context e p).
Proof.
  unfold initialize_context. assert (E : _candidate (moment start) (candidate_json candidate) = Ok candidate) by (vm_compute; reflexivity). rewrite E.
  cbn [negb mbind result_bind]. assert (E1 : require_identifier (JStr (u "run-0001")) = Ok (u "run-0001")) by (vm_compute; reflexivity). rewrite E1.
  cbn [mbind result_bind]. destruct observes as [e ->], profile as [p ->]. cbn [mbind result_bind]. exists e, p.
  assert (E2 : _format_timestamp start = u "2026-01-02T00:00:00Z") by (vm_compute; reflexivity). by rewrite E2.
Qed.

Lemma validates : exists e p, validate_context plist_loads runner ck (context_json (context e p)) = Ok (context e p).
Proof.
  destruct initializes as (e & p & H). exists e, p. apply initialize_context_ok in H as (P & C & I & O & _). apply validate_context_exact.
  split; [apply context_copy; by left|]. refine (Build_context_ok plist_loads runner ck (context e p) P C I O _ _).
  - by eexists.
  - vm_compute. discriminate.
Qed.
End Demo.

Lemma context_accepted_again_witness : exists c,
  initialize_context Demo.plist_loads Demo.runner (candidate_json Demo.candidate) (JStr (u "run-0001")) true (moment Demo.start) Demo.start = Ok c /\
  (validate_context Demo.plist_loads Demo.runner Demo.ck (normalize (context_json c)) = Ok c <->
   c = c /\ still_current Demo.plist_loads Demo.runner Demo.ck c Demo.start).
Proof.
  destruct Demo.initializes as (e & p & E). exists (Demo.context e p). split; [exact E|].
  exact (context_accepted_again _ _ _ _ _ _ _ _ _ _ _ _ _ E eq_refl (or_intror eq_refl)).
Defined.
