(* ===== verification/Sample.v ===== *)
(** * A complete receipt

    Four reports and the 265 raw artifacts the catalogue requires, on a machine
    that is observed: the concrete input on which the theorems on receipts are
    applied. *)

From S2P Require Import Prelude Sha256 Text Json DateTime Effects Base64 Ps256 TrustPolicy PolicyProofs Archive Observation ObservationProofs.
From S2P Require Import Python Copies Timestamp Identity Catalogue CollectorRequest Composition CollectorProofs ReceiptProofs ContextProofs.

Open Scope Z_scope.
Open Scope list_scope.

Module Sample.
(** The [i]-th artifact: its path and its digest start with its number. *)
Definition descriptor (i : Z) (kind : str) : ArtifactDescriptor :=
  {| ad_kind := kind; ad_path := pad_int 3 i ++ match assoc ARTIFACT_KINDS kind with Some spec => ak_suffix spec | None => [] end;
     ad_size := 1; ad_sha256 := pad_int 3 i ++ replicate 61 97 |}.

Definition kind_of (harness : string) (subject : str) : str :=
  match harness with
  | "adversarial" => default [] (expected_adversarial_raw_kind subject)
  | "lifecycle" => List.hd [] (default [] (expected_lifecycle_raw_kinds subject))
  | "packet" => u "packet-pcap"
  | _ => if str_eqb subject (u "sample-ledger") then PERFORMANCE_LEDGER_KIND else PERFORMANCE_SHAPING_KIND
  end%string.

Definition artifacts : list (string * str) :=
  map (pair "adversarial"%string) REQUIRED_ADVERSARIAL_RAW_SUBJECTS ++ map (pair "lifecycle"%string) EXPECTED_LIFECYCLE_RAW_SUBJECTS ++
  map (pair "packet"%string) EXPECTED_PACKET_RAW_SUBJECTS ++ map (pair "performance"%string) REQUIRED_PERFORMANCE_SUBJECTS.
Fixpoint numbered (i : Z) (l : list (string * str)) : list raw_binding :=
  match l with
  | [] => []
  | (h, s) :: l => {| wb_harness := u h; wb_subject := s; wb_descriptor := descriptor i (kind_of h s) |} :: numbered (i + 1) l
  end.
Definition raws : list raw_binding := numbered 4 artifacts.

Definition report (i : Z) (e : str * (str * str)) : report_binding :=
  {| rb_harness := fst e; rb_tool_version := fst (snd e); rb_captured_at := u "2026-01-02T01:00:00Z"; rb_completed_at := u "2026-01-02T02:00:00.5Z";
     rb_signed_at := u "2026-01-02T04:00:00Z"; rb_descriptor := descriptor i (snd (snd e)) |}.
Definition reports : list report_binding := zip_with report [0; 1; 2; 3] EXPECTED_REPORTS.

Definition bindings : receipt_bindings :=
  {| bd_captured_at := u "2026-01-02T01:00:00Z"; bd_completed_at := u "2026-01-02T02:00:00.5Z"; bd_reports := reports; bd_raw_artifacts := sort_raw raws |}.

Definition at_hour (h : Z) : Z := moment (Stamp (DateTime 2026 1 2 h 0 0) 0).
Definition answer : json :=
  JObj [(u "schema_version", JInt 1); (u "run_nonce", JStr (replicate 64 100)); (u "expires_at", JStr (u "2026-01-02T09:00:00Z"))].
Definition nonce : CollectorRequest.nonce := {| nc_run_nonce := replicate 64 100; nc_expires_at := u "2026-01-02T09:00:00Z" |}.

Lemma nonce_ok reading : validate_nonce_response answer (Some (at_hour 5)) reading = Ok (nonce, at_hour 3).
Proof. vm_compute. reflexivity. Qed.
Lemma validated : _validated_receipt_bindings (dict_items (bindings_json bindings)) (time_of (ca_built_at Demo.candidate)) (time_of (u "2026-01-02T00:00:00Z"))
  (at_hour 3) (at_hour 5) = Ok (bd_captured_at bindings, bd_completed_at bindings, reports, sort_raw raws).
Proof. vm_compute. reflexivity. Qed.

Lemma composed : compose_receipt_bindings (JObj (map run_report reports)) (JList (map raw_json raws)) = Ok bindings.
Proof. vm_compute. reflexivity. Qed.
End Sample.
