(* ===== verification/RequestBounds.v ===== *)
(** * Requests fit

    The canonical encodings of the requests of
    src/scripts/harness/physical_collector_request.py are always within
    [MAX_COLLECTOR_REQUEST_BYTES], so that [_bounded_request] returns on every
    request that is built. *)

From S2P Require Import Prelude Sha256 Text Json DateTime Effects Base64 Ps256 TrustPolicy PolicyProofs Archive Observation ObservationProofs.
From S2P Require Import Python Copies Documents Timestamp Identity Catalogue CollectorRequest Composition CollectorProofs ReceiptProofs ContextProofs Sample.

Open Scope Z_scope.
Open Scope list_scope.

(** ** Short texts *)

Lemma digits_simple s : forallb is_digit s = true -> forallb simple_char s = true.
Proof.
  intros H. apply forallb_forall. intros c Hc. apply forallb_forall with (x := c) in H; [|done]. unfold is_digit in H.
  rewrite andb_true_iff, !Z.leb_le in H. unfold simple_char. rewrite !andb_true_iff, !negb_true_iff, Z.leb_le, !Z.eqb_neq, Z.ltb_lt. lia.
Qed.

Lemma fraction_short s m : split_fraction s = Some m -> short 8 s.
Proof.
  unfold split_fraction. intros H. repeat (case_match; try discriminate H); subst; try (by apply short_text).
  match goal with G : _ = true |- short 8 (_ :: ?r) => rename G into G1; set (s := r) in * end.
  rewrite !andb_true_iff in G1. destruct G1 as [[[G1 G2] G3] G4]. apply Z.eqb_eq in G1. apply Nat.leb_le in G2, G3.
  assert (N : s <> []) by (intros X; rewrite X in G2; cbn in G2; lia). pose proof (app_removelast_last 0 N) as E. rewrite G1 in E.
  split; [|rewrite E, len_cons, len_app; unfold len; cbn [length]; lia].
  rewrite E. cbn [forallb]. by rewrite forallb_app, (digits_simple _ G4).
Qed.

Lemma date_short s t : split_utc s = Some t -> short 20 s.
Proof.
  unfold split_utc. intros H. repeat (case_match; try discriminate H). subst.
  match goal with G : _ = true |- _ => rewrite !andb_true_iff in G; destruct G as [G D]; rewrite !Z.eqb_eq in G end.
  destruct_and!. subst. apply digits_simple in D. cbn [forallb] in D. rewrite !andb_true_iff in D. split; [|done].
  cbn [forallb]. rewrite !andb_true_iff. naive_solver.
Qed.

Lemma short_timely s : timely s -> short 28 s.
Proof.
  intros [t H]. unfold read_stamp in H. apply bind_Some in H as (m & F & H). apply bind_Some in H as (p & D & _).
  apply fraction_short in F as [F1 F2]. apply date_short in D as [D1 D2]. rewrite forallb_app in D1. apply andb_prop in D1 as [D1 _].
  rewrite len_app in D2. change (len [90]) with 1 in D2. rewrite <-(take_drop 19 s). split; [by rewrite forallb_app, D1, F1|rewrite len_app; lia].
Qed.

Lemma short_identifier s : IDENTIFIER_RE s = true -> short 128 s.
Proof.
  unfold IDENTIFIER_RE. destruct s as [|c s]; [done|]. rewrite !andb_true_iff. intros [[Hc Hs] Hl]. apply Nat.leb_le in Hl.
  assert (S : forall c, is_identifier_char c = true -> simple_char c = true).
  { intros x Hx. unfold is_identifier_char, upper, lower, is_digit in Hx. rewrite !orb_true_iff, !andb_true_iff, !Z.leb_le, !Z.eqb_eq in Hx.
    unfold simple_char. rewrite !andb_true_iff, !negb_true_iff, Z.leb_le, !Z.eqb_neq, Z.ltb_lt. lia. }
  split; [|rewrite len_cons; unfold len; lia]. cbn [forallb]. rewrite S by (unfold is_identifier_char; by rewrite Hc). cbn [andb].
  apply forallb_forall. intros x Hx. apply S. by apply forallb_forall with (x := x) in Hs.
Qed.

(** The texts of a table, checked once. *)
Lemma short_in n (l : list str) s : forallb (fun s => forallb simple_char s && (len s <=? n)) l = true -> s ∈ l -> short n s.
Proof. intros H Hs. apply short_text. apply (proj1 (forallb_forall _ _) H). by apply list_elem_of_In. Qed.

Lemma pinned_short v b os : pinned_run PINNED_RUNS v b = Some os -> short 16 v /\ short 16 b /\ short 16 os.
Proof.
  intros H. assert (C : forall l, Forall (fun r => short 16 (fst (fst r)) /\ short 16 (snd (fst r)) /\ short 16 (snd r)) l ->
    pinned_run l v b = Some os -> short 16 v /\ short 16 b /\ short 16 os).
  { clear H. intros l F. induction F as [|[[v' b'] os'] l Hr F IH]; [done|]. cbn [pinned_run]. destruct (_ && _) eqn:E; [|exact IH].
    apply andb_prop in E as [->%str_eqb_eq ->%str_eqb_eq]. intros [= ->]. exact Hr. }
  apply (C PINNED_RUNS); [|exact H]. repeat constructor; by apply short_text.
Qed.

Lemma observed_short plist_loads runner e : _observe_environment plist_loads runner = Ok e ->
  short 16 (en_os e) /\ short 16 (en_macos_version e) /\ short 16 (en_macos_build e) /\ short 64 (en_machine_sha256 e).
Proof.
  unfold _observe_environment. intros H. inv_bind H. apply collect_machine_ok in E as (_ & _ & M). do 3 inv_bind H.
  destruct (negb _) in H; [discriminate H|]. destruct (pinned_run _ _ _) as [os|] eqn:P; [|discriminate H]. injection H as <-.
  apply pinned_short in P as (P1 & P2 & P3). cbn [en_os en_macos_version en_macos_build en_machine_sha256]. by repeat (split; [done|]); apply short_digest.
Qed.

Lemma harness_short h x : assoc EXPECTED_REPORTS h = Some x -> short 16 h /\ short 64 (fst x).
Proof.
  intros H%assoc_in. assert (C : forallb (fun kv => forallb simple_char (fst kv) && (len (fst kv) <=? 16) &&
    (forallb simple_char (fst (snd kv)) && (len (fst (snd kv)) <=? 64))) EXPECTED_REPORTS = true) by (vm_compute; reflexivity).
  apply forallb_forall with (x := (h, x)) in C; [|by apply list_elem_of_In]. cbn [fst snd] in C. apply andb_prop in C as [C1 C2].
  split; by apply short_text.
Qed.

Lemma catalogue_short : Forall (fun l => forallb (fun s => forallb simple_char s && (len s <=? 96)) l = true)
  [EXPECTED_LIFECYCLE_RAW_SUBJECTS; EXPECTED_PACKET_RAW_SUBJECTS ++ OPTIONAL_PACKET_RAW_SUBJECTS; REQUIRED_ADVERSARIAL_RAW_SUBJECTS;
   REQUIRED_PERFORMANCE_SUBJECTS].
Proof. repeat constructor. Qed.

(** The harness and the subject of an artifact of a complete receipt. *)
Lemma subject_short ws w : complete_subjects ws = true -> Forall raw_fits ws -> w ∈ ws -> short 16 (wb_harness w) /\ short 96 (wb_subject w).
Proof.
  intros C F Hw. rewrite Forall_forall in F. destruct (raw_harness w (F w Hw)) as (h & Hh & E).
  assert (S : wb_subject w ∈ subjects_of h ws) by (apply subjects_of_elem; exists w; unfold identity; by rewrite E).
  unfold complete_subjects in C. rewrite !andb_true_iff in C. destruct C as (((CL & _ & CP) & CA) & CF).
  apply andb_prop in CL as [CL _], CA as [CA _], CF as [CF _]. apply subset_spec in CL, CP, CA, CF.
  pose proof catalogue_short as T. rewrite !Forall_cons in T. destruct T as (SL & SP & SA & SF & _). rewrite E.
  unfold HARNESS_NAMES in Hh. rewrite !elem_of_cons, elem_of_nil in Hh.
  destruct Hh as [-> | [-> | [-> | [-> | []]]]]; (split; [by apply short_text|]);
    [eapply short_in; [exact SA|by apply CA]|eapply short_in; [exact SL|by apply CL]|eapply short_in; [exact SP|by apply CP]|eapply short_in; [exact SF|by apply CF]].
Qed.

Lemma bounded_descriptor k d : (exists x, parse_descriptor x = Some d) -> bounded (S k) 659 (descriptor_as_dict d).
Proof.
  intros [x H]. apply parse_descriptor_spec in H as (spec & HK & _ & HZ & HC & HL & HS). apply kind_bounds in HK as (K1 & K2 & K3).
  apply components_simple in HC. unfold descriptor_as_dict. eapply bounded_weaken.
  - bound_object; [apply (bounded_text _ 33); by split|apply (bounded_text _ 512); by split|apply bounded_int; lia|apply (bounded_text _ 64), short_digest, HS].
  - vm_compute. discriminate.
Qed.

Lemma bounded_raw w : short 16 (wb_harness w) -> short 96 (wb_subject w) -> (exists x, parse_descriptor x = Some (wb_descriptor w)) ->
  bounded 2 820 (raw_json w).
Proof.
  intros H S D. unfold raw_json. eapply bounded_weaken.
  - bound_object; [apply (bounded_text _ 16 _ H)|apply (bounded_text _ 96 _ S)|apply (bounded_descriptor 0 _ D)].
  - vm_compute. discriminate.
Qed.

Lemma bounded_report r : report_fits r -> report_timely r -> (exists x, parse_descriptor x = Some (rb_descriptor r)) -> bounded 2 1100 (report_json r).
Proof.
  intros F (T1 & T2 & T3 & _) D. unfold report_fits in F. apply harness_short in F as [F1 F2]. cbn [fst] in F2. unfold report_json. eapply bounded_weaken.
  - bound_object; [apply (bounded_text _ 16 _ F1)|apply (bounded_text _ 64 _ F2)|apply (bounded_text _ 28), short_timely, T1|
      apply (bounded_text _ 28), short_timely, T2|apply (bounded_text _ 28), short_timely, T3|apply (bounded_descriptor 0 _ D)].
  - vm_compute. discriminate.
Qed.

Lemma bounded_candidate reading c : candidate_ok reading c -> bounded 1 500 (candidate_json c).
Proof.
  intros [V B A S M T _]. unfold candidate_json. rewrite V, B. eapply bounded_weaken.
  - bound_object; [apply (bounded_text _ 16); by apply short_text|apply (bounded_text _ 16); by apply short_text|apply (bounded_text _ 64), short_digest, A|
      apply (bounded_text _ 64), short_digest, S|apply (bounded_text _ 64), short_digest, M|apply (bounded_text _ 28), short_timely, T].
  - vm_compute. discriminate.
Qed.

(** ** The requests *)

(** What [_validated_receipt_bindings] returns is read from descriptors. *)
Record accepted (c k : str) (rs : list report_binding) (ws : list raw_binding) : Prop := {
  ac_window : timely c /\ timely k;
  ac_reports : Forall (fun r => bounded 2 1100 (report_json r)) rs;
  ac_raw : Forall (fun w => bounded 2 820 (raw_json w)) ws;
  ac_counts : len rs = 4 /\ 265 <= len ws <= 267
}.

Lemma accepted_bindings material built initialized nonce_at now c k rs ws :
  _validated_receipt_bindings material built initialized nonce_at now = Ok (c, k, rs, ws) -> accepted c k rs ws.
Proof.
  intros H. apply validated_bindings_exact in H as (_ & _ & (TC & TK & _) & vr & vw & rs' & ws' & _ & _ & R & W & [[N E] F T _ RF _ D C _] & -> & ->).
  assert (PR : sort_reports rs' ≡ₚ rs') by apply merge_sort_Permutation. pose proof (sort_raw_perm ws') as PW. constructor; [by split|..].
  - rewrite PR. clear -R F T. induction R as [|v r vr rs (b & _ & _ & _ & _ & _ & _ & X) R IH]; [constructor|].
    apply Forall_cons in F as [F1 F], T as [T1 T]. constructor; [|by apply IH]. apply bounded_report; [done|done|]. by eexists.
  - rewrite PW. assert (S : Forall (fun w => short 16 (wb_harness w) /\ short 96 (wb_subject w)) ws').
    { apply Forall_forall. intros w Hw. by eapply subject_short. }
    clear -W S. induction W as [|v w vw ws (b & _ & _ & _ & X) W IH]; [constructor|]. apply Forall_cons in S as [[S1 S2] S].
    constructor; [|by apply IH]. apply bounded_raw; [done|done|]. by eexists.
  - pose proof (complete_count ws' D RF C) as L. unfold len in *. rewrite (Permutation_length PR), (Permutation_length PW). split; [|exact L].
    rewrite <-(length_map rb_harness), (Permutation_length (NoDup_Permutation _ REPORT_HARNESSES N ltac:(apply (bool_decide_eq_true_1 _); vm_compute; reflexivity) E)).
    reflexivity.
Qed.

Lemma bounded_request_json plist_loads runner ck r : context_ok plist_loads runner ck (rq_context r) -> is_sha256 (rq_run_nonce r) = true ->
  accepted (rq_captured_at r) (rq_completed_at r) (rq_reports r) (rq_raw_artifacts r) -> bounded 4 230000 (request_json r).
Proof.
  intros [_ C I O _ _] N [[T1 T2] R W [LR LW]]. apply observed_short in O as (O1 & O2 & O3 & O4). unfold request_json, request_run. eapply bounded_weaken.
  - bound_object.
    + apply (bounded_int _ 1). lia.
    + apply (bounded_deepen 1); [|lia]. exact (bounded_candidate _ _ C).
    + apply (bounded_deepen 1); [|lia]. apply (bounded_weaken _ 600); [|reflexivity]. eapply bounded_weaken.
      * bound_object; [apply (bounded_text _ 16 _ O1)|apply (bounded_text _ 16 _ O2)|apply (bounded_text _ 16 _ O3)|apply (bounded_text _ 64 _ O4)|
          apply bounded_bool|apply (bounded_text _ 28), short_timely, T1|apply (bounded_text _ 28), short_timely, T2|
          apply (bounded_text _ 128), short_identifier, I|apply (bounded_text _ 64), short_digest, N].
      * vm_compute. discriminate.
    + apply (bounded_list _ 1100 4); [by apply Forall_map|unfold len in *; rewrite length_map; lia|lia].
    + apply (bounded_list _ 820 267); [by apply Forall_map|unfold len in *; rewrite length_map; lia|lia].
  - vm_compute. discriminate.
Qed.

Lemma nonce_is_digest response observed reading n at_ : validate_nonce_response response observed reading = Ok (n, at_) -> is_sha256 (nc_run_nonce n) = true.
Proof.
  unfold validate_nonce_response. intros H. destruct (mbind _ _) as [[l x]|] eqn:E in H; [|discriminate H].
  inv_bind E. inv_bind E. injection E as -> ->. apply digest_field_ok in E1 as [_ D].
  destruct (negb _) in H; [discriminate H|]. inv_bind H. cbv zeta in H. destruct (_ <=? _) in H; [discriminate H|].
  do 2 (destruct (_ <? _) in H; [discriminate H|]). injection H as <- _. exact D.
Qed.

Section Built.
Context (plist_loads : bytes -> plist_result) (runner : Runner) (ck : clock) (value response bindings : json) (observed : option Z).
Context (c : context) (n : nonce) (nonce_at : Z) (material : list (str * json)) (cap comp : str).
Context (rs : list report_binding) (ws : list raw_binding).
Hypothesis HC : validate_context plist_loads runner ck value = Ok c.
Hypothesis HN : validate_nonce_response response observed (ck_nonce ck) = Ok (n, nonce_at).
Hypothesis HM : exact_object bindings BINDINGS_FIELDS = Some material.
Hypothesis HS : json_eq_int (member material "schema_version") 1 = true.
Hypothesis HV : _validated_receipt_bindings material (time_of (ca_built_at (cx_candidate c))) (time_of (cx_initialized_at c)) nonce_at
  (_observation_time observed (ck_request ck)) = Ok (cap, comp, rs, ws).

Definition request : receipt_request :=
  {| rq_context := c; rq_captured_at := cap; rq_completed_at := comp; rq_run_nonce := nc_run_nonce n; rq_reports := rs; rq_raw_artifacts := ws |}.

Lemma request_encoded : exists data, canonical_json (request_json request) = Some data /\ len data <= 230000.
Proof using HC HN HV.
  pose proof (accepted_bindings _ _ _ _ _ _ _ _ _ HV) as A. pose proof (nonce_is_digest _ _ _ _ _ HN) as D.
  pose proof (proj2 (proj1 (validate_context_exact _ _ _ _ _) HC)) as CO.
  apply (bounded_encoded 4); [|unfold MAX_JSON_DEPTH; lia]. by eapply bounded_request_json.
Qed.

Lemma request_built : build_receipt_request plist_loads runner ck value response bindings observed = Ok request.
Proof using HC HN HM HS HV.
  destruct request_encoded as (data & E & L). pose proof (proj2 (proj1 (validate_context_exact _ _ _ _ _) HC)) as CO.
  unfold build_receipt_request. rewrite HC. cbn [mbind result_bind]. rewrite HN. cbn [mbind result_bind]. cbv zeta. rewrite HM. cbn [of_raw mbind result_bind].
  rewrite HS. cbn [negb]. destruct (timely_timestamp _ (cok_built _ _ (xok_candidate _ _ _ _ CO))) as (t1 & -> & V1).
  destruct (timely_timestamp _ (xok_initialized _ _ _ _ CO)) as (t2 & -> & V2). cbn [mbind result_bind]. rewrite V1, V2, HV. cbn [mbind result_bind].
  fold request. unfold _bounded_request. rewrite E. cbn [of_raw mbind result_bind].
  rewrite (proj2 (Z.ltb_ge _ _)) by (change MAX_COLLECTOR_REQUEST_BYTES with 1048576; lia). reflexivity.
Qed.
End Built.

(** C25: The size of a receipt request is never the reason it is refused.  When the
    context, the nonce response and the bindings are accepted, four reports and
    between 265 and 267 raw artifacts are bound, and the request is returned: its
    canonical encoding exists and has at most 230,000 bytes, where
    [_bounded_request] allows 1 MiB with the newline. *)
Theorem receipt_request_always_fits plist_loads runner ck value response bindings observed c n nonce_at material cap comp rs ws :
  validate_context plist_loads runner ck value = Ok c ->
  validate_nonce_response response observed (ck_nonce ck) = Ok (n, nonce_at) ->
  exact_object bindings BINDINGS_FIELDS = Some material -> json_eq_int (member material "schema_version") 1 = true ->
  _validated_receipt_bindings material (time_of (ca_built_at (cx_candidate c))) (time_of (cx_initialized_at c)) nonce_at
    (_observation_time observed (ck_request ck)) = Ok (cap, comp, rs, ws) ->
  build_receipt_request plist_loads runner ck value response bindings observed = Ok (request c n cap comp rs ws) /\
  len rs = 4 /\ 265 <= len ws <= 267 /\
  exists data, canonical_json (request_json (request c n cap comp rs ws)) = Some data /\ len data <= 230000.
Proof.
  intros HC HN HM HS HV. pose proof (accepted_bindings _ _ _ _ _ _ _ _ _ HV) as [_ _ _ [L1 L2]].
  split; [by eapply request_built|]. split; [exact L1|]. split; [exact L2|]. by eapply request_encoded.
Qed.

(** ** The sample receipt *)

Definition sample_request (e : environment) (p : str) : receipt_request :=
  request (Demo.context e p) Sample.nonce (bd_captured_at Sample.bindings) (bd_completed_at Sample.bindings) Sample.reports (sort_raw Sample.raws).

Lemma receipt_request_always_fits_witness : exists e p,
  build_receipt_request Demo.plist_loads Demo.runner Demo.ck (context_json (Demo.context e p)) Sample.answer (bindings_json Sample.bindings)
    (Some (Sample.at_hour 5)) = Ok (sample_request e p) /\
  len Sample.reports = 4 /\ 265 <= len (sort_raw Sample.raws) <= 267 /\
  exists data, canonical_json (request_json (sample_request e p)) = Some data /\ len data <= 230000.
Proof.
  destruct Demo.validates as (e & p & V). exists e, p.
  exact (receipt_request_always_fits Demo.plist_loads Demo.runner Demo.ck _ Sample.answer (bindings_json Sample.bindings) (Some (Sample.at_hour 5))
    (Demo.context e p) Sample.nonce (Sample.at_hour 3) _ _ _ _ _ V (Sample.nonce_ok _) eq_refl eq_refl Sample.validated).
Defined.

Lemma sample_request_built : exists e p,
  build_receipt_request Demo.plist_loads Demo.runner Demo.ck (context_json (Demo.context e p)) Sample.answer (bindings_json Sample.bindings)
    (Some (Sample.at_hour 5)) = Ok (sample_request e p).
Proof.
  destruct Demo.validates as (e & p & V). exists e, p.
  exact (request_built Demo.plist_loads Demo.runner Demo.ck _ Sample.answer (bindings_json Sample.bindings) (Some (Sample.at_hour 5))
    (Demo.context e p) Sample.nonce (Sample.at_hour 3) _ _ _ _ _ V (Sample.nonce_ok _) eq_refl eq_refl Sample.validated).
Qed.
