(* ===== verification/Revalidation.v ===== *)
(** * A receipt request is accepted again

    Between the one-shot request for a receipt and the run record, the request
    is read back from the archive and validated by
    [_validated_receipt_request] of src/scripts/physical_capture/composition.py.
    The request [build_receipt_request] built from composed bindings passes, both
    as it was built and as it is read back. *)

From S2P Require Import Prelude Sha256 Text Json DateTime Effects Base64 Ps256 TrustPolicy PolicyProofs Archive Observation ObservationProofs.
From S2P Require Import Python Copies Documents Timestamp Identity Catalogue CollectorRequest Composition CollectorProofs ReceiptProofs ContextProofs Sample RequestBounds.

Open Scope Z_scope.
Open Scope list_scope.

(** ** The map of reports *)

Definition entry_of (v : json) (r : report_binding) (e : str * json) : Prop :=
  fst e = rb_harness r /\
  exists b, exact_object (snd e) REPORT_FIELDS = Some b /\
    member b "tool_version" = JStr (rb_tool_version r) /\ member b "captured_at" = JStr (rb_captured_at r) /\
    member b "completed_at" = JStr (rb_completed_at r) /\ member b "signed_at" = JStr (rb_signed_at r) /\
    parse_descriptor (member b "artifact") = Some (rb_descriptor r).

Lemma mapped_reports_ok vr rs : Forall2 report_reads vr rs -> forall seen,
  NoDup (map fst seen ++ map rb_harness rs) -> Forall (fun r => rb_harness r ∈ REPORT_HARNESSES) rs ->
  exists es, mapped_reports seen vr = Ok (seen ++ es) /\ map fst es = map rb_harness rs /\
    Forall2 (fun e r => entry_of JNull r e) es rs.
Proof.
  induction 1 as [|v r vr rs (b & E & Hh & HV & HC & HK & HS & D) F IH]; intros seen N HF.
  - exists []. rewrite app_nil_r. done.
  - apply Forall_cons in HF as [H1 HF]. cbn [map] in N.
    assert (M : mem (rb_harness r) (map fst seen) = false).
    { apply mem_false. intros H. apply NoDup_app in N as (_ & N & _). apply (N _ H). by left. }
    set (e := (rb_harness r, JObj [(u "tool_version", member b "tool_version"); (u "captured_at", member b "captured_at");
                         (u "completed_at", member b "completed_at"); (u "signed_at", member b "signed_at");
                         (u "artifact", member b "descriptor")])).
    assert (E1 : mapped_report seen v = Ok e).
    { unfold mapped_report, composed_object. change RECEIPT_REPORT_FIELDS with REPORT_BINDING_FIELDS. rewrite E. cbn [of_raw catch mbind result_bind].
      rewrite Hh, (proj2 (mem_spec _ _) H1), M. reflexivity. }
    destruct (IH (seen ++ [e])) as (es & E2 & K & FE); [|done|].
    { rewrite map_app. cbn [map fst e]. by rewrite <-app_assoc. }
    exists (e :: es). cbn [mapped_reports]. rewrite E1. cbn [mbind result_bind]. rewrite E2, <-app_assoc. split; [done|]. cbn [map]. split; [by rewrite K|].
    constructor; [|done]. split; [done|]. eexists. split; [reflexivity|]. exact (conj HV (conj HC (conj HK (conj HS D)))).
Qed.

Lemma mapped_entries es rs : NoDup (map rb_harness rs) -> map fst es = map rb_harness rs -> Forall2 (fun e r => entry_of JNull r e) es rs ->
  Forall (entry_reads es) rs.
Proof.
  intros N K F. apply Forall_forall. intros r Hr.
  assert (X : exists e, e ∈ es /\ entry_of JNull r e).
  { clear N K. induction F as [|e r' es rs He F IH]; [by apply elem_of_nil in Hr|]. apply elem_of_cons in Hr as [->|Hr].
    - exists e. split; [by left|done].
    - destruct (IH Hr) as (e' & ? & ?). exists e'. split; [by right|done]. }
  destruct X as ([h j] & He & Hf & b & E & R). cbn [fst snd] in *. subst h. exists b.
  rewrite (obj_get_elem es (rb_harness r) j); [|by rewrite K|done]. split; [exact E|exact R].
Qed.

(** The reports and raw artifacts of a composition, composed again. *)
Lemma compose_again vr vw rs ws : composed_ok rs ws -> Forall2 report_reads vr rs -> Forall2 raw_reads vw (sort_raw ws) ->
  len ws <= 267 ->
  exists es, mapped_reports [] vr = Ok es /\ compose_receipt_bindings (JObj es) (JList vw) = Ok (bindings_of rs ws).
Proof.
  intros O R W LW. destruct O as [RH RF RT WF WG WI G3 G4 WL].
  assert (NH : NoDup (map rb_harness rs)) by (rewrite RH; apply (bool_decide_eq_true_1 _); vm_compute; reflexivity).
  destruct (mapped_reports_ok vr rs R []) as (es & E & K & FE); [done| |].
  { apply Forall_forall. intros r Hr. rewrite <-RH. apply list_elem_of_fmap. by exists r. }
  exists es. split; [exact E|]. apply compose_exact. exists es, vw, rs, (sort_raw ws).
  split; [done|]. split; [done|]. split; [apply same_fields_spec; intros k; by rewrite K, RH|].
  assert (P : sort_raw ws ≡ₚ ws) by apply sort_raw_perm.
  split.
  { assert (L1 : length es = 4%nat) by (rewrite <-(length_map fst), K, RH; reflexivity).
    assert (L2 : length vw = length ws) by (rewrite (Forall2_length _ _ _ W); by apply Permutation_length).
    unfold len in *. rewrite L1, L2. unfold MAX_RECEIPT_ARTIFACT_COUNT. lia. }
  split; [by eapply mapped_entries|]. split; [exact W|].
  assert (SP : forall h, subjects_of h (sort_raw ws) ≡ₚ subjects_of h ws).
  { intros h. unfold subjects_of. apply (fmap_Permutation wb_subject). clear -P. induction P as [|x l m P IH|x y l|l m n P1 IH1 P2 IH2]; cbn [List.filter].
    - done.
    - destruct (str_eqb _ _); [by constructor|done].
    - destruct (str_eqb (wb_harness y) _), (str_eqb (wb_harness x) _); try done. constructor.
    - by etransitivity. }
  split.
  - constructor; [exact RH|exact RF|exact RT|by rewrite P|by rewrite P|by apply NoDup_sort_raw| | |].
    + rewrite <-G3. unfold HARNESS_NAMES. cbn [existsb].
      assert (B : forall h, bool_decide (subjects_of h (sort_raw ws) = []) = bool_decide (subjects_of h ws = [])).
      { intros h. apply bool_decide_ext. specialize (SP h). split; intros X; rewrite X in SP.
        - by apply Permutation_nil_l in SP.
        - by apply Permutation_nil_r in SP. }
      by rewrite !B.
    + apply set_eq_spec. intros x. rewrite (SP "lifecycle"%string). by apply set_eq_spec.
    + eapply ok_ledger_perm; [|exact WL]. apply Permutation_app_head. symmetry. by apply (fmap_Permutation wb_descriptor).
  - unfold bindings_of. by rewrite sort_raw_twice.
Qed.

(** ** The request *)

(** What a receipt request that was built is. *)
Lemma build_request_ok plist_loads runner ck value response bindings observed r :
  build_receipt_request plist_loads runner ck value response bindings observed = Ok r ->
  exists material nonce_at, exact_object bindings BINDINGS_FIELDS = Some material /\
    validate_context plist_loads runner ck value = Ok (rq_context r) /\ is_sha256 (rq_run_nonce r) = true /\
    _validated_receipt_bindings material (time_of (ca_built_at (cx_candidate (rq_context r)))) (time_of (cx_initialized_at (rq_context r)))
      nonce_at (_observation_time observed (ck_request ck)) = Ok (rq_captured_at r, rq_completed_at r, rq_reports r, rq_raw_artifacts r).
Proof.
  unfold build_receipt_request. intros H. inv_bind H. rename E into EC, v into c. inv_bind H. destruct v as [n at_]. rename E into EN.
  cbv zeta in H. inv_bind H. apply of_raw_some in E. rename E into EM, v into material. destruct (negb _) in H; [discriminate H|].
  inv_bind H. apply timestamp_text in E as (_ & _ & T1). inv_bind H. apply timestamp_text in E as (_ & _ & T2). cbn [json_text] in T1, T2. rewrite T1, T2 in H.
  inv_bind H. destruct v1 as [[[cap comp] reports] raws]. inv_bind H. injection H as <-.
  exists material, at_. cbn [rq_context rq_run_nonce rq_captured_at rq_completed_at rq_reports rq_raw_artifacts].
  split; [exact EM|]. split; [exact EC|]. split; [exact (nonce_is_digest _ _ _ _ _ EN)|exact E].
Qed.

(** Composed bindings that are validated stay as they were composed. *)
Lemma composed_validated b rs ws material built initialized nonce_at now c k reports raws :
  b = bindings_of rs ws -> composed_ok rs ws -> Forall (fun r => exists x, parse_descriptor x = Some (rb_descriptor r)) rs ->
  Forall (fun w => exists x, parse_descriptor x = Some (wb_descriptor w)) ws ->
  exact_object (bindings_json b) BINDINGS_FIELDS = Some material ->
  _validated_receipt_bindings material built initialized nonce_at now = Ok (c, k, reports, raws) ->
  c = bd_captured_at b /\ k = bd_completed_at b /\ reports = rs /\ raws = sort_raw ws /\ run_bounds built initialized nonce_at now c k /\
  len ws <= 267.
Proof.
  intros -> O DR DW EM H. injection EM as <-. apply validated_bindings_exact in H as (HC & HK & B & vr & vw & rs' & ws' & HR & HW & R & W & RO & -> & ->).
  injection HC as <-. injection HK as <-. injection HR as <-. injection HW as <-. cbn [bindings_of bd_reports bd_raw_artifacts] in R, W.
  assert (rs' = rs) as ->.
  { eapply (Forall2_inj report_reads); [exact report_reads_inj|exact R|]. clear -DR. induction DR; constructor; [|done]. apply report_copy; [done|by left]. }
  assert (P : sort_raw ws ≡ₚ ws) by apply sort_raw_perm.
  assert (ws' = sort_raw ws) as ->.
  { eapply (Forall2_inj raw_reads); [exact raw_reads_inj|exact W|]. rewrite <-P in DW. clear -DW. induction DW; constructor; [|done]. apply raw_copy; [done|by left]. }
  rewrite (sort_reports_id rs (co_harnesses _ _ O)), (sort_raw_twice ws (co_distinct _ _ O)).
  do 4 (split; [done|]). split; [exact B|].
  pose proof (complete_count _ (ro_distinct _ _ _ RO) (ro_raw_fits _ _ _ RO) (ro_complete _ _ _ RO)) as L.
  unfold len in *. rewrite (Permutation_length P) in L. lia.
Qed.

Lemma request_copy v r : copy_of v (request_json r) ->
  exists m run, exact_object v RECEIPT_REQUEST_KEYS = Some m /\ member m "schema_version" = JInt 1 /\
    copy_of (member m "candidate") (candidate_json (cx_candidate (rq_context r))) /\
    exact_object (member m "run") RECEIPT_RUN_FIELDS = Some run /\
    (forall k, member run k = member (dict_items (request_run r)) k) /\
    copy_of (member m "reports") (JList (map report_json (rq_reports r))) /\
    copy_of (member m "raw_artifacts") (JList (map raw_json (rq_raw_artifacts r))).
Proof.
  intros V. apply (copy_dict _ _ RECEIPT_REQUEST_KEYS) in V as (m & E & F); [|distinct_names|vm_compute; reflexivity].
  pose proof (F "run"%string) as R. apply (copy_dict _ _ RECEIPT_RUN_FIELDS) in R as (run & ER & FR); [|distinct_names|vm_compute; reflexivity].
  exists m, run. split; [exact E|]. split; [apply copy_int, (F "schema_version"%string)|]. split; [exact (F "candidate"%string)|].
  split; [exact ER|]. split; [|split; [exact (F "reports"%string)|exact (F "raw_artifacts"%string)]].
  intros k. destruct (FR k) as [-> | ->]; [done|]. unfold member, request_run, dict_items.
  cbn [obj_get]. repeat (destruct (str_eqb _ (u k)); [done|]). done.
Qed.

Lemma py_eq_text s : py_eq (JStr s) (JStr s) = true.
Proof. cbn. apply str_eqb_refl. Qed.

Lemma list_copies {A} (f : A -> json) (R : json -> A -> Prop) v l : copy_of v (JList (map f l)) ->
  Forall (fun a => forall w, copy_of w (f a) -> R w a) l -> exists m, v = JList m /\ Forall2 R m l.
Proof.
  intros V F. apply copy_list in V as (m & -> & M). exists m. split; [done|]. revert m M. induction F as [|a l Ha F IH]; intros m M.
  - inversion M. constructor.
  - inversion M; subst. constructor; [by apply Ha|by apply IH].
Qed.

Lemma distinct_list {A} (f : A -> json) l : (forall a, distinct_keys (f a) = true) -> distinct_keys (JList (map f l)) = true.
Proof. intros H. cbn [distinct_keys]. induction l as [|a l IH]; [done|]. cbn [map forallb]. by rewrite H, IH. Qed.

Lemma agreed r run : (forall k, member run k = member (dict_items (request_run r)) k) ->
  existsb (fun field => negb (py_eq (member run field) (context_field (rq_context r) field))) AGREED_FIELDS = false.
Proof.
  intros CR. assert (T : forall field s, member (dict_items (request_run r)) field = JStr s -> context_field (rq_context r) field = JStr s ->
    negb (py_eq (member run field) (context_field (rq_context r) field)) = false).
  { intros field s E1 E2. by rewrite CR, E1, E2, py_eq_text. }
  unfold AGREED_FIELDS. cbn [existsb]. rewrite (T "os"%string _ eq_refl eq_refl), (T "macos_version"%string _ eq_refl eq_refl),
    (T "macos_build"%string _ eq_refl eq_refl), (T "machine_sha256"%string _ eq_refl eq_refl), (T "run_id"%string _ eq_refl eq_refl), CR. reflexivity.
Qed.

Lemma distinct_candidate c : distinct_keys (candidate_json c) = true.
Proof. vm_compute. reflexivity. Qed.
Lemma distinct_report r : distinct_keys (report_json r) = true.
Proof. vm_compute. reflexivity. Qed.
Lemma distinct_raw w : distinct_keys (raw_json w) = true.
Proof. vm_compute. reflexivity. Qed.

(** The document is accepted against the context of the request, and read as
    this request and these bindings. *)
Definition revalidated (v : json) (r : receipt_request) (b : receipt_bindings) : Prop :=
  _validated_receipt_request v (rq_context r) = Ok (r, b).

(** C18: The receipt request that [build_receipt_request] makes of composed
    bindings is accepted by [_validated_receipt_request] against its context,
    both as it was built and as it is read back from its canonical encoding, and
    it is read as the same request and the same bindings: the sorted reports and
    raw artifacts, the window of the run and the nonce survive the archive. *)
Theorem request_revalidates plist_loads runner ck value response observed reports raws b r v :
  compose_receipt_bindings reports raws = Ok b ->
  build_receipt_request plist_loads runner ck value response (bindings_json b) observed = Ok r ->
  copy_of v (request_json r) ->
  revalidated v r b.
Proof.
  intros HB HR V. apply compose_exact in HB as (entries & values & rs & ws & _ & _ & _ & _ & RE & WE & O & Eb).
  apply build_request_ok in HR as (material & nonce_at & EM & HC & HN & HV). apply validate_context_exact in HC as [_ HC].
  assert (DR : Forall (fun r => exists x, parse_descriptor x = Some (rb_descriptor r)) rs).
  { eapply Forall_impl; [exact RE|]. intros x (l & _ & _ & _ & _ & _ & D). by eexists. }
  assert (DW : Forall (fun w => exists x, parse_descriptor x = Some (wb_descriptor w)) ws).
  { clear -WE. induction WE as [|x w values ws (l & _ & _ & _ & D) F IH]; constructor; [by eexists|done]. }
  destruct (composed_validated _ _ _ _ _ _ _ _ _ _ _ _ Eb O DR DW EM HV) as (E1 & E2 & E3 & E4 & (TC & TK & _ & _ & TCK & _) & LW).
  destruct (request_copy v r V) as (m & run & EO & ES & CC & ER & CR & CP & CW).
  destruct (list_copies report_json report_reads _ _ CP) as (vr & EVR & FR).
  { rewrite E3. eapply Forall_impl; [exact DR|]. intros x D w. by apply report_copy. }
  destruct (list_copies raw_json raw_reads _ _ CW) as (vw & EVW & FW).
  { rewrite E4, sort_raw_perm. eapply Forall_impl; [exact DW|]. intros x D w. by apply raw_copy. }
  rewrite E3 in FR. rewrite E4 in FW. destruct (compose_again vr vw rs ws O FR FW LW) as (es & M & A). rewrite <-Eb in A.
  unfold revalidated, _validated_receipt_request, composed_object. rewrite EO. cbn [of_raw catch mbind result_bind]. rewrite ES.
  change (json_eq_int (JInt 1) COLLECTOR_REQUEST_SCHEMA_VERSION) with true. cbn [negb].
  rewrite (py_eq_copy _ _ (distinct_candidate _) CC). cbn [negb]. rewrite ER. cbn [of_raw catch mbind result_bind]. rewrite (agreed r run CR), !CR.
  change (member (dict_items (request_run r)) "clean_install") with (JBool true). cbn [negb].
  change (member (dict_items (request_run r)) "run_id") with (JStr (cx_run_id (rq_context r))).
  change (member (dict_items (request_run r)) "run_nonce") with (JStr (rq_run_nonce r)).
  change (member (dict_items (request_run r)) "captured_at") with (JStr (rq_captured_at r)).
  change (member (dict_items (request_run r)) "completed_at") with (JStr (rq_completed_at r)).
  unfold _require_identifier, _require_sha256, _parse_timestamp.
  rewrite (proj2 (require_identifier_ok _ _) (conj eq_refl (xok_run_id _ _ _ _ HC))), (proj2 (digest_field_ok _ _) (conj eq_refl HN)).
  apply timely_timestamp in TC as (tc & -> & VC), TK as (tk & -> & VK). cbn [catch mbind result_bind]. rewrite VC, VK, (proj2 (Z.ltb_ge _ _) TCK).
  assert (LR : len vr = 4).
  { unfold len. rewrite (Forall2_length _ _ _ FR), <-(length_map rb_harness), (co_harnesses _ _ O). reflexivity. }
  rewrite EVR, EVW, LR. change (4 =? len EXPECTED_REPORTS) with true. cbn [negb]. rewrite M. cbn [mbind result_bind]. rewrite A. cbn [mbind result_bind].
  rewrite (proj2 (eq_str_text _ _) (f_equal JStr E1)), (proj2 (eq_str_text _ _) (f_equal JStr E2)). cbn [negb orb].
  rewrite EVR, E3 in CP. rewrite EVW, E4 in CW. rewrite Eb. cbn [bindings_of bd_reports bd_raw_artifacts].
  rewrite (py_eq_copy _ _ (distinct_list _ _ distinct_report) CP), (py_eq_copy _ _ (distinct_list _ _ distinct_raw) CW). cbn [negb].
  clear -E1 E2 E3 E4 Eb. subst b rs. rewrite <-E1, <-E2, <-E4. by destruct r.
Qed.

Lemma request_revalidates_witness : exists e p,
  revalidated (normalize (request_json (sample_request e p))) (sample_request e p) Sample.bindings.
Proof.
  destruct sample_request_built as (e & p & B). exists e, p.
  exact (request_revalidates _ _ _ _ _ _ _ _ _ _ _ Sample.composed B (or_intror eq_refl)).
Defined.
