(* ===== verification/RecordProofs.v ===== *)
(** * Run records

    When [compose_run_record] of src/scripts/physical_capture/composition.py
    returns, and what the collector's signature on a run record covers. *)

From S2P Require Import Prelude Sha256 Text Json DateTime Effects Base64 Ps256 TrustPolicy PolicyProofs Archive Observation ObservationProofs.
From S2P Require Import Python Copies Documents Timestamp Identity Catalogue CollectorRequest Composition CollectorProofs ReceiptProofs ContextProofs Sample RequestBounds PolicyFile.

Open Scope Z_scope.
Open Scope list_scope.

(** ** A request that was validated *)

Lemma validated_request_ok v c r b : _validated_receipt_request v c = Ok (r, b) ->
  rq_context r = c /\ rq_captured_at r = bd_captured_at b /\ rq_completed_at r = bd_completed_at b /\ is_sha256 (rq_run_nonce r) = true /\
  timely (rq_captured_at r) /\ timely (rq_completed_at r) /\
  exists rs ws, composed_ok rs ws /\ b = bindings_of rs ws /\ rq_reports r = rs /\ rq_raw_artifacts r = sort_raw ws /\
    Forall (fun r => exists x, parse_descriptor x = Some (rb_descriptor r)) rs /\
    Forall (fun w => exists x, parse_descriptor x = Some (wb_descriptor w)) ws.
Proof.
  unfold _validated_receipt_request. intros H. inv_bind H. destruct (negb _) in H; [discriminate H|]. destruct (negb _) in H; [discriminate H|].
  inv_bind H. destruct (existsb _ _) in H; [discriminate H|]. destruct (negb _) in H; [discriminate H|]. inv_bind H. inv_bind H.
  apply catch_ok, digest_field_ok in E2 as [_ HN]. inv_bind H. apply catch_ok, timestamp_text in E2 as (C1 & C2 & _).
  inv_bind H. apply catch_ok, timestamp_text in E2 as (K1 & K2 & _). destruct (_ <? _) in H; [discriminate H|].
  destruct (member v0 "reports") as [| | | | |vr|]; try discriminate H. destruct (negb _) in H; [discriminate H|]. inv_bind H. inv_bind H.
  destruct (_ || _) eqn:G in H; [discriminate H|]. apply orb_false_iff in G as [G1%eq_str_inv G2%eq_str_inv].
  destruct (negb _) in H; [discriminate H|]. destruct (negb _) in H; [discriminate H|]. injection H as <- <-.
  cbn [rq_context rq_captured_at rq_completed_at rq_run_nonce rq_reports rq_raw_artifacts].
  rewrite G1 in C2. rewrite G2 in K2. do 4 (split; [done|]). split; [exact C2|]. split; [exact K2|].
  apply compose_exact in E3 as (es & vs & rs & ws & _ & _ & _ & _ & RE & WE & O & ->). exists rs, ws.
  split; [exact O|]. split; [done|]. split; [done|]. split; [done|]. split.
  - eapply Forall_impl; [exact RE|]. intros x (l & _ & _ & _ & _ & _ & D). by eexists.
  - clear -WE. induction WE as [|x w values ws (l & _ & _ & _ & D) F IH]; constructor; [by eexists|done].
Qed.

(** ** When a record is composed *)

Lemma each_ok {A} (f : A -> result pyexn ()) l : each f l = Ok () <-> Forall (fun a => f a = Ok ()) l.
Proof.
  induction l as [|a l IH]; [split; [constructor|done]|]. cbn [each]. rewrite Forall_cons, <-IH.
  destruct (f a) as [[]|]; cbn [mbind result_bind]; split; [done|by intros [_ ?]|done|by intros [? _]].
Qed.

Lemma signed_later_ok t r : timely (rb_signed_at r) -> signed_later t r = Ok () <-> time_of (rb_signed_at r) <= t.
Proof.
  intros T. apply timely_timestamp in T as (s & E & V). unfold signed_later, _parse_timestamp. rewrite E. cbn [catch mbind result_bind].
  rewrite V. destruct (t <? _) eqn:L; [apply Z.ltb_lt in L|apply Z.ltb_ge in L]; split; try done; lia.
Qed.

(** A text [_format_timestamp] writes. *)
Definition whole_second (s : str) : Prop := exists t, read_stamp s = Some t /\ st_micro t = 0 /\ _format_timestamp t = s.

(** The document and the response that a record is composed from. *)
Record record_accepted (plist_loads : bytes -> plist_result) (runner : Runner) (policy_file : result pyexn bytes) (ck : clock) (now : Z)
  (value request response : json) (r : run_record) : Prop := {
  ra_context : validate_context plist_loads runner ck value = Ok (rq_context (rr_request r));
  ra_policy : load_source_pinned_policy policy_file = Ok (rr_policy r);
  ra_profile : cx_profile_sha256 (rq_context (rr_request r)) = tp_evidence_profile_sha256 (rr_policy r);
  ra_request : exists b, _validated_receipt_request request (rq_context (rr_request r)) = Ok (rr_request r, b);
  ra_second : whole_second (rr_signed_at r);
  ra_order : time_of (rq_completed_at (rr_request r)) <= time_of (rr_signed_at r) <= now;
  ra_reports : Forall (fun b => time_of (rb_signed_at b) <= time_of (rr_signed_at r)) (rq_reports (rr_request r));
  ra_signed : exists l payload, exact_object response RECEIPT_RESPONSE_FIELDS = Some l /\
    member l "schema_version" = JInt COLLECTOR_REQUEST_SCHEMA_VERSION /\ member l "signed_at" = JStr (rr_signed_at r) /\
    member l "signature" = JStr (rr_signature r) /\ canonical_json (_receipt_payload r) = Some payload /\
    member l "receipt_sha256" = JStr (hexdigest payload) /\
    is_Some (verify_ps256 payload (JStr (rr_signature r)) (tp_modulus (rr_policy r)) (tp_exponent (rr_policy r)))
}.

(** The conditions on a run record are those of its composition. *)
Lemma composed_record plist_loads runner policy_file ck now value request response r :
  compose_run_record plist_loads runner policy_file ck now value request response = Ok r <->
  record_accepted plist_loads runner policy_file ck now value request response r.
Proof.
  unfold compose_run_record. split.
  - intros H. inv_bind H. apply catch_ok in E. inv_bind H. apply catch_ok in E0. destruct (negb _) eqn:G in H; [discriminate H|].
    apply negb_false_iff, str_eqb_eq in G. inv_bind H. destruct v1 as [q b]. pose proof (validated_request_ok _ _ _ _ E1) as
      (QC & _ & _ & _ & _ & QT & rs & ws & O & QB & QR & _). inv_bind H. apply catch_ok, of_raw_some in E2.
    destruct (negb _) eqn:G1 in H; [discriminate H|]. apply eq_int_inv in G1. inv_bind H. apply catch_ok, timestamp_ok in E3 as (s & S1 & S2).
    destruct (_ || _) eqn:G2 in H; [discriminate H|]. apply orb_false_iff in G2 as [G2 G3]. apply negb_false_iff, Z.eqb_eq in G2. apply eq_str_inv in G3.
    destruct (_ <? _) eqn:G4 in H; [discriminate H|]. apply Z.ltb_ge in G4. inv_bind H. apply catch_ok, timestamp_text in E3 as (_ & _ & K). cbn [json_text] in K.
    destruct (_ <? _) eqn:G5 in H; [discriminate H|]. apply Z.ltb_ge in G5. inv_bind H. destruct v4. apply each_ok in E3.
    inv_bind H. apply catch_ok, digest_field_ok in E4 as [D1 _]. destruct (member v1 "signature") as [| | | |sg| |] eqn:SG; try discriminate H.
    cbv zeta in H. inv_bind H. apply of_raw_some in E4. destruct (negb _) eqn:G6 in H; [discriminate H|]. apply negb_false_iff, str_eqb_eq in G6.
    destruct (verify_ps256 _ _ _ _) eqn:G7 in H; [|discriminate H]. injection H as <-.
    assert (TS : time_of s = moment v2) by (unfold time_of; by rewrite S2). rewrite S1 in *. cbn [json_text] in *. injection G3 as G3.
    constructor; cbn [rr_request rr_policy rr_signed_at rr_signature].
    + by rewrite QC.
    + exact E0.
    + by rewrite QC.
    + exists b. by rewrite QC.
    + by exists v2.
    + rewrite TS, <-K. by split.
    + rewrite QR. rewrite QB in E3. cbn [bindings_of bd_reports] in E3. apply Forall_forall. intros x Hx. rewrite Forall_forall in E3. rewrite TS.
      apply signed_later_ok; [|by apply E3]. pose proof (co_timely _ _ O) as T. rewrite Forall_forall in T. by destruct (T x Hx) as (_ & _ & ? & _).
    + exists v1. eexists. split; [exact E2|]. split; [exact G1|]. split; [exact S1|]. split; [exact SG|]. split; [exact E4|]. rewrite G6, G7. split; [exact D1|by eexists].
  - intros [C P F [b Q] (t & T1 & T2 & T3) [O1 O2] R (l & payload & EL & L1 & L2 & L3 & EP & L4 & [x V])].
    pose proof (validated_request_ok _ _ _ _ Q) as (_ & _ & _ & _ & _ & QT & rs & ws & CO & QB & QR & _).
    rewrite C. cbn [catch mbind result_bind]. unfold _source_pinned_policy. rewrite P. cbn [catch mbind result_bind]. rewrite F, str_eqb_refl. cbn [negb].
    rewrite Q. cbn [mbind result_bind]. unfold composed_object. rewrite EL. cbn [of_raw catch mbind result_bind]. rewrite L1, L2.
    change (json_eq_int (JInt COLLECTOR_REQUEST_SCHEMA_VERSION) COLLECTOR_REQUEST_SCHEMA_VERSION) with true. cbn [negb].
    assert (ET : _parse_timestamp (JStr (rr_signed_at r)) = Ok t) by (unfold _parse_timestamp, _timestamp; by rewrite T1). rewrite ET. cbn [mbind result_bind].
    rewrite T2, T3, (proj2 (eq_str_text _ _) eq_refl). cbn [Z.eqb negb orb].
    assert (TS : time_of (rr_signed_at r) = moment t) by (unfold time_of; by rewrite T1). rewrite TS in *. rewrite (proj2 (Z.ltb_ge _ _) O2).
    apply timely_timestamp in QT as (k & EK & VK). unfold _parse_timestamp at 1. rewrite EK. cbn [catch mbind result_bind]. rewrite VK, (proj2 (Z.ltb_ge _ _) O1).
    assert (EA : each (signed_later (moment t)) (bd_reports b) = Ok ()).
    { apply each_ok. rewrite QB. cbn [bindings_of bd_reports]. rewrite QR in R. apply Forall_forall. intros y Hy. rewrite Forall_forall in R.
      apply signed_later_ok; [|by apply R]. pose proof (co_timely _ _ CO) as T. rewrite Forall_forall in T. by destruct (T y Hy) as (_ & _ & ? & _). }
    rewrite EA. cbn [mbind result_bind]. unfold _require_sha256. rewrite L4, (proj2 (digest_field_ok _ _) (conj eq_refl (hexdigest_sha256 _))). cbn [catch mbind result_bind].
    rewrite L3. cbv zeta. cbn [json_text].
    assert (ER : {| rr_policy := rr_policy r; rr_request := rr_request r; rr_signed_at := rr_signed_at r; rr_signature := rr_signature r |} = r) by (by destruct r).
    rewrite ER, EP. cbn [of_raw mbind result_bind]. rewrite str_eqb_refl. cbn [negb]. by rewrite V.
Qed.

(** C16: Exactly the signed runs become run records.  [compose_run_record] returns a
    record if and only if: the context is validated on this machine, the policy is
    the source-pinned one and of the context's evidence profile; the request is
    accepted and is the record's; the response was signed at a whole second after
    the run and every report and not in the future; and the digest it states is
    that of the canonical receipt payload, on which its PS256 signature verifies
    under the policy's key. *)
Theorem run_record_exact plist_loads runner policy_file ck now value request response r :
  compose_run_record plist_loads runner policy_file ck now value request response = Ok r <->
  record_accepted plist_loads runner policy_file ck now value request response r.
Proof. exact (composed_record plist_loads runner policy_file ck now value request response r). Qed.

(** ** What is signed *)

Lemma pinned_policy_ok policy_file p : load_source_pinned_policy policy_file = Ok p -> policy_ok p /\ tp_policy_sha256 p = RELEASE_TRUST_POLICY_SHA256.
Proof.
  unfold load_source_pinned_policy. intros H. inv_bind H. apply catch_ok in E. destruct (_ || _) eqn:G in H; [discriminate H|]. injection H as ->.
  unfold load_release_trust_policy in E. inv_bind E. apply parsed_policy_ok in E as (P & _). split; [exact P|].
  rewrite !orb_false_iff, !negb_false_iff in G. destruct G as (((((((_ & G) & _) & _) & _) & _) & _) & _). by apply str_eqb_eq.
Qed.

(** A run whose payload is encoded, with its reports and artifacts in order. *)
Record well_formed (r : run_record) : Prop := {
  wf_sound : sound 4 (_receipt_payload r);
  wf_reports : sort_reports (rq_reports (rr_request r)) = rq_reports (rr_request r);
  wf_raw : sort_raw (rq_raw_artifacts (rr_request r)) = rq_raw_artifacts (rr_request r)
}.

Lemma descriptor_sound k d : (exists x, parse_descriptor x = Some d) -> sound (S k) (descriptor_as_dict d).
Proof.
  intros [x H]. apply parse_descriptor_spec in H as (spec & HK & _ & HZ & HC & _ & HS). apply kind_bounds in HK as (K1 & _ & K3).
  apply components_simple in HC. apply simple_ascii in K1 as (_ & _ & K1), HC as (_ & _ & HC).
  apply sound_object; [vm_compute; reflexivity|]. sound_items; auto with documents. apply sound_int. lia.
Qed.

Lemma printable_encodable n s : printable n s -> encodable s = true.
Proof.
  unfold printable, _bounded_printable. intros H. destruct (utf8_encode s) as [b|] eqn:E; [|discriminate H]. apply utf8_encode_encodable. by eexists.
Qed.
Lemma timely_encodable s : timely s -> encodable s = true.
Proof. intros H. eapply short_encodable. by apply short_timely. Qed.
#[local] Hint Resolve timely_encodable : documents.

Lemma report_sound r : report_fits r -> report_timely r -> (exists x, parse_descriptor x = Some (rb_descriptor r)) -> sound 2 (report_json r).
Proof. intros F T D. apply (bounded_report r F T D). Qed.
Lemma raw_sound w : raw_fits w -> (exists x, parse_descriptor x = Some (wb_descriptor w)) -> sound 2 (raw_json w).
Proof.
  intros F D. pose proof (raw_harness w F) as (h & Hh & E). destruct F as [F%printable_encodable _].
  assert (EH : encodable (wb_harness w) = true).
  { rewrite E. unfold HARNESS_NAMES in Hh. rewrite !elem_of_cons, elem_of_nil in Hh. by destruct Hh as [-> | [-> | [-> | [-> | []]]]]. }
  apply sound_object; [vm_compute; reflexivity|]. sound_items; auto with documents. by apply (descriptor_sound 0).
Qed.

(** The payload of a run with accepted parts. *)
Lemma payload_sound plist_loads runner ck r rs ws :
  context_ok plist_loads runner ck (rq_context (rr_request r)) -> policy_ok (rr_policy r) -> is_sha256 (tp_policy_sha256 (rr_policy r)) = true ->
  is_sha256 (rq_run_nonce (rr_request r)) = true -> timely (rq_captured_at (rr_request r)) -> timely (rq_completed_at (rr_request r)) ->
  timely (rr_signed_at r) -> composed_ok rs ws -> rq_reports (rr_request r) = rs -> rq_raw_artifacts (rr_request r) = sort_raw ws ->
  Forall (fun r => exists x, parse_descriptor x = Some (rb_descriptor r)) rs ->
  Forall (fun w => exists x, parse_descriptor x = Some (wb_descriptor w)) ws -> well_formed r.
Proof.
  intros [_ C I O _ _] P PS N T1 T2 T3 CO ER EW DR DW.
  assert (SR : sort_reports (rq_reports (rr_request r)) = rq_reports (rr_request r)) by (rewrite ER; apply sort_reports_id, CO).
  assert (SW : sort_raw (rq_raw_artifacts (rr_request r)) = rq_raw_artifacts (rr_request r)) by (rewrite EW; apply sort_raw_twice, CO).
  constructor; [|exact SR|exact SW]. apply observed_short in O as (O1 & O2 & O3 & O4). apply short_encodable in O1, O2, O3, O4.
  pose proof (short_encodable _ _ (short_identifier _ I)) as I'. pose proof (policy_encodable _ P) as F. unfold policy_texts in F.
  repeat (apply Forall_cons in F as [? F]). unfold _receipt_payload. rewrite SR, SW.
  apply sound_object; [vm_compute; reflexivity|]. sound_items; auto with documents.
  - apply sound_int. unfold RECEIPT_SCHEMA_VERSION. lia.
  - apply (sound_deepen 1); [|lia]. apply (bounded_candidate _ _ C).
  - apply (sound_deepen 1); [|lia]. apply sound_object; [vm_compute; reflexivity|]. sound_items; auto with documents.
  - apply (sound_deepen 1); [|lia]. unfold collector_items. rewrite (ok_algorithm _ P). apply sound_object; [vm_compute; reflexivity|]. sound_items; auto with documents.
  - apply sound_list. apply Forall_map. rewrite ER. apply Forall_forall. intros x Hx. destruct CO as [_ F1 F2 _ _ _ _ _ _].
    rewrite Forall_forall in F1, F2, DR. apply report_sound; auto.
  - apply sound_list. apply Forall_map. rewrite EW, sort_raw_perm. apply Forall_forall. intros x Hx. destruct CO as [_ _ _ F1 _ _ _ _ _].
    rewrite Forall_forall in F1, DW. apply raw_sound; auto.
Qed.

(** Every record that is composed is well formed. *)
Lemma accepted_well_formed plist_loads runner policy_file ck now value request response r :
  record_accepted plist_loads runner policy_file ck now value request response r -> well_formed r.
Proof.
  intros [C P _ [b Q] (t & T & _) _ _ _]. apply validate_context_exact in C as [_ C]. apply pinned_policy_ok in P as [P PS].
  apply validated_request_ok in Q as (_ & _ & _ & N & T1 & T2 & rs & ws & O & _ & ER & EW & DR & DW).
  eapply payload_sound; try done; [rewrite PS; vm_compute; reflexivity|by eexists].
Qed.

(** ** The signed bytes determine the run *)

Lemma normalized_descriptor d : normalize (descriptor_as_dict d) =
  JObj [(u "kind", JStr (ad_kind d)); (u "path", JStr (ad_path d)); (u "sha256", JStr (ad_sha256 d)); (u "size", JInt (ad_size d))].
Proof. reflexivity. Qed.
Lemma normalized_report r : normalize (report_json r) =
  JObj [(u "captured_at", JStr (rb_captured_at r)); (u "completed_at", JStr (rb_completed_at r));
        (u "descriptor", normalize (descriptor_as_dict (rb_descriptor r))); (u "harness", JStr (rb_harness r));
        (u "signed_at", JStr (rb_signed_at r)); (u "tool_version", JStr (rb_tool_version r))].
Proof. reflexivity. Qed.
Lemma normalized_raw w : normalize (raw_json w) =
  JObj [(u "descriptor", normalize (descriptor_as_dict (wb_descriptor w))); (u "harness", JStr (wb_harness w)); (u "subject", JStr (wb_subject w))].
Proof. reflexivity. Qed.
Definition payload_run (r : run_record) : list (str * json) :=
  let q := rr_request r in let e := cx_environment (rq_context q) in
  [(u "captured_at", JStr (rq_captured_at q)); (u "clean_install", JBool true); (u "completed_at", JStr (rq_completed_at q));
   (u "machine_sha256", JStr (en_machine_sha256 e)); (u "macos_build", JStr (en_macos_build e)); (u "macos_version", JStr (en_macos_version e));
   (u "os", JStr (en_os e)); (u "run_id", JStr (cx_run_id (rq_context q))); (u "run_nonce", JStr (rq_run_nonce q)); (u "signed_at", JStr (rr_signed_at r))].
Definition payload_collector (p : CollectorTrustPolicy) : list (str * json) :=
  [(u "algorithm", JStr (tp_algorithm p)); (u "executable_sha256", JStr (tp_collector_executable_sha256 p)); (u "key_version", JStr (tp_key_version p));
   (u "source_sha256", JStr (tp_collector_source_sha256 p)); (u "version", JStr (tp_collector_version p))].
Lemma normalized_candidate_inj c c' : normalize (candidate_json c) = normalize (candidate_json c') -> c = c'.
Proof. intros E. eapply candidate_reads_inj; apply candidate_copy; [|right; reflexivity]. right. by symmetry. Qed.
Lemma normalized_report_inj r r' : normalize (report_json r) = normalize (report_json r') -> r = r'.
Proof.
  rewrite !normalized_report. rewrite !normalized_descriptor. destruct r as [h t c k s []], r' as [h' t' c' k' s' []]. cbn. intros H. injection H. congruence.
Qed.
Lemma normalized_raw_inj w w' : normalize (raw_json w) = normalize (raw_json w') -> w = w'.
Proof.
  rewrite !normalized_raw. rewrite !normalized_descriptor. destruct w as [h s []], w' as [h' s' []]. cbn. intros H. injection H. congruence.
Qed.
Definition list_items (v : json) : list json := match v with JList l => l | _ => [] end.

Lemma normalized_list_inj {A} (f : A -> json) (l l' : list A) : (forall a b, normalize (f a) = normalize (f b) -> a = b) ->
  map normalize (map f l) = map normalize (map f l') -> l = l'.
Proof.
  intros I. revert l'. induction l as [|a l IH]; intros [|b l'] H; try discriminate H; [done|].
  cbn [map] in H. injection H as H1 H2. f_equal; [by apply I|by apply IH].
Qed.

(** What the signature on a run covers. *)
Definition signed_part (r : run_record) :=
  (tp_policy_sha256 (rr_policy r), payload_collector (rr_policy r), cx_candidate (rq_context (rr_request r)), payload_run r,
   rq_reports (rr_request r), rq_raw_artifacts (rr_request r)).

(** C17: A receipt digest belongs to one run.  Two well-formed run records (every
    record that is composed is one) with the same receipt digest agree on the
    trust policy, the collector, the candidate, the machine and lane, the times,
    the run's id and nonce, and on every report and raw artifact with its path,
    size and digest; otherwise their canonical payloads are two different messages
    with one SHA-256 digest. *)
Theorem receipt_digest_binds r1 r2 b1 b2 :
  well_formed r1 -> well_formed r2 ->
  canonical_json (_receipt_payload r1) = Some b1 -> canonical_json (_receipt_payload r2) = Some b2 -> hexdigest b1 = hexdigest b2 ->
  signed_part r1 = signed_part r2 \/ (b1 <> b2 /\ hexdigest b1 = hexdigest b2).
Proof.
  intros [S1 R1 W1] [S2 R2 W2] E1 E2 H. destruct (decide (b1 = b2)) as [->|N]; [left|by right].
  assert (L : Z.of_nat 4 <= MAX_JSON_DEPTH) by (unfold MAX_JSON_DEPTH; lia).
  pose proof (sound_injective 4 4 _ _ b2 S1 S2 L L E1 E2) as X.
  assert (M : forall k v w, member (dict_items (normalize (_receipt_payload r1))) k = v -> member (dict_items (normalize (_receipt_payload r2))) k = w -> v = w).
  { intros k v w <- <-. by rewrite X. }
  pose proof (normalized_candidate_inj _ _ (M "candidate"%string _ _ eq_refl eq_refl)) as C.
  pose proof (f_equal dict_items (M "collector"%string (JObj (payload_collector _)) (JObj (payload_collector _)) eq_refl eq_refl)) as P.
  pose proof (f_equal dict_items (M "run"%string (JObj (payload_run _)) (JObj (payload_run _)) eq_refl eq_refl)) as R.
  pose proof (f_equal json_text (M "trust_policy_sha256"%string (JStr _) (JStr _) eq_refl eq_refl)) as T.
  pose proof (f_equal list_items (M "reports"%string (JList (map normalize (map report_json _))) (JList (map normalize (map report_json _))) eq_refl eq_refl)) as ER.
  pose proof (f_equal list_items (M "raw_artifacts"%string (JList (map normalize (map raw_json _))) (JList (map normalize (map raw_json _))) eq_refl eq_refl)) as EW.
  cbn [dict_items list_items json_text] in P, R, T, ER, EW. apply (normalized_list_inj report_json _ _ normalized_report_inj) in ER.
  apply (normalized_list_inj raw_json _ _ normalized_raw_inj) in EW. rewrite R1, R2 in ER. rewrite W1, W2 in EW.
  unfold signed_part. by rewrite T, P, C, R, ER, EW.
Qed.

(** ** The record of the sample receipt *)

Definition sample_record (policy : CollectorTrustPolicy) (e : environment) (p : str) : run_record :=
  {| rr_policy := policy; rr_request := sample_request e p; rr_signed_at := u "2026-01-02T06:00:00Z"; rr_signature := u "c2lnbmF0dXJl" |}.

Lemma sample_well_formed : exists policy e p, load_source_pinned_policy (Ok policy_file) = Ok policy /\ well_formed (sample_record policy e p).
Proof.
  destruct policy_file_loads as (policy & P & _). destruct Demo.validates as (e & p & V). exists policy, e, p. split; [exact P|].
  apply pinned_policy_ok in P as [P PS]. apply validate_context_exact in V as [_ V].
  pose proof Sample.composed as C. apply compose_exact in C as (es & vs & rs & ws & _ & _ & _ & _ & RE & WE & O & EB).
  pose proof (f_equal bd_reports EB) as ER. pose proof (f_equal bd_raw_artifacts EB) as EW. cbn [bindings_of bd_reports bd_raw_artifacts] in ER, EW.
  apply (payload_sound _ _ _ (sample_record policy e p) rs ws V P); [change (is_sha256 (tp_policy_sha256 policy) = true); rewrite PS; vm_compute; reflexivity|reflexivity|by eexists|by eexists|by eexists|exact O|exact ER|exact EW|..].
  - eapply Forall_impl; [exact RE|]. intros x (l & _ & _ & _ & _ & _ & D). by eexists.
  - clear -WE. induction WE as [|x w values ws (l & _ & _ & _ & D) F IH]; constructor; [by eexists|done].
Qed.

Lemma receipt_digest_binds_witness : exists policy e p b,
  canonical_json (_receipt_payload (sample_record policy e p)) = Some b /\
  (signed_part (sample_record policy e p) = signed_part (sample_record policy e p) \/ (b <> b /\ hexdigest b = hexdigest b)).
Proof.
  destruct sample_well_formed as (policy & e & p & _ & W). exists policy, e, p.
  destruct (sound_encoded 4 _ (wf_sound _ W)) as [b E]; [unfold MAX_JSON_DEPTH; lia|]. exists b. split; [exact E|].
  exact (receipt_digest_binds _ _ b b W W E E eq_refl).
Defined.
