(* ===== verification/RecordDocuments.v ===== *)
(** * The document of a run record

    A run record that [compose_run_record] of
    src/scripts/physical_capture/composition.py returned is a document that can
    be archived and read back: its texts are encodable, its keys distinct, its
    nesting shallow. *)

From S2P Require Import Prelude Sha256 Text Json DateTime Effects Base64 Ps256 TrustPolicy PolicyProofs Archive Observation ObservationProofs.
From S2P Require Import Python Copies Documents Timestamp Identity Catalogue CollectorRequest Composition CollectorProofs ReceiptProofs ContextProofs Sample RequestBounds PolicyFile RecordProofs.

Open Scope Z_scope.
Open Scope list_scope.

#[local] Hint Resolve timely_encodable : documents.

(** Every text of an observed environment is encodable. *)
Lemma environment_sound plist_loads runner e k : _observe_environment plist_loads runner = Ok e ->
  Forall (fun kv => encodable (fst kv) = true /\ sound k (snd kv)) (environment_items e).
Proof.
  intros O. pose proof (observed_short _ _ _ O) as (O1 & O2 & O3 & O4). apply short_encodable in O1, O2, O3, O4.
  assert (X : encodable (en_hardware_model e) = true /\ encodable (en_boot_environment_sha256 e) = true).
  { unfold _observe_environment in O. inv_bind O. apply collect_machine_ok in E as (M & _ & _). inv_bind O. apply collect_boot_ok in E.
    do 2 inv_bind O. destruct (negb _) in O; [discriminate O|]. destruct (pinned_run _ _ _); [|discriminate O]. injection O as <-.
    cbn [en_hardware_model en_boot_environment_sha256]. split; [by apply clean_encodable, model_clean|by apply sha256_encodable]. }
  destruct X as [X1 X2]. unfold environment_items. sound_items; auto with documents.
Qed.

(** The entry of a report in the run. *)
Lemma run_report_sound r : report_fits r -> report_timely r -> (exists x, parse_descriptor x = Some (rb_descriptor r)) ->
  encodable (fst (run_report r)) = true /\ sound 2 (snd (run_report r)).
Proof.
  intros F (T1 & T2 & T3 & _) D. apply harness_short in F as [H1 H2]. apply short_encodable in H1, H2. cbn [fst] in H2. unfold run_report. cbn [fst snd].
  split; [done|]. apply sound_object; [vm_compute; reflexivity|]. sound_items; auto with documents. by apply (descriptor_sound 0).
Qed.

Lemma harnesses_unique rs : map rb_harness rs = REPORT_HARNESSES -> unique_keys (map run_report rs) = true.
Proof.
  intros H. unfold unique_keys. apply bool_decide_eq_true. rewrite map_map.
  change (NoDup (map rb_harness rs)). rewrite H. apply (bool_decide_eq_true_1 _). vm_compute. reflexivity.
Qed.

(** A signature that verifies is text. *)
Lemma verified_encodable message s n e x : verify_ps256 message (JStr s) n e = Some x -> encodable s = true.
Proof.
  unfold verify_ps256. intros V. destruct (_ || _) in V; [discriminate V|]. destruct (negb _) in V; [discriminate V|].
  destruct (_base64url_decode (JStr s)) as [d|] eqn:D; [clear V|discriminate V].
  apply base64url_decoded in D as [_ D]. injection D as ->. apply b64_encodable.
Qed.

Lemma record_sound plist_loads runner policy_file ck now value request response r :
  record_accepted plist_loads runner policy_file ck now value request response r -> sound 5 (run_record_json r).
Proof.
  intros [C P _ [b Q] (t & T & _) _ _ (l & payload & _ & _ & _ & _ & _ & _ & [x V])].
  apply validate_context_exact in C as [_ [_ C I O _ _]]. apply pinned_policy_ok in P as [P PS].
  apply validated_request_ok in Q as (_ & _ & _ & N & T1 & T2 & rs & ws & CO & _ & ER & _ & DR & _).
  apply verified_encodable in V. assert (T3 : timely (rr_signed_at r)) by (by eexists).
  pose proof (short_encodable _ _ (short_identifier _ I)) as I'. pose proof (policy_encodable _ P) as F. unfold policy_texts in F.
  repeat (apply Forall_cons in F as [? F]).
  unfold run_record_json. apply sound_object; [vm_compute; reflexivity|]. sound_items; auto with documents.
  - apply sound_int. unfold RUN_RECORD_SCHEMA_VERSION. lia.
  - apply sound_text. rewrite PS. vm_compute. reflexivity.
  - apply (sound_deepen 1); [|lia]. apply (bounded_candidate _ _ C).
  - unfold run_json. apply sound_object; [vm_compute; reflexivity|]. apply Forall_app. split; [by eapply environment_sound|].
    sound_items; auto with documents.
    + apply (sound_deepen 1); [|lia]. unfold collector_items. rewrite (ok_algorithm _ P). apply sound_object; [vm_compute; reflexivity|].
      sound_items; auto with documents.
    + rewrite ER. apply sound_object; [apply harnesses_unique, CO|]. apply Forall_map, Forall_forall. intros y Hy.
      destruct CO as [_ F1 F2 _ _ _ _ _ _]. rewrite Forall_forall in F1, F2, DR. apply run_report_sound; auto.
Qed.
