(* ===== verification/ProofMaterial.v ===== *)
(** * Proof material

    src/scripts/physical_capture/proof.py, [build_proof_material] and
    [ProofMaterial], with [parse_proof_binding] of
    src/scripts/harness/raw_artifacts.py: the binding of a run, its nonce, its
    candidate and its collector that every report of the run carries. *)

From S2P Require Import Prelude Sha256 Text Json DateTime Effects Base64 Ps256 TrustPolicy PolicyProofs Archive Observation ObservationProofs.
From S2P Require Import Python Copies Documents Timestamp Identity Catalogue CollectorRequest Composition CollectorProofs ReceiptProofs ContextProofs Sample RequestBounds PolicyFile RecordProofs.

Open Scope Z_scope.
Open Scope list_scope.

Definition PROOF_SCHEMA_VERSION : Z := 3.
Definition PROOF_FIELDS : list str := map u ["schema_version"; "run_id"; "run_nonce"; "candidate"; "collector"]%string.
Definition PROOF_CANDIDATE_FIELDS : list str :=
  map u ["version"; "build_number"; "app_manifest_sha256"; "signed_app_tree_sha256"; "artifact_hash_manifest_sha256"]%string.
Definition COLLECTOR_BINDING_FIELDS : list str :=
  map u ["version"; "source_sha256"; "executable_sha256"; "algorithm"; "key_version"]%string.

Definition parse_proof_binding (value : json) : result pyexn json :=
  proof ← of_raw (exact_object value PROOF_FIELDS);
  raise_if negb (json_eq_int (member proof "schema_version") PROOF_SCHEMA_VERSION) with RawArtifactError ;;
  run_id ← require_identifier (member proof "run_id");
  run_nonce ← require_sha256 (member proof "run_nonce");
  candidate ← of_raw (exact_object (member proof "candidate") PROOF_CANDIDATE_FIELDS);
  raise_if negb (printable_text 32 (member candidate "version")) with RawArtifactError ;;
  raise_if negb (bool_decide (is_Some (canonical_build_version (member candidate "build_number")))) with RawArtifactError ;;
  app_manifest ← require_sha256 (member candidate "app_manifest_sha256");
  signed_app_tree ← require_sha256 (member candidate "signed_app_tree_sha256");
  artifact_manifest ← require_sha256 (member candidate "artifact_hash_manifest_sha256");
  collector ← of_raw (exact_object (member proof "collector") COLLECTOR_BINDING_FIELDS);
  version ← require_identifier (member collector "version");
  source ← require_sha256 (member collector "source_sha256");
  executable ← require_sha256 (member collector "executable_sha256");
  key_version ← require_kms_key_version (member collector "key_version");
  raise_if negb (json_eq_str (member collector "algorithm") COLLECTOR_SIGNATURE_ALGORITHM) with RawArtifactError ;;
  Ok (JObj [(u "schema_version", JInt PROOF_SCHEMA_VERSION); (u "run_id", JStr run_id); (u "run_nonce", JStr run_nonce);
            (u "candidate", JObj [(u "version", member candidate "version"); (u "build_number", member candidate "build_number");
                                  (u "app_manifest_sha256", JStr app_manifest); (u "signed_app_tree_sha256", JStr signed_app_tree);
                                  (u "artifact_hash_manifest_sha256", JStr artifact_manifest)]);
            (u "collector", JObj [(u "version", JStr version); (u "source_sha256", JStr source); (u "executable_sha256", JStr executable);
                                  (u "algorithm", member collector "algorithm"); (u "key_version", JStr key_version)])]).

Record ProofMaterial := { pm_proof : json; pm_context : context; pm_nonce_issued_at : Z }.

(** The proof of a run, before it is normalised. *)
Definition proof_document (c : context) (run_nonce : str) (p : CollectorTrustPolicy) : json :=
  let candidate := cx_candidate c in
  JObj [(u "schema_version", JInt PROOF_SCHEMA_VERSION); (u "run_id", JStr (cx_run_id c)); (u "run_nonce", JStr run_nonce);
        (u "candidate", JObj [(u "version", JStr (ca_version candidate)); (u "build_number", JStr (ca_build_number candidate));
                              (u "app_manifest_sha256", JStr (ca_app_manifest_sha256 candidate));
                              (u "signed_app_tree_sha256", JStr (ca_signed_app_tree_sha256 candidate));
                              (u "artifact_hash_manifest_sha256", JStr (ca_artifact_hash_manifest_sha256 candidate))]);
        (u "collector", JObj [(u "version", JStr (tp_collector_version p)); (u "source_sha256", JStr (tp_collector_source_sha256 p));
                              (u "executable_sha256", JStr (tp_collector_executable_sha256 p)); (u "algorithm", JStr (tp_algorithm p));
                              (u "key_version", JStr (tp_key_version p))])].

Definition is_proof_input_error (e : pyexn) : bool :=
  match e with
  | PolicyError | PhysicalCollectorRequestError | PhysicalMachineIdentityError => true
  | _ => is_os_error e || is_raw_error e
  end.

Section Build.
Context (plist_loads : bytes -> plist_result) (runner : Runner) (policy_file : result pyexn bytes).

Definition build_proof_material (ck : clock) (context nonce_response : json) (observed_at : option Z) : result pyexn ProofMaterial :=
  '(validated, nonce, issued, policy) ← catch is_proof_input_error ProofError
    (validated ← validate_context plist_loads runner ck context;
     '(nonce, issued) ← validate_nonce_response nonce_response observed_at (ck_nonce ck);
     policy ← load_source_pinned_policy policy_file;
     Ok (validated, nonce, issued, policy));
  let proof := proof_document validated (nc_run_nonce nonce) policy in
  normalized ← catch is_raw_error ProofError (parse_proof_binding proof);
  raise_if negb (py_eq normalized proof) with ProofError ;;
  Ok {| pm_proof := proof; pm_context := validated; pm_nonce_issued_at := issued |}.
End Build.

(** [require_observation_window]; a time that is not aware, or not of UTC, is [None]. *)
Definition require_observation_window (m : ProofMaterial) (captured_at completed_at : option Z) : result pyexn () :=
  let initialized_at := time_of (cx_initialized_at (pm_context m)) in
  match captured_at, completed_at with
  | Some captured_at, Some completed_at =>
      raise_if negb ((initialized_at <=? captured_at) && (captured_at <? completed_at) && (completed_at <=? pm_nonce_issued_at m))
        with ProofError ;;
      Ok ()
  | _, _ => Err ProofError
  end.

(** ** The derived proof is always a proof *)

Record provable (reading : Z) (c : context) (n : str) (p : CollectorTrustPolicy) : Prop := {
  pv_run_id : IDENTIFIER_RE (cx_run_id c) = true;
  pv_candidate : candidate_ok reading (cx_candidate c);
  pv_nonce : is_sha256 n = true;
  pv_policy : policy_ok p
}.

Lemma dict_members l fields v : same_fields fields l = true -> no_repeat (map fst l) = true -> copy_of v (JObj l) ->
  exists m, exact_object v fields = Some m /\ forall k, copy_of (member m k) (member l k).
Proof. intros F N. apply copy_dict; [|done]. by apply bool_decide_eq_true in N. Qed.

Lemma proof_parses reading c n p v : provable reading c n p -> copy_of v (proof_document c n p) ->
  parse_proof_binding v = Ok (proof_document c n p).
Proof.
  intros [I C N P] V. unfold proof_document in V. apply (dict_members _ PROOF_FIELDS) in V as (m & E & M); [|reflexivity|reflexivity].
  unfold parse_proof_binding. rewrite E. cbn [of_raw mbind result_bind].
  assert (E1 := copy_int _ PROOF_SCHEMA_VERSION (M "schema_version")). assert (E2 := copy_str _ (cx_run_id c) (M "run_id")). assert (E3 := copy_str _ n (M "run_nonce")).
  rewrite E1, E2, E3. change (json_eq_int (JInt PROOF_SCHEMA_VERSION) PROOF_SCHEMA_VERSION) with true. cbn [negb].
  rewrite (proj2 (require_identifier_ok _ _) (conj eq_refl I)), (proj2 (digest_field_ok _ _) (conj eq_refl N)). cbn [mbind result_bind].
  destruct (dict_members (dict_items (member (dict_items (proof_document c n p)) "candidate")) PROOF_CANDIDATE_FIELDS _ eq_refl eq_refl (M "candidate")) as (mc & EC & MC). rewrite EC. cbn [of_raw mbind result_bind].
  rewrite (copy_str _ (ca_version (cx_candidate c)) (MC "version")), (copy_str _ (ca_build_number (cx_candidate c)) (MC "build_number")),
    (copy_str _ (ca_app_manifest_sha256 (cx_candidate c)) (MC "app_manifest_sha256")),
    (copy_str _ (ca_signed_app_tree_sha256 (cx_candidate c)) (MC "signed_app_tree_sha256")),
    (copy_str _ (ca_artifact_hash_manifest_sha256 (cx_candidate c)) (MC "artifact_hash_manifest_sha256")).
  destruct (dict_members (dict_items (member (dict_items (proof_document c n p)) "collector")) COLLECTOR_BINDING_FIELDS _ eq_refl eq_refl (M "collector")) as (mk & EK & MK).
  destruct C as [C1 C2 C3 C4 C5 _ _]. destruct P as [P1 P2 _ _ _ _ _ _ _ P3 P4 P5 _ _ _ _ _ _].
  unfold proof_document. rewrite C1, C2, P2.
  change (printable_text 32 (JStr PRODUCT_VERSION)) with true. change (canonical_build_version (JStr GA_RELEASE_BUILD)) with (Some GA_RELEASE_BUILD).
  rewrite bool_decide_true by (by eexists). cbn [negb of_raw mbind result_bind].
  rewrite (proj2 (digest_field_ok _ _) (conj eq_refl C3)), (proj2 (digest_field_ok _ _) (conj eq_refl C4)), (proj2 (digest_field_ok _ _) (conj eq_refl C5)).
  cbn [mbind result_bind]. rewrite EK. cbn [of_raw mbind result_bind].
  rewrite (copy_str _ (tp_collector_version p) (MK "version")), (copy_str _ (tp_collector_source_sha256 p) (MK "source_sha256")),
    (copy_str _ (tp_collector_executable_sha256 p) (MK "executable_sha256")), (copy_str _ (tp_algorithm p) (MK "algorithm")),
    (copy_str _ (tp_key_version p) (MK "key_version")).
  rewrite ?P2, (proj2 (require_identifier_ok _ _) (conj eq_refl P3)), (proj2 (digest_field_ok _ _) (conj eq_refl P4)), (proj2 (digest_field_ok _ _) (conj eq_refl P5)).
  unfold require_kms_key_version. rewrite P1. cbn [mbind result_bind]. rewrite (proj2 (eq_str_text _ _) eq_refl). reflexivity.
Qed.

Lemma proof_self_equal c n p : py_eq (proof_document c n p) (proof_document c n p) = true.
Proof. apply py_eq_copy; [vm_compute; reflexivity|by left]. Qed.

Lemma build_proof_ok plist_loads runner policy_file ck context response observed c n issued p :
  validate_context plist_loads runner ck context = Ok c -> validate_nonce_response response observed (ck_nonce ck) = Ok (n, issued) ->
  load_source_pinned_policy policy_file = Ok p ->
  provable (ck_candidate ck) c (nc_run_nonce n) p /\
  build_proof_material plist_loads runner policy_file ck context response observed =
    Ok {| pm_proof := proof_document c (nc_run_nonce n) p; pm_context := c; pm_nonce_issued_at := issued |}.
Proof.
  intros HC HN HP. assert (PV : provable (ck_candidate ck) c (nc_run_nonce n) p).
  { constructor; [| |by eapply nonce_is_digest|by apply pinned_policy_ok in HP as [? _]]; apply validate_context_exact in HC as [_ [_ C I _ _ _]]; done. }
  split; [done|]. unfold build_proof_material. rewrite HC. cbn [mbind result_bind]. rewrite HN. cbn [mbind result_bind]. rewrite HP. cbn [mbind result_bind catch].
  cbv zeta. rewrite (proof_parses _ _ _ _ _ PV (or_introl eq_refl)). cbn [catch mbind result_bind]. by rewrite proof_self_equal.
Qed.

(** C15: The proof of a run exists exactly when its inputs are valid.
    [build_proof_material] returns if and only if the context is validated on
    this machine, the nonce response is accepted and the pinned policy is loaded;
    the proof then names exactly their run, nonce, candidate and collector, and
    [parse_proof_binding] reads it, as it was derived or from its canonical
    encoding, as itself: neither the schema nor the comparison of the normalised
    proof ever refuses a proof that was derived. *)
Theorem proof_material_exact plist_loads runner policy_file ck context response observed m :
  build_proof_material plist_loads runner policy_file ck context response observed = Ok m <->
  exists c n issued p,
    validate_context plist_loads runner ck context = Ok c /\ validate_nonce_response response observed (ck_nonce ck) = Ok (n, issued) /\
    load_source_pinned_policy policy_file = Ok p /\
    m = {| pm_proof := proof_document c (nc_run_nonce n) p; pm_context := c; pm_nonce_issued_at := issued |} /\
    forall v, copy_of v (pm_proof m) -> parse_proof_binding v = Ok (pm_proof m).
Proof.
  split.
  - intros H. pose proof H as H0. unfold build_proof_material in H. inv_bind H. destruct v as [[[c n] issued] p]. apply catch_ok in E.
    inv_bind E. inv_bind E. destruct v0 as [n' issued']. inv_bind E. injection E as -> -> -> ->. exists c, n, issued, p.
    destruct (build_proof_ok _ _ _ _ _ _ _ _ _ _ _ E0 E1 E2) as [PV B]. rewrite B in H0. injection H0 as <-. split; [done|]. split; [done|]. split; [done|].
    split; [done|]. intros v V. by eapply proof_parses.
  - intros (c & n & issued & p & HC & HN & HP & -> & _). by apply build_proof_ok.
Qed.

(** Which observations a proof covers. *)
Lemma window_exact m captured completed :
  require_observation_window m (Some captured) (Some completed) = Ok () <->
  time_of (cx_initialized_at (pm_context m)) <= captured < completed /\ completed <= pm_nonce_issued_at m.
Proof.
  unfold require_observation_window. destruct (negb _) eqn:G.
  - split; [discriminate|]. intros [[H1 H2] H3]. apply negb_true_iff in G. rewrite (proj2 (Z.leb_le _ _) H1), (proj2 (Z.ltb_lt _ _) H2), (proj2 (Z.leb_le _ _) H3) in G. discriminate G.
  - apply negb_false_iff in G. rewrite !andb_true_iff, !Z.leb_le, Z.ltb_lt in G. split; [tauto|done].
Qed.
