(* ===== verification/AggregateProofs.v ===== *)
(** * The aggregate of the runs

    When [compose_physical_aggregate] of src/scripts/physical_capture/composition.py
    returns, that the order of the run records does not matter, and that the
    records [compose_run_record] makes on the two lanes are aggregated. *)

From S2P Require Import Prelude Sha256 Text Json DateTime Effects Base64 Ps256 TrustPolicy PolicyProofs Archive Observation ObservationProofs.
From S2P Require Import Python Copies Documents Timestamp Identity Catalogue CollectorRequest Composition CollectorProofs ReceiptProofs ContextProofs.
From S2P Require Import Sample RequestBounds PolicyFile RecordProofs.

Open Scope Z_scope.
Open Scope list_scope.

(** ** One record *)

(** The document of a run of candidate [c] on lane [os], under [policy]. *)
Record run_document (policy : CollectorTrustPolicy) (reading : Z) (v : json) (c : Candidate) (os : str) (run : list (str * json)) : Prop := {
  rd_record : exists l, exact_object v RUN_RECORD_FIELDS = Some l /\ member l "schema_version" = JInt RUN_RECORD_SCHEMA_VERSION /\
    member l "document" = JStr RUN_RECORD_DOCUMENT /\ member l "trust_policy_sha256" = JStr (tp_policy_sha256 policy) /\
    candidate_reads (member l "candidate") c /\ exact_object (member l "run") RUN_FIELDS = Some run;
  rd_candidate : candidate_ok reading c;
  rd_lane : member run "os" = JStr os /\ os ∈ REQUIRED_OS
}.

Lemma aggregated_run_exact policy reading candidate seen v c os doc :
  aggregated_run policy reading candidate seen v = Ok (c, (os, doc)) <->
  exists run, doc = JObj run /\ run_document policy reading v c os run /\ (candidate = None \/ candidate = Some c) /\ os ∉ seen.
Proof.
  unfold aggregated_run. split.
  - intros H. inv_bind H. apply catch_ok, of_raw_some in E. destruct (_ || _) eqn:G in H; [discriminate H|].
    apply orb_false_iff in G as [G1%eq_int_inv G2%eq_str_inv]. destruct (negb _) eqn:G3 in H; [discriminate H|]. apply eq_str_inv in G3.
    inv_bind H. destruct v1 as [c' run]. apply catch_ok in E0. inv_bind E0. apply candidate_exact in E1 as [CR CO]. inv_bind E0. apply of_raw_some in E1.
    injection E0 as -> ->. destruct (match candidate with Some _ => _ | None => _ end) eqn:G4 in H; [discriminate H|].
    destruct (member run "os") as [| | | |o| |] eqn:HO; try discriminate H. destruct (_ || _) eqn:G5 in H; [discriminate H|].
    apply orb_false_iff in G5 as [G5 G6]. apply negb_false_iff, mem_spec in G5. apply mem_false in G6. injection H as -> -> <-.
    exists run. split; [done|]. split; [|split; [|done]].
    + constructor; [|done|done]. by exists v0.
    + destruct candidate as [x|]; [right|by left]. apply negb_false_iff, bool_decide_eq_true in G4. by rewrite G4.
  - intros (run & -> & [(l & EL & H1 & H2 & H3 & HC & ER) CO [HO HR]] & HK & HS). unfold composed_object. rewrite EL. cbn [of_raw catch mbind result_bind].
    rewrite H1, H2, H3. change (json_eq_int (JInt RUN_RECORD_SCHEMA_VERSION) RUN_RECORD_SCHEMA_VERSION) with true.
    change (json_eq_str (JStr RUN_RECORD_DOCUMENT) RUN_RECORD_DOCUMENT) with true. cbn [negb orb]. rewrite (proj2 (eq_str_text _ _) eq_refl). cbn [negb].
    rewrite (proj2 (candidate_exact _ _ _) (conj HC CO)). cbn [mbind result_bind]. rewrite ER. cbn [of_raw catch mbind result_bind].
    assert (K : match candidate with Some x => negb (bool_decide (c = x)) | None => false end = false).
    { destruct HK as [-> | ->]; [done|]. by rewrite bool_decide_eq_true_2. }
    rewrite K, HO, (proj2 (mem_spec _ _) HR), (proj2 (mem_false _ _) HS). reflexivity.
Qed.

(** ** Two records *)

(** The runs with the current macOS first. *)
Definition in_lane_order (a b : lane_run) : list lane_run := if str_eqb (fst a) (u "current-macos") then [a; b] else [b; a].

Lemma lanes os : os ∈ REQUIRED_OS <-> os = u "current-macos" \/ os = u "macos15".
Proof. unfold REQUIRED_OS. rewrite !elem_of_cons, elem_of_nil. tauto. Qed.

Lemma both_lanes a b : a ∈ REQUIRED_OS -> b ∈ REQUIRED_OS -> set_eq [a; b] REQUIRED_OS = true <-> a <> b.
Proof. rewrite !lanes. intros [-> | ->] [-> | ->]; vm_compute; split; congruence. Qed.

Lemma sorted_lanes (a b : lane_run) : fst a ∈ REQUIRED_OS -> fst b ∈ REQUIRED_OS -> fst a <> fst b ->
  merge_sort lane_le [a; b] = in_lane_order a b.
Proof.
  destruct a as [a x], b as [b y]. cbn [fst]. rewrite !lanes. intros [-> | ->] [-> | ->] N; try done; reflexivity.
Qed.

Lemma in_lane_order_swap a b : fst a ∈ REQUIRED_OS -> fst b ∈ REQUIRED_OS -> fst a <> fst b -> in_lane_order a b = in_lane_order b a.
Proof.
  destruct a as [a x], b as [b y]. cbn [fst]. rewrite !lanes. intros [-> | ->] [-> | ->] N; try done; reflexivity.
Qed.

Definition aggregate_of (policy : CollectorTrustPolicy) (c : Candidate) (a b : lane_run) : aggregate :=
  {| ag_policy_sha256 := tp_policy_sha256 policy; ag_candidate := c; ag_runs := in_lane_order a b |}.

(** Two records that are aggregated to [g]. *)
Definition aggregated (policy_file : result pyexn bytes) (records : list (Z * json)) (g : aggregate) : Prop :=
  exists policy c t1 v1 os1 run1 t2 v2 os2 run2, load_source_pinned_policy policy_file = Ok policy /\ records = [(t1, v1); (t2, v2)] /\
    run_document policy t1 v1 c os1 run1 /\ run_document policy t2 v2 c os2 run2 /\ os1 <> os2 /\
    g = aggregate_of policy c (os1, JObj run1) (os2, JObj run2).

Lemma aggregate_iff policy_file records g : compose_physical_aggregate policy_file records = Ok g <-> aggregated policy_file records g.
Proof.
  unfold compose_physical_aggregate, aggregated. split.
  - intros H. destruct (negb _) eqn:G in H; [discriminate H|]. apply negb_false_iff, Z.eqb_eq in G. inv_bind H. apply catch_ok in E.
    destruct records as [|[t1 v1] [|[t2 v2] [|p l]]]; try discriminate G; [|unfold len in G; cbn [length REQUIRED_OS] in G; lia]. cbn [aggregated_runs] in H. inv_bind H. rename v0 into x. destruct x as [fin runs].
    inv_bind E0. rename v0 into x. destruct x as [c1 [os1 d1]]. apply aggregated_run_exact in E1 as (run1 & -> & D1 & _ & _).
    cbn [default fst] in E0. inv_bind E0. rename v0 into x. destruct x as [fin' runs']. injection E0 as -> <-. inv_bind E1. rename v0 into x. destruct x as [c2 [os2 d2]].
    apply aggregated_run_exact in E0 as (run2 & -> & D2 & [C|C] & NS); [discriminate C|]. injection C as <-. cbn [mbind result_bind] in E1. injection E1 as <- <-.
    assert (O : os1 <> os2) by (intros ->; apply NS; by left). pose proof (proj2 (rd_lane _ _ _ _ _ _ D1)) as L1. pose proof (proj2 (rd_lane _ _ _ _ _ _ D2)) as L2.
    cbn [map fst] in H. rewrite (proj2 (both_lanes _ _ L1 L2) O) in H. cbn [negb default] in H. injection H as <-.
    exists v, c1, t1, v1, os1, run1, t2, v2, os2, run2. do 5 (split; [done|]).
    unfold aggregate_of. by rewrite <-(sorted_lanes (os1, JObj run1) (os2, JObj run2) L1 L2 O).
  - intros (policy & c & t1 & v1 & os1 & run1 & t2 & v2 & os2 & run2 & P & -> & D1 & D2 & O & ->).
    change (len [(t1, v1); (t2, v2)] =? len REQUIRED_OS) with true. cbn [negb]. unfold _source_pinned_policy. rewrite P. cbn [catch mbind result_bind aggregated_runs].
    pose proof (proj2 (rd_lane _ _ _ _ _ _ D1)) as L1. pose proof (proj2 (rd_lane _ _ _ _ _ _ D2)) as L2.
    rewrite (proj2 (aggregated_run_exact policy t1 None [] v1 c os1 (JObj run1))) by (exists run1; split; [done|split; [done|split; [by left|apply not_elem_of_nil]]]).
    cbn [mbind result_bind default fst].
    rewrite (proj2 (aggregated_run_exact policy t2 (Some c) [os1] v2 c os2 (JObj run2))) by
      (exists run2; split; [done|split; [done|split; [by right|intros X%list_elem_of_singleton; by apply O]]]).
    cbn [mbind result_bind default fst map]. rewrite (proj2 (both_lanes _ _ L1 L2) O). cbn [negb].
    unfold aggregate_of. by rewrite <-(sorted_lanes (os1, JObj run1) (os2, JObj run2) L1 L2 O).
Qed.

(** C24: Exactly the pairs of runs of one candidate on the two lanes are aggregated.
    [compose_physical_aggregate] returns an aggregate if and only if it is given two
    run records under the source-pinned policy, for the same release candidate, on
    the two different lanes of the release; the aggregate then names that policy
    and candidate and holds the two runs unchanged, the current macOS first,
    whatever the order of the records. *)
Theorem aggregate_exact policy_file records g :
  (compose_physical_aggregate policy_file records = Ok g <-> aggregated policy_file records g) /\
  (aggregated policy_file records g <-> aggregated policy_file (rev records) g).
Proof.
  split; [apply aggregate_iff|]. assert (S : forall rs, aggregated policy_file rs g -> aggregated policy_file (rev rs) g).
  { intros rs (policy & c & t1 & v1 & os1 & run1 & t2 & v2 & os2 & run2 & P & -> & D1 & D2 & O & ->).
    exists policy, c, t2, v2, os2, run2, t1, v1, os1, run1. split; [done|]. split; [done|]. split; [done|]. split; [done|]. split; [by symmetry|].
    unfold aggregate_of. by rewrite (in_lane_order_swap (os1, JObj run1) (os2, JObj run2) (proj2 (rd_lane _ _ _ _ _ _ D1)) (proj2 (rd_lane _ _ _ _ _ _ D2)) O). }
  split; [apply S|]. intros H%S. by rewrite rev_involutive in H.
Qed.

(** ** The records of two runs *)

(** A record that was composed, or read back, is the document of its run. *)
Lemma record_document r v t : copy_of v (run_record_json r) -> candidate_ok t (cx_candidate (rq_context (rr_request r))) ->
  en_os (cx_environment (rq_context (rr_request r))) ∈ REQUIRED_OS ->
  exists run, run_document (rr_policy r) t v (cx_candidate (rq_context (rr_request r))) (en_os (cx_environment (rq_context (rr_request r)))) run /\
    copy_of (JObj run) (run_json r).
Proof.
  intros V C O. apply (copy_dict _ _ RUN_RECORD_FIELDS) in V as (m & E & F); [|distinct_names|vm_compute; reflexivity].
  pose proof (F "run"%string) as R. pose proof R as R'. apply (copy_dict _ _ RUN_FIELDS) in R as (run & ER & FR); [|distinct_names|vm_compute; reflexivity].
  assert (X : JObj run = member m "run").
  { unfold exact_object in ER. destruct (member m "run"); try discriminate ER. destruct (same_fields _ _) in ER; [|discriminate ER]. by injection ER as ->. }
  exists run. split; [|rewrite X; exact R']. constructor; [|exact C|].
  - exists m. split; [exact E|]. split; [apply copy_int, (F "schema_version"%string)|]. split; [apply copy_str, (F "document"%string)|].
    split; [apply copy_str, (F "trust_policy_sha256"%string)|]. split; [apply candidate_copy, (F "candidate"%string)|exact ER].
  - split; [apply copy_str, (FR "os"%string)|exact O].
Qed.

(** The run records of one release are aggregated.  Two run records under the
    pinned policy, of one candidate, one on each lane, are accepted by
    [compose_physical_aggregate] as they were composed or as they are read back
    from the archive, in either order and with the same result, as soon as the
    clock is past the build: the aggregate of that policy and candidate with the
    run of the current macOS first. *)
Theorem run_records_aggregate policy_file policy r1 r2 v1 v2 t1 t2 :
  load_source_pinned_policy policy_file = Ok policy -> rr_policy r1 = policy -> rr_policy r2 = policy ->
  cx_candidate (rq_context (rr_request r1)) = cx_candidate (rq_context (rr_request r2)) ->
  candidate_ok t1 (cx_candidate (rq_context (rr_request r1))) -> candidate_ok t2 (cx_candidate (rq_context (rr_request r1))) ->
  en_os (cx_environment (rq_context (rr_request r1))) = u "current-macos" ->
  en_os (cx_environment (rq_context (rr_request r2))) = u "macos15" ->
  copy_of v1 (run_record_json r1) -> copy_of v2 (run_record_json r2) ->
  exists run1 run2, copy_of (JObj run1) (run_json r1) /\ copy_of (JObj run2) (run_json r2) /\
    let g := {| ag_policy_sha256 := RELEASE_TRUST_POLICY_SHA256; ag_candidate := cx_candidate (rq_context (rr_request r1));
                ag_runs := in_lane_order (u "current-macos", JObj run1) (u "macos15", JObj run2) |} in
    compose_physical_aggregate policy_file [(t1, v1); (t2, v2)] = Ok g /\ compose_physical_aggregate policy_file [(t1, v2); (t2, v1)] = Ok g.
Proof.
  intros P E1 E2 EC C1 C2 O1 O2 V1 V2.
  destruct (pinned_policy_ok _ _ P) as [_ PS]. pose proof (proj2 (lanes (u "current-macos")) (or_introl eq_refl)) as L1.
  pose proof (proj2 (lanes (u "macos15")) (or_intror eq_refl)) as L2.
  destruct (record_document r1 v1 t1 V1) as (run1 & D1 & X1); [done|by rewrite O1|].
  destruct (record_document r2 v2 t2 V2) as (run2 & D2 & X2); [by rewrite <-EC|by rewrite O2|].
  rewrite E1, O1 in D1. rewrite E2, O2, <-EC in D2. exists run1, run2. split; [exact X1|]. split; [exact X2|].
  assert (D1' : run_document policy t2 v1 (cx_candidate (rq_context (rr_request r1))) (u "current-macos") run1) by (destruct D1; by constructor).
  assert (D2' : run_document policy t1 v2 (cx_candidate (rq_context (rr_request r1))) (u "macos15") run2) by (destruct D2; by constructor).
  assert (N : u "current-macos" <> u "macos15") by (vm_compute; discriminate). rewrite <-PS. split; apply aggregate_iff.
  - exists policy, (cx_candidate (rq_context (rr_request r1))), t1, v1, (u "current-macos"), run1, t2, v2, (u "macos15"), run2. done.
  - exists policy, (cx_candidate (rq_context (rr_request r1))), t1, v2, (u "macos15"), run2, t2, v1, (u "current-macos"), run1.
    do 4 (split; [done|]). split; [by symmetry|]. reflexivity.
Qed.

(** ** The sample run on both lanes *)

Definition sample_lane (os : str) : environment :=
  {| en_os := os; en_macos_version := u "26.6"; en_macos_build := u "25G72"; en_machine_sha256 := replicate 64 97; en_hardware_model := u "Mac16,1";
     en_boot_environment_sha256 := replicate 64 98 |}.
Definition lane_record (policy : CollectorTrustPolicy) (os : str) : run_record := sample_record policy (sample_lane os) (replicate 64 99).

Lemma run_records_aggregate_witness : exists policy run1 run2,
  let g := {| ag_policy_sha256 := RELEASE_TRUST_POLICY_SHA256; ag_candidate := Demo.candidate;
              ag_runs := in_lane_order (u "current-macos", JObj run1) (u "macos15", JObj run2) |} in
  let v1 := run_record_json (lane_record policy (u "current-macos")) in
  let v2 := normalize (run_record_json (lane_record policy (u "macos15"))) in
  compose_physical_aggregate (Ok policy_file) [(moment Demo.start, v1); (moment Demo.start, v2)] = Ok g /\
  compose_physical_aggregate (Ok policy_file) [(moment Demo.start, v2); (moment Demo.start, v1)] = Ok g.
Proof.
  destruct policy_file_loads as (policy & P & _). exists policy.
  assert (C : candidate_ok (moment Demo.start) Demo.candidate).
  { destruct Demo.initializes as (e & p & I). by apply initialize_context_ok in I as (_ & I & _). }
  destruct (run_records_aggregate (Ok policy_file) policy (lane_record policy (u "current-macos")) (lane_record policy (u "macos15")) _ _
    (moment Demo.start) (moment Demo.start) P eq_refl eq_refl eq_refl C C eq_refl eq_refl (or_introl eq_refl) (or_intror eq_refl)) as (run1 & run2 & _ & _ & H).
  exists run1, run2. exact H.
Defined.
