(* ===== verification/EvidenceGate.v ===== *)
(** * The release gate of the physical evidence

    src/scripts/harness/physical_evidence_aggregator.py: the aggregate of the two
    runs is reopened below one directory with every report and raw artifact, each
    report is validated by its harness, and a run counts only when the collector's
    signature verifies on the receipt payload that is rebuilt from what was read.

    The validators of the four harnesses are programs against the reader they are
    handed ([Programs.program]), as in finalization.  Reading the policy file is a
    parameter.  [datetime.fromisoformat], whose grammar depends on the version of
    Python, is a parameter too: the moment and the UTC offset of the texts it
    accepts. *)

From S2P Require Import Prelude Sha256 Text Json DateTime Effects Programs Base64 Ps256 TrustPolicy Archive Observation.
From S2P Require Import Python Timestamp Identity Catalogue CollectorRequest Composition ArtifactReader ProofMaterial.

Open Scope Z_scope.
Open Scope list_scope.

Definition PEE {A} : result pyexn A := Err PhysicalEvidenceError.

(** ** The release matrix *)

(** [REQUIRED_MACOS_VERSIONS] and [REQUIRED_MACOS_BUILDS]: version and build of each lane. *)
Definition REQUIRED_RUNS_BY_OS : list (str * (str * str)) :=
  [(u "current-macos", (u "26.6", u "25G72")); (u "macos15", (u "15.7.8", u "24G824"))].
Definition STABLE_MATRIX_GENERAL_AVAILABILITY : Z := moment (Stamp (DateTime 2026 7 27 0 0 0) 0).
Definition EXPECTED_TOOL_VERSIONS : list (str * str) :=
  [(u "lifecycle", u "lifecycle-matrix-v4"); (u "packet", u "packet-evidence-v4"); (u "performance", u "performance-gates-v3");
   (u "adversarial", u "adversarial-clients-v3")].
Definition REPORT_KINDS : list (str * str) :=
  [(u "lifecycle", u "lifecycle-report"); (u "packet", u "packet-report"); (u "performance", u "performance-report");
   (u "adversarial", u "adversarial-report")].
(** [sorted(REQUIRED_HARNESSES)]. *)
Definition SORTED_HARNESSES : list str := map u ["adversarial"; "lifecycle"; "packet"; "performance"]%string.
Definition COLLECTOR_FIELDS : list str := map u ["version"; "source_sha256"; "executable_sha256"; "key_version"; "algorithm"; "signature"]%string.

(** ** What the harnesses return *)

(** The parts of [result] the gate looks at. *)
Record validation := {
  vl_document : json; vl_proof : json; vl_environment : json; vl_parameters : json; vl_identity_candidate : json;
  vl_artifacts : list (str * ArtifactDescriptor)
}.
Definition artifact_request : Type := list str * json.
Definition artifact_answer (a : artifact_request) : Type := ArtifactDescriptor * bytes.
Definition harness_validators : Type := str -> json -> program artifact_answer validation.

Definition is_harness_error (e : pyexn) : bool :=
  match e with LifecycleMatrixError | PacketEvidenceError | PerformanceGateError | AdversarialMatrixError => true | _ => false end.

(** [value[field]]. *)
Definition index (value : json) (field : string) : result pyexn json :=
  match value with JObj l => match obj_get l (u field) with Some v => Ok v | None => Err KeyError end | _ => Err TypeError end.
(** [value.get(field)]. *)
Definition get (value : json) (field : string) : result pyexn json :=
  match value with JObj l => Ok (member l field) | _ => Err OtherException end.

(** ** A run *)

Record gate_run := {
  gr_os : str; gr_macos_version : str; gr_macos_build : str; gr_machine_sha256 : str; gr_hardware_model : str;
  gr_boot_environment_sha256 : str; gr_captured_at : str; gr_completed_at : str; gr_signed_at : str;
  gr_captured : Z; gr_completed : Z; gr_signed : Z; gr_run_id : str; gr_run_nonce : str
}.
Record gate_collector := {
  gc_version : str; gc_source_sha256 : str; gc_executable_sha256 : str; gc_key_version : str; gc_algorithm : str; gc_signature : str
}.

(** The sets that span the runs. *)
Record seen := {
  sg_os : list str; sg_run_ids : list str; sg_nonces : list str; sg_machines : list str; sg_hardware_models : list str;
  sg_boot_environments : list str
}.
Definition nothing_seen : seen := {|
  sg_os := []; sg_run_ids := []; sg_nonces := []; sg_machines := []; sg_hardware_models := []; sg_boot_environments := [] |}.

Section Gate.
Context (iso : str -> option (Z * option Z)).

Definition _timestamp (value : json) : result pyexn Z :=
  match value with
  | JStr s =>
      raise_if negb (List.last s 0 =? 90) with PhysicalEvidenceError ;;
      match iso (removelast s ++ u "+00:00") with Some (t, Some 0) => Ok t | _ => PEE end
  | _ => PEE
  end.

Definition _bounded_text (value : json) (maximum : Z) : result pyexn str :=
  match value with
  | JStr s =>
      raise_if bool_decide (strip s = []) with PhysicalEvidenceError ;;
      match utf8_encode s with
      | None => Err ValueError
      | Some encoded => raise_if (maximum <? len encoded) || has_control s with PhysicalEvidenceError ;; Ok s
      end
  | _ => PEE
  end.

Definition _candidate (value : json) : result pyexn (Candidate * Z) :=
  candidate ← of_raw (exact_object value CANDIDATE_FIELDS);
  raise_if negb (json_eq_str (member candidate "version") PRODUCT_VERSION) with PhysicalEvidenceError ;;
  build_number ← match canonical_build_version (member candidate "build_number") with Some b => Ok b | None => PEE end;
  app_manifest ← require_sha256 (member candidate "app_manifest_sha256");
  signed_app_tree ← require_sha256 (member candidate "signed_app_tree_sha256");
  artifact_hash_manifest ← require_sha256 (member candidate "artifact_hash_manifest_sha256");
  built_at ← _timestamp (member candidate "built_at");
  Ok ({| ca_version := PRODUCT_VERSION; ca_build_number := build_number; ca_app_manifest_sha256 := app_manifest;
         ca_signed_app_tree_sha256 := signed_app_tree; ca_artifact_hash_manifest_sha256 := artifact_hash_manifest;
         ca_built_at := json_text (member candidate "built_at") |}, built_at).

Definition _collector (value : json) (policy : CollectorTrustPolicy) : result pyexn gate_collector :=
  collector ← of_raw (exact_object value COLLECTOR_FIELDS);
  version ← require_identifier (member collector "version");
  source ← require_sha256 (member collector "source_sha256");
  executable ← require_sha256 (member collector "executable_sha256");
  raise_if negb (str_eqb version (tp_collector_version policy)) with PhysicalEvidenceError ;;
  raise_if negb (str_eqb source (tp_collector_source_sha256 policy)) with PhysicalEvidenceError ;;
  raise_if negb (str_eqb executable (tp_collector_executable_sha256 policy)) with PhysicalEvidenceError ;;
  raise_if negb (json_eq_str (member collector "key_version") (tp_key_version policy)) with PhysicalEvidenceError ;;
  raise_if negb (json_eq_str (member collector "algorithm") (tp_algorithm policy)) with PhysicalEvidenceError ;;
  match member collector "signature" with
  | JStr signature =>
      Ok {| gc_version := version; gc_source_sha256 := source; gc_executable_sha256 := executable;
            gc_key_version := json_text (member collector "key_version"); gc_algorithm := json_text (member collector "algorithm");
            gc_signature := signature |}
  | _ => PEE
  end.

Definition _proof_expected (c : Candidate) (run : gate_run) (collector : gate_collector) : json :=
  JObj [(u "schema_version", JInt PROOF_SCHEMA_VERSION); (u "run_id", JStr (gr_run_id run)); (u "run_nonce", JStr (gr_run_nonce run));
        (u "candidate", JObj [(u "app_manifest_sha256", JStr (ca_app_manifest_sha256 c));
                              (u "artifact_hash_manifest_sha256", JStr (ca_artifact_hash_manifest_sha256 c));
                              (u "build_number", JStr (ca_build_number c));
                              (u "signed_app_tree_sha256", JStr (ca_signed_app_tree_sha256 c)); (u "version", JStr (ca_version c))]);
        (u "collector", JObj [(u "version", JStr (gc_version collector)); (u "source_sha256", JStr (gc_source_sha256 collector));
                              (u "executable_sha256", JStr (gc_executable_sha256 collector));
                              (u "algorithm", JStr (gc_algorithm collector)); (u "key_version", JStr (gc_key_version collector))])].

(** The fields of [value] are the expected ones. *)
Fixpoint agree (value : json) (expected : list (string * json)) : result pyexn () :=
  match expected with
  | [] => Ok ()
  | (field, wanted) :: expected =>
      found ← index value field;
      raise_if negb (py_eq found wanted) with PhysicalEvidenceError ;;
      agree value expected
  end.

Definition _identity_check (policy : CollectorTrustPolicy) (harness : str) (result : validation) (run : gate_run) : Prelude.result pyexn () :=
  if str_eqb harness (u "lifecycle") then
    agree (vl_environment result)
      [("machine_sha256", JStr (gr_machine_sha256 run)); ("machine_identity_scheme", tp_machine_identity_scheme policy);
       ("hardware_model", JStr (gr_hardware_model run)); ("virtualization_present", JBool false);
       ("boot_environment_sha256", JStr (gr_boot_environment_sha256 run)); ("boot_environment_scheme", tp_boot_environment_scheme policy);
       ("macos_build", JStr (gr_macos_build run))]%string
  else if str_eqb harness (u "packet") || str_eqb harness (u "adversarial") then
    platform ← index (vl_document result) "platform";
    agree platform [("macos_version", JStr (gr_macos_version run)); ("hardware_model", JStr (gr_hardware_model run))]%string
  else if str_eqb harness (u "performance") then
    machine ← index (vl_parameters result) "machine";
    agree machine
      [("macos_version", JStr (gr_macos_version run)); ("macos_build", JStr (gr_macos_build run));
       ("machine_sha256", JStr (gr_machine_sha256 run)); ("hardware_model", JStr (gr_hardware_model run))]%string
  else PEE.

(** The subjects a harness must have found, each once. *)
Definition exact_subjects (harness : str) (subjects : list str) : bool :=
  no_repeat subjects &&
  (if str_eqb harness (u "lifecycle") then set_eq subjects EXPECTED_LIFECYCLE_RAW_SUBJECTS
   else if str_eqb harness (u "packet") then
     subset EXPECTED_PACKET_RAW_SUBJECTS subjects && subset subjects (EXPECTED_PACKET_RAW_SUBJECTS ++ OPTIONAL_PACKET_RAW_SUBJECTS)
   else if str_eqb harness (u "performance") then set_eq subjects REQUIRED_PERFORMANCE_SUBJECTS
   else set_eq subjects REQUIRED_ADVERSARIAL_RAW_SUBJECTS).

(** The fields of the document that repeat the entry of the report. *)
Fixpoint repeated (document : json) (report : list (str * json)) (fields : list string) : result pyexn () :=
  match fields with
  | [] => Ok ()
  | field :: fields =>
      found ← get document field;
      raise_if negb (py_eq found (member report field)) with PhysicalEvidenceError ;;
      repeated document report fields
  end.

(** The checks of [_validate_report] before its artifact is read: the texts of the
    times and the artifact. *)
Definition report_entry (harness : str) (value : json) (built_at : Z) (run : gate_run) : result pyexn (list (str * json) * str * str) :=
  report ← of_raw (exact_object value REPORT_FIELDS);
  match assoc EXPECTED_TOOL_VERSIONS harness, assoc REPORT_KINDS harness with
  | Some tool_version, Some kind =>
      raise_if negb (json_eq_str (member report "tool_version") tool_version) with PhysicalEvidenceError ;;
      captured_at ← _timestamp (member report "captured_at");
      completed_at ← _timestamp (member report "completed_at");
      signed_at ← _timestamp (member report "signed_at");
      raise_if negb (in_order [built_at; gr_captured run; captured_at; completed_at; signed_at] && (completed_at <=? gr_completed run) &&
                     (signed_at <=? gr_signed run)) with PhysicalEvidenceError ;;
      Ok (report, tool_version, kind)
  | _, _ => Err KeyError
  end.

(** Its checks of what the harness found in the document. *)
Definition report_found (policy : CollectorTrustPolicy) (harness : str) (report : list (str * json)) (c : Candidate) (run : gate_run)
  (collector : gate_collector) (document : json) (result : validation) : Prelude.result pyexn () :=
  proof ← parse_proof_binding (vl_proof result);
  raise_if negb (py_eq proof (_proof_expected c run collector)) with PhysicalEvidenceError ;;
  version ← get document "harness_version";
  raise_if negb (py_eq version (member report "tool_version")) with PhysicalEvidenceError ;;
  _ ← repeated document report ["captured_at"; "completed_at"; "signed_at"]%string;
  _ ← _identity_check policy harness result run;
  raise_if str_eqb harness (u "lifecycle") && negb (py_eq (vl_identity_candidate result) (candidate_json c)) with PhysicalEvidenceError ;;
  raise_if negb (exact_subjects harness (map fst (vl_artifacts result))) with PhysicalEvidenceError ;;
  Ok ().

(** ** A run, up to its reports *)

(** [MACOS_BUILD_RE] of lifecycle_matrix.py: [^[0-9]{2}[A-Z][0-9]{1,5}[a-z]?$]. *)
Definition LIFECYCLE_MACOS_BUILD_RE (s : str) : bool :=
  MACOS_BUILD_RE s || (lower_char (List.last s 0) && MACOS_BUILD_RE (removelast s)).

(** The version and the build of the lane. *)
Definition run_release (raw : list (str * json)) (sg : seen) : result pyexn (str * str * str) :=
  match member raw "os" with
  | JStr os_label =>
      match assoc REQUIRED_RUNS_BY_OS os_label with
      | None => PEE
      | Some (expected_version, expected_build) =>
          raise_if mem os_label (sg_os sg) with PhysicalEvidenceError ;;
          macos_version ← _bounded_text (member raw "macos_version") 256;
          raise_if negb (str_eqb macos_version expected_version) with PhysicalEvidenceError ;;
          match member raw "macos_build" with
          | JStr macos_build =>
              raise_if negb (LIFECYCLE_MACOS_BUILD_RE macos_build) with PhysicalEvidenceError ;;
              raise_if negb (str_eqb macos_build expected_build) with PhysicalEvidenceError ;;
              Ok (os_label, macos_version, macos_build)
          | _ => PEE
          end
      end
  | JList _ | JObj _ => Err TypeError
  | _ => PEE
  end.

(** The machine and its boot environment. *)
Definition run_machine (policy : CollectorTrustPolicy) (raw : list (str * json)) (sg : seen) : result pyexn (str * str * str) :=
  machine ← require_sha256 (member raw "machine_sha256");
  raise_if negb (bool_decide (sg_machines sg = [])) && negb (mem machine (sg_machines sg)) with PhysicalEvidenceError ;;
  raise_if negb (py_eq (member raw "machine_identity_scheme") (tp_machine_identity_scheme policy)) with PhysicalEvidenceError ;;
  hardware_model ← match member raw "hardware_model" with
    | JStr s => catch (fun e => match e with PhysicalMachineIdentityError => true | _ => false end) PhysicalEvidenceError (validate_physical_hardware_model s)
    | _ => PEE end;
  raise_if negb (bool_decide (sg_hardware_models sg = [])) && negb (mem hardware_model (sg_hardware_models sg)) with PhysicalEvidenceError ;;
  raise_if negb (match member raw "virtualization_present" with JBool false => true | _ => false end) with PhysicalEvidenceError ;;
  boot_environment ← require_sha256 (member raw "boot_environment_sha256");
  raise_if negb (py_eq (member raw "boot_environment_scheme") (tp_boot_environment_scheme policy)) with PhysicalEvidenceError ;;
  raise_if mem boot_environment (sg_boot_environments sg) with PhysicalEvidenceError ;;
  raise_if negb (match member raw "clean_install" with JBool true => true | _ => false end) with PhysicalEvidenceError ;;
  Ok (machine, hardware_model, boot_environment).

(** [seen.add(x)]. *)
Definition add (x : str) (l : list str) : list str := if mem x l then l else l ++ [x].

(** [_validate_run] up to the record [run], with the sets it has added to; [now]
    is its reading of the clock. *)
Definition run_identity (policy : CollectorTrustPolicy) (built_at now : Z) (sg : seen) (value : json)
  : result pyexn (list (str * json) * gate_run * seen) :=
  raw ← of_raw (exact_object value RUN_FIELDS);
  '(os_label, macos_version, macos_build) ← run_release raw sg;
  '(machine, hardware_model, boot_environment) ← run_machine policy raw sg;
  captured_at ← _timestamp (member raw "captured_at");
  completed_at ← _timestamp (member raw "completed_at");
  signed_at ← _timestamp (member raw "signed_at");
  raise_if negb (in_order [Z.max built_at STABLE_MATRIX_GENERAL_AVAILABILITY; captured_at; completed_at; signed_at]) || (now <? signed_at)
    with PhysicalEvidenceError ;;
  run_id ← require_identifier (member raw "run_id");
  raise_if mem run_id (sg_run_ids sg) with PhysicalEvidenceError ;;
  run_nonce ← require_sha256 (member raw "run_nonce");
  raise_if mem run_nonce (sg_nonces sg) with PhysicalEvidenceError ;;
  Ok (raw,
      {| gr_os := os_label; gr_macos_version := macos_version; gr_macos_build := macos_build; gr_machine_sha256 := machine;
         gr_hardware_model := hardware_model; gr_boot_environment_sha256 := boot_environment;
         gr_captured_at := json_text (member raw "captured_at"); gr_completed_at := json_text (member raw "completed_at");
         gr_signed_at := json_text (member raw "signed_at"); gr_captured := captured_at; gr_completed := completed_at;
         gr_signed := signed_at; gr_run_id := run_id; gr_run_nonce := run_nonce |},
      {| sg_os := add os_label (sg_os sg); sg_run_ids := add run_id (sg_run_ids sg); sg_nonces := add run_nonce (sg_nonces sg);
         sg_machines := add machine (sg_machines sg); sg_hardware_models := add hardware_model (sg_hardware_models sg);
         sg_boot_environments := add boot_environment (sg_boot_environments sg) |}).

(** [_receipt_payload] of what was read. *)
Definition gate_payload (policy_sha256 : str) (c : Candidate) (run : gate_run) (collector : gate_collector)
  (reports : list report_binding) (raws : list raw_binding) : json :=
  JObj [(u "schema_version", JInt RECEIPT_SCHEMA_VERSION); (u "trust_policy_sha256", JStr policy_sha256);
        (u "candidate", candidate_json c);
        (u "run", JObj [(u "os", JStr (gr_os run)); (u "macos_version", JStr (gr_macos_version run));
                        (u "macos_build", JStr (gr_macos_build run)); (u "machine_sha256", JStr (gr_machine_sha256 run));
                        (u "clean_install", JBool true); (u "captured_at", JStr (gr_captured_at run));
                        (u "completed_at", JStr (gr_completed_at run)); (u "signed_at", JStr (gr_signed_at run));
                        (u "run_id", JStr (gr_run_id run)); (u "run_nonce", JStr (gr_run_nonce run))]);
        (u "collector", JObj [(u "version", JStr (gc_version collector)); (u "source_sha256", JStr (gc_source_sha256 collector));
                              (u "executable_sha256", JStr (gc_executable_sha256 collector));
                              (u "key_version", JStr (gc_key_version collector)); (u "algorithm", JStr (gc_algorithm collector))]);
        (u "reports", JList (map report_json (sort_reports reports)));
        (u "raw_artifacts", JList (map raw_json (sort_raw raws)))].

(** The digest of the receipt, when its signature verifies. *)
Definition verified_receipt (policy : CollectorTrustPolicy) (c : Candidate) (run : gate_run) (collector : gate_collector)
  (reports : list report_binding) (raws : list raw_binding) : result pyexn str :=
  payload ← catch is_raw_error PhysicalEvidenceError
    (payload ← of_raw (canonical_json (gate_payload (tp_policy_sha256 policy) c run collector reports raws));
     _ ← of_raw (verify_ps256 payload (JStr (gc_signature collector)) (tp_modulus policy) (tp_exponent policy));
     Ok payload);
  Ok (hexdigest payload).

(** ** Publication *)

Record publication := {
  pb_os : str; pb_category : str; pb_tool_version : str; pb_captured_at : str; pb_completed_at : str; pb_signed_at : str;
  pb_report_sha256 : str; pb_artifact_path : str
}.
Definition category_map : list (str * str) :=
  [(u "lifecycle", u "installed_matrix"); (u "packet", u "packet"); (u "performance", u "performance"); (u "adversarial", u "security")].

(** A binding of [report], in a category, to the bytes of [d]. *)
Definition published_as (os_label category : str) (report : report_binding) (d : ArtifactDescriptor) : publication :=
  {| pb_os := os_label; pb_category := category; pb_tool_version := rb_tool_version report; pb_captured_at := rb_captured_at report;
     pb_completed_at := rb_completed_at report; pb_signed_at := rb_signed_at report; pb_report_sha256 := ad_sha256 d;
     pb_artifact_path := ad_path d |}.

Fixpoint publications (os_label : str) (reports : list report_binding) : result pyexn (list publication) :=
  match reports with
  | [] => Ok []
  | report :: reports =>
      match assoc category_map (rb_harness report) with
      | None => Err KeyError
      | Some category =>
          rest ← publications os_label reports;
          Ok (published_as os_label category report (rb_descriptor report) :: rest)
      end
  end.

(** The bindings of a run, that of the soak last. *)
Definition publication_bindings (os_label : str) (reports : list report_binding) (raws : list raw_binding) : result pyexn (list publication) :=
  published ← publications os_label reports;
  let performance := u "performance" in
  let performance_raw := List.filter (fun w => str_eqb (wb_harness w) performance) raws in
  raise_if negb (set_eq (map wb_subject performance_raw) REQUIRED_PERFORMANCE_SUBJECTS) with PhysicalEvidenceError ;;
  match List.find (fun w => str_eqb (wb_subject w) LEDGER_SUBJECT) (rev performance_raw) with
  | None => Err KeyError
  | Some soak =>
      match List.find (fun r => str_eqb (rb_harness r) performance) reports with
      | None => Err OtherException
      | Some performance_report => Ok (published ++ [published_as os_label (u "soak") performance_report (wb_descriptor soak)])
      end
  end.

(** ** The gate and its reader *)

(** [raw_bindings] of a report. *)
Definition raw_bindings (harness : str) (result : validation) : list raw_binding :=
  map (fun '(subject, d) => {| wb_harness := harness; wb_subject := subject; wb_descriptor := d |}) (vl_artifacts result).

(** What a validated run gives to the aggregate. *)
Record validated_run := {
  vr_run : gate_run; vr_collector : gate_collector; vr_reports : list report_binding; vr_raws : list raw_binding;
  vr_receipt_sha256 : str; vr_published : list publication
}.

(** An entry of [installed_runs]. *)
Record installed_run := {
  ir_os : str; ir_macos_build : str; ir_machine_sha256 : str; ir_hardware_model : str; ir_boot_environment_sha256 : str;
  ir_report_hashes : list str
}.
Definition installed (r : validated_run) : installed_run :=
  {| ir_os := gr_os (vr_run r); ir_macos_build := gr_macos_build (vr_run r); ir_machine_sha256 := gr_machine_sha256 (vr_run r);
     ir_hardware_model := gr_hardware_model (vr_run r); ir_boot_environment_sha256 := gr_boot_environment_sha256 (vr_run r);
     ir_report_hashes := sort_strs (map pb_report_sha256 (vr_published r)) |}.

(** The orders of the summary's lists. *)
Definition publication_leb (a b : publication) : bool :=
  if str_eqb (pb_os a) (pb_os b) then str_leb (pb_category a) (pb_category b) else str_leb (pb_os a) (pb_os b).
Definition publication_le (a b : publication) : Prop := publication_leb a b = true.
#[export] Instance publication_le_dec a b : Decision (publication_le a b) := decide (publication_leb a b = true).
Definition installed_le (a b : installed_run) : Prop := str_leb (ir_os a) (ir_os b) = true.
#[export] Instance installed_le_dec a b : Decision (installed_le a b) := decide (str_leb (ir_os a) (ir_os b) = true).
Definition archived_leb (a b : raw_binding) : bool :=
  if str_eqb (wb_harness a) (wb_harness b) && str_eqb (wb_subject a) (wb_subject b)
  then str_leb (ad_path (wb_descriptor a)) (ad_path (wb_descriptor b)) else raw_leb a b.
Definition archived_le (a b : raw_binding) : Prop := archived_leb a b = true.
#[export] Instance archived_le_dec a b : Decision (archived_le a b) := decide (archived_leb a b = true).
Definition interval_le (a b : Z * Z) : Prop := fst a <= fst b.
#[export] Instance interval_le_dec a b : Decision (interval_le a b) := decide (fst a <= fst b).

(** No interval starts before the one before it ended. *)
Fixpoint apart (l : list (Z * Z)) : bool :=
  match l with
  | previous :: ((current :: _) as rest) => negb (fst current <? snd previous) && apart rest
  | _ => true
  end.

Record summary := {
  sm_trust_policy_sha256 : str; sm_candidate : Candidate; sm_runs : list str; sm_report_bindings : list publication;
  sm_installed_runs : list installed_run; sm_raw_artifact_manifest_sha256 : str; sm_collector_receipt_sha256 : list str;
  sm_artifact_count : Z; sm_artifact_bytes : Z
}.

Definition AGGREGATE_FIELDS : list str :=
  map u ["schema_version"; "aggregator_version"; "granted_level"; "trust_policy_sha256"; "candidate"; "runs"]%string.

(** [_validate] before its loop: the candidate, the time of its build and the runs. *)
Definition aggregate_head (policy : CollectorTrustPolicy) (fixture : bool) (value : json) : result pyexn (Candidate * Z * list json) :=
  raise_if negb (tp_release_source_pinned policy) && negb fixture with PhysicalEvidenceError ;;
  document ← of_raw (exact_object value AGGREGATE_FIELDS);
  raise_if negb (match AGGREGATE_SCHEMA_VERSION with JInt n => json_eq_int (member document "schema_version") n | _ => false end)
    with PhysicalEvidenceError ;;
  raise_if negb (py_eq (member document "aggregator_version") AGGREGATOR_VERSION) with PhysicalEvidenceError ;;
  raise_if negb (py_eq (tp_aggregate_schema_version policy) AGGREGATE_SCHEMA_VERSION) ||
           negb (py_eq (tp_aggregator_version policy) AGGREGATOR_VERSION) ||
           negb (py_eq (tp_machine_topology policy) (member (dict_items EVIDENCE_PROFILE) "machine_topology")) ||
           negb (py_eq (tp_boot_environment_scheme policy) (member (dict_items EVIDENCE_PROFILE) "boot_environment_scheme")) ||
           negb (py_eq (tp_machine_identity_scheme policy) (member (dict_items EVIDENCE_PROFILE) "machine_identity_scheme")) with PhysicalEvidenceError ;;
  raise_if negb (json_eq_str (member document "granted_level") GRANTED_LEVEL) with PhysicalEvidenceError ;;
  declared_policy ← require_sha256 (member document "trust_policy_sha256");
  raise_if negb (str_eqb declared_policy (tp_policy_sha256 policy)) with PhysicalEvidenceError ;;
  '(candidate, built_at) ← _candidate (member document "candidate");
  match member document "runs" with
  | JList runs => raise_if negb (len runs =? len REQUIRED_OS) with PhysicalEvidenceError ;; Ok (candidate, built_at, runs)
  | _ => PEE
  end.

(** [_validate] after its loop, on the runs and the sets. *)
Definition aggregate_tail (policy : CollectorTrustPolicy) (candidate : Candidate) (sg : seen) (runs : list validated_run) (count total : Z)
  : result pyexn summary :=
  raise_if negb (set_eq (sg_os sg) REQUIRED_OS) with PhysicalEvidenceError ;;
  raise_if negb (len (sg_machines sg) =? 1) with PhysicalEvidenceError ;;
  raise_if negb (len (sg_hardware_models sg) =? 1) with PhysicalEvidenceError ;;
  raise_if negb (len (sg_boot_environments sg) =? len REQUIRED_OS) with PhysicalEvidenceError ;;
  raise_if negb (apart (merge_sort interval_le (map (fun r => (gr_captured (vr_run r), gr_signed (vr_run r))) runs)))
    with PhysicalEvidenceError ;;
  raise_if negb (no_repeat (map vr_receipt_sha256 runs)) with PhysicalEvidenceError ;;
  manifest ← of_raw (canonical_json (JList (map raw_json (merge_sort archived_le (concat (map vr_raws runs))))));
  Ok {| sm_trust_policy_sha256 := tp_policy_sha256 policy; sm_candidate := candidate; sm_runs := sort_strs (sg_os sg);
        sm_report_bindings := merge_sort publication_le (concat (map vr_published runs));
        sm_installed_runs := merge_sort installed_le (map installed runs); sm_raw_artifact_manifest_sha256 := hexdigest manifest;
        sm_collector_receipt_sha256 := sort_strs (map vr_receipt_sha256 runs); sm_artifact_count := count; sm_artifact_bytes := total |}.

Section Reading.
Context {W : Type} `{PX : Posix W} (validators : harness_validators).

Definition reader_answer (a : artifact_request) : M (reading W) (artifact_answer a) := ArtifactReader.read (fst a) (snd a).

Definition _validate_report (policy : CollectorTrustPolicy) (c : Candidate) (built_at : Z) (run : gate_run) (collector : gate_collector)
  (harness : str) (value : json) : M (reading W) (report_binding * list raw_binding) :=
  '(report, tool_version, kind) ← of_result (report_entry harness value built_at run);
  '(descriptor, document) ← read_json kind (member report "artifact");
  result ← translate is_harness_error PhysicalEvidenceError (Programs.run reader_answer (validators harness document));
  _ ← of_result (report_found policy harness report c run collector document result);
  mret ({| rb_harness := harness; rb_tool_version := tool_version; rb_captured_at := json_text (member report "captured_at");
           rb_completed_at := json_text (member report "completed_at"); rb_signed_at := json_text (member report "signed_at");
           rb_descriptor := descriptor |}, raw_bindings harness result).

Fixpoint _validate_reports (policy : CollectorTrustPolicy) (c : Candidate) (built_at : Z) (run : gate_run) (collector : gate_collector)
  (reports : list (str * json)) (harnesses : list str) : M (reading W) (list report_binding * list raw_binding) :=
  match harnesses with
  | [] => mret ([], [])
  | harness :: harnesses =>
      '(report, harness_raw) ← _validate_report policy c built_at run collector harness (default JNull (obj_get reports harness));
      '(rest, raws) ← _validate_reports policy c built_at run collector reports harnesses;
      mret (report :: rest, harness_raw ++ raws)
  end.

Definition _validate_run (policy : CollectorTrustPolicy) (c : Candidate) (built_at now : Z) (sg : seen) (value : json)
  : M (reading W) (validated_run * seen) :=
  '(raw, run, sg) ← of_result (run_identity policy built_at now sg value);
  collector ← of_result (_collector (member raw "collector") policy);
  reports ← of_result (of_raw (exact_object (member raw "reports") SORTED_HARNESSES));
  '(bound, raws) ← _validate_reports policy c built_at run collector reports SORTED_HARNESSES;
  receipt_sha256 ← of_result (verified_receipt policy c run collector bound raws);
  published ← of_result (publication_bindings (gr_os run) bound raws);
  mret ({| vr_run := run; vr_collector := collector; vr_reports := bound; vr_raws := raws; vr_receipt_sha256 := receipt_sha256;
           vr_published := published |}, sg).

(** The loop of [_validate]; [now] gives the reading of the clock at an index. *)
Fixpoint _validate_runs (policy : CollectorTrustPolicy) (c : Candidate) (built_at : Z) (now : nat -> Z) (index : nat) (sg : seen)
  (values : list json) : M (reading W) (list validated_run * seen) :=
  match values with
  | [] => mret ([], sg)
  | value :: values =>
      '(run, sg) ← _validate_run policy c built_at (now index) sg value;
      '(runs, sg) ← _validate_runs policy c built_at now (S index) sg values;
      mret (run :: runs, sg)
  end.

Definition _validate (policy : CollectorTrustPolicy) (fixture : bool) (now : nat -> Z) (value : json) : M (reading W) summary :=
  before ← gets rd_object;
  '(candidate, built_at, values) ← of_result (aggregate_head policy fixture value);
  '(runs, sg) ← _validate_runs policy candidate built_at now 0 nothing_seen values;
  after ← gets rd_object;
  of_result (aggregate_tail policy candidate sg runs (ar_artifact_count after - ar_artifact_count before)
    (ar_total_bytes after - ar_total_bytes before)).

(** ** Entry points *)

(** [==] of two policies. *)
Definition policy_eqb (p q : CollectorTrustPolicy) : bool :=
  forallb (fun f => str_eqb (f p) (f q))
    [tp_policy_sha256; tp_key_version; tp_algorithm; tp_kms_algorithm; tp_protection_level; tp_attestation_format; tp_public_key_sha256;
     tp_attestation_sha256; tp_collector_version; tp_collector_source_sha256; tp_collector_executable_sha256; tp_evidence_profile_sha256] &&
  (tp_modulus p =? tp_modulus q) && (tp_exponent p =? tp_exponent q) &&
  forallb (fun f => py_eq (f p) (f q))
    [tp_aggregate_schema_version; tp_aggregator_version; tp_boot_environment_scheme; tp_machine_identity_scheme; tp_machine_topology] &&
  eqb (tp_release_source_pinned p) (tp_release_source_pinned q).

Definition _resolve_trust_policy (policy_file : result pyexn bytes) (trust_policy : option CollectorTrustPolicy) (fixture : bool)
  : result pyexn CollectorTrustPolicy :=
  if fixture then match trust_policy with None => load_release_trust_policy policy_file | Some p => Ok p end
  else
    raise_if match trust_policy with Some p => negb (tp_release_source_pinned p) | None => false end with RawArtifactError ;;
    canonical ← load_release_trust_policy policy_file;
    raise_if match trust_policy with Some p => negb (policy_eqb p canonical) | None => false end with RawArtifactError ;;
    Ok canonical.

(** [ArtifactReader(root)]. *)
Definition construct : M (reading W) () := modify (set_object (fun _ => new_reader)).

Definition validate_physical_evidence (policy_file : result pyexn bytes) (trust_policy : option CollectorTrustPolicy) (fixture : bool)
  (now : nat -> Z) (value : json) : M (reading W) summary :=
  translate is_raw_error PhysicalEvidenceError
    (check (negb fixture) RawArtifactError ≫= fun _ =>
     policy ← of_result (_resolve_trust_policy policy_file trust_policy true);
     construct ≫= fun _ =>
     with_reader
       (summary ← _validate policy true now value;
        verify_all_unchanged None ≫= fun _ => mret summary)).

(** A summary bound to the archive it came from: [aggregate_artifact] and the
    fields of [private_archive] that are not the summary's. *)
Record grant := {
  gt_summary : summary; gt_aggregate_artifact : ArtifactDescriptor; gt_artifact_count : Z; gt_artifact_bytes : Z; gt_binding_sha256 : str
}.
Definition private_archive_json (s : summary) (d : ArtifactDescriptor) : json :=
  JObj [(u "visibility", JStr (u "private-release-evidence")); (u "aggregate_artifact", descriptor_as_dict d);
        (u "raw_artifact_manifest_sha256", JStr (sm_raw_artifact_manifest_sha256 s));
        (u "collector_receipt_sha256", JList (map JStr (sm_collector_receipt_sha256 s)));
        (u "trust_policy_sha256", JStr (sm_trust_policy_sha256 s)); (u "artifact_count", JInt (sm_artifact_count s + 1));
        (u "artifact_bytes", JInt (sm_artifact_bytes s + ad_size d))].
Definition _with_private_archive_binding (s : summary) (d : ArtifactDescriptor) : result pyexn grant :=
  archive ← of_raw (canonical_json (private_archive_json s d));
  Ok {| gt_summary := s; gt_aggregate_artifact := d; gt_artifact_count := sm_artifact_count s + 1;
        gt_artifact_bytes := sm_artifact_bytes s + ad_size d; gt_binding_sha256 := hexdigest archive |}.

Definition AGGREGATE_KINDS : list str := [u "physical-aggregate"].

Definition load_physical_evidence_artifact (policy_file : result pyexn bytes) (trust_policy : option CollectorTrustPolicy) (fixture : bool)
  (now : nat -> Z) (value : json) : M (reading W) grant :=
  translate is_raw_error PhysicalEvidenceError
    (policy ← of_result (_resolve_trust_policy policy_file trust_policy fixture);
     descriptor ← of_option RawArtifactError (parse_descriptor_of AGGREGATE_KINDS value);
     construct ≫= fun _ =>
     '(parsed_descriptor, summary) ← with_reader
       ('(parsed_descriptor, data) ← ArtifactReader.read AGGREGATE_KINDS (descriptor_as_dict descriptor);
        document ← of_option RawArtifactError (load_json_bytes data);
        summary ← _validate policy fixture now document;
        verify_all_unchanged (Some (ad_path parsed_descriptor)) ≫= fun _ =>
        mret (parsed_descriptor, summary));
     of_result (_with_private_archive_binding summary parsed_descriptor)).

End Reading.
End Gate.
