(* ===== verification/GateProofs.v ===== *)
(** * What the release gate grants

    Whatever other processes do to the evidence, and whatever the validators of
    the harnesses answer: what it means that [load_physical_evidence_artifact] of
    src/scripts/harness/physical_evidence_aggregator.py returned in production. *)

From S2P Require Import Prelude Sha256 Text Json DateTime Effects Programs Base64 Ps256 TrustPolicy Archive Observation ObservationProofs.
From S2P Require Import Python Timestamp Identity Catalogue CollectorRequest Composition PolicyProofs Copies CollectorProofs ReceiptProofs AggregateProofs ArtifactReader ReaderProofs ProofMaterial EvidenceGate.

Open Scope Z_scope.
Open Scope list_scope.

(** ** What a run must be *)

Section Statements.
Context (iso : str -> option (Z * option Z)).

(** A time between two others. *)
Definition stated (text : str) (t : Z) : Prop := _timestamp iso (JStr text) = Ok t.

(** A report of a run, with its raw artifacts. *)
Record report_proven (run : gate_run) (harness : str) (part : report_binding * list raw_binding) : Prop := {
  rp_harness : rb_harness (fst part) = harness;
  rp_tool : assoc EXPECTED_TOOL_VERSIONS harness = Some (rb_tool_version (fst part));
  rp_times : exists captured completed signed, stated (rb_captured_at (fst part)) captured /\ stated (rb_completed_at (fst part)) completed /\
    stated (rb_signed_at (fst part)) signed /\ gr_captured run <= captured <= completed /\ completed <= signed <= gr_signed run /\
    completed <= gr_completed run;
  rp_raws : Forall (fun w => wb_harness w = harness) (snd part);
  rp_subjects : exact_subjects harness (map wb_subject (snd part)) = true
}.

(** A run that the collector of [policy] signed for [c], as the document [value]
    states it. *)
Record run_proven (policy : CollectorTrustPolicy) (c : Candidate) (built_at now : Z) (value : json) (r : validated_run) : Prop := {
  rn_source : exists sg raw sg', run_identity iso policy built_at now sg value = Ok (raw, vr_run r, sg') /\
    _collector (member raw "collector") policy = Ok (vr_collector r);
  rn_release : assoc REQUIRED_RUNS_BY_OS (gr_os (vr_run r)) = Some (gr_macos_version (vr_run r), gr_macos_build (vr_run r));
  rn_hardware : PHYSICAL_MODEL_PATTERN (gr_hardware_model (vr_run r)) = true;
  rn_times : stated (gr_captured_at (vr_run r)) (gr_captured (vr_run r)) /\ stated (gr_completed_at (vr_run r)) (gr_completed (vr_run r)) /\
    stated (gr_signed_at (vr_run r)) (gr_signed (vr_run r)) /\
    built_at <= gr_captured (vr_run r) /\ STABLE_MATRIX_GENERAL_AVAILABILITY <= gr_captured (vr_run r) /\
    gr_captured (vr_run r) <= gr_completed (vr_run r) <= gr_signed (vr_run r) /\ gr_signed (vr_run r) <= now;
  rn_collector : gc_version (vr_collector r) = tp_collector_version policy /\ gc_source_sha256 (vr_collector r) = tp_collector_source_sha256 policy /\
    gc_executable_sha256 (vr_collector r) = tp_collector_executable_sha256 policy /\ gc_key_version (vr_collector r) = tp_key_version policy /\
    gc_algorithm (vr_collector r) = tp_algorithm policy;
  rn_parts : exists parts, vr_reports r = map fst parts /\ vr_raws r = concat (map snd parts) /\
    Forall2 (report_proven (vr_run r)) SORTED_HARNESSES parts;
  rn_receipt : exists payload,
    canonical_json (gate_payload (tp_policy_sha256 policy) c (vr_run r) (vr_collector r) (vr_reports r) (vr_raws r)) = Some payload /\
    verify_ps256 payload (JStr (gc_signature (vr_collector r))) (tp_modulus policy) (tp_exponent policy) = Some () /\
    vr_receipt_sha256 r = hexdigest payload
}.

(** What the aggregate states: the level, the policy, the candidate and two runs. *)
Definition aggregate_states (policy : CollectorTrustPolicy) (document : json) (c : Candidate) (built_at : Z) (v1 v2 : json) : Prop :=
  exists l, exact_object document AGGREGATE_FIELDS = Some l /\ member l "granted_level" = JStr GRANTED_LEVEL /\
    member l "trust_policy_sha256" = JStr (tp_policy_sha256 policy) /\
    EvidenceGate._candidate iso (member l "candidate") = Ok (c, built_at) /\ member l "runs" = JList [v1; v2].
End Statements.

(** Two runs of one machine: a lane each, nothing shared but the machine, and one
    signed before the other began. *)
Record two_lanes (a b : gate_run) : Prop := {
  tl_lanes : gr_os a <> gr_os b;
  tl_machine : gr_machine_sha256 a = gr_machine_sha256 b;
  tl_hardware : gr_hardware_model a = gr_hardware_model b;
  tl_boot : gr_boot_environment_sha256 a <> gr_boot_environment_sha256 b;
  tl_run_id : gr_run_id a <> gr_run_id b;
  tl_nonce : gr_run_nonce a <> gr_run_nonce b;
  tl_apart : gr_signed a <= gr_captured b \/ gr_signed b <= gr_captured a
}.

(** A grant that states the number and size of the artifacts that were accepted,
    no path or digest of which occurs twice, and that accepted the aggregate and
    two reports of every harness. *)
Record accounted (g : grant) (accepted : list ArtifactDescriptor) : Prop := {
  ac_count : gt_artifact_count g = len accepted /\ len accepted <= MAX_ARTIFACT_COUNT;
  ac_bytes : gt_artifact_bytes g = ReaderProofs.total_size accepted /\ ReaderProofs.total_size accepted <= MAX_TOTAL_ARTIFACT_BYTES;
  ac_paths : NoDup (map ad_path accepted);
  ac_digests : NoDup (map ad_sha256 accepted);
  ac_reports : exists reports, map rb_harness reports = SORTED_HARNESSES ++ SORTED_HARNESSES /\
    gt_aggregate_artifact g :: map rb_descriptor reports `sublist_of` accepted
}.

(** ** The record of a run *)

Section Records.
Context (iso : str -> option (Z * option Z)).

Lemma gate_timestamp_ok v t : _timestamp iso v = Ok t -> v = JStr (json_text v) /\ stated iso (json_text v) t.
Proof. destruct v; try discriminate. by intros H. Qed.

Lemma run_release_ok raw sg os version build : run_release raw sg = Ok (os, version, build) ->
  os ∉ sg_os sg /\ assoc REQUIRED_RUNS_BY_OS os = Some (version, build).
Proof.
  unfold run_release. intros H. destruct (member raw "os") as [| | | |s| |]; try discriminate H.
  destruct (assoc REQUIRED_RUNS_BY_OS s) as [[ev eb]|] eqn:A; [|discriminate H]. destruct (mem s _) eqn:G in H; [discriminate H|]. inv_bind H.
  destruct (negb _) eqn:G1 in H; [discriminate H|]. destruct (member raw "macos_build") as [| | | |b| |]; try discriminate H.
  destruct (negb _) in H; [discriminate H|]. destruct (negb (str_eqb b eb)) eqn:G2 in H; [discriminate H|]. injection H as <- <- <-.
  apply negb_false_iff, str_eqb_eq in G1 as ->, G2 as ->. by apply mem_false in G.
Qed.

(** A set that is empty, or that has the element. *)
Definition same_as (x : str) (l : list str) : Prop := l = [] \/ x ∈ l.
Lemma same_as_ok x l : negb (bool_decide (l = [])) && negb (mem x l) = false -> same_as x l.
Proof.
  intros [H|H]%andb_false_iff; apply negb_false_iff in H; [left; by apply bool_decide_eq_true in H|right; by apply mem_spec].
Qed.

Lemma run_machine_ok policy raw sg machine hardware boot : run_machine policy raw sg = Ok (machine, hardware, boot) ->
  same_as machine (sg_machines sg) /\ same_as hardware (sg_hardware_models sg) /\ boot ∉ sg_boot_environments sg /\
  PHYSICAL_MODEL_PATTERN hardware = true.
Proof.
  unfold run_machine. intros H. inv_bind H. destruct (negb _ && _) eqn:G1 in H; [discriminate H|]. destruct (negb _) in H; [discriminate H|]. inv_bind H.
  destruct (negb _ && _) eqn:G2 in H; [discriminate H|]. destruct (negb _) in H; [discriminate H|]. inv_bind H. destruct (negb _) in H; [discriminate H|].
  destruct (mem _ _) eqn:G3 in H; [discriminate H|]. destruct (negb _) in H; [discriminate H|]. injection H as <- <- <-.
  apply same_as_ok in G1, G2. apply mem_false in G3. split; [done|]. split; [done|]. split; [done|].
  destruct (member raw "hardware_model") as [| | | |s| |]; try discriminate E0. apply catch_ok in E0. unfold validate_physical_hardware_model in E0.
  destruct (PHYSICAL_MODEL_PATTERN s) eqn:P; [|discriminate E0]. by injection E0 as <-.
Qed.

(** The sets after a run, from those before. *)
Definition seen_after (run : gate_run) (sg : seen) : seen := {|
  sg_os := add (gr_os run) (sg_os sg); sg_run_ids := add (gr_run_id run) (sg_run_ids sg); sg_nonces := add (gr_run_nonce run) (sg_nonces sg);
  sg_machines := add (gr_machine_sha256 run) (sg_machines sg); sg_hardware_models := add (gr_hardware_model run) (sg_hardware_models sg);
  sg_boot_environments := add (gr_boot_environment_sha256 run) (sg_boot_environments sg) |}.

(** A run that may follow those that were seen. *)
Record may_follow (sg : seen) (run : gate_run) : Prop := {
  mf_os : gr_os run ∉ sg_os sg;
  mf_machine : same_as (gr_machine_sha256 run) (sg_machines sg);
  mf_hardware : same_as (gr_hardware_model run) (sg_hardware_models sg);
  mf_boot : gr_boot_environment_sha256 run ∉ sg_boot_environments sg;
  mf_run_id : gr_run_id run ∉ sg_run_ids sg;
  mf_nonce : gr_run_nonce run ∉ sg_nonces sg
}.

Lemma gate_order a b c d : in_order [a; b; c; d] = true <-> a <= b /\ b <= c <= d.
Proof. cbn [in_order]. rewrite !andb_true_iff, !Z.leb_le. tauto. Qed.

Lemma run_identity_ok policy built_at now sg value raw run sg' : run_identity iso policy built_at now sg value = Ok (raw, run, sg') ->
  may_follow sg run /\ sg' = seen_after run sg /\
  assoc REQUIRED_RUNS_BY_OS (gr_os run) = Some (gr_macos_version run, gr_macos_build run) /\
  PHYSICAL_MODEL_PATTERN (gr_hardware_model run) = true /\
  stated iso (gr_captured_at run) (gr_captured run) /\ stated iso (gr_completed_at run) (gr_completed run) /\ stated iso (gr_signed_at run) (gr_signed run) /\
  built_at <= gr_captured run /\ STABLE_MATRIX_GENERAL_AVAILABILITY <= gr_captured run /\
  gr_captured run <= gr_completed run <= gr_signed run /\ gr_signed run <= now.
Proof.
  unfold run_identity. intros H. inv_bind H. inv_bind H. destruct v0 as [[os version] build]. apply run_release_ok in E0 as [R1 R2].
  inv_bind H. destruct v0 as [[machine hardware] boot]. apply run_machine_ok in E0 as (M1 & M2 & M3 & M4).
  inv_bind H. apply gate_timestamp_ok in E0 as [_ T1]. inv_bind H. apply gate_timestamp_ok in E0 as [_ T2]. inv_bind H. apply gate_timestamp_ok in E0 as [_ T3].
  destruct (_ || _) eqn:G in H; [discriminate H|]. apply orb_false_iff in G as [G G0]. apply negb_false_iff, gate_order in G. apply Z.ltb_ge in G0.
  inv_bind H. destruct (mem _ _) eqn:G1 in H; [discriminate H|]. inv_bind H. destruct (mem _ _) eqn:G2 in H; [discriminate H|].
  injection H as _ <- <-. apply mem_false in G1, G2. split; [by constructor|]. do 6 (split; [done|]).
  cbn [gr_captured gr_completed gr_signed]. lia.
Qed.

Lemma collector_ok value policy k : _collector value policy = Ok k ->
  gc_version k = tp_collector_version policy /\ gc_source_sha256 k = tp_collector_source_sha256 policy /\
  gc_executable_sha256 k = tp_collector_executable_sha256 policy /\ gc_key_version k = tp_key_version policy /\ gc_algorithm k = tp_algorithm policy.
Proof.
  unfold _collector. intros H. do 4 inv_bind H. do 3 (destruct (negb _) eqn:?G in H; [discriminate H|]).
  destruct (negb _) eqn:G2 in H; [discriminate H|]. destruct (negb _) eqn:G3 in H; [discriminate H|].
  apply negb_false_iff, str_eqb_eq in G, G0, G1. apply eq_str_inv in G2, G3.
  destruct (member v "signature") as [| | | |s| |]; try discriminate H. injection H as <-. cbn. by rewrite G2, G3.
Qed.
End Records.

(** ** What is read *)

(** The reports of a run are those of the harnesses, in order. *)
Lemma proven_harnesses iso policy c built_at now value r : run_proven iso policy c built_at now value r ->
  map rb_harness (vr_reports r) = SORTED_HARNESSES.
Proof.
  intros [_ _ _ _ _ (parts & -> & _ & F) _]. revert F. generalize SORTED_HARNESSES. intros hs F.
  induction F as [|h part hs parts [E _ _ _ _] F IH]; [done|]. cbn [map]. by rewrite E, IH.
Qed.

Section Reading.
Context {W : Type} `{PX : Posix W} (iso : str -> option (Z * option Z)) (validators : harness_validators).

(** [ds] was accepted on the way from one state to the other, in that order and
    perhaps with more. *)
Definition reads_in (ds : list ArtifactDescriptor) (r r' : reading W) : Prop :=
  reader_ok (rd_object r) -> reader_ok (rd_object r') /\
  exists more, descriptors (rd_object r') = descriptors (rd_object r) ++ more /\ ds `sublist_of` more.

Lemma reads_in_same r r' : rd_object r' = rd_object r -> reads_in [] r r'.
Proof using. intros E K. rewrite E. split; [done|]. exists []. by rewrite app_nil_r. Qed.

Lemma reads_in_app a b r r1 r2 : reads_in a r r1 -> reads_in b r1 r2 -> reads_in (a ++ b) r r2.
Proof using.
  intros A B K. destruct (A K) as (K1 & m & E1 & S1). destruct (B K1) as (K2 & n & E2 & S2). split; [done|]. exists (m ++ n).
  split; [by rewrite E2, E1, app_assoc|by apply sublist_app].
Qed.

#[local] Instance reads_refl : Reflexive (reads_in []).
Proof using. intros r. by apply reads_in_same. Qed.
#[local] Instance reads_trans : Transitive (reads_in []).
Proof using. intros a b c. apply (reads_in_app [] []). Qed.

Lemma read_exactly kinds value r d data r' : read kinds value r = (Ret (d, data), r') ->
  parse_descriptor_of kinds value = Some d /\ matches (d, data) /\
  (reader_ok (rd_object r) -> reader_ok (rd_object r') /\ descriptors (rd_object r') = descriptors (rd_object r) ++ [d]).
Proof using.
  intros H. apply read_cases in H as [(d' & b & m & E & P & M & F & O) | [_ N]]; [|by destruct (N (d, data))]. injection E as <- <-.
  split; [done|]. split; [done|]. intros K. rewrite O. split; [by apply accepted_ok, (parsed_size kinds value)|].
  unfold descriptors, accepted. cbn. by rewrite map_app.
Qed.
Lemma read_reads kinds value r d data r' : read kinds value r = (Ret (d, data), r') -> reads_in [d] r r'.
Proof using. intros (_ & _ & H)%read_exactly K. destruct (H K) as [K' E]. split; [done|]. by exists [d]. Qed.

Lemma read_within a : within (reads_in []) (reader_answer a).
Proof using.
  intros r. unfold reader_answer. destruct (read (fst a) (snd a) r) as [[[d data]|e|] r'] eqn:E; cbn [snd].
  - apply read_reads in E. intros K. destruct (E K) as (K' & more & D & _). split; [done|]. exists more. split; [done|apply sublist_nil_l].
  - apply read_cases in E as [(d' & b & m & [=] & _) | [O _]]. by apply reads_in_same.
  - apply read_cases in E as [(d' & b & m & [=] & _) | [O _]]. by apply reads_in_same.
Qed.

Lemma validator_within {A} (p : program artifact_answer A) r a r' : Programs.run reader_answer p r = (Ret a, r') -> reads_in [] r r'.
Proof using.
  intros H. pose proof (run_within reader_answer (reads_in []) p read_within r) as X. by rewrite H in X.
Qed.

Lemma report_entry_ok harness value built_at run report tool kind : report_entry iso harness value built_at run = Ok (report, tool, kind) ->
  assoc EXPECTED_TOOL_VERSIONS harness = Some tool /\
  exists captured completed signed, stated iso (json_text (member report "captured_at")) captured /\
    stated iso (json_text (member report "completed_at")) completed /\ stated iso (json_text (member report "signed_at")) signed /\
    gr_captured run <= captured <= completed /\ completed <= signed <= gr_signed run /\ completed <= gr_completed run.
Proof using.
  unfold report_entry. intros H. inv_bind H. destruct (assoc EXPECTED_TOOL_VERSIONS harness) as [t|]; [|discriminate H].
  destruct (assoc REPORT_KINDS harness) as [k|]; [|discriminate H]. destruct (negb _) in H; [discriminate H|].
  inv_bind H. apply gate_timestamp_ok in E0 as [_ T1]. inv_bind H. apply gate_timestamp_ok in E0 as [_ T2]. inv_bind H. apply gate_timestamp_ok in E0 as [_ T3].
  destruct (negb _) eqn:G in H; [discriminate H|]. injection H as <- <- <-. split; [done|]. exists v0, v1, v2. do 3 (split; [done|]).
  apply negb_false_iff in G. cbn [in_order] in G. rewrite !andb_true_iff, !Z.leb_le in G. lia.
Qed.

Lemma report_found_subjects policy harness report c run k document result : report_found policy harness report c run k document result = Ok () ->
  exact_subjects harness (map fst (vl_artifacts result)) = true.
Proof using.
  unfold report_found. intros H. inv_bind H. destruct (negb _) in H; [discriminate H|]. inv_bind H. destruct (negb _) in H; [discriminate H|].
  do 2 inv_bind H. destruct (_ && _) in H; [discriminate H|]. destruct (negb _) eqn:G in H; [discriminate H|]. by apply negb_false_iff in G.
Qed.

Lemma raw_bindings_of harness result :
  Forall (fun w => wb_harness w = harness) (raw_bindings harness result) /\
  map wb_subject (raw_bindings harness result) = map fst (vl_artifacts result).
Proof using.
  unfold raw_bindings. induction (vl_artifacts result) as [|[s d] l [IH1 IH2]]; [by split|]. cbn [map]. split; [by constructor|by rewrite IH2].
Qed.

Lemma report_ret policy c built_at run k harness value r part r' :
  _validate_report iso validators policy c built_at run k harness value r = (Ret part, r') ->
  reads_in [rb_descriptor (fst part)] r r' /\ report_proven iso run harness part.
Proof using.
  unfold _validate_report. intros H. apply bind_ret_inv in H as ([[report tool] kind] & r1 & HE & H). apply of_result_ret in HE as [HE ->].
  apply report_entry_ok in HE as [T1 T2]. apply bind_ret_inv in H as ([d document] & r2 & HR & H). unfold read_json in HR.
  apply bind_ret_inv in HR as ([d' data] & r3 & HR & HJ). apply bind_ret_inv in HJ as (j & r4 & HJ & X). apply of_option_ret in HJ as [_ ->].
  injection X as -> _ ->. apply read_reads in HR as A1. apply bind_ret_inv in H as (result & r4 & HV & H).
  apply translate_ret, validator_within in HV. apply bind_ret_inv in H as ([] & r5 & HF & H). apply of_result_ret in HF as [HF ->].
  injection H as <- ->. destruct (raw_bindings_of harness result) as [B1 B2]. split; [by apply (reads_in_app [d] [] _ r2)|].
  constructor; cbn [fst snd rb_harness rb_tool_version rb_captured_at rb_completed_at rb_signed_at]; [done|done|done|done|].
  rewrite B2. by eapply report_found_subjects.
Qed.

Lemma reports_ret policy c built_at run k reports harnesses : forall r bound raws r',
  _validate_reports iso validators policy c built_at run k reports harnesses r = (Ret (bound, raws), r') ->
  reads_in (map rb_descriptor bound) r r' /\
  exists parts, bound = map fst parts /\ raws = concat (map snd parts) /\ Forall2 (report_proven iso run) harnesses parts.
Proof using.
  induction harnesses as [|h hs IH]; intros r bound raws r' H; cbn [_validate_reports] in H.
  - injection H as <- <- <-. split; [by apply reads_in_same|]. by exists [].
  - apply bind_ret_inv in H as ([report mine] & r1 & H1 & H). apply report_ret in H1 as [A1 P1].
    apply bind_ret_inv in H as ([rest others] & r2 & H2 & H). apply IH in H2 as (A2 & parts & -> & -> & P2). injection H as <- <- <-.
    split; [by apply (reads_in_app [_] _ _ r1)|]. exists ((report, mine) :: parts). split; [done|]. split; [done|by constructor].
Qed.

Lemma verified_receipt_ok policy c run k bound raws receipt : verified_receipt policy c run k bound raws = Ok receipt ->
  exists payload, canonical_json (gate_payload (tp_policy_sha256 policy) c run k bound raws) = Some payload /\
    verify_ps256 payload (JStr (gc_signature k)) (tp_modulus policy) (tp_exponent policy) = Some () /\ receipt = hexdigest payload.
Proof using.
  unfold verified_receipt. intros H. inv_bind H. injection H as <-. apply catch_ok in E. inv_bind E. apply of_raw_some in E0. inv_bind E.
  apply of_raw_some in E1. injection E as <-. exists v0. destruct v1. by split.
Qed.

Lemma run_ret policy c built_at now sg value r x sg' r' :
  _validate_run iso validators policy c built_at now sg value r = (Ret (x, sg'), r') ->
  reads_in (map rb_descriptor (vr_reports x)) r r' /\ may_follow sg (vr_run x) /\ sg' = seen_after (vr_run x) sg /\
  run_proven iso policy c built_at now value x.
Proof using.
  unfold _validate_run. intros H. apply bind_ret_inv in H as ([[raw run] sg1] & r1 & HI & H). apply of_result_ret in HI as [HI ->].
  pose proof HI as HI0. apply run_identity_ok in HI as (F & -> & R1 & R2 & R3). apply bind_ret_inv in H as (k & r2 & HC & H).
  apply of_result_ret in HC as [HC ->]. pose proof HC as HC0. apply collector_ok in HC. apply bind_ret_inv in H as (reports & r3 & HR & H). apply of_result_ret in HR as [_ ->].
  apply bind_ret_inv in H as ([bound raws] & r4 & HB & H). apply reports_ret in HB as [A P]. apply bind_ret_inv in H as (receipt & r5 & HV & H).
  apply of_result_ret in HV as [HV ->]. apply verified_receipt_ok in HV. apply bind_ret_inv in H as (published & r6 & HP & H).
  apply of_result_ret in HP as [_ ->]. injection H as <- <- <-. split; [done|]. split; [done|]. split; [done|].
  constructor; try done. by exists sg, raw, (seen_after run sg).
Qed.

(** The two runs of an aggregate. *)
Lemma runs_ret policy c built_at now v1 v2 r xs sg r' :
  _validate_runs iso validators policy c built_at now 0 nothing_seen [v1; v2] r = (Ret (xs, sg), r') ->
  exists a b, xs = [a; b] /\ reads_in (map rb_descriptor (vr_reports a ++ vr_reports b)) r r' /\
    may_follow (seen_after (vr_run a) nothing_seen) (vr_run b) /\ sg = seen_after (vr_run b) (seen_after (vr_run a) nothing_seen) /\
    run_proven iso policy c built_at (now 0%nat) v1 a /\ run_proven iso policy c built_at (now 1%nat) v2 b.
Proof using.
  cbn [_validate_runs]. intros H. apply bind_ret_inv in H as ([a sg1] & r1 & H1 & H). apply run_ret in H1 as (A1 & _ & -> & P1).
  apply bind_ret_inv in H as ([rest sg2] & r2 & H2 & H). apply bind_ret_inv in H2 as ([b sg3] & r3 & H2 & H3). apply run_ret in H2 as (A2 & F2 & -> & P2).
  injection H3 as <- <- <-. injection H as <- <- <-. exists a, b. split; [done|]. split; [rewrite map_app; by apply (reads_in_app _ _ _ r1)|done].
Qed.

Lemma same_as_single x y : same_as x [y] -> x = y.
Proof using. intros [[=]|H]. by apply list_elem_of_singleton in H. Qed.

Lemma apart_two p q : apart (merge_sort interval_le [p; q]) = true -> snd p <= fst q \/ snd q <= fst p.
Proof using.
  pose proof (merge_sort_Permutation interval_le [p; q]) as P. symmetry in P. apply Permutation_length_2_inv in P as [-> | ->];
    cbn [apart]; rewrite andb_true_r, negb_true_iff, Z.ltb_ge; [by left|by right].
Qed.

Lemma lanes_of policy c a b count total s :
  may_follow (seen_after (vr_run a) nothing_seen) (vr_run b) ->
  aggregate_tail policy c (seen_after (vr_run b) (seen_after (vr_run a) nothing_seen)) [a; b] count total = Ok s ->
  two_lanes (vr_run a) (vr_run b) /\ vr_receipt_sha256 a <> vr_receipt_sha256 b /\
  sm_trust_policy_sha256 s = tp_policy_sha256 policy /\ sm_candidate s = c /\
  sm_collector_receipt_sha256 s ≡ₚ [vr_receipt_sha256 a; vr_receipt_sha256 b] /\ sm_artifact_count s = count /\ sm_artifact_bytes s = total.
Proof using.
  intros [F1 F2 F3 F4 F5 F6] H. unfold aggregate_tail in H. do 4 (destruct (negb _) in H; [discriminate H|]).
  destruct (negb (apart _)) eqn:G1 in H; [discriminate H|]. destruct (negb (no_repeat _)) eqn:G2 in H; [discriminate H|].
  inv_bind H. injection H as <-. apply negb_false_iff in G1, G2. apply apart_two in G1. cbn [fst snd] in G1. apply bool_decide_eq_true in G2.
  cbn in F1, F2, F3, F4, F5, F6. rewrite list_elem_of_singleton in F1, F4, F5, F6. apply same_as_single in F2, F3.
  cbn [map] in G2. apply NoDup_cons in G2 as [G2 _]. rewrite list_elem_of_singleton in G2.
  split; [constructor; auto; congruence|]. cbn [sm_trust_policy_sha256 sm_candidate sm_collector_receipt_sha256 sm_artifact_count sm_artifact_bytes].
  split; [done|]. split; [done|]. split; [done|]. split; [apply merge_sort_Permutation|done].
Qed.

Lemma aggregate_head_ok policy fixture document c built_at values : aggregate_head iso policy fixture document = Ok (c, built_at, values) ->
  exists v1 v2, values = [v1; v2] /\ aggregate_states iso policy document c built_at v1 v2.
Proof using.
  unfold aggregate_head. intros H. destruct (_ && _) in H; [discriminate H|]. inv_bind H. apply of_raw_some in E.
  do 2 (destruct (negb _) in H; [discriminate H|]). destruct (_ || _) in H; [discriminate H|]. destruct (negb _) eqn:G1 in H; [discriminate H|].
  apply eq_str_inv in G1. inv_bind H. destruct (negb _) eqn:G2 in H; [discriminate H|]. apply negb_false_iff, str_eqb_eq in G2 as ->.
  apply digest_field_ok in E0 as [E0 _]. inv_bind H. destruct v0 as [c' built']. destruct (member v "runs") as [| | | | |values'|] eqn:R; try discriminate H.
  destruct (negb _) eqn:G3 in H; [discriminate H|]. injection H as <- <- <-. apply negb_false_iff, Z.eqb_eq in G3. change (len REQUIRED_OS) with 2 in G3.
  destruct values' as [|v1 [|v2 [|]]]; unfold len in G3; cbn [length] in G3; try lia. exists v1, v2. split; [done|]. by exists v.
Qed.

Lemma with_reader_ret {A} (m : M (reading W) A) r a r' : with_reader m r = (Ret a, r') ->
  exists root r1 r2, rd_object r1 = opened root (rd_object r) /\ m r1 = (Ret a, r2) /\ rd_object r' = opened None (rd_object r2).
Proof using.
  unfold with_reader. intros H. apply bind_ret_inv in H as ([] & r1 & HE & H). destruct (enter_object r) as [root O]. rewrite HE in O. cbn [snd] in O.
  unfold finally in H. destruct (m r1) as [[x|e|] r2] eqn:HM; cbn in H; try discriminate H. injection H as -> <-. by exists root, r1, r2.
Qed.

Lemma resolved_in_production policy_file trust_policy policy : _resolve_trust_policy policy_file trust_policy false = Ok policy ->
  exists data, policy_file = Ok data /\ hexdigest data = RELEASE_TRUST_POLICY_SHA256 /\
    parse_trust_policy_bytes data RELEASE_TRUST_POLICY_SHA256 true = Ok policy.
Proof using.
  unfold _resolve_trust_policy. intros H. destruct (match trust_policy with Some _ => _ | None => _ end) in H; [discriminate H|]. inv_bind H.
  destruct (match trust_policy with Some _ => _ | None => _ end) in H; [discriminate H|]. injection H as ->. unfold load_release_trust_policy in E.
  inv_bind E. exists v. split; [done|]. split; [|done]. by apply parsed_policy_ok in E as (_ & _ & D & _).
Qed.

(** What is behind a summary: the two runs, and the artifacts that were read for it. *)
Lemma validate_ret policy fixture now document r s r' : _validate iso validators policy fixture now document r = (Ret s, r') ->
  exists c built_at v1 v2 a b, aggregate_states iso policy document c built_at v1 v2 /\
    run_proven iso policy c built_at (now 0%nat) v1 a /\ run_proven iso policy c built_at (now 1%nat) v2 b /\
    two_lanes (vr_run a) (vr_run b) /\ vr_receipt_sha256 a <> vr_receipt_sha256 b /\
    sm_trust_policy_sha256 s = tp_policy_sha256 policy /\ sm_candidate s = c /\
    sm_collector_receipt_sha256 s ≡ₚ [vr_receipt_sha256 a; vr_receipt_sha256 b] /\
    reads_in (map rb_descriptor (vr_reports a ++ vr_reports b)) r r' /\
    sm_artifact_count s = ar_artifact_count (rd_object r') - ar_artifact_count (rd_object r) /\
    sm_artifact_bytes s = ar_total_bytes (rd_object r') - ar_total_bytes (rd_object r).
Proof using.
  unfold _validate. intros H. apply bind_ret_inv in H as (before & r1 & HB & H). injection HB as <- <-.
  apply bind_ret_inv in H as ([[c built_at] values] & r1 & HH & H). apply of_result_ret in HH as [HH ->].
  apply aggregate_head_ok in HH as (v1 & v2 & -> & HA). apply bind_ret_inv in H as ([xs sg] & r2 & HR & H).
  apply runs_ret in HR as (a & b & -> & RD & F & -> & P1 & P2). apply bind_ret_inv in H as (obj & r3 & HO & H). injection HO as <- <-.
  apply of_result_ret in H as [H ->]. apply (lanes_of _ _ _ _ _ _ _ F) in H as (T & N & S1 & S2 & S3 & S4 & S5).
  by exists c, built_at, v1, v2, a, b.
Qed.

Lemma gate_load_ret policy_file trust_policy now value s g s' :
  load_physical_evidence_artifact iso validators policy_file trust_policy false now value s = (Ret g, s') ->
  exists policy d data document summary r1 r2, _resolve_trust_policy policy_file trust_policy false = Ok policy /\
    parse_descriptor_of AGGREGATE_KINDS value = Some d /\ matches (d, data) /\ load_json_bytes data = Some document /\
    reader_ok (rd_object r1) /\ descriptors (rd_object r1) = [d] /\
    _validate iso validators policy false now document r1 = (Ret summary, r2) /\
    rd_object s' = opened None (rd_object r2) /\ _with_private_archive_binding summary d = Ok g.
Proof using.
  unfold load_physical_evidence_artifact. intros H. apply translate_ret in H. apply bind_ret_inv in H as (policy & t1 & HP & H).
  apply of_result_ret in HP as [HP ->]. apply bind_ret_inv in H as (d & t1 & HD & H). apply of_option_ret in HD as [HD ->].
  apply bind_ret_inv in H as ([] & t1 & HN & H). injection HN as <-. apply bind_ret_inv in H as ([d' summary] & t2 & HW & H).
  apply of_result_ret in H as [H ->]. apply with_reader_ret in HW as (root & r0 & r3 & O & HW & O').
  apply bind_ret_inv in HW as ([d2 data] & r1 & HR & HW). apply read_exactly in HR as (HD2 & MT & RD).
  apply bind_ret_inv in HW as (document & r2 & HJ & HW). apply of_option_ret in HJ as [HJ ->]. apply bind_ret_inv in HW as (summary' & r2 & HV & HW).
  apply bind_ret_inv in HW as ([] & r4 & HU & HW). injection HW as <- <- <-.
  assert (ED : d2 = d).
  { unfold parse_descriptor_of in HD, HD2. apply bind_Some in HD as (x & HD & X), HD2 as (y & HD2 & Y). destruct (mem _ _) in X; [|discriminate X].
    destruct (mem _ _) in Y; [|discriminate Y]. injection X as ->. injection Y as ->. rewrite (descriptor_copy _ _ _ HD (or_introl eq_refl)) in HD2. by injection HD2. }
  subst d2. pose proof (verify_same (Some (ad_path d)) r2) as V. rewrite HU in V. cbn [snd] in V.
  destruct (RD ltac:(rewrite O; by apply opened_ok, new_reader_ok)) as [K EM]. rewrite O in EM.
  exists policy, d, data, document, summary', r1, r2. unfold same_object in V. by rewrite O', V.
Qed.


(** C5: What a grant counts is what was read.  When [load_physical_evidence_artifact]
    returns in production, the number and the bytes of artifacts it states are
    those of all the artifacts its reader accepted, no two of which share a path or
    a digest; among them, and all distinct, are the aggregate and two reports of
    each of the four harnesses. *)
Theorem grant_accounts policy_file trust_policy now value s :
  match load_physical_evidence_artifact iso validators policy_file trust_policy false now value s with
  | (Ret g, s') =>
      accounted g (descriptors (rd_object s'))
  | _ => True
  end.
Proof using.
  destruct (load_physical_evidence_artifact _ _ _ _ _ _ _ s) as [[g|e|] s'] eqn:H; [|done|done].
  apply gate_load_ret in H as (policy & d & data & document & summary & r1 & r2 & _ & _ & _ & _ & K1 & D1 & HV & O & HG).
  unfold _with_private_archive_binding in HG. inv_bind HG. injection HG as <-.
  apply validate_ret in HV as (c & built_at & v1 & v2 & a & b & _ & R1 & R2 & _ & _ & _ & _ & _ & RD & C & B).
  destruct (RD K1) as (K2 & more & EM & SM). rewrite O. change (descriptors (opened None (rd_object r2))) with (descriptors (rd_object r2)).
  destruct K2 as [_ _ N1 N2 [C2 C3] [T2 T3] _]. destruct K1 as [_ _ _ _ [C1 _] [T1 _] _]. rewrite D1 in C1, T1, EM.
  constructor; cbn [gt_artifact_count gt_artifact_bytes gt_aggregate_artifact]; [split; [|done]|split; [|done]|done|done|].
  - rewrite C, C2, C1. change (len [d]) with 1. lia.
  - rewrite B, T2, T1. unfold ReaderProofs.total_size at 2. cbn [map foldr]. lia.
  - exists (vr_reports a ++ vr_reports b). split; [|rewrite EM; by apply sublist_skip].
    rewrite map_app. by rewrite (proven_harnesses _ _ _ _ _ _ _ R1), (proven_harnesses _ _ _ _ _ _ _ R2).
Qed.
End Reading.
