(* ===== verification/GateRecords.v ===== *)
(** * A composed run at the gate

    The receipt that is signed for a run record of
    src/scripts/physical_capture/composition.py is the receipt that
    src/scripts/harness/physical_evidence_aggregator.py rebuilds, and the gate
    asks of such a run exactly what composition could not know. *)

From S2P Require Import Prelude Sha256 Text Json DateTime Effects Programs Base64 Ps256 TrustPolicy PolicyProofs Archive Observation ObservationProofs.
From S2P Require Import Python Copies Documents Timestamp Identity Catalogue CollectorRequest Composition CollectorProofs ReceiptProofs ContextProofs Sample RequestBounds PolicyFile Revalidation RecordProofs.
From S2P Require Import AggregateProofs ArtifactReader ReaderProofs ProofMaterial EvidenceGate GateProofs.

Open Scope Z_scope.
Open Scope list_scope.

(** ** Times *)

(** [datetime.fromisoformat] reads what the collector's [_timestamp] accepts, which
    calls it too, as that moment of UTC. *)
Definition iso_reads (iso : str -> option (Z * option Z)) : Prop :=
  forall s t, read_stamp s = Some t -> iso (removelast s ++ u "+00:00") = Some (moment t, Some 0).

Lemma last_app_ne {A} (l m : list A) d : m <> [] -> List.last (l ++ m) d = List.last m d.
Proof. intros N. induction l as [|a l IH]; [done|]. cbn [app]. destruct (l ++ m) eqn:E; [by apply app_eq_nil in E as [_ ->]|]. rewrite <-E in *. cbn [List.last]. by rewrite E in *. Qed.

Lemma stamp_last s t : read_stamp s = Some t -> List.last s 0 = 90.
Proof.
  unfold read_stamp. intros H. apply bind_Some in H as (n & H & _). rewrite <-(take_drop 19 s). destruct (drop 19 s) as [|c r] eqn:E; [discriminate H|].
  rewrite last_app_ne by done. unfold split_fraction in H.
  destruct (decide (c = 90 /\ r = [])) as [[-> ->]|N]; [done|]. destruct (decide (c = 46)) as [->|N'].
  - destruct r as [|x r]; [discriminate H|]. destruct ((List.last (x :: r) 0 =? 90) && _ && _ && _) eqn:G in H; [|discriminate H].
    rewrite !andb_true_iff, Z.eqb_eq in G. by destruct G as [[[G _] _] _].
  - exfalso. repeat (case_match; try discriminate); subst; naive_solver.
Qed.

Lemma timely_stated iso s : iso_reads iso -> timely s -> stated iso s (time_of s).
Proof.
  intros R [t T]. unfold stated, EvidenceGate._timestamp, time_of. rewrite (stamp_last _ _ T), T. cbn [Z.eqb Pos.eqb negb]. by rewrite (R _ _ T).
Qed.

(** ** The lane of an environment *)

Record lane_ready (e : environment) : Prop := {
  lr_release : assoc REQUIRED_RUNS_BY_OS (en_os e) = Some (en_macos_version e, en_macos_build e);
  lr_machine : is_sha256 (en_machine_sha256 e) = true;
  lr_hardware : PHYSICAL_MODEL_PATTERN (en_hardware_model e) = true;
  lr_boot : is_sha256 (en_boot_environment_sha256 e) = true
}.

Lemma pinned_lane version build os : pinned_run PINNED_RUNS version build = Some os -> assoc REQUIRED_RUNS_BY_OS os = Some (version, build).
Proof.
  cbn [pinned_run PINNED_RUNS]. destruct (str_eqb (u "26.6") version && _) eqn:G; [|destruct (str_eqb (u "15.7.8") version && _) eqn:G'; [|discriminate]];
    intros [= <-]; [apply andb_true_iff in G as [<-%str_eqb_eq <-%str_eqb_eq]|apply andb_true_iff in G' as [<-%str_eqb_eq <-%str_eqb_eq]]; reflexivity.
Qed.

Lemma observed_lane plist_loads runner e : _observe_environment plist_loads runner = Ok e -> lane_ready e.
Proof.
  unfold _observe_environment. intros H. inv_bind H. apply collect_machine_ok in E as (M1 & _ & M2). inv_bind H. apply collect_boot_ok in E.
  do 2 inv_bind H. destruct (negb _) in H; [discriminate H|]. destruct (pinned_run _ _ _) as [os|] eqn:P; [|discriminate H]. injection H as <-.
  by constructor; [apply pinned_lane| | |].
Qed.

Lemma release_texts os version build : assoc REQUIRED_RUNS_BY_OS os = Some (version, build) ->
  _bounded_text (JStr version) 256 = Ok version /\ LIFECYCLE_MACOS_BUILD_RE build = true.
Proof.
  unfold REQUIRED_RUNS_BY_OS. cbn [assoc]. destruct (str_eqb _ _); [intros [= <- <-]; by split; vm_compute|].
  destruct (str_eqb _ _); [intros [= <- <-]; by split; vm_compute|discriminate].
Qed.

(** ** The record *)

(** A run record of which the parts were accepted. *)
Record composed_run (policy_file : result pyexn bytes) (r : run_record) : Prop := {
  cr_policy : load_source_pinned_policy policy_file = Ok (rr_policy r);
  cr_policy_ok : policy_ok (rr_policy r);
  cr_lane : lane_ready (cx_environment (rq_context (rr_request r)));
  cr_run_id : IDENTIFIER_RE (cx_run_id (rq_context (rr_request r))) = true;
  cr_nonce : is_sha256 (rq_run_nonce (rr_request r)) = true;
  cr_captured : timely (rq_captured_at (rr_request r));
  cr_completed : timely (rq_completed_at (rr_request r));
  cr_signed : timely (rr_signed_at r);
  cr_reports : map rb_harness (rq_reports (rr_request r)) = REPORT_HARNESSES;
  cr_raws : NoDup (map identity (rq_raw_artifacts (rr_request r)))
}.

(** Every record that [compose_run_record] returns is one. *)
Lemma accepted_composed plist_loads runner policy_file ck now value request response r :
  record_accepted plist_loads runner policy_file ck now value request response r -> composed_run policy_file r.
Proof.
  intros [C P _ [b Q] (t & T & _) _ _ _]. apply validate_context_exact in C as [_ [_ _ I O _ _]].
  apply validated_request_ok in Q as (_ & _ & _ & N & T1 & T2 & rs & ws & CO & _ & ER & EW & _).
  constructor; try done; [by apply pinned_policy_ok in P as [? _]|by eapply observed_lane|by eexists|rewrite ER; apply CO|].
  rewrite EW. apply NoDup_sort_raw, CO.
Qed.

(** What the gate makes of a record. *)
Definition gate_run_of (r : run_record) : gate_run :=
  let q := rr_request r in let e := cx_environment (rq_context q) in
  {| gr_os := en_os e; gr_macos_version := en_macos_version e; gr_macos_build := en_macos_build e; gr_machine_sha256 := en_machine_sha256 e;
     gr_hardware_model := en_hardware_model e; gr_boot_environment_sha256 := en_boot_environment_sha256 e;
     gr_captured_at := rq_captured_at q; gr_completed_at := rq_completed_at q; gr_signed_at := rr_signed_at r;
     gr_captured := time_of (rq_captured_at q); gr_completed := time_of (rq_completed_at q); gr_signed := time_of (rr_signed_at r);
     gr_run_id := cx_run_id (rq_context q); gr_run_nonce := rq_run_nonce q |}.
Definition gate_collector_of (r : run_record) : gate_collector :=
  let p := rr_policy r in
  {| gc_version := tp_collector_version p; gc_source_sha256 := tp_collector_source_sha256 p; gc_executable_sha256 := tp_collector_executable_sha256 p;
     gc_key_version := tp_key_version p; gc_algorithm := tp_algorithm p; gc_signature := rr_signature r |}.

(** The times the gate accepts for a candidate built at [built_at]. *)
Definition timed_right (built_at now : Z) (run : gate_run) : Prop :=
  built_at <= gr_captured run /\ STABLE_MATRIX_GENERAL_AVAILABILITY <= gr_captured run /\
  gr_captured run <= gr_completed run <= gr_signed run /\ gr_signed run <= now.

Lemma sorted_reports_unique l m : map rb_harness m = REPORT_HARNESSES -> l ≡ₚ m -> sort_reports l = sort_reports m.
Proof.
  intros H P. rewrite (sort_reports_id m H). assert (HN : NoDup REPORT_HARNESSES) by distinct_names.
  assert (HL : map rb_harness (sort_reports l) = REPORT_HARNESSES).
  { assert (PH : map rb_harness l ≡ₚ REPORT_HARNESSES) by (rewrite <-H; by apply Permutation_map).
    apply sort_reports_harnesses; [by rewrite PH|intros x; by rewrite PH]. }
  rewrite <-H in HN. rewrite <-H in HL. assert (PM : sort_reports l ≡ₚ m) by (unfold sort_reports; by rewrite merge_sort_Permutation).
  clear H P. revert HL PM HN. generalize (sort_reports l). clear l. intros l. revert m.
  induction l as [|x l IH]; intros [|y m] HL PM HN; try discriminate HL; [done|]. cbn [map] in HL, HN. injection HL as HX HL.
  apply NoDup_cons in HN as [N1 N2]. assert (Hx : x ∈ y :: m) by (rewrite <-PM; by left).
  apply elem_of_cons in Hx as [->|Hx]; [|exfalso; apply N1; rewrite <-HX; apply list_elem_of_fmap; by exists x].
  f_equal. apply IH; [done|by apply Permutation_cons_inv in PM|done].
Qed.

(** The payloads agree, whatever order reports and artifacts were read in. *)
Lemma payload_rebuilt policy_file r reports raws : composed_run policy_file r ->
  reports ≡ₚ rq_reports (rr_request r) -> raws ≡ₚ rq_raw_artifacts (rr_request r) ->
  gate_payload (tp_policy_sha256 (rr_policy r)) (cx_candidate (rq_context (rr_request r))) (gate_run_of r) (gate_collector_of r) reports raws =
  _receipt_payload r.
Proof.
  intros K PR PW. assert (ER : sort_reports reports = sort_reports (rq_reports (rr_request r))).
  { apply sorted_reports_unique; [apply (cr_reports _ _ K)|done]. }
  assert (EW : sort_raw raws = sort_raw (rq_raw_artifacts (rr_request r))).
  { apply sorted_raw_unique; [apply NoDup_sort_raw; rewrite (fmap_Permutation identity _ _ PW); apply (cr_raws _ _ K)|apply sort_raw_sorted|apply sort_raw_sorted|].
    by rewrite !sort_raw_perm. }
  unfold gate_payload, _receipt_payload. cbv zeta. rewrite ER, EW. reflexivity.
Qed.

(** ** At the gate *)

Lemma py_eq_str_inv v s : py_eq v (JStr s) = true -> v = JStr s.
Proof. destruct v; cbn; try done; try (by repeat case_match). intros H. by apply str_eqb_eq in H as ->. Qed.

(** The schemes of the pinned policy are those a run states. *)
Lemma pinned_schemes policy_file p : load_source_pinned_policy policy_file = Ok p ->
  tp_machine_identity_scheme p = JStr MACHINE_IDENTITY_SCHEME /\ tp_boot_environment_scheme p = JStr BOOT_ENVIRONMENT_SCHEME.
Proof.
  unfold load_source_pinned_policy. intros H. inv_bind H. destruct (_ || _) eqn:G in H; [discriminate H|]. injection H as ->.
  rewrite !orb_false_iff, !negb_false_iff in G. destruct G as [[[_ G1] G2] _]. split; by apply py_eq_str_inv.
Qed.

Lemma same_as_check x l : negb (bool_decide (l = [])) && negb (mem x l) = false <-> same_as x l.
Proof.
  split; [apply same_as_ok|]. intros [-> | H]; [done|]. apply mem_spec in H as ->. by rewrite andb_false_r.
Qed.

Section AtGate.
Context (iso : str -> option (Z * option Z)) (R : iso_reads iso) (policy_file : result pyexn bytes) (r : run_record) (K : composed_run policy_file r).
Context (raw : list (str * json)) (M : forall k, copy_of (member raw k) (member (dict_items (run_json r)) k)).

Lemma release_at_gate sg : run_release raw sg =
  if mem (en_os (cx_environment (rq_context (rr_request r)))) (sg_os sg) then PEE else
  Ok (gr_os (gate_run_of r), gr_macos_version (gate_run_of r), gr_macos_build (gate_run_of r)).
Proof using K M.
  destruct (cr_lane _ _ K) as [L _ _ _]. set (e := cx_environment (rq_context (rr_request r))) in *. unfold run_release.
  rewrite (copy_str _ (en_os e) (M "os")), L. destruct (mem _ _); [done|]. rewrite (copy_str _ (en_macos_version e) (M "macos_version")).
  destruct (release_texts _ _ _ L) as [T1 T2]. rewrite T1. cbn [mbind result_bind]. rewrite str_eqb_refl. cbn [negb].
  rewrite (copy_str _ (en_macos_build e) (M "macos_build")), T2, str_eqb_refl. done.
Qed.

Lemma machine_at_gate sg x : run_machine (rr_policy r) raw sg = Ok x <->
  x = (gr_machine_sha256 (gate_run_of r), gr_hardware_model (gate_run_of r), gr_boot_environment_sha256 (gate_run_of r)) /\
  same_as (gr_machine_sha256 (gate_run_of r)) (sg_machines sg) /\ same_as (gr_hardware_model (gate_run_of r)) (sg_hardware_models sg) /\
  gr_boot_environment_sha256 (gate_run_of r) ∉ sg_boot_environments sg.
Proof using K M.
  destruct (cr_lane _ _ K) as [_ L1 L2 L3]. destruct (pinned_schemes _ _ (cr_policy _ _ K)) as [S1 S2]. unfold gate_run_of. cbv zeta.
  cbn [gr_machine_sha256 gr_hardware_model gr_boot_environment_sha256]. set (e := cx_environment (rq_context (rr_request r))) in *.
  unfold run_machine. rewrite (copy_str _ (en_machine_sha256 e) (M "machine_sha256")), (proj2 (digest_field_ok _ _) (conj eq_refl L1)). cbn [mbind result_bind].
  rewrite (copy_str _ MACHINE_IDENTITY_SCHEME (M "machine_identity_scheme")), S1, py_eq_text. cbn [negb].
  rewrite (copy_str _ (en_hardware_model e) (M "hardware_model")). unfold validate_physical_hardware_model. rewrite L2. cbn [catch mbind result_bind].
  rewrite (copy_bool _ false (M "virtualization_present")). cbn [negb].
  rewrite (copy_str _ (en_boot_environment_sha256 e) (M "boot_environment_sha256")), (proj2 (digest_field_ok _ _) (conj eq_refl L3)). cbn [mbind result_bind].
  rewrite (copy_str _ BOOT_ENVIRONMENT_SCHEME (M "boot_environment_scheme")), S2, py_eq_text. cbn [negb].
  rewrite (copy_bool _ true (M "clean_install")). cbn [negb]. rewrite <-!same_as_check, <-mem_false.
  destruct (_ && _); [split; [done|by intros (_ & ? & _)]|]. destruct (_ && _); [split; [done|by intros (_ & _ & ? & _)]|].
  destruct (mem _ _); [split; [done|by intros (_ & _ & _ & ?)]|]. split; [by intros [= <-]|by intros [-> _]].
Qed.

Lemma identity_at_gate v built_at now sg x : exact_object v RUN_FIELDS = Some raw ->
  run_identity iso (rr_policy r) built_at now sg v = Ok x <->
  x = (raw, gate_run_of r, seen_after (gate_run_of r) sg) /\ may_follow sg (gate_run_of r) /\ timed_right built_at now (gate_run_of r).
Proof using R K M.
  intros E. unfold run_identity. rewrite E. cbn [of_raw mbind result_bind]. rewrite release_at_gate.
  set (q := rr_request r). set (e := cx_environment (rq_context q)).
  destruct (mem (en_os e) (sg_os sg)) eqn:G0; [split; [done|intros (_ & [F _ _ _ _ _] & _); apply mem_false in F; change (mem (en_os e) (sg_os sg) = false) in F; congruence]|].
  cbn [mbind result_bind]. destruct (run_machine (rr_policy r) raw sg) as [x0|err] eqn:HM.
  2: { split; [done|]. intros (_ & [_ F1 F2 F3 _ _] & _). pose proof (proj2 (machine_at_gate sg _) (conj eq_refl (conj F1 (conj F2 F3)))). congruence. }
  apply machine_at_gate in HM as (-> & F1 & F2 & F3). cbn [mbind result_bind].
  rewrite (copy_str _ (rq_captured_at q) (M "captured_at")), (copy_str _ (rq_completed_at q) (M "completed_at")), (copy_str _ (rr_signed_at r) (M "signed_at")).
  pose proof (timely_stated iso _ R (cr_captured _ _ K)) as T1. pose proof (timely_stated iso _ R (cr_completed _ _ K)) as T2.
  pose proof (timely_stated iso _ R (cr_signed _ _ K)) as T3. fold q in T1, T2. unfold stated in T1, T2, T3. rewrite T1, T2, T3. cbn [mbind result_bind].
  pose proof (cr_run_id _ _ K) as I1. pose proof (cr_nonce _ _ K) as I2. fold q in I1, I2.
  rewrite (copy_str _ (cx_run_id (rq_context q)) (M "run_id")), (copy_str _ (rq_run_nonce q) (M "run_nonce")).
  rewrite (proj2 (require_identifier_ok _ _) (conj eq_refl I1)), (proj2 (digest_field_ok _ _) (conj eq_refl I2)). cbn [mbind result_bind json_text].
  assert (T : negb (in_order [Z.max built_at STABLE_MATRIX_GENERAL_AVAILABILITY; time_of (rq_captured_at q); time_of (rq_completed_at q); time_of (rr_signed_at r)]) ||
              (now <? time_of (rr_signed_at r)) = false <-> timed_right built_at now (gate_run_of r)).
  { rewrite orb_false_iff, negb_false_iff, gate_order, Z.ltb_ge. unfold timed_right, gate_run_of. cbv zeta. cbn [gr_captured gr_completed gr_signed]. fold q. lia. }
  destruct (_ || _) eqn:G1 in |- *; [split; [done|intros (_ & _ & X); apply T in X; congruence]|]. apply (proj1 T) in G1.
  destruct (mem (cx_run_id _) _) eqn:G2; [split; [done|intros (_ & [_ _ _ _ F _] & _); apply mem_false in F; change (mem (cx_run_id (rq_context q)) (sg_run_ids sg) = false) in F; congruence]|].
  destruct (mem (rq_run_nonce q) _) eqn:G3; [split; [done|intros (_ & [_ _ _ _ _ F] & _); apply mem_false in F; change (mem (rq_run_nonce q) (sg_nonces sg) = false) in F; congruence]|].
  apply mem_false in G0, G2, G3. split; [|by intros (-> & _)]. intros H. injection H as <-. split; [done|]. split; [by constructor|done].
Qed.
End AtGate.

Lemma collector_at_gate policy_file r v : composed_run policy_file r -> copy_of v (JObj (collector_items (rr_policy r) ++ [(u "signature", JStr (rr_signature r))])) ->
  _collector v (rr_policy r) = Ok (gate_collector_of r).
Proof.
  intros K V. pose proof (cr_policy_ok _ _ K) as P. unfold collector_items in V. cbn [app] in V.
  apply (copy_dict _ _ COLLECTOR_FIELDS) in V as (m & E & M); [|distinct_names|vm_compute; reflexivity].
  set (p := rr_policy r) in *. unfold _collector. rewrite E. cbn [of_raw mbind result_bind].
  rewrite (copy_str _ (tp_collector_version p) (M "version")), (copy_str _ (tp_collector_source_sha256 p) (M "source_sha256")),
    (copy_str _ (tp_collector_executable_sha256 p) (M "executable_sha256")), (copy_str _ (tp_key_version p) (M "key_version")),
    (copy_str _ (tp_algorithm p) (M "algorithm")), (copy_str _ (rr_signature r) (M "signature")).
  destruct P as [_ _ _ _ _ _ _ _ _ P3 P4 P5 _ _ _ _ _ _].
  rewrite (proj2 (require_identifier_ok _ _) (conj eq_refl P3)), (proj2 (digest_field_ok _ _) (conj eq_refl P4)), (proj2 (digest_field_ok _ _) (conj eq_refl P5)).
  cbn [mbind result_bind]. rewrite !str_eqb_refl, !(proj2 (eq_str_text _ _) eq_refl). done.
Qed.

Lemma verified_receipt_iff policy_file r reports raws digest : composed_run policy_file r ->
  reports ≡ₚ rq_reports (rr_request r) -> raws ≡ₚ rq_raw_artifacts (rr_request r) ->
  verified_receipt (rr_policy r) (cx_candidate (rq_context (rr_request r))) (gate_run_of r) (gate_collector_of r) reports raws = Ok digest <->
  exists payload, canonical_json (_receipt_payload r) = Some payload /\
    verify_ps256 payload (JStr (rr_signature r)) (tp_modulus (rr_policy r)) (tp_exponent (rr_policy r)) = Some () /\ digest = hexdigest payload.
Proof.
  intros K PR PW. unfold verified_receipt. rewrite (payload_rebuilt _ _ _ _ K PR PW). cbn [gate_collector_of gc_signature].
  destruct (canonical_json (_receipt_payload r)) as [payload|]; cbn [of_raw mbind result_bind catch is_raw_error]; [|split; [done|by intros (? & [=] & _)]].
  destruct (verify_ps256 payload _ _ _) as [[]|] eqn:V; cbn [of_raw mbind result_bind catch is_raw_error]; split.
  - intros [= <-]. by exists payload.
  - by intros (? & [= <-] & _ & ->).
  - done.
  - intros (? & [= <-] & V' & _). congruence.
Qed.

Lemma reports_fields rs : map rb_harness rs = REPORT_HARNESSES -> same_fields SORTED_HARNESSES (map run_report rs) = true /\ NoDup (map fst (map run_report rs)).
Proof.
  intros H. rewrite map_map. change (map (fun x => fst (run_report x)) rs) with (map rb_harness rs). rewrite H. split; [|distinct_names].
  do 4 (destruct rs as [|? rs]; [discriminate H|]). destruct rs; [|discriminate H]. unfold run_report. cbn [map] in H |- *. injection H as -> -> -> ->.
  vm_compute. reflexivity.
Qed.

(** C6: The receipt that was signed is the receipt the gate rebuilds.  The run of a
    composed record, as it was composed or as it is read back from the archive, is
    accepted by the checks of [_validate_run] if and only if the gate's own
    conditions hold: no run before it has its lane, boot environment, id or nonce,
    or another machine or hardware model, and it was captured after the build of
    the candidate and the release's availability, and not signed in the future.  It
    is then read as the record's own run and collector; and from the record's
    reports and raw artifacts, in whatever order the harnesses are validated, the
    gate verifies the record's signature on exactly the payload composition
    verified it on, with the same receipt digest. *)
Theorem composed_run_at_gate iso policy_file r v sg built_at now :
  iso_reads iso -> composed_run policy_file r -> copy_of v (run_json r) ->
  exists raw entries,
    (forall x, run_identity iso (rr_policy r) built_at now sg v = Ok x <->
       x = (raw, gate_run_of r, seen_after (gate_run_of r) sg) /\ may_follow sg (gate_run_of r) /\ timed_right built_at now (gate_run_of r)) /\
    _collector (member raw "collector") (rr_policy r) = Ok (gate_collector_of r) /\
    exact_object (member raw "reports") SORTED_HARNESSES = Some entries /\
    forall reports raws digest, reports ≡ₚ rq_reports (rr_request r) -> raws ≡ₚ rq_raw_artifacts (rr_request r) ->
      verified_receipt (rr_policy r) (cx_candidate (rq_context (rr_request r))) (gate_run_of r) (gate_collector_of r) reports raws = Ok digest <->
      exists payload, canonical_json (_receipt_payload r) = Some payload /\
        verify_ps256 payload (JStr (rr_signature r)) (tp_modulus (rr_policy r)) (tp_exponent (rr_policy r)) = Some () /\ digest = hexdigest payload.
Proof.
  intros R K V. apply (copy_dict _ _ RUN_FIELDS) in V as (raw & E & M); [|distinct_names|vm_compute; reflexivity].
  destruct (reports_fields _ (cr_reports _ _ K)) as [F N]. destruct (copy_dict _ _ SORTED_HARNESSES N F (M "reports"%string)) as (entries & ER & _).
  exists raw, entries. split; [intros x; by apply (identity_at_gate iso R policy_file r K raw M v)|].
  split; [by apply (collector_at_gate policy_file), (M "collector"%string)|]. split; [exact ER|].
  intros reports raws digest. by apply (verified_receipt_iff policy_file).
Qed.

(** ** The aggregate *)

Lemma candidate_at_gate iso c v t : iso_reads iso -> candidate_ok t c -> candidate_reads v c ->
  EvidenceGate._candidate iso v = Ok (c, time_of (ca_built_at c)).
Proof.
  intros R [C1 C2 C3 C4 C5 C6 _] (l & E & M1 & M2 & M3 & M4 & M5 & M6). unfold EvidenceGate._candidate. rewrite E. cbn [of_raw mbind result_bind].
  rewrite M1, M2, M3, M4, M5, M6, C1, C2, (proj2 (eq_str_text _ _) eq_refl). cbn [negb].
  change (canonical_build_version (JStr GA_RELEASE_BUILD)) with (Some GA_RELEASE_BUILD). cbn [mbind result_bind].
  rewrite (proj2 (digest_field_ok _ _) (conj eq_refl C3)), (proj2 (digest_field_ok _ _) (conj eq_refl C4)), (proj2 (digest_field_ok _ _) (conj eq_refl C5)).
  cbn [mbind result_bind]. pose proof (timely_stated iso _ R C6) as T. unfold stated in T. rewrite T. cbn [mbind result_bind json_text].
  destruct c. cbn in *. by rewrite C1, C2.
Qed.

Lemma production_policy policy_file policy : load_source_pinned_policy policy_file = Ok policy ->
  _resolve_trust_policy policy_file None false = Ok policy /\ policy_ok policy /\ tp_policy_sha256 policy = RELEASE_TRUST_POLICY_SHA256 /\
  tp_release_source_pinned policy = true.
Proof.
  intros P. destruct (pinned_policy_ok _ _ P) as [PO PS]. unfold load_source_pinned_policy in P. inv_bind P. apply catch_ok in E.
  destruct (_ || _) in P; [discriminate P|]. injection P as ->. unfold _resolve_trust_policy. rewrite E. split; [done|]. split; [done|]. split; [done|].
  unfold load_release_trust_policy in E. inv_bind E. by apply parsed_policy_ok in E as (_ & [_ ?] & _).
Qed.

(** C7: The gate opens every aggregate that was composed.  An aggregate that
    [compose_physical_aggregate] returned, as it was composed or as it is read back
    from the archive, names the policy that production resolves, and passes every
    check of [_validate] before its runs: the gate goes on with the aggregate's own
    candidate, at the time of its build, and with its two runs, unchanged and in its
    order. *)
Theorem composed_aggregate_opens iso policy_file records g v :
  iso_reads iso -> compose_physical_aggregate policy_file records = Ok g -> copy_of v (aggregate_json g) ->
  exists policy runs, _resolve_trust_policy policy_file None false = Ok policy /\
    aggregate_head iso policy false v = Ok (ag_candidate g, time_of (ca_built_at (ag_candidate g)), runs) /\
    Forall2 copy_of runs (map snd (ag_runs g)).
Proof.
  intros R H V. apply aggregate_iff in H as (policy & c & t1 & v1 & os1 & run1 & t2 & v2 & os2 & run2 & P & _ & D1 & _ & _ & ->).
  destruct (production_policy _ _ P) as (PR & PO & PS & PP). exists policy.
  assert (SP : is_sha256 (tp_policy_sha256 policy) = true) by (rewrite PS; vm_compute; reflexivity).
  apply (copy_dict _ _ AGGREGATE_FIELDS) in V as (m & E & M); [|distinct_names|vm_compute; reflexivity].
  destruct (copy_list _ _ (M "runs"%string)) as (runs & ER & F). exists runs. split; [exact PR|]. split; [|exact F].
  unfold aggregate_head. rewrite PP, E. cbn [negb andb of_raw mbind result_bind].
  rewrite (copy_int _ 5 (M "schema_version"%string)), (copy_str _ (json_text AGGREGATOR_VERSION) (M "aggregator_version"%string)).
  destruct PO as [_ _ _ _ _ _ _ _ _ _ _ _ _ O1 O2 O3 O4 O5]. rewrite O1, O2, O3, O4, O5.
  match goal with |- (if ?b then _ else _) = _ => change b with false end. cbn iota.
  match goal with |- (if ?b then _ else _) = _ => assert (X : b = false) by (vm_compute; reflexivity); rewrite X; clear X end.
  match goal with |- (if ?b then _ else _) = _ => assert (X : b = false) by (vm_compute; reflexivity); rewrite X; clear X end.
  rewrite (copy_str _ GRANTED_LEVEL (M "granted_level"%string)), (proj2 (eq_str_text _ _) eq_refl). cbn [negb].
  rewrite (copy_str _ (tp_policy_sha256 policy) (M "trust_policy_sha256"%string)).
  rewrite (proj2 (digest_field_ok _ (tp_policy_sha256 policy)) (conj eq_refl SP)). cbn [mbind result_bind].
  rewrite str_eqb_refl. cbn [negb].
  rewrite (candidate_at_gate iso c _ t1 R (rd_candidate _ _ _ _ _ _ D1) (candidate_copy c _ (M "candidate"%string))). cbn [mbind result_bind].
  rewrite ER. assert (L : len runs = 2) by (unfold len; rewrite (Forall2_length _ _ _ F), length_map; cbn; unfold in_lane_order; by destruct (str_eqb _ _)).
  rewrite L. reflexivity.
Qed.

(** ** The sample run, after the release *)

Definition iso_of_stamps (x : str) : option (Z * option Z) :=
  match read_stamp (take (length x - 6) x ++ [90]) with Some t => Some (moment t, Some 0) | None => None end.
Lemma iso_of_stamps_reads : iso_reads iso_of_stamps.
Proof.
  intros s t T. unfold iso_of_stamps. rewrite length_app. change (length (u "+00:00")) with 6%nat.
  rewrite Nat.add_sub, take_app_length. pose proof (stamp_last _ _ T) as L. assert (N : s <> []) by (by intros ->).
  rewrite (app_removelast_last 0 N), L in T. by rewrite T.
Qed.

Definition late_record (policy : CollectorTrustPolicy) : run_record :=
  let q := rr_request (lane_record policy (u "current-macos")) in
  {| rr_policy := policy;
     rr_request := {| rq_context := rq_context q; rq_captured_at := u "2026-08-01T09:00:00Z"; rq_completed_at := u "2026-08-01T10:00:00Z";
                      rq_run_nonce := rq_run_nonce q; rq_reports := rq_reports q; rq_raw_artifacts := rq_raw_artifacts q |};
     rr_signed_at := u "2026-08-01T11:00:00Z"; rr_signature := u "c2lnbmF0dXJl" |}.

Lemma composed_run_at_gate_witness : exists policy raw,
  run_identity iso_of_stamps policy (moment (Stamp (DateTime 2026 7 1 0 0 0) 0)) (moment (Stamp (DateTime 2026 8 2 0 0 0) 0)) nothing_seen
    (normalize (run_json (late_record policy))) = Ok (raw, gate_run_of (late_record policy), seen_after (gate_run_of (late_record policy)) nothing_seen).
Proof.
  destruct policy_file_loads as (policy & P & _). exists policy. destruct (pinned_policy_ok _ _ P) as [PO _].
  assert (K : composed_run (Ok policy_file) (late_record policy)).
  { constructor; [exact P|exact PO|constructor; vm_compute; reflexivity|vm_compute; reflexivity|vm_compute; reflexivity|by eexists|by eexists|by eexists|
      vm_compute; reflexivity|apply (bool_decide_eq_true_1 _); vm_compute; reflexivity]. }
  destruct (composed_run_at_gate iso_of_stamps (Ok policy_file) (late_record policy) _ nothing_seen (moment (Stamp (DateTime 2026 7 1 0 0 0) 0))
    (moment (Stamp (DateTime 2026 8 2 0 0 0) 0)) iso_of_stamps_reads K (or_intror eq_refl)) as (raw & entries & H & _).
  exists raw. apply H. split; [reflexivity|]. split.
  - constructor; first [by apply mem_false | by left].
  - unfold timed_right. split_and!; apply Z.leb_le; vm_compute; reflexivity.
Defined.

Lemma composed_aggregate_opens_witness : exists policy g runs,
  aggregate_head iso_of_stamps policy false (normalize (aggregate_json g)) = Ok (ag_candidate g, time_of (ca_built_at (ag_candidate g)), runs).
Proof.
  destruct policy_file_loads as (policy & P & _).
  assert (C : candidate_ok (moment ContextProofs.Demo.start) ContextProofs.Demo.candidate).
  { destruct ContextProofs.Demo.initializes as (e & p & I). by apply initialize_context_ok in I as (_ & I & _). }
  destruct (record_document (lane_record policy (u "current-macos")) _ (moment ContextProofs.Demo.start) (or_introl eq_refl) C) as (run1 & D1 & _); [by left|].
  destruct (record_document (lane_record policy (u "macos15")) _ (moment ContextProofs.Demo.start) (or_introl eq_refl) C) as (run2 & D2 & _); [by right; left|].
  set (g := aggregate_of policy ContextProofs.Demo.candidate (u "current-macos", JObj run1) (u "macos15", JObj run2)).
  assert (A : compose_physical_aggregate (Ok policy_file) [(moment ContextProofs.Demo.start, run_record_json (lane_record policy (u "current-macos")));
    (moment ContextProofs.Demo.start, run_record_json (lane_record policy (u "macos15")))] = Ok g).
  { apply aggregate_iff. do 10 eexists. split; [exact P|]. split; [reflexivity|]. split; [exact D1|]. split; [exact D2|]. split; [vm_compute; discriminate|reflexivity]. }
  destruct (composed_aggregate_opens iso_of_stamps (Ok policy_file) _ g _ iso_of_stamps_reads A (or_intror eq_refl)) as (policy' & runs & _ & H & _).
  by exists policy', g, runs.
Defined.
