(* ===== verification/Journal.v ===== *)
(** * The journal of a capture session

    The state machine and the event records of
    src/scripts/physical_capture/session.py: states, events, the fixed
    transitions, the canonical bytes of an event and their validation against
    the event before it.  Functions that only raise are [result]s. *)

From S2P Require Import Prelude Sha256 Text Json DateTime Effects.

(** ** States and events *)

Inductive CaptureState :=
  | INITIALIZED | COLLECTING | RAW_COMPLETE
  | NONCE_REQUEST_PREPARED | NONCE_ATTEMPTED | NONCE_RECEIVED
  | REPORTS_COMPOSED | BINDINGS_COMPOSED
  | RECEIPT_REQUEST_PREPARED | RECEIPT_ATTEMPTED | RECEIPT_RECEIVED
  | FINALIZED | NONCE_OUTCOME_UNKNOWN | RECEIPT_OUTCOME_UNKNOWN | ABANDONED.

Inductive CaptureEvent :=
  | SESSION_STARTED | COLLECTION_STARTED | RAW_COMPLETED
  | E_NONCE_REQUEST_PREPARED | NONCE_ATTEMPT_STARTED | NONCE_PRE_SEND_FAILED | NONCE_RESPONSE_RECORDED
  | E_REPORTS_COMPOSED | E_BINDINGS_COMPOSED
  | E_RECEIPT_REQUEST_PREPARED | RECEIPT_ATTEMPT_STARTED | RECEIPT_PRE_SEND_FAILED | RECEIPT_RESPONSE_RECORDED
  | RUN_FINALIZED | E_NONCE_OUTCOME_UNKNOWN | E_RECEIPT_OUTCOME_UNKNOWN
  | SESSION_ABANDONED | PRE_SEND_ATTEMPT_DISCARDED.

#[export] Instance CaptureState_eq_decision : EqDecision CaptureState.
Proof. solve_decision. Defined.
#[export] Instance CaptureEvent_eq_decision : EqDecision CaptureEvent.
Proof. solve_decision. Defined.

Definition all_states : list CaptureState :=
  [INITIALIZED; COLLECTING; RAW_COMPLETE; NONCE_REQUEST_PREPARED; NONCE_ATTEMPTED; NONCE_RECEIVED;
   REPORTS_COMPOSED; BINDINGS_COMPOSED; RECEIPT_REQUEST_PREPARED; RECEIPT_ATTEMPTED; RECEIPT_RECEIVED;
   FINALIZED; NONCE_OUTCOME_UNKNOWN; RECEIPT_OUTCOME_UNKNOWN; ABANDONED].

Definition all_events : list CaptureEvent :=
  [SESSION_STARTED; COLLECTION_STARTED; RAW_COMPLETED; E_NONCE_REQUEST_PREPARED; NONCE_ATTEMPT_STARTED;
   NONCE_PRE_SEND_FAILED; NONCE_RESPONSE_RECORDED; E_REPORTS_COMPOSED; E_BINDINGS_COMPOSED;
   E_RECEIPT_REQUEST_PREPARED; RECEIPT_ATTEMPT_STARTED; RECEIPT_PRE_SEND_FAILED; RECEIPT_RESPONSE_RECORDED;
   RUN_FINALIZED; E_NONCE_OUTCOME_UNKNOWN; E_RECEIPT_OUTCOME_UNKNOWN; SESSION_ABANDONED; PRE_SEND_ATTEMPT_DISCARDED].

(** [state.value] and [event.value]. *)
Definition state_value (s : CaptureState) : str :=
  u match s with
  | INITIALIZED => "initialized" | COLLECTING => "collecting" | RAW_COMPLETE => "raw_complete"
  | NONCE_REQUEST_PREPARED => "nonce_request_prepared" | NONCE_ATTEMPTED => "nonce_attempted"
  | NONCE_RECEIVED => "nonce_received" | REPORTS_COMPOSED => "reports_composed"
  | BINDINGS_COMPOSED => "bindings_composed" | RECEIPT_REQUEST_PREPARED => "receipt_request_prepared"
  | RECEIPT_ATTEMPTED => "receipt_attempted" | RECEIPT_RECEIVED => "receipt_received"
  | FINALIZED => "finalized" | NONCE_OUTCOME_UNKNOWN => "nonce_outcome_unknown"
  | RECEIPT_OUTCOME_UNKNOWN => "receipt_outcome_unknown" | ABANDONED => "abandoned"
  end%string.

Definition event_value (e : CaptureEvent) : str :=
  u match e with
  | SESSION_STARTED => "session_started" | COLLECTION_STARTED => "collection_started"
  | RAW_COMPLETED => "raw_completed" | E_NONCE_REQUEST_PREPARED => "nonce_request_prepared"
  | NONCE_ATTEMPT_STARTED => "nonce_attempt_started" | NONCE_PRE_SEND_FAILED => "nonce_pre_send_failed"
  | NONCE_RESPONSE_RECORDED => "nonce_response_recorded" | E_REPORTS_COMPOSED => "reports_composed"
  | E_BINDINGS_COMPOSED => "bindings_composed" | E_RECEIPT_REQUEST_PREPARED => "receipt_request_prepared"
  | RECEIPT_ATTEMPT_STARTED => "receipt_attempt_started" | RECEIPT_PRE_SEND_FAILED => "receipt_pre_send_failed"
  | RECEIPT_RESPONSE_RECORDED => "receipt_response_recorded" | RUN_FINALIZED => "run_finalized"
  | E_NONCE_OUTCOME_UNKNOWN => "nonce_outcome_unknown" | E_RECEIPT_OUTCOME_UNKNOWN => "receipt_outcome_unknown"
  | SESSION_ABANDONED => "session_abandoned" | PRE_SEND_ATTEMPT_DISCARDED => "pre_send_attempt_discarded"
  end%string.

(** [CaptureState(value)] and [CaptureEvent(value)]. *)
Definition state_of_value (v : json) : option CaptureState :=
  match v with JStr s => List.find (fun st => str_eqb (state_value st) s) all_states | _ => None end.
Definition event_of_value (v : json) : option CaptureEvent :=
  match v with JStr s => List.find (fun e => str_eqb (event_value e) s) all_events | _ => None end.

Definition is_terminal_state (s : CaptureState) : bool :=
  match s with FINALIZED | NONCE_OUTCOME_UNKNOWN | RECEIPT_OUTCOME_UNKNOWN | ABANDONED => true | _ => false end.

(** [_LINEAR_TRANSITIONS]. *)
Definition linear_transition (e : CaptureEvent) : option (option CaptureState * CaptureState) :=
  match e with
  | SESSION_STARTED => Some (None, INITIALIZED)
  | COLLECTION_STARTED => Some (Some INITIALIZED, COLLECTING)
  | RAW_COMPLETED => Some (Some COLLECTING, RAW_COMPLETE)
  | E_NONCE_REQUEST_PREPARED => Some (Some RAW_COMPLETE, NONCE_REQUEST_PREPARED)
  | NONCE_ATTEMPT_STARTED => Some (Some NONCE_REQUEST_PREPARED, NONCE_ATTEMPTED)
  | NONCE_PRE_SEND_FAILED => Some (Some NONCE_ATTEMPTED, NONCE_REQUEST_PREPARED)
  | NONCE_RESPONSE_RECORDED => Some (Some NONCE_ATTEMPTED, NONCE_RECEIVED)
  | E_REPORTS_COMPOSED => Some (Some NONCE_RECEIVED, REPORTS_COMPOSED)
  | E_BINDINGS_COMPOSED => Some (Some REPORTS_COMPOSED, BINDINGS_COMPOSED)
  | E_RECEIPT_REQUEST_PREPARED => Some (Some BINDINGS_COMPOSED, RECEIPT_REQUEST_PREPARED)
  | RECEIPT_ATTEMPT_STARTED => Some (Some RECEIPT_REQUEST_PREPARED, RECEIPT_ATTEMPTED)
  | RECEIPT_PRE_SEND_FAILED => Some (Some RECEIPT_ATTEMPTED, RECEIPT_REQUEST_PREPARED)
  | RECEIPT_RESPONSE_RECORDED => Some (Some RECEIPT_ATTEMPTED, RECEIPT_RECEIVED)
  | RUN_FINALIZED => Some (Some RECEIPT_RECEIVED, FINALIZED)
  | E_NONCE_OUTCOME_UNKNOWN => Some (Some NONCE_ATTEMPTED, NONCE_OUTCOME_UNKNOWN)
  | E_RECEIPT_OUTCOME_UNKNOWN => Some (Some RECEIPT_ATTEMPTED, RECEIPT_OUTCOME_UNKNOWN)
  | SESSION_ABANDONED | PRE_SEND_ATTEMPT_DISCARDED => None
  end.

Definition is_abandonable (s : CaptureState) : bool :=
  match s with
  | INITIALIZED | COLLECTING | RAW_COMPLETE | NONCE_REQUEST_PREPARED | NONCE_RECEIVED | REPORTS_COMPOSED
  | BINDINGS_COMPOSED | RECEIPT_REQUEST_PREPARED | RECEIPT_RECEIVED => true
  | _ => false
  end.

Definition is_prepared (s : CaptureState) : bool :=
  match s with NONCE_REQUEST_PREPARED | RECEIPT_REQUEST_PREPARED => true | _ => false end.

Definition _transition_for (event : CaptureEvent) (current : option CaptureState) : result pyexn CaptureState :=
  let invalid := Err (SessionError "invalid_session_transition") in
  if bool_decide (event = PRE_SEND_ATTEMPT_DISCARDED) then
    match current with Some s => if is_prepared s then Ok s else invalid | None => invalid end
  else if bool_decide (event = SESSION_ABANDONED) then
    match current with Some s => if is_abandonable s then Ok ABANDONED else invalid | None => invalid end
  else
    match linear_transition event with
    | None => invalid
    | Some (from, to) => if bool_decide (from = current) then Ok to else invalid
    end.

(** ** Event records *)

Definition JOURNAL_DIRECTORY : str := u "journal".
Definition LOCK_FILE : str := u "session.lock".
Definition EVENT_DOCUMENT : str := u "cfw-physical-capture-event-v1".
Definition EVENT_SCHEMA_VERSION : Z := 1.
Definition MAX_JOURNAL_EVENTS : Z := 1024.
Definition MAX_EVENT_BYTES : Z := 64 * 1024.
Definition ZERO_SHA256 : str := replicate 64 48.

Record SessionSnapshot := Snapshot {
  sn_state : CaptureState;
  sn_sequence : Z;
  sn_last_event_sha256 : str;
  sn_last_binding_sha256 : str;
  sn_last_recorded_at : datetime;
  sn_observation_manifest_sha256 : option str
}.

#[export] Instance SessionSnapshot_eq_decision : EqDecision SessionSnapshot.
Proof. solve_decision. Defined.

Definition _format_timestamp (value : datetime) : str := format_utc value.

Definition _parse_timestamp (value : json) : result pyexn datetime :=
  match value with
  | JStr s => match fromisoformat s with Some d => Ok d | None => Err (SessionError "invalid_journal_timestamp") end
  | _ => Err (SessionError "invalid_journal_timestamp")
  end.

Definition _require_sha256 (value : json) : result pyexn str :=
  match value with
  | JStr s => if is_sha256 s then Ok s else Err (SessionError "invalid_journal_digest")
  | _ => Err (SessionError "invalid_journal_digest")
  end.

Definition _canonical_event_bytes (value : json) : result pyexn bytes :=
  match canonical_json value with
  | Some b => Ok (b ++ [x0a])
  | None => Err (SessionError "journal_encoding_failed")
  end.

Definition _EVENT_FIELDS : list str :=
  [u "schema_version"; u "document"; u "sequence"; u "event"; u "from_state"; u "to_state"; u "recorded_at";
   u "previous_event_sha256"; u "binding_sha256"].

(** [None if state is None else state.value]. *)
Definition state_json (s : option CaptureState) : json :=
  match s with Some s => JStr (state_value s) | None => JNull end.

(** The dict an event is written from; [recorded_at] is the formatted time. *)
Definition event_dict (sequence : Z) (event : CaptureEvent) (from : option CaptureState) (to : CaptureState)
  (recorded_at previous binding : str) : json :=
  JObj [(u "schema_version", JInt EVENT_SCHEMA_VERSION);
        (u "document", JStr EVENT_DOCUMENT);
        (u "sequence", JInt sequence);
        (u "event", JStr (event_value event));
        (u "from_state", state_json from);
        (u "to_state", JStr (state_value to));
        (u "recorded_at", JStr recorded_at);
        (u "previous_event_sha256", JStr previous);
        (u "binding_sha256", JStr binding)].

(** Equality of a JSON value with an optional text, as Python's [!=] decides it. *)
Definition json_is (v expected : json) : bool :=
  match v, expected with
  | JNull, JNull => true
  | JStr a, JStr b => str_eqb a b
  | _, _ => false
  end.

Definition field (l : list (str * json)) (name : string) : json := default JNull (obj_get l (u name)).

Definition next_manifest (event : CaptureEvent) (binding : str) (previous : option SessionSnapshot) : option str :=
  if bool_decide (event = RAW_COMPLETED) then Some binding
  else match previous with Some p => sn_observation_manifest_sha256 p | None => None end.

Definition _validate_event_bytes (data : bytes) (previous : option SessionSnapshot) (expected_sequence : Z)
  : result pyexn SessionSnapshot :=
  match load_json_bytes data with
  | None => Err (SessionError "invalid_journal_json")
  | Some (JObj value) =>
      raise_if negb (same_fields _EVENT_FIELDS value) with SessionError "invalid_journal_fields" ;;
      canonical ← _canonical_event_bytes (JObj value);
      raise_if negb (bool_decide (canonical = data)) with SessionError "noncanonical_journal_event" ;;
      raise_if negb (match field value "schema_version" with JInt z => z =? EVENT_SCHEMA_VERSION | _ => false end &&
                     json_is (field value "document") (JStr EVENT_DOCUMENT) &&
                     match field value "sequence" with JInt z => z =? expected_sequence | _ => false end)
        with SessionError "invalid_journal_header" ;;
      match event_of_value (field value "event") with
      | None => Err (SessionError "invalid_journal_event")
      | Some event =>
          let current_state := option_map sn_state previous in
          next_state ← _transition_for event current_state;
          raise_if negb (json_is (field value "from_state") (state_json current_state)) ||
                   negb (json_is (field value "to_state") (JStr (state_value next_state)))
            with SessionError "journal_transition_mismatch" ;;
          previous_sha ← _require_sha256 (field value "previous_event_sha256");
          raise_if negb (str_eqb previous_sha
                           (match previous with Some p => sn_last_event_sha256 p | None => ZERO_SHA256 end))
            with SessionError "journal_hash_chain_mismatch" ;;
          binding ← _require_sha256 (field value "binding_sha256");
          recorded_at ← _parse_timestamp (field value "recorded_at");
          raise_if match previous with Some p => datetime_ltb recorded_at (sn_last_recorded_at p) | None => false end
            with SessionError "journal_time_rollback" ;;
          Ok {| sn_state := next_state;
                sn_sequence := expected_sequence;
                sn_last_event_sha256 := hexdigest data;
                sn_last_binding_sha256 := binding;
                sn_last_recorded_at := recorded_at;
                sn_observation_manifest_sha256 := next_manifest event binding previous |}
      end
  | Some _ => Err (SessionError "invalid_journal_fields")
  end.

(** ** The accepted records *)

(** The line of an event record. *)
Definition event_line (sequence : Z) (event : CaptureEvent) (from : option CaptureState) (to : CaptureState)
  (recorded_at previous binding : str) : option bytes :=
  b ← canonical_json (event_dict sequence event from to recorded_at previous binding); Some (b ++ [x0a]).

Definition previous_digest (previous : option SessionSnapshot) : str :=
  match previous with Some p => sn_last_event_sha256 p | None => ZERO_SHA256 end.

Definition not_before (previous : option SessionSnapshot) (t : datetime) : bool :=
  match previous with Some p => negb (datetime_ltb t (sn_last_recorded_at p)) | None => true end.

(** [previous] as a replay leaves it: its digest is a digest. *)
Definition snapshot_ok (s : SessionSnapshot) : bool := is_sha256 (sn_last_event_sha256 s).

(** The record of [event] at [t] with [binding] is the one that follows
    [previous] as number [sequence], and gives [next]. *)
Record follows (previous : option SessionSnapshot) (sequence : Z) (event : CaptureEvent) (text : str)
  (binding : str) (data : bytes) (next : SessionSnapshot) : Prop := {
  fo_transition : _transition_for event (option_map sn_state previous) = Ok (sn_state next);
  fo_line : event_line sequence event (option_map sn_state previous) (sn_state next) text
              (previous_digest previous) binding = Some data;
  fo_binding : is_sha256 binding = true;
  fo_previous : is_sha256 (previous_digest previous) = true;
  fo_time : fromisoformat text = Some (sn_last_recorded_at next);
  fo_order : not_before previous (sn_last_recorded_at next) = true;
  fo_next : next = {| sn_state := sn_state next; sn_sequence := sequence; sn_last_event_sha256 := hexdigest data;
                      sn_last_binding_sha256 := binding; sn_last_recorded_at := sn_last_recorded_at next;
                      sn_observation_manifest_sha256 := next_manifest event binding previous |}
}.

Lemma event_of_value_spec v e : event_of_value v = Some e <-> v = JStr (event_value e).
Proof.
  split.
  - destruct v; try discriminate. cbn [event_of_value]. intros H. apply find_some in H as [_ H].
    apply str_eqb_eq in H. by rewrite H.
  - intros ->. destruct e; reflexivity.
Qed.

Lemma state_of_value_spec v s : state_of_value v = Some s <-> v = JStr (state_value s).
Proof.
  split.
  - destruct v; try discriminate. cbn [state_of_value]. intros H. apply find_some in H as [_ H].
    apply str_eqb_eq in H. by rewrite H.
  - intros ->. destruct s; reflexivity.
Qed.

Lemma json_is_state v s : json_is v (state_json s) = true <-> v = state_json s.
Proof.
  destruct s as [s|]; cbn [state_json]; destruct v; cbn [json_is]; split; try discriminate; try done.
  - intros H. apply str_eqb_eq in H. by subst.
  - intros [= ->]. apply str_eqb_refl.
Qed.

Lemma json_is_str v s : json_is v (JStr s) = true <-> v = JStr s.
Proof.
  destruct v; cbn [json_is]; split; try discriminate; try done.
  - intros H. apply str_eqb_eq in H. by subst.
  - intros [= ->]. apply str_eqb_refl.
Qed.

Lemma require_sha256_ok v s : _require_sha256 v = Ok s <-> v = JStr s /\ is_sha256 s = true.
Proof.
  split.
  - destruct v; try discriminate. cbn. destruct (is_sha256 s0) eqn:S; [|discriminate]. by intros [= ->].
  - intros [-> H]. cbn. by rewrite H.
Qed.

Lemma fromisoformat_chars s d : fromisoformat s = Some d -> encodable s = true.
Proof.
  unfold fromisoformat, split_utc. intros H.
  destruct s as [|y1 [|y2 [|y3 [|y4 [|c1 [|m1 [|m2 [|c2 [|d1 [|d2 [|c3 [|h1 [|h2 [|c4 [|n1 [|n2 [|c5 [|s1 [|s2 [|c6 [|]]]]]]]]]]]]]]]]]]]]]; try done.
  destruct (_ && _) eqn:C in H; [|done]. clear H. rewrite !andb_true_iff, !Z.eqb_eq in C.
  destruct C as [[[[[[-> ->] ->] ->] ->] ->] D].
  assert (DS : forall c, is_digit c = true -> scalar c = true).
  { intros c Hc. apply scalar_range. unfold is_digit in Hc. rewrite andb_true_iff, !Z.leb_le in Hc. lia. }
  cbn [forallb] in D. rewrite !andb_true_iff in D. unfold encodable. cbn [forallb].
  repeat match goal with D : _ /\ _ |- _ => destruct D end.
  repeat match goal with D : is_digit ?c = true |- _ => rewrite (DS c D); clear D end. reflexivity.
Qed.

Lemma event_value_encodable e : encodable (event_value e) = true.
Proof. by destruct e. Qed.
Lemma state_value_encodable s : encodable (state_value s) = true.
Proof. by destruct s. Qed.

(** An event's dict has a canonical encoding that is read back. *)
Lemma event_dict_ok sequence event from to text previous binding :
  Z.abs sequence < 10 ^ 19 -> encodable text = true -> encodable previous = true -> encodable binding = true ->
  plain (event_dict sequence event from to text previous binding) = true /\
  _json_depth (event_dict sequence event from to text previous binding) 0 = true.
Proof.
  intros Hs Ht Hp Hb. split.
  - unfold event_dict. cbn [plain forallb fst snd].
    match goal with |- context [unique_keys ?l] => assert (U : unique_keys l = true) by (vm_compute; reflexivity) end. rewrite U.
    rewrite (encodable_chars _ Ht), (encodable_chars _ Hp), (encodable_chars _ Hb),
      (encodable_chars _ (event_value_encodable event)), (encodable_chars _ (state_value_encodable to)).
    rewrite (proj2 (Z.ltb_lt _ _) Hs).
    assert (F : plain (state_json from) = true).
    { destruct from as [s|]; cbn; [apply encodable_chars, state_value_encodable|done]. }
    rewrite F. vm_compute. reflexivity.
  - unfold event_dict. cbn [_json_depth forallb fst snd].
    rewrite Ht, Hp, Hb, event_value_encodable, state_value_encodable.
    assert (F : _json_depth (state_json from) (0 + 1) = true).
    { destruct from as [s|]; cbn; [apply state_value_encodable|done]. }
    rewrite F. vm_compute. reflexivity.
Qed.

Lemma event_fields_nodup : NoDup _EVENT_FIELDS.
Proof. apply (bool_decide_eq_true_1 (NoDup _EVENT_FIELDS)). vm_compute. reflexivity. Qed.

(** Reading an event record takes it apart. *)
Lemma validate_follows data previous sequence next :
  _validate_event_bytes data previous sequence = Ok next ->
  exists event text binding, follows previous sequence event text binding data next.
Proof.
  unfold _validate_event_bytes. intros H.
  destruct (load_json_bytes data) as [[| | | | | | value]|] eqn:L; try discriminate H.
  destruct (load_json_strict _ _ L) as [HS _]. apply strict_unique in HS.
  res_step H. res_step H. rename G into HF. unfold _canonical_event_bytes in E.
  destruct (canonical_json (JObj value)) as [b|] eqn:CJ; [|discriminate E]. injection E as <-.
  apply negb_false_iff in HF. res_step H. apply negb_false_iff, bool_decide_eq_true in G.
  res_step H. apply negb_false_iff in G0. rewrite !andb_true_iff in G0. destruct G0 as [[HV HD] HQ].
  destruct (event_of_value (field value "event")) as [event|] eqn:EV; [|discriminate H].
  apply event_of_value_spec in EV. res_step H. rename E into HT.
  res_step H. apply orb_false_elim in G0 as [GF GT]. apply negb_false_iff, json_is_state in GF.
  apply negb_false_iff, json_is_str in GT.
  res_step H. apply require_sha256_ok in E as [HP HP']. res_step H. apply negb_false_iff, str_eqb_eq in G0.
  res_step H. apply require_sha256_ok in E as [HB HB']. res_step H. res_step H. injection H as <-.
  destruct (field value "schema_version") as [| |z1| | | |] eqn:F1; try discriminate HV. apply Z.eqb_eq in HV as ->.
  apply json_is_str in HD.
  destruct (field value "sequence") as [| |z2| | | |] eqn:F3; try discriminate HQ. apply Z.eqb_eq in HQ as ->.
  unfold _parse_timestamp in E. destruct (field value "recorded_at") as [| | | |text| |] eqn:FT; try discriminate E.
  destruct (fromisoformat text) as [d|] eqn:FI; [|discriminate E]. injection E as <-.
  exists event, text, v1. constructor; cbn [sn_state sn_last_recorded_at]; try done.
  - unfold event_line, canonical_json in *.
    assert (ED : dumps (JObj value) = dumps (event_dict sequence event (option_map sn_state previous) v text (previous_digest previous) v1)).
    { rewrite (dumps_obj_perm value (map (fun f => (f, default JNull (obj_get value f))) _EVENT_FIELDS)); [|done|].
      - unfold event_dict, _EVENT_FIELDS. cbn [map]. unfold field in *. rewrite F1, HD, F3, EV, GF, GT, FT, HP, HB.
        unfold previous_digest. rewrite G0. done.
      - apply dict_of_fields; [apply event_fields_nodup|done|done]. }
    rewrite ED in CJ. rewrite CJ. cbn. by rewrite G.
  - unfold previous_digest. by rewrite <-G0.
  - unfold not_before. destruct previous; [|done]. by rewrite G1.
Qed.

Lemma event_items_nodup sequence event from to text previous binding :
  NoDup (map fst (dict_items (event_dict sequence event from to text previous binding))).
Proof. apply event_fields_nodup. Qed.

(** A written event record is read back as the dict it was written from, in
    some order of its keys. *)
Lemma event_line_fields sequence event from to text previous binding data :
  Z.abs sequence < 10 ^ 19 -> encodable text = true -> encodable previous = true -> encodable binding = true ->
  event_line sequence event from to text previous binding = Some data ->
  exists l, load_json_bytes data = Some (JObj l) /\ _canonical_event_bytes (JObj l) = Ok data /\
    same_fields _EVENT_FIELDS l = true /\
    forall name, field l name = field (dict_items (event_dict sequence event from to text previous binding)) name.
Proof.
  intros Hs Ht Hp Hb FL. unfold event_line in FL.
  destruct (event_dict_ok sequence event from to text previous binding Hs Ht Hp Hb) as [HP HD].
  destruct (canonical_json _) as [b|] eqn:CJ in FL; [|done]. cbn in FL. injection FL as FL.
  pose proof (load_canonical _ b HP HD CJ) as L. rewrite FL in L.
  pose proof (dumps_normalize _ HP) as DN.
  set (ed := event_dict _ _ _ _ _ _ _) in *.
  assert (NV : exists l, normalize ed = JObj l /\ l ≡ₚ dict_items ed).
  { eexists. split; [reflexivity|]. rewrite sort_items_perm. unfold ed, event_dict, dict_items. cbn [map fst snd normalize].
    by destruct from. }
  destruct NV as (l & NV & PL). rewrite NV in *.
  assert (NL : NoDup (map fst l)) by (rewrite PL; apply event_items_nodup).
  exists l. split; [done|]. split; [|split].
  - unfold _canonical_event_bytes, canonical_json in *. rewrite DN, CJ. by rewrite FL.
  - apply same_fields_spec. intros k. rewrite PL. done.
  - intros name. unfold field. by rewrite (obj_get_perm l _ (u name) NL PL).
Qed.

(** And an event record written for a snapshot is accepted after it. *)
Lemma follows_validate previous sequence event text binding data next :
  Z.abs sequence < 10 ^ 19 -> follows previous sequence event text binding data next ->
  _validate_event_bytes data previous sequence = Ok next.
Proof.
  intros Hs [FT FL FB FP FI FO FN].
  destruct (event_line_fields _ _ _ _ _ _ _ _ Hs (fromisoformat_chars _ _ FI) (sha256_encodable _ FP)
    (sha256_encodable _ FB) FL) as (l & L & CE & SF & FE).
  set (ed := event_dict _ _ _ _ _ _ _) in *.
  unfold _validate_event_bytes. rewrite L.
  rewrite SF. cbn [negb].
  rewrite CE. cbn [mbind result_bind]. rewrite bool_decide_true by done. cbn [negb].
  rewrite !FE.
  change (field (dict_items ed) "schema_version") with (JInt EVENT_SCHEMA_VERSION).
  change (field (dict_items ed) "document") with (JStr EVENT_DOCUMENT).
  change (field (dict_items ed) "sequence") with (JInt sequence).
  change (field (dict_items ed) "event") with (JStr (event_value event)).
  change (field (dict_items ed) "from_state") with (state_json (option_map sn_state previous)).
  change (field (dict_items ed) "to_state") with (JStr (state_value (sn_state next))).
  change (field (dict_items ed) "recorded_at") with (JStr text).
  change (field (dict_items ed) "previous_event_sha256") with (JStr (previous_digest previous)).
  change (field (dict_items ed) "binding_sha256") with (JStr binding).
  cbn [json_is]. rewrite !Z.eqb_refl, str_eqb_refl. cbn [andb negb].
  rewrite (proj2 (event_of_value_spec _ event) eq_refl), FT. cbn [mbind result_bind].
  rewrite (proj2 (json_is_state _ _) eq_refl), str_eqb_refl. cbn [negb orb].
  unfold _require_sha256. rewrite FP, FB. cbn [mbind result_bind]. unfold previous_digest at 1. rewrite str_eqb_refl. cbn [negb].
  unfold _parse_timestamp. rewrite FI. cbn [mbind result_bind].
  rewrite FN. cbn [sn_state sn_last_recorded_at]. unfold not_before in FO.
  destruct previous; [|done]. apply negb_true_iff in FO. by rewrite FO.
Qed.

(** The journal accepts exactly the records its writer makes.  Reading
    [data] as record number [sequence] after [previous] gives [next] if and only
    if [data] is the canonical line of a transition the state machine allows from
    the state of [previous], chained to its digest, bound to a SHA-256, at a time
    not before it; every other byte string is refused. *)
Theorem validate_event_bytes_exact data previous sequence next :
  Z.abs sequence < 10 ^ 19 ->
  _validate_event_bytes data previous sequence = Ok next <->
  exists event text binding, follows previous sequence event text binding data next.
Proof.
  intros Hs. split; [apply validate_follows|]. intros (event & text & binding & F). by eapply follows_validate.
Qed.

Definition demo_line : bytes :=
  default [] (event_line 1 SESSION_STARTED None INITIALIZED (u "2026-01-02T03:04:05Z") ZERO_SHA256 (replicate 64 97)).
Definition demo_snapshot : SessionSnapshot := {|
  sn_state := INITIALIZED; sn_sequence := 1; sn_last_event_sha256 := hexdigest demo_line;
  sn_last_binding_sha256 := replicate 64 97; sn_last_recorded_at := DateTime 2026 1 2 3 4 5;
  sn_observation_manifest_sha256 := None |}.

Lemma demo_follows :
  follows None 1 SESSION_STARTED (u "2026-01-02T03:04:05Z") (replicate 64 97) demo_line demo_snapshot.
Proof. constructor; try reflexivity; vm_compute; reflexivity. Qed.

Lemma validate_event_bytes_exact_witness : _validate_event_bytes demo_line None 1 = Ok demo_snapshot.
Proof.
  apply (validate_event_bytes_exact demo_line None 1 demo_snapshot); [lia|].
  exists SESSION_STARTED, (u "2026-01-02T03:04:05Z"), (replicate 64 97). exact demo_follows.
Defined.

(** ** Replay *)

(** The snapshot after the records [l], the first of which is number one. *)
Fixpoint replay_from (previous : option SessionSnapshot) (sequence : Z) (l : list bytes) : result pyexn (option SessionSnapshot) :=
  match l with
  | [] => Ok previous
  | data :: l =>
      snapshot ← _validate_event_bytes data previous sequence;
      replay_from (Some snapshot) (sequence + 1) l
  end.
Definition replay (l : list bytes) : result pyexn (option SessionSnapshot) := replay_from None 1 l.

Lemma replay_from_app previous sequence l1 l2 :
  replay_from previous sequence (l1 ++ l2) =
  (s ← replay_from previous sequence l1; replay_from s (sequence + len l1) l2).
Proof.
  revert previous sequence. induction l1 as [|d l1 IH]; intros previous sequence; cbn [app replay_from].
  - rewrite len_nil. cbn. by rewrite Z.add_0_r.
  - destruct (_validate_event_bytes d previous sequence); cbn; [|done]. rewrite IH, len_cons.
    destruct (replay_from _ _ l1); cbn; [|done]. by replace (sequence + (1 + len l1)) with (sequence + 1 + len l1) by lia.
Qed.

Lemma replay_snoc l data :
  replay (l ++ [data]) =
  (s ← replay l; snapshot ← _validate_event_bytes data s (len l + 1); Ok (Some snapshot)).
Proof.
  unfold replay. rewrite replay_from_app. destruct (replay_from None 1 l) as [s|]; cbn; [|done].
  replace (1 + len l) with (len l + 1) by lia. by destruct (_validate_event_bytes data s (len l + 1)).
Qed.

Lemma validate_sequence data previous sequence next :
  _validate_event_bytes data previous sequence = Ok next ->
  sn_sequence next = sequence /\ snapshot_ok next = true /\ sn_last_event_sha256 next = hexdigest data.
Proof.
  intros H. apply validate_follows in H as (? & ? & ? & [_ _ _ _ _ _ ->]). cbn. split; [done|].
  split; [apply hexdigest_sha256|done].
Qed.

(** The snapshot of a replay counts its records and carries the digest of the
    last one. *)
Lemma replay_snapshot l s :
  replay l = Ok s ->
  match s with
  | None => l = []
  | Some s => sn_sequence s = len l /\ snapshot_ok s = true /\ exists l' d, l = l' ++ [d] /\ sn_last_event_sha256 s = hexdigest d
  end.
Proof.
  destruct l as [|d l _] using rev_ind.
  - by intros [= <-].
  - rewrite replay_snoc. intros H. res_inv H. subst s. apply validate_sequence in E0 as (-> & ? & ?).
    rewrite len_app. split; [done|]. split; [done|]. eauto.
Qed.
