(* ===== verification/JournalHistory.v ===== *)
(** * Histories of a capture session

    What the journal of src/scripts/physical_capture/session.py means.  A
    history is a list of entries (event, time, binding) that the state machine
    accepts one after the other; [history] writes it.  Replay reads exactly the
    histories, the digest of the last record determines all of them unless two
    records collide under SHA-256, and every history keeps the session's
    lifecycle. *)

From S2P Require Import Prelude Sha256 Text Json DateTime Effects Journal.

(** ** Histories *)

Record entry := Entry { en_event : CaptureEvent; en_time : str; en_binding : str }.

(** The record of an entry after [previous], and the snapshot it gives. *)
Definition write_entry (previous : option SessionSnapshot) (sequence : Z) (e : entry) : option (bytes * SessionSnapshot) :=
  match _transition_for (en_event e) (option_map sn_state previous) with
  | Err _ => None
  | Ok to =>
      t ← fromisoformat (en_time e);
      if is_sha256 (en_binding e) && is_sha256 (previous_digest previous) && not_before previous t then
        data ← event_line sequence (en_event e) (option_map sn_state previous) to (en_time e) (previous_digest previous)
                 (en_binding e);
        Some (data, {| sn_state := to; sn_sequence := sequence; sn_last_event_sha256 := hexdigest data;
                       sn_last_binding_sha256 := en_binding e; sn_last_recorded_at := t;
                       sn_observation_manifest_sha256 := next_manifest (en_event e) (en_binding e) previous |})
      else None
  end.

Fixpoint history_from (previous : option SessionSnapshot) (sequence : Z) (entries : list entry)
  : option (list bytes * option SessionSnapshot) :=
  match entries with
  | [] => Some ([], previous)
  | e :: entries =>
      '(data, next) ← write_entry previous sequence e;
      '(rest, last) ← history_from (Some next) (sequence + 1) entries;
      Some (data :: rest, last)
  end.
Definition history (entries : list entry) : option (list bytes * option SessionSnapshot) := history_from None 1 entries.

Lemma write_entry_follows previous sequence e data next :
  write_entry previous sequence e = Some (data, next) <->
  follows previous sequence (en_event e) (en_time e) (en_binding e) data next.
Proof.
  unfold write_entry. split.
  - destruct (_transition_for _ _) as [to|] eqn:T; [|done]. intros H.
    apply bind_Some in H as (t & Ht & H). destruct (_ && _) eqn:C; [|done]. rewrite !andb_true_iff in C.
    destruct C as [[Hb Hp] Ho]. apply bind_Some in H as (d & Hd & [= <- <-]). by constructor.
  - intros [FT FL FB FP FI FO FN]. rewrite FT, FI. cbn [mbind option_bind]. rewrite FB, FP, FO. cbn [andb]. rewrite FL.
    cbn [mbind option_bind]. by rewrite FN at 3.
Qed.

Lemma write_entry_ok previous sequence e data next :
  Z.abs sequence < 10 ^ 19 -> write_entry previous sequence e = Some (data, next) ->
  _validate_event_bytes data previous sequence = Ok next.
Proof. intros Hs H. apply write_entry_follows in H. by eapply follows_validate. Qed.

Lemma history_replay_from previous sequence l s :
  0 <= sequence -> sequence + len l < 10 ^ 19 ->
  replay_from previous sequence l = Ok s <-> exists entries, history_from previous sequence entries = Some (l, s).
Proof.
  revert previous sequence. induction l as [|d l IH]; intros previous sequence Hs Hl; cbn [replay_from].
  - split.
    + intros [= <-]. by exists [].
    + intros ([|e entries] & H); cbn [history_from] in H; [by injection H as <-|].
      apply bind_Some in H as ([d n] & _ & H). apply bind_Some in H as ([r z] & _ & H). discriminate H.
  - rewrite len_cons in Hl. pose proof (len_nonneg l) as LN. split.
    + intros H. destruct (_validate_event_bytes d previous sequence) as [next|] eqn:V; [|discriminate H]. cbn in H.
      apply validate_follows in V as (event & text & binding & F).
      apply IH in H as (entries & H); [|lia|lia].
      exists (Entry event text binding :: entries). cbn [history_from].
      assert (W : write_entry previous sequence (Entry event text binding) = Some (d, next)) by (by apply write_entry_follows).
      rewrite W. cbn. by rewrite H.
    + intros ([|e entries] & H); cbn [history_from] in H; [discriminate H|].
      apply bind_Some in H as ([d' next] & W & H). apply bind_Some in H as ([r z] & H & [= <- <- <-]).
      apply write_entry_ok in W; [|lia]. rewrite W. cbn. apply IH; [lia|lia|]. by exists entries.
Qed.

(** C22: replay reads exactly the histories of the state machine.  A sequence of
    files is replayed to a snapshot if and only if the session could have written
    it, entry by entry, ending in that snapshot. *)
Theorem replay_refines_history l s :
  len l < 10 ^ 18 -> replay l = Ok s <-> exists entries, history entries = Some (l, s).
Proof. intros Hl. apply history_replay_from; lia. Qed.

Lemma replay_refines_history_witness : replay [demo_line] = Ok (Some demo_snapshot).
Proof.
  apply (replay_refines_history [demo_line] (Some demo_snapshot)); [reflexivity|].
  exists [Entry SESSION_STARTED (u "2026-01-02T03:04:05Z") (replicate 64 97)].
  unfold history. cbn [history_from].
  rewrite (proj2 (write_entry_follows None 1 (Entry SESSION_STARTED _ _) demo_line demo_snapshot) demo_follows).
  reflexivity.
Defined.

(** ** A record determines its entry and what it follows *)

Lemma event_value_inj e1 e2 : event_value e1 = event_value e2 -> e1 = e2.
Proof.
  intros H. assert (X : event_of_value (JStr (event_value e1)) = Some e2) by (apply event_of_value_spec; by rewrite H).
  rewrite (proj2 (event_of_value_spec _ e1) eq_refl) in X. by injection X.
Qed.

Lemma follows_inj p1 q1 ev1 t1 b1 p2 q2 ev2 t2 b2 data n1 n2 :
  Z.abs q1 < 10 ^ 19 -> Z.abs q2 < 10 ^ 19 ->
  follows p1 q1 ev1 t1 b1 data n1 -> follows p2 q2 ev2 t2 b2 data n2 ->
  q1 = q2 /\ ev1 = ev2 /\ t1 = t2 /\ b1 = b2 /\ previous_digest p1 = previous_digest p2.
Proof.
  intros H1 H2 [_ FL1 FB1 FP1 FI1 _ _] [_ FL2 FB2 FP2 FI2 _ _].
  destruct (event_line_fields _ _ _ _ _ _ _ _ H1 (fromisoformat_chars _ _ FI1) (sha256_encodable _ FP1)
    (sha256_encodable _ FB1) FL1) as (l & L & _ & _ & F1).
  destruct (event_line_fields _ _ _ _ _ _ _ _ H2 (fromisoformat_chars _ _ FI2) (sha256_encodable _ FP2)
    (sha256_encodable _ FB2) FL2) as (l' & L' & _ & _ & F2).
  rewrite L in L'. injection L' as <-.
  assert (F : forall name, field (dict_items (event_dict q1 ev1 (option_map sn_state p1) (sn_state n1) t1 (previous_digest p1) b1)) name
    = field (dict_items (event_dict q2 ev2 (option_map sn_state p2) (sn_state n2) t2 (previous_digest p2) b2)) name)
    by (intros name; by rewrite <-F1, F2).
  pose proof (F "sequence"%string) as E1. pose proof (F "event"%string) as E2. pose proof (F "recorded_at"%string) as E3.
  pose proof (F "binding_sha256"%string) as E4. pose proof (F "previous_event_sha256"%string) as E5.
  cbv [field event_dict dict_items default] in E1, E2, E3, E4, E5.
  cbn [obj_get] in E1, E2, E3, E4, E5.
  cbn in E1, E2, E3, E4, E5.
  injection E1 as E1. injection E2 as E2. injection E3 as E3. injection E4 as E4. injection E5 as E5.
  apply event_value_inj in E2. done.
Qed.

Lemma replay_snoc_inv l d s :
  replay (l ++ [d]) = Ok s ->
  exists p next event text binding, replay l = Ok p /\ s = Some next /\
    _validate_event_bytes d p (len l + 1) = Ok next /\ follows p (len l + 1) event text binding d next.
Proof.
  rewrite replay_snoc. intros H. res_inv H. subst s. destruct (validate_follows _ _ _ _ E0) as (ev & t & b & F). eauto 10.
Qed.

Lemma replay_nil_digest l s : replay l = Ok (Some s) -> l <> [].
Proof. by intros H ->. Qed.

(** Two records with one digest. *)
Definition collision (l1 l2 : list bytes) : Prop :=
  exists d1 d2, d1 ∈ l1 /\ d2 ∈ l2 /\ d1 <> d2 /\ hexdigest d1 = hexdigest d2.

(** C21: the digest of the last record binds the whole journal.  Two journals that
    replay to snapshots with the same last digest are the same records, or
    exhibit two records that collide under SHA-256. *)
Theorem hash_chain_binds_history l1 l2 s1 s2 :
  len l1 < 10 ^ 18 -> len l2 < 10 ^ 18 ->
  replay l1 = Ok (Some s1) -> replay l2 = Ok (Some s2) -> sn_last_event_sha256 s1 = sn_last_event_sha256 s2 ->
  l1 = l2 \/ collision l1 l2.
Proof.
  intros L1 L2 R1 R2 HD. revert l2 s1 s2 L1 L2 R1 R2 HD.
  induction l1 as [|d1 l1 IH] using rev_ind; intros l2 s1 s2 L1 L2 R1 R2 HD; [by injection R1|].
  destruct l2 as [|d2 l2 _] using rev_ind; [by injection R2|].
  rewrite len_app, len_cons, len_nil in L1, L2. pose proof (len_nonneg l1). pose proof (len_nonneg l2).
  apply replay_snoc_inv in R1 as (p1 & n1 & ev1 & t1 & b1 & R1 & [= <-] & V1 & F1).
  apply replay_snoc_inv in R2 as (p2 & n2 & ev2 & t2 & b2 & R2 & [= <-] & V2 & F2).
  apply validate_sequence in V1 as (_ & _ & D1), V2 as (_ & _ & D2). rewrite D1, D2 in HD.
  destruct (decide (d1 = d2)) as [Hd|N]; [subst d2|right; exists d1, d2; by rewrite !elem_of_app, !list_elem_of_singleton; auto 6].
  destruct (fun a b => follows_inj _ _ _ _ _ _ _ _ _ _ _ _ _ a b F1 F2) as (HS & _ & _ & _ & HP); [lia|lia|].
  apply replay_snapshot in R1 as S1. apply replay_snapshot in R2 as S2.
  destruct p1 as [p1|], p2 as [p2|]; cbn [previous_digest] in HP.
  - destruct (IH l2 p1 p2 ltac:(lia) ltac:(lia) R1 R2 HP) as [-> | (a & b & Ha & Hb & Hn & He)]; [by left|].
    right. exists a, b. rewrite !elem_of_app, !list_elem_of_singleton. auto 6.
  - exfalso. subst l2. destruct S1 as (_ & _ & l' & d & -> & _). rewrite len_app, len_cons, len_nil in HS. pose proof (len_nonneg l'). lia.
  - exfalso. subst l1. destruct S2 as (_ & _ & l' & d & -> & _). rewrite len_app, len_cons, len_nil in HS. pose proof (len_nonneg l'). lia.
  - left. by subst.
Qed.

Lemma hash_chain_binds_history_witness : [demo_line] = [demo_line] \/ collision [demo_line] [demo_line].
Proof.
  assert (R : replay [demo_line] = Ok (Some demo_snapshot)).
  { apply (history_replay_from None 1 [demo_line]); [lia|reflexivity|].
    exists [Entry SESSION_STARTED (u "2026-01-02T03:04:05Z") (replicate 64 97)]. cbn [history_from].
    rewrite (proj2 (write_entry_follows None 1 (Entry SESSION_STARTED _ _) demo_line demo_snapshot) demo_follows).
    reflexivity. }
  exact (hash_chain_binds_history [demo_line] [demo_line] demo_snapshot demo_snapshot eq_refl eq_refl R R eq_refl).
Defined.

(** ** The lifecycle *)

Definition attempt_event (nonce : bool) : CaptureEvent := if nonce then NONCE_ATTEMPT_STARTED else RECEIPT_ATTEMPT_STARTED.
Definition pre_send_event (nonce : bool) : CaptureEvent := if nonce then NONCE_PRE_SEND_FAILED else RECEIPT_PRE_SEND_FAILED.

(** Whether an attempt of a role that was not shown unsent is behind a state;
    [None] when the state does not tell. *)
Definition attempted (nonce : bool) (s : CaptureState) : option bool :=
  match s with
  | INITIALIZED | COLLECTING | RAW_COMPLETE | NONCE_REQUEST_PREPARED => Some false
  | NONCE_ATTEMPTED | NONCE_RECEIVED | REPORTS_COMPOSED | BINDINGS_COMPOSED | RECEIPT_REQUEST_PREPARED
  | NONCE_OUTCOME_UNKNOWN => Some nonce
  | RECEIPT_ATTEMPTED | RECEIPT_RECEIVED | FINALIZED | RECEIPT_OUTCOME_UNKNOWN => Some true
  | ABANDONED => None
  end.

Definition count (event : CaptureEvent) (l : list entry) : Z :=
  len (List.filter (fun e => bool_decide (en_event e = event)) l).

Lemma count_snoc event l e : count event (l ++ [e]) = count event l + (if bool_decide (en_event e = event) then 1 else 0).
Proof.
  unfold count. rewrite List.filter_app, len_app. cbn [List.filter]. destruct (bool_decide _); by rewrite ?len_cons, ?len_nil.
Qed.

(** The records of the observation manifest in a history. *)
Definition manifest_of (l : list entry) : option str :=
  en_binding <$> List.find (fun e => bool_decide (en_event e = RAW_COMPLETED)) l.

(** What a state says of the observations: not frozen, frozen, or unknown. *)
Definition frozen (s : CaptureState) : option bool :=
  match s with INITIALIZED | COLLECTING => Some false | ABANDONED => None | _ => Some true end.

(** The lifecycle of a history that ended in [s]. *)
Record lifecycle (l : list entry) (s : SessionSnapshot) : Prop := {
  lc_started : count SESSION_STARTED l = 1;
  lc_sequence : sn_sequence s = len l;
  lc_attempts : forall nonce,
    match attempted nonce (sn_state s) with
    | Some b => count (attempt_event nonce) l = count (pre_send_event nonce) l + (if b then 1 else 0)
    | None => count (pre_send_event nonce) l <= count (attempt_event nonce) l <= count (pre_send_event nonce) l + 1
    end;
  lc_manifest : sn_observation_manifest_sha256 s = manifest_of l;
  lc_frozen : match frozen (sn_state s) with
              | Some b => bool_decide (is_Some (manifest_of l)) = b
              | None => True
              end
}.

Lemma history_from_snoc previous sequence l e :
  history_from previous sequence (l ++ [e]) =
  ('(ls, s) ← history_from previous sequence l;
   '(d, n) ← write_entry s (sequence + len l) e; Some (ls ++ [d], Some n)).
Proof.
  revert previous sequence. induction l as [|a l IH]; intros previous sequence; cbn [app history_from].
  - cbn [mbind option_bind]. rewrite len_nil, Z.add_0_r. by destruct (write_entry previous sequence e) as [[d n]|].
  - destruct (write_entry previous sequence a) as [[d n]|]; cbn [mbind option_bind]; [|done].
    rewrite IH, len_cons. replace (sequence + (1 + len l)) with (sequence + 1 + len l) by lia.
    destruct (history_from _ _ l) as [[ls s]|]; cbn [mbind option_bind]; [|done].
    by destruct (write_entry s _ e) as [[d' n']|].
Qed.

Lemma history_snoc l e ls s :
  history (l ++ [e]) = Some (ls, s) ->
  exists ls' p d next, history l = Some (ls', p) /\ ls = ls' ++ [d] /\ s = Some next /\
    follows p (1 + len l) (en_event e) (en_time e) (en_binding e) d next.
Proof.
  unfold history. rewrite history_from_snoc. intros H. apply bind_Some in H as ([ls' p] & Hl & H).
  apply bind_Some in H as ([d n] & W & [= <- <-]). apply write_entry_follows in W. exists ls', p, d, n. done.
Qed.

Lemma history_nil l s : history l = Some (s, None) -> l = [].
Proof.
  destruct l as [|e l _] using rev_ind; [done|]. intros H. apply history_snoc in H as (? & ? & ? & ? & _ & _ & ? & _). done.
Qed.

(** A transition begins an attempt, takes one back, or keeps what is known. *)
Lemma transition_attempted nonce event st to :
  _transition_for event (Some st) = Ok to ->
  match attempted nonce st, attempted nonce to with
  | Some a, Some b =>
      (if bool_decide (event = attempt_event nonce) then a = false /\ b = true
       else if bool_decide (event = pre_send_event nonce) then a = true /\ b = false else a = b)
  | Some _, None => event <> attempt_event nonce /\ event <> pre_send_event nonce
  | None, _ => False
  end.
Proof. destruct nonce, event, st; intros H; try discriminate H; injection H as <-; by vm_compute. Qed.

Lemma transition_frozen event st to :
  _transition_for event (Some st) = Ok to ->
  event <> SESSION_STARTED /\
  (frozen to = None \/ (event = RAW_COMPLETED /\ frozen st = Some false /\ frozen to = Some true) \/
   (event <> RAW_COMPLETED /\ frozen to = frozen st)).
Proof. destruct event, st; intros H; try discriminate H; injection H as <-; (split; [done|]); first [by left | by right; left | by right; right]. Qed.

Lemma transition_start event to : _transition_for event None = Ok to -> event = SESSION_STARTED /\ to = INITIALIZED.
Proof. destruct event; intros H; try discriminate H; by injection H as <-. Qed.

Lemma transition_raw st to : _transition_for RAW_COMPLETED (Some st) = Ok to -> frozen st = Some false.
Proof. destruct st; intros H; try discriminate H; done. Qed.

Lemma manifest_snoc l e :
  manifest_of (l ++ [e]) =
  match manifest_of l with
  | Some m => Some m
  | None => if bool_decide (en_event e = RAW_COMPLETED) then Some (en_binding e) else None
  end.
Proof.
  unfold manifest_of. induction l as [|a l IH]; cbn [app List.find].
  - cbn. by destruct (bool_decide _).
  - by destruct (bool_decide (en_event a = RAW_COMPLETED)).
Qed.

(** Every history keeps the lifecycle.  It starts once; of each role, the
    attempts exceed the pre-send failures by one exactly when the state says that
    an attempt is behind it, and never by more; the snapshot's manifest digest is
    the binding of its one [RAW_COMPLETED] record, which is there exactly when
    the state says that the observations are frozen. *)
Theorem history_lifecycle entries l s : history entries = Some (l, Some s) -> lifecycle entries s.
Proof.
  revert l s. induction entries as [|e entries IH] using rev_ind; intros l s H; [done|].
  apply history_snoc in H as (ls & p & d & next & Hp & -> & [= ->] & [FT _ _ _ _ _ FN]).
  destruct p as [p|]; cbn [option_map] in FT.
  - destruct (IH _ _ Hp) as [L1 L2 L3 L4 L5]. destruct (transition_frozen _ _ _ FT) as [NS TF].
    constructor.
    + rewrite count_snoc, L1. by rewrite bool_decide_false.
    + rewrite FN. cbn. rewrite len_app, len_cons, len_nil. lia.
    + intros nonce. specialize (L3 nonce). rewrite !count_snoc. pose proof (transition_attempted nonce _ _ _ FT) as T.
      destruct (attempted nonce (sn_state p)) as [a|], (attempted nonce (sn_state next)) as [b|]; try done.
      * destruct (bool_decide (en_event e = attempt_event nonce)) eqn:B1.
        -- apply bool_decide_eq_true in B1. rewrite bool_decide_false by (rewrite B1; by destruct nonce).
           destruct T as [-> ->]. lia.
        -- destruct (bool_decide (en_event e = pre_send_event nonce)); [destruct T as [-> ->] | subst b]; destruct nonce; lia.
      * destruct T as [T1 T2]. rewrite !bool_decide_false by done. destruct a; lia.
    + rewrite FN. cbn [sn_observation_manifest_sha256 next_manifest]. rewrite manifest_snoc. unfold next_manifest.
      destruct (bool_decide (en_event e = RAW_COMPLETED)) eqn:B; [|rewrite L4; by destruct (manifest_of entries)].
      apply bool_decide_eq_true in B. rewrite B in FT. apply transition_raw in FT. rewrite FT in L5.
      apply bool_decide_eq_false in L5. destruct (manifest_of entries); [|done]. by destruct L5.
    + rewrite manifest_snoc. destruct TF as [-> | [(B & Fs & ->) | (B & ->)]]; [done| |].
      * rewrite Fs in L5. rewrite (bool_decide_true _ B). by destruct (manifest_of entries).
      * rewrite (bool_decide_false _ B). by destruct (manifest_of entries).
  - apply history_nil in Hp. subst entries. apply transition_start in FT as [Hev Hst].
    assert (HN : sn_sequence next = 1 /\ sn_observation_manifest_sha256 next = None) by (rewrite FN, Hev; done).
    destruct HN as [HN1 HN2].
    constructor; rewrite ?Hst, ?HN1, ?HN2; unfold count, manifest_of; cbn [app List.filter List.find]; rewrite ?Hev; try reflexivity.
    by intros [].
Qed.

Lemma history_lifecycle_witness : lifecycle [Entry SESSION_STARTED (u "2026-01-02T03:04:05Z") (replicate 64 97)] demo_snapshot.
Proof.
  apply (history_lifecycle _ [demo_line]). unfold history. cbn [history_from].
  rewrite (proj2 (write_entry_follows None 1 (Entry SESSION_STARTED _ _) demo_line demo_snapshot) demo_follows).
  reflexivity.
Defined.

(** ** Terminal states *)

(** The event that ends a session in a state that is not terminal. *)
Definition closing_event (s : CaptureState) : CaptureEvent :=
  match s with
  | NONCE_ATTEMPTED => E_NONCE_OUTCOME_UNKNOWN
  | RECEIPT_ATTEMPTED => E_RECEIPT_OUTCOME_UNKNOWN
  | _ => SESSION_ABANDONED
  end.

Lemma closing_transition s :
  is_terminal_state s = false -> exists to, _transition_for (closing_event s) (Some s) = Ok to /\ is_terminal_state to = true.
Proof. destruct s; intros H; try discriminate H; eexists; split; reflexivity. Qed.

Lemma terminal_no_transition event s : is_terminal_state s = true -> exists e, _transition_for event (Some s) = Err e.
Proof. destruct s; intros H; try discriminate H; destruct event; eexists; reflexivity. Qed.

Lemma fromisoformat_valid text t : fromisoformat text = Some t -> valid_datetime t = true.
Proof. unfold fromisoformat. intros H. apply bind_Some in H as (x & _ & H). repeat case_match; simplify_eq; done. Qed.

(** The record of an allowed event at an allowed time can be written. *)
Lemma event_line_some sequence event from to text previous binding :
  Z.abs sequence < 10 ^ 19 -> encodable text = true -> encodable previous = true -> encodable binding = true ->
  is_Some (event_line sequence event from to text previous binding).
Proof.
  intros Hs Ht Hp Hb. destruct (event_dict_ok sequence event from to text previous binding Hs Ht Hp Hb) as [HP HD].
  destruct (canonical_json_some _ _ HP HD) as [b Eb]. unfold event_line. rewrite Eb. by eexists.
Qed.

Lemma write_entry_some previous sequence event to t binding :
  Z.abs sequence < 10 ^ 19 -> _transition_for event (option_map sn_state previous) = Ok to ->
  valid_datetime t = true -> not_before previous t = true -> is_sha256 binding = true ->
  is_sha256 (previous_digest previous) = true ->
  exists data next, write_entry previous sequence (Entry event (format_utc t) binding) = Some (data, next) /\ sn_state next = to.
Proof.
  intros Hs HT Ht Ho Hb Hp. pose proof (fromisoformat_format t Ht) as Hf.
  destruct (event_line_some sequence event (option_map sn_state previous) to (format_utc t) (previous_digest previous) binding)
    as [data Hd]; [done | by eapply fromisoformat_chars | by apply sha256_encodable | by apply sha256_encodable |].
  unfold write_entry. cbn [en_event en_time en_binding]. rewrite HT, Hf. cbn [mbind option_bind].
  rewrite Hb, Hp, Ho. cbn [andb]. rewrite Hd. cbn [mbind option_bind]. eauto.
Qed.

(** A session can go on unless its state is terminal.  A history in a terminal
    state accepts no further entry of any kind; every other one can at once be
    ended by the entry that recovery makes for its state, at any time not before
    its last record. *)
Theorem history_progress entries l s t binding :
  len entries < 10 ^ 18 -> history entries = Some (l, Some s) ->
  (is_terminal_state (sn_state s) = true -> forall e, history (entries ++ [e]) = None) /\
  (is_terminal_state (sn_state s) = false -> valid_datetime t = true -> not_before (Some s) t = true -> is_sha256 binding = true ->
   exists d next, history (entries ++ [Entry (closing_event (sn_state s)) (format_utc t) binding]) = Some (l ++ [d], Some next) /\
     is_terminal_state (sn_state next) = true).
Proof.
  intros HL H. pose proof (len_nonneg entries) as LN. split.
  - intros HT e. destruct (history (entries ++ [e])) as [[ls s']|] eqn:X; [|done].
    apply history_snoc in X as (ls' & p & d & next & Hp & _ & _ & [FT _ _ _ _ _ _]). rewrite H in Hp. injection Hp as <- <-.
    cbn [option_map] in FT. destruct (terminal_no_transition (en_event e) _ HT) as [er Er]. congruence.
  - intros HT Ht Ho Hb. destruct (closing_transition _ HT) as (to & Hto & Tto).
    assert (Hd : is_sha256 (previous_digest (Some s)) = true).
    { destruct entries as [|e entries _] using rev_ind; [done|].
      apply history_snoc in H as (? & ? & ? & ? & _ & _ & [= ->] & [_ _ _ _ _ _ ->]). apply hexdigest_sha256. }
    destruct (write_entry_some (Some s) (1 + len entries) (closing_event (sn_state s)) to t binding)
      as (d & next & W & Hn); try done; [lia|].
    exists d, next. split; [|by rewrite Hn]. unfold history in *. rewrite history_from_snoc, H. cbn [mbind option_bind].
    by rewrite W.
Qed.

Lemma history_progress_witness :
  exists d next, history [Entry SESSION_STARTED (u "2026-01-02T03:04:05Z") (replicate 64 97);
                          Entry SESSION_ABANDONED (u "2026-01-02T03:04:06Z") (replicate 64 98)] = Some ([demo_line; d], Some next) /\
    is_terminal_state (sn_state next) = true.
Proof.
  apply (history_progress [Entry SESSION_STARTED (u "2026-01-02T03:04:05Z") (replicate 64 97)] [demo_line] demo_snapshot
    (DateTime 2026 1 2 3 4 6) (replicate 64 98)); [reflexivity | | reflexivity..].
  unfold history. cbn [history_from].
  rewrite (proj2 (write_entry_follows None 1 (Entry SESSION_STARTED _ _) demo_line demo_snapshot) demo_follows).
  reflexivity.
Defined.
