(* ===== verification/Session.v ===== *)
(** * Capture sessions

    [PhysicalCaptureSession] of src/scripts/physical_capture/session.py: the
    locked, append-only journal of one collection run, its creation, opening,
    recovery after a crash, and the events it appends.

    The state is the archive's host, whether the session holds its lock, the
    snapshot it keeps in memory, and whether another process holds the lock.
    [root] is [archive.root_relative_to_target]. *)

From S2P Require Import Prelude Sha256 Text Json DateTime Effects Archive Observation Journal.

Record session := Session {
  s_host : host;
  s_lock : bool;
  s_snapshot : option SessionSnapshot;
  s_contended : bool
}.

Definition set_host (h : host) (s : session) : session := Session h (s_lock s) (s_snapshot s) (s_contended s).
Definition set_lock (b : bool) (s : session) : session := Session (s_host s) b (s_snapshot s) (s_contended s).
Definition set_snapshot (x : option SessionSnapshot) (s : session) : session := Session (s_host s) (s_lock s) x (s_contended s).

(** An operation of the session's archive. *)
Definition arch {A} (m : M host A) : M session A := zoom s_host set_host m.

Definition SE {A} (code : string) : M session A := raise (SessionError code).

Definition RECOVERY_DIRECTORY : str := u "recovery".
Definition UNINITIALIZED_TOMBSTONE_NAME : str := u "uninitialized-session.json".
Definition UNINITIALIZED_TOMBSTONE_RELATIVE : str := u "recovery/uninitialized-session.json".
Definition UNINITIALIZED_TOMBSTONE_DOCUMENT : str := u "cfw-physical-uninitialized-session-quarantine-v1".
Definition JOURNAL_RESOLUTION_DOCUMENT : str := u "cfw-physical-journal-resolution-v2".
Definition JOURNAL_RESOLUTION_SCHEMA_VERSION : Z := 2.
Definition MAX_RECOVERY_BYTES : Z := 64 * 1024.

(** ** Names of the journal and of the recovery directory *)

(** [f"{sequence:08d}.json"]. *)
Definition event_name (sequence : Z) : str := pad_int 8 sequence ++ u ".json".
Definition event_relative (sequence : Z) : str := JOURNAL_DIRECTORY ++ 47 :: event_name sequence.

(** Eight digits and [.json]: the sequence number. *)
Definition _EVENT_FILE_RE (name : str) : option Z :=
  if (length name =? 13)%nat && forallb is_digit (take 8 name) && str_eqb (drop 8 name) (u ".json")
  then Some (dec_value (take 8 name)) else None.

Definition is_some {A} (o : option A) : bool := match o with Some _ => true | None => false end.

(** A pending file of an event. *)
Definition _PENDING_EVENT_FILE_RE (name : str) : bool :=
  match _PENDING_RE name with Some final => is_some (_EVENT_FILE_RE final) | None => false end.

(** [journal-], eight digits and [.json]. *)
Definition _JOURNAL_RESOLUTION_FILE_RE (name : str) : option Z :=
  if str_eqb (take 8 name) (u "journal-") then _EVENT_FILE_RE (drop 8 name) else None.

Section Session.
Context (E : env) (root : str).

(** ** Opening and closing *)

Definition _acquire_lock : M session () :=
  c ← gets s_contended;
  check c (SessionError "session_locked") ≫= fun _ => modify (set_lock true).

Definition close : M session () := modify (set_lock false) ≫= fun _ => arch close_archive.

Definition require_session_open : M session () :=
  l ← gets s_lock; check (negb l) (SessionError "session_closed").

(** ** Replay *)

Definition event_file_le (a b : Z * str) : Prop :=
  ((fst a <? fst b) || ((fst a =? fst b) && str_leb (snd a) (snd b))) = true.
#[export] Instance event_file_le_dec a b : Decision (event_file_le a b).
Proof. unfold event_file_le. apply _. Defined.

Definition unexpected_entry (name : str) : bool := negb (is_some (_EVENT_FILE_RE name)) && negb (_PENDING_EVENT_FILE_RE name).
Definition final_entry (name : str) : option (Z * str) := sequence ← _EVENT_FILE_RE name; Some (sequence, name).

Fixpoint replay_files (expected : Z) (files : list (Z * str)) (snapshot : option SessionSnapshot)
  : M session (option SessionSnapshot) :=
  match files with
  | [] => mret snapshot
  | (sequence, name) :: files =>
      check (negb (sequence =? expected)) (SessionError "journal_sequence_gap") ≫= fun _ =>
      data ← arch (read_bytes E (JOURNAL_DIRECTORY ++ 47 :: name) MAX_EVENT_BYTES);
      next ← of_result (_validate_event_bytes data snapshot expected);
      replay_files (expected + 1) files (Some next)
  end.

Definition _replay_final_events (allow_empty : bool) : M session (option SessionSnapshot) :=
  require_session_open ≫= fun _ =>
  names ← arch (list_names E JOURNAL_DIRECTORY);
  check (existsb unexpected_entry names) (SessionError "unexpected_journal_entry") ≫= fun _ =>
  let final_names := omap final_entry names in
  if bool_decide (final_names = []) then
    check (negb allow_empty) (SessionError "empty_journal") ≫= fun _ => mret None
  else replay_files 1 (merge_sort event_file_le final_names) None.

(** [self.snapshot]. *)
Definition snapshot_property : M session SessionSnapshot :=
  require_session_open ≫= fun _ =>
  current ← gets s_snapshot;
  match current with
  | Some s => mret s
  | None =>
      s ← _replay_final_events false;
      modify (set_snapshot s) ≫= fun _ =>
      of_option OtherException s
  end.

Definition state_property : M session CaptureState := s ← snapshot_property; mret (sn_state s).

Definition require_collection_open : M session () :=
  require_session_open ≫= fun _ =>
  st ← state_property;
  check (negb (bool_decide (st = COLLECTING))) (SessionError "observation_phase_closed").

(** ** Appending *)

Definition is_manifest_error (e : pyexn) : bool := is_archive_error e || is_observation_error e.

Definition _activate_frozen_observations (snapshot : option SessionSnapshot) : M session (option ObservationManifest) :=
  match snapshot with
  | None => mret None
  | Some s =>
      match sn_observation_manifest_sha256 s with
      | None => mret None
      | Some sha =>
          translate is_manifest_error (SessionError "observation_manifest_invalid")
            (manifest ← arch (load_observation_manifest E (Some sha));
             arch (seal_prefixes OBSERVATION_DIRECTORIES) ≫= fun _ => mret (Some manifest))
      end
  end.

(** The snapshot an append starts from. *)
Definition append_current (event : CaptureEvent) : M session (option SessionSnapshot) :=
  current ← gets s_snapshot;
  match current with
  | Some s => mret (Some s)
  | None =>
      try_except (_replay_final_events true)
        (fun e => if is_session_error e && bool_decide (event = SESSION_STARTED) then mret None else raise e)
  end.

Definition next_sequence (current : option SessionSnapshot) : Z :=
  match current with None => 1 | Some s => sn_sequence s + 1 end.

Definition _append_locked (event : CaptureEvent) (binding_sha256 : str) : M session SessionSnapshot :=
  current ← append_current event;
  let current_state := option_map sn_state current in
  _activate_frozen_observations current ≫= fun _ =>
  next_state ← of_result (_transition_for event current_state);
  let sequence := next_sequence current in
  check (MAX_JOURNAL_EVENTS <? sequence) (SessionError "journal_capacity_exceeded") ≫= fun _ =>
  recorded_at ← gets (fun s => e_now E (h_step (s_host s)));
  check (negb (not_before current recorded_at)) (SessionError "clock_rollback") ≫= fun _ =>
  data ← of_result (_canonical_event_bytes
    (event_dict sequence event current_state next_state (_format_timestamp recorded_at) (previous_digest current) binding_sha256));
  record ← arch (write_bytes E (event_relative sequence) data MAX_EVENT_BYTES);
  check (negb (str_eqb (af_sha256 record) (hexdigest data)) || negb (af_size record =? len data))
    (SessionError "journal_publish_mismatch") ≫= fun _ =>
  let snapshot := {| sn_state := next_state;
                     sn_sequence := sequence;
                     sn_last_event_sha256 := af_sha256 record;
                     sn_last_binding_sha256 := binding_sha256;
                     sn_last_recorded_at := recorded_at;
                     sn_observation_manifest_sha256 := next_manifest event binding_sha256 current |} in
  modify (set_snapshot (Some snapshot)) ≫= fun _ =>
  _activate_frozen_observations (Some snapshot) ≫= fun _ =>
  mret snapshot.

Definition append (event : CaptureEvent) (binding_sha256 : str) : M session SessionSnapshot :=
  require_session_open ≫= fun _ =>
  check (bool_decide (event = RAW_COMPLETED)) (SessionError "raw_completion_requires_manifest") ≫= fun _ =>
  binding ← of_result (_require_sha256 (JStr binding_sha256));
  _append_locked event binding.

Definition abandon (binding_sha256 : str) : M session SessionSnapshot := append SESSION_ABANDONED binding_sha256.

Definition complete_observations (observations : list (str * json)) : M session ObservationManifest :=
  require_collection_open ≫= fun _ =>
  manifest ← translate is_manifest_error (SessionError "observation_manifest_invalid")
    (manifest ← arch (publish_observation_manifest E observations);
     arch (seal_prefixes OBSERVATION_DIRECTORIES) ≫= fun _ => mret manifest);
  snapshot ← _append_locked RAW_COMPLETED (root_sha256 manifest);
  check (negb (bool_decide (sn_observation_manifest_sha256 snapshot = Some (root_sha256 manifest))))
    (SessionError "observation_manifest_binding_mismatch") ≫= fun _ =>
  mret manifest.

Definition load_frozen_manifest : M session ObservationManifest :=
  s ← snapshot_property;
  match sn_observation_manifest_sha256 s with
  | None => SE "observation_manifest_unavailable"
  | Some _ =>
      manifest ← _activate_frozen_observations (Some s);
      of_option (SessionError "observation_manifest_unavailable") manifest
  end.

(** The digests a restart binds to an attempt it resolves. *)
Definition restart_binding (role : string) : str :=
  hexdigest (bstr "cfw-physical-capture-restart-recovery-v1" ++ [x00] ++ bstr role).

Definition resolve_interrupted_attempt : M session SessionSnapshot :=
  st ← state_property;
  match st with
  | NONCE_ATTEMPTED => append E_NONCE_OUTCOME_UNKNOWN (restart_binding "nonce")
  | RECEIPT_ATTEMPTED => append E_RECEIPT_OUTCOME_UNKNOWN (restart_binding "receipt")
  | _ => SE "no_interrupted_attempt"
  end.

(** ** Views of committed events *)

Record SessionEventView := {
  ev_sequence : Z; ev_event : CaptureEvent; ev_from_state : option CaptureState; ev_to_state : CaptureState;
  ev_recorded_at : datetime; ev_previous_event_sha256 : str; ev_binding_sha256 : str; ev_event_sha256 : str
}.

(** The body of the loop: the record of number [sequence] after [previous]. *)
Definition view_one (sequence : Z) (previous : option SessionSnapshot) : M session (SessionEventView * SessionSnapshot) :=
  try_except
    (data ← arch (read_bytes E (event_relative sequence) MAX_EVENT_BYTES);
     current ← of_result (_validate_event_bytes data previous sequence);
     value ← of_option RawArtifactError (load_json_bytes data);
     match value with
     | JObj value =>
         event ← of_option ValueError (event_of_value (field value "event"));
         from_state ← match field value "from_state" with
                      | JNull => mret None
                      | v => st ← of_option ValueError (state_of_value v); mret (Some st)
                      end;
         previous_sha ← of_result (_require_sha256 (field value "previous_event_sha256"));
         mret ({| ev_sequence := sequence; ev_event := event; ev_from_state := from_state;
                  ev_to_state := sn_state current; ev_recorded_at := sn_last_recorded_at current;
                  ev_previous_event_sha256 := previous_sha; ev_binding_sha256 := sn_last_binding_sha256 current;
                  ev_event_sha256 := sn_last_event_sha256 current |}, current)
     | _ => raise RawArtifactError
     end)
    (fun e => if is_session_error e then raise e
              else if is_archive_error e || bool_decide (e = RawArtifactError) || bool_decide (e = ValueError)
              then SE "journal_event_view_invalid" else raise e).

Fixpoint view_loop (n : nat) (sequence : Z) (previous : option SessionSnapshot) (selected : option SessionEventView)
  : M session (option SessionEventView) :=
  match n with
  | O => mret selected
  | S n =>
      '(view, current) ← view_one sequence previous;
      view_loop n (sequence + 1) (Some current) (Some view)
  end.

Definition event_view (sequence : Z) : M session SessionEventView :=
  require_session_open ≫= fun _ =>
  s ← snapshot_property;
  check (negb ((1 <=? sequence) && (sequence <=? sn_sequence s))) (SessionError "invalid_journal_sequence") ≫= fun _ =>
  selected ← view_loop (Z.to_nat sequence) 1 None None;
  of_option (SessionError "journal_event_view_invalid") selected.

Definition last_event_view : M session SessionEventView :=
  s ← snapshot_property;
  view ← event_view (sn_sequence s);
  snapshot ← snapshot_property;
  check (negb (bool_decide (ev_to_state view = sn_state snapshot)) ||
         negb (bool_decide (ev_recorded_at view = sn_last_recorded_at snapshot)) ||
         negb (str_eqb (ev_binding_sha256 view) (sn_last_binding_sha256 snapshot)) ||
         negb (str_eqb (ev_event_sha256 view) (sn_last_event_sha256 snapshot)))
    (SessionError "journal_tip_invalid") ≫= fun _ =>
  mret view.

Definition is_terminal : M session bool := st ← state_property; mret (is_terminal_state st).
Definition interrupted_attempt : M session bool :=
  st ← state_property; mret (bool_decide (st = NONCE_ATTEMPTED) || bool_decide (st = RECEIPT_ATTEMPTED)).

(** ** Creation *)

(** A new object: no lock, no snapshot. *)
Definition new_object : M session () := modify (fun s => set_snapshot None (set_lock false s)).

Definition create (intent_sha256 : str) : M session () :=
  binding ← of_result (_require_sha256 (JStr intent_sha256));
  new_object ≫= fun _ =>
  arch (archive_create E root) ≫= fun _ =>
  on_exception
    (arch (create_lock_file E LOCK_FILE) ≫= fun _ =>
     _acquire_lock ≫= fun _ =>
     arch (ensure_directory E JOURNAL_DIRECTORY) ≫= fun _ =>
     _ ← _append_locked SESSION_STARTED binding; mret ())
    close.

End Session.
