(* ===== verification/JournalStore.v ===== *)
(** * The journal directory

    The files of a session's journal directory and what keeps them a history:
    the published records, in order from number one, replay; every other file of
    the directory (the pending file of an interrupted append) is an incomplete
    record or one that could be at most the next; and once a request may have
    reached the service, nothing there takes its attempt back. *)

From S2P Require Import Prelude Sha256 Text Json DateTime Effects Archive ArchiveProofs Journal JournalHistory Session.

(** ** Names *)

Definition ev_path (sequence : Z) : path := [JOURNAL_DIRECTORY; event_name sequence].

Lemma event_name_spec z : 0 <= z < 10 ^ 8 ->
  length (event_name z) = 13%nat /\ take 8 (event_name z) = pad_int 8 z /\ drop 8 (event_name z) = u ".json" /\
  forallb is_digit (pad_int 8 z) = true /\ dec_value (pad_int 8 z) = z.
Proof.
  intros Hz. destruct (pad_int_spec 8 z) as (L & D & V); [exact Hz|lia|]. unfold event_name.
  rewrite length_app, L, take_app_length' by done. rewrite drop_app_length' by done. done.
Qed.

Lemma event_file_spec name z : _EVENT_FILE_RE name = Some z <-> name = event_name z /\ 0 <= z < 10 ^ 8.
Proof.
  unfold _EVENT_FILE_RE. split.
  - destruct (_ && _) eqn:C; [|done]. intros [= <-]. rewrite !andb_true_iff in C. destruct C as [[L D] S].
    apply Nat.eqb_eq in L. apply bool_decide_eq_true in S.
    assert (L8 : length (take 8 name) = 8%nat) by (rewrite length_take; lia).
    pose proof (dec_value_bound _ D) as B. unfold len in B. rewrite L8 in B. split; [|exact B].
    destruct (event_name_spec (dec_value (take 8 name)) B) as (_ & T & R & D' & V).
    rewrite <-(take_drop 8 name), S at 1. unfold event_name. f_equal. apply dec_value_inj; try done.
    rewrite L8. destruct (pad_int_spec 8 _ B) as (-> & _); lia.
  - intros [-> Hz]. destruct (event_name_spec z Hz) as (-> & -> & -> & -> & ->). reflexivity.
Qed.

Lemma event_name_inj a b : 0 <= a < 10 ^ 8 -> 0 <= b < 10 ^ 8 -> event_name a = event_name b -> a = b.
Proof.
  intros Ha Hb H. assert (X : _EVENT_FILE_RE (event_name a) = Some b) by (apply event_file_spec; by rewrite H).
  rewrite (proj2 (event_file_spec _ a) (conj eq_refl Ha)) in X. by injection X.
Qed.

Lemma ev_path_inj a b : 0 <= a < 10 ^ 8 -> 0 <= b < 10 ^ 8 -> ev_path a = ev_path b -> a = b.
Proof. intros Ha Hb [= H]. by apply event_name_inj. Qed.

Lemma digits_component s : forallb is_digit s = true -> forallb is_component_char s = true.
Proof.
  intros H. apply forallb_forall. intros x Hx. apply forallb_forall with (x := x) in H; [|done].
  unfold is_component_char, is_alnum. by rewrite H.
Qed.

Lemma event_name_component z : 0 <= z < 10 ^ 8 -> _COMPONENT_RE (event_name z) = true.
Proof.
  intros Hz. destruct (event_name_spec z Hz) as (L & _ & _ & D & _). unfold event_name in *.
  destruct (pad_int_spec 8 z) as (L8 & _); [exact Hz|lia|].
  destruct (pad_int 8 z) as [|c r] eqn:P; [discriminate L8|]. cbn [app _COMPONENT_RE].
  cbn [forallb] in D. apply andb_prop in D as [Dc Dr].
  rewrite forallb_app, (digits_component r Dr). unfold is_alnum. rewrite Dc. cbn [orb andb].
  cbn [length app] in L. apply Nat.leb_le. lia.
Qed.

Lemma component_chars s : _COMPONENT_RE s = true -> forallb is_component_char s = true.
Proof.
  destruct s as [|c r]; [done|]. cbn [_COMPONENT_RE forallb]. rewrite !andb_true_iff. intros [[Hc Hr] _].
  split; [|done]. unfold is_component_char. by rewrite Hc.
Qed.

Lemma component_char_range c : is_component_char c = true -> 45 <= c <= 122 /\ c <> 92.
Proof.
  unfold is_component_char, is_alnum, is_digit. rewrite !orb_true_iff, !andb_true_iff, !Z.leb_le, !Z.eqb_eq. lia.
Qed.

(** A directory name and a file name, both components, make a relative path. *)
Lemma two_parts dir name :
  _COMPONENT_RE dir = true -> _COMPONENT_RE name = true -> (length dir + length name <= 500)%nat ->
  _relative_parts (dir ++ 47 :: name) = Ok [dir; name].
Proof.
  intros Hd Hn HL. unfold _relative_parts.
  assert (R : forall c, c ∈ dir ++ 47 :: name -> 45 <= c <= 122 /\ c <> 92).
  { intros c Hc. apply elem_of_app in Hc as [Hc|Hc]; [|apply elem_of_cons in Hc as [->|Hc]; [lia|]];
      apply component_char_range; [apply component_chars in Hd|apply component_chars in Hn];
      rewrite forallb_forall in *; apply list_elem_of_In in Hc; auto. }
  assert (A : forallb (fun c => (0 <=? c) && (c <? 128)) (dir ++ 47 :: name) = true).
  { apply forallb_forall. intros c Hc. apply list_elem_of_In, R in Hc. rewrite andb_true_iff, Z.leb_le, Z.ltb_lt. lia. }
  rewrite (utf8_encode_ascii _ A). rewrite bool_decide_false by (by destruct dir).
  assert (N92 : existsb (Z.eqb 92) (dir ++ 47 :: name) = false).
  { apply not_true_iff_false. rewrite existsb_exists. intros (c & Hc & E). apply Z.eqb_eq in E. apply list_elem_of_In, R in Hc. lia. }
  assert (N0 : existsb (Z.eqb 0) (dir ++ 47 :: name) = false).
  { apply not_true_iff_false. rewrite existsb_exists. intros (c & Hc & E). apply Z.eqb_eq in E. apply list_elem_of_In, R in Hc. lia. }
  rewrite N92, N0. cbn [orb].
  assert (L : (MAX_RELATIVE_PATH_BYTES <? len (map zb (dir ++ 47 :: name))) = false).
  { apply Z.ltb_ge. unfold len. rewrite length_map, length_app. cbn [length]. unfold MAX_RELATIVE_PATH_BYTES. lia. }
  rewrite L.
  assert (S : split_slash (dir ++ 47 :: name) = [dir; name]).
  { change (dir ++ 47 :: name) with (join_slash [dir; name]). apply split_join; [done|].
    apply components_no_slash. cbn [forallb]. by rewrite Hd, Hn. }
  rewrite S. cbn [forallb]. by rewrite Hd, Hn.
Qed.

Lemma event_relative_parts z : 0 <= z < 10 ^ 8 -> _relative_parts (event_relative z) = Ok (ev_path z).
Proof.
  intros Hz. apply two_parts; [done|by apply event_name_component|].
  destruct (event_name_spec z Hz) as (-> & _). cbn. lia.
Qed.

(** ** The directory *)

(** The published records of the journal are [l]. *)
Definition journal_is (h : host) (l : list bytes) : Prop :=
  forall q, 0 <= q < 10 ^ 8 -> h_files h !! ev_path q = if 1 <=? q then l !! Z.to_nat (q - 1) else None.

(** A file of the directory that is no published record. *)
Definition loose (h : host) (p : path) (data : bytes) : Prop :=
  removelast p = [JOURNAL_DIRECTORY] /\ (forall q, 0 <= q < 10 ^ 8 -> p <> ev_path q) /\ h_files h !! p = Some data.

(** A request of a role may have reached the service. *)
Abbreviation doubt := (bool -> Prop).

(** The journal directory of a session; [D] are the roles in doubt. *)
Record store (D : doubt) (h : host) (l : list bytes) : Prop := {
  st_files : journal_is h l;
  st_bound : len l <= MAX_JOURNAL_EVENTS;
  st_replay : exists o, replay l = Ok o;
  st_loose : forall p data previous q next,
    loose h p data -> 0 <= q < 10 ^ 8 -> _validate_event_bytes data previous q = Ok next ->
    q <= len l + 1 /\ q <= MAX_JOURNAL_EVENTS;
  st_doubt : forall nonce, D nonce ->
    exists s, replay l = Ok (Some s) /\ attempted nonce (sn_state s) <> Some false /\
    forall p data event t b next, loose h p data -> follows (Some s) (len l + 1) event t b data next ->
      event <> pre_send_event nonce
}.

Lemma journal_unique h l1 l2 :
  journal_is h l1 -> journal_is h l2 -> len l1 <= MAX_JOURNAL_EVENTS -> len l2 <= MAX_JOURNAL_EVENTS -> l1 = l2.
Proof.
  intros J1 J2 B1 B2. apply list_eq. intros i.
  unfold MAX_JOURNAL_EVENTS, len in *.
  destruct (decide (Z.of_nat i < 2000)) as [Hi|Hi].
  - specialize (J1 (Z.of_nat i + 1) ltac:(lia)). specialize (J2 (Z.of_nat i + 1) ltac:(lia)).
    rewrite (proj2 (Z.leb_le 1 (Z.of_nat i + 1))) in J1, J2 by lia.
    replace (Z.to_nat (Z.of_nat i + 1 - 1)) with i in J1, J2 by lia. congruence.
  - rewrite !lookup_ge_None_2 by lia. done.
Qed.

(** The record of number [q] is published exactly up to the length. *)
Lemma journal_absent h l q :
  journal_is h l -> 1 <= q < 10 ^ 8 -> h_files h !! ev_path q = None -> len l + 1 <= q.
Proof.
  intros J Hq H. rewrite (J q ltac:(lia)) in H. rewrite (proj2 (Z.leb_le 1 q)) in H by lia.
  apply lookup_ge_None in H. unfold len. lia.
Qed.

Lemma ev_path_parent q : removelast (ev_path q) = [JOURNAL_DIRECTORY].
Proof. done. Qed.

Lemma journal_kept h h' l : kept [JOURNAL_DIRECTORY] h h' -> journal_is h l -> journal_is h' l.
Proof. intros K J q Hq. rewrite (K (ev_path q) eq_refl). by apply J. Qed.

Lemma loose_kept h h' p data : kept [JOURNAL_DIRECTORY] h h' -> loose h' p data -> loose h p data.
Proof. intros K (Hp & Hn & Hd). split; [done|]. split; [done|]. by rewrite <-(K p Hp). Qed.

Lemma store_kept D h h' l : kept [JOURNAL_DIRECTORY] h h' -> store D h l -> store D h' l.
Proof.
  intros K [J B R L Q]. constructor; [by eapply journal_kept|done|done| |].
  - intros p data previous q next Hl. apply (L p). by eapply loose_kept.
  - intros nonce Hn. destruct (Q nonce Hn) as (s & Hs & Ha & Hq). exists s. split; [done|]. split; [done|].
    intros p data event t b next Hl. apply (Hq p). by eapply loose_kept.
Qed.

(** Fewer roles in doubt is weaker. *)
Lemma store_weaken (D D' : doubt) h l : (forall n, D' n -> D n) -> store D h l -> store D' h l.
Proof. intros HD [J B R L Q]. constructor; try done. intros n Hn. by apply Q, HD. Qed.

(** A path of the directory that cannot be a record. *)
Definition loose_path (p : path) : Prop :=
  removelast p = [JOURNAL_DIRECTORY] /\ forall q, 0 <= q < 10 ^ 8 -> p <> ev_path q.

Lemma journal_other h h' l :
  (forall q, 0 <= q < 10 ^ 8 -> h_files h' !! ev_path q = h_files h !! ev_path q) -> journal_is h l -> journal_is h' l.
Proof. intros H J q Hq. rewrite H by done. by apply J. Qed.

(** Removing a pending file. *)
Lemma store_removed D h h' l p :
  loose_path p -> h_files h' = delete p (h_files h) -> store D h l -> store D h' l.
Proof.
  intros [Hp Hn] F [J B R L Q].
  assert (LL : forall p' data, loose h' p' data -> loose h p' data).
  { intros p' data (H1 & H2 & H3). split; [done|]. split; [done|]. rewrite F in H3. by apply lookup_delete_Some in H3 as [_ ?]. }
  constructor; [|done|done| |].
  - eapply journal_other; [|exact J]. intros q Hq. rewrite F, lookup_delete_ne; [done|]. by apply Hn.
  - intros p' data previous q next Hl. apply (L p'). by apply LL.
  - intros nonce Hd. destruct (Q nonce Hd) as (s & Hs & Ha & Hq). exists s. split; [done|]. split; [done|].
    intros p' data event t b next Hl. apply (Hq p'). by apply LL.
Qed.

(** ** Interrupted and finished appends *)

Lemma event_line_newline sequence event from to text previous binding data :
  event_line sequence event from to text previous binding = Some data -> exists b, data = b ++ [x0a] /\
  (Z.abs sequence < 10 ^ 19 -> encodable text = true -> encodable previous = true -> encodable binding = true -> x0a ∉ b).
Proof.
  unfold event_line. intros H. apply bind_Some in H as (b & Hb & [= <-]). exists b. split; [done|].
  intros Hs Ht Hp Hbi. eapply canonical_one_line; [|exact Hb]. exact (proj1 (event_dict_ok _ _ _ _ _ _ _ Hs Ht Hp Hbi)).
Qed.

Lemma follows_newline previous sequence event text binding data next :
  Z.abs sequence < 10 ^ 19 -> follows previous sequence event text binding data next ->
  exists b, data = b ++ [x0a] /\ x0a ∉ b.
Proof.
  intros Hs [FT FL FB FP FI FO FN]. destruct (event_line_newline _ _ _ _ _ _ _ _ FL) as (b & -> & H). exists b.
  split; [done|]. apply H; [done | by eapply fromisoformat_chars | by apply sha256_encodable | by apply sha256_encodable].
Qed.

(** A record that was not written completely is no record. *)
Lemma partial_record previous q event t b data next n previous' q' next' :
  Z.abs q < 10 ^ 19 -> follows previous q event t b data next ->
  _validate_event_bytes (take n data) previous' q' = Ok next' -> take n data = data.
Proof.
  intros Hq F V. destruct (follows_newline _ _ _ _ _ _ _ Hq F) as (a & -> & Ha).
  apply validate_follows in V as (ev & t' & b' & [_ FL _ _ _ _ _]).
  destruct (event_line_newline _ _ _ _ _ _ _ _ FL) as (c & Hc & _).
  destruct (decide (n <= length a)%nat) as [L|L]; [|apply take_ge; rewrite length_app; cbn [length]; lia].
  exfalso. apply Ha. rewrite take_app_le in Hc by done. rewrite <-(take_drop n a), Hc, !elem_of_app, list_elem_of_singleton. auto.
Qed.

(** [data] is a record of [event] as number [q], written after the first
    [q - 1] records of [l]. *)
Definition next_record (l : list bytes) (event : CaptureEvent) (data : bytes) (q : Z) (next : SessionSnapshot) : Prop :=
  exists previous t b, replay (take (Z.to_nat (q - 1)) l) = Ok previous /\ 1 <= q <= len l + 1 /\
    q <= MAX_JOURNAL_EVENTS /\ follows previous q event t b data next.

(** No role in doubt has its attempt taken back by [event]. *)
Definition keeps_doubt (D : doubt) (event : CaptureEvent) : Prop := forall nonce, D nonce -> event <> pre_send_event nonce.

(** A pending file of an append, complete or not. *)
Lemma store_pending D h h' l p n event data q next :
  loose_path p -> next_record l event data q next -> keeps_doubt D event ->
  h_files h' = <[p := take n data]> (h_files h) -> store D h l -> store D h' l.
Proof.
  intros [Hp Hn] (previous & t & b & HR & Hq & HM & HF) HD F [J B R L Q]. unfold MAX_JOURNAL_EVENTS in *.
  assert (LL : forall p' d, loose h' p' d -> d = take n data \/ loose h p' d).
  { intros p' d (H1 & H2 & H3). rewrite F in H3. apply lookup_insert_Some in H3 as [[_ <-] | [_ ?]]; [by left|by right]. }
  assert (TN : forall pv q' nx, 0 <= q' < 10 ^ 8 -> _validate_event_bytes (take n data) pv q' = Ok nx -> take n data = data /\ q' = q).
  { intros pv q' nx Hq' V. assert (E : take n data = data) by (eapply partial_record; [|exact HF|exact V]; lia). split; [done|].
    rewrite E in V. apply validate_follows in V as (ev & t' & b' & F').
    destruct (fun x y => follows_inj _ _ _ _ _ _ _ _ _ _ _ _ _ x y HF F') as (-> & _); [lia|lia|done]. }
  constructor; [|done|done| |].
  - eapply journal_other; [|exact J]. intros q' Hq'. rewrite F, lookup_insert_ne; [done|]. by apply Hn.
  - intros p' d pv q' nx Hl Hq' V. apply LL in Hl as [-> | Hl]; [|by eapply L].
    apply TN in V as [_ ->]; [|done]. unfold MAX_JOURNAL_EVENTS. lia.
  - intros nonce Hd. destruct (Q nonce Hd) as (s & Hs & Ha & Hq0). exists s. split; [done|]. split; [done|].
    intros p' d ev t' b' nx Hl F'. apply LL in Hl as [-> | Hl]; [|by eapply Hq0].
    pose proof (len_nonneg l). assert (VV : _validate_event_bytes (take n data) (Some s) (len l + 1) = Ok nx).
    { eapply follows_validate; [|exact F']. lia. }
    apply TN in VV as [E _]; [|lia]. rewrite E in F'.
    destruct (fun x y => follows_inj _ _ _ _ _ _ _ _ _ _ _ _ _ x y HF F') as (_ & <- & _); [lia|lia|]. by apply HD.
Qed.

(** A state with an attempt behind it keeps it, unless the attempt is taken
    back. *)
Lemma attempted_kept nonce event st to :
  _transition_for event (Some st) = Ok to -> event <> pre_send_event nonce -> attempted nonce st <> Some false ->
  attempted nonce to <> Some false.
Proof.
  intros T N A. pose proof (transition_attempted nonce _ _ _ T) as X.
  destruct (attempted nonce st) as [[]|], (attempted nonce to) as [[]|]; try done.
  destruct (bool_decide (event = attempt_event nonce)); [by destruct X|]. rewrite bool_decide_false in X by done. done.
Qed.

Lemma replay_follows l o event t b data next :
  len l < 10 ^ 18 -> replay l = Ok o -> follows o (len l + 1) event t b data next -> replay (l ++ [data]) = Ok (Some next).
Proof.
  intros HL HR F. pose proof (len_nonneg l). rewrite replay_snoc, HR. cbn [mbind result_bind].
  erewrite follows_validate; [done|lia|exact F].
Qed.

(** No file of the directory is the record after [l]. *)
Definition fresh (h : host) (l : list bytes) : Prop :=
  forall p data previous next, loose h p data -> _validate_event_bytes data previous (len l + 1) <> Ok next.

(** A published append. *)
Lemma store_extended D h h' l event data next :
  next_record l event data (len l + 1) next -> keeps_doubt D event ->
  h_files h' = <[ev_path (len l + 1) := data]> (h_files h) -> store D h l ->
  store D h' (l ++ [data]) /\ replay (l ++ [data]) = Ok (Some next) /\ fresh h' (l ++ [data]).
Proof.
  intros (previous & t & b & HR & Hq & HM & HF) HD F [J B R L Q]. pose proof (len_nonneg l) as LN.
  unfold MAX_JOURNAL_EVENTS in *.
  rewrite take_ge in HR by (unfold len in *; lia).
  pose proof (replay_follows l previous event t b data next ltac:(lia) HR HF) as HR'.
  assert (LD : len (l ++ [data]) = len l + 1) by (by rewrite len_app, len_cons, len_nil).
  assert (LL : forall p' d, loose h' p' d -> loose h p' d).
  { intros p' d (H1 & H2 & H3). split; [done|]. split; [done|]. rewrite F, lookup_insert_ne in H3; [done|].
    intros <-. apply (H2 (len l + 1)); [lia|done]. }
  assert (FR : fresh h' (l ++ [data])).
  { intros p' d pv nx Hl V. apply LL in Hl. rewrite LD in V. destruct (fun x => L _ _ _ _ _ Hl x V) as [? _]; lia. }
  split; [|by split]. constructor.
  - intros q Hqq. rewrite F. destruct (decide (q = len l + 1)) as [-> | N].
    + rewrite lookup_insert_eq, (proj2 (Z.leb_le 1 (len l + 1))) by lia. symmetry.
      replace (Z.to_nat (len l + 1 - 1)) with (length l) by (unfold len; lia). by apply list_lookup_middle.
    + rewrite lookup_insert_ne by (intros E; apply N; symmetry; apply ev_path_inj; [lia|lia|done]). rewrite (J q Hqq).
      destruct (1 <=? q) eqn:Q1; [|done]. apply Z.leb_le in Q1. destruct (decide (q < len l + 1)) as [Lt|Ge].
      * rewrite lookup_app_l; [done|]. unfold len in *. lia.
      * rewrite !lookup_ge_None_2; [done| |]; rewrite ?length_app; unfold len in *; cbn [length]; lia.
  - unfold MAX_JOURNAL_EVENTS. lia.
  - by exists (Some next).
  - intros p' d pv q' nx Hl Hq' V. apply LL in Hl. destruct (L _ _ _ _ _ Hl Hq' V). rewrite LD. unfold MAX_JOURNAL_EVENTS. lia.
  - intros nonce Hd. exists next. split; [done|]. destruct (Q nonce Hd) as (s & Hs & Ha & _).
    rewrite HR in Hs. injection Hs as ->. split.
    + eapply attempted_kept; [apply (fo_transition _ _ _ _ _ _ _ HF)|by apply HD|done].
    + intros p' d ev t' b' nx Hl F'. exfalso. eapply (FR p' d); [exact Hl|]. eapply follows_validate; [|exact F'].
      rewrite LD. lia.
Qed.
