(* ===== verification/SessionProofs.v ===== *)
(** * What a session keeps

    Every operation of a session, finished, failed or killed at any system call,
    leaves a journal directory that is a history ([store]) and a snapshot in
    memory that some prefix of it replays to. *)

From S2P Require Import Prelude Sha256 Text Json DateTime Effects Archive ArchiveProofs.
From S2P Require Import Observation Journal JournalHistory Session JournalStore.

(** ** The invariant *)

(** [o] is the snapshot of a prefix of the journal. *)
Definition known (h : host) (o : option SessionSnapshot) : Prop :=
  exists l k, journal_is h l /\ len l <= MAX_JOURNAL_EVENTS /\ replay (take k l) = Ok o.

Record sinv (D : doubt) (s : session) : Prop := {
  si_store : exists l, store D (s_host s) l;
  si_memory : forall sn, s_snapshot s = Some sn -> known (s_host s) (Some sn)
}.

(** The step relation: the invariant is kept and known snapshots stay known. *)
Definition sstep (D : doubt) (s s' : session) : Prop :=
  sinv D s -> sinv D s' /\ forall o, known (s_host s) o -> known (s_host s') o.

#[export] Instance sstep_refl D : Reflexive (sstep D).
Proof. intros s H. done. Qed.
#[export] Instance sstep_trans D : Transitive (sstep D).
Proof. intros a b c H1 H2 Ha. destruct (H1 Ha) as [Hb K1]. destruct (H2 Hb) as [Hc K2]. split; [done|auto]. Qed.

(** Steps that touch neither the journal directory nor the snapshot. *)
Definition skept (s s' : session) : Prop :=
  kept [JOURNAL_DIRECTORY] (s_host s) (s_host s') /\ s_snapshot s' = s_snapshot s.

#[export] Instance skept_refl : Reflexive skept.
Proof. by intros s. Qed.
#[export] Instance skept_trans : Transitive skept.
Proof. intros a b c [K1 S1] [K2 S2]. split; [|congruence]. intros p Hp. by rewrite K2, K1. Qed.

Lemma known_kept h h' o : kept [JOURNAL_DIRECTORY] h h' -> known h o -> known h' o.
Proof. intros K (l & k & J & B & R). exists l, k. split; [by eapply journal_kept|done]. Qed.

Lemma skept_step D s s' : skept s s' -> sstep D s s'.
Proof.
  intros [K S] [[l St] M]. split; [|intros o; by apply known_kept]. constructor.
  - exists l. by eapply store_kept.
  - intros sn. rewrite S. intros H. by eapply known_kept, M.
Qed.

Lemma eq_skept s s' : s = s' -> skept s s'.
Proof. by intros ->. Qed.

Lemma reads_skept {A} (m : M session A) : reads m -> within skept m.
Proof. apply within_impl, eq_skept. Qed.
Lemma within_skept {A} D (m : M session A) : within skept m -> within (sstep D) m.
Proof. apply within_impl, skept_step. Qed.

(** Archive operations of a session. *)
Lemma arch_within {A} (R : host -> host -> Prop) (m : M host A) s o s' :
  within R m -> arch m s = (o, s') -> R (s_host s) (s_host s') /\ s' = set_host (s_host s') s /\ m (s_host s) = (o, s_host s').
Proof.
  unfold arch, zoom. intros W H. specialize (W (s_host s)). destruct (m (s_host s)) as [o1 h1]. injection H as <- <-. done.
Qed.

Lemma arch_run {A} (m : M host A) s o s' :
  arch m s = (o, s') -> s' = set_host (s_host s') s /\ m (s_host s) = (o, s_host s').
Proof. unfold arch, zoom. intros H. destruct (m (s_host s)) as [o1 h1]. injection H as <- <-. done. Qed.

Lemma arch_skept {A} (m : M host A) : within (kept [JOURNAL_DIRECTORY]) m -> within skept (arch m).
Proof.
  intros W s. unfold arch, zoom. specialize (W (s_host s)). destruct (m (s_host s)) as [o h]. by split.
Qed.

Lemma arch_reads {A} (m : M host A) : reads m -> reads (arch m).
Proof.
  intros W s. unfold arch, zoom. specialize (W (s_host s)). destruct (m (s_host s)) as [o h]. cbn in *. subst h. by destruct s.
Qed.

(** ** Safety with known snapshots *)

(** From a state with the invariant in which the snapshots [K] are known, [m]
    steps safely, and when it returns [a] the snapshots [f a] are known, too. *)
Definition safe {A} (D : doubt) (K : list (option SessionSnapshot)) (m : M session A)
  (f : A -> list (option SessionSnapshot)) : Prop :=
  forall s o s', m s = (o, s') -> sinv D s -> Forall (known (s_host s)) K ->
  (sinv D s' /\ forall x, known (s_host s) x -> known (s_host s') x) /\
  forall a, o = Ret a -> Forall (known (s_host s')) (f a).

Section Safe.
Context (D : doubt).

Lemma safe_within {A} K (m : M session A) : within (sstep D) m -> safe D K m (fun _ => []).
Proof. intros W s o s' H Hi _. specialize (W s Hi). rewrite H in W. split; [done|]. by intros. Qed.

Lemma within_safe {A} (m : M session A) f : safe D [] m f -> within (sstep D) m.
Proof. intros S s Hi. destruct (m s) as [o s'] eqn:E. by apply (S _ _ _ E Hi). Qed.

Lemma known_all s s' K :
  (forall x, known (s_host s) x -> known (s_host s') x) -> Forall (known (s_host s)) K -> Forall (known (s_host s')) K.
Proof. intros H F. eapply Forall_impl; [exact F|]. done. Qed.

Lemma sbind_safe {A B} K (m : M session A) (g : A -> M session B) f f' :
  safe D K m f -> (forall a, safe D (f a ++ K) (g a) f') -> safe D K (m ≫= g) f'.
Proof.
  intros Sm Sg s o s' H Hi HK. apply bind_cases in H as [(a & s1 & H1 & H) | [(e & H1 & ->) | [H1 ->]]];
    destruct (Sm _ _ _ H1 Hi HK) as [[Hi1 K1] P1]; [|split; [done|by intros]..].
  destruct (Sg a _ _ _ H Hi1) as [[Hi2 K2] P2].
  { apply Forall_app. split; [by apply P1|by eapply known_all]. }
  split; [|done]. split; [done|]. auto.
Qed.

Lemma safe_ret {A} K (a : A) f : (forall x, x ∈ f a -> x ∈ K) -> safe D K (mret a) f.
Proof.
  intros H s o s' E Hi HK. injection E as <- <-. split; [done|]. intros a' [= <-].
  apply Forall_forall. intros x Hx. rewrite Forall_forall in HK. auto.
Qed.

Lemma safe_weaken {A} K (m : M session A) f f' :
  (forall a x, x ∈ f' a -> x ∈ f a) -> safe D K m f -> safe D K m f'.
Proof.
  intros H Sm s o s' E Hi HK. destruct (Sm _ _ _ E Hi HK) as [P Q]. split; [done|]. intros a Ha.
  specialize (Q a Ha). rewrite Forall_forall in *. intros x Hx. by apply Q, H.
Qed.

Lemma sraise_safe {A} K e f : safe D K (@raise session A e) f.
Proof. intros s o s' E Hi HK. injection E as <- <-. split; [done|]. done. Qed.

Lemma safe_try {A} K (m : M session A) h f :
  safe D K m f -> (forall e, safe D K (h e) f) -> safe D K (try_except m h) f.
Proof.
  intros Sm Sh s o s' H Hi HK. apply try_cases in H as [(e & s1 & H1 & H) | [H1 _]]; [|by eapply Sm].
  destruct (Sm _ _ _ H1 Hi HK) as [[Hi1 K1] _].
  destruct (Sh e _ _ _ H Hi1) as [[Hi2 K2] P2]; [by eapply known_all|]. split; [|done]. split; [done|auto].
Qed.

Lemma safe_translate {A} K p e (m : M session A) f : safe D K m f -> safe D K (translate p e m) f.
Proof. intros Sm. apply safe_try; [done|]. intros e'. destruct (p e'); apply sraise_safe. Qed.

(** Setting the snapshot in memory to a known one, or to none. *)
Lemma safe_set_snapshot K x :
  (forall sn, x = Some sn -> Some sn ∈ K) -> safe D K (modify (set_snapshot x)) (fun _ => []).
Proof.
  intros H s o s' E [Hi Hm] HK. injection E as <- <-. split; [|by intros]. split; [|done]. constructor; [done|].
  cbn. intros sn ->. rewrite Forall_forall in HK. by apply HK, H.
Qed.

(** Reading: a fact about the value that a state gives. *)
Lemma safe_reads {A} K (m : M session A) f :
  reads m -> (forall s a, m s = (Ret a, s) -> sinv D s -> Forall (known (s_host s)) K -> Forall (known (s_host s)) (f a)) ->
  safe D K m f.
Proof.
  intros R H s o s' E Hi HK. pose proof (reads_state _ _ _ _ R E) as ->. split; [done|]. intros a ->. by eapply H.
Qed.

(** A pure fact that the known snapshots imply. *)
Lemma safe_pure {A} K (m : M session A) f (P : Prop) :
  (forall s, sinv D s -> Forall (known (s_host s)) K -> P) -> (P -> safe D K m f) -> safe D K m f.
Proof. intros HP Sm s o s' E Hi HK. eapply Sm; eauto. Qed.

Lemma safe_check K c e f (g : () -> M session f) h : (c = false -> safe D K (g ()) h) -> safe D K (check c e ≫= g) h.
Proof.
  intros H s o s' E Hi HK. unfold check in E. destruct c; [injection E as <- <-; split; [done|done]|]. by eapply H.
Qed.

Lemma safe_result {A B} K (r : result pyexn A) (g : A -> M session B) f :
  (forall a, r = Ok a -> safe D K (g a) f) -> safe D K (of_result r ≫= g) f.
Proof.
  intros H s o s' E Hi HK. destruct r as [a|e]; [by eapply H|]. injection E as <- <-. split; [done|done].
Qed.

End Safe.

(** ** Session operations *)

Section Operations.
Context (E : env) (D : doubt).

Lemma known_none s : sinv D s -> known (s_host s) None.
Proof. intros [[l [J B _ _ _]] _]. exists l, O. split; [done|]. split; [done|]. done. Qed.

(** A known snapshot is that of the first [sn_sequence] records. *)
Lemma known_sequence h l o :
  journal_is h l -> len l <= MAX_JOURNAL_EVENTS -> known h o ->
  replay (take (Z.to_nat (next_sequence o - 1)) l) = Ok o /\ 1 <= next_sequence o <= len l + 1 /\
  is_sha256 (previous_digest o) = true.
Proof.
  intros J B (l' & k & J' & B' & R). rewrite (journal_unique _ _ _ J' J B' B) in R.
  pose proof (replay_snapshot _ _ R) as S. destruct o as [sn|]; cbn [next_sequence previous_digest].
  - destruct S as (S1 & S2 & _). unfold snapshot_ok in S2. unfold len in *. rewrite length_take in S1.
    split; [|split; [lia|done]]. replace (Z.to_nat (sn_sequence sn + 1 - 1)) with (min k (length l)) by lia.
    rewrite <-R. f_equal. destruct (decide (k <= length l)%nat); [by rewrite Nat.min_l|].
    rewrite Nat.min_r, !take_ge by lia. done.
  - pose proof (len_nonneg l). split; [done|]. split; [lia|]. reflexivity.
Qed.

Lemma require_session_open_reads : reads require_session_open.
Proof. unfold require_session_open. within_auto. Qed.

Lemma replay_files_reads expected files snapshot : reads (replay_files E expected files snapshot).
Proof.
  revert expected snapshot. induction files as [|[q name] files IH]; intros expected snapshot; cbn [replay_files]; within_auto.
  apply arch_reads, read_bytes_reads.
Qed.

Lemma replay_final_events_reads b : reads (_replay_final_events E b).
Proof.
  unfold _replay_final_events. within_auto.
  - apply require_session_open_reads.
  - apply arch_reads, list_names_reads.
  - apply replay_files_reads.
Qed.

(** Replaying the files one by one follows the journal. *)
Lemma replay_files_known files : forall expected snapshot s o l,
  Forall (fun f => _EVENT_FILE_RE (snd f) = Some (fst f)) files ->
  journal_is (s_host s) l -> 1 <= expected -> replay (take (Z.to_nat (expected - 1)) l) = Ok snapshot ->
  replay_files E expected files snapshot s = (Ret o, s) ->
  o = snapshot /\ files = [] \/
  replay (take (Z.to_nat (expected - 1 + len files)) l) = Ok o /\ expected - 1 + len files <= len l.
Proof.
  induction files as [|[q name] files IH]; intros expected snapshot s o l FR J Hx HR H; cbn [replay_files] in H.
  - left. by injection H as ->.
  - apply bind_ret_inv in H as ([] & s1 & H1 & H). apply check_ret in H1 as [Hq ->]. apply negb_false_iff, Z.eqb_eq in Hq as ->.
    apply bind_ret_inv in H as (data & s1 & H1 & H). pose proof (reads_state _ _ _ _ (arch_reads _ (read_bytes_reads E _ _)) H1) as ->.
    apply arch_run in H1 as (_ & H1). apply read_bytes_ret in H1 as (_ & parts & HP & HF).
    apply bind_ret_inv in H as (next & s1 & H1 & H).
    apply Forall_cons in FR as [FN FR]. cbn [fst snd] in FN. apply event_file_spec in FN as [-> Hb].
    fold (event_relative expected) in HP. rewrite event_relative_parts in HP by done. injection HP as <-.
    rewrite (J expected Hb), (proj2 (Z.leb_le 1 expected)) in HF by done.
    unfold of_result in H1. destruct (_validate_event_bytes data snapshot expected) as [nx|] eqn:V; [|done]. injection H1 as <- <-.
    assert (HR' : replay (take (Z.to_nat (expected + 1 - 1)) l) = Ok (Some nx)).
    { replace (Z.to_nat (expected + 1 - 1)) with (S (Z.to_nat (expected - 1))) by lia.
      rewrite (take_S_r _ _ _ HF), replay_snoc, HR. cbn [mbind result_bind].
      apply lookup_lt_Some in HF. replace (len (take (Z.to_nat (expected - 1)) l) + 1) with expected.
      - by rewrite V.
      - unfold len. rewrite length_take. lia. }
    assert (HL : expected <= len l) by (apply lookup_lt_Some in HF; unfold len; lia).
    rewrite len_cons. right. destruct (IH (expected + 1) (Some nx) s o l FR J ltac:(lia) HR' H) as [[-> ->] | [A B]].
    + rewrite len_nil. split; [|lia]. by replace (expected - 1 + (1 + 0)) with (expected + 1 - 1) by lia.
    + split; [|lia]. by replace (expected - 1 + (1 + len files)) with (expected + 1 - 1 + len files) by lia.
Qed.

Lemma final_entries_ok names :
  Forall (fun f => _EVENT_FILE_RE (snd f) = Some (fst f)) (merge_sort event_file_le (omap final_entry names)).
Proof.
  rewrite merge_sort_Permutation. apply Forall_forall. intros [q name] H.
  apply list_elem_of_omap in H as (n & _ & H). unfold final_entry in H. by apply bind_Some in H as (z & Hz & [= <- <-]).
Qed.

Lemma replay_final_events_safe K b : safe D K (_replay_final_events E b) (fun o => [o]).
Proof.
  apply safe_reads; [apply replay_final_events_reads|]. intros s o H Hi _. apply Forall_cons. split; [|done].
  destruct (si_store _ _ Hi) as [l St]. unfold _replay_final_events in H.
  apply bind_ret_inv in H as ([] & s1 & H0 & H). pose proof (reads_state _ _ _ _ require_session_open_reads H0) as ->.
  apply bind_ret_inv in H as (names & s1 & H1 & H). pose proof (reads_state _ _ _ _ (arch_reads _ (list_names_reads E _)) H1) as ->.
  apply bind_ret_inv in H as ([] & s1 & H2 & H). apply check_ret in H2 as [_ ->].
  destruct (bool_decide _).
  - apply bind_ret_inv in H as ([] & s1 & H2 & H). injection H as <-. by apply known_none.
  - apply (replay_files_known _ 1 None s o l) in H; [|apply final_entries_ok|apply (st_files _ _ _ St)|lia|done].
    destruct H as [[-> _] | [H _]]; [by apply known_none|]. eexists l, _. split; [apply (st_files _ _ _ St)|].
    split; [apply (st_bound _ _ _ St)|exact H].
Qed.

Lemma of_option_safe {A} K e (o : option A) f :
  (forall a, o = Some a -> forall x, x ∈ f a -> x ∈ K) -> safe D K (of_option e o) f.
Proof. intros H. destruct o as [a|]; cbn [of_option]; [by apply safe_ret, H|apply sraise_safe]. Qed.

Lemma snapshot_property_safe K : safe D K (snapshot_property E) (fun sn => [Some sn]).
Proof.
  unfold snapshot_property. apply (sbind_safe _ _ _ _ (fun _ => [])).
  { apply safe_within, within_skept, reads_skept, require_session_open_reads. }
  intros _. apply (sbind_safe _ _ _ _ (fun o => match o with Some sn => [Some sn] | None => [] end)).
  { apply safe_reads; [apply within_gets, _|]. intros s o H [_ Hm] _. injection H as <-.
    destruct (s_snapshot s); [|done]. apply Forall_cons. split; [by apply Hm|done]. }
  intros [sn|]; [apply safe_ret; set_solver|].
  apply (sbind_safe _ _ _ _ (fun o => [o])); [apply replay_final_events_safe|]. intros o.
  apply (sbind_safe _ _ _ _ (fun _ => [])); [apply safe_set_snapshot; intros; subst; set_solver|].
  intros _. apply of_option_safe. intros a ->. set_solver.
Qed.

Lemma append_current_reads event : reads (append_current E event).
Proof. unfold append_current. within_auto. apply replay_final_events_reads. Qed.

Lemma append_current_memory event s c o :
  s_snapshot s = Some c -> append_current E event s = (Ret o, s) -> o = Some c.
Proof. intros Hc H. unfold append_current, gets, mbind, M_bind in H. rewrite Hc in H. by injection H as <-. Qed.

Lemma append_current_safe K event : safe D K (append_current E event) (fun o => [o]).
Proof.
  unfold append_current. apply (sbind_safe _ _ _ _ (fun o => match o with Some sn => [Some sn] | None => [] end)).
  { apply safe_reads; [apply within_gets, _|]. intros s o H [_ Hm] _. injection H as <-.
    destruct (s_snapshot s); [|done]. apply Forall_cons. split; [by apply Hm|done]. }
  intros [sn|]; [apply safe_ret; set_solver|].
  apply safe_try; [apply replay_final_events_safe|]. intros e. destruct (_ && _); [|apply sraise_safe].
  apply safe_reads; [by apply within_ret|]. intros s a [= <-] Hi _. apply Forall_cons. split; [by apply known_none|done].
Qed.

(** ** Observations *)

Lemma load_observation_manifest_reads sha : reads (load_observation_manifest E sha).
Proof.
  unfold load_observation_manifest, _verify_observation_files, verify_file, verify_namespace. within_auto; eauto with pyres.
Qed.

Lemma kept_seal : within (kept [JOURNAL_DIRECTORY]) (seal_prefixes OBSERVATION_DIRECTORIES).
Proof. eapply within_impl; [|apply seal_prefixes_files]. apply same_files_kept. Qed.

Lemma activate_skept o : within skept (_activate_frozen_observations E o).
Proof.
  unfold _activate_frozen_observations. within_auto.
  - apply reads_skept, arch_reads, load_observation_manifest_reads.
  - apply arch_skept, kept_seal.
Qed.

Lemma manifest_parts parts :
  _relative_parts OBSERVATION_MANIFEST_RELATIVE = Ok parts -> removelast parts <> [JOURNAL_DIRECTORY].
Proof.
  assert (X : _relative_parts OBSERVATION_MANIFEST_RELATIVE = Ok [u "raw"; u "observation-manifest.json"]) by (vm_compute; reflexivity).
  rewrite X. by intros [= <-].
Qed.

#[local] Instance kept_journal_refl : Reflexive (kept [JOURNAL_DIRECTORY]).
Proof. by intros h p. Qed.
#[local] Instance kept_journal_trans : Transitive (kept [JOURNAL_DIRECTORY]).
Proof. intros a b c H1 H2 p Hp. by rewrite H2, H1. Qed.

Lemma publish_manifest_kept obs : within (kept [JOURNAL_DIRECTORY]) (publish_observation_manifest E obs).
Proof.
  unfold publish_observation_manifest, _verify_observation_files, verify_file, verify_namespace. within_auto;
    try (apply reads_kept; eauto using load_observation_manifest_reads with pyres; fail).
  - apply dirs_only_kept, ensure_directory_within.
  - apply write_or_reopen_exact_kept, manifest_parts.
Qed.

Lemma load_manifest_digest sha h m h' :
  load_observation_manifest E sha h = (Ret m, h') -> is_sha256 (root_sha256 m) = true.
Proof.
  unfold load_observation_manifest. intros H. apply bind_ret_inv in H as (data & h1 & _ & H).
  repeat (apply bind_ret_inv in H as (? & ? & _ & H)). injection H as <- <-. apply hexdigest_sha256.
Qed.

Lemma publish_manifest_digest obs h m h' :
  publish_observation_manifest E obs h = (Ret m, h') -> is_sha256 (root_sha256 m) = true.
Proof.
  unfold publish_observation_manifest. intros H. do 7 (apply bind_ret_inv in H as (? & ? & _ & H)).
  apply bind_ret_inv in H as (r & h1 & H1 & H). apply bind_ret_inv in H as (? & ? & _ & H). injection H as <- <-.
  by eapply load_manifest_digest.
Qed.

End Operations.

(** ** Appending *)

Lemma known_extend h h' l d o :
  journal_is h l -> len l <= MAX_JOURNAL_EVENTS -> journal_is h' (l ++ [d]) -> len (l ++ [d]) <= MAX_JOURNAL_EVENTS ->
  known h o -> known h' o.
Proof.
  intros J B J' B' (l0 & k & J0 & B0 & R). rewrite (journal_unique _ _ _ J0 J B0 B) in R.
  exists (l ++ [d]), (min k (length l)). split; [done|]. split; [done|]. rewrite take_app_le by lia.
  destruct (decide (k <= length l)%nat); [by rewrite Nat.min_l|]. rewrite Nat.min_r by lia. rewrite take_ge in R by lia.
  by rewrite take_ge.
Qed.

Lemma known_last h l o : journal_is h l -> len l <= MAX_JOURNAL_EVENTS -> replay l = Ok o -> known h o.
Proof. intros J B R. exists l, (length l). split; [done|]. split; [done|]. by rewrite take_ge. Qed.

(** The journal of [s] was [l], and that of [s'] is [l] and the record of
    [event]; no other file there is the record after it. *)
Record appended (D : doubt) (event : CaptureEvent) (binding : str) (s s' : session) (l : list bytes) (data : bytes)
  (current : option SessionSnapshot) (next : SessionSnapshot) : Prop := {
  ap_before : store D (s_host s) l;
  ap_current : replay l = Ok current;
  ap_record : exists t, follows current (len l + 1) event t binding data next;
  ap_after : store D (s_host s') (l ++ [data]);
  ap_next : replay (l ++ [data]) = Ok (Some next);
  ap_fresh : fresh (s_host s') (l ++ [data]);
  ap_others : forall p, removelast p = [JOURNAL_DIRECTORY] -> p <> ev_path (len l + 1) ->
    h_files (s_host s') !! p = h_files (s_host s) !! p
}.

Lemma appended_kept D event b s s1 s' l data current next :
  appended D event b s s1 l data current next -> kept [JOURNAL_DIRECTORY] (s_host s1) (s_host s') ->
  appended D event b s s' l data current next.
Proof.
  intros [A1 A2 A3 A4 A5 A6 A7] K. constructor; try done; [by eapply store_kept| |].
  - intros p d pv nx Hl. eapply A6. by eapply loose_kept.
  - intros p Hp Hn. by rewrite (K p Hp), A7.
Qed.

Lemma pend_loose q uuid : loose_path (pend_path (ev_path q) uuid).
Proof.
  split; [apply removelast_last|]. intros q' Hq' [= H]. pose proof (event_name_component q' Hq') as C.
  rewrite <-H in C. unfold pend_name in C. cbn [app _COMPONENT_RE] in C. done.
Qed.

Section Append.
Context (E : env) (D : doubt).

Lemma write_event_cases event t b current q data next s o s' :
  sinv D s -> known (s_host s) current -> q = next_sequence current -> q <= MAX_JOURNAL_EVENTS ->
  follows current q event t b data next -> keeps_doubt D event ->
  arch (write_bytes E (event_relative q) data MAX_EVENT_BYTES) s = (o, s') ->
  (sinv D s' /\ forall x, known (s_host s) x -> known (s_host s') x) /\
  forall r, o = Ret r -> exists l, appended D event b s s' l data current next.
Proof.
  intros [[l St] Hm] HK Hq HM HF HD H. apply arch_run in H as (Hs & H).
  destruct (known_sequence _ _ _ (st_files _ _ _ St) (st_bound _ _ _ St) HK) as (HR & Hr & _). rewrite <-Hq in HR, Hr.
  assert (NR : next_record l event data q next) by (exists current, t, b; done).
  assert (Hmem : forall h', store D h' l -> (forall x, known (s_host s) x -> known h' x) -> s_host s' = h' ->
    (sinv D s' /\ forall x, known (s_host s) x -> known (s_host s') x)).
  { intros h' St' Kn <-. split; [|done]. constructor; [by exists l|]. rewrite Hs. cbn. intros sn Hsn. by apply Kn, Hm. }
  assert (Ksame : forall h', store D h' l -> forall x, known (s_host s) x -> known h' x).
  { intros h' St' x (l0 & k & J0 & B0 & R0). rewrite (journal_unique _ _ _ J0 (st_files _ _ _ St) B0 (st_bound _ _ _ St)) in R0.
    exists l, k. split; [apply (st_files _ _ _ St')|]. split; [apply (st_bound _ _ _ St)|done]. }
  assert (Hnone : forall h', h_files h' = h_files (s_host s) -> store D h' l).
  { intros h' F. eapply store_kept; [|exact St]. intros p _. by rewrite F. }
  unfold MAX_JOURNAL_EVENTS in HM.
  apply write_bytes_cases in H as [[F Hnr] | (parts & n & HP & _ & _ & _ & P & Hret)].
  - split; [|intros r ->; by destruct (Hnr r)]. eapply Hmem; [|apply Ksame|reflexivity]; by apply Hnone.
  - rewrite event_relative_parts in HP by lia. injection HP as <-.
    assert (Hext : h_files (s_host s) !! ev_path q = None -> h_files (s_host s') = <[ev_path q := data]> (h_files (s_host s)) ->
      (sinv D s' /\ forall x, known (s_host s) x -> known (s_host s') x) /\
      exists l, appended D event b s s' l data current next).
    { intros Hno F. assert (EQ : q = len l + 1).
      { pose proof (journal_absent _ _ q (st_files _ _ _ St) ltac:(lia) Hno). lia. }
      rewrite EQ in NR, F. destruct (store_extended D _ (s_host s') l event data next NR HD F St) as (St' & R' & FR).
      assert (Kn : forall x, known (s_host s) x -> known (s_host s') x).
      { intros x. apply (known_extend _ _ l data); [apply (st_files _ _ _ St) | apply (st_bound _ _ _ St) |
          apply (st_files _ _ _ St') | apply (st_bound _ _ _ St')]. }
      split; [split; [|done]; constructor; [by exists (l ++ [data])|]|].
      - rewrite Hs. cbn. intros sn Hsn. by apply Kn, Hm.
      - exists l. constructor; try done.
        + rewrite take_ge in HR by (unfold len in *; lia). done.
        + exists t. by rewrite <-EQ.
        + intros p Hp Hn. by rewrite F, lookup_insert_ne. }
    split; [|intros r Hr'; destruct (Hret r Hr') as (_ & Hno & F); by apply Hext].
    destruct P as [F | F | k Hno F | Hno F]; [| | |by apply Hext]; (eapply Hmem; [|apply Ksame|reflexivity]).
    1-2: by apply Hnone.
    1-2: eapply store_removed; [apply pend_loose|exact F|exact St].
    1-2: eapply store_pending; [apply pend_loose|exact NR|exact HD|exact F|exact St].
Qed.

(** The body of an append after its write. *)
Lemma append_locked_cases event binding s o s' :
  (forall n, valid_datetime (e_now E n) = true) -> is_sha256 binding = true -> keeps_doubt D event ->
  sinv D s -> _append_locked E event binding s = (o, s') ->
  (sinv D s' /\ forall x, known (s_host s) x -> known (s_host s') x) /\
  forall sn, o = Ret sn -> s_snapshot s' = Some sn /\
    exists l data current, appended D event binding s s' l data current sn /\
      forall c, s_snapshot s = Some c -> current = Some c.
Proof.
  intros Hclock Hb HD Hi H. unfold _append_locked in H.
  assert (Same : forall s1, skept s s1 -> (forall sn, o <> Ret sn) -> s' = s1 ->
    (sinv D s' /\ forall x, known (s_host s) x -> known (s_host s') x) /\
    forall sn, o = Ret sn -> s_snapshot s' = Some sn /\ exists l data current, appended D event binding s s' l data current sn /\
      forall c, s_snapshot s = Some c -> current = Some c).
  { intros s1 K N ->. split; [by apply skept_step|]. intros sn Hr. by destruct (N sn). }
  apply bind_reads in H as [(current & H1 & H) | [-> N]]; [|by eapply Same|apply append_current_reads].
  destruct (append_current_safe E D [] event _ _ _ H1 Hi ltac:(done)) as [_ P1].
  specialize (P1 _ eq_refl). apply Forall_cons in P1 as [Kc _].
  pose proof (fun c Hc => append_current_memory E event s c current Hc H1) as Mem.
  apply (bind_within skept) in H as [(m & s2 & _ & K2 & H) | [K N]]; [| |apply activate_skept]; [|by eapply Same].
  apply bind_result in H as [(to & HT & H) | [-> N]]; [|by eapply Same]. cbv zeta in H.
  apply bind_check in H as [[HM H] | [-> N]]; [|by eapply Same]. apply Z.ltb_ge in HM.
  apply bind_reads in H as [(now & H3 & H) | [-> N]]; [|by eapply Same|by apply within_gets]. injection H3 as Hnow.
  apply bind_check in H as [[Hbef H] | [-> N]]; [|by eapply Same]. apply negb_false_iff in Hbef.
  apply bind_result in H as [(data & Hdata & H) | [-> N]]; [|by eapply Same].
  destruct (skept_step D s s2 K2 Hi) as [Hi2 Kn2].
  set (next := {| sn_state := to; sn_sequence := next_sequence current; sn_last_event_sha256 := hexdigest data;
    sn_last_binding_sha256 := binding; sn_last_recorded_at := now;
    sn_observation_manifest_sha256 := next_manifest event binding current |}).
  assert (HF : follows current (next_sequence current) event (format_utc now) binding data next).
  { constructor; try done.
    - unfold event_line. unfold _canonical_event_bytes in Hdata. destruct (canonical_json _) as [c|] eqn:C in Hdata; [|done].
      injection Hdata as <-. unfold _format_timestamp in C. cbn [sn_state next]. by rewrite C.
    - destruct (si_store _ _ Hi) as [l St].
      by destruct (known_sequence _ _ _ (st_files _ _ _ St) (st_bound _ _ _ St) Kc) as (_ & _ & ?).
    - change (fromisoformat (format_utc now) = Some now). apply fromisoformat_format. rewrite <-Hnow. apply Hclock. }
  apply bind_cases in H as [(r & s3 & H3 & H) | [(e & H3 & ->) | [H3 ->]]];
    destruct (write_event_cases event _ _ _ _ _ _ _ _ _ Hi2 (Kn2 _ Kc) eq_refl HM HF HD H3) as [[Hi3 Kn3] P3];
    [|split; [split; [done|auto]|by intros]..].
  destruct (P3 r eq_refl) as (l & Ap).
  assert (Ap' : appended D event binding s s3 l data current next).
  { destruct Ap as [A1 A2 A3 A4 A5 A6 A7]. constructor; try done.
    - eapply store_kept; [|exact A1]. intros p Hp. symmetry. by apply (proj1 K2).
    - intros p Hp Hn. rewrite A7 by done. by apply (proj1 K2). }
  assert (Kn : known (s_host s3) (Some next)).
  { eapply known_last; [apply (st_files _ _ _ (ap_after _ _ _ _ _ _ _ _ _ Ap))|apply (st_bound _ _ _ (ap_after _ _ _ _ _ _ _ _ _ Ap))|apply Ap]. }
  apply bind_check in H as [[HC H] | [-> N]]; [|split; [split; [done|auto]|intros sn Hr; by destruct (N sn)]].
  apply orb_false_elim in HC as [HC _]. apply negb_false_iff in HC. apply bool_decide_eq_true in HC. rewrite HC in H.
  fold next in H.
  unfold modify at 1, mbind at 1, M_bind at 1 in H.
  assert (Hi4 : sinv D (set_snapshot (Some next) s3)).
  { destruct Hi3 as [Hl _]. constructor; [done|]. cbn. by intros sn [= <-]. }
  apply (bind_within skept) in H as [(m' & s4 & _ & K4 & H) | [K N]]; [| |apply activate_skept].
  - destruct (skept_step D _ _ K4 Hi4) as [Hi5 Kn5]. injection H as <- <-. split; [split; [done|auto]|].
    intros sn [= <-]. split; [by rewrite (proj2 K4)|]. exists l, data, current. split; [|exact Mem].
    eapply appended_kept; [exact Ap'|]. apply K4.
  - destruct (skept_step D _ _ K Hi4) as [Hi5 Kn5]. split; [split; [done|auto]|]. intros sn Hr. by destruct (N sn).
Qed.
End Append.

(** ** The operations keep the invariant *)

Section Safety.
Context (E : env) (D : doubt).
Hypothesis clock : forall n, valid_datetime (e_now E n) = true.

Lemma append_locked_safe K event binding :
  is_sha256 binding = true -> keeps_doubt D event -> safe D K (_append_locked E event binding) (fun sn => [Some sn]).
Proof.
  intros Hb HD s o s' H Hi _. destruct (append_locked_cases E D event binding s o s' clock Hb HD Hi H) as [St P].
  split; [done|]. intros sn Hr. destruct (P sn Hr) as (Hm & _). apply Forall_cons. split; [|done].
  by apply (si_memory _ _ (proj1 St)).
Qed.

Lemma append_ret event b s sn s' :
  keeps_doubt D event -> sinv D s -> append E event b s = (Ret sn, s') ->
  sinv D s' /\ (forall x, known (s_host s) x -> known (s_host s') x) /\ s_snapshot s' = Some sn /\
  exists l data current, appended D event b s s' l data current sn /\ forall c, s_snapshot s = Some c -> current = Some c.
Proof.
  intros HD Hi H. unfold append in H. apply bind_reads in H as [([] & _ & H) | [_ N]];
    [|by destruct (N sn)|apply require_session_open_reads].
  apply bind_check in H as [[_ H] | [_ N]]; [|by destruct (N sn)].
  apply bind_result in H as [(b' & Hb & H) | [_ N]]; [|by destruct (N sn)]. apply require_sha256_ok in Hb as [[= ->] Hb].
  destruct (append_locked_cases E D event b' s _ s' clock Hb HD Hi H) as [[Hi' Kn] P].
  destruct (P sn eq_refl) as (Hm & l & data & c & Ap & Mem).
  split; [done|]. split; [done|]. split; [done|]. by exists l, data, c.
Qed.

Lemma append_safe K event binding : keeps_doubt D event -> safe D K (append E event binding) (fun sn => [Some sn]).
Proof.
  intros HD. unfold append. apply (sbind_safe _ _ _ _ (fun _ => [])).
  { apply safe_within, within_skept, reads_skept, require_session_open_reads. }
  intros _. apply safe_check. intros _. apply safe_result. intros b Hb. apply require_sha256_ok in Hb as [_ Hb].
  by apply append_locked_safe.
Qed.

Lemma keeps_other event : (forall nonce, event <> pre_send_event nonce) -> keeps_doubt D event.
Proof. intros H nonce _. apply H. Qed.

Lemma append_within event binding :
  (forall nonce, event <> pre_send_event nonce) -> within (sstep D) (append E event binding).
Proof. intros H. eapply within_safe, append_safe, keeps_other, H. Qed.

Lemma snapshot_property_within : within (sstep D) (snapshot_property E).
Proof. eapply within_safe, snapshot_property_safe. Qed.

Lemma state_property_within : within (sstep D) (state_property E).
Proof. unfold state_property. within_auto. apply snapshot_property_within. Qed.

Lemma reads_step {A} (m : M session A) : reads m -> within (sstep D) m.
Proof. intros R. by apply within_skept, reads_skept. Qed.

Lemma require_collection_open_within : within (sstep D) (require_collection_open E).
Proof.
  unfold require_collection_open. within_auto; [apply reads_step, require_session_open_reads|apply state_property_within].
Qed.

Lemma complete_observations_within obs : within (sstep D) (complete_observations E obs).
Proof.
  apply (within_safe D _ (fun _ => [])). unfold complete_observations.
  apply (sbind_safe _ _ _ _ (fun _ => [])); [apply safe_within, require_collection_open_within|]. intros _.
  intros s o s' H Hi HK. apply (bind_within skept) in H as [(m & s1 & H1 & K1 & H) | [K N]].
  - assert (Hd : is_sha256 (root_sha256 m) = true).
    { apply translate_ret in H1. apply bind_ret_inv in H1 as (m' & s2 & H2 & H1). apply arch_run in H2 as (_ & H2).
      apply publish_manifest_digest in H2. apply bind_ret_inv in H1 as ([] & s3 & _ & H1). by injection H1 as <- <-. }
    destruct (skept_step D s s1 K1 Hi) as [Hi1 Kn1].
    assert (Sf : safe D [] (snapshot ← _append_locked E RAW_COMPLETED (root_sha256 m);
      check (negb (bool_decide (sn_observation_manifest_sha256 snapshot = Some (root_sha256 m))))
        (SessionError "observation_manifest_binding_mismatch") ≫= fun _ => mret m) (fun _ => [])).
    { apply (sbind_safe _ _ _ _ (fun sn => [Some sn])).
      - apply append_locked_safe; [done|]. by apply keeps_other; intros [].
      - intros sn. apply safe_check. intros _. apply safe_ret. intros x Hx. by apply not_elem_of_nil in Hx. }
    destruct (Sf _ _ _ H Hi1 ltac:(done)) as [[Hi2 Kn2] P2]. split; [|done]. split; [done|auto].
  - split; [by apply skept_step|]. by intros.
  - within_auto; [apply arch_skept, publish_manifest_kept|apply arch_skept, kept_seal].
Qed.

Lemma load_frozen_manifest_within : within (sstep D) (load_frozen_manifest E).
Proof.
  unfold load_frozen_manifest. within_auto; [apply snapshot_property_within|apply within_skept, activate_skept].
Qed.

Lemma resolve_interrupted_attempt_within : within (sstep D) (resolve_interrupted_attempt E).
Proof.
  unfold resolve_interrupted_attempt. within_auto; try apply state_property_within; apply append_within; by intros [].
Qed.

Lemma view_one_reads q p : reads (view_one E q p).
Proof. unfold view_one. within_auto. all: apply arch_reads, read_bytes_reads. Qed.

Lemma view_loop_reads n q p v : reads (view_loop E n q p v).
Proof.
  revert q p v. induction n as [|n IH]; intros q p v; cbn [view_loop]; within_auto. apply view_one_reads.
Qed.

Lemma event_view_within q : within (sstep D) (event_view E q).
Proof.
  unfold event_view. within_auto;
    [apply reads_step, require_session_open_reads|apply snapshot_property_within|apply reads_step, view_loop_reads].
Qed.

Lemma last_event_view_within : within (sstep D) (last_event_view E).
Proof. unfold last_event_view. within_auto; [apply snapshot_property_within|apply event_view_within|apply snapshot_property_within]. Qed.

Lemma acquire_lock_skept : within skept _acquire_lock.
Proof. unfold _acquire_lock. within_auto. Qed.

Lemma close_skept : within skept close.
Proof.
  unfold close. within_auto.
Qed.

Lemma new_object_within : within (sstep D) new_object.
Proof. intros s [Hi Hm]. split; [|done]. by constructor. Qed.

(** Creating the lock file, directly below the root, leaves the journal. *)
Lemma create_lock_kept : within (kept [JOURNAL_DIRECTORY]) (create_lock_file E LOCK_FILE).
Proof.
  intros h p Hp. destruct (create_lock_file E LOCK_FILE h) as [o h'] eqn:C. cbn [snd].
  apply create_lock_file_cases in C as [-> | (parts & HP & _ & _ & ->)]; [done|].
  assert (X : _relative_parts LOCK_FILE = Ok [LOCK_FILE]) by (vm_compute; reflexivity). rewrite X in HP. injection HP as <-.
  rewrite lookup_insert_ne; [done|]. by intros <-.
Qed.

Lemma ensure_directory_kept relative : within (kept [JOURNAL_DIRECTORY]) (ensure_directory E relative).
Proof. apply dirs_only_kept, ensure_directory_within. Qed.

Lemma create_within root intent : within (sstep D) (create E root intent).
Proof.
  apply (within_safe D _ (fun _ => [])). unfold create. apply safe_result. intros b Hb. apply require_sha256_ok in Hb as [_ Hb].
  apply safe_within. within_auto.
  - apply new_object_within.
  - apply within_skept, arch_skept. eapply within_impl; [|apply archive_create_files]. apply same_files_kept.
  - apply within_skept, arch_skept, create_lock_kept.
  - apply within_skept, acquire_lock_skept.
  - apply within_skept, arch_skept, ensure_directory_kept.
  - eapply within_safe, append_locked_safe; [done|]. by apply keeps_other; intros [].
  - apply within_skept, close_skept.
Qed.

End Safety.
