(* ===== verification/Recovery.v ===== *)
(** * Recovery of capture sessions

    The part of src/scripts/physical_capture/session.py that opens a session
    again: the resolution intents of the recovery directory, the quarantine of a
    session that never started, the one pending event a crash may have left, and
    [open] and [recover] themselves. *)

From S2P Require Import Prelude Sha256 Text Json DateTime Effects Archive Observation Journal Session.

Section Recovery.
Context (E : env) (root : str).

(** ** Resolution intents *)

Definition resolution_name (sequence : Z) : str := u "journal-" ++ event_name sequence.
Definition _resolution_intent_relative (sequence : Z) : str := RECOVERY_DIRECTORY ++ 47 :: resolution_name sequence.

Definition intent_dict (pending : PendingFile) (snapshot : SessionSnapshot) (observed : bytes) (event : CaptureEvent)
  (action : string) : json :=
  JObj [(u "schema_version", JInt JOURNAL_RESOLUTION_SCHEMA_VERSION);
        (u "document", JStr JOURNAL_RESOLUTION_DOCUMENT);
        (u "archive_root", JStr root);
        (u "sequence", JInt (sn_sequence snapshot + 1));
        (u "from_state", JStr (state_value (sn_state snapshot)));
        (u "previous_event_sha256", JStr (sn_last_event_sha256 snapshot));
        (u "pending_relative_path", JStr (pf_relative_path pending));
        (u "pending_final_relative_path", JStr (pf_final_relative_path pending));
        (u "pending_size", JInt (len observed));
        (u "pending_sha256", JStr (hexdigest observed));
        (u "action", JStr (u action));
        (u "resolution_event", JStr (event_value event))].

Definition _resolution_intent_bytes (pending : PendingFile) (snapshot : SessionSnapshot) (observed : bytes)
  (event : CaptureEvent) (action : string) : result pyexn bytes :=
  match canonical_json (intent_dict pending snapshot observed event action) with
  | Some b => Ok (b ++ [x0a])
  | None => Err (SessionError "journal_resolution_intent_invalid")
  end.

Definition _INTENT_FIELDS : list str :=
  [u "schema_version"; u "document"; u "archive_root"; u "sequence"; u "from_state"; u "previous_event_sha256";
   u "pending_relative_path"; u "pending_final_relative_path"; u "pending_size"; u "pending_sha256"; u "action";
   u "resolution_event"].

(** The pending name of the event of number [sequence]. *)
Definition pending_event_path (sequence : Z) (v : json) : bool :=
  match v with
  | JStr s =>
      match split_slash s with
      | [dir; name] =>
          str_eqb dir JOURNAL_DIRECTORY && bool_decide (_PENDING_RE name = Some (event_name sequence))
      | _ => false
      end
  | _ => false
  end.

Definition action_allowed (event : CaptureEvent) (action : json) (state : CaptureState) : bool :=
  match event with
  | PRE_SEND_ATTEMPT_DISCARDED => json_is action (JStr (u "pre-send-attempt-not-published")) && is_prepared state
  | E_NONCE_OUTCOME_UNKNOWN => json_is action (JStr (u "partial-event-after-attempt")) && bool_decide (state = NONCE_ATTEMPTED)
  | E_RECEIPT_OUTCOME_UNKNOWN => json_is action (JStr (u "partial-event-after-attempt")) && bool_decide (state = RECEIPT_ATTEMPTED)
  | SESSION_ABANDONED => json_is action (JStr (u "partial-event-abandoned")) && is_abandonable state
  | _ => false
  end.

Definition _validate_resolution_intent_value (value : json) (data : bytes)
  : result pyexn (Z * CaptureState * CaptureEvent) :=
  let invalid := SessionError "journal_resolution_intent_invalid" in
  match value with
  | JObj l =>
      raise_if negb (same_fields _INTENT_FIELDS l) with invalid ;;
      match state_of_value (field l "from_state"), event_of_value (field l "resolution_event"), field l "sequence" with
      | Some state, Some event, JInt sequence =>
          raise_if negb (is_int (obj_get l (u "schema_version")) JOURNAL_RESOLUTION_SCHEMA_VERSION &&
                         is_str (obj_get l (u "document")) JOURNAL_RESOLUTION_DOCUMENT &&
                         is_str (obj_get l (u "archive_root")) root &&
                         (1 <=? sequence) && (sequence <=? MAX_JOURNAL_EVENTS) &&
                         match canonical_json value with Some b => bool_decide (b ++ [x0a] = data) | None => false end)
            with invalid ;;
          _ ← _require_sha256 (field l "previous_event_sha256");
          raise_if negb (is_str (obj_get l (u "pending_final_relative_path")) (event_relative sequence) &&
                         pending_event_path sequence (field l "pending_relative_path") &&
                         match field l "pending_size" with JInt z => (0 <=? z) && (z <=? MAX_EVENT_BYTES) | _ => false end)
            with invalid ;;
          _ ← _require_sha256 (field l "pending_sha256");
          raise_if negb (action_allowed event (field l "action") state) with invalid ;;
          _ ← _transition_for event (Some state);
          Ok (sequence, state, event)
      | _, _, _ => Err invalid
      end
  | _ => Err invalid
  end.

(** The names of the recovery directory: published ones and pending ones. *)
Definition _resolution_namespace : M session (list str * list PendingFile) :=
  names ← try_except (n ← arch (list_names E RECOVERY_DIRECTORY); mret (Some n))
    (fun e => if bool_decide (e = ArchiveError "directory_not_found") then mret None
              else if is_archive_error e then SE "journal_resolution_namespace_unreadable" else raise e);
  match names with
  | None => mret ([], [])
  | Some names =>
      pending ← translate is_archive_error (SessionError "journal_resolution_namespace_unreadable")
        (arch (pending_files E RECOVERY_DIRECTORY));
      let pending_names := map (fun item => path_name (pf_relative_path item)) pending in
      let finals := List.filter (fun name => negb (existsb (str_eqb name) pending_names)) names in
      let known name := str_eqb name UNINITIALIZED_TOMBSTONE_NAME || is_some (_JOURNAL_RESOLUTION_FILE_RE name) in
      check (negb (length (remove_dups pending_names) =? length pending)%nat ||
             negb (forallb (fun name => existsb (str_eqb name) (finals ++ pending_names)) names &&
                   forallb (fun name => existsb (str_eqb name) names) (finals ++ pending_names)) ||
             negb (forallb known finals) ||
             negb (forallb (fun item => known (path_name (pf_final_relative_path item))) pending))
        (SessionError "journal_resolution_namespace_invalid") ≫= fun _ =>
      mret (sort_strs finals, pending)
  end.

Definition _write_or_reopen_resolution_intent (pending_event : PendingFile) (snapshot : SessionSnapshot) (observed : bytes)
  (event : CaptureEvent) (action : string) : M session str :=
  data ← of_result (_resolution_intent_bytes pending_event snapshot observed event action);
  let relative := _resolution_intent_relative (sn_sequence snapshot + 1) in
  '(finals, recovery_pending) ← _resolution_namespace;
  let target_pending := List.filter (fun item => str_eqb (pf_final_relative_path item) relative) recovery_pending in
  check (existsb (fun item => negb (bool_decide (item ∈ target_pending))) recovery_pending)
    (SessionError "journal_resolution_namespace_invalid") ≫= fun _ =>
  (if existsb (str_eqb (path_name relative)) finals then
     check (negb (bool_decide (target_pending = []))) (SessionError "journal_resolution_namespace_invalid") ≫= fun _ =>
     previous ← translate is_archive_error (SessionError "journal_resolution_intent_unreadable")
       (arch (read_bytes E relative MAX_RECOVERY_BYTES));
     check (negb (bool_decide (previous = data))) (SessionError "journal_resolution_intent_invalid")
   else
     match target_pending with
     | [] =>
         translate is_archive_error (SessionError "journal_resolution_intent_failed")
           (_ ← arch (write_bytes E relative data MAX_RECOVERY_BYTES); mret ())
     | candidate :: rest =>
         check (negb (bool_decide (rest = []))) (SessionError "journal_resolution_namespace_invalid") ≫= fun _ =>
         previous ← translate is_archive_error (SessionError "journal_resolution_intent_unreadable")
           (arch (read_pending_fragment E candidate MAX_RECOVERY_BYTES));
         if bool_decide (previous = data) then arch (publish_pending E candidate)
         else if starts_with previous data then
           arch (discard_pending E candidate) ≫= fun _ =>
           _ ← arch (write_bytes E relative data MAX_RECOVERY_BYTES); mret ()
         else SE "journal_resolution_intent_invalid"
     end) ≫= fun _ =>
  reopened ← translate is_archive_error (SessionError "journal_resolution_intent_unreadable")
    (arch (read_bytes E relative MAX_RECOVERY_BYTES));
  check (negb (bool_decide (reopened = data))) (SessionError "journal_resolution_intent_invalid") ≫= fun _ =>
  mret (hexdigest data).

(** Reading a published intent: its bytes, its dict and what it says. *)
Definition read_intent (relative : str) : M session (bytes * list (str * json) * (Z * CaptureState * CaptureEvent)) :=
  '(data, value) ← translate (fun e => is_archive_error e || bool_decide (e = RawArtifactError))
    (SessionError "journal_resolution_intent_unreadable")
    (data ← arch (read_bytes E relative MAX_RECOVERY_BYTES);
     value ← of_option RawArtifactError (load_json_bytes data);
     mret (data, value));
  parsed ← of_result (_validate_resolution_intent_value value data);
  mret (data, dict_items value, parsed).

Definition _matching_resolution_intent (snapshot : SessionSnapshot) : M session (option (CaptureEvent * str)) :=
  let relative := _resolution_intent_relative (sn_sequence snapshot + 1) in
  '(finals, pending) ← _resolution_namespace;
  if negb (bool_decide (pending = [])) || negb (existsb (str_eqb (path_name relative)) finals) then mret None
  else
    '(data, value, parsed) ← read_intent relative;
    let '(sequence, state, event) := parsed in
    check (negb (sequence =? sn_sequence snapshot + 1) || negb (bool_decide (state = sn_state snapshot)) ||
           negb (json_is (field value "previous_event_sha256") (JStr (sn_last_event_sha256 snapshot))))
      (SessionError "journal_resolution_intent_invalid") ≫= fun _ =>
    mret (Some (event, hexdigest data)).

Definition _require_matching_resolution_intent (snapshot : option SessionSnapshot) (event : CaptureEvent) : M session () :=
  match snapshot with
  | None => SE "journal_resolution_intent_missing"
  | Some s =>
      matching ← _matching_resolution_intent s;
      match matching with
      | Some (e, _) => check (negb (bool_decide (e = event))) (SessionError "journal_resolution_intent_missing")
      | None => SE "journal_resolution_intent_missing"
      end
  end.

(** The published intents, with the sequence number their names carry. *)
Fixpoint read_intents (finals : list str) : M session (list (Z * list (str * json) * bytes * CaptureEvent)) :=
  match finals with
  | [] => mret []
  | name :: finals =>
      check (str_eqb name UNINITIALIZED_TOMBSTONE_NAME) (SessionError "journal_resolution_namespace_invalid") ≫= fun _ =>
      number ← of_option (SessionError "journal_resolution_namespace_invalid") (_JOURNAL_RESOLUTION_FILE_RE name);
      '(data, value, parsed) ← read_intent (RECOVERY_DIRECTORY ++ 47 :: name);
      let '(sequence, _, event) := parsed in
      check (negb (sequence =? number)) (SessionError "journal_resolution_intent_invalid") ≫= fun _ =>
      records ← read_intents finals;
      mret ((sequence, value, data, event) :: records)
  end.

(** The dict of a committed event. *)
Definition read_event (sequence : Z) : M session json :=
  translate (fun e => is_archive_error e || bool_decide (e = RawArtifactError))
    (SessionError "journal_resolution_event_unreadable")
    (data ← arch (read_bytes E (event_relative sequence) MAX_EVENT_BYTES);
     of_option RawArtifactError (load_json_bytes data)).

(** Every committed discard has its intent. *)
Fixpoint scan_bindings (n : nat) (sequence : Z) (record_sequences : list Z) : M session () :=
  match n with
  | O => mret ()
  | S n =>
      value ← read_event sequence;
      check (json_is (field (dict_items value) "event") (JStr (event_value PRE_SEND_ATTEMPT_DISCARDED)) &&
             negb (existsb (Z.eqb sequence) record_sequences))
        (SessionError "journal_resolution_intent_missing") ≫= fun _ =>
      scan_bindings n (sequence + 1) record_sequences
  end.

(** [value == sequence] for a number of Python. *)
Definition json_is_int (v : json) (z : Z) : bool :=
  match v with
  | JInt n => n =? z
  | JBool b => (if b then 1 else 0) =? z
  | JFloat f => let '(a, b) := scale 2 (f_man f) 1 (f_exp f) in (if f_neg f then - a else a) =? z * b
  | _ => false
  end.

Fixpoint complete_intents (records : list (Z * list (str * json) * bytes * CaptureEvent)) (snapshot : SessionSnapshot)
  (complete_unresolved : bool) : M session SessionSnapshot :=
  match records with
  | [] => mret snapshot
  | (sequence, value, data, event) :: records =>
      let intent_sha256 := hexdigest data in
      if sequence <=? sn_sequence snapshot then
        journal_value ← read_event sequence;
        let j := dict_items journal_value in
        check (negb (json_is_int (field j "sequence") sequence) ||
               negb (json_is (field j "event") (JStr (event_value event))) ||
               negb (json_is (field j "from_state") (field value "from_state")) ||
               negb (json_is (field j "previous_event_sha256") (field value "previous_event_sha256")) ||
               negb (json_is (field j "binding_sha256") (JStr intent_sha256)))
          (SessionError "journal_resolution_event_invalid") ≫= fun _ =>
        complete_intents records snapshot complete_unresolved
      else
        check (negb (sequence =? sn_sequence snapshot + 1) ||
               negb (json_is (field value "from_state") (JStr (state_value (sn_state snapshot)))) ||
               negb (json_is (field value "previous_event_sha256") (JStr (sn_last_event_sha256 snapshot))))
          (SessionError "journal_resolution_sequence_invalid") ≫= fun _ =>
        check (negb complete_unresolved) (SessionError "journal_resolution_recovery_required") ≫= fun _ =>
        modify (set_snapshot (Some snapshot)) ≫= fun _ =>
        next ← append E event intent_sha256;
        complete_intents records next complete_unresolved
  end.

Definition record_le (a b : Z * list (str * json) * bytes * CaptureEvent) : Prop := fst (fst (fst a)) <= fst (fst (fst b)).
#[export] Instance record_le_dec a b : Decision (record_le a b).
Proof. unfold record_le. apply _. Defined.

(** [sorted(records)]: the names, hence the sequence numbers, are distinct. *)
Definition _replay_resolution_intents (snapshot : option SessionSnapshot) (complete_unresolved : bool)
  : M session (option SessionSnapshot) :=
  '(finals, pending) ← _resolution_namespace;
  check (negb (bool_decide (pending = []))) (SessionError "journal_resolution_recovery_required") ≫= fun _ =>
  records ← read_intents finals;
  match snapshot with
  | None =>
      match records with
      | [] => mret None
      | _ => SE "journal_resolution_intent_invalid"
      end
  | Some s =>
      scan_bindings (Z.to_nat (sn_sequence s)) 1 (map (fun r => fst (fst (fst r))) records) ≫= fun _ =>
      final ← complete_intents (merge_sort record_le records) s complete_unresolved;
      mret (Some final)
  end.

Definition resolution_binding_for_last_event (event : CaptureEvent) : M session (option str) :=
  require_session_open ≫= fun _ =>
  snapshot ← snapshot_property E;
  _ ← _replay_resolution_intents (Some snapshot) false;
  let relative := _resolution_intent_relative (sn_sequence snapshot) in
  '(finals, pending) ← _resolution_namespace;
  check (negb (bool_decide (pending = []))) (SessionError "journal_resolution_recovery_required") ≫= fun _ =>
  if negb (existsb (str_eqb (path_name relative)) finals) then mret None
  else
    '(data, _, parsed) ← read_intent relative;
    let '(sequence, _, resolution_event) := parsed in
    check (negb (sequence =? sn_sequence snapshot) || negb (bool_decide (resolution_event = event)) ||
           negb (str_eqb (hexdigest data) (sn_last_binding_sha256 snapshot)))
      (SessionError "journal_resolution_event_invalid") ≫= fun _ =>
    mret (Some (hexdigest data)).

(** ** Quarantine of a session that never started *)

Definition tombstone_dict : json :=
  JObj [(u "schema_version", JInt 1);
        (u "document", JStr UNINITIALIZED_TOMBSTONE_DOCUMENT);
        (u "archive_root", JStr root);
        (u "pending_final_relative_path", JStr (event_relative 1));
        (u "action", JStr (u "uninitialized-session-quarantined"))].

Definition _uninitialized_tombstone_bytes : result pyexn bytes :=
  match canonical_json tombstone_dict with
  | Some b => Ok (b ++ [x0a])
  | None => Err (SessionError "uninitialized_quarantine_failed")
  end.

Definition _validate_uninitialized_tombstone (data : bytes) : M session () :=
  expected ← of_result _uninitialized_tombstone_bytes;
  check (negb (bool_decide (data = expected))) (SessionError "uninitialized_quarantine_invalid").

Definition _has_uninitialized_tombstone : M session bool :=
  names ← try_except (n ← arch (list_names E RECOVERY_DIRECTORY); mret (Some n))
    (fun e => if bool_decide (e = ArchiveError "directory_not_found") then mret None
              else if is_archive_error e then SE "uninitialized_quarantine_unreadable" else raise e);
  match names with
  | None => mret false
  | Some names =>
      if bool_decide (names = [UNINITIALIZED_TOMBSTONE_NAME]) then
        data ← translate is_archive_error (SessionError "uninitialized_quarantine_unreadable")
          (arch (read_bytes E UNINITIALIZED_TOMBSTONE_RELATIVE MAX_RECOVERY_BYTES));
        _validate_uninitialized_tombstone data ≫= fun _ => mret true
      else check (negb (bool_decide (names = []))) (SessionError "uninitialized_quarantine_invalid") ≫= fun _ => mret false
  end.

(** The root of an archive whose session never started. *)
Definition uninitialized_root (root_names : list str) : bool :=
  let exactly l := forallb (fun n => existsb (str_eqb n) l) root_names && forallb (fun n => existsb (str_eqb n) root_names) l in
  exactly [JOURNAL_DIRECTORY; LOCK_FILE] || exactly [JOURNAL_DIRECTORY; RECOVERY_DIRECTORY; LOCK_FILE].

(** Publishing the tombstone, or finishing an interrupted publication of it. *)
Definition publish_tombstone (expected : bytes) (names : list str) : M session () :=
  let write := _ ← arch (write_bytes E UNINITIALIZED_TOMBSTONE_RELATIVE expected MAX_RECOVERY_BYTES); mret () in
  match names with
  | [] => write
  | _ =>
      if bool_decide (names = [UNINITIALIZED_TOMBSTONE_NAME]) then
        data ← arch (read_bytes E UNINITIALIZED_TOMBSTONE_RELATIVE MAX_RECOVERY_BYTES);
        _validate_uninitialized_tombstone data
      else
        recovery_pending ← arch (pending_files E RECOVERY_DIRECTORY);
        match recovery_pending with
        | [recovery] =>
            check (negb (length names =? 1)%nat ||
                   negb (str_eqb (pf_final_relative_path recovery) UNINITIALIZED_TOMBSTONE_RELATIVE))
              (SessionError "uninitialized_quarantine_invalid") ≫= fun _ =>
            data ← arch (read_pending_fragment E recovery MAX_RECOVERY_BYTES);
            if bool_decide (data = expected) then arch (publish_pending E recovery)
            else if starts_with data expected then arch (discard_pending E recovery) ≫= fun _ => write
            else SE "uninitialized_quarantine_invalid"
        | _ => SE "uninitialized_quarantine_invalid"
        end
  end.

Definition _quarantine_uninitialized_session (pending : option PendingFile) : M session () :=
  check (match pending with Some p => negb (str_eqb (pf_final_relative_path p) (event_relative 1)) | None => false end)
    (SessionError "uninitialized_quarantine_invalid") ≫= fun _ =>
  expected ← of_result _uninitialized_tombstone_bytes;
  translate is_archive_error (SessionError "uninitialized_quarantine_failed")
    (root_names ← arch list_root_names;
     check (negb (uninitialized_root root_names)) (SessionError "uninitialized_quarantine_invalid") ≫= fun _ =>
     journal_names ← arch (list_names E JOURNAL_DIRECTORY);
     check (negb (bool_decide (journal_names = match pending with None => [] | Some p => [path_name (pf_relative_path p)] end)))
       (SessionError "uninitialized_quarantine_invalid") ≫= fun _ =>
     names ← try_except (arch (list_names E RECOVERY_DIRECTORY))
       (fun e => if bool_decide (e = ArchiveError "directory_not_found") then mret [] else raise e);
     publish_tombstone expected names ≫= fun _ =>
     has ← _has_uninitialized_tombstone;
     check (negb has) (SessionError "uninitialized_quarantine_failed") ≫= fun _ =>
     match pending with Some p => arch (discard_pending E p) | None => mret () end).

(** ** The pending event of an interrupted append *)

Definition _resolve_pending_with_intent (pending : PendingFile) (snapshot : SessionSnapshot) (observed : bytes)
  (event : CaptureEvent) (action : string) : M session () :=
  binding ← _write_or_reopen_resolution_intent pending snapshot observed event action;
  arch (discard_pending E pending) ≫= fun _ =>
  modify (set_snapshot (Some snapshot)) ≫= fun _ =>
  _ ← append E event binding; mret ().

Definition resolution_action (event : CaptureEvent) : option string :=
  match event with
  | PRE_SEND_ATTEMPT_DISCARDED => Some "pre-send-attempt-not-published"
  | E_NONCE_OUTCOME_UNKNOWN | E_RECEIPT_OUTCOME_UNKNOWN => Some "partial-event-after-attempt"
  | SESSION_ABANDONED => Some "partial-event-abandoned"
  | _ => None
  end%string.

Definition _recover_partial_pending (pending : PendingFile) (snapshot : option SessionSnapshot) (observed : bytes)
  : M session () :=
  match snapshot with
  | None =>
      _quarantine_uninitialized_session (Some pending) ≫= fun _ => SE "uninitialized_session_quarantined"
  | Some s =>
      check (is_terminal_state (sn_state s)) (SessionError "pending_after_terminal_state") ≫= fun _ =>
      existing ← _matching_resolution_intent s;
      match existing with
      | Some (event, _) =>
          action ← of_option OtherException (resolution_action event);
          _resolve_pending_with_intent pending s observed event action
      | None =>
          match sn_state s with
          | NONCE_ATTEMPTED =>
              _resolve_pending_with_intent pending s observed E_NONCE_OUTCOME_UNKNOWN "partial-event-after-attempt"
          | RECEIPT_ATTEMPTED =>
              _resolve_pending_with_intent pending s observed E_RECEIPT_OUTCOME_UNKNOWN "partial-event-after-attempt"
          | _ =>
              check (negb (is_abandonable (sn_state s))) (SessionError "pending_recovery_state_invalid") ≫= fun _ =>
              _resolve_pending_with_intent pending s observed SESSION_ABANDONED "partial-event-abandoned"
          end
      end
  end.

(** What reading and validating the pending event gives: the event record, or
    the bytes of an incomplete one. *)
Inductive pending_content :=
  | CompleteEvent (data : bytes)
  | PartialEvent (observed : bytes).

Definition ends_with_newline (data : bytes) : bool := match List.last data x00 with x0a => true | _ => false end.

(** Whether an exception of the validation of [data] means an incomplete write. *)
Definition partial_content (e : pyexn) (data : bytes) (snapshot : option SessionSnapshot) (expected_sequence : Z) : bool :=
  bool_decide (e = SessionError "invalid_journal_json") ||
  (bool_decide (e = SessionError "noncanonical_journal_event") && negb (ends_with_newline data) &&
   match _validate_event_bytes (data ++ [x0a]) snapshot expected_sequence with Ok _ => true | Err _ => false end).

Definition examine_pending (pending : PendingFile) (snapshot : option SessionSnapshot) (expected_sequence : Z)
  (discard_incomplete : bool) : M session pending_content :=
  data ← try_except (d ← arch (read_pending E pending MAX_EVENT_BYTES); mret (CompleteEvent d))
    (fun e =>
      if is_archive_error e then
        check (negb discard_incomplete || negb (bool_decide (e = ArchiveError "archive_file_size")))
          (SessionError "pending_journal_unreadable") ≫= fun _ =>
        fragment ← translate is_archive_error (SessionError "pending_journal_unreadable")
          (arch (read_pending_fragment E pending MAX_EVENT_BYTES));
        mret (PartialEvent fragment)
      else raise e);
  match data with
  | PartialEvent fragment => mret (PartialEvent fragment)
  | CompleteEvent data =>
      try_except
        (recovered ← of_result (_validate_event_bytes data snapshot expected_sequence);
         _ ← _activate_frozen_observations E (Some recovered);
         mret (CompleteEvent data))
        (fun e =>
          if is_session_error e && discard_incomplete && partial_content e data snapshot expected_sequence
          then mret (PartialEvent data) else raise e)
  end.

Definition _recover_one_pending (pending : PendingFile) (snapshot : option SessionSnapshot) (discard_incomplete : bool)
  : M session () :=
  let expected_sequence := next_sequence snapshot in
  check (negb (str_eqb (pf_final_relative_path pending) (event_relative expected_sequence)))
    (SessionError "pending_sequence_mismatch") ≫= fun _ =>
  content ← examine_pending pending snapshot expected_sequence discard_incomplete;
  match content with
  | PartialEvent observed => _recover_partial_pending pending snapshot observed
  | CompleteEvent data =>
      event ← of_option (SessionError "pending_journal_unreadable")
        (value ← load_json_bytes data; event_of_value (field (dict_items value) "event"));
      if bool_decide (event = NONCE_ATTEMPT_STARTED) || bool_decide (event = RECEIPT_ATTEMPT_STARTED) then
        match snapshot with
        | Some s =>
            check (negb (is_prepared (sn_state s))) (SessionError "pending_attempt_state_invalid") ≫= fun _ =>
            _resolve_pending_with_intent pending s data PRE_SEND_ATTEMPT_DISCARDED "pre-send-attempt-not-published"
        | None => SE "pending_attempt_state_invalid"
        end
      else
        (if bool_decide (event = PRE_SEND_ATTEMPT_DISCARDED)
         then _require_matching_resolution_intent snapshot event else mret ()) ≫= fun _ =>
        arch (publish_pending E pending)
  end.

(** ** Opening *)

Definition open : M session () :=
  new_object ≫= fun _ =>
  arch (archive_open root) ≫= fun _ =>
  on_exception
    (arch (open_lock_file E LOCK_FILE) ≫= fun _ =>
     _acquire_lock ≫= fun _ =>
     pending ← arch (pending_files E JOURNAL_DIRECTORY);
     check (negb (bool_decide (pending = []))) (SessionError "journal_recovery_required") ≫= fun _ =>
     snapshot ← _replay_final_events E false;
     modify (set_snapshot snapshot) ≫= fun _ =>
     snapshot ← _replay_resolution_intents snapshot false;
     modify (set_snapshot snapshot) ≫= fun _ =>
     _ ← _activate_frozen_observations E snapshot; mret ())
    close.

(** The checks of [recover] before the journal is read: the lock, and the
    quarantine of an archive that holds nothing else. *)
Definition recover_lock : M session () :=
  root_names ← arch list_root_names;
  (if existsb (str_eqb LOCK_FILE) root_names then arch (open_lock_file E LOCK_FILE)
   else check (negb (bool_decide (root_names = []))) (SessionError "uninitialized_archive_invalid") ≫= fun _ =>
        arch (create_lock_file E LOCK_FILE)) ≫= fun _ =>
  _acquire_lock ≫= fun _ =>
  root_names ← arch list_root_names;
  (if existsb (str_eqb JOURNAL_DIRECTORY) root_names then mret ()
   else check (negb (bool_decide (remove_dups root_names = [LOCK_FILE]))) (SessionError "uninitialized_archive_invalid") ≫= fun _ =>
        arch (ensure_directory E JOURNAL_DIRECTORY)) ≫= fun _ =>
  journal_names ← arch (list_names E JOURNAL_DIRECTORY);
  match journal_names with
  | [] =>
      root_names ← arch list_root_names;
      if uninitialized_root root_names then
        _quarantine_uninitialized_session None ≫= fun _ => SE "uninitialized_session_quarantined"
      else mret ()
  | _ => mret ()
  end.

Definition recover (discard_incomplete : bool) : M session () :=
  new_object ≫= fun _ =>
  arch (archive_open root) ≫= fun _ =>
  on_exception
    (recover_lock ≫= fun _ =>
     pending ← arch (pending_files E JOURNAL_DIRECTORY);
     check (1 <? length pending)%nat (SessionError "ambiguous_pending_journal") ≫= fun _ =>
     snapshot ← _replay_final_events E (negb (bool_decide (pending = [])));
     snapshot ← match pending with
                | [] => mret snapshot
                | p :: _ =>
                    _recover_one_pending p snapshot discard_incomplete ≫= fun _ =>
                    _replay_final_events E false
                end;
     snapshot ← _replay_resolution_intents snapshot true;
     modify (set_snapshot snapshot) ≫= fun _ =>
     _ ← _activate_frozen_observations E snapshot; mret ())
    close.

Definition uninitialized_quarantined : M session bool :=
  new_object ≫= fun _ =>
  arch (archive_open root) ≫= fun _ =>
  finally
    (arch (open_lock_file E LOCK_FILE) ≫= fun _ =>
     _acquire_lock ≫= fun _ =>
     root_names ← arch list_root_names;
     if bool_decide (root_names = [JOURNAL_DIRECTORY; RECOVERY_DIRECTORY; LOCK_FILE]) then
       journal_names ← arch (list_names E JOURNAL_DIRECTORY);
       if bool_decide (journal_names = []) then _has_uninitialized_tombstone else mret false
     else mret false)
    close.

End Recovery.
