(* ===== verification/RecoveryProofs.v ===== *)
(** * What recovery keeps

    Opening and recovering a session keep the invariant of [SessionProofs]: the
    published journal is a history that only grows, and recovery publishes a
    pending record only if it is the next one; a pending attempt is never
    published. *)

From S2P Require Import Prelude Sha256 Text Json DateTime Effects Archive ArchiveProofs.
From S2P Require Import Observation Journal JournalHistory Session Recovery JournalStore SessionProofs.

(** ** Pending files of a directory *)

(** A pending file as [pending_files] reports it for [dir]. *)
Definition in_dir (dir : str) (p : PendingFile) : Prop :=
  exists name final, split_slash (pf_relative_path p) = [dir; name] /\ _PENDING_RE name = Some final /\
    pf_final_relative_path p = dir ++ 47 :: final.

Section Pending.
Context (E : env).

Lemma list_names_ret dir h names h' :
  list_names E dir h = (Ret names, h') -> Forall (fun n => unsafe_name n = false) names.
Proof.
  unfold list_names. intros H. do 3 (apply bind_ret_inv in H as (? & ? & _ & H)).
  apply bind_ret_inv in H as ([] & h1 & H1 & H). apply check_ret in H1 as [H1 _]. injection H as <- <-.
  apply Forall_forall. intros n Hn. rewrite elem_of_sort_strs in Hn. apply not_true_iff_false. intros X.
  apply not_true_iff_false in H1. apply H1, existsb_exists. exists n. split; [by apply list_elem_of_In|done].
Qed.

Lemma pending_files_ret dir h l h' :
  47 ∉ dir -> pending_files E dir h = (Ret l, h') -> Forall (in_dir dir) l.
Proof.
  intros Hd H. unfold pending_files in H. apply bind_ret_inv in H as (names & h1 & H1 & H). injection H as <- <-.
  apply list_names_ret in H1. apply Forall_forall. intros p Hp. apply list_elem_of_omap in Hp as (name & Hn & Hp).
  rewrite Forall_forall in H1. apply H1, safe_no_slash in Hn.
  apply (pending_in_path [dir] name) in Hp as (Hs & final & Hf & Hfin); [|done|by constructor|done].
  exists name, final. split; [exact Hs|]. split; [done|exact Hfin].
Qed.

(** A pending file of another directory. *)
Lemma in_dir_kept_discard dir p :
  in_dir dir p -> dir <> JOURNAL_DIRECTORY -> within (kept [JOURNAL_DIRECTORY]) (discard_pending E p).
Proof. intros (name & final & Hs & _) Hd. apply discard_pending_kept. rewrite Hs. cbn [removelast]. congruence. Qed.

Lemma in_dir_kept_publish dir p :
  in_dir dir p -> dir <> JOURNAL_DIRECTORY -> within (kept [JOURNAL_DIRECTORY]) (publish_pending E p).
Proof. intros (name & final & Hs & _) Hd. apply publish_pending_kept. rewrite Hs. cbn [removelast]. congruence. Qed.

(** A path below another directory. *)
Lemma other_dir_parts dir name parts :
  47 ∉ dir -> dir <> JOURNAL_DIRECTORY -> _relative_parts (dir ++ 47 :: name) = Ok parts -> removelast parts <> [JOURNAL_DIRECTORY].
Proof.
  intros Hd Hn H. apply relative_parts_ok in H as (-> & _). unfold split_slash. rewrite split_slash_from_app by done.
  cbn [app]. pose proof (split_slash_from_ne [] name) as Hne. destruct (split_slash_from [] name); [done|]. cbn [removelast]. congruence.
Qed.

Lemma write_other_kept dir name data maximum :
  47 ∉ dir -> dir <> JOURNAL_DIRECTORY -> within (kept [JOURNAL_DIRECTORY]) (write_bytes E (dir ++ 47 :: name) data maximum).
Proof. intros Hd Hn. apply write_bytes_kept. intros parts. by apply other_dir_parts. Qed.

Lemma recovery_plain : 47 ∉ RECOVERY_DIRECTORY.
Proof. apply (bool_decide_eq_true_1 (47 ∉ RECOVERY_DIRECTORY)). vm_compute. reflexivity. Qed.
Lemma journal_plain : 47 ∉ JOURNAL_DIRECTORY.
Proof. apply (bool_decide_eq_true_1 (47 ∉ JOURNAL_DIRECTORY)). vm_compute. reflexivity. Qed.
Lemma recovery_not_journal : RECOVERY_DIRECTORY <> JOURNAL_DIRECTORY.
Proof. done. Qed.

(** A pending file of the journal. *)
Lemma in_dir_loose p : in_dir JOURNAL_DIRECTORY p -> loose_path (split_slash (pf_relative_path p)).
Proof.
  intros (name & final & Hs & Hre & _). rewrite Hs. split; [done|]. intros q Hq [= ->].
  pose proof (event_name_component q Hq) as C. unfold _PENDING_RE in Hre. destruct (event_name q) as [|c r]; [done|].
  destruct (c =? 46) eqn:Ec; [|done]. apply Z.eqb_eq in Ec as ->. done.
Qed.

Lemma discard_journal_within D p :
  in_dir JOURNAL_DIRECTORY p -> within (sstep D) (arch (discard_pending E p)).
Proof.
  intros Hp s. destruct (arch (discard_pending E p) s) as [o s'] eqn:H. cbn [snd]. apply arch_run in H as (Hs & H).
  apply discard_pending_cases in H as [[F _] | [F _]].
  - apply skept_step. split; [|by rewrite Hs]. intros x _. by rewrite F.
  - intros [[l St] Hm]. pose proof (store_removed D _ (s_host s') l _ (in_dir_loose p Hp) F St) as St'.
    assert (Kn : forall x, known (s_host s) x -> known (s_host s') x).
    { intros x (l0 & k & J0 & B0 & R0). rewrite (journal_unique _ _ _ J0 (st_files _ _ _ St) B0 (st_bound _ _ _ St)) in R0.
      exists l, k. split; [apply (st_files _ _ _ St')|]. split; [apply (st_bound _ _ _ St)|done]. }
    split; [|done]. constructor; [by exists l|]. rewrite Hs. cbn. intros sn Hsn. by apply Kn, Hm.
Qed.

(** Publishing a pending record that validates as the next one. *)
Lemma publish_journal_cases D p current data next s o s' :
  in_dir JOURNAL_DIRECTORY p -> sinv D s -> known (s_host s) current ->
  pf_final_relative_path p = event_relative (next_sequence current) ->
  h_files (s_host s) !! split_slash (pf_relative_path p) = Some data ->
  _validate_event_bytes data current (next_sequence current) = Ok next ->
  arch (publish_pending E p) s = (o, s') ->
  sinv D s' /\ forall x, known (s_host s) x -> known (s_host s') x.
Proof.
  intros Hp Hi HK Hfin Hdata HV H. destruct Hi as [[l St] Hm]. apply arch_run in H as (Hs & H).
  destruct (known_sequence _ _ _ (st_files _ _ _ St) (st_bound _ _ _ St) HK) as (HR & Hr & _).
  set (q := next_sequence current) in *. pose proof (st_bound _ _ _ St) as HB. unfold MAX_JOURNAL_EVENTS in HB.
  pose proof (in_dir_loose p Hp) as HL. set (src := split_slash (pf_relative_path p)) in *.
  assert (Hloose : loose (s_host s) src data) by (destruct HL; done).
  destruct (st_loose _ _ _ St src data current q next Hloose) as [_ HM]; [lia|done|].
  assert (Hdst : split_slash (pf_final_relative_path p) = ev_path q).
  { rewrite Hfin. pose proof (event_relative_parts q ltac:(lia)) as X. by apply relative_parts_ok in X as (-> & _). }
  apply publish_pending_cases in H. cbv zeta in H. fold src in H. rewrite Hdst, Hdata in H.
  destruct H as [[F _] | (d & [= <-] & Hpr & _ & _ & _ & F)].
  - apply skept_step; [|by constructor; [exists l|]]. split; [|by rewrite Hs]. intros x _. by rewrite F.
  - apply present_none in Hpr. pose proof (journal_absent _ _ q (st_files _ _ _ St) ltac:(lia) Hpr) as HA.
    assert (EQ : q = len l + 1) by lia.
    destruct (validate_follows _ _ _ _ HV) as (event & t & b & HF).
    assert (NR : next_record l event data (len l + 1) next) by (exists current, t, b; rewrite <-EQ; split_and!; [done|lia|lia|done|done]).
    assert (HRl : replay l = Ok current) by (rewrite take_ge in HR by (unfold len in *; lia); done).
    assert (HD : keeps_doubt D event).
    { intros nonce Hn. destruct (st_doubt _ _ _ St nonce Hn) as (sn & Hsn & _ & Hq). rewrite HRl in Hsn. injection Hsn as ->.
      eapply (Hq src data); [done|]. rewrite <-EQ. exact HF. }
    set (hm := with_files (delete src (h_files (s_host s))) (s_host s)).
    pose proof (store_removed D (s_host s) hm l src HL eq_refl St) as Stm.
    rewrite EQ in F. destruct (store_extended D hm (s_host s') l event data next NR HD F Stm) as (St' & R' & FR).
    assert (Kn : forall x, known (s_host s) x -> known (s_host s') x).
    { intros x. apply (known_extend _ _ l data); [apply (st_files _ _ _ St) | apply (st_bound _ _ _ St) |
        apply (st_files _ _ _ St') | apply (st_bound _ _ _ St')]. }
    split; [|done]. constructor; [by exists (l ++ [data])|]. rewrite Hs. cbn. intros sn Hsn. by apply Kn, Hm.
Qed.

End Pending.

(** ** Resolution intents *)

Section Operations.
Context (E : env) (root : str) (D : doubt).
Hypothesis clock : forall n, valid_datetime (e_now E n) = true.

Lemma resolution_namespace_reads : reads (_resolution_namespace E).
Proof.
  unfold _resolution_namespace. within_auto; apply arch_reads; eauto with pyres.
Qed.

Lemma resolution_namespace_ret s a s' :
  _resolution_namespace E s = (Ret a, s') -> Forall (in_dir RECOVERY_DIRECTORY) (snd a).
Proof.
  unfold _resolution_namespace. intros H. apply bind_ret_inv in H as ([names|] & s1 & _ & H).
  - apply bind_ret_inv in H as (pending & s2 & H2 & H). apply translate_ret in H2. apply arch_run in H2 as (_ & H2).
    apply pending_files_ret in H2; [|apply recovery_plain]. apply bind_ret_inv in H as ([] & s3 & _ & H). by injection H as <- <-.
  - by injection H as <- <-.
Qed.

#[local] Hint Resolve recovery_plain recovery_not_journal : core.

Lemma write_intent_skept pending sn observed event action :
  within skept (_write_or_reopen_resolution_intent E root pending sn observed event action).
Proof.
  unfold _write_or_reopen_resolution_intent. apply within_bind; [apply _|by apply within_of_result|intros data]. cbv zeta.
  apply (within_bind_when _ (fun a => Forall (in_dir RECOVERY_DIRECTORY) (snd a)));
    [apply reads_skept, resolution_namespace_reads|intros ??? ; apply resolution_namespace_ret|].
  intros [finals recovery_pending] HP. cbn [snd] in HP.
  assert (HC : forall item rest, List.filter (fun item => str_eqb (pf_final_relative_path item)
      (_resolution_intent_relative (sn_sequence sn + 1))) recovery_pending = item :: rest -> in_dir RECOVERY_DIRECTORY item).
  { intros item rest Ht. rewrite Forall_forall in HP. apply HP, list_elem_of_In.
    eapply (proj1 (List.filter_In _ _ _)). rewrite Ht. by left. }
  destruct (List.filter _ _) as [|item rest]; [clear HC|specialize (HC item rest eq_refl)];
    within_auto; first [apply reads_skept, arch_reads; eauto with pyres; fail | apply arch_skept, write_other_kept; by auto |
      apply arch_skept; by eapply in_dir_kept_publish | apply arch_skept; by eapply in_dir_kept_discard].
Qed.

Lemma read_intent_reads relative : reads (read_intent E root relative).
Proof. unfold read_intent. within_auto. apply arch_reads, read_bytes_reads. Qed.

Lemma matching_intent_reads sn : reads (_matching_resolution_intent E root sn).
Proof.
  unfold _matching_resolution_intent. within_auto; first [apply resolution_namespace_reads | apply read_intent_reads].
Qed.

Lemma require_intent_reads sn event : reads (_require_matching_resolution_intent E root sn event).
Proof. unfold _require_matching_resolution_intent. within_auto. apply matching_intent_reads. Qed.

Lemma read_intents_reads finals : reads (read_intents E root finals).
Proof. induction finals as [|name finals IH]; cbn [read_intents]; within_auto. apply read_intent_reads. Qed.

Lemma read_event_reads q : reads (read_event E q).
Proof. unfold read_event. within_auto. apply arch_reads, read_bytes_reads. Qed.

Lemma scan_bindings_reads n q l : reads (scan_bindings E n q l).
Proof. revert q. induction n as [|n IH]; intros q; cbn [scan_bindings]; within_auto. apply read_event_reads. Qed.

(** The events an intent may name. *)
Lemma intent_event value data q st event :
  _validate_resolution_intent_value root value data = Ok (q, st, event) -> forall nonce, event <> pre_send_event nonce.
Proof.
  unfold _validate_resolution_intent_value. intros H.
  destruct value as [| | | | | | l]; try discriminate H. destruct (negb (same_fields _INTENT_FIELDS l)); [discriminate H|].
  destruct (state_of_value _) as [st'|]; [|discriminate H]. destruct (event_of_value _) as [ev|]; [|discriminate H].
  destruct (field l "sequence"); try discriminate H.
  res_inv H. simplify_eq. intros nonce ->. destruct nonce; discriminate.
Qed.

Definition not_pre_send (event : CaptureEvent) : Prop := forall nonce, event <> pre_send_event nonce.

Lemma read_intent_ret relative s data value q st event s' :
  read_intent E root relative s = (Ret (data, value, (q, st, event)), s') -> not_pre_send event.
Proof.
  unfold read_intent. intros H. apply bind_ret_inv in H as ([d v] & s1 & _ & H).
  apply bind_ret_inv in H as (p & s2 & H2 & H). injection H as <- <- -> <-.
  unfold of_result in H2. destruct (_validate_resolution_intent_value root v d) as [[[q' st'] ev]|] eqn:V; [|done].
  injection H2 as <- <- <- <-. intros nonce. by eapply intent_event.
Qed.

Lemma matching_intent_ret sn s event sha s' :
  _matching_resolution_intent E root sn s = (Ret (Some (event, sha)), s') -> not_pre_send event.
Proof.
  unfold _matching_resolution_intent. cbv zeta. intros H. apply bind_ret_inv in H as ([finals pending] & s1 & _ & H).
  destruct (_ || _); [done|]. apply bind_ret_inv in H as ([[data value] [[q st] ev]] & s2 & H2 & H).
  apply bind_ret_inv in H as ([] & s3 & _ & H). injection H as <- _ _. by eapply read_intent_ret.
Qed.

Lemma read_intents_ret finals : forall s records s',
  read_intents E root finals s = (Ret records, s') -> Forall (fun r => not_pre_send (snd r)) records.
Proof.
  induction finals as [|name finals IH]; intros s records s' H; cbn [read_intents] in H.
  - injection H as <- <-. done.
  - apply bind_ret_inv in H as ([] & s1 & _ & H). apply bind_ret_inv in H as (number & s2 & _ & H).
    apply bind_ret_inv in H as ([[data value] [[q st] ev]] & s3 & H3 & H). apply bind_ret_inv in H as ([] & s4 & _ & H).
    apply bind_ret_inv in H as (rs & s5 & H5 & H). injection H as <- <-. apply Forall_cons. split; [by eapply read_intent_ret|].
    by eapply IH.
Qed.

Lemma reads_safe_bind {A B} K (P : A -> Prop) (m : M session A) (g : A -> M session B) f :
  reads m -> (forall s a s', m s = (Ret a, s') -> P a) -> (forall a, P a -> safe D K (g a) f) -> safe D K (m ≫= g) f.
Proof.
  intros R HP Sg s o s' H Hi HK. apply bind_reads in H as [(a & H1 & H) | [-> N]]; [|split; [done|]|done].
  - eapply Sg; [by eapply HP|done..].
  - intros b Hb. by destruct (N b).
Qed.

Lemma complete_intents_safe records complete : forall sn K,
  Forall (fun r => not_pre_send (snd r)) records -> Some sn ∈ K ->
  safe D K (complete_intents E records sn complete) (fun sn' => [Some sn']).
Proof.
  induction records as [|[[[q value] data] event] records IH]; intros sn K HF HK; cbn [complete_intents].
  - apply safe_ret. intros x Hx. by apply list_elem_of_singleton in Hx as ->.
  - apply Forall_cons in HF as [HE HF]. cbn [snd] in HE. cbv zeta. destruct (q <=? sn_sequence sn).
    + apply (reads_safe_bind _ (fun _ => True)); [apply read_event_reads|done|]. intros jv _. apply safe_check. intros _. by apply IH.
    + apply safe_check. intros _. apply safe_check. intros _.
      apply (sbind_safe _ _ _ _ (fun _ => [])); [apply safe_set_snapshot; by intros ? [= <-]|]. intros _. cbn [app].
      apply (sbind_safe _ _ _ _ (fun sn => [Some sn])); [apply append_safe; [done|by apply keeps_other]|].
      intros next. apply IH; [done|]. left.
Qed.

Lemma replay_intents_safe K o complete :
  o ∈ K -> safe D K (_replay_resolution_intents E root o complete) (fun o' => [o']).
Proof.
  intros HK. unfold _replay_resolution_intents.
  apply (reads_safe_bind _ (fun _ => True)); [apply resolution_namespace_reads|done|]. intros [finals pending] _.
  apply safe_check. intros _.
  apply (reads_safe_bind _ (fun rs => Forall (fun r => not_pre_send (snd r)) rs));
    [apply read_intents_reads|intros ???; apply read_intents_ret|]. intros records HR.
  destruct o as [sn|].
  - apply (reads_safe_bind _ (fun _ => True)); [apply scan_bindings_reads|done|]. intros [] _.
    apply (sbind_safe _ _ _ _ (fun sn => [Some sn])).
    + apply complete_intents_safe; [|done]. by rewrite merge_sort_Permutation.
    + intros final. apply safe_ret. intros x Hx. apply list_elem_of_singleton in Hx as ->. left.
  - destruct records; [|apply sraise_safe]. apply safe_ret. intros x Hx. by apply list_elem_of_singleton in Hx as ->.
Qed.

(** ** The pending event *)

Lemma tombstone_kept data :
  within (kept [JOURNAL_DIRECTORY]) (write_bytes E UNINITIALIZED_TOMBSTONE_RELATIVE data MAX_RECOVERY_BYTES).
Proof.
  change UNINITIALIZED_TOMBSTONE_RELATIVE with (RECOVERY_DIRECTORY ++ 47 :: UNINITIALIZED_TOMBSTONE_NAME).
  by apply write_other_kept.
Qed.

Lemma validate_tombstone_reads data : reads (_validate_uninitialized_tombstone root data).
Proof. unfold _validate_uninitialized_tombstone. within_auto. Qed.

Lemma has_tombstone_reads : reads (_has_uninitialized_tombstone E root).
Proof.
  unfold _has_uninitialized_tombstone. within_auto; first [apply arch_reads; eauto with pyres; fail | apply validate_tombstone_reads].
Qed.

Lemma publish_tombstone_skept expected names : within skept (publish_tombstone E root expected names).
Proof.
  unfold publish_tombstone. cbv zeta.
  assert (W : within skept (_ ← arch (write_bytes E UNINITIALIZED_TOMBSTONE_RELATIVE expected MAX_RECOVERY_BYTES); mret ()))
    by (within_auto; apply arch_skept, tombstone_kept).
  destruct names as [|name names]; [exact W|]. destruct (bool_decide _).
  - within_auto; [apply reads_skept, arch_reads, read_bytes_reads | apply reads_skept, validate_tombstone_reads].
  - apply (within_bind_when _ (fun l => Forall (in_dir RECOVERY_DIRECTORY) l));
      [apply reads_skept, arch_reads, pending_files_reads| |].
    { intros s a s' H. apply arch_run in H as (_ & H). by eapply pending_files_ret. }
    intros [|p [|? ?]] HP; [within_auto| |within_auto]. apply Forall_cons in HP as [HP _].
    apply within_bind; [apply _|apply within_check, _|intros _].
    apply within_bind; [apply _|apply reads_skept, arch_reads, read_pending_fragment_reads|intros data].
    destruct (bool_decide _); [apply arch_skept; by eapply in_dir_kept_publish|].
    destruct (starts_with _ _); [|within_auto].
    apply within_bind; [apply _|apply arch_skept; by eapply in_dir_kept_discard|intros _; exact W].
Qed.

Lemma quarantine_within p :
  (forall x, p = Some x -> in_dir JOURNAL_DIRECTORY x) -> within (sstep D) (_quarantine_uninitialized_session E root p).
Proof.
  intros HP. unfold _quarantine_uninitialized_session.
  apply within_bind; [apply _|apply within_check, _|intros _].
  apply within_bind; [apply _|apply within_of_result, _|intros expected].
  apply within_translate; [apply _|apply _|].
  apply within_bind; [apply _|apply reads_step, arch_reads, list_root_names_reads|intros names].
  apply within_bind; [apply _|apply within_check, _|intros _].
  apply within_bind; [apply _|apply reads_step, arch_reads, list_names_reads|intros jn].
  apply within_bind; [apply _|apply within_check, _|intros _].
  apply within_bind; [apply _| |intros rn].
  { within_auto. apply reads_step, arch_reads, list_names_reads. }
  apply within_bind; [apply _|apply within_skept, publish_tombstone_skept|intros _].
  apply within_bind; [apply _|apply reads_step, has_tombstone_reads|intros has].
  apply within_bind; [apply _|apply within_check, _|intros _].
  destruct p as [x|]; [|within_auto]. apply discard_journal_within. by apply HP.
Qed.

Lemma resolve_pending_safe K p sn observed event action :
  in_dir JOURNAL_DIRECTORY p -> Some sn ∈ K -> not_pre_send event ->
  safe D K (_resolve_pending_with_intent E root p sn observed event action) (fun _ => []).
Proof.
  intros HP HK HE. unfold _resolve_pending_with_intent.
  apply (sbind_safe _ _ _ _ (fun _ => [])); [apply safe_within, within_skept, write_intent_skept|]. intros binding.
  apply (sbind_safe _ _ _ _ (fun _ => [])); [by apply safe_within, discard_journal_within|]. intros _. cbn [app].
  apply (sbind_safe _ _ _ _ (fun _ => [])); [apply safe_set_snapshot; by intros ? [= <-]|]. intros _. cbn [app].
  apply (sbind_safe _ _ _ _ (fun sn => [Some sn])); [apply append_safe; [done|by apply keeps_other]|].
  intros next. apply safe_ret. intros x Hx. by apply not_elem_of_nil in Hx.
Qed.

Lemma recover_partial_safe K p o observed :
  in_dir JOURNAL_DIRECTORY p -> o ∈ K -> safe D K (_recover_partial_pending E root p o observed) (fun _ => []).
Proof.
  intros HP HK. unfold _recover_partial_pending. destruct o as [sn|].
  - apply safe_check. intros _.
    apply (reads_safe_bind _ (fun x => forall e sha, x = Some (e, sha) -> not_pre_send e));
      [apply matching_intent_reads| |].
    { intros s a s' H e sha ->. by eapply matching_intent_ret. }
    intros [[event sha]|] HE.
    + apply (sbind_safe _ _ _ _ (fun _ => [])); [apply of_option_safe; intros ??? Hx; by apply not_elem_of_nil in Hx|].
      intros action. apply resolve_pending_safe; [done|done|by eapply HE].
    + destruct (sn_state sn); try (apply safe_check; intros _); by apply resolve_pending_safe; try done; intros [].
  - apply safe_within. within_auto. apply quarantine_within. by intros x [= <-].
Qed.

Lemma read_pending_ret p maximum h d h' :
  read_pending E p maximum h = (Ret d, h') -> h_files h !! split_slash (pf_relative_path p) = Some d.
Proof.
  unfold read_pending. intros H. apply bind_ret_inv in H as (r & h1 & H1 & H).
  apply pending_path_ret in H1 as (-> & final & -> & _).
  apply bind_ret_inv in H as ([] & h1 & H1 & H). pose proof (reads_state _ _ _ _ (open_relative_reads E _) H1) as ->.
  apply bind_ret_inv in H as (d1 & h1 & H2 & H). unfold _open_existing_private_at, mbind, M_bind, gets, of_option in H2.
  destruct (h_files h !! _) as [x|] eqn:L; [|done]. injection H2 as -> <-.
  unfold _read_opened in H. apply bind_ret_inv in H as ([] & h2 & _ & H). by injection H as ->.
Qed.

Lemma examine_pending_skept p o q discard : within skept (examine_pending E p o q discard).
Proof.
  unfold examine_pending. within_auto; first [apply reads_skept, arch_reads; eauto with pyres; fail | apply activate_skept].
Qed.

(** A complete pending record is the file, and validates. *)
Lemma examine_pending_ret p o q discard s data s' :
  examine_pending E p o q discard s = (Ret (CompleteEvent data), s') ->
  h_files (s_host s) !! split_slash (pf_relative_path p) = Some data /\ exists next, _validate_event_bytes data o q = Ok next.
Proof.
  unfold examine_pending. intros H. apply bind_ret_inv in H as (c & s1 & H1 & H).
  destruct c as [d|fragment]; [|done].
  assert (HR : h_files (s_host s) !! split_slash (pf_relative_path p) = Some d).
  { apply try_cases in H1 as [(e & s2 & _ & H1) | [H1 _]].
    - destruct (is_archive_error e); [|done]. apply bind_ret_inv in H1 as ([] & s3 & _ & H1).
      by apply bind_ret_inv in H1 as (fr & s4 & _ & H1).
    - apply bind_ret_inv in H1 as (d' & s3 & H3 & H1). injection H1 as -> _. apply arch_run in H3 as (_ & H3).
      by apply read_pending_ret in H3. }
  apply try_cases in H as [(e & s2 & _ & H) | [H _]].
  - by destruct (_ && _).
  - apply bind_ret_inv in H as (next & s2 & H2 & H). apply bind_ret_inv in H as (m & s3 & _ & H). injection H as <- _.
    unfold of_result in H2. destruct (_validate_event_bytes d o q) as [nx|]; [|done]. eauto.
Qed.

Lemma recover_one_safe K p o discard :
  in_dir JOURNAL_DIRECTORY p -> o ∈ K -> safe D K (_recover_one_pending E root p o discard) (fun _ => []).
Proof.
  intros HP HK. unfold _recover_one_pending. cbv zeta. apply safe_check. intros Hfin.
  apply negb_false_iff, str_eqb_eq in Hfin. intros s r s' H Hi HKn.
  pose proof (examine_pending_skept p o (next_sequence o) discard) as W.
  apply (bind_within skept) in H as [(c & s1 & H1 & K1 & H) | [K1 N]]; [| |exact W].
  2: { split; [by apply skept_step|]. intros a Ha. by destruct (N a). }
  destruct (skept_step D s s1 K1 Hi) as [Hi1 Kn1].
  assert (Step : forall B (m : M session B) r1, safe D K m (fun _ => []) -> m s1 = (r1, s') ->
    (sinv D s' /\ forall x, known (s_host s) x -> known (s_host s') x)).
  { intros B m r1 Sf Hm. destruct (Sf _ _ _ Hm Hi1 (known_all _ _ _ Kn1 HKn)) as [[Hi2 Kn2] _]. split; [done|auto]. }
  split; [|by intros]. destruct c as [data|observed]; [|by eapply Step; [eapply recover_partial_safe|exact H]].
  apply bind_reads in H as [(event & _ & H) | [-> _]]; [|by split|by apply within_of_option].
  destruct (_ || _).
  - destruct o as [sn|]; [|by injection H as _ <-].
    eapply Step; [|exact H]. apply safe_check. intros _. apply resolve_pending_safe; [done|done|by intros []].
  - destruct (examine_pending_ret _ _ _ _ _ _ _ H1) as (Hd & next & HV).
    apply bind_reads in H as [([] & _ & H) | [-> _]]; [|by split|].
    + destruct (publish_journal_cases E D p o data next s1 r s' HP Hi1) as [Hi2 Kn2]; try done.
      * apply Kn1. rewrite Forall_forall in HKn. by apply HKn.
      * destruct HP as (name & final & Hs & _). rewrite <-Hd, Hs. by apply (proj1 K1).
      * split; [done|auto].
    + destruct (bool_decide _); [apply require_intent_reads|by apply within_ret].
Qed.

(** ** Opening *)

Lemma pending_safe_bind {B} K (g : list PendingFile -> M session B) f :
  (forall l, Forall (in_dir JOURNAL_DIRECTORY) l -> safe D K (g l) f) ->
  safe D K (arch (pending_files E JOURNAL_DIRECTORY) ≫= g) f.
Proof.
  intros H. apply (reads_safe_bind _ (fun l => Forall (in_dir JOURNAL_DIRECTORY) l)); [apply arch_reads, pending_files_reads| |done].
  intros s a s' Hr. apply arch_run in Hr as (_ & Hr). eapply pending_files_ret; [apply journal_plain|exact Hr].
Qed.

Lemma open_lock_reads : reads (open_lock_file E LOCK_FILE).
Proof. unfold open_lock_file. within_auto; eauto with pyres. Qed.

(** Keeping a snapshot and activating its observations ends opening. *)
Lemma keep_snapshot_safe K o :
  o ∈ K -> safe D K (modify (set_snapshot o) ≫= fun _ => _ ← _activate_frozen_observations E o; mret ()) (fun _ => []).
Proof.
  intros HK. apply (sbind_safe _ _ _ _ (fun _ => [])); [apply safe_set_snapshot; by intros ? <-|]. intros _.
  apply safe_within. within_auto. apply within_skept, activate_skept.
Qed.

Lemma on_exception_safe {A} K (m : M session A) c f :
  safe D K m f -> within (sstep D) c -> safe D K (on_exception m c) f.
Proof.
  intros Sm Wc. apply safe_try; [done|]. intros e. apply (sbind_safe _ _ _ _ (fun _ => [])); [by apply safe_within|].
  intros _. apply sraise_safe.
Qed.

Lemma archive_open_step : within (sstep D) (arch (archive_open root)).
Proof. apply within_skept, arch_skept. eapply within_impl; [|apply archive_open_files]. apply same_files_kept. Qed.

Lemma open_within : within (sstep D) (open E root).
Proof.
  unfold open. apply within_bind; [apply _|apply new_object_within|intros _].
  apply within_bind; [apply _|apply archive_open_step|intros _].
  apply (within_safe D _ (fun _ => [])). apply on_exception_safe; [|apply within_skept, close_skept].
  apply (sbind_safe _ _ _ _ (fun _ => [])); [apply safe_within, reads_step, arch_reads, open_lock_reads|]. intros _.
  apply (sbind_safe _ _ _ _ (fun _ => [])); [apply safe_within, within_skept, acquire_lock_skept|]. intros _.
  apply pending_safe_bind. intros pending _. apply safe_check. intros _.
  apply (sbind_safe _ _ _ _ (fun o => [o])); [apply replay_final_events_safe|]. intros o.
  apply (sbind_safe _ _ _ _ (fun _ => [])); [apply safe_set_snapshot; intros sn ->; left|]. intros _.
  apply (sbind_safe _ _ _ _ (fun o => [o])); [apply replay_intents_safe; left|]. intros o'.
  apply keep_snapshot_safe. left.
Qed.

Lemma recover_lock_within : within (sstep D) (recover_lock E root).
Proof.
  unfold recover_lock. within_auto;
    first [apply reads_step, arch_reads, list_root_names_reads | apply reads_step, arch_reads, list_names_reads
          | apply reads_step, arch_reads, open_lock_reads | apply within_skept, arch_skept, create_lock_kept
          | apply within_skept, acquire_lock_skept | apply within_skept, arch_skept, ensure_directory_kept
          | apply quarantine_within; by intros ? [=]].
Qed.

Lemma recover_within discard : within (sstep D) (recover E root discard).
Proof.
  unfold recover. apply within_bind; [apply _|apply new_object_within|intros _].
  apply within_bind; [apply _|apply archive_open_step|intros _].
  apply (within_safe D _ (fun _ => [])). apply on_exception_safe; [|apply within_skept, close_skept].
  apply (sbind_safe _ _ _ _ (fun _ => [])); [apply safe_within, recover_lock_within|]. intros _.
  apply pending_safe_bind. intros pending HP. apply safe_check. intros _.
  apply (sbind_safe _ _ _ _ (fun o => [o])); [apply replay_final_events_safe|]. intros o.
  apply (sbind_safe _ _ _ _ (fun o => [o])).
  - destruct pending as [|p rest].
    + apply safe_ret. intros x Hx. apply list_elem_of_singleton in Hx as ->. left.
    + apply Forall_cons in HP as [HP _].
      apply (sbind_safe _ _ _ _ (fun _ => [])); [apply recover_one_safe; [done|left]|]. intros _. apply replay_final_events_safe.
  - intros o1. apply (sbind_safe _ _ _ _ (fun o => [o])); [apply replay_intents_safe; left|]. intros o2.
    apply keep_snapshot_safe. left.
Qed.

Lemma uninitialized_quarantined_within : within (sstep D) (uninitialized_quarantined E root).
Proof.
  unfold uninitialized_quarantined. within_auto;
    first [apply new_object_within | apply archive_open_step | apply reads_step, arch_reads, open_lock_reads
          | apply within_skept, acquire_lock_skept | apply reads_step, arch_reads, list_root_names_reads
          | apply reads_step, arch_reads, list_names_reads | apply reads_step, has_tombstone_reads | apply within_skept, close_skept].
Qed.

Lemma resolution_binding_within event : within (sstep D) (resolution_binding_for_last_event E root event).
Proof.
  apply (within_safe D _ (fun _ => [])). unfold resolution_binding_for_last_event.
  apply (sbind_safe _ _ _ _ (fun _ => [])); [apply safe_within, reads_step, require_session_open_reads|]. intros _.
  apply (sbind_safe _ _ _ _ (fun sn => [Some sn])); [apply snapshot_property_safe|]. intros sn.
  apply (sbind_safe _ _ _ _ (fun o => [o])); [apply replay_intents_safe; left|]. intros o.
  apply safe_within. within_auto; first [apply reads_step, resolution_namespace_reads | apply reads_step, read_intent_reads].
Qed.

End Operations.
