(* ===== verification/SessionKeeps.v ===== *)
(** * No operation of a session loses a published file *)

From S2P Require Import Prelude Sha256 Text Json DateTime Effects Archive ArchiveProofs.
From S2P Require Import ArchiveSafety Observation Journal JournalHistory Session Recovery JournalStore SessionProofs.
From S2P Require Import RecoveryProofs.

Create HintDb keeps.

Section Keeps.
Context (E : env).

Definition skeeps (s s' : session) : Prop := hkeeps (s_host s) (s_host s').
#[export] Instance skeeps_refl : Reflexive skeeps.
Proof. intros s. unfold skeeps. reflexivity. Qed.
#[export] Instance skeeps_trans : Transitive skeeps.
Proof. intros a b c H1 H2. unfold skeeps in *. by etrans. Qed.

Lemma arch_keeps {A} (m : M host A) : within hkeeps m -> within skeeps (arch m).
Proof. intros W s. unfold arch, zoom, skeeps. specialize (W (s_host s)). by destruct (m (s_host s)). Qed.

Lemma reads_keeps {A} (m : M session A) : reads m -> within skeeps m.
Proof. apply within_impl. by intros ?? ->. Qed.

Lemma set_snapshot_keeps x : within skeeps (modify (set_snapshot x)).
Proof. intros s. unfold skeeps. cbn. reflexivity. Qed.

(** Archive operations that read, and the ones that publish. *)
Lemma arch_reads_keeps {A} (m : M host A) : reads m -> within skeeps (arch m).
Proof. intros R. by apply reads_keeps, arch_reads. Qed.
Lemma arch_dirs_keeps {A} (m : M host A) : within dirs_only m -> within skeeps (arch m).
Proof. intros R. by apply arch_keeps, dirs_hkeeps. Qed.
Lemma arch_same_keeps {A} (m : M host A) : within same_files m -> within skeeps (arch m).
Proof. intros R. apply arch_keeps. eapply within_impl; [apply same_keeps|exact R]. Qed.

Lemma write_keeps relative data maximum : within skeeps (arch (write_bytes E relative data maximum)).
Proof. apply arch_keeps, write_bytes_hkeeps. Qed.
Lemma discard_keeps_s p : within skeeps (arch (discard_pending E p)).
Proof. apply arch_keeps, discard_hkeeps. Qed.
Lemma publish_keeps_s p : within skeeps (arch (publish_pending E p)).
Proof. apply arch_keeps, publish_hkeeps. Qed.
Lemma seal_keeps : within skeeps (arch (seal_prefixes OBSERVATION_DIRECTORIES)).
Proof. apply arch_same_keeps, seal_prefixes_files. Qed.
Lemma load_manifest_keeps sha : within skeeps (arch (load_observation_manifest E sha)).
Proof. apply arch_reads_keeps, load_observation_manifest_reads. Qed.

Lemma publish_manifest_keeps obs : within skeeps (arch (publish_observation_manifest E obs)).
Proof.
  apply arch_keeps. unfold publish_observation_manifest, _verify_observation_files, verify_file, verify_namespace. within_auto;
    first [apply write_or_reopen_exact_hkeeps | apply dirs_hkeeps, ensure_directory_within
          | apply reads_hkeeps; eauto using load_observation_manifest_reads with pyres].
Qed.

#[local] Hint Resolve arch_reads_keeps set_snapshot_keeps write_keeps discard_keeps_s publish_keeps_s seal_keeps load_manifest_keeps
  publish_manifest_keeps : keeps.
#[local] Hint Extern 1 (within skeeps (SE _)) => apply (within_raise skeeps) : keeps.
#[local] Hint Extern 1 (within skeeps require_session_open) => apply reads_keeps, require_session_open_reads : keeps.
#[local] Hint Extern 1 (within skeeps (append_current _ _)) => apply reads_keeps, append_current_reads : keeps.
#[local] Hint Extern 1 (within skeeps (_replay_final_events _ _)) => apply reads_keeps, replay_final_events_reads : keeps.
#[local] Hint Extern 1 (within skeeps (_resolution_namespace _)) => apply reads_keeps, resolution_namespace_reads : keeps.
#[local] Hint Extern 1 (within skeeps (read_intent _ _ _)) => apply reads_keeps, read_intent_reads : keeps.
#[local] Hint Extern 1 (within skeeps (read_intents _ _ _)) => apply reads_keeps, read_intents_reads : keeps.
#[local] Hint Extern 1 (within skeeps (read_event _ _)) => apply reads_keeps, read_event_reads : keeps.
#[local] Hint Extern 1 (within skeeps (scan_bindings _ _ _ _)) => apply reads_keeps, scan_bindings_reads : keeps.
#[local] Hint Extern 1 (within skeeps (_matching_resolution_intent _ _ _)) => apply reads_keeps, matching_intent_reads : keeps.
#[local] Hint Extern 1 (within skeeps (_require_matching_resolution_intent _ _ _ _)) => apply reads_keeps, require_intent_reads : keeps.
#[local] Hint Extern 1 (within skeeps (_validate_uninitialized_tombstone _ _)) => apply reads_keeps, validate_tombstone_reads : keeps.
#[local] Hint Extern 1 (within skeeps (_has_uninitialized_tombstone _ _)) => apply reads_keeps, has_tombstone_reads : keeps.

Ltac keeps_auto := within_auto; eauto with keeps pyres.

Lemma activate_keeps o : within skeeps (_activate_frozen_observations E o).
Proof. unfold _activate_frozen_observations. keeps_auto. Qed.
#[local] Hint Resolve activate_keeps : keeps.

Lemma append_locked_keeps event binding : within skeeps (_append_locked E event binding).
Proof. unfold _append_locked. keeps_auto. Qed.
#[local] Hint Resolve append_locked_keeps : keeps.

Lemma append_keeps event binding : within skeeps (append E event binding).
Proof. unfold append. keeps_auto. Qed.
#[local] Hint Resolve append_keeps : keeps.

Lemma snapshot_property_keeps : within skeeps (snapshot_property E).
Proof. unfold snapshot_property. keeps_auto. Qed.
#[local] Hint Resolve snapshot_property_keeps : keeps.

Lemma state_property_keeps : within skeeps (state_property E).
Proof. unfold state_property. keeps_auto. Qed.
#[local] Hint Resolve state_property_keeps : keeps.

Lemma complete_observations_keeps obs : within skeeps (complete_observations E obs).
Proof. unfold complete_observations, require_collection_open. keeps_auto. Qed.

Lemma resolve_interrupted_keeps : within skeeps (resolve_interrupted_attempt E).
Proof. unfold resolve_interrupted_attempt. keeps_auto. Qed.

Lemma acquire_lock_keeps : within skeeps _acquire_lock.
Proof. intros s. unfold _acquire_lock, mbind, M_bind, gets, check. destruct (s_contended s); unfold skeeps; cbn; reflexivity. Qed.
Lemma close_keeps : within skeeps close.
Proof. intros s. unfold skeeps. cbn. by apply same_keeps. Qed.
Lemma new_object_keeps : within skeeps new_object.
Proof. intros s. unfold skeeps. cbn. reflexivity. Qed.
Lemma create_lock_keeps : within skeeps (arch (create_lock_file E LOCK_FILE)).
Proof. apply arch_keeps, create_lock_hkeeps. Qed.
Lemma open_lock_keeps : within skeeps (arch (open_lock_file E LOCK_FILE)).
Proof. apply arch_reads_keeps, open_lock_reads. Qed.
Lemma ensure_keeps relative : within skeeps (arch (ensure_directory E relative)).
Proof. apply arch_dirs_keeps, ensure_directory_within. Qed.
Lemma archive_create_keeps root : within skeeps (arch (archive_create E root)).
Proof. apply arch_same_keeps, archive_create_files. Qed.
Lemma archive_open_keeps root : within skeeps (arch (archive_open root)).
Proof. apply arch_same_keeps, archive_open_files. Qed.
#[local] Hint Resolve acquire_lock_keeps close_keeps new_object_keeps create_lock_keeps open_lock_keeps ensure_keeps
  archive_create_keeps archive_open_keeps : keeps.

Lemma create_keeps root intent : within skeeps (create E root intent).
Proof. unfold create. keeps_auto. Qed.

Lemma write_intent_keeps root pending sn observed event action :
  within skeeps (_write_or_reopen_resolution_intent E root pending sn observed event action).
Proof. unfold _write_or_reopen_resolution_intent. keeps_auto. Qed.
#[local] Hint Resolve write_intent_keeps : keeps.

Lemma complete_intents_keeps records b : forall sn, within skeeps (complete_intents E records sn b).
Proof. induction records as [|[[[q value] data] event] records IH]; intros sn; cbn [complete_intents]; keeps_auto. Qed.
#[local] Hint Resolve complete_intents_keeps : keeps.

Lemma replay_intents_keeps root o b : within skeeps (_replay_resolution_intents E root o b).
Proof. unfold _replay_resolution_intents. keeps_auto. Qed.
#[local] Hint Resolve replay_intents_keeps : keeps.

Lemma quarantine_keeps root p : within skeeps (_quarantine_uninitialized_session E root p).
Proof. unfold _quarantine_uninitialized_session, publish_tombstone. keeps_auto. Qed.
#[local] Hint Resolve quarantine_keeps : keeps.

Lemma resolve_pending_keeps root p sn observed event action :
  within skeeps (_resolve_pending_with_intent E root p sn observed event action).
Proof. unfold _resolve_pending_with_intent. keeps_auto. Qed.
#[local] Hint Resolve resolve_pending_keeps : keeps.

Lemma recover_partial_keeps root p o observed : within skeeps (_recover_partial_pending E root p o observed).
Proof. unfold _recover_partial_pending. keeps_auto. Qed.
#[local] Hint Resolve recover_partial_keeps : keeps.

Lemma recover_one_keeps root p o b : within skeeps (_recover_one_pending E root p o b).
Proof. unfold _recover_one_pending, examine_pending. keeps_auto. Qed.
#[local] Hint Resolve recover_one_keeps : keeps.

Lemma open_keeps root : within skeeps (open E root).
Proof. unfold open. keeps_auto. Qed.

Lemma recover_keeps root b : within skeeps (recover E root b).
Proof. unfold recover, recover_lock. keeps_auto. Qed.

End Keeps.
