(* ===== verification/RecoverySpec.v ===== *)
(** * How recovery resolves the pending record

    What [_recover_one_pending] and [_recover_partial_pending] of
    src/scripts/physical_capture/session.py do to the one record a crash may have
    left: a complete attempt is discarded and audited, an incomplete record ends
    the session, and the resolution is bound to an intent that is published
    first. *)

From S2P Require Import Prelude Sha256 Text Json DateTime Effects Archive ArchiveProofs.
From S2P Require Import ArchiveSafety Observation Journal JournalHistory Session Recovery JournalStore SessionProofs.
From S2P Require Import RecoveryProofs SessionKeeps.

(** ** The archive raises no session error *)

Definition foreign (e : pyexn) : Prop := is_session_error e = false.

Section Raises.
Context (E : env).

Lemma relative_parts_fails text : fails foreign (_relative_parts text).
Proof. unfold _relative_parts. raises_auto. Qed.

Lemma open_relative_raises parts : raises foreign (_open_relative_directory E parts false).
Proof. unfold _open_relative_directory, _require_open, _open_directory_at. raises_auto. Qed.

Lemma read_bytes_raises relative maximum : raises foreign (read_bytes E relative maximum).
Proof.
  unfold read_bytes, _parent_and_name, _open_existing_private_at, _read_opened. raises_auto;
    first [apply relative_parts_fails | apply open_relative_raises].
Qed.

Lemma list_names_raises d : raises foreign (list_names E d).
Proof. unfold list_names. raises_auto; first [apply relative_parts_fails | apply open_relative_raises]. Qed.

Lemma parse_manifest_fails value : fails foreign (_parse_manifest value).
Proof.
  unfold _parse_manifest, _parse_entry, _parse_artifact, _subject, _validate_observation_path, _require_unique_sorted. raises_auto.
Qed.

Lemma load_manifest_raises sha : raises foreign (load_observation_manifest E sha).
Proof.
  unfold load_observation_manifest, _verify_observation_files, verify_file, verify_namespace, describe_file, _canonical_manifest_bytes.
  raises_auto; first [apply read_bytes_raises | apply list_names_raises | apply parse_manifest_fails].
Qed.

Lemma seal_raises names : raises foreign (seal_prefixes names).
Proof.
  unfold seal_prefixes, _require_open. raises_auto. apply relative_parts_fails.
Qed.

Lemma arch_raises {A} P (m : M host A) : raises P m -> raises P (arch m).
Proof. intros H s e s' Hr. apply arch_run in Hr as [_ Hr]. by eapply H. Qed.

(** Activation fails with its own error, or with one that is no session error. *)
Definition activation_error (e : pyexn) : Prop := foreign e \/ e = SessionError "observation_manifest_invalid".

Lemma raises_weaken {S A} (P Q : pyexn -> Prop) (m : M S A) : (forall e, P e -> Q e) -> raises P m -> raises Q m.
Proof. intros H Hm s e s' Hr. by eapply H, Hm. Qed.

Lemma activate_raises o : raises activation_error (_activate_frozen_observations E o).
Proof.
  unfold _activate_frozen_observations. raises_auto; try (by right);
    (eapply raises_weaken; [by left|]); apply arch_raises; first [apply load_manifest_raises | apply seal_raises].
Qed.

Lemma fragment_read p maximum h d :
  read_pending_fragment E p maximum h = (Ret d, h) -> d <> [] -> read_pending E p maximum h = (Ret d, h).
Proof.
  intros H Hne. unfold read_pending_fragment in H. unfold read_pending.
  apply bind_ret_inv in H as ([parts final] & h1 & H1 & H). pose proof (reads_state _ _ _ _ (pending_path_reads p) H1) as ->.
  rewrite (bind_ret_eq _ _ _ _ _ H1). apply bind_ret_inv in H as ([] & h1 & H2 & H).
  pose proof (reads_state _ _ _ _ (open_relative_reads E _) H2) as ->. rewrite (bind_ret_eq _ _ _ _ _ H2).
  apply bind_ret_inv in H as (x & h1 & H3 & H). pose proof (reads_state _ _ _ _ (open_existing_reads _) H3) as ->.
  rewrite (bind_ret_eq _ _ _ _ _ H3). apply bind_ret_inv in H as ([] & h1 & H4 & H). apply check_ret in H4 as [H4 ->].
  injection H as ->. unfold _read_opened. rewrite H4, orb_false_r.
  assert (L : (len d <? 1) = false) by (apply Z.ltb_ge; destruct d; [done|]; rewrite len_cons; pose proof (len_nonneg d); lia).
  by rewrite L.
Qed.

(** A pending record that validates is read as one. *)
Lemma examine_complete p o q discard data next s c s' :
  h_files (s_host s) !! split_slash (pf_relative_path p) = Some data -> _validate_event_bytes data o q = Ok next ->
  examine_pending E p o q discard s = (Ret c, s') -> c = CompleteEvent data.
Proof.
  intros Hd HV H. unfold examine_pending in H. apply bind_ret_inv in H as (c1 & s1 & H1 & H).
  assert (Hne : data <> []) by (intros ->; discriminate HV).
  assert (C1 : c1 = CompleteEvent data).
  { apply try_cases in H1 as [(e & s2 & H2 & H1) | [H1 _]].
    - destruct (is_archive_error e); [|done]. apply bind_check in H1 as [[HC H1] | [_ N]]; [|by destruct (N c1)].
      apply bind_ret_inv in H1 as (fr & s3 & H3 & H1).
      pose proof (reads_state _ _ _ _ (arch_reads _ (read_pending_fragment_reads E p _)) (proj1 (translate_ret _ _ _ _ _ _) H3)) as ->.
      apply translate_ret, arch_run in H3 as (_ & H3).
      apply bind_cases in H2 as [(x & s3 & H2 & H4) | [(e' & H2 & [= <-]) | [_ [=]]]]; [done|].
      pose proof (reads_state _ _ _ _ (arch_reads _ (read_pending_reads E p _)) H2) as ->. apply arch_run in H2 as (_ & H2).
      pose proof (read_fragment_ret _ _ _ _ _ _ H3) as [_ Hfr]. rewrite Hd in Hfr. injection Hfr as <-.
      by rewrite (fragment_read _ _ _ _ H3 Hne) in H2.
    - apply bind_ret_inv in H1 as (d' & s3 & H3 & H1). injection H1 as <- _. apply arch_run in H3 as (_ & H3).
      apply read_pending_ret in H3. congruence. }
  subst c1. apply try_cases in H as [(e & s2 & H2 & H) | [H _]].
  - destruct (_ && _) eqn:C; [|done]. exfalso. rewrite !andb_true_iff in C. destruct C as [[C1 _] C3].
    rewrite HV in H2. cbn [of_result] in H2.
    apply bind_cases in H2 as [(nx & s3 & H3 & H2) | [(e' & H2 & _) | [_ [=]]]]; [|done].
    apply bind_cases in H2 as [(m & s4 & _ & H2) | [(e' & H2 & [= <-]) | [_ [=]]]]; [done|].
    apply activate_raises in H2 as [H2 | ->]; [by rewrite H2 in C1|]. done.
  - apply bind_ret_inv in H as (nx & s2 & _ & H). apply bind_ret_inv in H as (m & s3 & _ & H). by injection H as <- _.
Qed.
End Raises.

(** ** Resolutions *)

Lemma component_published parts : parts <> [] -> forallb _COMPONENT_RE parts = true -> published parts = true.
Proof.
  intros Hne Hc. apply negb_true_iff, not_true_iff_false. intros H. apply dot_not_component in H.
  rewrite <-(parts_app_last parts Hne), forallb_app in Hc. cbn [forallb] in Hc. by rewrite H, andb_false_r in Hc.
Qed.

(** The journal of [s'] is one that ended in [sn] and the record of [event], bound
    to the digest of a published intent that names the pending file and what it
    held; the pending file is gone. *)
Definition resolved (root : str) (p : PendingFile) (sn : SessionSnapshot) (observed : bytes) (event : CaptureEvent)
  (action : string) (s' : session) : Prop :=
  exists intent l record t next,
    _resolution_intent_bytes root p sn observed event action = Ok intent /\
    h_files (s_host s') !! split_slash (_resolution_intent_relative (sn_sequence sn + 1)) = Some intent /\
    replay l = Ok (Some sn) /\ follows (Some sn) (len l + 1) event t (hexdigest intent) record next /\
    journal_is (s_host s') (l ++ [record]) /\ replay (l ++ [record]) = Ok (Some next) /\
    h_files (s_host s') !! split_slash (pf_relative_path p) = None.

Section Resolutions.
Context (E : env) (root : str) (D : doubt).
Hypothesis clock : forall n, valid_datetime (e_now E n) = true.

Lemma write_intent_ret p sn observed event action s b s' :
  _write_or_reopen_resolution_intent E root p sn observed event action s = (Ret b, s') ->
  exists intent, _resolution_intent_bytes root p sn observed event action = Ok intent /\ b = hexdigest intent /\
    published (split_slash (_resolution_intent_relative (sn_sequence sn + 1))) = true /\
    h_files (s_host s') !! split_slash (_resolution_intent_relative (sn_sequence sn + 1)) = Some intent.
Proof.
  unfold _write_or_reopen_resolution_intent. intros H. apply bind_result in H as [(intent & HI & H) | [_ N]]; [|by destruct (N b)].
  exists intent. split; [done|]. cbv zeta in H. apply bind_ret_inv in H as ([finals rp] & s1 & _ & H).
  do 2 (apply bind_ret_inv in H as (? & ? & _ & H)). apply bind_ret_inv in H as (reopened & s2 & H2 & H).
  apply bind_ret_inv in H as ([] & s3 & H3 & H). apply check_ret in H3 as [H3 ->]. injection H as <- <-. split; [done|].
  apply negb_false_iff, bool_decide_eq_true in H3 as ->. apply translate_ret in H2.
  pose proof (reads_state _ _ _ _ (arch_reads _ (read_bytes_reads E _ _)) H2) as ->. apply arch_run in H2 as (_ & H2).
  apply read_bytes_ret in H2 as (_ & parts & HP & HF). apply relative_parts_ok in HP as (-> & Hne & Hc).
  split; [by apply component_published|done].
Qed.

Lemma resolve_pending_ret p sn observed event action s s' :
  in_dir JOURNAL_DIRECTORY p -> sinv D s -> known (s_host s) (Some sn) -> not_pre_send event ->
  _resolve_pending_with_intent E root p sn observed event action s = (Ret (), s') ->
  resolved root p sn observed event action s'.
Proof.
  intros HP Hi HK HE H. unfold _resolve_pending_with_intent in H.
  apply bind_ret_inv in H as (b & s1 & H1 & H). destruct (write_intent_ret _ _ _ _ _ _ _ _ H1) as (intent & HI & -> & HPub & HF).
  pose proof (write_intent_skept E root p sn observed event action s) as K1. rewrite H1 in K1.
  destruct (skept_step D s s1 K1 Hi) as [Hi1 Kn1].
  apply bind_ret_inv in H as ([] & s2 & H2 & H).
  pose proof (discard_journal_within E D p HP s1 Hi1) as Hi2. rewrite H2 in Hi2. destruct Hi2 as [Hi2 Kn2].
  pose proof (discard_keeps_s E p s1) as Ke2. rewrite H2 in Ke2.
  apply arch_run in H2 as (_ & H2). apply discard_pending_cases in H2 as [[_ N] | [F2 _]]; [done|].
  unfold modify at 1, mbind at 1, M_bind at 1 in H.
  assert (Hi3 : sinv D (set_snapshot (Some sn) s2)).
  { destruct Hi2 as [Hl _]. constructor; [done|]. cbn. intros x [= <-]. by apply Kn2, Kn1. }
  apply bind_ret_inv in H as (next & s4 & H4 & H). injection H as <-.
  pose proof (append_keeps E event (hexdigest intent) (set_snapshot (Some sn) s2)) as Ke4. rewrite H4 in Ke4.
  destruct (append_ret E D clock _ _ _ _ _ (keeps_other D _ HE) Hi3 H4) as (_ & _ & _ & l & record & c & Ap & Mem).
  rewrite (Mem sn eq_refl) in Ap. destruct Ap as [A1 A2 (t & A3) A4 A5 _ A7].
  exists intent, l, record, t, next. split; [done|]. split; [by apply Ke4, Ke2|]. split; [done|]. split; [done|].
  split; [apply (st_files _ _ _ A4)|]. split; [done|].
  destruct (in_dir_loose p HP) as [Lp Ln]. rewrite A7; [cbn; rewrite F2; by apply lookup_delete_eq|done|].
  apply Ln. pose proof (st_bound _ _ _ A1) as B. unfold MAX_JOURNAL_EVENTS in B. pose proof (len_nonneg l). lia.
Qed.


(** An incomplete record ends the session.  When recovery returns from a
    pending file that is no complete record and for which no intent was published
    before, the journal continues with the closing record of its state (outcome
    unknown after an attempt, abandoned otherwise), bound to a published intent
    that carries the fragment's digest, and the fragment is gone. *)
Theorem partial_record_closes p sn observed s :
  in_dir JOURNAL_DIRECTORY p -> sinv D s -> known (s_host s) (Some sn) ->
  fst (_matching_resolution_intent E root sn s) = Ret None ->
  match _recover_partial_pending E root p (Some sn) observed s with
  | (Ret _, s') =>
      is_terminal_state (sn_state sn) = false /\
      exists action, resolution_action (closing_event (sn_state sn)) = Some action /\
        resolved root p sn observed (closing_event (sn_state sn)) action s'
  | _ => True
  end.
Proof.
  intros HP Hi HK HM. destruct (_recover_partial_pending E root p (Some sn) observed s) as [[[]|e|] s'] eqn:H; [|done|done].
  unfold _recover_partial_pending in H.
  apply bind_check in H as [[HT H] | [_ N]]; [|by destruct (N ())]. split; [done|].
  apply bind_ret_inv in H as (x & s1 & H1 & H). pose proof (reads_state _ _ _ _ (matching_intent_reads E root sn) H1) as ->.
  rewrite H1 in HM. injection HM as ->.
  destruct (sn_state sn) eqn:St; try discriminate HT; cbn [closing_event];
    try (apply bind_check in H as [[_ H] | [_ N]]; [|by destruct (N ())]);
    (eexists; split; [reflexivity|]); eapply resolve_pending_ret; try done; by intros [].
Qed.
End Resolutions.

(** ** An interrupted attempt *)

Definition demo_time : datetime := DateTime 2026 1 2 3 4 5.
Definition demo_binding : str := replicate 64 97.

(** The record of an event of the demo journal bound to [b], and its snapshot. *)
Definition demo_record (b : str) (previous : option SessionSnapshot) (q : Z) (event : CaptureEvent) : bytes * SessionSnapshot :=
  default ([], demo_snapshot) (write_entry previous q (Entry event (format_utc demo_time) b)).
Definition demo_write : option SessionSnapshot -> Z -> CaptureEvent -> bytes * SessionSnapshot := demo_record demo_binding.

(** A journal on disk whose records are at the demo time. *)
Definition none_in_doubt : doubt := fun _ => False.
Record demo_journal (h : host) (l : list bytes) (o : option SessionSnapshot) (st : option CaptureState) : Prop := {
  dj_store : store none_in_doubt h l;
  dj_replay : replay l = Ok o;
  dj_state : option_map sn_state o = st;
  dj_time : not_before o demo_time = true;
  dj_digest : is_sha256 (previous_digest o) = true
}.

Lemma demo_record_follows b o q event to : is_sha256 b = true ->
  Z.abs q < 10 ^ 19 -> _transition_for event (option_map sn_state o) = Ok to -> not_before o demo_time = true ->
  is_sha256 (previous_digest o) = true ->
  follows o q event (format_utc demo_time) b (fst (demo_record b o q event)) (snd (demo_record b o q event)) /\
  sn_state (snd (demo_record b o q event)) = to.
Proof.
  intros Hb Hq HT Ho Hp.
  destruct (write_entry_some o q event to demo_time b Hq HT eq_refl Ho Hb Hp) as (d & n & W & Hn).
  unfold demo_record. rewrite W. split; [|done]. by apply (write_entry_follows o q (Entry event _ _)).
Qed.

Definition demo_put (q : Z) (w : bytes * SessionSnapshot) (h : host) : host := with_files (<[ev_path q := fst w]> (h_files h)) h.

Lemma demo_extend b h l o st event to q : is_sha256 b = true ->
  demo_journal h l o st -> q = len l + 1 -> q <= MAX_JOURNAL_EVENTS -> _transition_for event st = Ok to ->
  demo_journal (demo_put q (demo_record b o q event) h) (l ++ [fst (demo_record b o q event)]) (Some (snd (demo_record b o q event))) (Some to).
Proof.
  intros Hb [St R Hst Ht Hd] -> Hq HT. rewrite <-Hst in HT. pose proof (len_nonneg l).
  destruct (demo_record_follows b o (len l + 1) event to Hb ltac:(unfold MAX_JOURNAL_EVENTS in Hq; lia) HT Ht Hd) as [F Hn].
  destruct (store_extended none_in_doubt h (demo_put (len l + 1) (demo_record b o (len l + 1) event) h) l event
    (fst (demo_record b o (len l + 1) event)) (snd (demo_record b o (len l + 1) event))) as (St' & R' & _); try done.
  - exists o, (format_utc demo_time), b.
    rewrite take_ge by (unfold len; lia). split_and!; [done|lia|lia|lia|done].
  - by intros nonce [].
  - constructor; try done.
    + cbn [option_map]. by rewrite Hn.
    + unfold not_before. pose proof (fo_time _ _ _ _ _ _ _ F) as X. rewrite (fromisoformat_format demo_time eq_refl) in X.
      injection X as <-. by rewrite datetime_ltb_irrefl.
    + cbn [previous_digest]. rewrite (fo_next _ _ _ _ _ _ _ F). apply hexdigest_sha256.
Qed.

Definition demo_pending : PendingFile := {|
  pf_relative_path := u "journal/.00000005.json.pending-00000000000000000000000000000000";
  pf_final_relative_path := u "journal/00000005.json" |}.
Definition demo_pending_path : path := [u "journal"; u ".00000005.json.pending-00000000000000000000000000000000"].

Lemma demo_in_dir : in_dir JOURNAL_DIRECTORY demo_pending.
Proof.
  exists (u ".00000005.json.pending-00000000000000000000000000000000"), (u "00000005.json"). split; [|split]; vm_compute; reflexivity.
Qed.
Lemma demo_pending_split : split_slash (pf_relative_path demo_pending) = demo_pending_path.
Proof. vm_compute. reflexivity. Qed.

Definition d1 := demo_write None 1 SESSION_STARTED.
Definition d2 := demo_write (Some (snd d1)) 2 COLLECTION_STARTED.
Definition d3 := demo_write (Some (snd d2)) 3 RAW_COMPLETED.
Definition d4 := demo_write (Some (snd d3)) 4 E_NONCE_REQUEST_PREPARED.
Definition d5 := demo_write (Some (snd d4)) 5 NONCE_ATTEMPT_STARTED.
Definition demo_empty : host := Host true ∅ ∅ [] true 0.
Definition demo_disk : host := demo_put 4 d4 (demo_put 3 d3 (demo_put 2 d2 (demo_put 1 d1 demo_empty))).

#[local] Opaque demo_record.

Lemma demo_empty_journal : demo_journal demo_empty [] None None.
Proof.
  constructor; try done. constructor.
  - intros q Hq. by destruct (1 <=? q).
  - done.
  - by exists None.
  - by intros p d pv q nx (_ & _ & H).
  - by intros nonce [].
Qed.

Lemma demo_prepared_journal :
  demo_journal demo_disk [fst d1; fst d2; fst d3; fst d4] (Some (snd d4)) (Some NONCE_REQUEST_PREPARED).
Proof.
  pose proof (demo_extend demo_binding _ _ _ _ SESSION_STARTED INITIALIZED 1 eq_refl demo_empty_journal eq_refl ltac:(done) eq_refl) as J1. fold d1 in J1.
  pose proof (demo_extend demo_binding _ _ _ _ COLLECTION_STARTED COLLECTING 2 eq_refl J1 eq_refl ltac:(done) eq_refl) as J2. fold d2 in J2.
  pose proof (demo_extend demo_binding _ _ _ _ RAW_COMPLETED RAW_COMPLETE 3 eq_refl J2 eq_refl ltac:(done) eq_refl) as J3. fold d3 in J3.
  pose proof (demo_extend demo_binding _ _ _ _ E_NONCE_REQUEST_PREPARED NONCE_REQUEST_PREPARED 4 eq_refl J3 eq_refl ltac:(done) eq_refl) as J4. fold d4 in J4.
  exact J4.
Qed.

(** The state after a crash in the append of the attempt: its pending file holds
    the first [n] bytes. *)
Definition demo_crashed (n : nat) : session :=
  Session (with_files (<[demo_pending_path := take n (fst d5)]> (h_files demo_disk)) demo_disk) true None false.

Lemma demo_attempt_follows :
  follows (Some (snd d4)) 5 NONCE_ATTEMPT_STARTED (format_utc demo_time) demo_binding (fst d5) (snd d5).
Proof.
  destruct demo_prepared_journal as [_ _ Hst Ht Hd].
  assert (HT : _transition_for NONCE_ATTEMPT_STARTED (option_map sn_state (Some (snd d4))) = Ok NONCE_ATTEMPTED) by (rewrite Hst; reflexivity).
  destruct (demo_record_follows demo_binding (Some (snd d4)) 5 NONCE_ATTEMPT_STARTED NONCE_ATTEMPTED eq_refl ltac:(lia) HT Ht Hd) as [F _].
  fold d5 in F. exact F.
Qed.

Lemma demo_crashed_inv n : sinv none_in_doubt (demo_crashed n) /\ known (s_host (demo_crashed n)) (Some (snd d4)).
Proof.
  destruct demo_prepared_journal as [St R Hst Ht Hd]. pose proof (in_dir_loose demo_pending demo_in_dir) as HL.
  rewrite demo_pending_split in HL.
  assert (St' : store none_in_doubt (s_host (demo_crashed n)) [fst d1; fst d2; fst d3; fst d4]).
  { eapply (store_pending _ _ _ _ demo_pending_path n NONCE_ATTEMPT_STARTED (fst d5) 5 (snd d5)); [done| |by intros nonce []|reflexivity|exact St].
    exists (Some (snd d4)), (format_utc demo_time), demo_binding.
    split; [exact R|]. split; [rewrite !len_cons, len_nil; lia|]. split; [unfold MAX_JOURNAL_EVENTS; lia|]. exact demo_attempt_follows. }
  split; [constructor; [by exists [fst d1; fst d2; fst d3; fst d4]|discriminate]|].
  exact (known_last _ _ _ (st_files _ _ _ St') (st_bound _ _ _ St') R).
Qed.


Lemma partial_record_closes_witness :
  match _recover_partial_pending (demo_env (fun _ => Proceed)) (u "run-1") demo_pending (Some (snd d4)) (take 7 (fst d5)) (demo_crashed 7) with
  | (Ret _, s') =>
      is_terminal_state (sn_state (snd d4)) = false /\
      exists action, resolution_action (closing_event (sn_state (snd d4))) = Some action /\
        resolved (u "run-1") demo_pending (snd d4) (take 7 (fst d5)) (closing_event (sn_state (snd d4))) action s'
  | _ => True
  end.
Proof.
  refine (partial_record_closes (demo_env (fun _ => Proceed)) (u "run-1") none_in_doubt (fun _ => eq_refl) demo_pending (snd d4)
    (take 7 (fst d5)) (demo_crashed 7) demo_in_dir _ _ _).
  - apply demo_crashed_inv.
  - apply demo_crashed_inv.
  - reflexivity.
Defined.
