(* ===== verification/Transaction.v ===== *)
(** * The two POSTs of a session

    src/scripts/physical_capture/transaction.py: the nonce and the receipt
    transaction around the session's journal and archive.  The Cloud Run client
    is a parameter: what its method does with a request is a [reply], which may
    depend on the request and on how many requests were sent before.  The state
    adds to the session the list of requests handed to the client. *)

From S2P Require Import Prelude Sha256 Text Json DateTime Effects Archive Observation Journal Session.

Inductive role := Nonce | Receipt.
#[export] Instance role_eq_decision : EqDecision role.
Proof. solve_decision. Defined.
Definition role_name (r : role) : string := match r with Nonce => "nonce" | Receipt => "receipt" end.

(** What a client method returns: a [NonceResponse] or [ReceiptResponse] with
    its fields, or an object of another type. *)
Inductive response :=
  | NonceResponse (schema_version run_nonce expires_at : json)
  | ReceiptResponse (schema_version signed_at receipt_sha256 signature : json)
  | OtherResponse.

(** How a call of the client ends. *)
Inductive reply :=
  | Returns (r : response)
  | Raises (e : pyexn)
  | Dies.                     (* the process is killed during the call *)

Definition as_dict (r : response) : option json :=
  match r with
  | NonceResponse v n x => Some (JObj [(u "schema_version", v); (u "run_nonce", n); (u "expires_at", x)])
  | ReceiptResponse v t d s =>
      Some (JObj [(u "schema_version", v); (u "signed_at", t); (u "receipt_sha256", d); (u "signature", s)])
  | OtherResponse => None
  end.

Definition response_role (r : response) : option role :=
  match r with NonceResponse _ _ _ => Some Nonce | ReceiptResponse _ _ _ _ => Some Receipt | OtherResponse => None end.

Definition MAX_REQUEST_BYTES : Z := 2 ^ 20.
Definition MAX_RESPONSE_BYTES : Z := 2 ^ 20.
Definition NONCE_REQUEST_FIELDS : list str := [u "schema_version"; u "candidate"; u "run"].
Definition RECEIPT_REQUEST_FIELDS : list str :=
  [u "schema_version"; u "candidate"; u "run"; u "reports"; u "raw_artifacts"].

Record _TransactionSpec := {
  sp_role : role;
  sp_initial_state : CaptureState;
  sp_prepared_state : CaptureState;
  sp_attempted_state : CaptureState;
  sp_received_state : CaptureState;
  sp_prepared_event : CaptureEvent;
  sp_attempted_event : CaptureEvent;
  sp_pre_send_failed_event : CaptureEvent;
  sp_response_event : CaptureEvent;
  sp_outcome_unknown_event : CaptureEvent;
  sp_request_path : str;
  sp_response_path : str;
  sp_request_fields : list str
}.

Definition _NONCE_SPEC : _TransactionSpec := {|
  sp_role := Nonce;
  sp_initial_state := RAW_COMPLETE;
  sp_prepared_state := NONCE_REQUEST_PREPARED;
  sp_attempted_state := NONCE_ATTEMPTED;
  sp_received_state := NONCE_RECEIVED;
  sp_prepared_event := E_NONCE_REQUEST_PREPARED;
  sp_attempted_event := NONCE_ATTEMPT_STARTED;
  sp_pre_send_failed_event := NONCE_PRE_SEND_FAILED;
  sp_response_event := NONCE_RESPONSE_RECORDED;
  sp_outcome_unknown_event := E_NONCE_OUTCOME_UNKNOWN;
  sp_request_path := u "cloud/nonce-request.json";
  sp_response_path := u "cloud/nonce-response.json";
  sp_request_fields := NONCE_REQUEST_FIELDS
|}.

Definition _RECEIPT_SPEC : _TransactionSpec := {|
  sp_role := Receipt;
  sp_initial_state := BINDINGS_COMPOSED;
  sp_prepared_state := RECEIPT_REQUEST_PREPARED;
  sp_attempted_state := RECEIPT_ATTEMPTED;
  sp_received_state := RECEIPT_RECEIVED;
  sp_prepared_event := E_RECEIPT_REQUEST_PREPARED;
  sp_attempted_event := RECEIPT_ATTEMPT_STARTED;
  sp_pre_send_failed_event := RECEIPT_PRE_SEND_FAILED;
  sp_response_event := RECEIPT_RESPONSE_RECORDED;
  sp_outcome_unknown_event := E_RECEIPT_OUTCOME_UNKNOWN;
  sp_request_path := u "cloud/receipt-request.json";
  sp_response_path := u "cloud/receipt-response.json";
  sp_request_fields := RECEIPT_REQUEST_FIELDS
|}.

Definition spec_of (r : role) : _TransactionSpec := match r with Nonce => _NONCE_SPEC | Receipt => _RECEIPT_SPEC end.

(** The normalised request, its bytes and their digest. *)
Definition _canonical_request (spec : _TransactionSpec) (value : json) : result pyexn (json * bytes * str) :=
  let invalid := TransactionError "invalid_request" in
  match exact_object value (sp_request_fields spec) with
  | None => Err invalid
  | Some request =>
      raise_if negb (is_int (obj_get request (u "schema_version")) 1) with invalid ;;
      match canonical_json (JObj request) with
      | None => Err invalid
      | Some b =>
          let data := b ++ [x0a] in
          raise_if MAX_REQUEST_BYTES <? len data with invalid ;;
          match load_json_bytes data with
          | Some (JObj normalized) => Ok (JObj normalized, data, hexdigest data)
          | _ => Err invalid
          end
      end
  end.

Definition _canonical_response (spec : _TransactionSpec) (value : response) : result pyexn (bytes * str) :=
  raise_if negb (bool_decide (response_role value = Some (sp_role spec))) with TransactionError "invalid_response_type" ;;
  match as_dict value ≫= canonical_json with
  | None => Err (TransactionError "invalid_response")
  | Some b =>
      let data := b ++ [x0a] in
      raise_if MAX_RESPONSE_BYTES <? len data with TransactionError "invalid_response" ;;
      Ok (data, hexdigest data)
  end.

(** A request handed to the client. *)
Record post := Post { po_role : role; po_request : json; po_reply : reply }.

Record txn := Txn { t_session : session; t_posts : list post }.
Definition set_session (s : session) (t : txn) : txn := Txn s (t_posts t).

Definition on_session {A} (m : M session A) : M txn A := zoom t_session set_session m.
Definition on_archive {A} (m : M host A) : M txn A := on_session (arch m).

Definition is_store_error (e : pyexn) : bool := is_archive_error e || is_session_error e.

Section Transaction.
Context (E : env) (client : role -> json -> nat -> reply).

(** A call of [client.issue_nonce] or [client.issue_receipt]. *)
Definition call_client (r : role) (request : json) : M txn response := fun t =>
  let answer := client r request (length (t_posts t)) in
  let t := Txn (t_session t) (t_posts t ++ [Post r request answer]) in
  match answer with
  | Returns x => (Ret x, t)
  | Raises e => (Raise e, t)
  | Dies => (Crash, t)
  end.

Definition _read_exact_request (spec : _TransactionSpec) (expected : bytes) : M txn ArchivedFile :=
  observed ← translate is_archive_error (TransactionError "request_archive_unavailable")
    (on_archive (read_bytes E (sp_request_path spec) MAX_REQUEST_BYTES));
  check (negb (bool_decide (observed = expected))) (TransactionError "request_archive_mismatch") ≫= fun _ =>
  mret (archived (sp_request_path spec) observed).

Definition _archive_request_once (spec : _TransactionSpec) (data : bytes) : M txn ArchivedFile :=
  translate is_archive_error (TransactionError "request_archive_failed")
    (on_archive (write_or_reopen_exact E (sp_request_path spec) data MAX_REQUEST_BYTES)).

(** [session.append] inside a handler that reports [code]; the state entered
    must be [expected]. *)
Definition append_or (event : CaptureEvent) (binding : str) (code : string) : M txn SessionSnapshot :=
  translate is_store_error (TransactionError code) (on_session (append E event binding)).

Definition _prepare (spec : _TransactionSpec) (data : bytes) (request_sha256 : str) : M txn () :=
  state ← on_session (state_property E);
  if bool_decide (state = sp_initial_state spec) then
    record ← _archive_request_once spec data;
    check (negb (str_eqb (af_sha256 record) request_sha256) || negb (af_size record =? len data))
      (TransactionError "request_archive_mismatch") ≫= fun _ =>
    snapshot ← append_or (sp_prepared_event spec) request_sha256 "request_prepare_record_failed";
    check (negb (bool_decide (sn_state snapshot = sp_prepared_state spec)))
      (TransactionError "request_prepare_state_mismatch")
  else if bool_decide (state = sp_prepared_state spec) then
    record ← _read_exact_request spec data;
    snapshot ← on_session (snapshot_property E);
    check (negb (str_eqb (af_sha256 record) request_sha256) ||
           negb (str_eqb (sn_last_binding_sha256 snapshot) request_sha256))
      (TransactionError "prepared_request_binding_mismatch")
  else raise (TransactionError "transaction_not_preparable").

Definition _append_attempt (spec : _TransactionSpec) (request_sha256 : str) : M txn () :=
  snapshot ← append_or (sp_attempted_event spec) request_sha256 "attempt_record_failed";
  check (negb (bool_decide (sn_state snapshot = sp_attempted_state spec))) (TransactionError "attempt_state_mismatch").

Definition _record_pre_send_failure (spec : _TransactionSpec) (request_sha256 : str) : M txn () :=
  snapshot ← append_or (sp_pre_send_failed_event spec) request_sha256 "pre_send_failure_record_failed";
  check (negb (bool_decide (sn_state snapshot = sp_prepared_state spec))) (TransactionError "pre_send_failure_state_mismatch").

Definition _record_outcome_unknown (spec : _TransactionSpec) (request_sha256 : str) : M txn () :=
  snapshot ← append_or (sp_outcome_unknown_event spec) request_sha256 "outcome_unknown_record_failed";
  let expected := match sp_role spec with Nonce => NONCE_OUTCOME_UNKNOWN | Receipt => RECEIPT_OUTCOME_UNKNOWN end in
  check (negb (bool_decide (sn_state snapshot = expected))) (TransactionError "outcome_unknown_state_mismatch").

Definition _raise_outcome_unknown {A} (spec : _TransactionSpec) (request_sha256 : str) : M txn A :=
  _record_outcome_unknown spec request_sha256 ≫= fun _ =>
  raise (OutcomeUnknown (role_name (sp_role spec) ++ "_outcome_unknown")).

(** The response archived, or the outcome recorded as unknown. *)
Definition _archive_response (spec : _TransactionSpec) (request_sha256 : str) (answer : response) : M txn str :=
  try_except
    ('(response_bytes, response_sha256) ← of_result (_canonical_response spec answer);
     record ← on_archive (write_bytes E (sp_response_path spec) response_bytes MAX_RESPONSE_BYTES);
     check (negb (str_eqb (af_sha256 record) response_sha256) || negb (af_size record =? len response_bytes))
       (TransactionError "response_archive_mismatch") ≫= fun _ =>
     mret response_sha256)
    (fun e => if is_exception e then _raise_outcome_unknown spec request_sha256 else raise e).

Definition _execute (spec : _TransactionSpec) (request : json) : M txn response :=
  '(normalized, request_bytes, request_sha256) ← of_result (_canonical_request spec request);
  _prepare spec request_bytes request_sha256 ≫= fun _ =>
  _append_attempt spec request_sha256 ≫= fun _ =>
  answer ← try_except (call_client (sp_role spec) normalized)
    (fun e =>
      if bool_decide (e = PreSendError) then _record_pre_send_failure spec request_sha256 ≫= fun _ => raise e
      else if is_exception e then _raise_outcome_unknown spec request_sha256
      else raise e);
  response_sha256 ← _archive_response spec request_sha256 answer;
  snapshot ← append_or (sp_response_event spec) response_sha256 "response_record_failed";
  check (negb (bool_decide (sn_state snapshot = sp_received_state spec)) ||
         negb (str_eqb (sn_last_binding_sha256 snapshot) response_sha256))
    (TransactionError "response_state_mismatch") ≫= fun _ =>
  mret answer.

Definition issue_nonce (request : json) : M txn response :=
  answer ← _execute _NONCE_SPEC request;
  check (negb (bool_decide (response_role answer = Some Nonce))) (OutcomeUnknown "nonce_outcome_unknown") ≫= fun _ =>
  mret answer.

Definition issue_receipt (request : json) : M txn response :=
  answer ← _execute _RECEIPT_SPEC request;
  check (negb (bool_decide (response_role answer = Some Receipt))) (OutcomeUnknown "receipt_outcome_unknown") ≫= fun _ =>
  mret answer.

End Transaction.
