(* ===== verification/Finalize.v ===== *)
(** * Finalization of a run

    src/scripts/physical_capture/finalize.py: from the frozen observations to the
    run record, through the two Cloud transactions, the reports, the receipt
    bindings and the receipt, each phase published in the archive and recorded
    in the journal before the next.

    The four reports are materialised and validated by modules that are not
    modelled line by line ([lifecycle.py], [adversarial.py], [materialize.py] and
    the validators of [src/scripts/harness]).  Here they are arbitrary programs
    ([Programs.program]) against what they are given: a materialiser asks the
    session for its state and its manifest, looks at the archive, and publishes
    lifecycle events and adversarial transcripts; a validator reads artifacts
    through the reader it is handed. *)

From S2P Require Import Prelude Sha256 Text Json DateTime Effects Programs Archive Observation TrustPolicy Journal Session Python Timestamp Identity.
From S2P Require Import Catalogue CollectorRequest Composition ArtifactReader ProofMaterial Transaction.

Open Scope Z_scope.
Open Scope list_scope.
Import Quiet.

Definition SIGNING_TIME_RELATIVE : str := u "derived/report-signing-time.json".
Definition REPORT_SET_RELATIVE : str := u "derived/report-set.json".
Definition RECEIPT_BINDINGS_RELATIVE : str := u "derived/receipt-bindings.json".
Definition RUN_RECORD_RELATIVE : str := u "derived/run-record.json".
Definition REPORT_DIRECTORY : str := u "derived/reports".
Definition SIGNING_TIME_DOCUMENT : str := u "cfw-physical-report-signing-time-v1".
Definition REPORT_SET_DOCUMENT : str := u "cfw-physical-report-set-v1".
Definition MAX_DERIVED_DOCUMENT_BYTES : Z := 8 * MiB.
Definition MAX_REPORT_BYTES : Z := 4 * MiB.
Definition MAX_SIGNING_TIME_BYTES : Z := 64 * 1024.

Definition FE {S A} (code : string) : M S A := raise (FinalizationError code).

(** ** What finalization is given *)

(** What one observation of the machine and of the policy file sees. *)
Record conditions := {
  cd_plist_loads : bytes -> plist_result;
  cd_runner : Runner;
  cd_clock : clock;
  cd_now : Z;                              (* the reading of [compose_run_record] *)
  cd_policy_file : result pyexn bytes
}.
(** The conditions of its four phases, and the two readings of the signing time. *)
Record surroundings := {
  sr_nonce : conditions; sr_proof : conditions; sr_receipt : conditions; sr_record : conditions;
  sr_signing : datetime; sr_signing_check : Z
}.

(** One raw artifact of a report. *)
Record report_artifact := { ra_harness : str; ra_subject : str; ra_descriptor : json }.
Definition report_artifact_json (b : report_artifact) : json :=
  JObj [(u "harness", JStr (ra_harness b)); (u "subject", JStr (ra_subject b)); (u "descriptor", ra_descriptor b)].

Record MaterializedReport := {
  mr_harness : str; mr_tool_version : str; mr_document : list (str * json); mr_raw_bindings : list report_artifact
}.

(** [EVENT_DIRECTORY] of lifecycle.py and [TRANSCRIPT_DIRECTORY] of adversarial.py. *)
Definition EVENT_DIRECTORY : str := u "raw/lifecycle/events".
Definition TRANSCRIPT_DIRECTORY : str := u "raw/adversarial".

(** What a materialiser may ask for. *)
Inductive material_action :=
  | AskState
  | LoadManifest
  | Look
  | WriteEvent (name : str) (data : bytes) (maximum : Z)
  | WriteTranscript (name : str) (data : bytes) (maximum : Z).
Definition material_answer (a : material_action) : Type :=
  match a with
  | AskState => CaptureState
  | LoadManifest => ObservationManifest
  | Look => host
  | WriteEvent _ _ _ | WriteTranscript _ _ _ => ArchivedFile
  end.
Definition materializer (A : Type) : Type := program material_answer A.

(** The materialisers, with the arguments [_materialize_report_set] passes. *)
Record materializers := {
  materialize_lifecycle_events : json -> materializer json;
  compose_lifecycle_report : json -> str -> materializer MaterializedReport;
  materialize_packet_report : json -> json -> str -> materializer MaterializedReport;
  compose_performance_report : json -> str -> materializer MaterializedReport;
  materialize_adversarial_report : json -> json -> str -> materializer MaterializedReport
}.

(** A validator reads artifacts of the kinds it expects; it returns the subjects
    and descriptors of [result["artifacts"]]. *)
Definition read_action : Type := list str * json.
Definition read_answer (a : read_action) : Type := ArtifactDescriptor * bytes.
Definition validators : Type := str -> list (str * json) -> program read_answer (list (str * json)).

Section Finalize.
Context (E : env).

(** ** Derived documents *)

Definition is_mismatch (e : pyexn) : bool :=
  bool_decide (e = ArchiveError "archive_publish_mismatch") || bool_decide (e = ArchiveError "pending_archive_mismatch").

Definition _write_or_reopen_exact (relative : str) (data : bytes) (maximum : Z) : M txn ArchivedFile :=
  try_except (on_archive (write_or_reopen_exact E relative data maximum))
    (fun e => if is_archive_error e
              then FE (if is_mismatch e then "derived_archive_mismatch" else "derived_archive_failed") else raise e).

Definition _write_or_reopen_json (relative : str) (value : json) (maximum : Z) : M txn ArchivedFile :=
  data ← of_option (FinalizationError "derived_document_invalid") (canonical_json value);
  let data := data ++ [x0a] in
  check (maximum <? len data) (FinalizationError "derived_document_too_large") ≫= fun _ =>
  _write_or_reopen_exact relative data maximum.

Definition _load_json (relative : str) (maximum : Z) : M txn (json * ArchivedFile) :=
  translate (fun e => is_archive_error e || is_raw_error e) (FinalizationError "derived_document_unreadable")
    (data ← on_archive (read_bytes E relative maximum);
     value ← of_option RawArtifactError (load_json_bytes data);
     record ← on_archive (describe_file E relative maximum);
     canonical ← match value with JObj _ => of_option RawArtifactError (canonical_json value) | _ => raise RawArtifactError end;
     check (negb (bool_decide (canonical ++ [x0a] = data)) || negb (bool_decide (record = archived relative data))) RawArtifactError ≫= fun _ =>
     mret (value, record)).

Definition _nonce_response : M txn json := '(value, _) ← _load_json (sp_response_path _NONCE_SPEC) MAX_RESPONSE_BYTES; mret value.
Definition _receipt_response : M txn json := '(value, _) ← _load_json (sp_response_path _RECEIPT_SPEC) MAX_RESPONSE_BYTES; mret value.
Definition _receipt_request : M txn json := '(value, _) ← _load_json (sp_request_path _RECEIPT_SPEC) MAX_REQUEST_BYTES; mret value.

(** ** The time the reports are signed at *)

Definition signing_time_json (signed_at : str) : json :=
  JObj [(u "schema_version", JInt 1); (u "document", JStr SIGNING_TIME_DOCUMENT); (u "signed_at", JStr signed_at)].
Definition SIGNING_TIME_FIELDS : list str := map u ["schema_version"; "document"; "signed_at"]%string.

(** The text of a signing time; [now] is the clock when it is checked. *)
Definition signing_time_of (value : json) (now : Z) : option str :=
  l ← exact_object value SIGNING_TIME_FIELDS;
  if negb (json_eq_int (member l "schema_version") 1) || negb (json_eq_str (member l "document") SIGNING_TIME_DOCUMENT) then None
  else match member l "signed_at" with
       | JStr s =>
           parsed ← fromisoformat s;
           if negb (str_eqb (format_utc parsed) s) || (now <? moment (Stamp parsed 0)) then None else Some s
       | _ => None
       end.

Definition _load_or_create_signing_time (sr : surroundings) : M txn str :=
  value ← try_except ('(value, _) ← _load_json SIGNING_TIME_RELATIVE MAX_SIGNING_TIME_BYTES; mret value)
    (fun e =>
      check (negb (bool_decide (e = FinalizationError "derived_document_unreadable"))) e ≫= fun _ =>
      let value := signing_time_json (format_utc (sr_signing sr)) in
      _ ← _write_or_reopen_json SIGNING_TIME_RELATIVE value MAX_SIGNING_TIME_BYTES; mret value);
  of_option (FinalizationError "report_signing_time_invalid") (signing_time_of value (sr_signing_check sr)).

(** ** Reports *)

(** What a materialiser's requests do. *)
Definition perform_material (a : material_action) : M txn (material_answer a) :=
  match a with
  | AskState => on_session (state_property E)
  | LoadManifest => on_session (load_frozen_manifest E)
  | Look => gets (fun t => s_host (t_session t))
  | WriteEvent name data maximum => on_archive (write_bytes E (EVENT_DIRECTORY ++ 47 :: name) data maximum)
  | WriteTranscript name data maximum => on_archive (write_or_reopen_exact E (TRANSCRIPT_DIRECTORY ++ 47 :: name) data maximum)
  end.
Definition run_material {A} (p : materializer A) : M txn A := run perform_material p.

Definition _report_metadata (report : MaterializedReport) : M txn json :=
  '(tool_version, kind) ← of_option (FinalizationError "report_identity_invalid") (assoc EXPECTED_REPORTS (mr_harness report));
  check (negb (str_eqb (mr_tool_version report) tool_version)) (FinalizationError "report_identity_invalid") ≫= fun _ =>
  record ← _write_or_reopen_json (REPORT_DIRECTORY ++ 47 :: mr_harness report ++ u ".json") (JObj (mr_document report)) MAX_REPORT_BYTES;
  let get field := of_option (FinalizationError "report_identity_invalid") (obj_get (mr_document report) (u field)) in
  captured_at ← get "captured_at"%string;
  completed_at ← get "completed_at"%string;
  signed_at ← get "signed_at"%string;
  mret (JObj [(u "tool_version", JStr (mr_tool_version report)); (u "captured_at", captured_at); (u "completed_at", completed_at);
              (u "signed_at", signed_at);
              (u "artifact", descriptor_as_dict {| ad_kind := kind; ad_path := af_relative_path record; ad_size := af_size record;
                                                   ad_sha256 := af_sha256 record |})]).

Fixpoint report_metadata (seen : list (str * json)) (reports : list MaterializedReport) : M txn (list (str * json)) :=
  match reports with
  | [] => mret seen
  | report :: reports =>
      check (bool_decide (is_Some (obj_get seen (mr_harness report)))) (FinalizationError "report_identity_invalid") ≫= fun _ =>
      metadata ← _report_metadata report;
      report_metadata (seen ++ [(mr_harness report, metadata)]) reports
  end.

Definition artifact_le (a b : report_artifact) : Prop :=
  (str_leb (ra_harness a) (ra_harness b) &&
   (negb (str_eqb (ra_harness a) (ra_harness b)) || str_leb (ra_subject a) (ra_subject b))) = true.
#[export] Instance artifact_le_dec a b : Decision (artifact_le a b).
Proof using. unfold artifact_le. apply _. Defined.

Definition report_set_json (reports : list (str * json)) (raw_artifacts : list json) : json :=
  JObj [(u "schema_version", JInt 1); (u "document", JStr REPORT_SET_DOCUMENT); (u "reports", JObj reports);
        (u "raw_artifacts", JList raw_artifacts)].

Definition is_material_error (e : pyexn) : bool :=
  match e with AdversarialCaptureError | LifecycleCaptureError | PhysicalMaterializationError => true | _ => false end.

Definition _materialize_report_set (mz : materializers) (sr : surroundings) (context : json) (proof : ProofMaterial) : M txn json :=
  signed_at ← _load_or_create_signing_time sr;
  entries ← match context with JObj l => mret l | _ => raise OtherException end;
  run ← match obj_get entries (u "run") with Some (JObj run) => mret run | _ => FE "run_context_invalid" end;
  let platform := JObj [(u "architecture", JStr (u "arm64")); (u "macos_version", member run "macos_version");
                        (u "hardware_model", member run "hardware_model"); (u "clean_install", JBool true)] in
  let proof := pm_proof proof in
  reports ← translate is_material_error (FinalizationError "report_materialization_failed")
    (events ← run_material (materialize_lifecycle_events mz proof);
     lifecycle ← run_material (compose_lifecycle_report mz events signed_at);
     packet ← run_material (materialize_packet_report mz proof platform signed_at);
     performance ← run_material (compose_performance_report mz proof signed_at);
     adversarial ← run_material (materialize_adversarial_report mz proof platform signed_at);
     mret [lifecycle; packet; performance; adversarial]);
  report_map ← report_metadata [] reports;
  '(names, pending) ← translate is_archive_error (FinalizationError "report_namespace_unreadable")
    (names ← on_archive (list_names E REPORT_DIRECTORY);
     pending ← on_archive (pending_files E REPORT_DIRECTORY);
     mret (names, pending));
  check (negb (bool_decide (pending = [])) || negb (set_eq names (map (fun h => h ++ u ".json") REPORT_HARNESSES)))
    (FinalizationError "report_namespace_invalid") ≫= fun _ =>
  check (negb (set_eq (map fst report_map) REPORT_HARNESSES)) (FinalizationError "report_identity_invalid") ≫= fun _ =>
  mret (report_set_json report_map (map report_artifact_json (merge_sort artifact_le (concat (map mr_raw_bindings reports))))).

(** ** Validation of the report set *)

Definition REPORT_SET_FIELDS : list str := map u ["schema_version"; "document"; "reports"; "raw_artifacts"]%string.

(** [with ArtifactReader(_archive_root(session)) as artifacts: m]. *)
Definition on_reader {A} (m : M (reading quiet) A) : M txn A := fun t =>
  let '(o, r) := with_reader m (Reading new_reader (Opened (s_host (t_session t)) [])) in
  (o, set_session (set_host (q_host (rd_os r)) (t_session t)) t).

Definition perform_read (a : read_action) : M (reading quiet) (read_answer a) := read (fst a) (snd a).

Definition binding_subject (b : json) : str := json_text (member (dict_items b) "subject").
Definition subject_le (a b : json) : Prop := str_le (binding_subject a) (binding_subject b).
#[export] Instance subject_le_dec a b : Decision (subject_le a b).
Proof using. unfold subject_le. apply _. Defined.

Definition validate_report (vd : validators) (reports : list (str * json)) (raw_artifacts : list json) (harness : str)
  : M (reading quiet) (str * json) :=
  '(tool_version, kind) ← of_option KeyError (assoc EXPECTED_REPORTS harness);
  metadata ← of_option KeyError (obj_get reports harness);
  artifact ← match metadata with JObj l => of_option KeyError (obj_get l (u "artifact")) | _ => raise TypeError end;
  '(descriptor, document) ← read_json kind artifact;
  document ← match document with JObj l => mret l | _ => raise RawArtifactError end;
  found ← run perform_read (vd harness document);
  let expected_metadata :=
    JObj [(u "tool_version", JStr tool_version); (u "captured_at", member document "captured_at");
          (u "completed_at", member document "completed_at"); (u "signed_at", member document "signed_at");
          (u "artifact", descriptor_as_dict descriptor)] in
  check (negb (py_eq metadata expected_metadata)) RawArtifactError ≫= fun _ =>
  let actual_raw := merge_sort subject_le
    (map (fun x => report_artifact_json {| ra_harness := harness; ra_subject := fst x; ra_descriptor := snd x |}) found) in
  let expected_raw := merge_sort subject_le
    (List.filter (fun b => json_eq_str (member (dict_items b) "harness") harness) raw_artifacts) in
  check (negb (py_eq (JList actual_raw) (JList expected_raw))) RawArtifactError ≫= fun _ =>
  mret (harness, metadata).

Fixpoint validate_reports (vd : validators) (reports : list (str * json)) (raw_artifacts : list json) (harnesses : list str)
  : M (reading quiet) (list (str * json)) :=
  match harnesses with
  | [] => mret []
  | harness :: harnesses =>
      report ← validate_report vd reports raw_artifacts harness;
      rest ← validate_reports vd reports raw_artifacts harnesses;
      mret (report :: rest)
  end.

Definition is_validation_error (e : pyexn) : bool :=
  match e with
  | AdversarialMatrixError | KeyError | LifecycleMatrixError | PacketEvidenceError | PerformanceGateError | TypeError => true
  | _ => is_raw_error e
  end.
Definition is_composition_error (e : pyexn) : bool := match e with CompositionError => true | _ => false end.

Definition _validate_report_set (vd : validators) (value : json) : M txn (list (str * json) * list json) :=
  let invalid := FinalizationError "report_set_invalid" in
  report_set ← of_option invalid (exact_object value REPORT_SET_FIELDS);
  check (negb (json_eq_int (member report_set "schema_version") 1) ||
         negb (json_eq_str (member report_set "document") REPORT_SET_DOCUMENT)) invalid ≫= fun _ =>
  '(reports, raw_artifacts) ← match member report_set "reports", member report_set "raw_artifacts" with
    | JObj reports, JList raw_artifacts => mret (reports, raw_artifacts) | _, _ => raise invalid end;
  check (negb (same_fields REPORT_HARNESSES reports)) invalid ≫= fun _ =>
  normalized ← of_result (catch is_composition_error invalid (compose_receipt_bindings (JObj reports) (JList raw_artifacts)));
  check (negb (py_eq (JList raw_artifacts) (JList (map raw_json (bd_raw_artifacts normalized))))) invalid ≫= fun _ =>
  normalized_reports ← translate is_validation_error invalid (on_reader
    (found ← validate_reports vd reports raw_artifacts REPORT_HARNESSES;
     verify_all_unchanged None ≫= fun _ => mret found));
  mret (normalized_reports, map raw_json (bd_raw_artifacts normalized)).

(** ** The phases *)

Section Phases.
Context (mz : materializers) (vd : validators) (sr : surroundings) (client : result pyexn (role -> json -> nat -> reply)).

Definition _load_report_set : M txn json :=
  '(value, _) ← _load_json REPORT_SET_RELATIVE MAX_DERIVED_DOCUMENT_BYTES;
  _ ← _validate_report_set vd value;
  mret value.

Definition _ensure_reports (context : json) (proof : ProofMaterial) : M txn json :=
  state ← on_session (state_property E);
  if bool_decide (state = NONCE_RECEIVED) then
    report_set ← _materialize_report_set mz sr context proof;
    _ ← _validate_report_set vd report_set;
    record ← _write_or_reopen_json REPORT_SET_RELATIVE report_set MAX_DERIVED_DOCUMENT_BYTES;
    snapshot ← on_session (append E E_REPORTS_COMPOSED (af_sha256 record));
    check (negb (bool_decide (sn_state snapshot = REPORTS_COMPOSED))) (FinalizationError "report_state_invalid") ≫= fun _ =>
    mret report_set
  else _load_report_set.

Definition _ensure_bindings (report_set : json) : M txn json :=
  '(reports, raw_artifacts) ← match report_set with
    | JObj l => reports ← of_option (FinalizationError "receipt_bindings_invalid") (obj_get l (u "reports"));
                raw_artifacts ← of_option (FinalizationError "receipt_bindings_invalid") (obj_get l (u "raw_artifacts"));
                mret (reports, raw_artifacts)
    | _ => raise TypeError end;
  bindings ← of_result (catch is_composition_error (FinalizationError "receipt_bindings_invalid") (compose_receipt_bindings reports raw_artifacts));
  let expected := bindings_json bindings in
  state ← on_session (state_property E);
  if bool_decide (state = REPORTS_COMPOSED) then
    record ← _write_or_reopen_json RECEIPT_BINDINGS_RELATIVE expected MAX_DERIVED_DOCUMENT_BYTES;
    snapshot ← on_session (append E E_BINDINGS_COMPOSED (af_sha256 record));
    check (negb (bool_decide (sn_state snapshot = BINDINGS_COMPOSED))) (FinalizationError "receipt_bindings_state_invalid") ≫= fun _ =>
    mret expected
  else
    '(observed, _) ← _load_json RECEIPT_BINDINGS_RELATIVE MAX_DERIVED_DOCUMENT_BYTES;
    check (negb (py_eq observed expected)) (FinalizationError "receipt_bindings_invalid") ≫= fun _ =>
    mret observed.

(** [except (OSError, PhysicalCollectorRequestError, PhysicalCaptureTransactionError, PreSendError)]. *)
Definition is_cloud_failure (e : pyexn) : bool :=
  match e with
  | PhysicalCollectorRequestError | TransactionError _ | OutcomeUnknown _ | PreSendError => true
  | _ => is_os_error e
  end.

Definition _issue_or_reopen_nonce (context : json) : M txn json :=
  state ← on_session (state_property E);
  if bool_decide (state = RAW_COMPLETE) || bool_decide (state = NONCE_REQUEST_PREPARED) then
    answer ← translate is_cloud_failure (FinalizationError "nonce_transaction_failed")
      (selected ← of_result client;
       let cd := sr_nonce sr in
       request ← of_result (build_nonce_request (cd_plist_loads cd) (cd_runner cd) (cd_clock cd) context);
       issue_nonce E selected request);
    of_option OtherException (as_dict answer)
  else _nonce_response.

Definition _issue_or_reopen_receipt (context nonce bindings : json) : M txn (json * json) :=
  state ← on_session (state_property E);
  if bool_decide (state = BINDINGS_COMPOSED) || bool_decide (state = RECEIPT_REQUEST_PREPARED) then
    '(request, answer) ← translate is_cloud_failure (FinalizationError "receipt_transaction_failed")
      (selected ← of_result client;
       let cd := sr_receipt sr in
       request ← of_result (build_receipt_request (cd_plist_loads cd) (cd_runner cd) (cd_clock cd) context nonce bindings None);
       answer ← issue_receipt E selected (request_json request);
       mret (request_json request, answer));
    response ← of_option OtherException (as_dict answer);
    mret (request, response)
  else
    request ← _receipt_request;
    response ← _receipt_response;
    mret (request, response).

Definition load_finalized_run_record : M txn json :=
  state ← on_session (state_property E);
  check (negb (bool_decide (state = FINALIZED))) (FinalizationError "run_not_finalized") ≫= fun _ =>
  '(value, record) ← _load_json RUN_RECORD_RELATIVE MAX_DERIVED_DOCUMENT_BYTES;
  snapshot ← on_session (snapshot_property E);
  check (negb (str_eqb (sn_last_binding_sha256 snapshot) (af_sha256 record))) (FinalizationError "run_record_binding_invalid") ≫= fun _ =>
  mret value.

Definition FINALIZABLE : list CaptureState :=
  [RAW_COMPLETE; NONCE_REQUEST_PREPARED; NONCE_RECEIVED; REPORTS_COMPOSED; BINDINGS_COMPOSED; RECEIPT_REQUEST_PREPARED; RECEIPT_RECEIVED].

Definition finalize_session (context : json) : M txn json :=
  interrupted ← on_session (interrupted_attempt E);
  if interrupted : bool then
    _ ← translate is_session_error (FinalizationError "network_outcome_recovery_failed") (on_session (resolve_interrupted_attempt E));
    FE "network_outcome_unknown"
  else
  state ← on_session (state_property E);
  if bool_decide (state = FINALIZED) then load_finalized_run_record
  else
  check (negb (bool_decide (state ∈ FINALIZABLE))) (FinalizationError "finalization_phase_invalid") ≫= fun _ =>
  nonce ← _issue_or_reopen_nonce context;
  let cd := sr_proof sr in
  proof ← of_result (catch (fun e => bool_decide (e = ProofError)) (FinalizationError "proof_material_invalid")
    (build_proof_material (cd_plist_loads cd) (cd_runner cd) (cd_policy_file cd) (cd_clock cd) context nonce None));
  report_set ← _ensure_reports context proof;
  _ ← _validate_report_set vd report_set;
  bindings ← _ensure_bindings report_set;
  '(request, response) ← _issue_or_reopen_receipt context nonce bindings;
  let cd := sr_record sr in
  record ← of_result (catch is_composition_error (FinalizationError "run_record_invalid")
    (compose_run_record (cd_plist_loads cd) (cd_runner cd) (cd_policy_file cd) (cd_clock cd) (cd_now cd) context request response));
  archived_record ← _write_or_reopen_json RUN_RECORD_RELATIVE (run_record_json record) MAX_DERIVED_DOCUMENT_BYTES;
  state ← on_session (state_property E);
  (if bool_decide (state = RECEIPT_RECEIVED) then
     snapshot ← on_session (append E RUN_FINALIZED (af_sha256 archived_record));
     check (negb (bool_decide (sn_state snapshot = FINALIZED))) (FinalizationError "run_finalization_state_invalid")
   else mret ()) ≫= fun _ =>
  load_finalized_run_record.
End Phases.
End Finalize.
