(* ===== verification/TransactionProofs.v ===== *)
(** * At most one request of a role can reach the service

    Around the journal of [SessionProofs], the two transactions of
    src/scripts/physical_capture/transaction.py: whatever fails, is killed and is
    recovered, a request is sent only after its attempt is durable, and no second
    request of a role is sent unless every earlier one was proven unsent. *)

From S2P Require Import Prelude Sha256 Text Json DateTime Effects Archive ArchiveProofs.
From S2P Require Import ArchiveSafety Observation Journal JournalHistory Session Recovery Transaction JournalStore.
From S2P Require Import SessionProofs RecoveryProofs SessionKeeps.

Definition is_nonce (r : role) : bool := match r with Nonce => true | Receipt => false end.

(** The request of [p] may have reached the service. *)
Definition unproven (p : post) : Prop := po_reply p <> Raises PreSendError.
Definition in_doubt (posts : list post) : doubt := fun nonce => exists p, p ∈ posts /\ is_nonce (po_role p) = nonce /\ unproven p.

(** After a request that may have reached the service, none of its role. *)
Definition once (posts : list post) : Prop :=
  forall l1 p l2, posts = l1 ++ p :: l2 -> unproven p -> forall p', p' ∈ l2 -> po_role p' <> po_role p.

Record tinv (t : txn) : Prop := {
  ti_session : sinv (in_doubt (t_posts t)) (t_session t);
  ti_once : once (t_posts t)
}.

Definition thost (t : txn) : host := s_host (t_session t).

(** The step relation of transactions. *)
Definition tstep (t t' : txn) : Prop :=
  tinv t -> tinv t' /\ forall x, known (thost t) x -> known (thost t') x.
#[export] Instance tstep_refl : Reflexive tstep.
Proof. by intros t H. Qed.
#[export] Instance tstep_trans : Transitive tstep.
Proof. intros a b c H1 H2 H. destruct (H1 H) as [H' K1]. destruct (H2 H') as [H'' K2]. split; [done|auto]. Qed.

Definition tkeeps (t t' : txn) : Prop := hkeeps (thost t) (thost t').
#[export] Instance tkeeps_refl : Reflexive tkeeps.
Proof. intros t. unfold tkeeps. reflexivity. Qed.
#[export] Instance tkeeps_trans : Transitive tkeeps.
Proof. intros a b c H1 H2. unfold tkeeps in *. by etrans. Qed.

Lemma on_session_run {A} (m : M session A) t o t' :
  on_session m t = (o, t') -> t_posts t' = t_posts t /\ m (t_session t) = (o, t_session t').
Proof. unfold on_session, zoom. destruct (m (t_session t)) as [o1 s1]. intros [= <- <-]. done. Qed.

(** A session operation that keeps its invariant whatever is in doubt. *)
Lemma on_session_within {A} (m : M session A) : (forall D, within (sstep D) m) -> within tstep (on_session m).
Proof.
  intros W t [Hs Ho]. destruct (on_session m t) as [o t'] eqn:H. apply on_session_run in H as [Hp H]. cbn [snd].
  specialize (W (in_doubt (t_posts t)) (t_session t) Hs). rewrite H in W. destruct W as [W Kn].
  split; [|exact Kn]. constructor; by rewrite Hp.
Qed.

Lemma on_session_keeps {A} (m : M session A) :
  within (fun s s' => hkeeps (s_host s) (s_host s')) m -> within tkeeps (on_session m).
Proof.
  intros W t. destruct (on_session m t) as [o t'] eqn:H. apply on_session_run in H as [_ H]. cbn [snd].
  specialize (W (t_session t)). by rewrite H in W.
Qed.

Lemma unproven_dec p : {unproven p} + {po_reply p = Raises PreSendError}.
Proof. unfold unproven. destruct (po_reply p) as [x|e|]; [by left| |by left]. destruct (decide (e = PreSendError)) as [->|]; [by right|left; congruence]. Qed.

Lemma in_doubt_snoc posts p nonce :
  in_doubt (posts ++ [p]) nonce <-> in_doubt posts nonce \/ (is_nonce (po_role p) = nonce /\ unproven p).
Proof.
  unfold in_doubt. split.
  - intros (x & Hx & Hr & Hu). apply elem_of_app in Hx as [Hx|Hx]; [left; eauto|]. apply list_elem_of_singleton in Hx as ->. by right.
  - intros [(x & Hx & Hr) | Hr]; [exists x|exists p]; rewrite elem_of_app, list_elem_of_singleton; auto.
Qed.

Lemma is_nonce_inj a b : is_nonce a = is_nonce b -> a = b.
Proof. by destruct a, b. Qed.

Lemma once_snoc posts p : once posts -> ~ in_doubt posts (is_nonce (po_role p)) -> once (posts ++ [p]).
Proof.
  intros Ho Hn l1 x l2 H Hu y Hy Hr. destruct l2 as [|z l2 _] using rev_ind; [by apply not_elem_of_nil in Hy|].
  change (x :: l2 ++ [z]) with ((x :: l2) ++ [z]) in H. rewrite app_assoc in H. apply app_inj_tail in H as [H <-].
  apply elem_of_app in Hy as [Hy|Hy]; [by eapply Ho|]. apply list_elem_of_singleton in Hy as ->.
  apply Hn. exists x. rewrite H, elem_of_app. split; [right; left|]. by rewrite Hr.
Qed.

(** The session is at a durable attempt of a role that nothing takes back. *)
Definition at_attempt (nonce : bool) (t : txn) : Prop :=
  ~ in_doubt (t_posts t) nonce /\
  exists l sn, store (in_doubt (t_posts t)) (s_host (t_session t)) l /\ replay l = Ok (Some sn) /\
    attempted nonce (sn_state sn) = Some true /\ fresh (s_host (t_session t)) l.

Section Call.
Context (client : role -> json -> nat -> reply).

Lemma call_client_cases r request t o t' :
  tinv t -> at_attempt (is_nonce r) t -> call_client client r request t = (o, t') ->
  tinv t' /\ (o = Raise PreSendError -> ~ in_doubt (t_posts t') (is_nonce r)) /\ t_session t' = t_session t /\
  exists p, t_posts t' = t_posts t ++ [p] /\ po_role p = r /\ po_request p = request.
Proof.
  intros [Hs Ho] (Hn & l & sn & St & HR & HA & HF) H. unfold call_client in H.
  set (answer := client r request (length (t_posts t))) in *. set (p := Post r request answer) in *.
  assert (Ht : t' = Txn (t_session t) (t_posts t ++ [p])) by (destruct answer; by injection H as _ <-). subst t'.
  assert (HO : once (t_posts t ++ [p])) by (by apply once_snoc).
  cbn [t_posts t_session]. split; [|split; [|split; [done|by exists p]]].
  - constructor; [|done]. cbn [t_posts t_session]. destruct Hs as [_ Hm]. constructor; [|done]. exists l.
    destruct St as [J B R L Q]. constructor; try done. intros nonce Hd. apply in_doubt_snoc in Hd as [Hd|[<- Hu]]; [by apply Q|].
    cbn [po_role p]. exists sn. split; [done|]. split; [by rewrite HA|]. intros x d ev tt b nx Hl F. exfalso.
    eapply (HF x d); [exact Hl|]. eapply follows_validate; [|exact F].
    pose proof (len_nonneg l). unfold MAX_JOURNAL_EVENTS in B. lia.
  - intros ->. rewrite in_doubt_snoc. intros [Hd|[_ Hu]]; [done|]. apply Hu. cbn [po_reply p].
    destruct answer as [x|e|]; [done| |done]. by injection H as ->.
Qed.
End Call.

(** ** The transactions *)

Section Execute.
Context (E : env) (client : role -> json -> nat -> reply).
Hypothesis clock : forall n, valid_datetime (e_now E n) = true.

(** The store of a role in doubt does not accept another attempt. *)
Lemma attempt_not_doubt D nonce b s s' l data current sn :
  appended D (attempt_event nonce) b s s' l data current sn ->
  ~ D nonce /\ attempted nonce (sn_state sn) = Some true /\ sn_last_binding_sha256 sn = b.
Proof.
  intros [A1 A2 (t & A3) A4 A5 A6 _]. pose proof (fo_transition _ _ _ _ _ _ _ A3) as T.
  destruct current as [c|]; cbn [option_map] in T; [|by destruct nonce].
  pose proof (transition_attempted nonce _ _ _ T) as X. rewrite bool_decide_true in X by done.
  destruct (attempted nonce (sn_state c)) as [a|] eqn:Ha, (attempted nonce (sn_state sn)) as [b'|]; try done;
    [|by destruct nonce; naive_solver].
  destruct X as [-> ->]. split; [|split; [done|]].
  - intros Hd. destruct (st_doubt _ _ _ A1 nonce Hd) as (x & Hx & Hax & _). rewrite A2 in Hx. injection Hx as ->. congruence.
  - by rewrite (fo_next _ _ _ _ _ _ _ A3).
Qed.

Lemma append_or_ret event b code t sn t' :
  append_or E event b code t = (Ret sn, t') -> t_posts t' = t_posts t /\ append E event b (t_session t) = (Ret sn, t_session t').
Proof. unfold append_or. intros H. apply translate_ret in H. by apply on_session_run. Qed.

Lemma append_or_within event b code :
  (forall nonce, event <> pre_send_event nonce) -> within tstep (append_or E event b code).
Proof. intros H. unfold append_or. within_auto. apply on_session_within. intros D. by apply append_within. Qed.

Lemma append_or_keeps event b code : within tkeeps (append_or E event b code).
Proof. unfold append_or. within_auto. apply on_session_keeps, append_keeps. Qed.

Lemma attempt_ret r sha t t' :
  tinv t -> _append_attempt E (spec_of r) sha t = (Ret (), t') ->
  tinv t' /\ t_posts t' = t_posts t /\ at_attempt (is_nonce r) t' /\
  exists sn, known (thost t') (Some sn) /\ sn_state sn = sp_attempted_state (spec_of r) /\ sn_last_binding_sha256 sn = sha.
Proof.
  intros [Hs Ho] H. unfold _append_attempt in H. apply bind_ret_inv in H as (sn & t1 & H1 & H).
  apply check_ret in H as [HC ->]. apply negb_false_iff, bool_decide_eq_true in HC.
  apply append_or_ret in H1 as [Hp H1].
  assert (EV : sp_attempted_event (spec_of r) = attempt_event (is_nonce r)) by (by destruct r). rewrite EV in H1.
  assert (HK : keeps_doubt (in_doubt (t_posts t)) (attempt_event (is_nonce r))) by (intros nonce _; by destruct r, nonce).
  destruct (append_ret E _ clock _ _ _ _ _ HK Hs H1) as (Hi & Kn & Hm & l & data & c & Ap & _).
  destruct (attempt_not_doubt _ _ _ _ _ _ _ _ _ Ap) as (Hn & HA & HB).
  split; [constructor; by rewrite Hp|]. split; [done|]. split.
  - unfold at_attempt. rewrite Hp. split; [done|]. exists (l ++ [data]), sn. destruct Ap; done.
  - exists sn. split; [|done]. destruct Ap as [_ _ _ St R _ _]. eapply known_last; [apply (st_files _ _ _ St)|apply (st_bound _ _ _ St)|done].
Qed.

Lemma cloud_parts (r : role) parts :
  (_relative_parts (sp_request_path (spec_of r)) = Ok parts \/ _relative_parts (sp_response_path (spec_of r)) = Ok parts) ->
  removelast parts <> [JOURNAL_DIRECTORY] /\ published parts = true.
Proof. destruct r; (intros [H|H]; vm_compute in H; injection H as <-); split; done. Qed.

Lemma on_archive_kept {A} (m : M host A) : within (kept [JOURNAL_DIRECTORY]) m -> within tstep (on_archive m).
Proof. intros W. apply on_session_within. intros D. by apply within_skept, arch_skept. Qed.

Lemma request_kept r data : within (kept [JOURNAL_DIRECTORY]) (write_or_reopen_exact E (sp_request_path (spec_of r)) data MAX_REQUEST_BYTES).
Proof. apply write_or_reopen_exact_kept. intros parts H. apply (cloud_parts r). by left. Qed.

Lemma prepare_within r data sha : within tstep (_prepare E (spec_of r) data sha).
Proof.
  unfold _prepare, _archive_request_once, _read_exact_request. within_auto.
  - apply on_session_within. intros D. apply state_property_within.
  - apply on_archive_kept, request_kept.
  - apply append_or_within. by destruct r; intros [].
  - apply on_archive_kept, reads_kept, read_bytes_reads.
  - apply on_session_within. intros D. apply snapshot_property_within.
Qed.

(** The components of the request's path. *)
Definition request_parts (r : role) : path :=
  match r with Nonce => [u "cloud"; u "nonce-request.json"] | Receipt => [u "cloud"; u "receipt-request.json"] end.

Lemma request_parts_ok r : _relative_parts (sp_request_path (spec_of r)) = Ok (request_parts r) /\ published (request_parts r) = true.
Proof. destruct r; split; vm_compute; reflexivity. Qed.

Lemma on_archive_run {A} (m : M host A) t o t' :
  on_archive m t = (o, t') -> t_posts t' = t_posts t /\ m (thost t) = (o, thost t').
Proof.
  unfold on_archive. intros H. apply on_session_run in H as [Hp H]. apply arch_run in H as [_ H]. done.
Qed.

(** A prepared request is in the archive. *)
Lemma prepare_ret r data sha t t' :
  _prepare E (spec_of r) data sha t = (Ret (), t') -> h_files (thost t') !! request_parts r = Some data.
Proof.
  destruct (request_parts_ok r) as [RP RPub]. unfold _prepare. intros H. apply bind_ret_inv in H as (st & t1 & _ & H).
  destruct (bool_decide _).
  - apply bind_ret_inv in H as (rec & t2 & H2 & H). unfold _archive_request_once in H2. apply translate_ret, on_archive_run in H2 as [_ H2].
    apply write_or_reopen_exact_ret in H2 as (parts & HP & HF & _). rewrite RP in HP. injection HP as <-.
    apply bind_ret_inv in H as ([] & t3 & H3 & H). apply check_ret in H3 as [_ ->].
    apply bind_ret_inv in H as (sn & t4 & H4 & H). apply check_ret in H as [_ ->].
    pose proof (append_or_keeps (sp_prepared_event (spec_of r)) sha "request_prepare_record_failed" t2) as K. rewrite H4 in K.
    by apply K.
  - destruct (bool_decide _); [|done]. apply bind_ret_inv in H as (rec & t2 & H2 & H).
    unfold _read_exact_request in H2. apply bind_ret_inv in H2 as (observed & t3 & H3 & H2).
    apply translate_ret, on_archive_run in H3 as [_ H3]. apply read_bytes_ret in H3 as (Hh & parts & HP & HF).
    rewrite RP in HP. injection HP as <-. apply bind_ret_inv in H2 as ([] & t4 & H4 & H2). apply check_ret in H4 as [H4 ->].
    apply negb_false_iff, bool_decide_eq_true in H4 as ->. injection H2 as _ <-.
    apply bind_ret_inv in H as (sn & t5 & H5 & H). apply check_ret in H as [_ ->].
    assert (K : within tkeeps (on_session (snapshot_property E))) by (apply on_session_keeps, snapshot_property_keeps).
    specialize (K t3). rewrite H5 in K. cbn [snd] in K. apply K; [done|]. by rewrite Hh.
Qed.

(** After the call: what is recorded, and that nothing is lost. *)
Lemma record_pre_send_within r sha t :
  tinv t -> ~ in_doubt (t_posts t) (is_nonce r) -> tstep t (snd (_record_pre_send_failure E (spec_of r) sha t)).
Proof.
  intros Hi Hn _. destruct (_record_pre_send_failure E (spec_of r) sha t) as [o t'] eqn:H. cbn [snd].
  assert (EV : sp_pre_send_failed_event (spec_of r) = pre_send_event (is_nonce r)) by (by destruct r).
  unfold _record_pre_send_failure in H. rewrite EV in H.
  assert (W : forall o1 t1, append_or E (pre_send_event (is_nonce r)) sha "pre_send_failure_record_failed" t = (o1, t1) ->
    tinv t1 /\ forall x, known (thost t) x -> known (thost t1) x).
  { intros o1 t1 H1. destruct Hi as [Hs Ho]. unfold append_or, translate in H1.
    assert (X : forall o2 t2, on_session (append E (pre_send_event (is_nonce r)) sha) t = (o2, t2) ->
      tinv t2 /\ forall x, known (thost t) x -> known (thost t2) x).
    { intros o2 t2 H2. apply on_session_run in H2 as [Hp H2].
      assert (HK : keeps_doubt (in_doubt (t_posts t)) (pre_send_event (is_nonce r))).
      { intros nonce Hd Heq. assert (nonce = is_nonce r) by (destruct nonce, r; done). by subst nonce. }
      destruct (append_safe E _ clock [] _ sha HK _ _ _ H2 Hs ltac:(done)) as [[Hs2 Kn] _].
      split; [constructor; by rewrite Hp|exact Kn]. }
    apply try_cases in H1 as [(e & t2 & H2 & H1) | [H1 _]]; [|by eapply X].
    assert (t1 = t2) as -> by (by destruct (is_store_error e); injection H1 as _ <-). by eapply X. }
  apply bind_cases in H as [(sn & t1 & H1 & H) | [(e & H1 & ->) | [H1 ->]]]; [|by eapply W..].
  rewrite (reads_state _ _ _ _ (within_check eq _ _) H). by eapply W.
Qed.

Lemma outcome_unknown_within {A} r sha : within tstep (@_raise_outcome_unknown E A (spec_of r) sha).
Proof.
  unfold _raise_outcome_unknown, _record_outcome_unknown. within_auto. apply append_or_within. by destruct r; intros [].
Qed.

Lemma response_kept r data : within (kept [JOURNAL_DIRECTORY]) (write_bytes E (sp_response_path (spec_of r)) data MAX_RESPONSE_BYTES).
Proof. apply write_bytes_kept. intros parts H. apply (cloud_parts r). by right. Qed.

Lemma archive_response_within r sha answer : within tstep (_archive_response E (spec_of r) sha answer).
Proof.
  unfold _archive_response. within_auto; [apply on_archive_kept, response_kept | apply outcome_unknown_within].
Qed.

Lemma archive_response_keeps r sha answer : within tkeeps (_archive_response E (spec_of r) sha answer).
Proof.
  unfold _archive_response, _raise_outcome_unknown, _record_outcome_unknown. within_auto; try apply append_or_keeps.
  unfold on_archive. apply on_session_keeps, arch_keeps, write_bytes_hkeeps.
Qed.

(** Steps that keep the invariant, the published files and the requests sent. *)
Definition tquiet (t t' : txn) : Prop := tstep t t' /\ tkeeps t t' /\ t_posts t' = t_posts t.
#[export] Instance tquiet_refl : Reflexive tquiet.
Proof. intros t. split; [reflexivity|]. split; [reflexivity|done]. Qed.
#[export] Instance tquiet_trans : Transitive tquiet.
Proof. intros a b c (A1 & A2 & A3) (B1 & B2 & B3). split; [by etrans|]. split; [by etrans|congruence]. Qed.

Lemma on_session_same {A} (m : M session A) t : t_posts (snd (on_session m t)) = t_posts t.
Proof. unfold on_session, zoom. by destruct (m (t_session t)). Qed.

Lemma append_or_same event b code : within (fun t t' => t_posts t' = t_posts t) (append_or E event b code).
Proof.
  intros t. unfold append_or, translate, try_except. pose proof (on_session_same (append E event b) t) as H.
  destruct (on_session _ t) as [[a|e|] t']; [done| |done]. by destruct (is_store_error e).
Qed.

Lemma append_or_quiet event b code : (forall nonce, event <> pre_send_event nonce) -> within tquiet (append_or E event b code).
Proof. intros H t. split; [by apply append_or_within|]. split; [apply append_or_keeps|apply append_or_same]. Qed.

Lemma outcome_unknown_quiet {A} r sha : within tquiet (@_raise_outcome_unknown E A (spec_of r) sha).
Proof.
  unfold _raise_outcome_unknown, _record_outcome_unknown. within_auto. apply append_or_quiet. by destruct r; intros [].
Qed.

Lemma archive_response_quiet r sha answer : within tquiet (_archive_response E (spec_of r) sha answer).
Proof.
  unfold _archive_response. within_auto; [|apply outcome_unknown_quiet]. intros t. split; [apply on_archive_kept, response_kept|].
  split; [apply on_session_keeps, arch_keeps, write_bytes_hkeeps|apply on_session_same].
Qed.

Lemma pre_send_quiet r sha t :
  tinv t -> ~ in_doubt (t_posts t) (is_nonce r) -> tquiet t (snd (_record_pre_send_failure E (spec_of r) sha t)).
Proof.
  intros Hi Hn. split; [by apply record_pre_send_within|]. unfold _record_pre_send_failure. split.
  - assert (W : within tkeeps (_record_pre_send_failure E (spec_of r) sha)); [|apply W].
    unfold _record_pre_send_failure. within_auto. apply append_or_keeps.
  - pose proof (append_or_same (sp_pre_send_failed_event (spec_of r)) sha "pre_send_failure_record_failed" t) as H.
    unfold mbind, M_bind. destruct (append_or _ _ _ _ t) as [[a|e|] t']; [|done|done]. cbn [snd] in *.
    by rewrite <-H; destruct (negb _).
Qed.

(** The part of a transaction that sends. *)
Definition send (r : role) (normalized : json) (sha : str) : M txn response :=
  answer ← try_except (call_client client r normalized)
    (fun e =>
      if bool_decide (e = PreSendError) then _record_pre_send_failure E (spec_of r) sha ≫= fun _ => raise e
      else if is_exception e then _raise_outcome_unknown E (spec_of r) sha
      else raise e);
  response_sha256 ← _archive_response E (spec_of r) sha answer;
  snapshot ← append_or E (sp_response_event (spec_of r)) response_sha256 "response_record_failed";
  check (negb (bool_decide (sn_state snapshot = sp_received_state (spec_of r))) ||
         negb (str_eqb (sn_last_binding_sha256 snapshot) response_sha256))
    (TransactionError "response_state_mismatch") ≫= fun _ =>
  mret answer.

Lemma send_cases r normalized sha t o t' :
  tinv t -> at_attempt (is_nonce r) t -> send r normalized sha t = (o, t') ->
  tstep t t' /\ tkeeps t t' /\ exists p, t_posts t' = t_posts t ++ [p] /\ po_role p = r /\ po_request p = normalized.
Proof.
  intros Hi Ha H. unfold send in H.
  assert (C : forall o1 t1, call_client client r normalized t = (o1, t1) ->
    tstep t t1 /\ tkeeps t t1 /\ (exists p, t_posts t1 = t_posts t ++ [p] /\ po_role p = r /\ po_request p = normalized) /\
    tinv t1 /\ (o1 = Raise PreSendError -> ~ in_doubt (t_posts t1) (is_nonce r))).
  { intros o1 t1 H1. destruct (call_client_cases client r normalized t o1 t1 Hi Ha H1) as (Hi1 & Hn & Hs & Hp).
    split; [|split; [|done]].
    - intros _. split; [done|]. unfold thost. by rewrite Hs.
    - unfold tkeeps, thost. rewrite Hs. reflexivity. }
  assert (Q : forall t1 t2, tquiet t1 t2 ->
    tstep t t1 /\ tkeeps t t1 /\ (exists p, t_posts t1 = t_posts t ++ [p] /\ po_role p = r /\ po_request p = normalized) ->
    tstep t t2 /\ tkeeps t t2 /\ (exists p, t_posts t2 = t_posts t ++ [p] /\ po_role p = r /\ po_request p = normalized)).
  { intros t1 t2 (A1 & A2 & A3) (B1 & B2 & B3). split; [by etrans|]. split; [by etrans|]. by rewrite A3. }
  assert (TR : forall o1 t1, try_except (call_client client r normalized)
    (fun e => if bool_decide (e = PreSendError) then _record_pre_send_failure E (spec_of r) sha ≫= fun _ => raise e
      else if is_exception e then _raise_outcome_unknown E (spec_of r) sha else raise e) t = (o1, t1) ->
    tstep t t1 /\ tkeeps t t1 /\ exists p, t_posts t1 = t_posts t ++ [p] /\ po_role p = r /\ po_request p = normalized).
  { intros o1 t1 H1. apply try_cases in H1 as [(e & t2 & H2 & H1) | [H1 _]].
    - destruct (C _ _ H2) as (C1 & C2 & C3 & C4 & C5). apply (Q t2); [|done].
      destruct (bool_decide (e = PreSendError)) eqn:B.
      + apply bool_decide_eq_true in B as ->. pose proof (pre_send_quiet r sha t2 C4 (C5 eq_refl)) as P.
        unfold mbind, M_bind in H1. destruct (_record_pre_send_failure E (spec_of r) sha t2) as [[a|e|] t3]; by injection H1 as _ <-.
      + destruct (is_exception e); [|by injection H1 as _ <-].
        pose proof (outcome_unknown_quiet (A := response) r sha t2) as P. by rewrite H1 in P.
    - destruct (C _ _ H1) as (C1 & C2 & C3 & _). done. }
  apply bind_cases in H as [(answer & t1 & H1 & H) | [(e & H1 & ->) | [H1 ->]]]; [|by eapply TR..].
  apply (Q t1); [|by eapply TR].
  assert (W : within tquiet (response_sha256 ← _archive_response E (spec_of r) sha answer;
    snapshot ← append_or E (sp_response_event (spec_of r)) response_sha256 "response_record_failed";
    check (negb (bool_decide (sn_state snapshot = sp_received_state (spec_of r))) ||
         negb (str_eqb (sn_last_binding_sha256 snapshot) response_sha256))
      (TransactionError "response_state_mismatch") ≫= fun _ => mret answer)).
  { within_auto; [apply archive_response_quiet|]. apply append_or_quiet. by destruct r; intros []. }
  specialize (W t1). by rewrite H in W.
Qed.

Lemma prepare_same r data sha : within (fun t t' => t_posts t' = t_posts t) (_prepare E (spec_of r) data sha).
Proof.
  assert (R : Reflexive (fun t t' : txn => t_posts t' = t_posts t)) by (by intros t).
  assert (T : Transitive (fun t t' : txn => t_posts t' = t_posts t)) by (intros a b c H1 H2; congruence).
  unfold _prepare, _archive_request_once, _read_exact_request. within_auto;
    try (intros t; apply on_session_same); apply append_or_same.
Qed.

Lemma execute_unfold r request :
  _execute E client (spec_of r) request =
  ('(normalized, request_bytes, request_sha256) ← of_result (_canonical_request (spec_of r) request);
   _prepare E (spec_of r) request_bytes request_sha256 ≫= fun _ =>
   _append_attempt E (spec_of r) request_sha256 ≫= fun _ => send r normalized request_sha256).
Proof. by destruct r. Qed.

(** What a transaction has done when it has sent a request. *)
Definition sent (r : role) (request : json) (t t' : txn) : Prop :=
  exists normalized data sha p sn,
    _canonical_request (spec_of r) request = Ok (normalized, data, sha) /\
    t_posts t' = t_posts t ++ [p] /\ po_role p = r /\ po_request p = normalized /\
    h_files (thost t') !! request_parts r = Some data /\
    known (thost t') (Some sn) /\ sn_state sn = sp_attempted_state (spec_of r) /\ sn_last_binding_sha256 sn = sha.

Lemma execute_cases r request t o t' :
  tinv t -> _execute E client (spec_of r) request t = (o, t') ->
  (tinv t' /\ forall x, known (thost t) x -> known (thost t') x) /\ (t_posts t' = t_posts t \/ sent r request t t').
Proof.
  intros Hi H. rewrite execute_unfold in H. apply bind_result in H as [([[normalized data] sha] & HC & H) | [-> _]]; [|by auto].
  pose proof (prepare_within r data sha) as WP. pose proof (prepare_same r data sha) as SP.
  specialize (WP t Hi). specialize (SP t).
  apply bind_cases in H as [([] & t1 & H1 & H) | [(e & H1 & ->) | [H1 ->]]]; rewrite H1 in WP, SP; cbn [snd] in WP, SP;
    [|split; [apply WP|by left]..]. destruct WP as [Hi1 Kn1].
  assert (WA : within tquiet (_append_attempt E (spec_of r) sha)).
  { unfold _append_attempt. within_auto. apply append_or_quiet. by destruct r; intros []. }
  specialize (WA t1). pose proof (prepare_ret r data sha t t1 H1) as HF.
  apply bind_cases in H as [([] & t2 & H2 & H) | [(e & H2 & ->) | [H2 ->]]]; rewrite H2 in WA; cbn [snd] in WA;
    destruct WA as (WA1 & WA2 & WA3); [|destruct (WA1 Hi1); split; [split; [done|auto]|left; congruence]..].
  destruct (attempt_ret r sha t1 t2 Hi1 H2) as (Hi2 & Hp2 & Hat & sn & Hk & Hst & Hb).
  destruct (send_cases r normalized sha t2 o t' Hi2 Hat H) as (S1 & S2 & p & S3 & S4 & S5).
  destruct (S1 Hi2) as [Hi' Kn]. destruct (WA1 Hi1) as [_ Kn2]. split; [split; [done|auto]|]. right. exists normalized, data, sha, p, sn.
  split_and!; try done; [congruence| |by apply Kn].
  apply S2; [apply request_parts_ok|]. apply WA2; [apply request_parts_ok|done].
Qed.

Lemma issue_cases r (role_ok : response -> bool) e request t o t' :
  tinv t -> (answer ← _execute E client (spec_of r) request; check (negb (role_ok answer)) e ≫= fun _ => mret answer) t = (o, t') ->
  (tinv t' /\ forall x, known (thost t) x -> known (thost t') x) /\ (t_posts t' = t_posts t \/ sent r request t t').
Proof.
  intros Hi H. apply bind_cases in H as [(a & t1 & H1 & H) | [(e' & H1 & ->) | [H1 ->]]]; [|by eapply execute_cases..].
  assert (t' = t1) as -> by (by destruct (role_ok a); injection H as _ <-). by eapply execute_cases.
Qed.

Lemma issue_nonce_cases request t o t' :
  tinv t -> issue_nonce E client request t = (o, t') ->
  (tinv t' /\ forall x, known (thost t) x -> known (thost t') x) /\ (t_posts t' = t_posts t \/ sent Nonce request t t').
Proof. intros Hi H. eapply (issue_cases Nonce (fun a => bool_decide (response_role a = Some Nonce))); [done|exact H]. Qed.

Lemma issue_receipt_cases request t o t' :
  tinv t -> issue_receipt E client request t = (o, t') ->
  (tinv t' /\ forall x, known (thost t) x -> known (thost t') x) /\ (t_posts t' = t_posts t \/ sent Receipt request t t').
Proof. intros Hi H. eapply (issue_cases Receipt (fun a => bool_decide (response_role a = Some Receipt))); [done|exact H]. Qed.

End Execute.

Lemma prepare_keeps E r data sha : within tkeeps (_prepare E (spec_of r) data sha).
Proof.
  unfold _prepare, _archive_request_once, _read_exact_request. within_auto; try apply append_or_keeps;
    first [apply on_session_keeps, state_property_keeps | apply on_session_keeps, snapshot_property_keeps
      | apply on_session_keeps, arch_keeps, write_or_reopen_exact_hkeeps | apply on_session_keeps, arch_reads_keeps, read_bytes_reads].
Qed.

Lemma call_client_keeps client r request : within tkeeps (call_client client r request).
Proof. intros t. unfold call_client. destruct (client r request _); unfold tkeeps; cbn; reflexivity. Qed.

Lemma execute_keeps E client r request : within tkeeps (_execute E client (spec_of r) request).
Proof.
  unfold _execute, _append_attempt, _record_pre_send_failure, _raise_outcome_unknown, _record_outcome_unknown. within_auto;
    first [apply append_or_keeps | apply prepare_keeps | apply call_client_keeps | apply archive_response_keeps].
Qed.
