(* ===== verification/FinalizeProofs.v ===== *)
(** * What finalization keeps, and what it returns

    [finalize_session] of src/scripts/physical_capture/finalize.py keeps the
    invariant of the transactions and every published file, whatever the
    materialisers and validators do with what they are given; what it returns
    is the run record that the archive holds and the journal binds. *)

From S2P Require Import Prelude Sha256 Text Json DateTime Effects Programs Archive ArchiveProofs ArchiveSafety Observation TrustPolicy.
From S2P Require Import Python Timestamp Identity Catalogue CollectorRequest Composition CollectorProofs ArtifactReader ReaderProofs ProofMaterial.
From S2P Require Import Journal JournalHistory Session JournalStore SessionProofs Recovery RecoveryProofs SessionKeeps Transaction TransactionProofs Finalize.

Open Scope Z_scope.
Open Scope list_scope.
Import Quiet.

(** ** Paths apart from the journal *)

Lemma apart_parts a rest parts : 47 ∉ a -> a <> JOURNAL_DIRECTORY ->
  _relative_parts (a ++ 47 :: rest) = Ok parts -> removelast parts <> [JOURNAL_DIRECTORY].
Proof.
  intros HA HJ H. apply relative_parts_ok in H as (-> & _ & _). unfold split_slash. rewrite split_slash_from_app by done.
  cbn [app]. destruct (split_slash_from [] rest) as [|b l] eqn:S; [by apply split_slash_from_ne in S|]. cbn [removelast]. by intros [= ->].
Qed.

Lemma derived_apart rest parts : _relative_parts (u "derived" ++ 47 :: rest) = Ok parts -> removelast parts <> [JOURNAL_DIRECTORY].
Proof. apply apart_parts; [apply (bool_decide_eq_true_1 _); reflexivity|done]. Qed.
Lemma raw_apart rest parts : _relative_parts (u "raw" ++ 47 :: rest) = Ok parts -> removelast parts <> [JOURNAL_DIRECTORY].
Proof. apply apart_parts; [apply (bool_decide_eq_true_1 _); reflexivity|done]. Qed.

(** ** Quiet steps *)

Section Quiet_steps.
Context (E : env).
Hypothesis clock : forall n, valid_datetime (e_now E n) = true.

Lemma on_session_quiet {A} (m : M session A) : (forall D, within (sstep D) m) -> within skeeps m -> within tquiet (on_session m).
Proof using. intros W K t. split; [by apply on_session_within|]. split; [by apply on_session_keeps|apply on_session_same]. Qed.
Lemma on_archive_quiet {A} (m : M host A) : within (kept [JOURNAL_DIRECTORY]) m -> within hkeeps m -> within tquiet (on_archive m).
Proof using. intros W K t. split; [by apply on_archive_kept|]. split; [by apply on_session_keeps, arch_keeps|apply on_session_same]. Qed.
Lemma on_archive_reads {A} (m : M host A) : reads m -> within tquiet (on_archive m).
Proof using. intros R. apply on_archive_quiet; [by apply reads_kept|by apply reads_hkeeps]. Qed.

Lemma state_quiet : within tquiet (on_session (state_property E)).
Proof using. apply on_session_quiet; [intros D; apply state_property_within|apply state_property_keeps]. Qed.
Lemma snapshot_quiet : within tquiet (on_session (snapshot_property E)).
Proof using. apply on_session_quiet; [intros D; apply snapshot_property_within|apply snapshot_property_keeps]. Qed.
Lemma manifest_quiet : within tquiet (on_session (load_frozen_manifest E)).
Proof using.
  apply on_session_quiet; [intros D; apply load_frozen_manifest_within|]. unfold load_frozen_manifest.
  within_auto; first [apply snapshot_property_keeps | apply activate_keeps | apply (within_raise skeeps)].
Qed.
Lemma append_quiet event b : (forall nonce, event <> pre_send_event nonce) -> within tquiet (on_session (append E event b)).
Proof using clock. intros H. apply on_session_quiet; [intros D; by apply append_within|apply append_keeps]. Qed.
Lemma interrupted_quiet : within tquiet (on_session (interrupted_attempt E)).
Proof using.
  apply on_session_quiet; [intros D|]; unfold interrupted_attempt; within_auto; [apply state_property_within|apply state_property_keeps].
Qed.
Lemma resolve_quiet : within tquiet (on_session (resolve_interrupted_attempt E)).
Proof using clock. apply on_session_quiet; [intros D; by apply resolve_interrupted_attempt_within|apply resolve_interrupted_keeps]. Qed.

Create HintDb finalize.
#[local] Hint Resolve state_quiet snapshot_quiet manifest_quiet interrupted_quiet resolve_quiet : finalize.
#[local] Hint Extern 1 (within tquiet (FE _)) => apply (within_raise tquiet) : finalize.
Ltac quiet_auto := within_auto; eauto with finalize.

Lemma write_json_quiet rest value maximum : within tquiet (_write_or_reopen_json E (u "derived" ++ 47 :: rest) value maximum).
Proof using.
  unfold _write_or_reopen_json, _write_or_reopen_exact. quiet_auto. apply on_archive_quiet.
  - apply write_or_reopen_exact_kept. apply derived_apart.
  - apply write_or_reopen_exact_hkeeps.
Qed.

Lemma load_json_quiet relative maximum : within tquiet (_load_json E relative maximum).
Proof using.
  unfold _load_json. quiet_auto; [apply on_archive_reads, read_bytes_reads|apply on_archive_reads, describe_file_reads].
Qed.
#[local] Hint Resolve load_json_quiet : finalize.

Lemma signing_time_quiet sr : within tquiet (_load_or_create_signing_time E sr).
Proof using. unfold _load_or_create_signing_time. quiet_auto. apply write_json_quiet. Qed.

Lemma perform_material_quiet a : within tquiet (perform_material E a).
Proof using.
  destruct a as [| | |name data maximum|name data maximum]; cbn [perform_material]; quiet_auto.
  - apply on_archive_quiet; [apply write_bytes_kept|apply write_bytes_hkeeps]. apply raw_apart.
  - apply on_archive_quiet; [apply write_or_reopen_exact_kept|apply write_or_reopen_exact_hkeeps]. apply raw_apart.
Qed.
Lemma run_material_quiet {A} (p : materializer A) : within tquiet (run_material E p).
Proof using. apply run_within; [apply _|apply _|apply perform_material_quiet]. Qed.
#[local] Hint Resolve signing_time_quiet run_material_quiet : finalize.

Lemma report_metadata_quiet reports : forall seen, within tquiet (report_metadata E seen reports).
Proof using.
  induction reports as [|r rs IH]; intros seen; cbn [report_metadata]; [quiet_auto|]. unfold _report_metadata. quiet_auto.
  apply write_json_quiet.
Qed.
#[local] Hint Resolve report_metadata_quiet : finalize.

Lemma materialize_quiet mz sr context proof : within tquiet (_materialize_report_set E mz sr context proof).
Proof using. unfold _materialize_report_set. quiet_auto; [apply on_archive_reads, list_names_reads|apply on_archive_reads, pending_files_reads]. Qed.

(** The reader changes nothing. *)
Definition same_tree (r r' : reading quiet) : Prop := q_host (rd_os r') = q_host (rd_os r).
#[local] Instance same_tree_refl : Reflexive same_tree.
Proof using. done. Qed.
#[local] Instance same_tree_trans : Transitive same_tree.
Proof using. intros a b c H1 H2. unfold same_tree in *. congruence. Qed.

Lemma sys_tree {A} (m : M quiet A) : within (fun q q' => q_host q' = q_host q) m -> within same_tree (sys m).
Proof using. intros W r. unfold sys, zoom, same_tree. specialize (W (rd_os r)). by destruct (m (rd_os r)). Qed.

#[local] Instance quiet_host_refl : Reflexive (fun q q' : quiet => q_host q' = q_host q).
Proof using. done. Qed.
#[local] Instance quiet_host_trans : Transitive (fun q q' : quiet => q_host q' = q_host q).
Proof using. intros a b c H1 H2. congruence. Qed.

Lemma entry_host f : within (fun q q' : quiet => q_host q' = q_host q) (entry f).
Proof using. intros q. unfold entry. by destruct (q_table q !! f). Qed.
Lemma open_root_tree : within same_tree (sys os_open_root).
Proof using. apply sys_tree. cbn [os_open_root quiet_posix]. unfold q_open_root. within_auto. Qed.
Lemma stat_root_tree : within same_tree (sys os_stat_root).
Proof using. apply sys_tree. cbn [os_stat_root quiet_posix]. unfold q_stat_root. within_auto. Qed.
Lemma open_tree f name b : within same_tree (sys (os_open f name b)).
Proof using. apply sys_tree. cbn [os_open quiet_posix]. unfold q_open. within_auto. apply entry_host. Qed.
Lemma fstat_tree f : within same_tree (sys (os_fstat f)).
Proof using. apply sys_tree. cbn [os_fstat quiet_posix]. unfold q_fstat. within_auto. apply entry_host. Qed.
Lemma read_tree f n : within same_tree (sys (os_read f n)).
Proof using. apply sys_tree. cbn [os_read quiet_posix]. unfold q_read. within_auto. apply entry_host. Qed.
#[local] Hint Resolve open_root_tree stat_root_tree open_tree fstat_tree read_tree : finalize.

Lemma root_tree : within same_tree _require_root.
Proof using. unfold _require_root. quiet_auto. Qed.
#[local] Hint Resolve root_tree : finalize.
Lemma check_root_tree : within same_tree _check_root_path.
Proof using. unfold _check_root_path. apply within_bind; [apply _|apply root_tree|]. intros [f i]. quiet_auto. Qed.
Lemma descend_tree components : forall f, within same_tree (descend f components).
Proof using. induction components as [|c cs IH]; intros f; cbn [descend]; quiet_auto. Qed.
#[local] Hint Resolve check_root_tree descend_tree : finalize.
Lemma open_relative_tree p : within same_tree (_open_relative p).
Proof using. unfold _open_relative. apply within_bind; [apply _|apply root_tree|]. intros [f i]. quiet_auto. Qed.
Lemma read_fd_tree f n : within same_tree (_read_fd f n).
Proof using.
  unfold _read_fd. apply within_bind; [apply _| |intros [t|a]; quiet_auto]. apply loop_within; [apply _|apply _|]. intros [b k].
  unfold read_chunk. quiet_auto.
Qed.
#[local] Hint Resolve open_relative_tree read_fd_tree : finalize.
Lemma set_object_tree f : within same_tree (modify (set_object f)).
Proof using. done. Qed.
#[local] Hint Resolve set_object_tree : finalize.
Lemma reader_read_tree kinds value : within same_tree (read kinds value).
Proof using. unfold read. quiet_auto. Qed.
Lemma verify_tree p : within same_tree (verify_all_unchanged p).
Proof using. unfold verify_all_unchanged, _revalidate_snapshot. quiet_auto. Qed.
#[local] Hint Resolve reader_read_tree verify_tree : finalize.

Lemma validate_report_tree vd reports raws harness : within same_tree (validate_report vd reports raws harness).
Proof using. unfold validate_report, read_json. quiet_auto. apply run_within; [apply _|apply _|]. intros [kinds value]. apply reader_read_tree. Qed.
Lemma validate_reports_tree vd reports raws harnesses : within same_tree (validate_reports vd reports raws harnesses).
Proof using. induction harnesses as [|h hs IH]; cbn [validate_reports]; quiet_auto. apply validate_report_tree. Qed.
#[local] Hint Resolve validate_reports_tree : finalize.

Lemma on_reader_reads {A} (m : M (reading quiet) A) : within same_tree m -> reads (on_reader m).
Proof using.
  intros W t. unfold on_reader, with_reader.
  assert (X : within same_tree (__enter__ ≫= fun _ => finally m __exit__)) by (unfold __enter__, __exit__; quiet_auto).
  specialize (X (Reading new_reader (Opened (s_host (t_session t)) []))). destruct ((__enter__ ≫= _) _) as [o r]. unfold same_tree in X. cbn in X |- *.
  rewrite X. by destruct t as [[]].
Qed.

Lemma reads_quiet {A} (m : M txn A) : reads m -> within tquiet m.
Proof using. apply within_impl. intros s s' ->. reflexivity. Qed.

Lemma validate_report_set_reads vd value : reads (_validate_report_set vd value).
Proof using.
  unfold _validate_report_set. within_auto. apply on_reader_reads. within_auto; [apply validate_reports_tree|apply verify_tree].
Qed.
#[local] Hint Resolve materialize_quiet : finalize.
#[local] Hint Extern 1 (within tquiet (_validate_report_set _ _)) => apply reads_quiet, validate_report_set_reads : finalize.
#[local] Hint Extern 1 (within tquiet (_write_or_reopen_json _ _ _ _)) => apply write_json_quiet : finalize.
#[local] Hint Extern 1 (within tquiet (on_session (append _ _ _))) => apply append_quiet; by intros [] : finalize.

Lemma ensure_reports_quiet mz vd sr context proof : within tquiet (_ensure_reports E mz vd sr context proof).
Proof using clock. unfold _ensure_reports, _load_report_set. quiet_auto. Qed.
Lemma ensure_bindings_quiet report_set : within tquiet (_ensure_bindings E report_set).
Proof using clock. unfold _ensure_bindings. quiet_auto. Qed.
Lemma load_finalized_quiet : within tquiet (load_finalized_run_record E).
Proof using. unfold load_finalized_run_record. quiet_auto. Qed.

(** ** Steps that may send *)

(** The invariant and the published files are kept, and requests only added. *)
Definition tsends (t t' : txn) : Prop := tstep t t' /\ tkeeps t t' /\ (tinv t -> t_posts t `prefix_of` t_posts t').
#[export] Instance tsends_refl : Reflexive tsends.
Proof using. intros t. split; [reflexivity|]. split; [reflexivity|done]. Qed.
#[export] Instance tsends_trans : Transitive tsends.
Proof using.
  intros a b c (A1 & A2 & A3) (B1 & B2 & B3). split; [by etrans|]. split; [by etrans|]. intros H. etrans; [by apply A3|]. by apply B3, A1.
Qed.

Lemma quiet_sends {A} (m : M txn A) : within tquiet m -> within tsends m.
Proof using. apply within_impl. intros s s' (H1 & H2 & H3). split; [done|]. split; [done|]. by rewrite H3. Qed.

Lemma cases_sends r request t t' : tkeeps t t' ->
  (tinv t -> (tinv t' /\ forall x, known (thost t) x -> known (thost t') x) /\ (t_posts t' = t_posts t \/ sent r request t t')) -> tsends t t'.
Proof using.
  intros K H. split; [intros Hi; by apply H|]. split; [done|]. intros Hi. destruct (H Hi) as [_ [-> | (n & d & h & p & sn & _ & -> & _)]]; [done|by exists [p]].
Qed.

Lemma issue_nonce_sends client request : within tsends (issue_nonce E client request).
Proof using clock.
  intros t. apply (cases_sends Nonce request); [|intros Hi; by eapply issue_nonce_cases, surjective_pairing].
  assert (K : within tkeeps (issue_nonce E client request)); [|apply K]. unfold issue_nonce. within_auto. apply (execute_keeps E client Nonce).
Qed.
Lemma issue_receipt_sends client request : within tsends (issue_receipt E client request).
Proof using clock.
  intros t. apply (cases_sends Receipt request); [|intros Hi; by eapply issue_receipt_cases, surjective_pairing].
  assert (K : within tkeeps (issue_receipt E client request)); [|apply K]. unfold issue_receipt. within_auto. apply (execute_keeps E client Receipt).
Qed.

#[local] Hint Resolve issue_nonce_sends issue_receipt_sends : finalize.
#[local] Hint Extern 2 (within tsends _) => apply quiet_sends; solve [eauto 2 with finalize] : finalize.

Lemma nonce_response_quiet : within tquiet (_nonce_response E).
Proof using. unfold _nonce_response. quiet_auto. Qed.
Lemma receipt_response_quiet : within tquiet (_receipt_response E).
Proof using. unfold _receipt_response. quiet_auto. Qed.
Lemma receipt_request_quiet : within tquiet (_receipt_request E).
Proof using. unfold _receipt_request. quiet_auto. Qed.
#[local] Hint Resolve nonce_response_quiet receipt_response_quiet receipt_request_quiet ensure_reports_quiet ensure_bindings_quiet load_finalized_quiet : finalize.

Lemma nonce_phase_sends sr client context : within tsends (_issue_or_reopen_nonce E sr client context).
Proof using clock. unfold _issue_or_reopen_nonce. quiet_auto. Qed.
Lemma receipt_phase_sends sr client context nonce bindings : within tsends (_issue_or_reopen_receipt E sr client context nonce bindings).
Proof using clock. unfold _issue_or_reopen_receipt. quiet_auto. Qed.
#[local] Hint Resolve nonce_phase_sends receipt_phase_sends : finalize.

(** Finalization keeps the invariant and every published file. *)
Lemma finalize_sends mz vd sr client context : within tsends (finalize_session E mz vd sr client context).
Proof using clock. unfold finalize_session. quiet_auto. Qed.
End Quiet_steps.
