(* ===== verification/ReportSet.v ===== *)
(** * A validated report set

    What [_validate_report_set] of src/scripts/physical_capture/finalize.py has
    established when it returns: each of the four reports is a file of the
    archive with the digest and size its metadata states, its document says what
    the metadata says, the validator of its harness accepted it, and the raw
    artifacts listed for it are the ones the validator found. *)

From S2P Require Import Prelude Sha256 Text Json DateTime Effects Programs Archive ArchiveProofs ArchiveSafety Observation TrustPolicy.
From S2P Require Import Python Timestamp Identity Catalogue CollectorRequest Composition CollectorProofs ArtifactReader ReaderProofs ProofMaterial.
From S2P Require Import Journal JournalHistory Session JournalStore SessionProofs Recovery RecoveryProofs SessionKeeps Transaction TransactionProofs Finalize FinalizeProofs.

Open Scope Z_scope.
Open Scope list_scope.
Import Quiet.

(** ** A reader on a tree *)

(** A reader with its root open on the tree [h]. *)
Definition at_tree (h : host) (r : reading quiet) : Prop := exists obj tab, r = Reading obj (Opened h tab) /\ root_open h obj tab.
Definition stays_at (h : host) (r r' : reading quiet) : Prop := at_tree h r -> at_tree h r'.
#[export] Instance stays_at_refl h : Reflexive (stays_at h).
Proof. intros r H. exact H. Qed.
#[export] Instance stays_at_trans h : Transitive (stays_at h).
Proof. intros a b c H1 H2 H. by apply H2, H1. Qed.

#[local] Opaque loop _read_fd _open_relative _check_root_path.

(** A read that is refused before anything is opened. *)
Lemma read_refused kinds value (r : reading quiet) d : parse_descriptor_of kinds value = Some d -> ~ fresh_for (rd_object r) d ->
  read kinds value r = (Raise RawArtifactError, r).
Proof.
  intros HD N. unfold read. rewrite HD, (bind_ret_eq (of_option RawArtifactError (Some d)) _ r d r eq_refl).
  rewrite (bind_ret_eq (gets rd_object) _ r (rd_object r) r eq_refl).
  destruct (mem (ad_path d) _) eqn:G1; [by rewrite bind_stop|]. rewrite bind_pass by done.
  destruct (mem (ad_sha256 d) _) eqn:G2; [by rewrite bind_stop|]. rewrite bind_pass by done.
  destruct (MAX_ARTIFACT_COUNT <? _) eqn:G3; [by rewrite bind_stop|]. rewrite bind_pass by done.
  destruct (MAX_TOTAL_ARTIFACT_BYTES <? _) eqn:G4; [by rewrite bind_stop|]. destruct N.
  constructor; [by apply mem_false|by apply mem_false|by apply Z.ltb_ge|by apply Z.ltb_ge].
Qed.

Lemma fresh_decided (obj : ArtifactReader quiet) d : fresh_for obj d \/ ~ fresh_for obj d.
Proof.
  destruct (decide (ad_path d ∈ ar_seen_paths obj)); [by right; intros []|]. destruct (decide (ad_sha256 d ∈ ar_seen_digests obj)); [by right; intros []|].
  destruct (decide (ar_artifact_count obj + 1 <= MAX_ARTIFACT_COUNT)); [|by right; intros []].
  destruct (decide (ar_total_bytes obj + ad_size d <= MAX_TOTAL_ARTIFACT_BYTES)); [|by right; intros []]. by left.
Qed.

Lemma accepted_open h obj tab d m : root_open h obj tab -> root_open h (accepted d m obj) tab.
Proof. intros [R H N]. by constructor. Qed.

Lemma read_at h kinds value r o r' : at_tree h r -> read kinds value r = (o, r') ->
  at_tree h r' /\ forall d data, o = Ret (d, data) -> parse_descriptor_of kinds value = Some d /\ in_tree h d data.
Proof.
  intros (obj & tab & -> & RO) H. destruct (parse_descriptor_of kinds value) as [d|] eqn:HD.
  2: { unfold read in H. rewrite HD in H. injection H as <- <-. split; [by exists obj, tab|done]. }
  destruct (fresh_decided obj d) as [F|N].
  - destruct (read_run h obj tab kinds value d RO HD F) as (tab' & G & [(data & T & E) | [_ E]]); rewrite E in H; injection H as <- <-;
      pose proof (root_open_grows _ _ _ _ RO G) as RO'.
    + split; [eexists _, tab'; split; [reflexivity|by apply accepted_open]|]. by intros d' data' [= <- <-].
    + split; [by exists obj, tab'|done].
  - rewrite (read_refused kinds value (Reading obj (Opened h tab)) d HD N) in H. injection H as <- <-. split; [by exists obj, tab|done].
Qed.

Lemma read_stays h kinds value : within (stays_at h) (read kinds value).
Proof. intros r A. destruct (read kinds value r) as [o r'] eqn:H. by apply (read_at h kinds value r o r'). Qed.
Lemma validator_stays h {A} (p : program read_answer A) : within (stays_at h) (run perform_read p).
Proof. apply run_within; [apply _|apply _|]. intros [kinds value]. apply read_stays. Qed.

(** A reader that was entered is on the tree. *)
Lemma entered_at h r' : __enter__ (Reading new_reader (Opened h [])) = (Ret (), r') -> at_tree h r'.
Proof.
  intros H. unfold __enter__ in H. apply bind_ret_inv in H as (f & r1 & H1 & H). apply translate_ret in H1.
  unfold sys, zoom in H1. cbn [rd_os os_open_root quiet_posix] in H1. unfold q_open_root, mbind, M_bind, gets, check in H1. cbn [q_host] in H1.
  destruct (h_root h) eqn:HR; [|discriminate H1]. injection H1 as <- <-. apply bind_ret_inv in H as (m & r2 & H2 & H).
  pose proof (fstat_run new_reader h [([], 0)] 0%nat [] 0 eq_refl) as E. change (sys (os_fstat (0%nat : fd)) (Reading new_reader (Opened h [([], 0)])) = (Ret m, r2)) in H2.
  rewrite E in H2. injection H2 as <- <-.
  apply bind_ret_inv in H as ([] & r3 & H3 & H). apply check_ret in H3 as [G ->]. injection H as <-.
  destruct (h_files h !! []) eqn:HF; [unfold metadata_at in G; rewrite HF in G; discriminate G|].
  eexists _, [([], 0)]. split; [reflexivity|]. constructor; [|done|done].
  exists 0%nat, 0. split; [|done]. cbn [opened ar_root]. unfold metadata_at. by rewrite HF.
Qed.

(** ** The reports *)

(** The report of [harness] with [metadata] is in the archive [h], its document was
    accepted by the validator, and the artifacts it found are those of [raws]. *)
Definition report_backed (vd : validators) (h : host) (raws : list json) (harness : str) (metadata : json) : Prop :=
  exists version kind d data document found r r',
    assoc EXPECTED_REPORTS harness = Some (version, kind) /\ ad_kind d = kind /\
    in_tree h d data /\ load_json_bytes data = Some (JObj document) /\
    py_eq metadata (JObj [(u "tool_version", JStr version); (u "captured_at", member document "captured_at");
                          (u "completed_at", member document "completed_at"); (u "signed_at", member document "signed_at");
                          (u "artifact", descriptor_as_dict d)]) = true /\
    at_tree h r /\ run perform_read (vd harness document) r = (Ret found, r') /\
    py_eq (JList (merge_sort subject_le (map (fun x => report_artifact_json {| ra_harness := harness; ra_subject := fst x; ra_descriptor := snd x |}) found)))
          (JList (merge_sort subject_le (List.filter (fun b => json_eq_str (member (dict_items b) "harness") harness) raws))) = true.

Lemma parsed_kind kind value d : parse_descriptor_of [kind] value = Some d -> ad_kind d = kind.
Proof.
  unfold parse_descriptor_of. intros H. apply bind_Some in H as (d' & _ & X). destruct (mem _ _) eqn:G in X; [|discriminate X]. injection X as ->.
  apply mem_spec in G. by apply list_elem_of_singleton in G.
Qed.

Lemma validate_report_at vd reports raws harness h r o r' : at_tree h r -> validate_report vd reports raws harness r = (o, r') ->
  at_tree h r' /\ forall x, o = Ret x -> fst x = harness /\ obj_get reports harness = Some (snd x) /\ report_backed vd h raws harness (snd x).
Proof.
  intros A H. split.
  { assert (W : within (stays_at h) (validate_report vd reports raws harness)).
    { unfold validate_report, read_json. within_auto; [apply read_stays|apply validator_stays]. }
    specialize (W r A). by rewrite H in W. }
  intros x ->. unfold validate_report in H. apply bind_ret_inv in H as ([version kind] & r1 & H1 & H). apply of_option_ret in H1 as [HE ->].
  apply bind_ret_inv in H as (metadata & r1 & H1 & H). apply of_option_ret in H1 as [HM ->].
  apply bind_ret_inv in H as (artifact & r1 & H1 & H).
  assert (r1 = r) as -> by (destruct metadata; try discriminate H1; by apply of_option_ret in H1 as [_ ->]).
  apply bind_ret_inv in H as ([d value] & r1 & H2 & H). unfold read_json in H2. apply bind_ret_inv in H2 as ([d' data] & r2 & H2 & H3).
  destruct (read_at h _ _ _ _ _ A H2) as [A2 T]. destruct (T _ _ eq_refl) as [HD HT].
  apply bind_ret_inv in H3 as (v & r3 & H3 & H4). apply of_option_ret in H3 as [HL ->]. injection H4 as -> -> ->.
  apply bind_ret_inv in H as (document & r3 & H3 & H). destruct value as [| | | | | |l]; try discriminate H3. injection H3 as <- <-.
  apply bind_ret_inv in H as (found & r3 & H3 & H). cbv zeta in H.
  apply bind_ret_inv in H as ([] & r4 & H4 & H). apply check_ret in H4 as [G1%negb_false_iff ->].
  apply bind_ret_inv in H as ([] & r4 & H4 & H). apply check_ret in H4 as [G2%negb_false_iff ->]. injection H as <- _.
  split; [done|]. split; [done|]. exists version, kind, d, data, l, found, r1, r3.
  split; [done|]. split; [by eapply parsed_kind|]. by split_and!.
Qed.

Lemma validate_reports_at vd reports raws h harnesses : forall r l r', at_tree h r -> validate_reports vd reports raws harnesses r = (Ret l, r') ->
  map fst l = harnesses /\ Forall (fun x => obj_get reports (fst x) = Some (snd x) /\ report_backed vd h raws (fst x) (snd x)) l.
Proof.
  induction harnesses as [|harness harnesses IH]; intros r l r' A H; cbn [validate_reports] in H; [by injection H as <- _|].
  apply bind_ret_inv in H as (x & r1 & H1 & H). destruct (validate_report_at _ _ _ _ h _ _ _ A H1) as [A1 X]. destruct (X x eq_refl) as (X1 & X2 & X3).
  apply bind_ret_inv in H as (rest & r2 & H2 & H). destruct (IH _ _ _ A1 H2) as [I1 I2]. injection H as <- _.
  cbn [map]. rewrite X1, I1. split; [done|]. constructor; [by rewrite X1|done].
Qed.

(** C12: a validated report set describes the archive.  When [_validate_report_set]
    returns, whatever the validators are, nothing has changed; the set has exactly
    the four harnesses, and its reports and raw artifacts compose to receipt
    bindings, whose raw artifacts are the ones returned; each report is a file of
    the archive with the size and digest its metadata states, the JSON document in
    it states the times of the metadata, the validator of its harness returned on
    it, and the artifacts the set lists for that harness are those it found. *)
Theorem validated_reports_backed vd value t :
  match _validate_report_set vd value t with
  | (Ret (reports, raw_artifacts), t') =>
      t' = t /\ map fst reports = REPORT_HARNESSES /\
      exists entries raws b,
        exact_object value REPORT_SET_FIELDS = Some entries /\ member entries "raw_artifacts" = JList raws /\
        compose_receipt_bindings (member entries "reports") (JList raws) = Ok b /\ raw_artifacts = map raw_json (bd_raw_artifacts b) /\
        Forall (fun x => obj_get (dict_items (member entries "reports")) (fst x) = Some (snd x) /\
                         report_backed vd (thost t) raws (fst x) (snd x)) reports
  | _ => True
  end.
Proof.
  destruct (_validate_report_set vd value t) as [[[reports raw_artifacts]|e|] t'] eqn:H; [|done|done].
  split; [exact (reads_state _ _ _ _ (validate_report_set_reads vd value) H)|]. unfold _validate_report_set in H.
  apply bind_ret_inv in H as (entries & t1 & H1 & H). apply of_option_ret in H1 as [HX ->].
  apply bind_ret_inv in H as ([] & t1 & H1 & H). apply check_ret in H1 as [_ ->].
  apply bind_ret_inv in H as ([rs raws] & t1 & H1 & H). destruct (member entries "reports") as [| | | | | |l] eqn:ER; try discriminate H1.
  destruct (member entries "raw_artifacts") as [| | | | |ws|] eqn:EW; try discriminate H1. injection H1 as <- <- <-.
  apply bind_ret_inv in H as ([] & t1 & H1 & H). apply check_ret in H1 as [_ ->].
  apply bind_ret_inv in H as (b & t1 & H1 & H). apply of_result_ret in H1 as [HB ->]. apply catch_ok in HB.
  apply bind_ret_inv in H as ([] & t1 & H1 & H). apply check_ret in H1 as [_ ->].
  apply bind_ret_inv in H as (found & t1 & H1 & H). apply translate_ret in H1. injection H as -> <- _.
  unfold on_reader, with_reader in H1. destruct ((__enter__ ≫= _) _) as [o r] eqn:HW. injection H1 as -> _.
  apply bind_ret_inv in HW as ([] & r1 & HE & HW). apply entered_at in HE. unfold finally in HW.
  destruct ((validate_reports vd l ws REPORT_HARNESSES ≫= _) r1) as [[found|e|] r2] eqn:HV; [|by destruct (__exit__ r2) as [[]]|discriminate HW].
  destruct (__exit__ r2) as [[[]|e|] r3]; try discriminate HW. injection HW as -> _.
  apply bind_ret_inv in HV as (x & r4 & HV & HF). apply bind_ret_inv in HF as ([] & r5 & _ & HF). injection HF as -> _.
  apply (validate_reports_at vd l ws (thost t)) in HV as [V1 V2]; [|exact HE]. split; [exact V1|].
  exists entries, ws, b. rewrite ER. by split_and!.
Qed.
