(* ===== verification/SessionRuns.v ===== *)
(** * Runs of a session

    What may happen to the directory of a session over its life: its operations,
    its transactions and its finalization, each finished, failed or killed at any
    system call, processes that end and others that recover.  The theorems of
    this file hold over all of it: at most one request of a role is sent, the
    journal is always a history that only grows, and published files stay. *)

From S2P Require Import Prelude Sha256 Text Json DateTime Effects Archive ArchiveProofs.
From S2P Require Import ArchiveSafety Observation Journal JournalHistory Session Recovery Transaction JournalStore.
From S2P Require Import SessionProofs RecoveryProofs SessionKeeps TransactionProofs Finalize FinalizeProofs.

(** ** Runs *)

(** What may happen to a session: its operations, each in an environment and
    with a client of its own; an archive operation elsewhere; the end of the
    process, after which nothing is in memory; another process taking or
    releasing the lock.  Only the transactions record a pre-send failure. *)
Inductive session_op :=
  | OpCreate (root intent : str)
  | OpOpen (root : str)
  | OpRecover (root : str) (discard_incomplete : bool)
  | OpAppend (event : CaptureEvent) (binding : str)
  | OpComplete (observations : list (str * json))
  | OpResolve
  | OpIssue (r : role) (request : json)
  | OpFinalize (mz : materializers) (vd : validators) (sr : surroundings) (client : result pyexn (role -> json -> nat -> reply)) (context : json)
  | OpElsewhere (m : M host ())
  | OpClose
  | OpDie
  | OpContend (b : bool).

Definition session_op_ok (op : session_op) : Prop :=
  match op with
  | OpAppend event _ => forall nonce, event <> pre_send_event nonce
  | OpElsewhere m => within (kept [JOURNAL_DIRECTORY]) m /\ within hkeeps m
  | _ => True
  end.

Definition contend (b : bool) (s : session) : session := Session (s_host s) (s_lock s) (s_snapshot s) b.

Definition run_session_op (E : env) (client : role -> json -> nat -> reply) (op : session_op) : M txn () :=
  match op with
  | OpCreate root intent => on_session (create E root intent)
  | OpOpen root => on_session (open E root)
  | OpRecover root discard => on_session (recover E root discard)
  | OpAppend event binding => ignore (on_session (append E event binding))
  | OpComplete observations => ignore (on_session (complete_observations E observations))
  | OpResolve => ignore (on_session (resolve_interrupted_attempt E))
  | OpIssue Nonce request => ignore (issue_nonce E client request)
  | OpIssue Receipt request => ignore (issue_receipt E client request)
  | OpFinalize mz vd sr client context => ignore (finalize_session E mz vd sr client context)
  | OpElsewhere m => on_archive m
  | OpClose => on_session close
  | OpDie => on_session new_object
  | OpContend b => on_session (modify (contend b))
  end.

Definition good_clock (E : env) : Prop := forall n, valid_datetime (e_now E n) = true.

Inductive session_runs : txn -> txn -> Prop :=
  | sruns_done t : session_runs t t
  | sruns_step t E client op t1 t2 :
      good_clock E -> session_op_ok op -> snd (run_session_op E client op t) = t1 -> session_runs t1 t2 -> session_runs t t2.

Lemma ignore_snd {S A} (m : M S A) s : snd (ignore m s) = snd (m s).
Proof. unfold ignore, mbind, M_bind. by destruct (m s) as [[a|e|] s']. Qed.

Lemma contend_step D b : within (sstep D) (modify (contend b)).
Proof. apply within_skept. by intros s. Qed.

Lemma run_session_op_inv E client op : good_clock E -> session_op_ok op -> within tstep (run_session_op E client op).
Proof.
  intros HE Hop. destruct op as [root intent|root|root b|event b|obs| |[] request|mz vd sr cl context|m| | |b]; cbn [run_session_op].
  - apply on_session_within. intros D. by apply create_within.
  - apply on_session_within. intros D. by apply open_within.
  - apply on_session_within. intros D. by apply recover_within.
  - intros t. rewrite ignore_snd. apply on_session_within. intros D. by apply append_within.
  - intros t. rewrite ignore_snd. apply on_session_within. intros D. by apply complete_observations_within.
  - intros t. rewrite ignore_snd. apply on_session_within. intros D. by apply resolve_interrupted_attempt_within.
  - intros t Hi. rewrite ignore_snd. destruct (issue_nonce E client request t) as [o t'] eqn:H. by apply (issue_nonce_cases E client HE request t o t').
  - intros t Hi. rewrite ignore_snd. destruct (issue_receipt E client request t) as [o t'] eqn:H. by apply (issue_receipt_cases E client HE request t o t').
  - intros t. rewrite ignore_snd. by apply finalize_sends.
  - apply on_archive_kept, Hop.
  - apply on_session_within. intros D. apply within_skept, close_skept.
  - apply on_session_within. intros D. apply new_object_within.
  - apply on_session_within. intros D. apply contend_step.
Qed.

(** A session's directory before its creation. *)
Definition untouched (t : txn) : Prop :=
  t_posts t = [] /\ s_snapshot (t_session t) = None /\
  forall p, removelast p = [JOURNAL_DIRECTORY] -> h_files (thost t) !! p = None.

Lemma untouched_inv t : untouched t -> tinv t.
Proof.
  intros (Hp & Hs & Hf). unfold thost in Hf. constructor; rewrite Hp; [|by intros [] ? ? ?]. constructor; [|by rewrite Hs].
  exists []. constructor.
  - intros q Hq. rewrite (Hf (ev_path q) eq_refl). by destruct (1 <=? q).
  - done.
  - by exists None.
  - intros p d pv q nx (H1 & _ & H3). by rewrite Hf in H3.
  - intros nonce (p & Hin & _). by apply not_elem_of_nil in Hin.
Qed.

Lemma session_runs_inv t t' : session_runs t t' -> tinv t -> tinv t'.
Proof.
  induction 1 as [t|t E client op t1 t2 HE Hop <- _ IH]; intros Hi; [done|]. apply IH.
  by apply (run_session_op_inv E client op HE Hop t Hi).
Qed.

(** C1: at most one request of a role can reach the service.  From an untouched
    directory, whatever operations run, fail, are killed at any system call and
    are recovered, once a request was handed to the client and was not proven
    unsent (its call did not end in a pre-send error), no request of that role is
    ever handed to a client again ([once]). *)
Theorem at_most_one_request t0 t : untouched t0 -> session_runs t0 t -> once (t_posts t).
Proof. intros H0 HR. apply (session_runs_inv _ _ HR (untouched_inv _ H0)). Qed.


(** ** The journal over runs *)

Lemma run_session_op_keeps E client op : good_clock E -> session_op_ok op -> within tkeeps (run_session_op E client op).
Proof.
  intros HE Hop. destruct op as [root intent|root|root b|event b|obs| |[] request|mz vd sr cl context|m| | |b]; cbn [run_session_op]; unfold ignore;
    within_auto.
  - apply on_session_keeps, create_keeps.
  - apply on_session_keeps, open_keeps.
  - apply on_session_keeps, recover_keeps.
  - apply on_session_keeps, append_keeps.
  - apply on_session_keeps, complete_observations_keeps.
  - apply on_session_keeps, resolve_interrupted_keeps.
  - unfold issue_nonce. within_auto. apply (execute_keeps E client Nonce).
  - unfold issue_receipt. within_auto. apply (execute_keeps E client Receipt).
  - intros t. by apply finalize_sends.
  - apply on_session_keeps, arch_keeps, Hop.
  - apply on_session_keeps, close_keeps.
  - apply on_session_keeps, new_object_keeps.
  - apply on_session_keeps. intros s. reflexivity.
Qed.

Lemma session_runs_keeps t t' : session_runs t t' -> tkeeps t t'.
Proof.
  induction 1 as [t|t E client op t1 t2 HE Hop <- _ IH]; [reflexivity|]. etrans; [|exact IH]. by apply run_session_op_keeps.
Qed.

Lemma ev_path_published q : 0 <= q < 10 ^ 8 -> published (ev_path q) = true.
Proof.
  intros Hq. unfold published, ev_path. cbn [List.last]. apply negb_true_iff, not_true_iff_false. intros H.
  apply dot_not_component in H. by rewrite event_name_component in H.
Qed.

(** A journal whose records stay only grows. *)
Lemma journal_grows h h' l l' :
  hkeeps h h' -> journal_is h l -> journal_is h' l' -> len l <= MAX_JOURNAL_EVENTS -> l `prefix_of` l'.
Proof.
  intros K J J' B. exists (drop (length l) l'). rewrite <-(take_drop (length l) l') at 1. f_equal. apply list_eq. intros i.
  unfold MAX_JOURNAL_EVENTS, len in B. destruct (decide (i < length l)%nat) as [Hi|Hi].
  - rewrite lookup_take_lt by done. destruct (l !! i) as [d|] eqn:L; [|apply lookup_ge_None in L; lia].
    specialize (J (Z.of_nat i + 1) ltac:(lia)). specialize (J' (Z.of_nat i + 1) ltac:(lia)).
    rewrite (proj2 (Z.leb_le 1 (Z.of_nat i + 1))) in J, J' by lia.
    replace (Z.to_nat (Z.of_nat i + 1 - 1)) with i in J, J' by lia. rewrite L in J.
    apply K in J; [|apply ev_path_published; lia]. congruence.
  - rewrite (lookup_ge_None_2 (take _ _)) by (rewrite length_take; lia). by rewrite lookup_ge_None_2 by lia.
Qed.

(** C2: the durable journal is always a history and only grows.  From an untouched
    directory, after any run the published records replay, are at most 1024, and
    whatever runs next, at any point of which the process may be killed, the
    records stay the first of the journal. *)
Theorem journal_always_replays t0 t t' :
  untouched t0 -> session_runs t0 t -> session_runs t t' ->
  exists l l', journal_is (thost t) l /\ journal_is (thost t') (l ++ l') /\ len (l ++ l') <= MAX_JOURNAL_EVENTS /\
    (exists o, replay l = Ok o) /\ exists o, replay (l ++ l') = Ok o.
Proof.
  intros H0 HR HR'. pose proof (session_runs_inv _ _ HR (untouched_inv _ H0)) as Hi.
  pose proof (session_runs_inv _ _ HR' Hi) as Hi'.
  destruct (si_store _ _ (ti_session _ Hi)) as [l [J B R _ _]]. destruct (si_store _ _ (ti_session _ Hi')) as [m [J' B' R' _ _]].
  destruct (journal_grows _ _ _ _ (session_runs_keeps _ _ HR') J J' B) as [k ->]. by exists l, k.
Qed.

(** No operation of a session or of its transactions changes or removes a
    published file of the archive, whatever fails and wherever the process is
    killed. *)
Theorem session_keeps_published t t' p d :
  session_runs t t' -> published p = true -> h_files (thost t) !! p = Some d -> h_files (thost t') !! p = Some d.
Proof. intros HR. apply (session_runs_keeps _ _ HR). Qed.

(** ** A run *)

Definition demo_root : str := u "physical-capture/run-1".
Definition demo_start : txn := Txn (Session (Host false ∅ ∅ [] false 0) false None false) [].
Definition demo_request : json := JObj [(u "schema_version", JInt 1); (u "candidate", JObj []); (u "run", JStr (u "run-1"))].
Definition demo_client (r : role) (request : json) (sent : nat) : reply := Raises OutcomeUnknownError.
Definition demo_digest : str := replicate 64 97.

(** The process is killed at the twelfth system call. *)
Definition demo_faulty : env := demo_env (fun n => if (n =? 12)%nat then Crashes 7 else Proceed).
Definition demo_calm : env := demo_env (fun _ => Proceed).

Definition demo_created : txn := snd (run_session_op demo_faulty demo_client (OpCreate demo_root demo_digest) demo_start).
Definition demo_collecting : txn := snd (run_session_op demo_faulty demo_client (OpAppend COLLECTION_STARTED demo_digest) demo_created).
Definition demo_recovered : txn := snd (run_session_op demo_calm demo_client (OpRecover demo_root true) demo_collecting).
Definition demo_issued : txn := snd (run_session_op demo_calm demo_client (OpIssue Nonce demo_request) demo_recovered).

Lemma demo_clock f : good_clock (demo_env f).
Proof. by intros n. Qed.

Lemma demo_untouched : untouched demo_start.
Proof. split; [done|]. split; [done|]. by intros p _. Qed.

Lemma demo_runs : session_runs demo_start demo_recovered.
Proof.
  apply (sruns_step _ demo_faulty demo_client (OpCreate demo_root demo_digest) demo_created); [apply demo_clock|done|reflexivity|].
  apply (sruns_step _ demo_faulty demo_client (OpAppend COLLECTION_STARTED demo_digest) demo_collecting);
    [apply demo_clock|by intros []|reflexivity|].
  apply (sruns_step _ demo_calm demo_client (OpRecover demo_root true) demo_recovered); [apply demo_clock|done|reflexivity|].
  apply sruns_done.
Qed.

Lemma demo_runs_issue : session_runs demo_recovered demo_issued.
Proof.
  apply (sruns_step _ demo_calm demo_client (OpIssue Nonce demo_request) demo_issued); [apply demo_clock|done|reflexivity|].
  apply sruns_done.
Qed.

Lemma at_most_one_request_witness : once (t_posts demo_recovered).
Proof. exact (at_most_one_request demo_start demo_recovered demo_untouched demo_runs). Defined.


Lemma journal_always_replays_witness :
  exists l l', journal_is (thost demo_recovered) l /\ journal_is (thost demo_issued) (l ++ l') /\
    len (l ++ l') <= MAX_JOURNAL_EVENTS /\ (exists o, replay l = Ok o) /\ exists o, replay (l ++ l') = Ok o.
Proof. exact (journal_always_replays demo_start demo_recovered demo_issued demo_untouched demo_runs demo_runs_issue). Defined.

Lemma session_keeps_published_witness :
  let h := Host true {[ [u "cloud"] ]} {[ [u "cloud"; u "nonce-request.json"] := bstr "request" ]} [] true 0 in
  let t := Txn (Session h true None false) [] in
  h_files (thost (snd (run_session_op demo_calm demo_client (OpIssue Nonce demo_request) t))) !! [u "cloud"; u "nonce-request.json"]
  = Some (bstr "request").
Proof.
  cbv zeta.
  refine (session_keeps_published _ _ [u "cloud"; u "nonce-request.json"] (bstr "request")
    (sruns_step _ demo_calm demo_client (OpIssue Nonce demo_request) _ _ (demo_clock _) I eq_refl (sruns_done _)) eq_refl _).
  vm_compute. reflexivity.
Defined.

(** ** Resuming a prepared request *)

(** The transaction ended without handing anything to the client, and did not
    return. *)
Definition sent_nothing (t : txn) (o : outcome response) (t' : txn) : Prop := t_posts t' = t_posts t /\ forall a, o <> Ret a.

Section Resume.
Context (E : env) (client : role -> json -> nat -> reply).

(** A snapshot in memory is what the session reports. *)
Lemma snapshot_property_memory s sn a s' :
  s_snapshot s = Some sn -> snapshot_property E s = (Ret a, s') -> a = sn /\ s' = s.
Proof.
  intros Hs H. unfold snapshot_property in H. apply bind_reads in H as [([] & _ & H) | [_ N]];
    [|by destruct (N a)|apply require_session_open_reads].
  unfold gets, mbind at 1, M_bind at 1 in H. rewrite Hs in H. by injection H as <- <-.
Qed.

Lemma prepare_resumed r data sha t t' sn :
  s_snapshot (t_session t) = Some sn -> sn_state sn = sp_prepared_state (spec_of r) ->
  _prepare E (spec_of r) data sha t = (Ret (), t') -> sn_last_binding_sha256 sn = sha.
Proof.
  intros Hs Hst H. unfold _prepare in H. apply bind_ret_inv in H as (st & t1 & H1 & H).
  apply on_session_run in H1 as [_ H1]. unfold state_property in H1. apply bind_ret_inv in H1 as (x & s1 & H1 & H1').
  destruct (snapshot_property_memory _ _ _ _ Hs H1) as [-> ->]. injection H1' as <- Hs1.
  rewrite Hst, bool_decide_false, bool_decide_true in H by (by destruct r).
  apply bind_ret_inv in H as (rec & t2 & H2 & H). unfold _read_exact_request in H2.
  apply bind_ret_inv in H2 as (observed & t3 & H3 & H2). apply translate_ret, on_session_run in H3 as [_ H3].
  pose proof (reads_state _ _ _ _ (arch_reads _ (read_bytes_reads E _ _)) H3) as H3s.
  apply bind_ret_inv in H2 as ([] & t4 & H4 & H2). apply check_ret in H4 as [_ ->]. injection H2 as _ <-.
  apply bind_ret_inv in H as (sn' & t5 & H5 & H). apply on_session_run in H5 as [_ H5].
  rewrite H3s in H5. rewrite <-Hs1 in H5. destruct (snapshot_property_memory _ _ _ _ Hs H5) as [-> _].
  apply check_ret in H as [H _]. apply orb_false_elim in H as [_ H]. apply negb_false_iff in H. by apply bool_decide_eq_true in H.
Qed.

(** C27: a prepared request is sent only under its own binding.  In the prepared
    state of a role a transaction hands nothing to the client and does not
    return, unless the last journal record is bound to the digest of exactly this
    request. *)
Theorem resumed_request_binding r request t o t' sn :
  s_snapshot (t_session t) = Some sn -> sn_state sn = sp_prepared_state (spec_of r) ->
  _execute E client (spec_of r) request t = (o, t') ->
  sent_nothing t o t' \/ exists normalized data, _canonical_request (spec_of r) request = Ok (normalized, data, sn_last_binding_sha256 sn).
Proof.
  intros Hs Hst H. rewrite execute_unfold in H.
  apply bind_result in H as [([[normalized data] sha] & HC & H) | [-> N]]; [|by left].
  pose proof (prepare_same E r data sha t) as SP.
  apply bind_cases in H as [([] & t1 & H1 & H) | [(e & H1 & ->) | [H1 ->]]]; rewrite H1 in SP; [|by left..].
  right. exists normalized, data. by rewrite (prepare_resumed _ _ _ _ _ _ Hs Hst H1).
Qed.
End Resume.

Definition demo_prepared : SessionSnapshot := {|
  sn_state := NONCE_REQUEST_PREPARED; sn_sequence := 4; sn_last_event_sha256 := demo_digest;
  sn_last_binding_sha256 := demo_digest; sn_last_recorded_at := DateTime 2026 1 2 3 4 5;
  sn_observation_manifest_sha256 := None |}.

Lemma resumed_request_binding_witness :
  let t := Txn (Session (Host true ∅ ∅ [] true 0) true (Some demo_prepared) false) [] in
  let r := _execute demo_calm demo_client _NONCE_SPEC demo_request t in
  sent_nothing t (fst r) (snd r) \/ exists normalized data, _canonical_request _NONCE_SPEC demo_request = Ok (normalized, data, demo_digest).
Proof.
  exact (resumed_request_binding demo_calm demo_client Nonce demo_request
    (Txn (Session (Host true ∅ ∅ [] true 0) true (Some demo_prepared) false) []) _ _ demo_prepared
    eq_refl eq_refl (surjective_pairing _)).
Defined.
