(* ===== verification/FinalizeSpec.v ===== *)
(** * What the phases of finalization leave

    For each phase of [finalize_session] (src/scripts/physical_capture/finalize.py)
    that returns, the documents that are then in the archive; and what
    [load_finalized_run_record] knows of the record it returns. *)

From S2P Require Import Prelude Sha256 Text Json DateTime Effects Programs Archive ArchiveProofs ArchiveSafety ArchiveProgress Observation TrustPolicy.
From S2P Require Import Python Timestamp Identity Catalogue CollectorRequest Composition CollectorProofs ArtifactReader ReaderProofs ProofMaterial.
From S2P Require Import Documents RecordProofs RecordDocuments.
From S2P Require Import Journal JournalHistory Session JournalStore SessionProofs Recovery RecoveryProofs SessionKeeps Transaction TransactionProofs Finalize FinalizeProofs SessionRuns.

Open Scope Z_scope.
Open Scope list_scope.
Import Quiet.

(** ** Documents in the archive *)

(** The canonical encoding of [v], with its newline, is the file at [relative]. *)
Definition archived_as (h : host) (relative : str) (v : json) : Prop :=
  exists parts c, _relative_parts relative = Ok parts /\ canonical_json v = Some c /\ h_files h !! parts = Some (c ++ [x0a]).

Lemma relative_published relative parts : _relative_parts relative = Ok parts -> published parts = true.
Proof.
  intros H. apply relative_parts_ok in H as (_ & NE & C). unfold published. apply negb_true_iff, not_true_iff_false. intros D.
  apply dot_not_component in D. rewrite forallb_forall in C. rewrite C in D; [done|]. rewrite (app_removelast_last [] NE) at 2. apply in_or_app. right. by left.
Qed.

Lemma archived_keeps t t' relative v : tkeeps t t' -> archived_as (thost t) relative v -> archived_as (thost t') relative v.
Proof. intros K (parts & c & P & C & F). exists parts, c. split; [done|]. split; [done|]. apply K; [by eapply relative_published|done]. Qed.

Lemma on_session_reads {A} (m : M session A) : reads m -> reads (on_session m).
Proof. intros R t. unfold on_session, zoom. specialize (R (t_session t)). destruct (m (t_session t)) as [o s]. cbn in *. subst s. by destruct t. Qed.

Section Documents.
Context (E : env).

Lemma read_bytes_size relative maximum h d h' : read_bytes E relative maximum h = (Ret d, h') -> 1 <= len d <= maximum.
Proof.
  unfold read_bytes. intros H. apply bind_ret_inv in H as ([parent name] & h1 & _ & H). apply bind_ret_inv in H as (x & h2 & _ & H).
  unfold _read_opened in H. apply bind_ret_inv in H as ([] & h3 & H3 & H). apply check_ret in H3 as [G _]. injection H as -> _.
  apply orb_false_iff in G as [G1%Z.ltb_ge G2%Z.ltb_ge]. by split.
Qed.

Lemma load_json_reads relative maximum : reads (_load_json E relative maximum).
Proof. unfold _load_json. within_auto; apply on_session_reads, arch_reads; [apply read_bytes_reads|apply describe_file_reads]. Qed.

Lemma load_json_ret relative maximum t v a t' : _load_json E relative maximum t = (Ret (v, a), t') ->
  t' = t /\ archived_as (thost t) relative v /\
  exists parts data, _relative_parts relative = Ok parts /\ h_files (thost t) !! parts = Some data /\ load_json_bytes data = Some v /\ a = archived relative data /\
    1 <= len data <= maximum /\ exists m, v = JObj m.
Proof.
  intros H. pose proof (reads_state _ _ _ _ (load_json_reads relative maximum) H) as ->. split; [done|].
  unfold _load_json in H. apply translate_ret in H. apply bind_ret_inv in H as (data & t1 & H1 & H).
  pose proof (reads_state _ _ _ _ (on_session_reads _ (arch_reads _ (read_bytes_reads E _ _))) H1) as ->.
  apply on_archive_run in H1 as [_ H1]. pose proof (read_bytes_size _ _ _ _ _ H1) as HB. apply read_bytes_ret in H1 as (_ & parts & HP & HF).
  apply bind_ret_inv in H as (w & t1 & H1 & H). apply of_option_ret in H1 as [HL ->].
  apply bind_ret_inv in H as (rec & t1 & H1 & H). pose proof (reads_state _ _ _ _ (on_session_reads _ (arch_reads _ (describe_file_reads E _ _))) H1) as ->.
  apply bind_ret_inv in H as (c & t1 & H2 & H). assert (HC : (exists m, w = JObj m) /\ canonical_json w = Some c /\ t1 = t).
  { destruct w; try discriminate H2. split; [by eexists|]. by apply of_option_ret in H2. } destruct HC as (HO & HC & ->).
  apply bind_ret_inv in H as ([] & t1 & H3 & H). apply check_ret in H3 as [G ->]. injection H as -> ->.
  apply orb_false_iff in G as [G1 G2]. apply negb_false_iff, bool_decide_eq_true in G1, G2.
  split; [exists parts, c; by rewrite G1|]. exists parts, data. by do 4 (split; [done|]).
Qed.

Lemma write_json_ret relative v maximum t a t' : _write_or_reopen_json E relative v maximum t = (Ret a, t') ->
  archived_as (thost t') relative v /\ exists c, canonical_json v = Some c /\ a = archived relative (c ++ [x0a]).
Proof.
  unfold _write_or_reopen_json. intros H. apply bind_ret_inv in H as (c & t1 & H1 & H). apply of_option_ret in H1 as [HC ->].
  apply bind_ret_inv in H as ([] & t1 & H1 & H). apply check_ret in H1 as [_ ->]. unfold _write_or_reopen_exact in H.
  apply try_cases in H as [(e & t1 & _ & H) | [H _]]; [by destruct (is_archive_error e)|]. apply on_archive_run in H as [_ H].
  apply write_or_reopen_exact_ret in H as (parts & HP & HF & ->). split; [by exists parts, c|by exists c].
Qed.
End Documents.

(** ** The journal's last word *)

Section Last.
Context (E : env).

Lemma snapshot_property_ret s sn s' : snapshot_property E s = (Ret sn, s') -> s_snapshot s' = Some sn.
Proof.
  intros H. unfold snapshot_property in H. apply bind_reads in H as [([] & _ & H) | [_ N]]; [|by destruct (N sn)|apply require_session_open_reads].
  unfold gets, mbind at 1, M_bind at 1 in H. destruct (s_snapshot s) as [x|] eqn:M; [by injection H as <- <-|].
  apply bind_ret_inv in H as (o & s1 & _ & H). apply bind_ret_inv in H as ([] & s2 & H2 & H). injection H2 as <-.
  apply of_option_ret in H as [-> ->]. done.
Qed.

(** A snapshot in a terminal state is that of the whole journal. *)
Lemma terminal_last h l sn : journal_is h l -> len l <= MAX_JOURNAL_EVENTS -> (exists o, replay l = Ok o) ->
  known h (Some sn) -> is_terminal_state (sn_state sn) = true -> replay l = Ok (Some sn).
Proof.
  intros J B [o R] K T. destruct (known_sequence _ _ _ J B K) as (RK & [_ Q] & _). cbn [next_sequence] in RK, Q.
  replace (sn_sequence sn + 1 - 1) with (sn_sequence sn) in RK by lia. set (k := Z.to_nat (sn_sequence sn)) in *.
  destruct (drop k l) as [|d rest] eqn:D; [by rewrite <-(take_drop k l), D, app_nil_r|]. exfalso.
  unfold replay in R, RK. rewrite <-(take_drop k l), D, replay_from_app, RK in R. cbn [mbind result_bind replay_from] in R.
  inv_bind R. apply validate_follows in E0 as (event & text & binding & F). pose proof (fo_transition _ _ _ _ _ _ _ F) as X. cbn [option_map] in X.
  destruct (terminal_no_transition event _ T) as [e N]. congruence.
Qed.

(** The run record [v] is in the archive, and the journal ends in its digest. *)
Definition finalized_as (t : txn) (v : json) : Prop :=
  archived_as (thost t) RUN_RECORD_RELATIVE v /\
  exists l sn parts data, journal_is (thost t) l /\ len l <= MAX_JOURNAL_EVENTS /\ replay l = Ok (Some sn) /\ sn_state sn = FINALIZED /\
    _relative_parts RUN_RECORD_RELATIVE = Ok parts /\ h_files (thost t) !! parts = Some data /\ load_json_bytes data = Some v /\
    sn_last_binding_sha256 sn = hexdigest data /\ 1 <= len data <= MAX_DERIVED_DOCUMENT_BYTES /\ exists m, v = JObj m.

Lemma state_property_ret t st t' : on_session (state_property E) t = (Ret st, t') ->
  exists sn, s_snapshot (t_session t') = Some sn /\ sn_state sn = st.
Proof.
  intros H. apply on_session_run in H as [_ H]. unfold state_property in H. apply bind_ret_inv in H as (sn & s1 & H1 & H).
  injection H as <- <-. exists sn. split; [|done]. by eapply snapshot_property_ret.
Qed.

Lemma load_finalized_ret t v t' : tinv t -> load_finalized_run_record E t = (Ret v, t') -> finalized_as t' v.
Proof.
  intros Hi H. unfold load_finalized_run_record in H. apply bind_ret_inv in H as (st & t1 & H1 & H).
  pose proof (state_quiet E t) as Q1. rewrite H1 in Q1. destruct Q1 as (Q1 & _). destruct (Q1 Hi) as [Hi1 _].
  destruct (state_property_ret _ _ _ H1) as (sn & M1 & S1).
  apply bind_ret_inv in H as ([] & t2 & H2 & H). apply check_ret in H2 as [G2 ->]. apply negb_false_iff, bool_decide_eq_true in G2. rewrite G2 in S1.
  apply bind_ret_inv in H as ([w a] & t2 & H2 & H). apply load_json_ret in H2 as (-> & HA & parts & data & HP & HF & HL & -> & HB & HO).
  apply bind_ret_inv in H as (sn2 & t2 & H3 & H). apply on_session_run in H3 as [Hp H3].
  apply (snapshot_property_memory E _ sn) in H3 as [-> Hs]; [|done].
  assert (t2 = t1) as -> by (destruct t1, t2; cbn in *; congruence).
  apply bind_ret_inv in H as ([] & t2 & H4 & H). apply check_ret in H4 as [G4 ->]. apply negb_false_iff, str_eqb_eq in G4. injection H as <- <-.
  split; [done|]. destruct (si_store _ _ (ti_session _ Hi1)) as [l [J B R _ _]]. exists l, sn, parts, data. split; [done|]. split; [done|]. split.
  { eapply terminal_last; [exact J|exact B|exact R| |by rewrite S1]. by apply (si_memory _ _ (ti_session _ Hi1)). }
  destruct HB. by split_and!.
Qed.
End Last.

(** ** What a transaction archives *)

Lemma after_keeps {A} (m : M txn A) t o t' : within tkeeps m -> m t = (o, t') -> tkeeps t t'.
Proof. intros W H. specialize (W t). by rewrite H in W. Qed.

Section Archived.
Context (E : env) (client : role -> json -> nat -> reply).

Lemma archive_response_ret r sha answer t x t' : _archive_response E (spec_of r) sha answer t = (Ret x, t') ->
  response_role answer = Some r /\ exists v, as_dict answer = Some v /\ archived_as (thost t') (sp_response_path (spec_of r)) v.
Proof.
  unfold _archive_response. intros H. apply try_cases in H as [(e & t1 & _ & H) | [H _]].
  { destruct (is_exception e); [|discriminate H]. unfold _raise_outcome_unknown in H. apply bind_ret_inv in H as (? & ? & _ & H). discriminate H. }
  apply bind_ret_inv in H as ([data d] & t1 & H1 & H). apply of_result_ret in H1 as [HC ->]. unfold _canonical_response in HC.
  destruct (negb _) eqn:G in HC; [discriminate HC|]. apply negb_false_iff, bool_decide_eq_true in G.
  destruct (as_dict answer) as [v|] eqn:HV; [|discriminate HC]. cbn [mbind option_bind] in HC. destruct (canonical_json v) as [c|] eqn:HJ; [|discriminate HC].
  cbv zeta in HC. destruct (_ <? _) in HC; [discriminate HC|]. injection HC as <- <-.
  apply bind_ret_inv in H as (rec & t1 & H1 & H). apply on_archive_run in H1 as [_ H1].
  apply bind_ret_inv in H as ([] & t2 & H2 & H). apply check_ret in H2 as [_ ->]. injection H as _ <-.
  apply write_bytes_cases in H1 as [[_ N] | (parts & n & HP & _ & _ & _ & _ & HR)]; [by destruct (N rec)|]. destruct (HR rec eq_refl) as (_ & _ & HF).
  split; [destruct r; exact G|]. exists v. split; [done|]. exists parts, c. split; [done|]. split; [done|]. by rewrite HF, lookup_insert_eq.
Qed.

Lemma execute_ret r request t answer t' : _execute E client (spec_of r) request t = (Ret answer, t') ->
  archived_as (thost t') (sp_request_path (spec_of r)) request /\
  exists v, as_dict answer = Some v /\ archived_as (thost t') (sp_response_path (spec_of r)) v.
Proof.
  intros H. unfold _execute in H. apply bind_ret_inv in H as ([[normalized data] sha] & t1 & H1 & H). apply of_result_ret in H1 as [HC ->].
  apply bind_ret_inv in H as ([] & t1 & H1 & H). pose proof (prepare_ret _ _ _ _ _ _ H1) as HF. destruct (request_parts_ok r) as [RP _].
  assert (A1 : archived_as (thost t1) (sp_request_path (spec_of r)) request).
  { unfold _canonical_request in HC. cbv zeta in HC. destruct (exact_object request _) as [l|] eqn:HE; [|discriminate HC].
    assert (request = JObj l) as -> by (unfold exact_object in HE; destruct request; try discriminate HE; destruct (same_fields _ _) in HE; [by injection HE as ->|discriminate HE]).
    destruct (negb _) in HC; [discriminate HC|]. destruct (canonical_json (JObj l)) as [c|] eqn:HJ; [|discriminate HC]. destruct (_ <? _) in HC; [discriminate HC|].
    destruct (load_json_bytes _) as [[]|] in HC; try discriminate HC. injection HC as _ <- _. by exists (request_parts r), c. }
  apply bind_ret_inv in H as ([] & t2 & H2 & H).
  assert (K2 : tkeeps t1 t2) by (eapply after_keeps; [|exact H2]; unfold _append_attempt; within_auto; apply append_or_keeps).
  apply bind_ret_inv in H as (x & t3 & H3 & H).
  assert (K3 : tkeeps t2 t3).
  { eapply after_keeps; [|exact H3]. unfold _record_pre_send_failure, _raise_outcome_unknown, _record_outcome_unknown. within_auto;
      first [apply append_or_keeps | apply call_client_keeps]. }
  apply bind_ret_inv in H as (d & t4 & H4 & H). pose proof (after_keeps _ _ _ _ (archive_response_keeps E r sha x) H4) as K4.
  apply archive_response_ret in H4 as (_ & v & HV & A2). apply bind_ret_inv in H as (sn & t5 & H5 & H).
  assert (K5 : tkeeps t4 t5) by (eapply after_keeps; [|exact H5]; apply append_or_keeps).
  apply bind_ret_inv in H as ([] & t6 & H6 & H). apply check_ret in H6 as [_ ->]. injection H as <- <-.
  split; [|exists v; split; [done|by eapply archived_keeps]]. refine (archived_keeps _ _ _ _ _ A1). do 3 (etrans; [eassumption|]). exact K5.
Qed.

Lemma issue_receipt_ret request t answer t' : issue_receipt E client request t = (Ret answer, t') ->
  archived_as (thost t') (sp_request_path _RECEIPT_SPEC) request /\
  exists v, as_dict answer = Some v /\ archived_as (thost t') (sp_response_path _RECEIPT_SPEC) v.
Proof.
  unfold issue_receipt. intros H. apply bind_ret_inv in H as (x & t1 & H1 & H). apply bind_ret_inv in H as ([] & t2 & H2 & H).
  apply check_ret in H2 as [_ ->]. injection H as <- <-. exact (execute_ret Receipt request t x t1 H1).
Qed.
End Archived.

(** ** What each phase leaves in the archive *)

Section Phases.
Context (E : env) (mz : materializers) (vd : validators) (sr : surroundings) (client : result pyexn (role -> json -> nat -> reply)).
Hypothesis clock : good_clock E.

Lemma quiet_keeps {A} (m : M txn A) t o t' : within tquiet m -> m t = (o, t') -> tkeeps t t'.
Proof using. intros W H. specialize (W t). rewrite H in W. apply W. Qed.
Lemma sends_keeps {A} (m : M txn A) t o t' : within tsends m -> m t = (o, t') -> tkeeps t t'.
Proof using. intros W H. specialize (W t). rewrite H in W. apply W. Qed.

Lemma append_event_keeps event b t o t' : on_session (append E event b) t = (o, t') -> tkeeps t t'.
Proof using. apply after_keeps, on_session_keeps, append_keeps. Qed.

Lemma ensure_reports_ret context proof t rs t' :
  _ensure_reports E mz vd sr context proof t = (Ret rs, t') -> archived_as (thost t') REPORT_SET_RELATIVE rs.
Proof using.
  intros H. unfold _ensure_reports in H. apply bind_ret_inv in H as (st & t1 & _ & H). destruct (bool_decide _).
  - apply bind_ret_inv in H as (v & t2 & _ & H). apply bind_ret_inv in H as (x & t3 & _ & H).
    apply bind_ret_inv in H as (rec & t4 & H4 & H). apply write_json_ret in H4 as [A _].
    apply bind_ret_inv in H as (sn & t5 & H5 & H). apply append_event_keeps in H5.
    apply bind_ret_inv in H as ([] & t6 & H6 & H). apply check_ret in H6 as [_ ->]. injection H as <- <-. by eapply archived_keeps.
  - unfold _load_report_set in H. apply bind_ret_inv in H as ([v a] & t2 & H2 & H). apply load_json_ret in H2 as (-> & A & _).
    apply bind_ret_inv in H as (x & t3 & H3 & H). pose proof (reads_state _ _ _ _ (validate_report_set_reads vd v) H3) as ->.
    injection H as <- <-. exact A.
Qed.

(** The bindings of the reports and raw artifacts that a report set lists. *)
Definition bindings_of_set (report_set : json) (b : receipt_bindings) : Prop :=
  exists l reports raws, report_set = JObj l /\ obj_get l (u "reports") = Some reports /\ obj_get l (u "raw_artifacts") = Some raws /\
    compose_receipt_bindings reports raws = Ok b.

Lemma ensure_bindings_ret rs t v t' : _ensure_bindings E rs t = (Ret v, t') ->
  archived_as (thost t') RECEIPT_BINDINGS_RELATIVE v /\
  exists b, bindings_of_set rs b /\ (v = bindings_json b \/ py_eq v (bindings_json b) = true).
Proof using.
  intros H. unfold _ensure_bindings in H. apply bind_ret_inv in H as ([reports raws] & t1 & H1 & H).
  destruct rs as [| | | | | |l]; try discriminate H1. apply bind_ret_inv in H1 as (x & t0 & H0 & H1). apply of_option_ret in H0 as [E1 ->].
  apply bind_ret_inv in H1 as (y & t0 & H0 & H1). apply of_option_ret in H0 as [E2 ->]. injection H1 as <- <- <-.
  apply bind_ret_inv in H as (b & t2 & H2 & H). apply of_result_ret in H2 as [C ->]. apply catch_ok in C. cbv zeta in H.
  apply bind_ret_inv in H as (st & t2 & _ & H). assert (B : bindings_of_set (JObj l) b) by (by exists l, x, y). destruct (bool_decide _).
  - apply bind_ret_inv in H as (rec & t4 & H4 & H). apply write_json_ret in H4 as [A _].
    apply bind_ret_inv in H as (sn & t5 & H5 & H). apply append_event_keeps in H5.
    apply bind_ret_inv in H as ([] & t6 & H6 & H). apply check_ret in H6 as [_ ->]. injection H as <- <-.
    split; [by eapply archived_keeps|]. exists b. auto.
  - apply bind_ret_inv in H as ([w a] & t3 & H3 & H). apply load_json_ret in H3 as (-> & A & _).
    apply bind_ret_inv in H as ([] & t6 & H6 & H). apply check_ret in H6 as [G ->]. apply negb_false_iff in G. injection H as <- <-.
    split; [exact A|]. exists b. auto.
Qed.

Lemma issue_nonce_ret send request t answer t' : issue_nonce E send request t = (Ret answer, t') ->
  exists v, as_dict answer = Some v /\ archived_as (thost t') (sp_response_path _NONCE_SPEC) v.
Proof using.
  unfold issue_nonce. intros H. apply bind_ret_inv in H as (x & t1 & H1 & H). apply bind_ret_inv in H as ([] & t2 & H2 & H).
  apply check_ret in H2 as [_ ->]. injection H as <- <-. exact (proj2 (execute_ret E send Nonce request t x t1 H1)).
Qed.

Lemma nonce_phase_ret context t v t' : _issue_or_reopen_nonce E sr client context t = (Ret v, t') ->
  archived_as (thost t') (sp_response_path _NONCE_SPEC) v.
Proof using.
  intros H. unfold _issue_or_reopen_nonce in H. apply bind_ret_inv in H as (st & t1 & _ & H). destruct (_ || _).
  - apply bind_ret_inv in H as (answer & t2 & H2 & H). apply of_option_ret in H as [D ->]. apply translate_ret in H2.
    apply bind_ret_inv in H2 as (send & t3 & _ & H2). apply bind_ret_inv in H2 as (request & t4 & _ & H2).
    apply issue_nonce_ret in H2 as (w & W & A). congruence.
  - unfold _nonce_response in H. apply bind_ret_inv in H as ([w a] & t3 & H3 & H). apply load_json_ret in H3 as (-> & A & _). by injection H as <- <-.
Qed.

Lemma receipt_phase_ret context nonce bindings t request response t' :
  _issue_or_reopen_receipt E sr client context nonce bindings t = (Ret (request, response), t') ->
  archived_as (thost t') (sp_request_path _RECEIPT_SPEC) request /\ archived_as (thost t') (sp_response_path _RECEIPT_SPEC) response.
Proof using.
  intros H. unfold _issue_or_reopen_receipt in H. apply bind_ret_inv in H as (st & t1 & _ & H). destruct (_ || _).
  - apply bind_ret_inv in H as ([q answer] & t2 & H2 & H). apply translate_ret in H2.
    apply bind_ret_inv in H2 as (send & t3 & _ & H2). apply bind_ret_inv in H2 as (r & t4 & _ & H2).
    apply bind_ret_inv in H2 as (a & t5 & H5 & H2). injection H2 as <- <- <-. apply issue_receipt_ret in H5 as (A & w & W & B).
    apply bind_ret_inv in H as (v & t6 & H6 & H). apply of_option_ret in H6 as [D ->]. injection H as <- <- <-. rewrite D in W. injection W as ->. by split.
  - unfold _receipt_request, _receipt_response in H. apply bind_ret_inv in H as (q & t2 & H2 & H).
    apply bind_ret_inv in H2 as ([w a] & t3 & H3 & H2). apply load_json_ret in H3 as (-> & A & _). injection H2 as -> <-.
    apply bind_ret_inv in H as (v & t4 & H4 & H). apply bind_ret_inv in H4 as ([w' a'] & t3 & H3 & H4).
    apply load_json_ret in H3 as (-> & B & _). injection H4 as -> <-. injection H as <- <- <-. by split.
Qed.
End Phases.
