(* ===== verification/Finalization.v ===== *)
(** * The run record

    What [finalize_session] of src/scripts/physical_capture/finalize.py promises
    its caller: the value it returns is the run record of the archive, composed
    from the archived request and receipt, bound by the last record of the
    journal, and never another one afterwards; a receipt is asked for only on
    what the archive holds; and an attempt whose end is not known is closed, not
    repeated. *)

From S2P Require Import Prelude Sha256 Text Json DateTime Effects Programs Archive ArchiveProofs ArchiveSafety ArchiveProgress Observation TrustPolicy.
From S2P Require Import Python Timestamp Identity Catalogue CollectorRequest Composition CollectorProofs ArtifactReader ReaderProofs ProofMaterial.
From S2P Require Import Documents RecordProofs RecordDocuments.
From S2P Require Import Journal JournalHistory Session JournalStore SessionProofs Recovery RecoveryProofs SessionKeeps Transaction TransactionProofs Finalize FinalizeProofs SessionRuns RecoverySpec FinalizeSpec.

Open Scope Z_scope.
Open Scope list_scope.
Import Quiet.

(** ** Finalization *)

(** The durable journal ends in [FINALIZED]. *)
Definition journal_finalized (h : host) : Prop :=
  exists l sn, journal_is h l /\ replay l = Ok (Some sn) /\ sn_state sn = FINALIZED.

(** [v] is, as it is read from the archive, the run record composed under [cd]
    from the receipt request and the receipt of the archive. *)
Definition composed_run (cd : conditions) (context : json) (h : host) (v : json) : Prop :=
  exists request response r,
    archived_as h (sp_request_path _RECEIPT_SPEC) request /\ archived_as h (sp_response_path _RECEIPT_SPEC) response /\
    compose_run_record (cd_plist_loads cd) (cd_runner cd) (cd_policy_file cd) (cd_clock cd) (cd_now cd) context request response = Ok r /\
    v = normalize (run_record_json r).

Section Finalization.
Context (E : env) (mz : materializers) (vd : validators) (sr : surroundings) (client : result pyexn (role -> json -> nat -> reply)) (context : json).
Hypothesis clock : good_clock E.

Lemma snapshot_host : within (fun s s' : session => s_host s' = s_host s) (snapshot_property E).
Proof using.
  intros s. destruct (snapshot_property E s) as [o s'] eqn:H. cbn [snd]. unfold snapshot_property in H.
  apply bind_reads in H as [([] & _ & H) | [-> _]]; [|done|apply require_session_open_reads].
  unfold gets, mbind at 1, M_bind at 1 in H. destruct (s_snapshot s); [by injection H as _ <-|].
  apply bind_reads in H as [(x & _ & H) | [-> _]]; [|done|apply replay_final_events_reads].
  apply bind_cases in H as [([] & s1 & H1 & H) | [(e & H1 & _) | [H1 _]]]; [|discriminate H1|discriminate H1].
  injection H1 as <-. destruct x; by injection H as _ <-.
Qed.

Lemma state_read t st t' : tinv t -> on_session (state_property E) t = (Ret st, t') ->
  tinv t' /\ thost t' = thost t /\ t_posts t' = t_posts t /\ exists sn, s_snapshot (t_session t') = Some sn /\ sn_state sn = st.
Proof using.
  intros Hi H. pose proof (state_quiet E t) as Q. rewrite H in Q. destruct Q as (Q & _ & P). split; [by apply Q|].
  split; [|split; [exact P|by eapply state_property_ret]]. apply on_session_run in H as [_ H]. unfold state_property in H.
  apply bind_ret_inv in H as (sn & s1 & H1 & H). injection H as _ Hs. pose proof (snapshot_host (t_session t)) as W. rewrite H1, Hs in W. exact W.
Qed.

Lemma interrupted_read t b t' : tinv t -> on_session (interrupted_attempt E) t = (Ret b, t') ->
  tinv t' /\ thost t' = thost t /\ t_posts t' = t_posts t /\ exists sn, s_snapshot (t_session t') = Some sn /\
    b = bool_decide (sn_state sn = NONCE_ATTEMPTED) || bool_decide (sn_state sn = RECEIPT_ATTEMPTED).
Proof using.
  intros Hi H. pose proof (on_session_run _ _ _ _ H) as [P H']. unfold interrupted_attempt in H'. apply bind_ret_inv in H' as (st & s1 & H1 & H').
  injection H' as <- Hs. rewrite Hs in H1. assert (R : on_session (state_property E) t = (Ret st, t')).
  { unfold on_session, zoom. rewrite H1. unfold set_session. rewrite <-P. by destruct t'. }
  apply state_read in R as (A & B & C & sn & D & <-); [|done]. split; [done|]. split; [done|]. split; [done|]. by exists sn.
Qed.

Lemma memory_final t sn : tinv t -> s_snapshot (t_session t) = Some sn -> sn_state sn = FINALIZED -> journal_finalized (thost t).
Proof using.
  intros Hi M S. destruct (si_store _ _ (ti_session _ Hi)) as [l [J B R _ _]]. exists l, sn. split; [done|]. split; [|done].
  eapply terminal_last; [exact J|exact B|exact R| |by rewrite S]. by apply (si_memory _ _ (ti_session _ Hi)).
Qed.

Lemma tsends_inv {A} (m : M txn A) t o t' : within tsends m -> m t = (o, t') -> tinv t -> tinv t'.
Proof using. intros W H Hi. specialize (W t). rewrite H in W. by apply W. Qed.
Lemma tquiet_inv {A} (m : M txn A) t o t' : within tquiet m -> m t = (o, t') -> tinv t -> tinv t'.
Proof using. intros W H Hi. specialize (W t). rewrite H in W. by apply W. Qed.

(** What is read from the archived record is the record. *)
Lemma final_value cd request response r t t' v :
  compose_run_record (cd_plist_loads cd) (cd_runner cd) (cd_policy_file cd) (cd_clock cd) (cd_now cd) context request response = Ok r ->
  archived_as (thost t) RUN_RECORD_RELATIVE (run_record_json r) -> tkeeps t t' -> finalized_as t' v -> v = normalize (run_record_json r).
Proof using.
  intros C A K (_ & l & sn & parts & data & _ & _ & _ & _ & P & F & L & _). apply (archived_keeps _ _ _ _ K) in A as (parts' & c & P' & CJ & F').
  rewrite P in P'. injection P' as <-. rewrite F in F'. injection F' as ->. apply composed_record in C. apply record_sound in C as [PL D].
  rewrite (load_canonical _ c PL (D 0 ltac:(vm_compute; discriminate)) CJ) in L. by injection L as <-.
Qed.

Lemma finalize_returned t v t' :
  tinv t -> finalize_session E mz vd sr client context t = (Ret v, t') ->
  finalized_as t' v /\ (journal_finalized (thost t) \/ composed_run (sr_record sr) context (thost t') v).
Proof using clock.
  intros Hi H. unfold finalize_session in H. apply bind_ret_inv in H as (b & t1 & H1 & H). apply interrupted_read in H1 as (Hi1 & Q1 & _ & _); [|done].
  destruct b; [apply bind_ret_inv in H as (? & ? & _ & H); discriminate H|].
  apply bind_ret_inv in H as (st & t2 & H2 & H). apply state_read in H2 as (Hi2 & Q2 & _ & sn & M & S); [|done].
  destruct (bool_decide (st = FINALIZED)) eqn:B.
  { apply bool_decide_eq_true in B. rewrite B in S. split; [by eapply load_finalized_ret|]. left. rewrite <-Q1, <-Q2. by eapply memory_final. }
  apply bind_ret_inv in H as ([] & t3 & H3 & H). apply check_ret in H3 as [_ ->].
  apply bind_ret_inv in H as (nonce & t3 & H3 & H). apply tsends_inv in H3; [|by apply nonce_phase_sends|done].
  apply bind_ret_inv in H as (proof & t4 & H4 & H). apply of_result_ret in H4 as [_ ->].
  apply bind_ret_inv in H as (rs & t5 & H5 & H). apply tquiet_inv in H5; [|by apply ensure_reports_quiet|done].
  apply bind_ret_inv in H as (x & t6 & H6 & H). pose proof (reads_state _ _ _ _ (validate_report_set_reads vd rs) H6) as ->.
  apply bind_ret_inv in H as (bindings & t7 & H7 & H). apply tquiet_inv in H7; [|by apply ensure_bindings_quiet|done].
  apply bind_ret_inv in H as ([request response] & t8 & H8 & H). pose proof (tsends_inv _ _ _ _ (receipt_phase_sends E clock sr client _ _ _) H8 H7) as Hi8.
  apply receipt_phase_ret in H8 as [A1 A2].
  apply bind_ret_inv in H as (r & t9 & H9 & H). apply of_result_ret in H9 as [C ->]. apply catch_ok in C.
  apply bind_ret_inv in H as (rec & t10 & H10 & H). pose proof (write_json_quiet E (u "run-record.json") (run_record_json r) MAX_DERIVED_DOCUMENT_BYTES) as WQ.
  pose proof (quiet_keeps _ _ _ _ WQ H10) as K10. pose proof (tquiet_inv _ _ _ _ WQ H10 Hi8) as Hi10. apply write_json_ret in H10 as [A3 _].
  apply bind_ret_inv in H as (st' & t11 & H11 & H). pose proof (quiet_keeps _ _ _ _ (state_quiet E) H11) as K11.
  pose proof (tquiet_inv _ _ _ _ (state_quiet E) H11 Hi10) as Hi11.
  apply bind_ret_inv in H as ([] & t12 & H12 & H).
  assert (WA : within tquiet (if bool_decide (st' = RECEIPT_RECEIVED)
     then snapshot ← on_session (append E RUN_FINALIZED (af_sha256 rec));
          check (negb (bool_decide (sn_state snapshot = FINALIZED))) (FinalizationError "run_finalization_state_invalid")
     else mret ())).
  { destruct (bool_decide _); within_auto. apply append_quiet; [exact clock|by intros []]. }
  pose proof (quiet_keeps _ _ _ _ WA H12) as K12. pose proof (tquiet_inv _ _ _ _ WA H12 Hi11) as Hi12.
  pose proof (quiet_keeps _ _ _ _ (load_finalized_quiet E) H) as K13. apply load_finalized_ret in H; [|done]. split; [exact H|]. right.
  assert (K : tkeeps t10 t') by (by do 2 (etrans; [eassumption|])).
  exists request, response, r. split; [|split; [|split; [exact C|by eapply final_value]]]; (eapply archived_keeps; [|eassumption]); by etrans.
Qed.
End Finalization.

(** C8: the value [finalize_session] returns is the run record.  Started in any
    state of a session, with any materialisers, validators and client, when it
    returns a value the archive holds its canonical encoding, the durable journal
    ends in FINALIZED and binds the digest of that file; and unless the journal
    was final from the start, the value is the run record [compose_run_record]
    accepted for the archived receipt request and the archived receipt. *)
Theorem finalize_returns_record E mz vd sr client context t v t' :
  good_clock E -> tinv t -> finalize_session E mz vd sr client context t = (Ret v, t') ->
  finalized_as t' v /\ (journal_finalized (thost t) \/ composed_run (sr_record sr) context (thost t') v).
Proof. intros HE. by apply finalize_returned. Qed.

(** ** After the end *)

(** A terminal record is the last of the journal. *)
Lemma terminal_stays l l' sn o : replay l = Ok (Some sn) -> is_terminal_state (sn_state sn) = true -> replay (l ++ l') = Ok o -> l' = [].
Proof.
  intros R T R'. destruct l' as [|d l']; [done|]. exfalso. unfold replay in R, R'. rewrite replay_from_app, R in R'.
  cbn [mbind result_bind replay_from] in R'. inv_bind R'. apply validate_follows in E as (event & text & binding & F).
  pose proof (fo_transition _ _ _ _ _ _ _ F) as X. cbn [option_map] in X. destruct (terminal_no_transition event _ T) as [e N]. congruence.
Qed.

Lemma finalized_stays t t' v : tinv t -> session_runs t t' -> finalized_as t v -> finalized_as t' v.
Proof.
  intros Hi HR (A & l & sn & parts & data & J & JL & R & S & P & F & L & B & Z). pose proof (session_runs_keeps _ _ HR) as K.
  pose proof (session_runs_inv _ _ HR Hi) as Hi'. destruct (si_store _ _ (ti_session _ Hi')) as [l' [J' B' [o' R'] _ _]].
  split; [by eapply archived_keeps|]. exists l, sn, parts, data.
  destruct (journal_grows _ _ _ _ K J J' JL) as [more ->]. rewrite (terminal_stays _ _ _ _ R ltac:(by rewrite S) R'), app_nil_r in J'.
  split; [done|]. split; [done|]. split; [done|]. split; [done|]. split; [done|]. split; [|done]. apply K; [by eapply relative_published|done].
Qed.

(** What a process needs to read the record: the lock, the archive, the directory
    of derived documents, and the last snapshot in memory. *)
Record reopened (t : txn) : Prop := {
  ro_lock : s_lock (t_session t) = true;
  ro_open : h_open (thost t) = true;
  ro_derived : [u "derived"] ∈ h_dirs (thost t);
  ro_memory : exists sn, s_snapshot (t_session t) = Some sn /\ sn_state sn = FINALIZED
}.

Lemma returns_session {A} (m : M session A) t a :
  m (t_session t) = (Ret a, t_session t) -> on_session m t = (Ret a, t).
Proof. intros H. unfold on_session, zoom. rewrite H. by destruct t. Qed.
Lemma returns_host {A} (m : M host A) t a : m (thost t) = (Ret a, thost t) -> on_archive m t = (Ret a, t).
Proof. intros H. apply returns_session. unfold arch, zoom, thost in *. rewrite H. by destruct (t_session t). Qed.

Section Reopen.
Context (E : env).

Lemma memory_snapshot s sn : s_lock s = true -> s_snapshot s = Some sn -> snapshot_property E s = (Ret sn, s).
Proof. intros L M. unfold snapshot_property, require_session_open, mbind, M_bind, gets, check. rewrite L. cbn. by rewrite M. Qed.

Lemma memory_state s sn : s_lock s = true -> s_snapshot s = Some sn -> state_property E s = (Ret (sn_state sn), s).
Proof. intros L M. unfold state_property. by rewrite (bind_ret_eq _ _ _ _ _ (memory_snapshot _ _ L M)). Qed.

Lemma closed_state s : s_lock s = false -> state_property E s = (Raise (SessionError "session_closed"), s).
Proof. intros L. unfold state_property, snapshot_property, require_session_open, mbind, M_bind, gets, check. by rewrite L. Qed.

Lemma read_document t relative parts data maximum : h_open (thost t) = true -> way_open (removelast parts) (thost t) ->
  _relative_parts relative = Ok parts -> (2 <= length parts)%nat -> h_files (thost t) !! parts = Some data -> 1 <= len data <= maximum ->
  read_bytes E relative maximum (thost t) = (Ret data, thost t).
Proof.
  intros O W P L F Z. destruct (read_calm relative maximum parts P L E data (thost t) (fun d h => d = data /\ h = thost t) O W F Z ltac:(done))
    as (a & s' & H & -> & ->). exact H.
Qed.

(** A document that was archived is read back. *)
Lemma load_document t relative parts data maximum v : h_open (thost t) = true -> way_open (removelast parts) (thost t) ->
  _relative_parts relative = Ok parts -> (2 <= length parts)%nat -> h_files (thost t) !! parts = Some data -> 1 <= len data <= maximum ->
  load_json_bytes data = Some v -> (exists l, v = JObj l) -> (exists c, canonical_json v = Some c /\ data = c ++ [x0a]) ->
  _load_json E relative maximum t = (Ret (v, archived relative data), t).
Proof.
  intros O W P L F Z HL [l ->] (c & C & HD). pose proof (read_document _ _ _ _ _ O W P L F Z) as R. unfold _load_json, translate, try_except.
  rewrite (bind_ret_eq _ _ _ _ _ (returns_host _ _ _ R)), HL. rewrite (bind_ret_eq (of_option RawArtifactError (Some (JObj l))) _ t (JObj l) t eq_refl).
  assert (D : describe_file E relative maximum (thost t) = (Ret (archived relative data), thost t)).
  { unfold describe_file. by rewrite (bind_ret_eq _ _ _ _ _ R). }
  rewrite (bind_ret_eq _ _ _ _ _ (returns_host _ _ _ D)), C. rewrite (bind_ret_eq (of_option RawArtifactError (Some c)) _ t c t eq_refl).
  rewrite (proj2 (bool_decide_eq_true (c ++ [x0a] = data)) (eq_sym HD)), (proj2 (bool_decide_eq_true (_ = _)) eq_refl). reflexivity.
Qed.
End Reopen.

(** A process that has the finalized session open reads its record. *)
Lemma finalize_reopens E mz vd sr client context t v :
  tinv t -> finalized_as t v -> reopened t -> finalize_session E mz vd sr client context t = (Ret v, t).
Proof.
  intros Hi ((parts' & c & P' & C & F') & l & sn & parts & data & J & B & R & _ & P & F & L & SB & Z & O) [RL RO RD (sn' & M & S)].
  assert (sn' = sn) as ->.
  { destruct (si_store _ _ (ti_session _ Hi)) as [l' [J' B' R' _ _]]. pose proof (si_memory _ _ (ti_session _ Hi) _ M) as K.
    rewrite (journal_unique _ _ _ J' J B' B) in *. pose proof (terminal_last _ _ _ J B R' K ltac:(by rewrite S)). congruence. }
  pose proof (memory_snapshot E _ _ RL M) as SP. rewrite P in P'. injection P' as <-. rewrite F in F'. injection F' as ->.
  pose proof (memory_state E _ _ RL M) as SS. rewrite S in SS.
  assert (SI : interrupted_attempt E (t_session t) = (Ret false, t_session t)) by (unfold interrupted_attempt; by rewrite (bind_ret_eq _ _ _ _ _ SS)).
  unfold finalize_session. rewrite (bind_ret_eq _ _ _ _ _ (returns_session _ _ _ SI)), (bind_ret_eq _ _ _ _ _ (returns_session _ _ _ SS)).
  rewrite (proj2 (bool_decide_eq_true (FINALIZED = FINALIZED)) eq_refl). unfold load_finalized_run_record.
  rewrite (bind_ret_eq _ _ _ _ _ (returns_session _ _ _ SS)), (proj2 (bool_decide_eq_true (FINALIZED = FINALIZED)) eq_refl).
  rewrite (bind_ret_eq (check (negb true) _) _ t () t eq_refl).
  assert (PP : parts = [u "derived"; u "run-record.json"]) by (clear -P; vm_compute in P; vm_compute; congruence).
  erewrite (bind_ret_eq (_load_json _ _ _)); [|eapply load_document; try eassumption; [|by rewrite PP; cbn; lia|by exists c]].
  - cbv beta iota. rewrite (bind_ret_eq _ _ _ _ _ (returns_session _ _ _ SP)). cbn [af_sha256 archived]. rewrite SB, str_eqb_refl. reflexivity.
  - rewrite PP. cbn [removelast]. intros p. unfold prefixes. cbn. rewrite list_elem_of_singleton. by intros ->.
Qed.

(** C10: a run is finalized once.  When [finalize_session] has returned a run record,
    whatever happens to the session afterwards (further operations, transactions and
    finalizations that finish, fail or are killed, processes that end and recover),
    the archive still holds that record and the journal still ends in its digest;
    every later finalization that returns a value, in whatever surroundings and for
    whatever context, returns the same one; and a process that has the session open
    does return it. *)
Theorem finalized_for_good E mz vd sr client context t v t1 t2 :
  good_clock E -> tinv t -> finalize_session E mz vd sr client context t = (Ret v, t1) -> session_runs t1 t2 ->
  finalized_as t2 v /\
  forall E' mz' vd' sr' client' context', good_clock E' ->
    (forall v' t3, finalize_session E' mz' vd' sr' client' context' t2 = (Ret v', t3) -> v' = v) /\
    (reopened t2 -> finalize_session E' mz' vd' sr' client' context' t2 = (Ret v, t2)).
Proof.
  intros HE Hi H HR. pose proof (tsends_inv _ _ _ _ (finalize_sends E HE mz vd sr client context) H Hi) as Hi1.
  apply (finalize_returned E mz vd sr client context HE) in H as [F1 _]; [|done]. pose proof (session_runs_inv _ _ HR Hi1) as Hi2.
  pose proof (finalized_stays _ _ _ Hi1 HR F1) as F2. split; [exact F2|]. intros E' mz' vd' sr' client' context' HE'. split; [|by apply finalize_reopens].
  intros v' t3 H'. pose proof (sends_keeps _ _ _ _ (finalize_sends E' HE' mz' vd' sr' client' context') H') as K.
  apply (finalize_returned E' mz' vd' sr' client' context' HE') in H' as [F3 _]; [|done].
  destruct F2 as (_ & l & sn & parts & data & _ & _ & _ & _ & P & F & L & _), F3 as (_ & l' & sn' & parts' & data' & _ & _ & _ & _ & P' & F' & L' & _).
  rewrite P in P'. injection P' as <-. apply K in F; [|by eapply relative_published]. congruence.
Qed.

(** ** When a receipt is asked for *)

Definition receipts (t : txn) : list post := List.filter (fun p => bool_decide (po_role p = Receipt)) (t_posts t).

(** The invariant and the published files are kept, and no receipt is asked for. *)
Definition no_receipt (t t' : txn) : Prop := tinv t -> tinv t' /\ tkeeps t t' /\ receipts t' = receipts t.
#[export] Instance no_receipt_refl : Reflexive no_receipt.
Proof. intros t H. split; [done|]. split; [reflexivity|done]. Qed.
#[export] Instance no_receipt_trans : Transitive no_receipt.
Proof.
  intros a b c H1 H2 Ha. destruct (H1 Ha) as (Hb & K1 & R1). destruct (H2 Hb) as (Hc & K2 & R2). split; [done|]. split; [by etrans|congruence].
Qed.

Lemma quiet_no_receipt {A} (m : M txn A) : within tquiet m -> within no_receipt m.
Proof. apply within_impl. intros s s' (H1 & H2 & H3) Hi. split; [by apply H1|]. split; [done|]. unfold receipts. by rewrite H3. Qed.

Lemma nonce_phase_no_receipt E sr client context : good_clock E -> within no_receipt (_issue_or_reopen_nonce E sr client context).
Proof.
  intros HE. assert (I : forall send request, within no_receipt (issue_nonce E send request)).
  { intros send request t Hi. destruct (issue_nonce E send request t) as [o t'] eqn:H. cbn [snd].
    pose proof (sends_keeps _ _ _ _ (issue_nonce_sends E HE send request) H) as K.
    destruct (issue_nonce_cases E send HE request t o t' Hi H) as [[Hi' _] P]. split; [done|]. split; [exact K|]. unfold receipts.
    destruct P as [-> | (n & d & h & p & sn & _ & -> & R & _)]; [done|]. rewrite List.filter_app. cbn [List.filter]. rewrite R. apply app_nil_r. }
  unfold _issue_or_reopen_nonce. within_auto.
  - apply quiet_no_receipt, state_quiet.
  - apply quiet_no_receipt, nonce_response_quiet.
Qed.

Lemma translate_state {S A} p e (m : M S A) s o s' : translate p e m s = (o, s') -> exists o', m s = (o', s').
Proof. unfold translate, try_except. destruct (m s) as [[x|x|] s1]; [|destruct (p x)|]; intros H; injection H as _ <-; by eexists. Qed.
Lemma issue_state {A B} (m : M txn A) (f : A -> B) t o t' : (a ← m; mret (f a)) t = (o, t') -> exists o', m t = (o', t').
Proof.
  intros H. apply bind_cases in H as [(a & t1 & H1 & H) | [(e & H1 & _) | [H1 _]]]; [|by eexists..]. injection H as _ <-. by eexists.
Qed.

(** The receipt phase asks for at most one receipt, for the request it builds. *)
Lemma receipt_phase_cases E sr client context nonce bindings t o t' : good_clock E -> tinv t ->
  _issue_or_reopen_receipt E sr client context nonce bindings t = (o, t') ->
  receipts t' = receipts t \/
  exists request t1, build_receipt_request (cd_plist_loads (sr_receipt sr)) (cd_runner (sr_receipt sr)) (cd_clock (sr_receipt sr)) context nonce bindings None
      = Ok request /\ no_receipt t t1 /\ sent Receipt (request_json request) t1 t'.
Proof.
  intros HE Hi H. unfold _issue_or_reopen_receipt in H.
  apply (bind_within no_receipt) in H as [(st & t1 & _ & W1 & H) | [W _]]; [|left; by apply W|apply quiet_no_receipt, state_quiet].
  destruct (W1 Hi) as (Hi1 & _ & R1). destruct (_ || _).
  2: { left. rewrite <-R1. assert (W : within no_receipt (request ← _receipt_request E; response ← _receipt_response E; mret (request, response))).
       { within_auto; apply quiet_no_receipt; [apply receipt_request_quiet|apply receipt_response_quiet]. }
       specialize (W t1 Hi1). unfold mbind in W, H. rewrite H in W. apply W. }
  apply bind_cases in H as [([q a] & t2 & H2 & H) | [(e & H2 & _) | [H2 _]]];
    [assert (t' = t2) as -> by (destruct (as_dict a); by injection H as _ <-)| |];
    apply translate_state in H2 as (o2 & H2);
    (apply bind_result in H2 as [(send & _ & H2) | [-> _]]; [|left; exact R1]);
    (apply bind_result in H2 as [(request & HB & H2) | [-> _]]; [|left; exact R1]);
    apply issue_state in H2 as (o3 & H2);
    (destruct (issue_receipt_cases E send HE _ _ _ _ Hi1 H2) as [_ [P | S]]; [left; unfold receipts; rewrite P; exact R1|right; exists request, t1; by split_and!]).
Qed.

(** What a request for a receipt stands on, in the archive [h]: the archived nonce,
    from which a proof is built under the conditions of the proof phase; the
    archived report set, validated against the artifacts; the archived bindings of
    its reports and artifacts; the request built from them, archived as sent. *)
Definition grounded (vd : validators) (sr : surroundings) (context : json) (h : host) (p : post) : Prop :=
  exists nonce proof report_set b bindings request data sha,
    archived_as h (sp_response_path _NONCE_SPEC) nonce /\
    build_proof_material (cd_plist_loads (sr_proof sr)) (cd_runner (sr_proof sr)) (cd_policy_file (sr_proof sr)) (cd_clock (sr_proof sr))
      context nonce None = Ok proof /\
    archived_as h REPORT_SET_RELATIVE report_set /\
    (exists t x, hkeeps (thost t) h /\ _validate_report_set vd report_set t = (Ret x, t)) /\
    bindings_of_set report_set b /\ archived_as h RECEIPT_BINDINGS_RELATIVE bindings /\
    (bindings = bindings_json b \/ py_eq bindings (bindings_json b) = true) /\
    build_receipt_request (cd_plist_loads (sr_receipt sr)) (cd_runner (sr_receipt sr)) (cd_clock (sr_receipt sr)) context nonce bindings None = Ok request /\
    _canonical_request _RECEIPT_SPEC (request_json request) = Ok (po_request p, data, sha) /\ h_files h !! request_parts Receipt = Some data.

Section Grounds.
Context (E : env) (mz : materializers) (vd : validators) (sr : surroundings) (client : result pyexn (role -> json -> nat -> reply)) (context : json).
Hypothesis clock : good_clock E.

(** What follows the receipt asks for no other. *)
Lemma record_phase_no_receipt (request response : json) : within no_receipt (
  let cd := sr_record sr in
  record ← of_result (catch is_composition_error (FinalizationError "run_record_invalid")
    (compose_run_record (cd_plist_loads cd) (cd_runner cd) (cd_policy_file cd) (cd_clock cd) (cd_now cd) context request response));
  archived_record ← _write_or_reopen_json E RUN_RECORD_RELATIVE (run_record_json record) MAX_DERIVED_DOCUMENT_BYTES;
  state ← on_session (state_property E);
  (if bool_decide (state = RECEIPT_RECEIVED) then
     snapshot ← on_session (append E RUN_FINALIZED (af_sha256 archived_record));
     check (negb (bool_decide (sn_state snapshot = FINALIZED))) (FinalizationError "run_finalization_state_invalid")
   else mret ()) ≫= fun _ =>
  load_finalized_run_record E).
Proof using clock.
  apply quiet_no_receipt. cbv zeta. within_auto.
  - apply (write_json_quiet E (u "run-record.json")).
  - apply state_quiet.
  - apply append_quiet; [exact clock|by intros []].
  - apply load_finalized_quiet.
Qed.

Lemma receipt_grounds nonce proof rs b bindings t4 x t5 o t6 t' :
  tinv t5 -> archived_as (thost t5) (sp_response_path _NONCE_SPEC) nonce ->
  build_proof_material (cd_plist_loads (sr_proof sr)) (cd_runner (sr_proof sr)) (cd_policy_file (sr_proof sr)) (cd_clock (sr_proof sr))
    context nonce None = Ok proof ->
  archived_as (thost t5) REPORT_SET_RELATIVE rs -> _validate_report_set vd rs t4 = (Ret x, t4) -> tkeeps t4 t5 ->
  bindings_of_set rs b -> archived_as (thost t5) RECEIPT_BINDINGS_RELATIVE bindings -> bindings = bindings_json b \/ py_eq bindings (bindings_json b) = true ->
  _issue_or_reopen_receipt E sr client context nonce bindings t5 = (o, t6) -> tkeeps t6 t' -> receipts t' = receipts t6 ->
  receipts t' = receipts t5 \/ exists p, receipts t' = receipts t5 ++ [p] /\ grounded vd sr context (thost t') p.
Proof using clock.
  intros Hi A1 HP A2 HV K B A3 BJ H K6 ->. pose proof (sends_keeps _ _ _ _ (receipt_phase_sends E clock sr client _ _ _) H) as K5.
  assert (K' : tkeeps t5 t') by (by etrans).
  apply receipt_phase_cases in H as [-> | (request & t1 & HB & W & S)]; [by left| |done|done]. right.
  destruct (W Hi) as (_ & _ & R). destruct S as (n & data & sha & p & sn & HC & HPo & HR & <- & HF & _). exists p.
  split; [unfold receipts; rewrite HPo, List.filter_app; cbn [List.filter]; rewrite HR; by f_equal|].
  exists nonce, proof, rs, b, bindings, request, data, sha. split; [by eapply archived_keeps|]. split; [done|]. split; [by eapply archived_keeps|].
  split; [exists t4, x; split; [by etrans|done]|]. split; [done|]. split; [by eapply archived_keeps|]. split; [done|]. split; [done|]. split; [exact HC|].
  apply K6; [|exact HF]. eapply relative_published, request_parts_ok.
Qed.

End Grounds.

(** ** An attempt whose end is not known *)

Definition unknown_state (r : role) : CaptureState := match r with Nonce => NONCE_OUTCOME_UNKNOWN | Receipt => RECEIPT_OUTCOME_UNKNOWN end.

(** The durable journal ends in a record of state [st]. *)
Definition journal_ends (h : host) (st : CaptureState) : Prop :=
  exists l sn, journal_is h l /\ replay l = Ok (Some sn) /\ sn_state sn = st.

Section Interrupted.
Context (E : env).
Hypothesis clock : good_clock E.

Lemma resolve_ends D r s sn sn' s' : sinv D s -> s_lock s = true -> s_snapshot s = Some sn -> sn_state sn = sp_attempted_state (spec_of r) ->
  resolve_interrupted_attempt E s = (Ret sn', s') -> journal_ends (s_host s') (unknown_state r).
Proof using clock.
  intros Hi L M S H. pose proof (memory_state E _ _ L M) as SS. rewrite S in SS.
  unfold resolve_interrupted_attempt in H. rewrite (bind_ret_eq _ _ _ _ _ SS) in H.
  assert (X : exists event b, (forall nonce, event <> pre_send_event nonce) /\ append E event b s = (Ret sn', s') /\
    _transition_for event (Some (sn_state sn)) = Ok (unknown_state r)).
  { rewrite S. destruct r; (do 2 eexists; split; [|split; [exact H|reflexivity]]); by intros []. }
  destruct X as (event & b & N & HA & T). apply (append_ret E D clock) in HA as (_ & _ & _ & l & data & c & A & Mem); [|by apply keeps_other|done].
  rewrite (Mem _ M) in A. destruct A as [_ _ (tx & F) St R _ _]. pose proof (fo_transition _ _ _ _ _ _ _ F) as X. cbn [option_map] in X.
  exists (l ++ [data]), sn'. split; [apply St|]. split; [exact R|]. congruence.
Qed.

Context (mz : materializers) (vd : validators) (sr : surroundings) (client : result pyexn (role -> json -> nat -> reply)) (context : json).

(** C11: an interrupted transaction is never repeated by finalization.  When the last
    known event is an attempt whose end was not recorded, [finalize_session] hands
    nothing to the client and returns no record; and when the resolution can be
    recorded, it raises [network_outcome_unknown] with the durable journal closed
    in the outcome-unknown state of that role. *)
Theorem interrupted_run_closes r t sn o t' :
  tinv t -> s_snapshot (t_session t) = Some sn -> sn_state sn = sp_attempted_state (spec_of r) ->
  finalize_session E mz vd sr client context t = (o, t') ->
  t_posts t' = t_posts t /\ (forall v, o <> Ret v) /\
  ((o = Raise (FinalizationError "network_outcome_unknown") /\ journal_ends (thost t') (unknown_state r)) \/
   forall sn', fst (resolve_interrupted_attempt E (t_session t)) <> Ret sn').
Proof using clock.
  intros Hi M S H. unfold finalize_session in H. destruct (s_lock (t_session t)) eqn:L.
  - pose proof (memory_state E _ _ L M) as SS. assert (SI : interrupted_attempt E (t_session t) = (Ret true, t_session t)).
    { unfold interrupted_attempt. rewrite (bind_ret_eq _ _ _ _ _ SS), S. by destruct r. }
    rewrite (bind_ret_eq _ _ _ _ _ (returns_session _ _ _ SI)) in H. destruct (resolve_interrupted_attempt E (t_session t)) as [ro s1] eqn:HR.
    assert (HS : on_session (resolve_interrupted_attempt E) t = (ro, set_session s1 t)) by (unfold on_session, zoom; by rewrite HR).
    unfold translate, try_except, mbind, M_bind in H. rewrite HS in H. destruct ro as [sn'|e|].
    + injection H as <- <-. split; [done|]. split; [done|]. left. split; [done|]. eapply resolve_ends; try done. apply Hi.
    + assert (t' = set_session s1 t /\ forall v, o <> Ret v) as [-> N] by (destruct (is_session_error e) in H; by injection H as <- <-).
      split; [done|]. split; [done|]. right. by intros sn'.
    + injection H as <- <-. split; [done|]. split; [done|]. right. by intros sn'.
  - pose proof (closed_state E _ L) as SS. assert (HI : on_session (interrupted_attempt E) t = (Raise (SessionError "session_closed"), t)).
    { unfold on_session, zoom, interrupted_attempt. rewrite (bind_raise_eq _ _ _ _ _ SS). by destruct t. }
    rewrite (bind_raise_eq _ _ _ _ _ HI) in H. injection H as <- <-. split; [done|]. split; [done|]. right. intros sn'.
    unfold resolve_interrupted_attempt. by rewrite (bind_raise_eq _ _ _ _ _ SS).
Qed.
End Interrupted.

(** ** A finalized session *)

(** The records of [events] after the journal [l], with what they are bound to. *)
Fixpoint demo_records (h : host) (l : list bytes) (o : option SessionSnapshot) (events : list (CaptureEvent * str))
  : host * list bytes * option SessionSnapshot :=
  match events with
  | [] => (h, l, o)
  | (event, b) :: events =>
      let w := demo_record b o (len l + 1) event in demo_records (demo_put (len l + 1) w h) (l ++ [fst w]) (Some (snd w)) events
  end.
Fixpoint demo_states (st : option CaptureState) (events : list (CaptureEvent * str)) : result pyexn (option CaptureState) :=
  match events with [] => Ok st | (event, _) :: events => to ← _transition_for event st; demo_states (Some to) events end.

#[local] Opaque demo_record demo_put.

Lemma demo_records_journal events : forall h l o st st', demo_journal h l o st -> demo_states st events = Ok st' ->
  forallb (fun e => is_sha256 (snd e)) events = true -> len l + len events <= MAX_JOURNAL_EVENTS ->
  demo_journal (fst (fst (demo_records h l o events))) (snd (fst (demo_records h l o events))) (snd (demo_records h l o events)) st'.
Proof.
  induction events as [|[event b] events IH]; intros h l o st st' J T B Z; cbn [demo_states] in T; [by injection T as <-|].
  inv_bind T. cbn [forallb snd] in B. apply andb_prop in B as [B1 B2]. rewrite len_cons in Z. pose proof (len_nonneg events).
  cbn [demo_records]. apply (IH _ _ _ (Some v)); [|done|done|rewrite len_app, len_cons, len_nil; lia].
  by apply (demo_extend b h l o st event v _ B1 J eq_refl ltac:(lia)).
Qed.

Lemma demo_records_app events events' : forall h l o, demo_records h l o (events ++ events') =
  let '(h', l', o') := demo_records h l o events in demo_records h' l' o' events'.
Proof. induction events as [|[event b] events IH]; intros h l o; cbn [demo_records app]; [done|apply IH]. Qed.

Definition demo_document : bytes := bstr "{}" ++ [x0a].
Definition demo_record_path : path := [u "derived"; u "run-record.json"].
(** The session of a journal of [events], with a run record in its archive. *)
Definition demo_session (events : list (CaptureEvent * str)) : txn :=
  let '(h, _, o) := demo_records demo_empty [] None events in
  Txn (Session (Host true {[ [u "derived"] ]} (<[demo_record_path := demo_document]> (h_files h)) [] true 0) true o false) [].

Lemma demo_session_inv events st : demo_states None events = Ok st -> forallb (fun e => is_sha256 (snd e)) events = true ->
  len events <= MAX_JOURNAL_EVENTS ->
  tinv (demo_session events) /\ option_map sn_state (s_snapshot (t_session (demo_session events))) = st /\
  exists l, journal_is (thost (demo_session events)) l /\ len l <= MAX_JOURNAL_EVENTS /\ replay l = Ok (s_snapshot (t_session (demo_session events))).
Proof.
  intros T B Z. pose proof (demo_records_journal events _ _ _ _ _ demo_empty_journal T B Z) as J. unfold demo_session.
  destruct (demo_records _ _ _ _) as [[h l] o]. cbn [fst snd t_session s_snapshot thost s_host] in *. destruct J as [St R Hst _ _].
  set (h' := Host true _ _ [] true 0). assert (K : kept [JOURNAL_DIRECTORY] h h').
  { intros p Hp. cbn [h' h_files]. apply lookup_insert_ne. intros <-. discriminate Hp. }
  apply (store_kept _ _ _ _ K) in St. split; [|split; [exact Hst|exists l; split; [apply St|split; [apply St|exact R]]]].
  constructor; cbn [t_session t_posts]; [|by intros [] ? ? ?]. constructor; cbn [s_host s_snapshot].
  - exists l. destruct St as [S1 S2 S3 S4 _]. constructor; try done. intros nonce (p & Hin & _). by apply not_elem_of_nil in Hin.
  - intros sn ->. by eapply known_last; [apply St|apply St|].
Qed.

Lemma demo_session_binding events event b : (exists st st', demo_states None events = Ok st /\ _transition_for event st = Ok st') ->
  forallb (fun e => is_sha256 (snd e)) events = true -> is_sha256 b = true -> len events < MAX_JOURNAL_EVENTS ->
  exists sn, s_snapshot (t_session (demo_session (events ++ [(event, b)]))) = Some sn /\ sn_last_binding_sha256 sn = b.
Proof.
  intros (st & st' & T & T') B Hb Z. pose proof (demo_records_journal events _ _ _ _ _ demo_empty_journal T B ltac:(rewrite len_nil; lia)) as J.
  unfold demo_session. rewrite demo_records_app. destruct (demo_records _ _ _ _) as [[h l] o]. cbn [fst snd] in J.
  cbn [demo_records t_session s_snapshot]. destruct J as [St R Hst Ht Hd]. rewrite <-Hst in T'. eexists. split; [reflexivity|].
  pose proof (st_bound _ _ _ St). pose proof (len_nonneg l). unfold MAX_JOURNAL_EVENTS in *.
  destruct (demo_record_follows b o (len l + 1) event st' Hb ltac:(lia) T' Ht Hd) as [F _]. by rewrite (fo_next _ _ _ _ _ _ _ F).
Qed.

Definition demo_bound (events : list CaptureEvent) : list (CaptureEvent * str) := map (fun e => (e, demo_binding)) events.
Definition demo_attempted : list (CaptureEvent * str) := demo_bound
  [SESSION_STARTED; COLLECTION_STARTED; RAW_COMPLETED; E_NONCE_REQUEST_PREPARED; NONCE_ATTEMPT_STARTED; NONCE_RESPONSE_RECORDED;
   E_REPORTS_COMPOSED; E_BINDINGS_COMPOSED; E_RECEIPT_REQUEST_PREPARED; RECEIPT_ATTEMPT_STARTED].
Definition demo_receipted : list (CaptureEvent * str) := demo_attempted ++ demo_bound [RECEIPT_RESPONSE_RECORDED].
Definition demo_final : txn := demo_session (demo_receipted ++ [(RUN_FINALIZED, hexdigest demo_document)]).
Definition demo_interrupted : txn := demo_session demo_attempted.

#[local] Opaque demo_session hexdigest.

Lemma demo_final_inv : tinv demo_final /\
  option_map sn_state (s_snapshot (t_session demo_final)) = Some FINALIZED /\
  exists l, journal_is (thost demo_final) l /\ len l <= MAX_JOURNAL_EVENTS /\ replay l = Ok (s_snapshot (t_session demo_final)).
Proof.
  apply demo_session_inv; [vm_compute; reflexivity| |vm_compute; discriminate].
  rewrite forallb_app. cbn [forallb snd]. rewrite hexdigest_sha256. vm_compute. reflexivity.
Qed.
Lemma demo_final_binding : exists sn, s_snapshot (t_session demo_final) = Some sn /\ sn_last_binding_sha256 sn = hexdigest demo_document.
Proof.
  apply demo_session_binding; [|vm_compute; reflexivity|apply hexdigest_sha256|vm_compute; reflexivity].
  exists (Some RECEIPT_RECEIVED), FINALIZED. split; vm_compute; reflexivity.
Qed.

#[local] Transparent demo_session.
Lemma demo_session_files events : s_lock (t_session (demo_session events)) = true /\ h_open (thost (demo_session events)) = true /\
  [u "derived"] ∈ h_dirs (thost (demo_session events)) /\ h_files (thost (demo_session events)) !! demo_record_path = Some demo_document.
Proof.
  unfold demo_session. destruct (demo_records _ _ _ _) as [[h l] o]. cbn [t_session s_lock thost s_host h_open h_dirs h_files].
  split; [done|]. split; [done|]. split; [by apply elem_of_singleton|apply lookup_insert_eq].
Qed.
#[local] Opaque demo_session.

Lemma demo_finalized : finalized_as demo_final (JObj []) /\ reopened demo_final.
Proof.
  destruct demo_final_inv as (_ & S & l & J & B & R). destruct demo_final_binding as (sn & M & SB). rewrite M in S, R. injection S as S.
  destruct (demo_session_files (demo_receipted ++ [(RUN_FINALIZED, hexdigest demo_document)])) as (F1 & F2 & F3 & F4). fold demo_final in F1, F2, F3, F4.
  assert (P : _relative_parts RUN_RECORD_RELATIVE = Ok demo_record_path) by (vm_compute; reflexivity). split.
  - split; [exists demo_record_path, (bstr "{}"); split; [exact P|split; [vm_compute; reflexivity|exact F4]]|].
    exists l, sn, demo_record_path, demo_document. split; [exact J|]. split; [exact B|].
    split; [exact R|]. split; [exact S|]. split; [exact P|]. split; [exact F4|].
    split; [vm_compute; reflexivity|]. split; [exact SB|]. split; [split; vm_compute; discriminate|eexists; reflexivity].
  - constructor; [exact F1|exact F2|exact F3|exists sn; split; [exact M|exact S]].
Qed.

(** Nothing is asked of the machine, the service or the harnesses here. *)
Definition demo_materializers : materializers :=
  let failed {A} : materializer A := Finish (Err PhysicalMaterializationError) in
  {| materialize_lifecycle_events _ := failed; compose_lifecycle_report _ _ := failed; materialize_packet_report _ _ _ := failed;
     compose_performance_report _ _ := failed; materialize_adversarial_report _ _ _ := failed |}.
Definition demo_validators : validators := fun _ _ => Finish (Err TypeError).
Definition demo_conditions : conditions := {|
  cd_plist_loads _ := NotPlist; cd_runner _ := NotStarted; cd_clock := {| ck_candidate := 0; ck_context := 0; ck_nonce := 0; ck_request := 0 |};
  cd_now := 0; cd_policy_file := Err FileNotFoundError |}.
Definition demo_surroundings : surroundings := {|
  sr_nonce := demo_conditions; sr_proof := demo_conditions; sr_receipt := demo_conditions; sr_record := demo_conditions;
  sr_signing := demo_time; sr_signing_check := 0 |}.
Definition demo_finalize : M txn json :=
  finalize_session demo_calm demo_materializers demo_validators demo_surroundings (Ok demo_client) JNull.

Lemma demo_final_returns : demo_finalize demo_final = (Ret (JObj []), demo_final).
Proof. apply finalize_reopens; [apply demo_final_inv|apply demo_finalized|apply demo_finalized]. Qed.

Lemma finalize_returns_record_witness : finalized_as demo_final (JObj []) /\
  (journal_finalized (thost demo_final) \/ composed_run demo_conditions JNull (thost demo_final) (JObj [])).
Proof. exact (finalize_returns_record demo_calm demo_materializers demo_validators demo_surroundings (Ok demo_client) JNull
  demo_final (JObj []) demo_final (demo_clock (fun _ => Proceed)) (proj1 demo_final_inv) demo_final_returns). Defined.

Lemma finalized_for_good_witness : finalized_as demo_final (JObj []) /\ demo_finalize demo_final = (Ret (JObj []), demo_final).
Proof.
  destruct (finalized_for_good demo_calm demo_materializers demo_validators demo_surroundings (Ok demo_client) JNull
    demo_final (JObj []) demo_final demo_final (demo_clock (fun _ => Proceed)) (proj1 demo_final_inv) demo_final_returns (sruns_done demo_final)) as [F G].
  split; [exact F|]. exact (proj2 (G demo_calm demo_materializers demo_validators demo_surroundings (Ok demo_client) JNull (demo_clock (fun _ => Proceed))) (proj2 demo_finalized)).
Defined.


Lemma demo_interrupted_inv : tinv demo_interrupted /\ option_map sn_state (s_snapshot (t_session demo_interrupted)) = Some RECEIPT_ATTEMPTED.
Proof.
  destruct (demo_session_inv demo_attempted (Some RECEIPT_ATTEMPTED)) as (I & S & _); [vm_compute; reflexivity..|vm_compute; discriminate|].
  split; [exact I|exact S].
Qed.

Lemma interrupted_run_closes_witness :
  t_posts (snd (demo_finalize demo_interrupted)) = t_posts demo_interrupted /\ forall v, fst (demo_finalize demo_interrupted) <> Ret v.
Proof.
  destruct demo_interrupted_inv as [I S]. destruct (s_snapshot (t_session demo_interrupted)) as [sn|] eqn:M; [|discriminate S]. injection S as S.
  destruct (interrupted_run_closes demo_calm (demo_clock (fun _ => Proceed)) demo_materializers demo_validators demo_surroundings (Ok demo_client) JNull
    Receipt demo_interrupted sn _ _ I M S (surjective_pairing (demo_finalize demo_interrupted)))
    as (P & N & _). split; [exact P|exact N].
Defined.
